(* ===== verification/_CoqProject ===== *)
-Q . S2P
Prelude.v
Endian.v
Runlist.v
RunlistSpec.v
RunlistBuf.v
RunlistMerge.v
RunlistMergeSpec.v
RunlistMergeProof.v
RunlistTheorems.v
MappingPairs.v
MappingPairsSpec.v
MappingPairsBuild.v
MappingPairsDecode.v
MappingPairsTheorems.v
RunlistEdit.v
RunlistEditProof.v
RunlistPunch.v
RunlistEditTheorems.v
Mst.v
Unistr.v
UnistrTheorems.v
UnistrNls.v
Upcase.v
Collate.v
Attrib.v
AttribSpec.v
AttribTheorems.v
Time.v
Compress.v
CompressSpec.v
CompressTheorems.v
Boot.v
BootTheorems.v
MftMap.v
MftMapSpec.v
AttrLookup.v
AttrLookupProof.v
AttrLookupInv.v
AttrLookupTheorems.v
AttrSession.v
Index.v
IndexSpec.v
IndexTheorems.v
MapRunlist.v
MapRunlistSpec.v
MapRunlistTheorems.v
AttrList.v
Dir.v
DirSpec.v
DirTheorems.v
Statfs.v
MftBitmap.v
MftLayout.v
Options.v
OptionsTheorems.v
Readdir.v
ReaddirSpec.v
ReaddirTheorems.v
ReaddirLive.v
PageRead.v
PageReadSpec.v
PageReadBlock.v
PageReadDone.v
ReadPage.v
ReadPageTheorems.v
Inode.v
InodeSafe.v
InodeDemo.v
InodeTheorems.v
InodeDir.v
InodeFile.v
UserCopy.v
UserCopyTheorems.v
VolFlags.v
VolFlagsTheorems.v
Mount.v
MountSpec.v
MountTheorems.v
WriteRec.v
WriteRecTheorems.v
