(* ===== verification/Prelude.v ===== *)
(** * Verification of the NTFS driver of the advanced_os repository

    ** The program

    [src/ntfs/] is the Linux file system driver for NTFS: C code that turns the
    bytes of a volume into names, attributes and clusters and back.  Its parts and
    how they call each other, from the disk upwards:

    - [mst.c] protects the records on disk against torn writes; [super.c] reads the
      boot sector and derives the geometry of the volume;
    - [mft.c] maps mft records through the page cache and writes them, with reference
      counts and locks in the inodes, and attaches extent records to their base inode;
    - [attrib.c] searches the attributes in a record, follows the attribute list
      into extent records (the search context), loads attribute lists and resizes
      attribute records;
    - [runlist.c] keeps the map from virtual to logical clusters of an attribute
      (the runlist): lookups, merging, truncation, holes, and its form on disk, the
      mapping pairs array; [attrib.c] maps the runlist of an inode on demand, under
      the runlist lock;
    - [index.c] and [dir.c] search the B+trees of indexes and directories, with the
      collation of [collate.c] and the names of [unistr.c] and [upcase.c];
    - [inode.c] fills in an inode from the attributes of its mft record, [aops.c]
      reads the pages of an attribute through its runlist and buffer heads;
    - [compress.c] expands compression blocks, [time.h] converts times, [super.c]
      parses the mount options.

    The other directories of the repository hold the demonstrations of a course and
    are independent of the driver.

    ** How C is modelled

    A function that can fail or touch memory returns in [outcome] ([Prelude]): a
    value, an errno, a [BUG_ON], an access outside the object ([Fault]), or
    [Diverge], which stands for a loop whose fuel is spent and for waiting for a
    lock that is held by the caller itself.  Memory is the list of its bytes (or of
    its elements), and every read and write is checked against it.  Integers are [Z]
    in the range of their type, with the wrap-around of a conversion or of a sum
    written out where the code can reach it; little-endian numbers are read from and
    written to bytes ([Endian]).  Code with state is a state transformer over
    [world] ([MftMap]): the inodes in memory, the pinned pages, the error flag of
    the volume and the outcomes of the next allocations.  Kernel services are
    parameters: the allocator (class [KernelAlloc], which only promises the room it
    hands out), the page cache and buffer cache (functions from page or block
    numbers to bytes or an error), the NLS table, the clock.  While the runlist lock
    is dropped, other tasks may change the runlist: [MapRunlist] takes the list of
    what they do, and the theorems assume of it only that others map clusters that
    were not mapped.  Messages, statistics and the marking of pages as accessed are
    left out.

    Loops are structural where a count bounds them.  Otherwise they take fuel, with
    a bound computed from the data and proved to be enough ([scan_fuel],
    [walk_fuel], [blocks_fuel], [remap_fuel], the length of the attribute bytes);
    where only the shape of the data bounds the loop (the height of a tree, entries
    of length 0) the fuel is an argument and the theorems state how much is enough.

    ** The files

    - [Prelude]: outcomes, errno values, machine integers, arrays, shared lemmas and
      tactics.  [Endian]: [endian.h], and replacing a part of memory.
    - Runlists, [runlist.c] and [malloc.h]: [Runlist] (elements, allocation,
      lookups), [RunlistSpec] (the mapping a runlist denotes and when it is well
      formed), [RunlistBuf] (buffers with room), [RunlistMerge], [RunlistMergeSpec],
      [RunlistMergeProof], [RunlistTheorems] (merging), [RunlistEdit],
      [RunlistEditProof], [RunlistPunch], [RunlistEditTheorems] (truncation and
      holes).
    - Mapping pairs, [runlist.c]: [MappingPairs], [MappingPairsSpec] (the encoding),
      [MappingPairsBuild], [MappingPairsDecode], [MappingPairsTheorems].
    - [Mst]: [mst.c].  [Unistr], [UnistrTheorems], [UnistrNls]: [unistr.c].
      [Upcase]: [upcase.c].  [Collate]: [collate.c].  [Time]: [time.h].
    - [Compress], [CompressSpec] (the reference expansion), [CompressTheorems]:
      [ntfs_decompress] of [compress.c].
    - [Boot], [BootTheorems]: the boot sector and the allocation zones, [super.c].
    - [Attrib], [AttribSpec], [AttribTheorems]: attributes in one record, [attrib.c].
    - [MftMap], [MftMapSpec]: mapping of mft records, [mft.c] and [inode.c].
    - [AttrLookup], [AttrLookupProof], [AttrLookupInv], [AttrLookupTheorems]: search
      contexts and [ntfs_attr_lookup], [attrib.c].  [AttrSession]: what its callers
      do around it, used by the files below.
    - [Index], [IndexSpec], [IndexTheorems]: [index.c].  [Dir], [DirSpec],
      [DirTheorems]: [ntfs_lookup_inode_by_name] of [dir.c].
    - [Statfs]: the counting of free clusters and records, [super.c].  [MftBitmap],
      [MftLayout]: a free record in the mft bitmap and the layout of a new record,
      [mft.c].
    - [MapRunlist], [MapRunlistSpec], [MapRunlistTheorems]: the
      runlist of an inode, [attrib.c].  [AttrList]: [load_attribute_list].
    - [Options], [OptionsTheorems]: the mount options, [super.c] and [inode.c].
    - [Readdir], [ReaddirSpec], [ReaddirTheorems], [ReaddirLive]: [ntfs_readdir] of
      [dir.c].
    - [PageRead], [PageReadSpec], [PageReadBlock], [PageReadDone]: reading a page
      through buffer heads and the completion of the reads, [aops.c]; [ReadPage],
      [ReadPageTheorems]: [ntfs_readpage].
    - [WriteRec], [WriteRecTheorems]: [write_mft_record_nolock] and the mft mirror,
      [mft.c].
    - [Inode], [InodeSafe] (what is held while an inode is read), [InodeDemo],
      [InodeTheorems], [InodeDir], [InodeFile]: reading inodes, [inode.c].
    - [UserCopy], [UserCopyTheorems]: the data of a write is copied into pages,
      [file.c].
    - [VolFlags], [VolFlagsTheorems]: the flags of the volume and [ntfs_remount],
      [super.c] and [mft.c].
    - [Mount], [MountSpec] (what is held at each stage), [MountTheorems]:
      [load_system_files] and [ntfs_put_super], [super.c].

    A file that models code has the definitions, under the names of the source; the
    [Spec] file says what they are to compute; the [Theorems] file has the claims,
    each with a witness, and examples that run the definitions, some of them on
    inputs that show a defect.

    ** What is shown

    - Runlists: a well-formed runlist denotes a map from VCNs to LCNs; lookups
      compute it; merging an extent, truncating and punching a hole change it
      exactly where they should and keep it well formed, inside the memory that was
      allocated and whatever the allocator does; the error returns.
    - Mapping pairs: building and decompressing are inverse; the computed size is
      the size of the encoding; a short buffer receives whole pairs only, and the
      runs left over are those behind *@stop_vcn; the
      decompressor neither hangs nor leaves its memory on arbitrary bytes.
    - Records: the fixups are inverse and a torn write is detected; the attribute
      search finds the first attribute in the order of the record that matches;
      resizing keeps the rest of the record.
    - State: along every sequence of lookups and restarts a search context holds the
      record it says, and putting it gives back every count, lock and page; mapping
      an extent record either maps it or leaves everything as it was; mapping a
      runlist gives the caller back his context.
    - Trees: index and directory lookup find a key exactly when the tree holds it,
      with enough fuel they return, and they release what they took.
    - An on-demand lookup in the runlist of an inode returns what the runlist on
      disk says, whatever extents others map meanwhile.
    - Reading a directory reports each of its entries once, from wherever it is
      resumed, and comes to the end after finitely many calls; the options that are
      shown are parsed to the same volume settings, and accepted options leave no
      setting unset.
    - A page that was read holds the bytes of the attribute on the volume, zeroes in
      holes and behind the initialized size, whatever the order in which the reads
      complete; a resident attribute is copied and the rest of its page zeroed.
    - A record that was written is on the volume and in the mft mirror, and reading it
      back gives the record in memory; nothing else on the volume changes.
    - Reading an inode gives back every record, lock and page however it ends; a
      directory inode that was read has a valid index geometry; the inode of a plain
      file has what its record says.
    - Mounting gives back what it took when it fails, and unmounting when it
      succeeded; a mount that is read-write has passed every check and is marked dirty.
    - While the volume is mounted for writing its record on disk has the dirty flag,
      along every sequence of remounts whose options are accepted.
    - A write copies a prefix of the user's data into the pages, clears the rest of
      the range after a fault, and leaves the vector at the first byte that was not
      copied.
    - [statfs] never reports more than is free; the search in the mft bitmap finds a
      free record when there is one and sets its bit only; a formatted record is
      empty and valid to the attribute search and to the fixups.
    - Names are ordered by a total order, the NLS conversions are inverse, the
      upcase table is the documented one; compression blocks expand to the reference
      expansion; a valid boot sector is found and gives a consistent geometry; times
      round trip.

    Where the code fails outside some bounds, the claim names them and an example
    next to it shows the failure: a merge behind a gap needs one free element in the
    buffer ([append_full_buffer]); *@stop_vcn of a build is the first VCN left over
    only for ranges of whole runs ([build_stop_partial]); record numbers fit an int
    ([high_record_is_an_error]); $MFTMirr is not resident
    ([resident_mirror_null_runlist]); segments of a write are below 4 GiB
    ([large_segment_never_returns]); the first page of an index bitmap covers the
    directory ([find_stale]); ids are below 2^31 and masks below 0177777
    ([large_uid_not_parsed], [full_mask_ignored]); no name of the POSIX namespace
    hides the one looked for ([posix_name_hides]).

    ** What is not modelled

    [lcnalloc.c], [bitmap.c], [logfile.c], [quota.c] and [usnjrnl.c] are not in the
    repository, so neither is what needs them: allocating clusters and mft records,
    extending attributes, making them non-resident.  [ntfs_fill_super] and
    [ntfs_read_inode_mount] call the parts that are modelled one after the other.  The
    preparation of pages for writing in [file.c], the write side of [aops.c], the
    truncation and writing of inodes (with [ntfs_may_write_mft_record]) and
    [ntfs_read_compressed_block] move pages between the page cache and the block layer;
    [namei.c] works on the dentries of the VFS. *)

From Stdlib Require Import ZArith Lia Bool.
From stdpp Require Import base list numbers option.

#[global] Open Scope Z_scope.

(** ** Outcomes of C code

    A C function either returns a value, returns an error (a negative errno or
    an [ERR_PTR]), stops in a [BUG_ON], or touches memory outside the object a
    pointer designates.  [Diverge] is produced by a loop whose fuel is spent and by
    taking a lock the caller holds already; every theorem that a function returns
    excludes it. *)
Inductive outcome (A : Type) : Type :=
| Ret (a : A)
| Errno (e : Z)
| Bug
| Fault
| Diverge.
Arguments Ret {A} a.
Arguments Errno {A} e.
Arguments Bug {A}.
Arguments Fault {A}.
Arguments Diverge {A}.

#[export] Instance outcome_ret : MRet outcome := fun A a => Ret a.
#[export] Instance outcome_bind : MBind outcome := fun A B f m =>
  match m with
  | Ret a => f a
  | Errno e => Errno e
  | Bug => Bug
  | Fault => Fault
  | Diverge => Diverge
  end.

Definition BUG_ON (b : bool) : outcome unit := if b then Bug else Ret tt.

Lemma bind_Ret {A B} (a : A) (f : A -> outcome B) : (Ret a ≫= f) = f a.
Proof. reflexivity. Qed.

Lemma bind_step {A B} (m : outcome A) (f : A -> outcome B) a r :
  m = Ret a -> f a = r -> (m ≫= f) = r.
Proof. by intros ->. Qed.

Lemma bind_assoc {A B C} (m : outcome A) (f : A -> outcome B) (g : B -> outcome C) :
  ((m ≫= f) ≫= g) = (m ≫= fun x => f x ≫= g).
Proof. by destruct m. Qed.

Lemma bind_Ret_inv {A B} (m : outcome A) (f : A -> outcome B) b :
  (m ≫= f) = Ret b -> exists a, m = Ret a /\ f a = Ret b.
Proof. destruct m; simpl; try discriminate; eauto. Qed.

(** Linux errno values used by the driver. *)
Definition ENOENT := 2.
Definition EIO := 5.
Definition ENOMEM := 12.
Definition EINVAL := 22.
Definition ENOSPC := 28.
Definition ERANGE := 34.
Definition ENAMETOOLONG := 36.
Definition EOVERFLOW := 75.
Definition EILSEQ := 84.

(** ** Machine integers

    A w-bit integer is a [Z] in its range; [u8] .. [s64] are the conversions to
    a C type, which wrap (the kernel is built with [-fno-strict-overflow]). *)
Definition u8 (z : Z) : Z := z mod 0x100.
Definition s8 (z : Z) : Z := (z + 0x80) mod 0x100 - 0x80.
Definition u16 (z : Z) : Z := z mod 0x10000.
Definition s16 (z : Z) : Z := (z + 0x8000) mod 0x10000 - 0x8000.
Definition u32 (z : Z) : Z := z mod 0x100000000.
Definition s32 (z : Z) : Z := (z + 0x80000000) mod 0x100000000 - 0x80000000.
Definition u64 (z : Z) : Z := z mod 0x10000000000000000.
Definition s64 (z : Z) : Z :=
  (z + 0x8000000000000000) mod 0x10000000000000000 - 0x8000000000000000.

Definition S64_MAX : Z := 0x7fffffffffffffff.
Definition S64_MIN : Z := - 0x8000000000000000.

Lemma u8_id z : 0 <= z < 0x100 -> u8 z = z.
Proof. unfold u8. intros. apply Z.mod_small. lia. Qed.
Lemma u16_id z : 0 <= z < 0x10000 -> u16 z = z.
Proof. unfold u16. intros. apply Z.mod_small. lia. Qed.
Lemma u32_id z : 0 <= z < 0x100000000 -> u32 z = z.
Proof. unfold u32. intros. apply Z.mod_small. lia. Qed.
Lemma u64_id z : 0 <= z < 0x10000000000000000 -> u64 z = z.
Proof. unfold u64. intros. apply Z.mod_small. lia. Qed.
Lemma s8_id z : -0x80 <= z < 0x80 -> s8 z = z.
Proof. unfold s8. intros. rewrite Z.mod_small by lia. lia. Qed.
Lemma s32_id z : -0x80000000 <= z < 0x80000000 -> s32 z = z.
Proof. unfold s32. intros. rewrite Z.mod_small by lia. lia. Qed.
Lemma s64_id z : S64_MIN <= z <= S64_MAX -> s64 z = z.
Proof. unfold s64, S64_MIN, S64_MAX. intros. rewrite Z.mod_small by lia. lia. Qed.
Lemma s64_range z : S64_MIN <= s64 z <= S64_MAX.
Proof. unfold s64, S64_MIN, S64_MAX. pose proof (Z.mod_pos_bound (z + 0x8000000000000000) 0x10000000000000000). lia. Qed.

(** ** Arrays

    A C array is the list of the elements its object holds.  Reads, writes and
    block moves outside that object are [Fault]. *)
Section Arrays.
Context {A : Type}.
Implicit Types (b src dst : list A) (i n : Z).

Definition zlen b : Z := Z.of_nat (length b).

Definition rd b i : outcome A :=
  if i <? 0 then Fault
  else match b !! Z.to_nat i with Some x => Ret x | None => Fault end.

Definition wr b i (x : A) : outcome (list A) :=
  if (0 <=? i) && (i <? zlen b) then Ret (<[Z.to_nat i := x]> b) else Fault.

(** [memmove(dst + d, src + s, n)]; with [src = dst] this is an overlapping
    move inside one object. *)
Definition blit dst d src s n : outcome (list A) :=
  if (0 <=? d) && (0 <=? s) && (0 <=? n) && (d + n <=? zlen dst) && (s + n <=? zlen src)
  then Ret (take (Z.to_nat d) dst
            ++ take (Z.to_nat n) (drop (Z.to_nat s) src)
            ++ drop (Z.to_nat (d + n)) dst)
  else Fault.

Lemma zlen_nil : zlen [] = 0.
Proof. reflexivity. Qed.
Lemma zlen_cons x b : zlen (x :: b) = 1 + zlen b.
Proof. unfold zlen. cbn [length]. lia. Qed.
Lemma zlen_app b1 b2 : zlen (b1 ++ b2) = zlen b1 + zlen b2.
Proof. unfold zlen. rewrite length_app. lia. Qed.
Lemma zlen_nonneg b : 0 <= zlen b.
Proof. unfold zlen. lia. Qed.

Lemma rd_mid pre x post i :
  i = zlen pre -> rd (pre ++ x :: post) i = Ret x.
Proof.
  unfold rd, zlen. intros ->.
  destruct (Z.ltb_spec (Z.of_nat (length pre)) 0); [lia|].
  by rewrite Nat2Z.id, list_lookup_middle.
Qed.

Lemma wr_mid pre x post i y :
  i = zlen pre -> wr (pre ++ x :: post) i y = Ret (pre ++ y :: post).
Proof.
  unfold wr, zlen. intros ->. rewrite length_app. cbn [length].
  destruct (Z.leb_spec 0 (Z.of_nat (length pre))); [|lia].
  destruct (Z.ltb_spec (Z.of_nat (length pre)) (Z.of_nat (length pre + S (length post)))); [|lia].
  simpl. rewrite Nat2Z.id.
  by rewrite insert_app_r_alt, Nat.sub_diag by lia.
Qed.

Lemma rd_spec b i x : rd b i = Ret x <-> 0 <= i /\ b !! Z.to_nat i = Some x.
Proof.
  unfold rd. destruct (Z.ltb_spec i 0); [split; [done|lia]|].
  destruct (b !! Z.to_nat i) eqn:E; naive_solver.
Qed.

Lemma rd_in_range b i : 0 <= i < zlen b -> exists x, rd b i = Ret x.
Proof.
  unfold zlen. intros [? ?].
  destruct (lookup_lt_is_Some_2 b (Z.to_nat i)) as [x Hx]; [lia|].
  exists x. by apply rd_spec.
Qed.

Lemma blit_eq dst d src s n p1 m1 q1 p2 m2 q2 :
  dst = p1 ++ m1 ++ q1 -> src = p2 ++ m2 ++ q2 ->
  d = zlen p1 -> s = zlen p2 -> n = zlen m1 -> n = zlen m2 ->
  blit dst d src s n = Ret (p1 ++ m2 ++ q1).
Proof.
  unfold blit, zlen. intros -> -> -> -> -> Hm.
  rewrite !length_app.
  repeat match goal with |- context [?a <=? ?c] => destruct (Z.leb_spec a c); [|lia] end.
  simpl. rewrite !Nat2Z.id.
  replace (Z.to_nat (Z.of_nat (length p1) + Z.of_nat (length m1)))
    with (length (p1 ++ m1)) by (rewrite length_app; lia).
  rewrite take_app_length, drop_app_length.
  rewrite (app_assoc p1 m1 q1), drop_app_length.
  replace (length m1) with (length m2) by lia.
  by rewrite take_app_length.
Qed.
End Arrays.

Lemma Forall_last {A} (P : A -> Prop) l x : Forall P l -> list.last l = Some x -> P x.
Proof. intros Hl Hx%last_Some_elem_of. rewrite list.Forall_forall in Hl. auto. Qed.

#[global] Arguments zlen : simpl never.

Create HintDb zlen.
#[export] Hint Rewrite @zlen_nil @zlen_cons @zlen_app : zlen.

(** Normalises array lengths, then linear arithmetic. *)
Ltac zlen_pose := repeat match goal with
  | |- context [zlen ?b] =>
      lazymatch goal with _ : 0 <= zlen b |- _ => fail | _ => pose proof (zlen_nonneg b) end
  | _ : context [zlen ?b] |- _ =>
      lazymatch goal with _ : 0 <= zlen b |- _ => fail | _ => pose proof (zlen_nonneg b) end
  end.
Ltac zlen_lia := autorewrite with zlen in *; zlen_pose; lia.

(** Evaluates a boolean comparison whose outcome is implied by the context. *)
Ltac cmp_true := repeat match goal with
  | |- context [?a <=? ?b] => rewrite (proj2 (Z.leb_le a b)) by zlen_lia
  | |- context [?a <? ?b] => rewrite (proj2 (Z.ltb_lt a b)) by zlen_lia
  end.

(** [step tac]: runs the first command of a sequence, [tac] proving what it
    returns, and goes on with the rest. *)
Tactic Notation "step" tactic3(tac) :=
  eapply bind_step; [solve [tac] | cbv beta iota zeta].

(** An element read or written at a position given by the shape of the array. *)
Lemma rd_at {A} (b pre post : list A) x i :
  b = pre ++ x :: post -> i = zlen pre -> rd b i = Ret x.
Proof. intros ->. apply rd_mid. Qed.

Lemma wr_at {A} (b pre post : list A) x y i :
  b = pre ++ x :: post -> i = zlen pre -> wr b i y = Ret (pre ++ y :: post).
Proof. intros ->. apply wr_mid. Qed.
