(* ===== verification/Endian.v ===== *)
(** * On-disk integers

    Models [src/ntfs/endian.h] and [src/ntfs/types.h]: little-endian fields of
    on-disk structures, kept as bytes, and their values. *)

From Stdlib Require Import ZArith Lia Bool.
From stdpp Require Import base list numbers option.
From S2P Require Import Prelude.

(** A byte of memory. *)
Definition byte_ok (b : Z) : Prop := 0 <= b < 0x100.

(** The value of little-endian bytes, and the [n] bytes of a value. *)
Fixpoint le_combine (l : list Z) : Z :=
  match l with [] => 0 | b :: l => b + 0x100 * le_combine l end.

Fixpoint le_split (n : nat) (z : Z) : list Z :=
  match n with O => [] | S n => z mod 0x100 :: le_split n (z / 0x100) end.

Lemma length_le_split n z : length (le_split n z) = n.
Proof. revert z. induction n; simpl; intros; [done|]. by rewrite IHn. Qed.

Lemma zlen_le_split n z : zlen (le_split n z) = Z.of_nat n.
Proof. unfold zlen. by rewrite length_le_split. Qed.

Lemma le_split_bytes n z : Forall byte_ok (le_split n z).
Proof.
  revert z. induction n as [|n IH]; intros z; simpl; constructor; [|done].
  apply Z.mod_pos_bound. lia.
Qed.

Lemma le_combine_split n z : le_combine (le_split n z) = z mod 2 ^ (8 * Z.of_nat n).
Proof.
  revert z. induction n as [|n IH]; intros z; cbn [le_split le_combine].
  { by rewrite Z.mod_1_r. }
  rewrite IH. replace (8 * Z.of_nat (S n)) with (8 + 8 * Z.of_nat n) by lia.
  rewrite Z.pow_add_r, (Z.rem_mul_r z (2 ^ 8)) by lia. done.
Qed.

Lemma le_combine_bound l : Forall byte_ok l -> 0 <= le_combine l < 2 ^ (8 * zlen l).
Proof.
  induction 1 as [|b l Hb _ IH]; cbn [le_combine]; [done|].
  rewrite zlen_cons. replace (8 * (1 + zlen l)) with (8 + 8 * zlen l) by lia.
  pose proof (zlen_nonneg l). rewrite Z.pow_add_r by lia. unfold byte_ok in Hb. lia.
Qed.

Lemma le_split_combine l : Forall byte_ok l -> le_split (length l) (le_combine l) = l.
Proof.
  induction 1 as [|b l Hb _ IH]; cbn [le_combine le_split length]; [done|].
  unfold byte_ok in Hb. f_equal.
  - rewrite (Z.mul_comm 0x100), Z.mod_add, Z.mod_small by lia. done.
  - rewrite (Z.mul_comm 0x100), Z.div_add, Z.div_small by lia. done.
Qed.

Lemma le_combine_inj l1 l2 :
  Forall byte_ok l1 -> Forall byte_ok l2 -> length l1 = length l2 ->
  le_combine l1 = le_combine l2 -> l1 = l2.
Proof.
  intros H1 H2 Hl E. rewrite <- (le_split_combine l1), <- (le_split_combine l2) by done.
  by rewrite Hl, E.
Qed.

(** [n] bytes of the object at offset [off]. *)
Definition rd_bytes (n : nat) (mem : list Z) (off : Z) : outcome (list Z) :=
  if (0 <=? off) && (off + Z.of_nat n <=? zlen mem)
  then Ret (take n (drop (Z.to_nat off) mem)) else Fault.

Definition rd_u8 (mem : list Z) (off : Z) : outcome Z := rd mem off.
Definition rd_le16 (mem : list Z) (off : Z) : outcome Z := l ← rd_bytes 2 mem off; Ret (le_combine l).
Definition rd_le32 (mem : list Z) (off : Z) : outcome Z := l ← rd_bytes 4 mem off; Ret (le_combine l).
Definition rd_le64 (mem : list Z) (off : Z) : outcome Z := l ← rd_bytes 8 mem off; Ret (le_combine l).

(** The signed accessors of endian.h. *)
Definition sle16_to_cpu (x : Z) : Z := s16 x.
Definition sle32_to_cpu (x : Z) : Z := s32 x.
Definition sle64_to_cpu (x : Z) : Z := s64 x.
Definition cpu_to_sle16 (x : Z) : Z := u16 x.
Definition cpu_to_sle32 (x : Z) : Z := u32 x.
Definition cpu_to_sle64 (x : Z) : Z := u64 x.

Definition rd_sle64 (mem : list Z) (off : Z) : outcome Z := x ← rd_le64 mem off; Ret (sle64_to_cpu x).

Lemma sle64_roundtrip x : S64_MIN <= x <= S64_MAX -> sle64_to_cpu (cpu_to_sle64 x) = x.
Proof.
  unfold sle64_to_cpu, cpu_to_sle64, s64, u64, S64_MIN, S64_MAX. intros.
  rewrite Zplus_mod_idemp_l, Z.mod_small by lia. lia.
Qed.

Lemma rd_bytes_at n mem pre l post off :
  mem = pre ++ l ++ post -> off = zlen pre -> length l = n -> rd_bytes n mem off = Ret l.
Proof.
  intros -> -> <-. unfold rd_bytes.
  destruct (Z.leb_spec 0 (zlen pre)); [|zlen_lia].
  destruct (Z.leb_spec (zlen pre + Z.of_nat (length l)) (zlen (pre ++ l ++ post))); simpl.
  - unfold zlen. by rewrite Nat2Z.id, drop_app_length, take_app_length.
  - unfold zlen in *. rewrite !length_app in *. lia.
Qed.

(** ** Stores *)

(** The bytes [l] stored at offset [off]. *)
Definition wr_bytes (mem : list Z) (off : Z) (l : list Z) : outcome (list Z) := blit mem off l 0 (zlen l).

Definition wr_le16 (mem : list Z) (off z : Z) : outcome (list Z) := wr_bytes mem off (le_split 2 z).
Definition wr_le32 (mem : list Z) (off z : Z) : outcome (list Z) := wr_bytes mem off (le_split 4 z).

Lemma wr_bytes_at mem pre old post off l :
  mem = pre ++ old ++ post -> off = zlen pre -> zlen old = zlen l -> wr_bytes mem off l = Ret (pre ++ l ++ post).
Proof.
  intros Hm Ho Hl. unfold wr_bytes. apply (blit_eq _ _ _ _ _ pre old post [] l []); try done.
  by rewrite app_nil_r.
Qed.

(** ** Strings of 16-bit characters *)

(** The little-endian characters the bytes [l] hold. *)
Fixpoint words (l : list Z) : list Z :=
  match l with x :: y :: l => (x + 0x100 * y) :: words l | _ => [] end.

(** [(ntfschar* )((u8* )p + off)]: the characters from there on. *)
Definition ntfschars_at (mem : list Z) (off : Z) : list Z := words (drop (Z.to_nat off) mem).

(** ** Replacing a part of memory

    A write to memory replaces a range of its bytes; these are the laws of such
    replacements, one inside, behind or over another. *)

Definition splice {A} (ofs : Z) (d p : list A) : list A := take (Z.to_nat ofs) p ++ d ++ drop (Z.to_nat (ofs + zlen d)) p.

Section Splice.
Context {A : Type}.
Implicit Types p d q : list A.

Lemma splice_parts a d b c : zlen d = zlen b -> splice (zlen a) d (a ++ b ++ c) = (a ++ d ++ c : list A).
Proof.
  intros Hd. unfold splice, zlen in *. rewrite Nat2Z.id, take_app_length. do 2 f_equal.
  replace (Z.to_nat (Z.of_nat (length a) + Z.of_nat (length d))) with (length (a ++ b)) by (rewrite length_app; lia). by rewrite app_assoc, drop_app_length.
Qed.

(** Every list is cut in three at a range inside. *)
Lemma cut_at p ofs n : 0 <= ofs -> 0 <= n -> ofs + n <= zlen p -> exists a b c, p = a ++ b ++ c /\ zlen a = ofs /\ zlen b = n.
Proof.
  intros H1 H2 H3. unfold zlen in *. exists (take (Z.to_nat ofs) p), (take (Z.to_nat n) (drop (Z.to_nat ofs) p)), (drop (Z.to_nat n) (drop (Z.to_nat ofs) p)).
  rewrite take_drop, take_drop, !length_take, length_drop. split; [done|]. lia.
Qed.

Lemma zlen_splice ofs d p : 0 <= ofs -> ofs + zlen d <= zlen p -> zlen (splice ofs d p) = zlen p.
Proof.
  intros H1 H2. destruct (cut_at p ofs (zlen d) H1 (zlen_nonneg d) H2) as (a & b & c & -> & <- & Hb). rewrite splice_parts by done. rewrite !zlen_app. lia.
Qed.

Lemma splice_nil ofs p : 0 <= ofs -> splice ofs [] p = p.
Proof. intros H. unfold splice. rewrite Z.add_0_r, app_nil_l. apply take_drop. Qed.

(** A second replacement in the same range, of the end of it. *)
Lemma splice_tail ofs d t t' p : 0 <= ofs -> zlen t = zlen t' -> ofs + zlen d + zlen t <= zlen p -> splice (ofs + zlen d) t' (splice ofs (d ++ t) p) = splice ofs (d ++ t') p.
Proof.
  intros H1 Ht H2. destruct (cut_at p ofs (zlen (d ++ t)) H1 (zlen_nonneg _)) as (a & b & c & -> & <- & Hb); [rewrite zlen_app; lia|].
  rewrite splice_parts by done. rewrite splice_parts by (rewrite zlen_app in *; lia).
  rewrite <- zlen_app. replace (a ++ (d ++ t) ++ c) with ((a ++ d) ++ t ++ c) by (by rewrite <- !app_assoc). rewrite splice_parts by done. by rewrite <- !app_assoc.
Qed.

Lemma splice_again ofs d d' p : 0 <= ofs -> zlen d = zlen d' -> ofs + zlen d <= zlen p -> splice ofs d' (splice ofs d p) = splice ofs d' p.
Proof.
  intros H1 Hd H2. destruct (cut_at p ofs (zlen d) H1 (zlen_nonneg _) H2) as (a & b & c & -> & <- & Hb). by rewrite !splice_parts by lia.
Qed.

(** A replacement behind another. *)
Lemma splice_next ofs d d' p : 0 <= ofs -> ofs + zlen d + zlen d' <= zlen p -> splice (ofs + zlen d) d' (splice ofs d p) = splice ofs (d ++ d') p.
Proof.
  intros H1 H2. destruct (cut_at p ofs (zlen (d ++ d')) H1 (zlen_nonneg _)) as (a & b & c & -> & <- & Hb); [rewrite zlen_app; lia|].
  rewrite (splice_parts a (d ++ d')) by done. destruct (cut_at b 0 (zlen d) ltac:(lia) (zlen_nonneg _)) as (n & b1 & b2 & -> & Hn & Hb1); [rewrite Hb, zlen_app; pose proof (zlen_nonneg d'); lia|].
  destruct n; [|unfold zlen in Hn; cbn in Hn; lia]. rewrite app_nil_l in *. rewrite zlen_app in Hb. rewrite zlen_app in Hb.
  rewrite <- !app_assoc, splice_parts by done. rewrite <- zlen_app, (app_assoc a d), splice_parts by lia. by rewrite <- !app_assoc.
Qed.

(** In a page and in what follows it. *)
Lemma splice_page ofs d p q : 0 <= ofs -> ofs + zlen d <= zlen p -> splice ofs d (p ++ q) = splice ofs d p ++ q.
Proof.
  intros H1 H2. destruct (cut_at p ofs (zlen d) H1 (zlen_nonneg d) H2) as (a & b & c & -> & <- & Hb).
  rewrite <- !app_assoc, !splice_parts by done. by rewrite <- !app_assoc.
Qed.

Lemma splice_pages ofs d d' p q : 0 <= ofs -> ofs + zlen d = zlen p -> zlen d' <= zlen q -> splice ofs (d ++ d') (p ++ q) = splice ofs d p ++ splice 0 d' q.
Proof.
  intros H1 H2 H3. rewrite <- (splice_next ofs d d') by (rewrite ?zlen_app; lia). rewrite splice_page by lia.
  destruct (cut_at q 0 (zlen d') ltac:(lia) (zlen_nonneg _) ltac:(lia)) as (n & b & c & -> & Hn & Hb). destruct n; [|unfold zlen in Hn; cbn in Hn; lia].
  rewrite H2, app_nil_l, <- (zlen_splice ofs d p) by lia. rewrite splice_parts by done. f_equal. symmetry. apply (splice_parts [] d' b c). done.
Qed.
End Splice.

(** ** Numbers inside of memory *)

Lemma rd_bytes_inside n (d : list Z) p : 0 <= p -> p + Z.of_nat n <= zlen d -> rd_bytes n d p = Ret (take n (drop (Z.to_nat p) d)).
Proof. intros H1 H2. unfold rd_bytes. by rewrite (proj2 (Z.leb_le _ _)), (proj2 (Z.leb_le _ _)) by done. Qed.
Lemma rd_le16_inside (d : list Z) p : 0 <= p -> p + 2 <= zlen d -> exists x, rd_le16 d p = Ret x.
Proof. intros. unfold rd_le16. rewrite rd_bytes_inside by lia. rewrite bind_Ret. eauto. Qed.
Lemma rd_le32_inside (d : list Z) p : 0 <= p -> p + 4 <= zlen d -> exists x, rd_le32 d p = Ret x.
Proof. intros. unfold rd_le32. rewrite rd_bytes_inside by lia. rewrite bind_Ret. eauto. Qed.
Lemma rd_le64_inside (d : list Z) p : 0 <= p -> p + 8 <= zlen d -> exists x, rd_le64 d p = Ret x.
Proof. intros. unfold rd_le64. rewrite rd_bytes_inside by lia. rewrite bind_Ret. eauto. Qed.
