(* ===== verification/Runlist.v ===== *)
(** * In-memory runlists: data, allocation, primitive operations, lookup

    Models [src/ntfs/runlist.h], the allocator wrappers of [src/ntfs/malloc.h]
    and the primitive and lookup functions of [src/ntfs/runlist.c]. *)

From Stdlib Require Import ZArith Lia Bool.
From stdpp Require Import base list numbers option.
From S2P Require Import Prelude.

(** ** Data (runlist.h) *)

(** [runlist_element]: @vcn, @lcn and @length of a run, all [s64]. *)
Record runlist_element := mk_rle { rl_vcn : Z; rl_lcn : Z; rl_length : Z }.

#[export] Instance runlist_element_eq_dec : EqDecision runlist_element.
Proof. solve_decision. Defined.

(** [LCN_SPECIAL_VALUES] *)
Definition LCN_HOLE : Z := -1.
Definition LCN_RL_NOT_MAPPED : Z := -2.
Definition LCN_ENOENT : Z := -3.
Definition LCN_ENOMEM : Z := -4.
Definition LCN_EIO : Z := -5.

Definition set_vcn (v : Z) (r : runlist_element) := mk_rle v (rl_lcn r) (rl_length r).
Definition set_lcn (l : Z) (r : runlist_element) := mk_rle (rl_vcn r) l (rl_length r).
Definition set_length (n : Z) (r : runlist_element) := mk_rle (rl_vcn r) (rl_lcn r) n.

(** A [runlist_element *] that is neither NULL nor an [ERR_PTR] is the buffer
    it points to: all the elements that fit in the allocation. *)
Abbreviation rl_buf := (list runlist_element).

(** ** Allocation (malloc.h)

    The kernel allocators are not part of the driver: whether a request is
    granted, and what fresh memory contains, is arbitrary. *)
Class KernelAlloc := {
  kmalloc_ok : bool -> bool;        (* __GFP_NOFAIL? -> one page granted? *)
  vmalloc_ok : bool -> Z -> bool;   (* __GFP_NOFAIL? -> bytes granted? *)
  totalram_pages : Z;
  garbage : nat -> runlist_element; (* contents of a fresh buffer *)
}.

Definition PAGE_SHIFT : Z := 12.
Definition PAGE_SIZE : Z := 4096.
Definition PAGE_ALIGN (n : Z) : Z := (n + PAGE_SIZE - 1) / PAGE_SIZE * PAGE_SIZE.

(** [sizeof(runlist_element)] *)
Definition RLE_SIZE : Z := 24.

(** Number of whole elements in [n] bytes. *)
Definition rl_cap (n : Z) : nat := Z.to_nat (n / RLE_SIZE).

Section WithAlloc.
Context `{KA : KernelAlloc}.

(** [__ntfs_malloc]: the number of bytes of the object obtained, or [None] for
    NULL. *)
Definition __ntfs_malloc (nofail : bool) (size : Z) : outcome (option Z) :=
  if size <=? PAGE_SIZE then
    BUG_ON (size =? 0);;
    Ret (if kmalloc_ok nofail then Some PAGE_SIZE else None)
  else if Z.shiftr size PAGE_SHIFT <? totalram_pages then
    Ret (if vmalloc_ok nofail size then Some size else None)
  else Ret None.

Definition ntfs_malloc_nofs (size : Z) : outcome (option Z) := __ntfs_malloc false size.
Definition ntfs_malloc_nofs_nofail (size : Z) : outcome (option Z) := __ntfs_malloc true size.

(** A buffer of [n] bytes with arbitrary contents. *)
Definition fresh_rl (n : Z) : rl_buf := garbage <$> seq 0 (rl_cap n).

(** ** Primitive operations (runlist.c) *)

Definition ntfs_rl_mm (base : rl_buf) (dst src size : Z) : outcome rl_buf :=
  if negb (dst =? src) && (size >? 0) then blit base dst base src size else Ret base.

Definition ntfs_rl_mc (dstbase : rl_buf) (dst : Z) (srcbase : rl_buf) (src size : Z)
    : outcome rl_buf :=
  if size >? 0 then blit dstbase dst srcbase src size else Ret dstbase.

(** Byte size of an array of [n] elements, as the [int] the C code keeps. *)
Definition rl_bytes (n : Z) : Z := s32 (PAGE_ALIGN (n * RLE_SIZE)).

(** [memcpy(new_rl, rl, old)] into a fresh object of [new] bytes; elements that
    are only partly copied count as not initialised. *)
Definition rl_recopy (rl : rl_buf) (old new : Z) : outcome rl_buf :=
  blit (fresh_rl new) 0 rl 0 (Z.of_nat (rl_cap (if old >? new then new else old))).

Definition ntfs_rl_realloc (rl : rl_buf) (old_size new_size : Z) : outcome rl_buf :=
  let old_size := rl_bytes old_size in
  let new_size := rl_bytes new_size in
  if old_size =? new_size then Ret rl
  else
    new_rl ← ntfs_malloc_nofs new_size;
    match new_rl with
    | None => Errno ENOMEM
    | Some bytes => rl_recopy rl old_size bytes
    end.

Definition ntfs_rl_realloc_nofail (rl : rl_buf) (old_size new_size : Z) : outcome rl_buf :=
  let old_size := rl_bytes old_size in
  let new_size := rl_bytes new_size in
  if old_size =? new_size then Ret rl
  else
    new_rl ← ntfs_malloc_nofs_nofail new_size;
    match new_rl with
    | None => Bug
    | Some bytes => rl_recopy rl old_size bytes
    end.

Definition ntfs_are_rl_mergeable (dst src : runlist_element) : bool :=
  if (rl_lcn dst =? LCN_RL_NOT_MAPPED) && (rl_lcn src =? LCN_RL_NOT_MAPPED) then true
  else if negb (s64 (rl_vcn dst + rl_length dst) =? rl_vcn src) then false
  else if (rl_lcn dst >=? 0) && (rl_lcn src >=? 0)
          && (s64 (rl_lcn dst + rl_length dst) =? rl_lcn src) then true
  else if (rl_lcn dst =? LCN_HOLE) && (rl_lcn src =? LCN_HOLE) then true
  else false.

(** [__ntfs_rl_merge]: the new value of [*dst]. *)
Definition __ntfs_rl_merge (dst src : runlist_element) : runlist_element :=
  set_length (s64 (rl_length dst + rl_length src)) dst.
End WithAlloc.

(** ** Scans over a buffer *)

(** [for (i = start; p(rl[i]); i++) ;] *)
Fixpoint scan_up (fuel : nat) (p : runlist_element -> bool) (rl : rl_buf) (i : Z) : outcome Z :=
  match fuel with
  | O => Diverge
  | S fuel => r ← rd rl i; if p r then scan_up fuel p rl (i + 1) else Ret i
  end.

(** [for (i = start; i >= 0 && p(rl[i]); i--) ;] *)
Fixpoint scan_down (fuel : nat) (p : runlist_element -> bool) (rl : rl_buf) (i : Z) : outcome Z :=
  match fuel with
  | O => Diverge
  | S fuel =>
      if i >=? 0 then r ← rd rl i; if p r then scan_down fuel p rl (i - 1) else Ret i
      else Ret i
  end.

(** A scan that starts inside the buffer leaves it after at most this many steps. *)
Definition scan_fuel (rl : rl_buf) : nat := S (S (length rl)).

(** ** Lookup (runlist.c) *)

(** The loop of [ntfs_rl_vcn_to_lcn]: [inl] is a [return], [inr i] the exit
    through the loop condition. *)
Fixpoint vcn_to_lcn_loop (fuel : nat) (rl : rl_buf) (vcn i : Z) : outcome (Z + Z) :=
  match fuel with
  | O => Diverge
  | S fuel =>
      r ← rd rl i;
      if negb (rl_length r =? 0) then
        r1 ← rd rl (i + 1);
        if vcn <? rl_vcn r1 then
          if rl_lcn r >=? 0 then Ret (inl (s64 (rl_lcn r + s64 (vcn - rl_vcn r))))
          else Ret (inl (rl_lcn r))
        else vcn_to_lcn_loop fuel rl vcn (i + 1)
      else Ret (inr i)
  end.

Definition ntfs_rl_vcn_to_lcn (rl : option rl_buf) (vcn : Z) : outcome Z :=
  BUG_ON (vcn <? 0);;
  match rl with
  | None => Ret LCN_RL_NOT_MAPPED
  | Some rl =>
      r0 ← rd rl 0;
      if vcn <? rl_vcn r0 then Ret LCN_ENOENT
      else
        res ← vcn_to_lcn_loop (scan_fuel rl) rl vcn 0;
        match res with
        | inl v => Ret v
        | inr i =>
            r ← rd rl i;
            if rl_lcn r <? 0 then Ret (rl_lcn r) else Ret LCN_ENOENT
        end
  end.

(** [ntfs_rl_find_vcn_nolock]: the index of the element found, [None] for NULL. *)
Fixpoint find_vcn_loop (fuel : nat) (rl : rl_buf) (vcn i : Z) : outcome (option Z) :=
  match fuel with
  | O => Diverge
  | S fuel =>
      r ← rd rl i;
      if negb (rl_length r =? 0) then
        r1 ← rd rl (i + 1);
        if vcn <? rl_vcn r1 then
          if rl_lcn r >=? LCN_HOLE then Ret (Some i) else Ret None
        else find_vcn_loop fuel rl vcn (i + 1)
      else if rl_lcn r =? LCN_ENOENT then Ret (Some i) else Ret None
  end.

Definition ntfs_rl_find_vcn_nolock (rl : option rl_buf) (vcn : Z) : outcome (option Z) :=
  BUG_ON (vcn <? 0);;
  match rl with
  | None => Ret None
  | Some rl =>
      r0 ← rd rl 0;
      if vcn <? rl_vcn r0 then Ret None
      else find_vcn_loop (scan_fuel rl) rl vcn 0
  end.
