(* ===== verification/RunlistSpec.v ===== *)
(** * What a runlist means

    The abstract view of a runlist buffer: a chain of adjacent runs followed by
    a terminator, denoting a map from VCNs to LCNs.  [ntfs_rl_vcn_to_lcn] and
    [ntfs_rl_find_vcn_nolock] are shown to implement that view. *)

From Stdlib Require Import ZArith Lia Bool.
From stdpp Require Import base list numbers option.
From S2P Require Import Prelude Runlist.

(** ** Well-formed runlists *)

(** A run of at least one cluster, with all its cluster numbers in [s64]. *)
Definition run_ok (r : runlist_element) : Prop :=
  0 <= rl_vcn r /\ 0 < rl_length r /\ rl_vcn r + rl_length r <= S64_MAX /\
  LCN_RL_NOT_MAPPED <= rl_lcn r /\ rl_lcn r + rl_length r <= S64_MAX.

(** [chain v l w]: the runs [l] cover exactly the VCNs from [v] to [w - 1]. *)
Fixpoint chain (v : Z) (l : list runlist_element) (w : Z) : Prop :=
  match l with
  | [] => v = w
  | r :: l => rl_vcn r = v /\ run_ok r /\ chain (v + rl_length r) l w
  end.

(** A terminator: length zero, and either the end of the attribute or the end of
    what is mapped so far. *)
Definition term_ok (t : runlist_element) : Prop :=
  rl_length t = 0 /\ 0 <= rl_vcn t <= S64_MAX /\ LCN_ENOENT <= rl_lcn t <= LCN_RL_NOT_MAPPED.

(** [runlist_wf v l t]: the runs [l] from VCN [v], terminated by [t]. *)
Definition runlist_wf (v : Z) (l : list runlist_element) (t : runlist_element) : Prop :=
  chain v l (rl_vcn t) /\ term_ok t.

(** [b] is a buffer that holds the runlist [l], [t]; what follows is unused. *)
Definition holds (b : rl_buf) (l : list runlist_element) (t : runlist_element) : Prop :=
  exists slack, b = l ++ t :: slack.

(** ** Denotation *)

(** The LCN a run gives to a VCN inside it. *)
Definition run_lcn (r : runlist_element) (vcn : Z) : Z :=
  if rl_lcn r >=? 0 then rl_lcn r + (vcn - rl_vcn r) else rl_lcn r.

(** Abstract lookup: [None] when no run covers [vcn]. *)
Fixpoint look (l : list runlist_element) (vcn : Z) : option Z :=
  match l with
  | [] => None
  | r :: l => if vcn <? rl_vcn r + rl_length r then Some (run_lcn r vcn) else look l vcn
  end.

(** The map a terminated runlist denotes on VCNs from its start. *)
Definition denote (l : list runlist_element) (t : runlist_element) (vcn : Z) : Z :=
  default (rl_lcn t) (look l vcn).

Lemma run_ok_nonzero r : run_ok r -> negb (rl_length r =? 0) = true.
Proof. intros (? & ? & _). destruct (Z.eqb_spec (rl_length r) 0); [lia|done]. Qed.

Lemma chain_le v l w : chain v l w -> v <= w.
Proof.
  revert v. induction l as [|r l IH]; simpl; intros v; [lia|].
  intros (? & (? & ? & ?) & Hch). apply IH in Hch. lia.
Qed.

Lemma chain_app v l1 l2 w :
  chain v (l1 ++ l2) w <-> exists m, chain v l1 m /\ chain m l2 w.
Proof.
  revert v. induction l1 as [|r l1 IH]; intros v; simpl.
  - naive_solver.
  - rewrite IH. naive_solver.
Qed.

Lemma chain_app_2 v l1 l2 m w : chain v l1 m -> chain m l2 w -> chain v (l1 ++ l2) w.
Proof. intros. apply chain_app. eauto. Qed.

Lemma chain_fun v l w w' : chain v l w -> chain v l w' -> w = w'.
Proof. revert v. induction l as [|r l IH]; simpl; naive_solver. Qed.

Lemma chain_snoc v l r w :
  chain v (l ++ [r]) w <-> chain v l (rl_vcn r) /\ run_ok r /\ w = rl_vcn r + rl_length r.
Proof.
  rewrite chain_app. simpl. split.
  - intros (m & ? & <- & ? & <-). done.
  - intros (? & ? & ->). eauto.
Qed.

Lemma chain_nonneg v l w : chain v l w -> 0 <= v -> 0 <= w.
Proof. intros Hch ?. apply chain_le in Hch. lia. Qed.

Lemma chain_max v l w : chain v l w -> v <= S64_MAX -> w <= S64_MAX.
Proof.
  revert v. induction l as [|r l IH]; simpl; intros v; [lia|].
  intros (? & (? & ? & ? & ?) & Hch) _. apply IH in Hch; lia.
Qed.

(** Every run of a chain is [run_ok]. *)
Lemma chain_Forall v l w : chain v l w -> Forall run_ok l.
Proof.
  revert v. induction l as [|r l IH]; simpl; intros v; [constructor|].
  intros (? & ? & ?). constructor; eauto.
Qed.

Lemma look_app_l v l1 m l2 x : chain v l1 m -> x < m -> v < m -> look (l1 ++ l2) x = look l1 x.
Proof.
  revert v. induction l1 as [|r l1 IH]; simpl; intros v; [lia|].
  intros (Hv & ? & Hch) ? ?. destruct (Z.ltb_spec x (rl_vcn r + rl_length r)); [done|].
  pose proof (chain_le _ _ _ Hch). eapply IH; eauto. lia.
Qed.

Lemma look_app_r v l1 m l2 x : chain v l1 m -> m <= x -> look (l1 ++ l2) x = look l2 x.
Proof.
  revert v. induction l1 as [|r l1 IH]; simpl; intros v; [done|].
  intros (Hv & ? & Hch) ?. pose proof (chain_le _ _ _ Hch).
  destruct (Z.ltb_spec x (rl_vcn r + rl_length r)); [lia|]. eauto.
Qed.

Lemma look_None v l w x : chain v l w -> w <= x -> look l x = None.
Proof. intros Hch Hx. rewrite <- (app_nil_r l). by erewrite look_app_r. Qed.

Lemma look_Some v l w x : chain v l w -> v <= x < w -> exists y, look l x = Some y.
Proof.
  revert v. induction l as [|r l IH]; simpl; intros v; [lia|].
  intros (Hv & ? & Hch) ?. destruct (Z.ltb_spec x (rl_vcn r + rl_length r)); eauto.
  eapply IH; eauto. lia.
Qed.

(** [look] of a cut list: the left part below the cut, the right part above. *)
Lemma look_app v l1 m l2 x :
  chain v l1 m -> v <= x -> look (l1 ++ l2) x = if x <? m then look l1 x else look l2 x.
Proof.
  intros Hch Hv. destruct (Z.ltb_spec x m).
  - eapply look_app_l; eauto. lia.
  - eapply look_app_r; eauto.
Qed.

(** The element after a run of a chain starts where the run ends. *)
Lemma chain_head l t slack m :
  chain m l (rl_vcn t) -> exists r1 rest, l ++ t :: slack = r1 :: rest /\ rl_vcn r1 = m.
Proof. destruct l as [|r1 l]; simpl; naive_solver. Qed.

(** ** The lookup functions implement the denotation *)

Lemma loop_spec pre l t slack v x fuel :
  chain v l (rl_vcn t) -> rl_length t = 0 -> v <= x <= S64_MAX -> 0 <= v ->
  (length l < fuel)%nat ->
  vcn_to_lcn_loop fuel (pre ++ l ++ t :: slack) x (zlen pre) =
    match look l x with
    | Some y => Ret (inl y)
    | None => Ret (inr (zlen pre + zlen l))
    end.
Proof.
  revert pre v fuel. induction l as [|r l IH]; intros pre v fuel; simpl.
  - intros -> Ht ? ? Hf. destruct fuel; [lia|]. simpl.
    step (by apply rd_mid). rewrite Ht. simpl. by autorewrite with zlen; rewrite Z.add_0_r.
  - intros (<- & Hr & Hch) Ht ? ? Hf. destruct fuel as [|fuel]; [lia|]. simpl.
    step (by apply rd_mid). rewrite (run_ok_nonzero r Hr).
    pose proof Hr as (? & ? & ? & ? & ?). unfold S64_MIN, S64_MAX in *.
    destruct (chain_head l t slack _ Hch) as (r1 & rest & E & Hr1).
    rewrite E. replace (pre ++ r :: r1 :: rest) with ((pre ++ [r]) ++ r1 :: rest)
      by (by rewrite <- app_assoc).
    step (apply rd_mid; zlen_lia). rewrite Hr1.
    destruct (Z.ltb_spec x (rl_vcn r + rl_length r)).
    + unfold run_lcn. destruct (rl_lcn r >=? 0) eqn:Hl; [|done].
      apply Z.geb_le in Hl.
      rewrite (s64_id (x - rl_vcn r)), s64_id by (unfold S64_MIN, S64_MAX; lia). done.
    + replace (zlen pre + 1) with (zlen (pre ++ [r]))
        by zlen_lia.
      rewrite <- E. erewrite IH; eauto; [|lia..].
      destruct (look l x); [done|]. autorewrite with zlen. do 2 f_equal. lia.
Qed.

Lemma scan_fuel_ok l t slack : (length l < scan_fuel (l ++ t :: slack))%nat.
Proof. unfold scan_fuel. rewrite length_app. simpl. lia. Qed.

(** What the first element of a buffer is. *)
Lemma holds_rd0 b l t v :
  holds b l t -> chain v l (rl_vcn t) -> exists r, rd b 0 = Ret r /\ rl_vcn r = v.
Proof.
  intros (sl & ->) Hch. destruct l as [|r l]; simpl in *.
  - exists t. done.
  - exists r. naive_solver.
Qed.

Lemma vcn_to_lcn_denote b l t v x :
  runlist_wf v l t -> holds b l t -> 0 <= v -> 0 <= x <= S64_MAX ->
  ntfs_rl_vcn_to_lcn (Some b) x = Ret (if x <? v then LCN_ENOENT else denote l t x).
Proof.
  intros (Hc & Ht & ? & Hl) Hb ? ?. unfold ntfs_rl_vcn_to_lcn.
  destruct (Z.ltb_spec x 0); [lia|]. simpl.
  destruct (holds_rd0 b l t v Hb Hc) as (r & Hr & Hv).
  step (exact Hr). rewrite Hv. destruct (Z.ltb_spec x v); [done|]. destruct Hb as (sl & ->).
  pose proof (loop_spec [] l t sl v x (scan_fuel (l ++ t :: sl)) Hc Ht) as Hloop.
  change (zlen []) with 0 in Hloop. simpl in Hloop.
  rewrite Hloop by (auto using scan_fuel_ok; lia).
  unfold denote. destruct (look l x); [done|]. simpl.
  step (apply rd_mid; zlen_lia).
  destruct (Z.ltb_spec (rl_lcn t) 0); [done|unfold LCN_RL_NOT_MAPPED in *; lia].
Qed.

(** Abstract counterpart of [ntfs_rl_find_vcn_nolock]: the index of the run
    covering [vcn], counted from [i]. *)
Fixpoint find_run (l : list runlist_element) (t : runlist_element) (vcn i : Z) : option Z :=
  match l with
  | [] => if rl_lcn t =? LCN_ENOENT then Some i else None
  | r :: l =>
      if vcn <? rl_vcn r + rl_length r
      then (if rl_lcn r >=? LCN_HOLE then Some i else None)
      else find_run l t vcn (i + 1)
  end.

Lemma find_loop_spec pre l t slack v x fuel :
  chain v l (rl_vcn t) -> rl_length t = 0 -> (length l < fuel)%nat ->
  find_vcn_loop fuel (pre ++ l ++ t :: slack) x (zlen pre) = Ret (find_run l t x (zlen pre)).
Proof.
  revert pre v fuel. induction l as [|r l IH]; intros pre v fuel; simpl.
  - intros -> Ht Hf. destruct fuel; [lia|]. simpl.
    step (by apply rd_mid). rewrite Ht. simpl. by destruct (rl_lcn t =? LCN_ENOENT).
  - intros (<- & Hr & Hch) Ht Hf. destruct fuel as [|fuel]; [lia|]. simpl.
    step (by apply rd_mid). rewrite (run_ok_nonzero r Hr).
    destruct (chain_head l t slack _ Hch) as (r1 & rest & E & Hr1).
    rewrite E. rewrite cons_middle, app_assoc.
    step (apply rd_mid; zlen_lia). rewrite Hr1.
    destruct (Z.ltb_spec x (rl_vcn r + rl_length r)).
    + by destruct (rl_lcn r >=? LCN_HOLE).
    + replace (zlen pre + 1) with (zlen (pre ++ [r])) by zlen_lia.
      rewrite <- E. erewrite IH by (eauto; lia). done.
Qed.

Lemma find_vcn_find_run b l t v x :
  runlist_wf v l t -> holds b l t -> 0 <= x ->
  ntfs_rl_find_vcn_nolock (Some b) x = Ret (if x <? v then None else find_run l t x 0).
Proof.
  intros (Hc & Ht & _) Hb ?. unfold ntfs_rl_find_vcn_nolock.
  destruct (Z.ltb_spec x 0); [lia|]. simpl.
  destruct (holds_rd0 b l t v Hb Hc) as (r & Hr & Hv).
  step (exact Hr). rewrite Hv. destruct (Z.ltb_spec x v); [done|]. destruct Hb as (sl & ->).
  exact (find_loop_spec [] l t sl v x _ Hc Ht (scan_fuel_ok _ _ _)).
Qed.

(** ** Equivalence of chains

    [l1 ≈ l2]: the same VCNs are covered and looked up alike.  Joining two
    mergeable neighbours does not change the meaning of a chain. *)
Definition seg_equiv (l1 l2 : list runlist_element) : Prop :=
  forall v w, chain v l1 w ->
    chain v l2 w /\ forall x, v <= x < w -> look l1 x = look l2 x.

Infix "≈" := seg_equiv (at level 70).

#[export] Instance seg_equiv_refl : Reflexive seg_equiv.
Proof. intros l v w ?. done. Qed.

#[export] Instance seg_equiv_trans : Transitive seg_equiv.
Proof.
  intros l1 l2 l3 H1 H2 v w Hc. destruct (H1 v w Hc) as [Hc2 E1].
  destruct (H2 v w Hc2) as [Hc3 E2]. split; [done|].
  intros x Hx. by rewrite E1, E2.
Qed.

#[export] Instance app_seg_equiv :
  Proper (seg_equiv ==> seg_equiv ==> seg_equiv) (@app runlist_element).
Proof.
  intros a a' Ha b b' Hb v w (m & H1 & H2)%chain_app.
  destruct (Ha v m H1) as [H1' Ea]. destruct (Hb m w H2) as [H2' Eb].
  split; [eapply chain_app_2; eauto|]. intros x Hx.
  rewrite (look_app _ _ _ _ x H1), (look_app _ _ _ _ x H1') by lia.
  destruct (Z.ltb_spec x m); [apply Ea; lia|apply Eb; lia].
Qed.

Lemma look_beyond v l w x : chain v l w -> w <= x -> look l x = None.
Proof. apply look_None. Qed.

Lemma merge_equiv r1 r2 :
  ntfs_are_rl_mergeable r1 r2 = true -> [r1; r2] ≈ [__ntfs_rl_merge r1 r2].
Proof.
  intros Hm v w (Hv & Hr1 & Hv2 & Hr2 & <-).
  destruct r1 as [v1 l1 n1], r2 as [v2 l2 n2].
  unfold run_ok, ntfs_are_rl_mergeable, __ntfs_rl_merge, set_length, run_lcn,
    LCN_HOLE, LCN_RL_NOT_MAPPED in *; simpl in *. subst v1 v2.
  unfold run_ok, run_lcn; simpl.
  rewrite !s64_id in Hm by (unfold S64_MIN, S64_MAX in *; lia).
  rewrite s64_id by (unfold S64_MIN, S64_MAX in *; lia).
  assert (Hl : (l1 = -2 /\ l2 = -2) \/ (0 <= l1 /\ 0 <= l2 /\ l1 + n1 = l2) \/ (l1 = -1 /\ l2 = -1))
    by (repeat case_match; try done; lia).
  split; [unfold LCN_RL_NOT_MAPPED, S64_MAX in *; lia|].
  intros x Hx. destruct (Z.ltb_spec x (v + (n1 + n2))); [|lia].
  destruct (Z.ltb_spec x (v + n1)), (Z.ltb_spec x (v + n1 + n2)),
    (Z.geb_spec l1 0), (Z.geb_spec l2 0); try lia; f_equal; lia.
Qed.
