(* ===== verification/RunlistBuf.v ===== *)
(** * Buffers behind runlists

    Lemmas about the buffers runlists live in: what reallocation keeps, what a
    "move the tail, copy in the new runs" pair of block moves leaves, and the
    scans for the end of a list.  Shared by the proofs of the operations that
    edit runlists in place. *)

From Stdlib Require Import ZArith Lia Bool.
From stdpp Require Import base list numbers option.
From S2P Require Import Prelude Runlist RunlistSpec.

(** ** Capacity *)

(** Elements that fit in the allocation made for [n] elements. *)
Definition capacity (n : Z) : Z := Z.of_nat (rl_cap (rl_bytes n)).

(** The largest number of elements considered; far above what an attribute can
    have, and small enough that byte sizes do not overflow an [int]. *)
Definition RL_MAX : Z := 0x4000000.

Lemma rl_bytes_eq n : 0 <= n <= RL_MAX -> rl_bytes n = PAGE_ALIGN (n * RLE_SIZE).
Proof.
  unfold RL_MAX, rl_bytes, PAGE_ALIGN, PAGE_SIZE, RLE_SIZE. intros ?.
  apply s32_id. pose proof (Z.div_mod (n * 24 + 4096 - 1) 4096).
  pose proof (Z.mod_pos_bound (n * 24 + 4096 - 1) 4096). lia.
Qed.

Lemma rl_bytes_bounds n :
  0 <= n <= RL_MAX -> n * RLE_SIZE <= rl_bytes n < n * RLE_SIZE + PAGE_SIZE.
Proof.
  intros Hn. rewrite rl_bytes_eq by done. unfold PAGE_ALIGN, PAGE_SIZE, RLE_SIZE.
  pose proof (Z.div_mod (n * 24 + 4096 - 1) 4096).
  pose proof (Z.mod_pos_bound (n * 24 + 4096 - 1) 4096). lia.
Qed.

Lemma rl_bytes_mono n m : 0 <= n <= m -> m <= RL_MAX -> rl_bytes n <= rl_bytes m.
Proof.
  intros ? ?. rewrite !rl_bytes_eq by lia. unfold PAGE_ALIGN.
  apply Z.mul_le_mono_nonneg_r; [unfold PAGE_SIZE; lia|].
  apply Z.div_le_mono; unfold PAGE_SIZE, RLE_SIZE; lia.
Qed.

Lemma rl_cap_mono a b : a <= b -> (rl_cap a <= rl_cap b)%nat.
Proof.
  intros. unfold rl_cap. 
  enough (a / RLE_SIZE <= b / RLE_SIZE) by lia.
  apply Z.div_le_mono; unfold RLE_SIZE; lia.
Qed.

Lemma capacity_ge n : 0 <= n <= RL_MAX -> n <= capacity n.
Proof.
  intros Hn. pose proof (rl_bytes_bounds n Hn). unfold capacity, rl_cap.
  enough (n <= rl_bytes n / RLE_SIZE) by lia.
  apply Z.div_le_lower_bound; unfold RLE_SIZE in *; lia.
Qed.

Lemma capacity_mono n m : 0 <= n <= m -> m <= RL_MAX -> capacity n <= capacity m.
Proof.
  intros. unfold capacity. pose proof (rl_cap_mono _ _ (rl_bytes_mono n m ltac:(lia) ltac:(lia))). lia.
Qed.

(** [b] can hold what was requested for [n] elements. *)
Definition room (b : rl_buf) (n : Z) : Prop := capacity n <= zlen b.

Section WithAlloc.
Context `{KA : KernelAlloc}.

Lemma fresh_rl_length n : length (fresh_rl n) = rl_cap n.
Proof. unfold fresh_rl. by rewrite length_fmap, length_seq. Qed.

Lemma recopy_grow used sl old bytes :
  (length used <= rl_cap old)%nat -> (rl_cap old <= length (used ++ sl))%nat -> old <= bytes ->
  exists sl', rl_recopy (used ++ sl) old bytes = Ret (used ++ sl') /\
              length (used ++ sl') = rl_cap bytes.
Proof.
  intros Hu Hc Hb. unfold rl_recopy.
  pose proof (rl_cap_mono _ _ Hb). destruct (Z.gtb_spec old bytes); [lia|].
  set (k := rl_cap old) in *.
  exists (take (k - length used) sl ++ drop k (fresh_rl bytes)). split.
  - rewrite (blit_eq _ _ _ _ _ [] (take k (fresh_rl bytes)) (drop k (fresh_rl bytes))
      [] (take k (used ++ sl)) (drop k (used ++ sl))); cbn [app].
    + by rewrite take_app, take_ge, <- app_assoc by lia.
    + by rewrite take_drop.
    + by rewrite take_drop.
    + done.
    + done.
    + unfold zlen. rewrite length_take, fresh_rl_length. lia.
    + unfold zlen. rewrite length_take. lia.
  - rewrite !length_app, length_take, length_drop, fresh_rl_length.
    rewrite length_app in Hc. lia.
Qed.

Lemma malloc_cases nofail size :
  0 < size -> __ntfs_malloc nofail size = Ret None \/
  exists bytes, __ntfs_malloc nofail size = Ret (Some bytes) /\ size <= bytes.
Proof.
  intros. unfold __ntfs_malloc. destruct (Z.leb_spec size PAGE_SIZE).
  - destruct (Z.eqb_spec size 0); [lia|]. simpl. destruct (kmalloc_ok nofail); eauto.
  - destruct (_ <? _); [|eauto]. destruct (vmalloc_ok nofail size); eauto with lia.
Qed.

(** Growing a buffer keeps the list and makes the room asked for, or fails with
    -ENOMEM. *)
Lemma realloc_grow used sl n m :
  n = zlen used -> 0 < n <= m -> m <= RL_MAX -> room (used ++ sl) n ->
  ntfs_rl_realloc (used ++ sl) n m = Errno ENOMEM \/
  exists sl', ntfs_rl_realloc (used ++ sl) n m = Ret (used ++ sl') /\ room (used ++ sl') m.
Proof.
  intros -> ? ? Hroom. unfold ntfs_rl_realloc.
  pose proof (rl_bytes_mono (zlen used) m ltac:(lia) ltac:(lia)).
  pose proof (rl_bytes_bounds (zlen used) ltac:(lia)).
  pose proof (rl_bytes_bounds m ltac:(lia)).
  destruct (Z.eqb_spec (rl_bytes (zlen used)) (rl_bytes m)) as [E|E].
  - right. exists sl. split; [done|]. unfold room, capacity in *. by rewrite <- E.
  - unfold ntfs_malloc_nofs.
    destruct (malloc_cases false (rl_bytes m)) as [->|(bytes & -> & Hb)];
      [unfold RLE_SIZE in *; lia|by left|]. right. simpl.
    pose proof (capacity_ge (zlen used) ltac:(lia)) as Hcap.
    unfold room, capacity, zlen in *.
    destruct (recopy_grow used sl (rl_bytes (Z.of_nat (length used))) bytes) as (sl' & -> & Hl);
      [lia..|]. exists sl'. split; [done|]. rewrite Hl.
    pose proof (rl_cap_mono _ _ Hb). lia.
Qed.

(** ** Moving the tail and copying in new runs *)

(** The buffer is [A ++ X ++ T ++ sl]; the tail [T] moves behind a gap of [g]
    old cells and [n] new ones, which are copied in from [src]. *)
Lemma splice A X T sl (src : rl_buf) a x g n s :
  a = zlen A -> x = zlen X -> 0 <= g -> 0 <= n -> 0 <= s -> s + n <= zlen src ->
  a + g + n + zlen T <= zlen (A ++ X ++ T ++ sl) ->
  exists b1 sl',
    ntfs_rl_mm (A ++ X ++ T ++ sl) (a + g + n) (a + x) (zlen T) = Ret b1 /\
    ntfs_rl_mc b1 (a + g) src s n =
      Ret (A ++ take (Z.to_nat g) (X ++ T ++ sl)
             ++ take (Z.to_nat n) (drop (Z.to_nat s) src) ++ T ++ sl') /\
    zlen (A ++ take (Z.to_nat g) (X ++ T ++ sl)
             ++ take (Z.to_nat n) (drop (Z.to_nat s) src) ++ T ++ sl')
      = zlen (A ++ X ++ T ++ sl).
Proof.
  intros -> -> Hg Hn Hs Hsn Hlen.
  set (R := X ++ T ++ sl) in *.
  assert (HR : g + n + zlen T <= zlen R) by zlen_lia.
  (* after the first move *)
  set (mid := take (Z.to_nat (g + n)) R).
  assert (Hmid : length mid = Z.to_nat (g + n)).
  { unfold mid. rewrite length_take. unfold zlen in *. lia. }
  set (sl' := drop (Z.to_nat (g + n + zlen T)) R).
  assert (Hsl : zlen sl' = zlen R - (g + n + zlen T)).
  { unfold sl', zlen in *. rewrite length_drop. lia. }
  assert (Hmm : ntfs_rl_mm (A ++ R) (zlen A + g + n) (zlen A + zlen X) (zlen T)
                = Ret (A ++ mid ++ T ++ sl')).
  { unfold ntfs_rl_mm. destruct (Z.gtb_spec (zlen T) 0) as [HT|HT]; cycle 1.
    { rewrite andb_false_r. assert (T = []) as ->.
      { destruct T; [done|]. rewrite zlen_cons in HT. pose proof (zlen_nonneg T). lia. }
      unfold mid, sl'. change (zlen []) with 0. rewrite Z.add_0_r. simpl. by rewrite take_drop. }
    destruct (Z.eqb_spec (zlen A + g + n) (zlen A + zlen X)) as [E|E]; simpl.
    { assert (g + n = zlen X) as Egn by lia.
      assert (mid = X) as ->.
      { unfold mid, R. rewrite Egn. unfold zlen. by rewrite Nat2Z.id, take_app_length. }
      assert (sl' = sl) as ->; [|done].
      unfold sl', R. rewrite Egn, app_assoc.
      replace (Z.to_nat (zlen X + zlen T)) with (length (X ++ T))
        by (unfold zlen; rewrite length_app; lia). apply drop_app_length. }
    rewrite (blit_eq _ _ _ _ _ (A ++ mid)
      (take (length T) (drop (Z.to_nat (g + n)) R)) sl' (A ++ X) T sl).
    - by rewrite <- app_assoc.
    - rewrite <- app_assoc. f_equal. unfold mid, sl'.
      replace (Z.to_nat (g + n + zlen T)) with (Z.to_nat (g + n) + length T)%nat
        by (unfold zlen; lia).
      by rewrite <- drop_drop, (take_drop (length T)), take_drop.
    - unfold R. by rewrite <- app_assoc.
    - unfold zlen in *. rewrite length_app, Hmid. lia.
    - unfold zlen. rewrite length_app. lia.
    - unfold zlen in *. rewrite length_take, length_drop. lia.
    - done. }
  exists (A ++ mid ++ T ++ sl'), sl'. split; [done|].
  assert (Hmc : take (Z.to_nat g) mid = take (Z.to_nat g) R).
  { unfold mid. rewrite take_take. f_equal. lia. }
  assert (Hns : length (take (Z.to_nat n) (drop (Z.to_nat s) src)) = Z.to_nat n).
  { rewrite length_take, length_drop. unfold zlen in *. lia. }
  split.
  - unfold ntfs_rl_mc. destruct (Z.gtb_spec n 0); cycle 1.
    + assert (n = 0) as -> by lia. simpl. unfold mid. by rewrite Z.add_0_r.
    + rewrite (blit_eq _ _ _ _ _ (A ++ take (Z.to_nat g) mid) (drop (Z.to_nat g) mid) (T ++ sl')
        (take (Z.to_nat s) src) (take (Z.to_nat n) (drop (Z.to_nat s) src))
        (drop (Z.to_nat n) (drop (Z.to_nat s) src))).
      * by rewrite Hmc, <- !app_assoc.
      * by rewrite <- app_assoc, (app_assoc (take _ mid)), take_drop.
      * by rewrite !take_drop.
      * unfold zlen. rewrite length_app, length_take, Hmid. lia.
      * unfold zlen in *. rewrite length_take. lia.
      * unfold zlen. rewrite length_drop, Hmid. lia.
      * unfold zlen. rewrite Hns. lia.
  - rewrite !zlen_app, Hsl. unfold zlen in *. rewrite Hns, length_take. lia.
Qed.
End WithAlloc.

(** ** Scans *)

Lemma scan_up_spec pre l r slack p fuel :
  Forall (fun r => p r = true) l -> p r = false -> (length l < fuel)%nat ->
  scan_up fuel p (pre ++ l ++ r :: slack) (zlen pre) = Ret (zlen pre + zlen l).
Proof.
  revert pre fuel. induction l as [|a l IH]; intros pre fuel Hl Hr Hf; (destruct fuel; [simpl in Hf; lia|]);
    simpl in *.
  - step (by apply rd_mid). rewrite Hr. f_equal. zlen_lia.
  - inversion Hl; subst. step (by apply rd_mid). rewrite H1.
    rewrite cons_middle, app_assoc.
    replace (zlen pre + 1) with (zlen (pre ++ [a])) by zlen_lia.
    rewrite IH by (done || lia). f_equal. zlen_lia.
Qed.

Lemma scan_down_spec pre l r slack p fuel i :
  Forall (fun r => p r = true) l -> p r = false -> (length l < fuel)%nat ->
  i = zlen pre + zlen l ->
  scan_down fuel p (pre ++ r :: l ++ slack) i = Ret (zlen pre).
Proof.
  revert fuel slack i. induction l as [|a l IH] using rev_ind; intros fuel slack i Hl Hr Hf ->;
    (destruct fuel as [|fuel]; [rewrite ?length_app in Hf; simpl in Hf; lia|]); simpl.
  - pose proof (zlen_nonneg pre). rewrite zlen_nil, Z.add_0_r.
    destruct (Z.geb_spec (zlen pre) 0); [|lia].
    step (by apply rd_mid). by rewrite Hr.
  - apply Forall_app in Hl as [Hl Ha]. inversion Ha; subst.
    pose proof (zlen_nonneg pre). pose proof (zlen_nonneg l).
    destruct (Z.geb_spec (zlen pre + zlen (l ++ [a])) 0); [|zlen_lia].
    step (apply (rd_at _ (pre ++ r :: l) slack a); [by rewrite <- !app_assoc|zlen_lia]).
    rewrite H1. rewrite <- app_assoc.
    apply IH; [done|done| |zlen_lia]. rewrite length_app in Hf. simpl in Hf. lia.
Qed.

(** A downward scan that starts inside the buffer always stops. *)
Lemma scan_down_total p (b : rl_buf) i fuel :
  -1 <= i < zlen b -> (Z.to_nat (i + 1) < fuel)%nat -> exists j, scan_down fuel p b i = Ret j.
Proof.
  revert i. induction fuel as [|fuel IH]; intros i Hi Hf; [lia|]. simpl.
  destruct (Z.geb_spec i 0); [|eauto].
  destruct (rd_in_range b i) as [r Hr]; [lia|]. rewrite Hr, bind_Ret.
  destruct (p r); [|eauto]. apply IH; lia.
Qed.
