(* ===== verification/RunlistMerge.v ===== *)
(** * Merging runlists

    Models [ntfs_rl_append], [ntfs_rl_insert], [ntfs_rl_replace],
    [ntfs_rl_split] and [ntfs_runlists_merge] of [src/ntfs/runlist.c]. *)

From Stdlib Require Import ZArith Lia Bool.
From stdpp Require Import base list numbers option.
From S2P Require Import Prelude Runlist.

Section Merge.
Context `{KA : KernelAlloc}.

(** [&src[i]] of a pointer into a buffer. *)
Definition ptr_add (rl : rl_buf) (i : Z) : rl_buf := drop (Z.to_nat i) rl.

(** Read-modify-write of one element. *)
Definition upd (rl : rl_buf) (i : Z) (f : runlist_element -> runlist_element) : outcome rl_buf :=
  r ← rd rl i; wr rl i (f r).

(** [rl[i].vcn + rl[i].length] *)
Definition vcn_end (r : runlist_element) : Z := s64 (rl_vcn r + rl_length r).

Definition ntfs_rl_append (dst : rl_buf) (dsize : Z) (src : rl_buf) (ssize loc : Z)
    : outcome rl_buf :=
  right ← (if loc + 1 <? dsize then
             s ← rd src (ssize - 1); d ← rd dst (loc + 1);
             Ret (ntfs_are_rl_mergeable s d)
           else Ret false);
  dst ← ntfs_rl_realloc dst dsize (dsize + ssize - Z.b2z right);
  src ← (if right then
           d ← rd dst (loc + 1); upd src (ssize - 1) (fun s => __ntfs_rl_merge s d)
         else Ret src);
  let marker := loc + ssize + 1 in
  dst ← ntfs_rl_mm dst marker (loc + 1 + Z.b2z right) (dsize - (loc + 1 + Z.b2z right));
  dst ← ntfs_rl_mc dst (loc + 1) src 0 ssize;
  d1 ← rd dst (loc + 1);
  dst ← upd dst loc (fun d => set_length (s64 (rl_vcn d1 - rl_vcn d)) d);
  m ← rd dst marker;
  if rl_lcn m =? LCN_ENOENT then
    p ← rd dst (marker - 1);
    wr dst marker (set_vcn (vcn_end p) m)
  else Ret dst.

Definition ntfs_rl_insert (dst : rl_buf) (dsize : Z) (src : rl_buf) (ssize loc : Z)
    : outcome rl_buf :=
  s0 ← rd src 0;
  '(lft, disc) ← (if loc =? 0 then Ret (false, rl_vcn s0 >? 0)
                   else
                     p ← rd dst (loc - 1);
                     let lft := ntfs_are_rl_mergeable p s0 in
                     let merged_length :=
                       if lft then s64 (rl_length p + rl_length s0) else rl_length p in
                     Ret (lft, rl_vcn s0 >? s64 (rl_vcn p + merged_length)));
  dst ← ntfs_rl_realloc dst dsize (dsize + ssize - Z.b2z lft + Z.b2z disc);
  dst ← (if lft then upd dst (loc - 1) (fun d => __ntfs_rl_merge d s0) else Ret dst);
  let marker := loc + ssize - Z.b2z lft + Z.b2z disc in
  dst ← ntfs_rl_mm dst marker loc (dsize - loc);
  dst ← ntfs_rl_mc dst (loc + Z.b2z disc) src (Z.b2z lft) (ssize - Z.b2z lft);
  p ← rd dst (marker - 1);
  dst ← upd dst marker (set_vcn (vcn_end p));
  m ← rd dst marker;
  dst ← (if (rl_lcn m =? LCN_HOLE) || (rl_lcn m =? LCN_RL_NOT_MAPPED) then
           n ← rd dst (marker + 1);
           wr dst marker (set_length (s64 (rl_vcn n - rl_vcn m)) m)
         else Ret dst);
  if (disc : bool) then
    n ← rd dst (loc + 1);
    dst ← (if loc >? 0 then
             p ← rd dst (loc - 1);
             dst ← upd dst loc (set_vcn (vcn_end p));
             upd dst loc (fun d => set_length (s64 (rl_vcn n - rl_vcn d)) d)
           else
             dst ← upd dst loc (set_vcn 0);
             upd dst loc (set_length (rl_vcn n)));
    upd dst loc (set_lcn LCN_RL_NOT_MAPPED)
  else Ret dst.

Definition ntfs_rl_replace (dst : rl_buf) (dsize : Z) (src : rl_buf) (ssize loc : Z)
    : outcome rl_buf :=
  right ← (if loc + 1 <? dsize then
             s ← rd src (ssize - 1); d ← rd dst (loc + 1);
             Ret (ntfs_are_rl_mergeable s d)
           else Ret false);
  lft ← (if loc >? 0 then
            d ← rd dst (loc - 1); s ← rd src 0;
            Ret (ntfs_are_rl_mergeable d s)
          else Ret false);
  let delta := ssize - 1 - Z.b2z lft - Z.b2z right in
  dst ← (if delta >? 0 then ntfs_rl_realloc dst dsize (dsize + delta) else Ret dst);
  src ← (if right then
           d ← rd dst (loc + 1); upd src (ssize - 1) (fun s => __ntfs_rl_merge s d)
         else Ret src);
  dst ← (if lft then
           s ← rd src 0; upd dst (loc - 1) (fun d => __ntfs_rl_merge d s)
         else Ret dst);
  let tail := loc + Z.b2z right + 1 in
  let marker := loc + ssize - Z.b2z lft in
  dst ← ntfs_rl_mm dst marker tail (dsize - tail);
  dst ← ntfs_rl_mc dst loc src (Z.b2z lft) (ssize - Z.b2z lft);
  if dsize - tail >? 0 then
    m ← rd dst marker;
    if rl_lcn m =? LCN_ENOENT then
      p ← rd dst (marker - 1);
      wr dst marker (set_vcn (vcn_end p) m)
    else Ret dst
  else Ret dst.

Definition ntfs_rl_split (dst : rl_buf) (dsize : Z) (src : rl_buf) (ssize loc : Z)
    : outcome rl_buf :=
  dst ← ntfs_rl_realloc dst dsize (dsize + ssize + 1);
  dst ← ntfs_rl_mm dst (loc + 1 + ssize) loc (dsize - loc);
  dst ← ntfs_rl_mc dst (loc + 1) src 0 ssize;
  n ← rd dst (loc + 1);
  dst ← upd dst loc (fun d => set_length (s64 (rl_vcn n - rl_vcn d)) d);
  p ← rd dst (loc + ssize);
  dst ← upd dst (loc + ssize + 1) (set_vcn (vcn_end p));
  q ← rd dst (loc + ssize + 2);
  upd dst (loc + ssize + 1) (fun d => set_length (s64 (rl_vcn q - rl_vcn d)) d).

(** The first mapping of an attribute: [drl] is NULL. *)
Definition merge_first (srl : rl_buf) : outcome rl_buf :=
  r0 ← rd srl 0;
  if negb (rl_vcn r0 =? 0) then
    dend ← scan_up (scan_fuel srl) (fun r => negb (rl_length r =? 0)) srl 0;
    let dend := dend + 1 in
    drl ← ntfs_rl_realloc srl dend (dend + 1);
    drl ← ntfs_rl_mm drl 1 0 dend;
    drl ← upd drl 0 (set_vcn 0);
    drl ← upd drl 0 (set_lcn LCN_RL_NOT_MAPPED);
    r1 ← rd drl 1;
    upd drl 0 (set_length (rl_vcn r1))
  else Ret srl.

(** The code after the label "Triggering marker code": @srl ended with an
    LCN_ENOENT terminator at @marker_vcn, which the merged list must get. *)
Definition merge_marker (drl : rl_buf) (dend marker_vcn : Z) : outcome rl_buf :=
  ds ← scan_up (scan_fuel drl) (fun r => negb (rl_length r =? 0)) drl dend;
  t ← rd drl ds;
  if rl_vcn t <=? marker_vcn then
    if rl_vcn t =? marker_vcn then upd drl ds (set_lcn LCN_ENOENT)
    else
      let '(ds, slots) := if rl_lcn t =? LCN_ENOENT then (ds - 1, 1) else (ds, 0) in
      r ← rd drl ds;
      '(drl, ds, slots) ←
        (if negb (rl_lcn r =? LCN_RL_NOT_MAPPED) then
           '(drl, slots) ← (if slots =? 0 then
                              drl ← ntfs_rl_realloc_nofail drl ds (ds + 2); Ret (drl, 2)
                            else Ret (drl, slots));
           let ds := ds + 1 in
           drl ← (if negb (slots =? 1) then
                    p ← rd drl (ds - 1); upd drl ds (set_vcn (vcn_end p))
                  else Ret drl);
           drl ← upd drl ds (set_lcn LCN_RL_NOT_MAPPED);
           Ret (drl, ds, slots - 1)
         else Ret (drl, ds, slots));
      drl ← upd drl ds (fun d => set_length (s64 (marker_vcn - rl_vcn d)) d);
      let ds := ds + 1 in
      drl ← (if slots =? 0 then ntfs_rl_realloc_nofail drl ds (ds + 1) else Ret drl);
      drl ← upd drl ds (set_vcn marker_vcn);
      drl ← upd drl ds (set_lcn LCN_ENOENT);
      upd drl ds (set_length 0)
  else Ret drl.

(** Both runlists exist. *)
Definition merge_both (drl srl : rl_buf) : outcome rl_buf :=
  si ← scan_up (scan_fuel srl)
         (fun r => negb (rl_length r =? 0) && (rl_lcn r <? LCN_HOLE)) srl 0;
  s ← rd srl si;
  BUG_ON (rl_length s =? 0);;
  let sstart := si in
  dins ← scan_up (scan_fuel drl)
           (fun r => negb (rl_length r =? 0) && negb (vcn_end r >? rl_vcn s)) drl 0;
  d ← rd drl dins;
  if (rl_vcn d =? rl_vcn s) && (rl_lcn d >=? 0) && (rl_lcn s >=? 0) then Errno ERANGE
  else
    send ← scan_up (scan_fuel srl) (fun r => negb (rl_length r =? 0)) srl si;
    dend ← scan_up (scan_fuel drl) (fun r => negb (rl_length r =? 0)) drl dins;
    st ← rd srl send;
    let '(marker, marker_vcn) :=
      if rl_lcn st =? LCN_ENOENT then (send, rl_vcn st) else (0, 0) in
    sfinal ← scan_down (scan_fuel srl) (fun r => rl_lcn r <? LCN_HOLE) srl send;
    _dfinal ← scan_down (scan_fuel drl) (fun r => rl_lcn r <? LCN_HOLE) drl dend;
    let ds := dend + 1 in
    let ss := sfinal - sstart + 1 in
    sl ← rd srl (send - 1);
    let start := (rl_lcn d <? LCN_RL_NOT_MAPPED) || (rl_vcn d =? rl_vcn s) in
    let finish := (rl_lcn d >=? LCN_RL_NOT_MAPPED) && (vcn_end d <=? vcn_end sl) in
    let ss := if finish && (rl_length d =? 0) then ss + 1 else ss in
    let finish := if negb (marker =? 0) && (vcn_end d >? rl_vcn sl) then false else finish in
    let op := if start then (if finish then ntfs_rl_replace else ntfs_rl_insert)
              else (if finish then ntfs_rl_append else ntfs_rl_split) in
    drl ← op drl ds (ptr_add srl sstart) ss dins;
    if negb (marker =? 0) then merge_marker drl dend marker_vcn else Ret drl.

(** [ntfs_runlists_merge]: an argument that is an [ERR_PTR] is [Errno _], NULL
    is [Ret None]; so is the result. *)
Definition ntfs_runlists_merge (drl srl : outcome (option rl_buf)) : outcome (option rl_buf) :=
  match srl with
  | Ret None => drl
  | Ret (Some s) =>
      match drl with
      | Ret None => r ← merge_first s; Ret (Some r)
      | Ret (Some d) => r ← merge_both d s; Ret (Some r)
      | Errno _ => Errno EINVAL
      | o => o
      end
  | Errno _ => Errno EINVAL
  | o => o
  end.
End Merge.
