(* ===== verification/RunlistMergeSpec.v ===== *)
(** * Correctness of merging runlists

    The four placement operations and [ntfs_runlists_merge] are characterised
    on the lists the buffers hold; the merged list denotes the old map updated
    with the new runs. *)

From Stdlib Require Import ZArith Lia Bool.
From stdpp Require Import base list numbers option.
From S2P Require Import Prelude Runlist RunlistSpec RunlistBuf RunlistMerge.

Lemma upd_at (b pre post : rl_buf) x f i :
  b = pre ++ x :: post -> i = zlen pre -> upd b i f = Ret (pre ++ f x :: post).
Proof.
  intros -> ->. unfold upd. step (by apply rd_mid). by apply wr_mid.
Qed.

(** Solves [shape = pre ++ x :: post] and the position of [x]. *)
Ltac shape := solve [do 3 (rewrite <- ?app_assoc; simpl); done].
Ltac at_pos := shape || zlen_lia.

Lemma set_vcn_id m : set_vcn (rl_vcn m) m = m.
Proof. by destruct m. Qed.

(** "Fix the end marker" leaves a terminator alone that is already in place. *)
Lemma fix_marker (b P Q : rl_buf) p m i :
  b = P ++ p :: m :: Q -> i = zlen P + 1 ->
  (rl_lcn m = LCN_ENOENT -> rl_vcn m = vcn_end p) ->
  (m ← rd b i;
   if rl_lcn m =? LCN_ENOENT then p ← rd b (i - 1); wr b i (set_vcn (vcn_end p) m) else Ret b)
  = Ret b.
Proof.
  intros -> -> Hm. step (apply (rd_at _ (P ++ [p]) Q m); at_pos).
  destruct (Z.eqb_spec (rl_lcn m) LCN_ENOENT) as [E|]; [|done].
  step (apply (rd_at _ P (m :: Q) p); at_pos). rewrite <- Hm, set_vcn_id by done.
  rewrite (wr_at _ (P ++ [p]) Q m m); [shape|shape|zlen_lia].
Qed.

(** The first [zlen R] elements of a buffer that starts with [R]. *)
Lemma take_src (R rest : rl_buf) n : n = zlen R -> take (Z.to_nat n) (R ++ rest) = R.
Proof. intros ->. unfold zlen. rewrite Nat2Z.id. apply take_app_length. Qed.

Section Ops.
Context `{KA : KernelAlloc}.
Implicit Types (pre post sl R T rest : rl_buf) (h q z m : runlist_element).

(** The new runs [R0 ++ [z]] follow the shortened hole [h]; the last of them is
    joined with the run [q] after the hole when [right]. *)
Lemma append_spec pre h q post sl R0 z rest sv right m T' :
  let used := pre ++ h :: q :: post in
  let dsize := zlen used in
  let R := R0 ++ [z] in
  ntfs_are_rl_mergeable z q = right ->
  (if right then post else q :: post) = m :: T' ->
  let z' := if right then __ntfs_rl_merge z q else z in
  rl_vcn (hd z' R0) = sv ->
  (rl_lcn m = LCN_ENOENT -> rl_vcn m = vcn_end z') ->
  room (used ++ sl) dsize -> dsize + zlen R <= RL_MAX ->
  let res := ntfs_rl_append (used ++ sl) dsize (R ++ rest) (zlen R) (zlen pre) in
  res = Errno ENOMEM \/
  exists sl', let used' := pre ++ set_length (s64 (sv - rl_vcn h)) h :: R0 ++ z' :: m :: T' in
    res = Ret (used' ++ sl') /\ room (used' ++ sl') (zlen used').
Proof.
  intros used dsize R Hright HT z' Hvcn Hm Hroom Hmax. unfold ntfs_rl_append.
  pose proof (zlen_nonneg pre). pose proof (zlen_nonneg post). pose proof (zlen_nonneg R0).
  assert (Hd : dsize = zlen pre + 2 + zlen post) by (unfold dsize, used; zlen_lia).
  assert (HR : zlen R = zlen R0 + 1) by (unfold R; zlen_lia).
  destruct (Z.ltb_spec (zlen pre + 1) dsize); [|lia]. cbv zeta.
  assert (Hz : rd (R ++ rest) (zlen R - 1) = Ret z)
    by (apply (rd_at _ R0 rest z); [unfold R; shape|lia]).
  assert (Hq : forall s, rd (used ++ s) (zlen pre + 1) = Ret q)
    by (intros; apply (rd_at _ (pre ++ [h]) (post ++ s) q); [unfold used; shape|zlen_lia]).
  rewrite Hz, bind_Ret, Hq, bind_Ret, Hright, bind_Ret.
  destruct (realloc_grow used sl dsize (dsize + zlen R - Z.b2z right)) as [->|(sl1 & -> & Hroom')];
    [done|destruct right; simpl; lia|destruct right; simpl; lia|done|by left|].
  right. rewrite bind_Ret.
  (* the last new run is joined with the run after the hole *)
  assert (Hsrc : (if right then d ← rd (used ++ sl1) (zlen pre + 1);
      upd (R ++ rest) (zlen R - 1) (fun s => __ntfs_rl_merge s d) else Ret (R ++ rest))
      = Ret ((R0 ++ [z']) ++ rest)).
  { unfold z'. destruct right; [|done]. step (apply Hq).
    unfold R. rewrite (upd_at _ R0 rest z); [shape|shape|zlen_lia]. }
  rewrite Hsrc, bind_Ret.
  assert (Hshape : used ++ sl1 = (pre ++ [h]) ++ (if right then [q] else []) ++ (m :: T') ++ sl1).
  { rewrite <- HT. unfold used. destruct right; shape. }
  assert (HTlen : zlen (m :: T') = zlen post + 1 - Z.b2z right).
  { rewrite <- HT. destruct right; simpl; zlen_lia. }
  assert (Hcap : dsize + zlen R - Z.b2z right <= zlen (used ++ sl1)).
  { unfold room in Hroom'. etrans; [apply capacity_ge|exact Hroom']. destruct right; simpl; lia. }
  destruct (splice (pre ++ [h]) (if right then [q] else []) (m :: T') sl1 ((R0 ++ [z']) ++ rest)
    (zlen pre + 1) (Z.b2z right) 0 (zlen R) 0) as (b1 & sl2 & Hmm & Hmc & Hlen);
    [zlen_lia|by destruct right|lia|lia|lia|zlen_lia|rewrite <- Hshape, HTlen; lia|].
  rewrite <- Hshape in Hmm, Hlen. rewrite Z.add_0_r in Hmm, Hmc.
  replace (zlen pre + zlen R + 1) with (zlen pre + 1 + zlen R) by lia.
  replace (dsize - (zlen pre + 1 + Z.b2z right)) with (zlen (m :: T')) by lia.
  rewrite Hmm, bind_Ret, Hmc, bind_Ret. clear Hmm Hmc.
  simpl in *. rewrite drop_0, take_src in * by (unfold R; zlen_lia).
  exists sl2. set (h' := set_length _ h). split; cycle 1.
  { unfold room in *. etrans; [|etrans; [exact Hroom'|]].
    - apply capacity_mono; destruct right; simpl in *; zlen_lia.
    - rewrite <- Hlen. zlen_lia. }
  step (apply (rd_at _ (pre ++ [h]) (tail (R0 ++ [z']) ++ m :: T' ++ sl2) (hd z' R0));
        [destruct R0; shape|zlen_lia]).
  rewrite Hvcn.
  step (apply (upd_at _ pre ((R0 ++ [z']) ++ m :: T' ++ sl2) h); at_pos).
  etrans; [apply (fix_marker _ (pre ++ h' :: R0) (T' ++ sl2) z' m); [shape|zlen_lia|done]|shape].
Qed.
(** [pre ++ l] with the first element of [l] joined to the last of [pre] when
    [lft]. *)
Definition join_left (lft : bool) pre (l : rl_buf) : rl_buf :=
  match lft, list.last pre, l with
  | true, Some p, s :: l => take (pred (length pre)) pre ++ __ntfs_rl_merge p s :: l
  | _, _, _ => pre ++ l
  end.

(** Is the first run of [l] joined to the last of [pre]? *)
Definition left_of pre (l : rl_buf) : bool :=
  match list.last pre, l with Some p, s :: _ => ntfs_are_rl_mergeable p s | _, _ => false end.

Lemma join_left_snoc pre0 p s (l : rl_buf) :
  join_left true (pre0 ++ [p]) (s :: l) = pre0 ++ __ntfs_rl_merge p s :: l.
Proof.
  unfold join_left. rewrite last_snoc. f_equal.
  rewrite length_app. simpl. rewrite Nat.add_1_r. simpl. apply take_app_length.
Qed.

Lemma join_left_false pre (l : rl_buf) : join_left false pre l = pre ++ l.
Proof. done. Qed.

Lemma left_of_inv pre (l : rl_buf) :
  left_of pre l = true ->
  exists pre0 p s l', pre = pre0 ++ [p] /\ l = s :: l' /\ ntfs_are_rl_mergeable p s = true.
Proof.
  unfold left_of. destruct (list.last pre) as [p|] eqn:E; [|done].
  destruct l as [|s l']; [done|]. apply last_Some in E as [pre0 ->]. eauto 8.
Qed.

Lemma split_spec pre h q post sl R s0 z rest :
  let used := pre ++ h :: q :: post in
  let dsize := zlen used in
  head R = Some s0 -> list.last R = Some z ->
  room (used ++ sl) dsize -> dsize + zlen R + 1 <= RL_MAX ->
  let res := ntfs_rl_split (used ++ sl) dsize (R ++ rest) (zlen R) (zlen pre) in
  res = Errno ENOMEM \/
  exists sl', let h1 := set_length (s64 (rl_vcn s0 - rl_vcn h)) h in
    let h2 := set_length (s64 (rl_vcn q - vcn_end z)) (set_vcn (vcn_end z) h) in
    let used' := pre ++ h1 :: R ++ h2 :: q :: post in
    res = Ret (used' ++ sl') /\ room (used' ++ sl') (zlen used').
Proof.
  intros used dsize Hs0 Hz Hroom Hmax. unfold ntfs_rl_split.
  assert (Hd : dsize = zlen pre + 2 + zlen post) by (unfold dsize, used; zlen_lia).
  destruct (realloc_grow used sl dsize (dsize + zlen R + 1)) as [->|(sl1 & -> & Hroom')];
    [done|zlen_lia|done|done|by left|]. right. rewrite bind_Ret.
  assert (Hcap : dsize + zlen R + 1 <= zlen (used ++ sl1)).
  { etrans; [apply capacity_ge|exact Hroom']. zlen_lia. }
  assert (Hshape : used ++ sl1 = pre ++ [] ++ (h :: q :: post) ++ sl1) by (unfold used; shape).
  destruct (splice pre [] (h :: q :: post) sl1 (R ++ rest) (zlen pre) 0 1 (zlen R) 0)
    as (b1 & sl2 & Hmm & Hmc & Hlen); [done|done|lia|zlen_lia|lia|zlen_lia|zlen_lia|].
  rewrite <- Hshape in Hmm, Hlen. rewrite Z.add_0_r in Hmm.
  replace (dsize - zlen pre) with (zlen (h :: q :: post)) by zlen_lia.
  rewrite Hmm, bind_Ret, Hmc, bind_Ret. clear Hmm Hmc.
  simpl in *. rewrite drop_0, take_src in * by done.
  destruct R as [|s R']; [done|]. injection Hs0 as ->.
  apply last_Some in Hz as [R0 HR]. rewrite HR in *.
  exists sl2. set (h1 := set_length _ h). split; cycle 1.
  { unfold room in *. etrans; [|etrans; [exact Hroom'|]]; [apply capacity_mono|]; zlen_lia. }
  rewrite <- HR at 1.
  step (apply (rd_at _ (pre ++ [h]) (R' ++ h :: q :: post ++ sl2) s0); at_pos).
  step (apply (upd_at _ pre ((R0 ++ [z]) ++ h :: q :: post ++ sl2) h); at_pos).
  step (apply (rd_at _ (pre ++ h1 :: R0) (h :: q :: post ++ sl2) z); at_pos).
  step (apply (upd_at _ (pre ++ h1 :: R0 ++ [z]) (q :: post ++ sl2) h); at_pos).
  step (apply (rd_at _ (pre ++ h1 :: R0 ++ [z; set_vcn (vcn_end z) h]) (post ++ sl2) q); at_pos).
  etrans; [apply (upd_at _ (pre ++ h1 :: R0 ++ [z]) (q :: post ++ sl2)); at_pos|shape].
Qed.
(** Is the last new run [z] joined with the first element of [post]? *)
Definition right_of z post : bool :=
  match post with q :: _ => ntfs_are_rl_mergeable z q | [] => false end.

(** The last new run after that. *)
Definition join_right z post : runlist_element :=
  match post with q :: _ => if ntfs_are_rl_mergeable z q then __ntfs_rl_merge z q else z | [] => z end.

Lemma merge_right_step pre h post sl R0 z rest :
  (if right_of z post then
     d ← rd (pre ++ h :: post ++ sl) (zlen pre + 1);
     upd (R0 ++ z :: rest) (zlen R0) (fun s => __ntfs_rl_merge s d)
   else Ret (R0 ++ z :: rest)) = Ret ((R0 ++ [join_right z post]) ++ rest).
Proof.
  unfold right_of, join_right. destruct post as [|q post]; [shape|].
  destruct (ntfs_are_rl_mergeable z q) eqn:E; [|shape].
  step (apply (rd_at _ (pre ++ [h]) (post ++ sl) q); at_pos).
  etrans; [apply (upd_at _ R0 rest z); [shape|done]|shape].
Qed.

(** [left_of] only looks at the start of the first new run. *)
Lemma merge_left_step pre (tl R l rest : rl_buf) :
  (left_of pre R = true -> l <> []) ->
  exists P : rl_buf,
    (if left_of pre R then
       s ← rd (l ++ rest) 0; upd (pre ++ tl) (zlen pre - 1) (fun d => __ntfs_rl_merge d s)
     else Ret (pre ++ tl)) = Ret (P ++ tl) /\ zlen P = zlen pre /\
    P ++ drop (Z.to_nat (Z.b2z (left_of pre R))) l = join_left (left_of pre R) pre l.
Proof.
  intros Hne. destruct (left_of pre R) eqn:Hl; cycle 1.
  { exists pre. simpl. by rewrite drop_0. }
  destruct (left_of_inv _ _ Hl) as (pre0 & p & s & l' & -> & _ & _).
  destruct l as [|s' l]; [by destruct Hne|].
  exists (pre0 ++ [__ntfs_rl_merge p s']). rewrite join_left_snoc. split; [|split; [zlen_lia|shape]].
  step (by apply (rd_at _ [] (l ++ rest) s')).
  etrans; [apply (upd_at _ pre0 tl p); at_pos|shape].
Qed.

(** What is copied in when the first [k] new runs are already merged. *)
Lemma drop_src (l rest : rl_buf) n k :
  0 <= k <= zlen l -> n = zlen l - k ->
  take (Z.to_nat n) (drop (Z.to_nat k) (l ++ rest)) = drop (Z.to_nat k) l.
Proof.
  unfold zlen. intros ? ->. rewrite drop_app_le by lia.
  rewrite take_app_le, take_ge by (rewrite length_drop; lia). done.
Qed.

Lemma b2z_range (b : bool) : 0 <= Z.b2z b <= 1.
Proof. destruct b; simpl; lia. Qed.

Lemma left_of_zlen pre R : left_of pre R = true -> 0 < zlen pre.
Proof. intros (pre0 & p & s & l' & -> & _)%left_of_inv. zlen_lia. Qed.

Lemma right_of_zlen z post : zlen (if right_of z post then tail post else post) = zlen post - Z.b2z (right_of z post).
Proof. unfold right_of. destruct post; [done|]. destruct (ntfs_are_rl_mergeable _ _); simpl; zlen_lia. Qed.

Lemma right_test pre h post sl R0 z rest dsize :
  dsize = zlen (pre ++ h :: post) ->
  (if zlen pre + 1 <? dsize then
     s ← rd ((R0 ++ [z]) ++ rest) (zlen (R0 ++ [z]) - 1);
     d ← rd ((pre ++ h :: post) ++ sl) (zlen pre + 1);
     Ret (ntfs_are_rl_mergeable s d)
   else Ret false) = Ret (right_of z post).
Proof.
  intros ->. unfold right_of. destruct post as [|q post].
  { destruct (Z.ltb_spec (zlen pre + 1) (zlen (pre ++ [h]))); [zlen_lia|done]. }
  destruct (Z.ltb_spec (zlen pre + 1) (zlen (pre ++ h :: q :: post))); [|zlen_lia].
  step (apply (rd_at _ R0 rest z); at_pos).
  step (apply (rd_at _ (pre ++ [h]) (post ++ sl) q); at_pos). done.
Qed.

Lemma left_test pre (b tl R rest : rl_buf) :
  b = pre ++ tl -> R <> [] ->
  (if zlen pre >? 0 then
     d ← rd b (zlen pre - 1); s ← rd (R ++ rest) 0;
     Ret (ntfs_are_rl_mergeable d s)
   else Ret false) = Ret (left_of pre R).
Proof.
  intros -> HR. unfold left_of. destruct (list.last pre) as [p|] eqn:E.
  - apply last_Some in E as [pre0 ->]. destruct (Z.gtb_spec (zlen (pre0 ++ [p])) 0); [|zlen_lia].
    step (apply (rd_at _ pre0 tl p); at_pos). by destruct R.
  - apply last_None in E as ->. done.
Qed.

(** Reallocation that is skipped when no more room is needed. *)
Lemma realloc_delta (used sl : rl_buf) n delta :
  n = zlen used -> 0 < n -> n + Z.max 0 delta <= RL_MAX -> room (used ++ sl) n ->
  (if delta >? 0 then ntfs_rl_realloc (used ++ sl) n (n + delta) else Ret (used ++ sl))
    = Errno ENOMEM \/
  exists sl',
    (if delta >? 0 then ntfs_rl_realloc (used ++ sl) n (n + delta) else Ret (used ++ sl))
      = Ret (used ++ sl') /\ room (used ++ sl') (n + Z.max 0 delta).
Proof.
  intros Hn ? ? Hroom. destruct (Z.gtb_spec delta 0); cycle 1.
  { right. exists sl. split; [done|]. by rewrite Z.max_l, Z.add_0_r by lia. }
  destruct (realloc_grow used sl n (n + delta)) as [->|(sl' & -> & Hr)]; [done|lia|lia|done|by left|].
  right. exists sl'. split; [done|]. by rewrite Z.max_r by lia.
Qed.

Lemma right_of_split z post :
  post = (if right_of z post then take 1 post else []) ++ (if right_of z post then tail post else post).
Proof. unfold right_of. destruct post; [done|]. by destruct (ntfs_are_rl_mergeable _ _). Qed.

Lemma join_left_zlen lft pre (l : rl_buf) :
  (lft = true -> pre <> [] /\ l <> []) -> zlen (join_left lft pre l) = zlen pre + zlen l - Z.b2z lft.
Proof.
  destruct lft; intros Hne; [|rewrite join_left_false; simpl; zlen_lia]. simpl Z.b2z.
  destruct Hne as [Hp Hl]; [done|]. destruct l; [done|].
  destruct pre as [|p pre0 _] using rev_ind; [done|]. rewrite join_left_snoc. zlen_lia.
Qed.

Lemma left_of_nonempty pre R : left_of pre R = true -> pre <> [] /\ R <> [].
Proof. intros (pre0 & p & s & l' & -> & -> & _)%left_of_inv. split; [by destruct pre0|done]. Qed.

Lemma replace_spec pre h post sl R0 z rest :
  let used := pre ++ h :: post in
  let R := R0 ++ [z] in
  let T := if right_of z post then tail post else post in
  let L := join_left (left_of pre R) pre (R0 ++ [join_right z post]) in
  (forall m T' e, T = m :: T' -> list.last L = Some e -> rl_lcn m = LCN_ENOENT ->
    rl_vcn m = vcn_end e) ->
  room (used ++ sl) (zlen used) -> zlen used + zlen R <= RL_MAX ->
  let res := ntfs_rl_replace (used ++ sl) (zlen used) (R ++ rest) (zlen R) (zlen pre) in
  res = Errno ENOMEM \/
  exists sl', res = Ret ((L ++ T) ++ sl') /\ room ((L ++ T) ++ sl') (zlen (L ++ T)).
Proof.
  intros used R T L Hm Hroom Hmax. unfold ntfs_rl_replace.
  assert (HRne : R <> []) by (unfold R; by destruct R0).
  rewrite (right_test pre h post sl R0 z rest) by done. rewrite bind_Ret.
  assert (Hus : used ++ sl = pre ++ h :: post ++ sl) by (unfold used; shape).
  rewrite (left_test _ _ _ _ _ Hus), bind_Ret by done. cbv zeta. fold R.
  set (right := right_of z post) in *. set (lft := left_of pre R) in *.
  pose proof (b2z_range lft). pose proof (b2z_range right).
  destruct (realloc_delta used sl (zlen used) (zlen R - 1 - Z.b2z lft - Z.b2z right))
    as [->|(sl1 & -> & Hroom')]; [done|unfold used; zlen_lia|unfold used in *; zlen_lia|done|by left|].
  right. rewrite bind_Ret. clear Hus.
  replace (used ++ sl1) with (pre ++ h :: post ++ sl1) by (unfold used; shape).
  replace (R ++ rest) with (R0 ++ z :: rest) by (unfold R; shape).
  replace (zlen R - 1) with (zlen R0) by (unfold R; zlen_lia).
  unfold right. rewrite merge_right_step, bind_Ret. fold right.
  set (l := R0 ++ [join_right z post]) in *.
  assert (Hl : zlen l = zlen R) by (unfold l, R; zlen_lia).
  destruct (merge_left_step pre (h :: post ++ sl1) R l rest) as (P & Hmerge & HP & HPL);
    [unfold l; by destruct R0|].
  fold lft in Hmerge, HPL. rewrite Hmerge, bind_Ret. clear Hmerge. fold L in HPL.
  assert (HTl : zlen T = zlen post - Z.b2z right) by apply right_of_zlen.
  set (X := if right then take 1 post else []).
  assert (Hpost : post = X ++ T) by apply right_of_split.
  assert (HX : zlen X = Z.b2z right) by (apply (f_equal zlen) in Hpost; zlen_lia).
  assert (HLlen : zlen L = zlen pre + zlen R - Z.b2z lft).
  { unfold L. rewrite join_left_zlen; [zlen_lia|].
    intros [? _]%left_of_nonempty. split; [done|]. unfold l. by destruct R0. }
  assert (Hcap : zlen L + zlen T <= zlen (P ++ h :: post ++ sl1)).
  { transitivity (zlen used + Z.max 0 (zlen R - 1 - Z.b2z lft - Z.b2z right)); [unfold used; zlen_lia|].
    etrans; [apply capacity_ge; unfold used in *; zlen_lia|].
    etrans; [exact Hroom'|unfold used; zlen_lia]. }
  destruct (splice P (h :: X) T sl1 (l ++ rest) (zlen pre) (zlen (h :: X)) 0 (zlen R - Z.b2z lft) (Z.b2z lft))
    as (b1 & sl2 & Hmm & Hmc & Hlen); [done|done|lia|unfold R; zlen_lia|lia|zlen_lia|rewrite Hpost in Hcap; zlen_lia|].
  assert (Hsh : P ++ (h :: X) ++ T ++ sl1 = P ++ h :: post ++ sl1) by (rewrite Hpost; shape).
  rewrite Hsh in *. rewrite Z.add_0_r in *.
  replace (zlen pre + zlen R - Z.b2z lft) with (zlen pre + (zlen R - Z.b2z lft)) by lia.
  replace (zlen pre + Z.b2z right + 1) with (zlen pre + zlen (h :: X)) by zlen_lia.
  replace (zlen used - (zlen pre + zlen (h :: X))) with (zlen T) by (unfold used; zlen_lia).
  rewrite Hmm, bind_Ret, Hmc, bind_Ret. clear Hmm Hmc Hsh. 
  assert (E : P ++ take (Z.to_nat 0) (h :: post ++ sl1) ++
      take (Z.to_nat (zlen R - Z.b2z lft)) (drop (Z.to_nat (Z.b2z lft)) (l ++ rest)) ++ T ++ sl2
      = (L ++ T) ++ sl2).
  { rewrite drop_src by (unfold R in *; zlen_lia). simpl. rewrite (app_assoc P), HPL. shape. }
  simpl take in E, Hlen |- *. rewrite E in Hlen |- *. exists sl2. split; cycle 1.
  { unfold room in *. etrans; [|etrans; [exact Hroom'|]]; [apply capacity_mono|]; unfold used in *; zlen_lia. }
  assert (HL0 : 0 < zlen L).
  { rewrite HLlen. pose proof (left_of_zlen pre R) as Hz. unfold lft.
    destruct (left_of pre R); [specialize (Hz eq_refl)|]; simpl; unfold R; zlen_lia. }
  clearbody L T. clear - Hm HLlen HL0 HP.
  destruct T as [|m T']; [done|]. destruct (Z.gtb_spec (zlen (m :: T')) 0); [|zlen_lia].
  destruct L as [|e L0 _] using rev_ind; [zlen_lia|].
  apply (fix_marker _ L0 (T' ++ sl2) e m); [shape|zlen_lia|].
  intros ?. by eapply Hm; [done|apply last_snoc|].
Qed.
(** The run after the inserted ones: it starts where they end, and a hole or an
    unmapped run keeps its end. *)
Definition after_insert e h post : runlist_element :=
  let h1 := set_vcn (vcn_end e) h in
  match post with
  | q :: _ =>
      if (rl_lcn h =? LCN_HOLE) || (rl_lcn h =? LCN_RL_NOT_MAPPED)
      then set_length (s64 (rl_vcn q - rl_vcn h1)) h1 else h1
  | [] => h1
  end.

Lemma insert_tail L e h post sl i (k : rl_buf -> outcome rl_buf) :
  list.last L = Some e -> i = zlen L -> (rl_lcn h < LCN_RL_NOT_MAPPED \/ post <> []) -> rl_lcn h < 0 ->
  (p ← rd (L ++ h :: post ++ sl) (i - 1);
   dst ← upd (L ++ h :: post ++ sl) i (set_vcn (vcn_end p));
   m ← rd dst i;
   dst ← (if (rl_lcn m =? LCN_HOLE) || (rl_lcn m =? LCN_RL_NOT_MAPPED) then
            n ← rd dst (i + 1); wr dst i (set_length (s64 (rl_vcn n - rl_vcn m)) m)
          else Ret dst);
   k dst) = k (L ++ after_insert e h post :: post ++ sl).
Proof.
  intros [L0 ->]%last_Some -> Hne Hneg.
  step (apply (rd_at _ L0 (h :: post ++ sl) e); at_pos).
  step (apply (upd_at _ (L0 ++ [e]) (post ++ sl) h); [done|zlen_lia]).
  step (apply (rd_at _ (L0 ++ [e]) (post ++ sl) (set_vcn (vcn_end e) h)); [done|zlen_lia]).
  unfold after_insert, LCN_HOLE, LCN_RL_NOT_MAPPED in *. simpl.
  destruct post as [|q post].
  - destruct Hne as [Hne|]; [|done].
    by destruct (Z.eqb_spec (rl_lcn h) (-1)), (Z.eqb_spec (rl_lcn h) (-2)); try lia.
  - destruct ((rl_lcn h =? -1) || (rl_lcn h =? -2)); [|done].
    rewrite (rd_at _ (L0 ++ [e; set_vcn (vcn_end e) h]) (post ++ sl) q) by at_pos.
    rewrite bind_Ret, (wr_at _ (L0 ++ [e]) (q :: post ++ sl) (set_vcn (vcn_end e) h)) by at_pos.
    done.
Qed.

(** Is there a gap between the end of [pre] and the first new run? *)
Definition disc_of pre (s0 : runlist_element) : bool :=
  match list.last pre with
  | None => rl_vcn s0 >? 0
  | Some p => rl_vcn s0 >? s64 (rl_vcn p + (if ntfs_are_rl_mergeable p s0
                                        then s64 (rl_length p + rl_length s0) else rl_length p))
  end.

(** The unmapped run that fills such a gap. *)
Definition gap_run pre (s0 : runlist_element) : runlist_element :=
  let v := match list.last pre with Some p => vcn_end p | None => 0 end in
  mk_rle v LCN_RL_NOT_MAPPED (match list.last pre with Some _ => s64 (rl_vcn s0 - v) | None => rl_vcn s0 end).

Lemma insert_test pre (b tl : rl_buf) s0 :
  b = pre ++ tl ->
  (if zlen pre =? 0 then Ret (false, rl_vcn s0 >? 0)
   else
     p ← rd b (zlen pre - 1);
     Ret (ntfs_are_rl_mergeable p s0,
          rl_vcn s0 >? s64 (rl_vcn p + (if ntfs_are_rl_mergeable p s0
                                         then s64 (rl_length p + rl_length s0) else rl_length p))))
  = Ret (left_of pre [s0], disc_of pre s0).
Proof.
  intros ->. unfold left_of, disc_of. destruct (list.last pre) as [p|] eqn:E.
  - apply last_Some in E as [pre0 ->]. destruct (Z.eqb_spec (zlen (pre0 ++ [p])) 0); [zlen_lia|].
    step (apply (rd_at _ pre0 tl p); at_pos). done.
  - apply last_None in E as ->. done.
Qed.

Lemma fill_gap pre h s0 (tl : rl_buf) :
  (n ← rd (pre ++ h :: s0 :: tl) (zlen pre + 1);
   dst ← (if zlen pre >? 0 then
            p ← rd (pre ++ h :: s0 :: tl) (zlen pre - 1);
            dst ← upd (pre ++ h :: s0 :: tl) (zlen pre) (set_vcn (vcn_end p));
            upd dst (zlen pre) (fun d => set_length (s64 (rl_vcn n - rl_vcn d)) d)
          else
            dst ← upd (pre ++ h :: s0 :: tl) (zlen pre) (set_vcn 0);
            upd dst (zlen pre) (set_length (rl_vcn n)));
   upd dst (zlen pre) (set_lcn LCN_RL_NOT_MAPPED)) = Ret (pre ++ gap_run pre s0 :: s0 :: tl).
Proof.
  step (apply (rd_at _ (pre ++ [h]) tl s0); at_pos).
  unfold gap_run. destruct (list.last pre) as [p|] eqn:E.
  - apply last_Some in E as [pre0 ->]. destruct (Z.gtb_spec (zlen (pre0 ++ [p])) 0); [|zlen_lia].
    rewrite (rd_at _ pre0 (h :: s0 :: tl) p) by at_pos. rewrite bind_Ret.
    do 2 (erewrite upd_at by done; rewrite bind_Ret). by erewrite upd_at by done.
  - apply last_None in E as ->. done.
Qed.
Lemma insert_spec pre h post sl s0 R' rest e :
  let used := pre ++ h :: post in
  let R := s0 :: R' in
  let lft := left_of pre R in
  let disc := disc_of pre s0 in
  let L := if disc then pre ++ gap_run pre s0 :: R else join_left lft pre R in
  (disc = true -> lft = false) -> list.last L = Some e ->
  (rl_lcn h < LCN_RL_NOT_MAPPED \/ post <> []) -> rl_lcn h < 0 ->
  room (used ++ sl) (zlen used) -> zlen used + zlen R + 1 <= RL_MAX ->
  let res := ntfs_rl_insert (used ++ sl) (zlen used) (R ++ rest) (zlen R) (zlen pre) in
  res = Errno ENOMEM \/
  exists sl', let used' := L ++ after_insert e h post :: post in
    res = Ret (used' ++ sl') /\ room (used' ++ sl') (zlen used').
Proof.
  intros used R lft disc L Hdl He Hne Hneg Hroom Hmax. unfold ntfs_rl_insert.
  rewrite (rd_at (R ++ rest) [] (R' ++ rest) s0) by done. rewrite bind_Ret. cbv zeta.
  assert (Hus : forall s, used ++ s = pre ++ h :: post ++ s) by (intros; unfold used; shape).
  rewrite (insert_test pre _ _ s0 (Hus sl)), bind_Ret. cbv zeta. fold disc.
  change (left_of pre [s0]) with lft.
  pose proof (b2z_range lft). pose proof (b2z_range disc).
  destruct (realloc_grow used sl (zlen used) (zlen used + zlen R - Z.b2z lft + Z.b2z disc))
    as [->|(sl1 & -> & Hroom')]; [done|unfold used, R; zlen_lia|lia|done|by left|].
  right. rewrite bind_Ret, Hus.
  destruct (merge_left_step pre (h :: post ++ sl1) R R rest) as (P & Hmerge & HP & HPL); [done|].
  fold lft in Hmerge, HPL.
  rewrite (rd_at (R ++ rest) [] (R' ++ rest) s0), bind_Ret in Hmerge by done.
  rewrite Hmerge, bind_Ret. clear Hmerge.
  assert (Hcap : zlen used + zlen R - Z.b2z lft + Z.b2z disc <= zlen (P ++ h :: post ++ sl1)).
  { etrans; [apply capacity_ge; unfold used, R in *; zlen_lia|].
    etrans; [exact Hroom'|unfold used; zlen_lia]. }
  destruct (splice P [] (h :: post) sl1 (R ++ rest) (zlen pre) 0 (Z.b2z disc) (zlen R - Z.b2z lft) (Z.b2z lft))
    as (b1 & sl2 & Hmm & Hmc & Hlen);
    [done|done|lia|unfold R; zlen_lia|lia|zlen_lia|unfold used in *; zlen_lia|].
  change ([] ++ (h :: post) ++ sl1) with (h :: post ++ sl1) in *.
  rewrite Z.add_0_r in Hmm.
  replace (zlen pre + zlen R - Z.b2z lft + Z.b2z disc)
    with (zlen pre + Z.b2z disc + (zlen R - Z.b2z lft)) by lia.
  replace (zlen used - zlen pre) with (zlen (h :: post)) by (unfold used; zlen_lia).
  rewrite Hmm, bind_Ret, Hmc, bind_Ret. clear Hmm Hmc.
  rewrite drop_src in Hlen |- * by (unfold R in *; zlen_lia).
  (* the list before the run [h], the gap not yet filled in *)
  set (L0 := if disc then pre ++ h :: R else join_left lft pre R).
  assert (E : P ++ take (Z.to_nat (Z.b2z disc)) (h :: post ++ sl1) ++
      drop (Z.to_nat (Z.b2z lft)) R ++ (h :: post) ++ sl2 = L0 ++ h :: post ++ sl2).
  { unfold L0. destruct disc; simpl.
    - rewrite Hdl in * by done. unfold join_left in HPL. simpl in HPL.
      rewrite drop_0 in *. apply app_inv_tail in HPL as ->. shape.
    - rewrite (app_assoc P), HPL. shape. }
  rewrite E in Hlen |- *. clear E.
  assert (HL0 : zlen L0 = zlen pre + Z.b2z disc + (zlen R - Z.b2z lft)).
  { unfold L0. destruct disc; simpl; [rewrite Hdl by done; simpl; zlen_lia|].
    rewrite join_left_zlen by apply left_of_nonempty. lia. }
  assert (HLL : zlen L0 = zlen L) by (unfold L0, L; destruct disc; zlen_lia).
  assert (He0 : list.last L0 = Some e).
  { rewrite <- He. unfold L0, L. destruct disc; [|done]. rewrite !last_app_cons. done. }
  exists sl2. split; cycle 1.
  { unfold room in *. etrans; [|etrans; [exact Hroom'|]]; [apply capacity_mono|];
      unfold used, R in *; zlen_lia. }
  rewrite <- HL0, (insert_tail L0 e h post sl2 (zlen L0)) by done.
  unfold L0, L. destruct disc eqn:Ed; [|shape].
  etrans; [|etrans; [apply (fill_gap pre h s0 (R' ++ after_insert e h post :: post ++ sl2))|]];
    unfold R; [|shape]. do 3 (rewrite <- ?app_assoc; simpl). done.
Qed.
End Ops.
