(* ===== verification/RunlistMergeProof.v ===== *)
(** * The merged runlist

    [ntfs_runlists_merge] on a runlist and the runs of one more extent: the
    result is again well formed and denotes the old map updated with the new
    runs. *)

From Stdlib Require Import ZArith Lia Bool.
From stdpp Require Import base list numbers option.
From S2P Require Import Prelude Runlist RunlistSpec RunlistBuf RunlistMerge RunlistMergeSpec.

Lemma zlen_scan_fuel (b l : rl_buf) : zlen l <= zlen b -> (length l < scan_fuel b)%nat.
Proof. unfold zlen, scan_fuel. lia. Qed.

Section Eval.
Context `{KA : KernelAlloc}.

(** The two runlists and where the second goes: [h] is the element of the first
    in front of which, or inside which, the new runs [R] start. *)
Variables (pre post D2 P R rest sl : rl_buf) (h td s0 z ts : runlist_element).
Hypothesis Hpost : h :: post = D2 ++ [td].
Hypothesis HD : Forall (fun r => negb (rl_length r =? 0) = true) D2.
Hypothesis Htd : rl_length td = 0.
Hypothesis Hpre : Forall (fun r => negb (rl_length r =? 0) && negb (vcn_end r >? rl_vcn s0) = true) pre.
Hypothesis Hh : rl_length h = 0 \/ rl_vcn s0 < vcn_end h.
Hypothesis HP : Forall (fun r => negb (rl_length r =? 0) && (rl_lcn r <? LCN_HOLE) = true) P.
Hypothesis HR : Forall (fun r => negb (rl_length r =? 0) = true /\ LCN_HOLE <= rl_lcn r) R.
Hypothesis Hs0 : head R = Some s0.
Hypothesis Hz : list.last R = Some z.
Hypothesis Hts : rl_length ts = 0.
Hypothesis Htl : rl_lcn ts = LCN_RL_NOT_MAPPED.
Hypothesis Hneg : rl_lcn h < 0.

Definition m_start : bool := (rl_lcn h <? LCN_RL_NOT_MAPPED) || (rl_vcn h =? rl_vcn s0).
Definition m_finish : bool := (rl_lcn h >=? LCN_RL_NOT_MAPPED) && (vcn_end h <=? vcn_end z).
Definition m_op :=
  if m_start then (if m_finish then ntfs_rl_replace else ntfs_rl_insert)
  else (if m_finish then ntfs_rl_append else ntfs_rl_split).
Definition m_ss : Z := if m_finish && (rl_length h =? 0) then zlen R + 1 else zlen R.

Let drl := (pre ++ h :: post) ++ sl.
Let srl := P ++ R ++ ts :: rest.

Lemma R_cons : exists R', R = s0 :: R'.
Proof. destruct R; simpl in Hs0; [done|]. injection Hs0 as ->. eauto. Qed.

Lemma s0_ok : negb (rl_length s0 =? 0) = true /\ LCN_HOLE <= rl_lcn s0.
Proof. destruct R_cons as [R' E]. pose proof HR as HR'. rewrite E in HR'. by inversion HR'. Qed.

Lemma z_ok : LCN_HOLE <= rl_lcn z.
Proof.
  apply last_Some_elem_of in Hz. rewrite list.Forall_forall in HR. by apply HR.
Qed.

Lemma eval_si :
  scan_up (scan_fuel srl) (fun r => negb (rl_length r =? 0) && (rl_lcn r <? LCN_HOLE)) srl 0
  = Ret (zlen P).
Proof.
  destruct R_cons as [R' E]. unfold srl. rewrite E.
  apply (scan_up_spec [] P s0 (R' ++ ts :: rest)); [done| |apply zlen_scan_fuel; zlen_lia].
  destruct s0_ok as [-> ?]. unfold LCN_HOLE in *. lia.
Qed.

Lemma eval_dins :
  scan_up (scan_fuel drl) (fun r => negb (rl_length r =? 0) && negb (vcn_end r >? rl_vcn s0)) drl 0
  = Ret (zlen pre).
Proof.
  unfold drl. rewrite <- app_assoc.
  apply (scan_up_spec [] pre h (post ++ sl)); [done|lia|apply zlen_scan_fuel; zlen_lia].
Qed.

Lemma eval_send :
  scan_up (scan_fuel srl) (fun r => negb (rl_length r =? 0)) srl (zlen P) = Ret (zlen P + zlen R).
Proof.
  unfold srl. apply scan_up_spec; [|lia|apply zlen_scan_fuel; zlen_lia].
  eapply list.Forall_impl; [exact HR|]. naive_solver.
Qed.

Lemma eval_dend :
  scan_up (scan_fuel drl) (fun r => negb (rl_length r =? 0)) drl (zlen pre)
  = Ret (zlen pre + zlen D2).
Proof.
  unfold drl. rewrite Hpost. replace ((pre ++ D2 ++ [td]) ++ sl) with (pre ++ D2 ++ td :: sl) by shape.
  apply scan_up_spec; [done|lia|apply zlen_scan_fuel; zlen_lia].
Qed.

Lemma eval_sfinal :
  scan_down (scan_fuel srl) (fun r => rl_lcn r <? LCN_HOLE) srl (zlen P + zlen R)
  = Ret (zlen P + zlen R - 1).
Proof.
  pose proof z_ok. apply last_Some in Hz as [R0 E]. unfold srl. rewrite E in *.
  replace (P ++ (R0 ++ [z]) ++ ts :: rest) with ((P ++ R0) ++ z :: [ts] ++ rest) by shape.
  rewrite (scan_down_spec (P ++ R0) [ts] z rest).
  - f_equal. zlen_lia.
  - constructor; [|done]. unfold LCN_HOLE, LCN_RL_NOT_MAPPED in *. lia.
  - lia.
  - apply zlen_scan_fuel. zlen_lia.
  - zlen_lia.
Qed.

Lemma merge_both_eval :
  merge_both drl srl = m_op drl (zlen (pre ++ h :: post)) (R ++ ts :: rest) m_ss (zlen pre).
Proof.
  destruct R_cons as [R' E]. unfold merge_both.
  rewrite eval_si, bind_Ret.
  rewrite (rd_at srl P (R' ++ ts :: rest) s0), bind_Ret by (unfold srl; rewrite ?E; at_pos).
  assert (Hs : (rl_length s0 =? 0) = false) by (apply negb_true_iff, s0_ok).
  rewrite Hs. cbn [BUG_ON]. rewrite bind_Ret, eval_dins, bind_Ret.
  rewrite (rd_at drl pre (post ++ sl) h), bind_Ret by (unfold drl; at_pos).
  destruct (Z.geb_spec (rl_lcn h) 0); [lia|]. rewrite andb_false_r. cbn [andb].
  rewrite eval_send, bind_Ret, eval_dend, bind_Ret.
  rewrite (rd_at srl (P ++ R) rest ts (zlen P + zlen R)), bind_Ret by (unfold srl; at_pos).
  assert (Hm : (rl_lcn ts =? LCN_ENOENT) = false) by (by rewrite Htl).
  rewrite Hm, eval_sfinal, bind_Ret.
  destruct (scan_down_total (fun r => rl_lcn r <? LCN_HOLE) drl (zlen pre + zlen D2) (scan_fuel drl))
    as [j Hj].
  { unfold drl. rewrite Hpost. zlen_lia. }
  { unfold drl, scan_fuel. rewrite Hpost. unfold zlen. rewrite !length_app. simpl. lia. }
  rewrite Hj, bind_Ret. clear Hj.
  pose proof Hz as Hz'. apply last_Some in Hz' as [R0 ER].
  rewrite (rd_at srl (P ++ R0) (ts :: rest) z), bind_Ret by (unfold srl; rewrite ?ER; at_pos).
  cbn [negb Z.eqb andb].
  assert (Hptr : ptr_add srl (zlen P) = R ++ ts :: rest).
  { unfold ptr_add, srl, zlen. rewrite Nat2Z.id. apply drop_app_length. }
  rewrite Hptr.
  replace (zlen pre + zlen D2 + 1) with (zlen (pre ++ h :: post)) by (rewrite Hpost; zlen_lia).
  replace (zlen P + zlen R - 1 - zlen P + 1) with (zlen R) by lia.
  fold m_start. fold m_finish. fold m_op. fold m_ss. unfold m_op.
  by destruct m_start, m_finish; destruct (_ _ _ _ _ _).
Qed.
End Eval.

(** ** The runs and holes that remain *)

(** What the new runs leave of the hole [h] to their left and right. *)
Definition hole_left (h : runlist_element) (sv : Z) : rl_buf :=
  if rl_vcn h <? sv then [set_length (sv - rl_vcn h) h] else [].
Definition hole_right (h : runlist_element) (se : Z) : rl_buf :=
  if se <? rl_vcn h + rl_length h
  then [mk_rle se (rl_lcn h) (rl_vcn h + rl_length h - se)] else [].

Lemma hole_left_chain h sv :
  run_ok h -> rl_vcn h <= sv < rl_vcn h + rl_length h -> chain (rl_vcn h) (hole_left h sv) sv.
Proof.
  unfold hole_left, run_ok. intros. destruct (Z.ltb_spec (rl_vcn h) sv); simpl; [|lia].
  unfold run_ok; simpl. lia.
Qed.

Lemma hole_right_chain h se :
  run_ok h -> rl_lcn h < 0 -> rl_vcn h < se <= rl_vcn h + rl_length h ->
  chain se (hole_right h se) (rl_vcn h + rl_length h).
Proof.
  unfold hole_right, run_ok. intros.
  destruct (Z.ltb_spec se (rl_vcn h + rl_length h)); simpl; [|lia].
  unfold run_ok, S64_MAX in *; simpl. lia.
Qed.

Lemma hole_left_look h sv x :
  rl_lcn h < 0 -> rl_vcn h <= x < sv -> look (hole_left h sv) x = Some (rl_lcn h).
Proof.
  unfold hole_left. intros. destruct (Z.ltb_spec (rl_vcn h) sv); [|lia]. simpl.
  destruct (Z.ltb_spec x (rl_vcn h + (sv - rl_vcn h))); [|lia].
  unfold run_lcn; simpl. by destruct (Z.geb_spec (rl_lcn h) 0); [lia|].
Qed.

Lemma hole_right_look h se x :
  rl_lcn h < 0 -> se <= x < rl_vcn h + rl_length h -> look (hole_right h se) x = Some (rl_lcn h).
Proof.
  unfold hole_right. intros. destruct (Z.ltb_spec se (rl_vcn h + rl_length h)); [|lia]. simpl.
  destruct (Z.ltb_spec x (se + (rl_vcn h + rl_length h - se))); [|lia].
  unfold run_lcn; simpl. by destruct (Z.geb_spec (rl_lcn h) 0); [lia|].
Qed.

(** The list with the new runs in the hole, before neighbours are joined. *)
Definition in_hole (pre : rl_buf) (h : runlist_element) (post R : rl_buf) (sv se : Z) : rl_buf :=
  pre ++ hole_left h sv ++ R ++ hole_right h se ++ post.

Section InHole.
Variables (pre post R : rl_buf) (h : runlist_element) (v sv se w : Z).
Hypothesis HD : chain v (pre ++ h :: post) w.
Hypothesis Hh : rl_lcn h < 0.
Hypothesis Hsv : rl_vcn h <= sv.
Hypothesis Hse : se <= rl_vcn h + rl_length h.
Hypothesis Hlt : sv < se.
Hypothesis HR : chain sv R se.

Lemma in_hole_parts :
  chain v pre (rl_vcn h) /\ run_ok h /\ chain (rl_vcn h + rl_length h) post w.
Proof. apply chain_app in HD as (m & ? & <- & ? & ?). done. Qed.

Lemma in_hole_chain : chain v (in_hole pre h post R sv se) w.
Proof.
  destruct in_hole_parts as (Hpre & Hok & Hpost). unfold in_hole.
  eapply chain_app_2; [exact Hpre|].
  eapply chain_app_2; [apply hole_left_chain; [done|lia]|].
  eapply chain_app_2; [exact HR|].
  eapply chain_app_2; [apply hole_right_chain; [done|done|lia]|done].
Qed.

Lemma in_hole_look x :
  v <= x -> look (in_hole pre h post R sv se) x =
    if (sv <=? x) && (x <? se) then look R x else look (pre ++ h :: post) x.
Proof.
  intros Hx. destruct in_hole_parts as (Hpre & Hok & Hpost). unfold in_hole.
  pose proof (chain_le _ _ _ Hpre). pose proof Hok as (? & ? & _).
  rewrite (look_app _ _ _ (hole_left h sv ++ _) x Hpre Hx), (look_app _ _ _ (h :: post) x Hpre Hx).
  destruct (Z.ltb_spec x (rl_vcn h)).
  { by destruct (Z.leb_spec sv x); [lia|]. }
  rewrite (look_app _ _ _ _ x (hole_left_chain h sv Hok ltac:(lia))) by lia.
  assert (Hlook : look (h :: post) x
      = if x <? rl_vcn h + rl_length h then Some (rl_lcn h) else look post x).
  { simpl. destruct (x <? _); [|done]. unfold run_lcn.
    by destruct (Z.geb_spec (rl_lcn h) 0); [lia|]. }
  rewrite Hlook. destruct (Z.ltb_spec x sv).
  { destruct (Z.leb_spec sv x); [lia|]. destruct (Z.ltb_spec x (rl_vcn h + rl_length h)); [|lia].
    apply hole_left_look; lia. }
  destruct (Z.leb_spec sv x); [|lia]. rewrite (look_app _ _ _ _ x HR) by lia.
  destruct (Z.ltb_spec x se); [done|].
  rewrite (look_app _ _ _ _ x (hole_right_chain h se Hok Hh ltac:(lia))) by lia.
  destruct (Z.ltb_spec x (rl_vcn h + rl_length h)); [|done]. apply hole_right_look; lia.
Qed.
End InHole.

(** ** Joining neighbours keeps the meaning *)

Lemma mergeable_same p s s' :
  rl_vcn s = rl_vcn s' -> rl_lcn s = rl_lcn s' ->
  ntfs_are_rl_mergeable p s = ntfs_are_rl_mergeable p s'.
Proof. unfold ntfs_are_rl_mergeable. by intros -> ->. Qed.

Lemma join_left_equiv pre l : pre ++ l ≈ join_left (left_of pre l) pre l.
Proof.
  destruct (left_of pre l) eqn:E; [|done].
  destruct (left_of_inv _ _ E) as (pre0 & p & s & l' & -> & -> & Hm).
  rewrite join_left_snoc, <- app_assoc. simpl.
  apply app_seg_equiv; [done|]. apply (app_seg_equiv [p; s] [_]); [|done].
  by apply merge_equiv.
Qed.

Lemma left_of_join_right pre R0 z post :
  left_of pre (R0 ++ [join_right z post]) = left_of pre (R0 ++ [z]).
Proof.
  unfold left_of. destruct (list.last pre) as [p|]; [|done]. destruct R0; [|done]. simpl.
  apply mergeable_same; unfold join_right; destruct post as [|q ?]; try done;
    by destruct (ntfs_are_rl_mergeable z q).
Qed.

(** A terminator is never joined to a run that is mapped or a hole. *)
Lemma term_not_mergeable z td :
  LCN_HOLE <= rl_lcn z -> rl_lcn td <= LCN_RL_NOT_MAPPED -> ntfs_are_rl_mergeable z td = false.
Proof.
  unfold ntfs_are_rl_mergeable, LCN_HOLE, LCN_RL_NOT_MAPPED. intros.
  destruct (Z.eqb_spec (rl_lcn z) (-2)); [lia|]. simpl.
  destruct (s64 _ =? _); [|done]. simpl.
  destruct (Z.geb_spec (rl_lcn td) 0); [lia|]. rewrite andb_false_r. simpl.
  destruct (Z.eqb_spec (rl_lcn td) (-1)); [lia|]. by rewrite andb_false_r.
Qed.

Lemma join_right_equiv z post td :
  LCN_HOLE <= rl_lcn z -> rl_lcn td <= LCN_RL_NOT_MAPPED ->
  exists T0, (if right_of z (post ++ [td]) then tail (post ++ [td]) else post ++ [td]) = T0 ++ [td] /\
    z :: post ≈ join_right z (post ++ [td]) :: T0.
Proof.
  intros Hz Htd. destruct post as [|q post]; simpl.
  - exists []. by rewrite term_not_mergeable.
  - destruct (ntfs_are_rl_mergeable z q) eqn:E.
    + exists post. split; [done|]. apply (app_seg_equiv [z; q] [_]); [by apply merge_equiv|done].
    + by exists (q :: post).
Qed.

(** ** Correctness *)

(** The map after the merge: the new runs [R] cover [sv, se); a gap between the
    old end and the new runs is not mapped; everything else is as before. *)
Definition overlay (D : rl_buf) (td : runlist_element) (R : rl_buf) (sv se x : Z) : Z :=
  if (sv <=? x) && (x <? se) then default LCN_RL_NOT_MAPPED (look R x)
  else if (rl_vcn td <=? x) && (x <? sv) then LCN_RL_NOT_MAPPED
  else denote D td x.

(** The merge runs out of memory, or leaves a well-formed runlist with the right
    meaning in a buffer with room for it. *)
Definition merged_ok (D : rl_buf) (td : runlist_element) (R : rl_buf) (sv se : Z)
    (res : outcome rl_buf) : Prop :=
  res = Errno ENOMEM \/
  exists L t sl, res = Ret (L ++ t :: sl) /\ runlist_wf 0 L t /\
    room (L ++ t :: sl) (zlen L + 1) /\ rl_lcn t = rl_lcn td /\
    forall x, 0 <= x -> denote L t x = overlay D td R sv se x.

Lemma chain_last_end v L w e : chain v L w -> list.last L = Some e -> vcn_end e = w.
Proof.
  intros HL [L0 ->]%last_Some. apply chain_snoc in HL as (_ & (? & ? & ? & _) & ->).
  unfold vcn_end. apply s64_id. unfold S64_MIN in *. lia.
Qed.

Lemma chain_before v l w s :
  chain v l w -> w <= s ->
  Forall (fun r => negb (rl_length r =? 0) && negb (vcn_end r >? s) = true) l.
Proof.
  revert v. induction l as [|r l IH]; simpl; intros v; [constructor|].
  intros (<- & Hr & Hl) Hs. pose proof (chain_le _ _ _ Hl). pose proof Hr as (? & ? & ? & _).
  constructor; [|eauto]. rewrite (run_ok_nonzero r Hr). unfold vcn_end.
  rewrite s64_id by (unfold S64_MIN; lia). lia.
Qed.

Lemma chain_runs v l w : chain v l w -> Forall (fun r => negb (rl_length r =? 0) = true) l.
Proof.
  intros Hc. eapply list.Forall_impl; [exact (chain_Forall _ _ _ Hc)|]. apply run_ok_nonzero.
Qed.

Lemma chain_head_vcn v l w s : chain v l w -> head l = Some s -> rl_vcn s = v.
Proof. destruct l; simpl; naive_solver. Qed.

Lemma equiv_last l1 l2 v w e : l1 ≈ l2 -> chain v l1 w -> list.last l2 = Some e -> vcn_end e = w.
Proof. intros Heq Hc. destruct (Heq _ _ Hc). by apply chain_last_end with v. Qed.

Lemma room_eq b n m : room b n -> n = m -> room b m.
Proof. by intros ? <-. Qed.

Section MergeHole.
Context `{KA : KernelAlloc}.
Variables (pre post P R rest sl : rl_buf) (h td s0 z ts : runlist_element) (sv se : Z).
Hypothesis HD : runlist_wf 0 (pre ++ h :: post) td.
Hypothesis Hroom : room (((pre ++ h :: post) ++ [td]) ++ sl) (zlen (pre ++ h :: post) + 1).
Hypothesis Hmax : zlen (pre ++ h :: post) + zlen R + 3 <= RL_MAX.
Hypothesis Hneg : rl_lcn h < 0.
Hypothesis Hsv : rl_vcn h <= sv.
Hypothesis Hse : se <= rl_vcn h + rl_length h.
Hypothesis Hlt : sv < se.
Hypothesis HR : chain sv R se.
Hypothesis HRl : Forall (fun r => LCN_HOLE <= rl_lcn r) R.
Hypothesis HP : Forall (fun r => negb (rl_length r =? 0) && (rl_lcn r <? LCN_HOLE) = true) P.
Hypothesis Hs0 : head R = Some s0.
Hypothesis Hz : list.last R = Some z.
Hypothesis Hts : rl_length ts = 0.
Hypothesis Htl : rl_lcn ts = LCN_RL_NOT_MAPPED.

Lemma hole_parts :
  chain 0 pre (rl_vcn h) /\ run_ok h /\ chain (rl_vcn h + rl_length h) post (rl_vcn td).
Proof. eapply in_hole_parts. apply HD. Qed.

(** Any list equivalent to the one with the new runs in the hole is right. *)
Lemma hole_done L sl' res :
  in_hole pre h post R sv se ≈ L -> res = Ret ((L ++ [td]) ++ sl') ->
  room ((L ++ [td]) ++ sl') (zlen (L ++ [td])) -> merged_ok (pre ++ h :: post) td R sv se res.
Proof.
  intros Heq -> Hr. right. exists L, td, sl'.
  pose proof HD as [Hc Ht]. destruct hole_parts as (Hpre & Hok & Hpost).
  destruct (Heq 0 (rl_vcn td)) as [HL Hlook]; [eapply in_hole_chain; eauto|].
  split; [by rewrite <- app_assoc|]. split; [done|].
  split; [rewrite zlen_app in Hr; rewrite <- app_assoc in Hr; exact Hr|]. split; [done|].
  intros x Hx. unfold denote, overlay. pose proof (chain_le _ _ _ Hpost).
  pose proof Hok as (? & ? & _).
  destruct (Z.ltb_spec x (rl_vcn td)).
  - rewrite <- Hlook by lia. rewrite (in_hole_look pre post R h 0 sv se (rl_vcn td)) by (done || lia).
    destruct (Z.leb_spec sv x), (Z.ltb_spec x se); simpl; try lia.
    + destruct (look_Some _ _ _ x HR) as [y ->]; [lia|done].
    + by destruct (Z.leb_spec (rl_vcn td) x); [lia|].
    + by destruct (Z.leb_spec (rl_vcn td) x); [lia|].
  - rewrite (look_None _ _ _ x HL) by lia.
    destruct (Z.leb_spec sv x), (Z.ltb_spec x se); simpl; try lia.
    destruct (Z.ltb_spec x sv); [lia|]. rewrite andb_false_r. unfold denote. by rewrite (look_None _ _ _ x Hc) by lia.
Qed.

Lemma hole_eval :
  merge_both (((pre ++ h :: post) ++ [td]) ++ sl) (P ++ R ++ ts :: rest) =
  m_op h s0 z (((pre ++ h :: post) ++ [td]) ++ sl) (zlen ((pre ++ h :: post) ++ [td]))
    (R ++ ts :: rest) (zlen R) (zlen pre).
Proof.
  pose proof HD as [Hc (Ht & _)]. destruct hole_parts as (Hpre & Hok & Hpost).
  pose proof (chain_head_vcn _ _ _ _ HR Hs0) as Hv. pose proof Hok as (? & ? & ? & _).
  replace ((pre ++ h :: post) ++ [td]) with (pre ++ h :: post ++ [td]) by shape.
  rewrite (merge_both_eval pre (post ++ [td]) (h :: post) P R rest sl h td s0 z ts); try done.
  - f_equal. unfold m_ss. destruct (Z.eqb_spec (rl_length h) 0); [lia|]. by rewrite andb_false_r.
  - constructor; [by apply run_ok_nonzero|by eapply chain_runs].
  - rewrite Hv. eapply chain_before; eauto.
  - right. rewrite Hv. unfold vcn_end. rewrite s64_id by (unfold S64_MIN; lia). lia.
  - apply Forall_and; [by eapply chain_runs|done].
Qed.

(** The four placements. *)
Lemma hole_replace :
  rl_vcn h = sv -> se = rl_vcn h + rl_length h ->
  merged_ok (pre ++ h :: post) td R sv se
    (ntfs_rl_replace (((pre ++ h :: post) ++ [td]) ++ sl) (zlen ((pre ++ h :: post) ++ [td]))
       (R ++ ts :: rest) (zlen R) (zlen pre)).
Proof.
  intros E1 E2. pose proof HD as [Hc Ht]. pose proof (proj2 (proj2 Ht)) as [_ Htd].
  pose proof Hz as Hz'. apply last_Some in Hz' as [R0 ER].
  assert (HzH : LCN_HOLE <= rl_lcn z) by exact (Forall_last _ _ _ HRl Hz).
  destruct (join_right_equiv z post td HzH Htd) as (T0 & HT & Hjr).
  set (L := join_left (left_of pre R) pre (R0 ++ [join_right z (post ++ [td])])).
  assert (Heq : in_hole pre h post R sv se ≈ L ++ T0).
  { unfold in_hole, hole_left, hole_right, L. rewrite ER.
    destruct (Z.ltb_spec (rl_vcn h) sv); [lia|].
    destruct (Z.ltb_spec se (rl_vcn h + rl_length h)); [lia|]. simpl.
    rewrite <- (left_of_join_right pre R0 z (post ++ [td])).
    etrans; [|apply app_seg_equiv; [apply join_left_equiv|done]].
    rewrite <- !app_assoc. apply app_seg_equiv; [done|]. by apply app_seg_equiv. }
  replace ((pre ++ h :: post) ++ [td]) with (pre ++ h :: post ++ [td]) in * by shape.
  destruct (replace_spec pre h (post ++ [td]) sl R0 z (ts :: rest)) as [Hres|(sl' & Hres & Hr)].
  - intros m T' e Hm He Hmm. rewrite HT in Hm. rewrite <- ER in He.
    destruct T0 as [|m0 T0]; simpl in Hm; injection Hm as <- <-.
    + rewrite app_nil_r in Heq. symmetry. eapply equiv_last; [exact Heq| |exact He].
      eapply in_hole_chain; eauto.
    + exfalso. destruct (Heq 0 (rl_vcn td)) as [HL _]; [eapply in_hole_chain; eauto|].
      apply chain_app in HL as (w & _ & _ & (_ & _ & _ & ? & _) & _).
      unfold LCN_ENOENT, LCN_RL_NOT_MAPPED in *. lia.
  - eapply room_eq; [exact Hroom|zlen_lia].
  - rewrite <- ER. zlen_lia.
  - left. by rewrite ER.
  - rewrite HT in Hres, Hr. rewrite <- ER in Hres, Hr. rewrite app_assoc in Hres, Hr.
    eapply hole_done; [exact Heq|exact Hres|exact Hr].
Qed.

Lemma hole_split :
  rl_vcn h < sv -> se < rl_vcn h + rl_length h ->
  merged_ok (pre ++ h :: post) td R sv se
    (ntfs_rl_split (((pre ++ h :: post) ++ [td]) ++ sl) (zlen ((pre ++ h :: post) ++ [td]))
       (R ++ ts :: rest) (zlen R) (zlen pre)).
Proof.
  intros E1 E2. pose proof HD as [Hc Ht]. destruct hole_parts as (Hpre & Hok & Hpost).
  pose proof Hok as (? & ? & ? & ? & _).
  pose proof (chain_head_vcn _ _ _ _ HR Hs0) as Hv. pose proof (chain_last_end _ _ _ _ HR Hz) as He.
  destruct (chain_head post td [] _ Hpost) as (q & post' & Hq & Hqv).
  replace ((pre ++ h :: post) ++ [td]) with (pre ++ h :: post ++ [td]) in * by shape.
  rewrite Hq in *.
  destruct (split_spec pre h q post' sl R s0 z (ts :: rest)) as [Hres|(sl' & Hres & Hr)];
    [done|done|eapply room_eq; [exact Hroom|apply (f_equal zlen) in Hq; zlen_lia]
    |apply (f_equal zlen) in Hq; zlen_lia|by left|].
  rewrite Hv, He, Hqv in Hres, Hr.
  rewrite !s64_id in Hres, Hr by (unfold S64_MIN; lia).
  set (h1 := set_length _ h) in *. set (h2 := set_length _ (set_vcn se h)) in *.
  replace (pre ++ h1 :: R ++ h2 :: q :: post') with ((pre ++ h1 :: R ++ h2 :: post) ++ [td]) in Hres, Hr
    by (rewrite <- Hq; shape).
  eapply (hole_done (pre ++ h1 :: R ++ h2 :: post)); [|exact Hres|exact Hr].
  unfold in_hole, hole_left, hole_right.
  destruct (Z.ltb_spec (rl_vcn h) sv); [|lia].
  destruct (Z.ltb_spec se (rl_vcn h + rl_length h)); [|lia]. done.
Qed.

Lemma hole_append :
  rl_vcn h < sv -> se = rl_vcn h + rl_length h ->
  merged_ok (pre ++ h :: post) td R sv se
    (ntfs_rl_append (((pre ++ h :: post) ++ [td]) ++ sl) (zlen ((pre ++ h :: post) ++ [td]))
       (R ++ ts :: rest) (zlen R) (zlen pre)).
Proof.
  intros E1 E2. pose proof HD as [Hc Ht]. pose proof (proj2 (proj2 Ht)) as [_ Htd].
  destruct hole_parts as (Hpre & Hok & Hpost). pose proof Hok as (? & ? & ? & ? & _).
  pose proof (chain_head_vcn _ _ _ _ HR Hs0) as Hv.
  pose proof Hz as Hz'. apply last_Some in Hz' as [R0 ER].
  assert (HzH : LCN_HOLE <= rl_lcn z) by exact (Forall_last _ _ _ HRl Hz).
  destruct (join_right_equiv z post td HzH Htd) as (T0 & HT & Hjr).
  destruct (chain_head post td [] _ Hpost) as (q & post' & Hq & Hqv).
  assert (exists m T', T0 ++ [td] = m :: T') as (m & T' & HmT) by (destruct T0; eauto).
  rewrite Hq in HT, Hjr. set (z' := join_right z (q :: post')) in *.
  set (L := pre ++ set_length (sv - rl_vcn h) h :: R0 ++ [z']).
  assert (Heq : in_hole pre h post R sv se ≈ L ++ T0).
  { unfold in_hole, hole_left, hole_right, L. rewrite ER.
    destruct (Z.ltb_spec (rl_vcn h) sv); [|lia].
    destruct (Z.ltb_spec se (rl_vcn h + rl_length h)); [lia|]. simpl.
    rewrite <- !app_assoc. simpl. apply app_seg_equiv; [done|].
    apply (app_seg_equiv [_] [_]); [done|]. rewrite <- !app_assoc. by apply app_seg_equiv. }
  assert (Hsv0 : rl_vcn (hd z' R0) = sv).
  { rewrite <- Hv. rewrite ER in Hs0. destruct R0; simpl in *; injection Hs0 as <-; [|done].
    unfold z'; simpl. by destruct (ntfs_are_rl_mergeable _ _). }
  replace ((pre ++ h :: post) ++ [td]) with (pre ++ h :: post ++ [td]) in * by shape.
  rewrite Hq in *. rewrite HmT in HT.
  destruct (append_spec pre h q post' sl R0 z (ts :: rest) sv (ntfs_are_rl_mergeable z q) m T')
    as [Hres|(sl' & Hres & Hr)].
  - done.
  - exact HT.
  - exact Hsv0.
  - intros Hm. destruct T0 as [|m0 T0]; simpl in HmT; injection HmT as <- <-.
    + rewrite app_nil_r in Heq. symmetry. eapply equiv_last; [exact Heq| |].
      * eapply in_hole_chain; eauto.
      * unfold L. change (pre ++ ?x :: R0 ++ [z']) with (pre ++ (x :: R0) ++ [z']).
        rewrite app_assoc. apply last_snoc.
    + exfalso. destruct (Heq 0 (rl_vcn td)) as [HL _]; [eapply in_hole_chain; eauto|].
      apply chain_app in HL as (w & _ & _ & (_ & _ & _ & ? & _) & _).
      unfold LCN_ENOENT, LCN_RL_NOT_MAPPED in *. lia.
  - eapply room_eq; [exact Hroom|apply (f_equal zlen) in Hq; zlen_lia].
  - rewrite <- ER. apply (f_equal zlen) in Hq. zlen_lia.
  - left. by rewrite ER.
  - rewrite <- ER in Hres. rewrite s64_id in Hres, Hr by (unfold S64_MIN; lia).
    change (if ntfs_are_rl_mergeable z q then __ntfs_rl_merge z q else z) with z' in Hres, Hr.
    eapply (hole_done (L ++ T0)); [exact Heq| |];
      replace ((L ++ T0) ++ [td]) with (pre ++ set_length (sv - rl_vcn h) h :: R0 ++ z' :: m :: T')
        by (rewrite <- HmT; unfold L; shape); [exact Hres|exact Hr].
Qed.

Lemma pre_no_disc : rl_vcn h = sv -> disc_of pre s0 = false.
Proof.
  intros E1. destruct hole_parts as (Hpre & Hok & Hpost).
  pose proof (chain_head_vcn _ _ _ _ HR Hs0) as Hv. unfold disc_of. rewrite Hv, <- E1.
  destruct (list.last pre) as [p|] eqn:E; cycle 1.
  { apply last_None in E as ->. simpl in Hpre. lia. }
  pose proof E as Hp. apply last_Some in Hp as [pre0 ->].
  apply chain_snoc in Hpre as (_ & (? & ? & ? & _) & Hend).
  assert (Hs : run_ok s0) by (destruct R; simpl in Hs0, HR; naive_solver). destruct Hs as (? & ? & ? & _).
  assert (rl_length p + rl_length s0 <= S64_MAX) by lia.
  destruct (ntfs_are_rl_mergeable p s0); rewrite ?(s64_id (rl_length p + rl_length s0)), s64_id
    by (unfold S64_MIN; lia); lia.
Qed.

Lemma hole_insert :
  rl_vcn h = sv -> se < rl_vcn h + rl_length h ->
  merged_ok (pre ++ h :: post) td R sv se
    (ntfs_rl_insert (((pre ++ h :: post) ++ [td]) ++ sl) (zlen ((pre ++ h :: post) ++ [td]))
       (R ++ ts :: rest) (zlen R) (zlen pre)).
Proof.
  intros E1 E2. pose proof HD as [Hc Ht]. destruct hole_parts as (Hpre & Hok & Hpost).
  pose proof Hok as (? & ? & ? & ? & _). pose proof (pre_no_disc E1) as Hdisc.
  destruct (chain_head post td [] _ Hpost) as (q & post' & Hq & Hqv).
  assert (exists R', R = s0 :: R') as [R' ER] by (destruct R; simpl in Hs0; naive_solver).
  set (L := join_left (left_of pre R) pre R).
  assert (HL : pre ++ R ≈ L) by apply join_left_equiv.
  assert (HLc : chain 0 (pre ++ R) se) by (eapply chain_app_2; [exact Hpre|by rewrite E1]).
  assert (exists e, list.last L = Some e) as [e He].
  { destruct (HL _ _ HLc) as [HLc' _]. destruct L as [|e L0 _] eqn:EL using rev_ind.
    - simpl in HLc'. lia.
    - exists e. apply last_snoc. }
  pose proof (equiv_last _ _ _ _ _ HL HLc He) as Hend.
  set (h2 := mk_rle se (rl_lcn h) (rl_vcn h + rl_length h - se)).
  assert (Hai : after_insert e h (post ++ [td]) = h2).
  { unfold after_insert, h2. rewrite Hq, Hend, Hqv. unfold LCN_HOLE, LCN_RL_NOT_MAPPED in *.
    assert ((rl_lcn h =? -1) || (rl_lcn h =? -2) = true) as -> by lia. simpl.
    unfold set_length, set_vcn; simpl. rewrite s64_id by (unfold S64_MIN; lia). done. }
  replace ((pre ++ h :: post) ++ [td]) with (pre ++ h :: post ++ [td]) in * by shape.
  destruct (insert_spec pre h (post ++ [td]) sl s0 R' (ts :: rest) e) as [Hres|(sl' & Hres & Hr)].
  - by rewrite Hdisc.
  - by rewrite Hdisc, <- ER.
  - right. by destruct post.
  - done.
  - eapply room_eq; [exact Hroom|zlen_lia].
  - rewrite <- ER. zlen_lia.
  - left. by rewrite ER.
  - rewrite Hdisc, <- ER, Hai in Hres, Hr. fold L in Hres, Hr.
    eapply (hole_done (L ++ h2 :: post)); [| |].
    + unfold in_hole, hole_left, hole_right.
      destruct (Z.ltb_spec (rl_vcn h) sv); [lia|].
      destruct (Z.ltb_spec se (rl_vcn h + rl_length h)); [|lia]. simpl.
      rewrite app_assoc. by apply app_seg_equiv.
    + rewrite Hres. f_equal. shape.
    + replace ((L ++ h2 :: post) ++ [td]) with (L ++ h2 :: post ++ [td]) by shape. exact Hr.
Qed.

Lemma merge_in_hole :
  merged_ok (pre ++ h :: post) td R sv se
    (merge_both (((pre ++ h :: post) ++ [td]) ++ sl) (P ++ R ++ ts :: rest)).
Proof.
  rewrite hole_eval. destruct hole_parts as (Hpre & Hok & Hpost).
  pose proof Hok as (? & ? & ? & ? & _).
  pose proof (chain_head_vcn _ _ _ _ HR Hs0) as Hv. pose proof (chain_last_end _ _ _ _ HR Hz) as He.
  unfold m_op, m_start, m_finish. rewrite Hv, He. unfold vcn_end.
  rewrite s64_id by (unfold S64_MIN; lia).
  destruct (Z.ltb_spec (rl_lcn h) LCN_RL_NOT_MAPPED); [lia|].
  destruct (Z.geb_spec (rl_lcn h) LCN_RL_NOT_MAPPED); [|lia]. simpl.
  destruct (Z.eqb_spec (rl_vcn h) sv), (Z.leb_spec (rl_vcn h + rl_length h) se).
  - apply hole_replace; lia.
  - apply hole_insert; lia.
  - apply hole_append; lia.
  - apply hole_split; lia.
Qed.
End MergeHole.

Section MergeEnd.
Context `{KA : KernelAlloc}.
Variables (D P R rest sl : rl_buf) (td s0 z ts : runlist_element) (sv se : Z).
Hypothesis HD : runlist_wf 0 D td.
Hypothesis Hroom : room ((D ++ [td]) ++ sl) (zlen D + 1).
Hypothesis Hmax : zlen D + zlen R + 3 <= RL_MAX.
Hypothesis Hsv : rl_vcn td <= sv.
Hypothesis Hlt : sv < se.
Hypothesis HR : chain sv R se.
Hypothesis HRl : Forall (fun r => LCN_HOLE <= rl_lcn r) R.
Hypothesis HP : Forall (fun r => negb (rl_length r =? 0) && (rl_lcn r <? LCN_HOLE) = true) P.
Hypothesis Hs0 : head R = Some s0.
Hypothesis Hz : list.last R = Some z.
Hypothesis Hts : rl_length ts = 0.
Hypothesis Htl : rl_lcn ts = LCN_RL_NOT_MAPPED.
Hypothesis Htv : rl_vcn ts = se.

(** The unmapped run that covers a gap before the new runs. *)
Definition gap : rl_buf :=
  if rl_vcn td <? sv then [mk_rle (rl_vcn td) LCN_RL_NOT_MAPPED (sv - rl_vcn td)] else [].

Lemma sv_se_range : 0 <= rl_vcn td /\ sv < se <= S64_MAX.
Proof.
  pose proof HD as [Hc (_ & ? & _)]. split; [lia|]. split; [done|].
  pose proof (chain_Forall _ _ _ HR) as HF.
  pose proof (Forall_last _ _ _ HF Hz) as (? & ? & ? & _).
  rewrite <- (chain_last_end _ _ _ _ HR Hz). unfold vcn_end.
  rewrite s64_id; unfold S64_MIN; lia.
Qed.

Lemma gap_chain : chain (rl_vcn td) gap sv.
Proof.
  pose proof sv_se_range. unfold gap. destruct (Z.ltb_spec (rl_vcn td) sv); simpl; [|lia].
  unfold run_ok, LCN_RL_NOT_MAPPED; simpl. lia.
Qed.

Lemma end_chain : chain 0 (D ++ gap ++ R) se.
Proof.
  eapply chain_app_2; [apply HD|]. eapply chain_app_2; [apply gap_chain|exact HR].
Qed.

Lemma end_look x : 0 <= x ->
  default (rl_lcn td) (look (D ++ gap ++ R) x) = overlay D td R sv se x.
Proof.
  intros Hx. pose proof HD as [Hc Ht]. unfold overlay, denote.
  rewrite (look_app _ _ _ _ x Hc Hx).
  destruct (Z.ltb_spec x (rl_vcn td)).
  { destruct (Z.leb_spec sv x), (Z.leb_spec (rl_vcn td) x); [lia..|done]. }
  rewrite (look_app _ _ _ _ x gap_chain) by lia.
  destruct (Z.leb_spec (rl_vcn td) x); [|lia]. destruct (Z.ltb_spec x sv).
  { destruct (Z.leb_spec sv x); [lia|]. simpl. unfold gap.
    destruct (Z.ltb_spec (rl_vcn td) sv); [|lia]. simpl.
    by destruct (Z.ltb_spec x (rl_vcn td + (sv - rl_vcn td))); [|lia]. }
  destruct (Z.leb_spec sv x); [|lia]. simpl. destruct (Z.ltb_spec x se).
  - by destruct (look_Some _ _ _ x HR) as [y ->]; [lia|].
  - by rewrite (look_None _ _ _ x HR), (look_None _ _ _ x Hc) by lia.
Qed.

Lemma end_done L t sl' res :
  D ++ gap ++ R ≈ L -> res = Ret ((L ++ [t]) ++ sl') ->
  rl_vcn t = se -> rl_lcn t = rl_lcn td -> rl_length t = 0 ->
  room ((L ++ [t]) ++ sl') (zlen (L ++ [t])) -> merged_ok D td R sv se res.
Proof.
  intros Heq -> Hv Hl Hn Hr. right. exists L, t, sl'.
  pose proof HD as [Hc (_ & _ & Ht)]. destruct (Heq _ _ end_chain) as [HL Hlook].
  pose proof sv_se_range as [? ?].
  split; [by rewrite <- app_assoc|].
  split; [split; [by rewrite Hv|unfold term_ok; rewrite Hl, Hv; lia]|].
  split; [rewrite zlen_app in Hr; rewrite <- app_assoc in Hr; exact Hr|]. split; [done|].
  intros x Hx. rewrite <- end_look by done. unfold denote. rewrite Hl.
  destruct (Z.ltb_spec x se).
  - by rewrite Hlook by lia.
  - by rewrite (look_None _ _ _ x HL), (look_None _ _ _ x end_chain) by lia.
Qed.

Lemma end_eval :
  merge_both ((D ++ [td]) ++ sl) (P ++ R ++ ts :: rest) =
  m_op td s0 z ((D ++ [td]) ++ sl) (zlen (D ++ [td]))
    (R ++ ts :: rest) (m_ss R td z) (zlen D).
Proof.
  pose proof HD as [Hc (Ht & _ & Htn)]. pose proof (chain_head_vcn _ _ _ _ HR Hs0) as Hv.
  apply (merge_both_eval D [] [] P R rest sl td td s0 z ts); try done.
  - rewrite Hv. eapply chain_before; eauto.
  - by left.
  - apply Forall_and; [by eapply chain_runs|done].
  - unfold LCN_RL_NOT_MAPPED in *. lia.
Qed.

(** The first new run is joined to the old end only when there is no gap. *)
Lemma left_of_no_gap : left_of D R = true -> rl_vcn td = sv.
Proof.
  intros (pre0 & p & s & l' & E & ER & Hm)%left_of_inv. pose proof HD as [Hc _]. rewrite E in Hc.
  apply chain_snoc in Hc as (_ & (? & ? & ? & _) & Hend).
  pose proof (chain_head_vcn _ _ _ s HR ltac:(by rewrite ER)) as Hv.
  assert (LCN_HOLE <= rl_lcn s) by (rewrite ER in HRl; by inversion HRl).
  unfold ntfs_are_rl_mergeable in Hm. rewrite s64_id in Hm by (unfold S64_MIN; lia).
  unfold LCN_HOLE, LCN_RL_NOT_MAPPED in *.
  destruct (Z.eqb_spec (rl_lcn s) (-2)); [lia|]. rewrite andb_false_r in Hm.
  destruct (Z.eqb_spec (rl_vcn p + rl_length p) (rl_vcn s)); [lia|done].
Qed.

Lemma end_disc : disc_of D s0 = (rl_vcn td <? sv).
Proof.
  pose proof HD as [Hc _]. pose proof (chain_head_vcn _ _ _ _ HR Hs0) as Hv. unfold disc_of. rewrite Hv.
  destruct (list.last D) as [p|] eqn:E; cycle 1.
  { apply last_None in E. rewrite E in Hc. simpl in Hc. lia. }
  assert (Hlo : left_of D R = ntfs_are_rl_mergeable p s0).
  { unfold left_of. rewrite E. destruct R; simpl in Hs0; naive_solver. }
  pose proof left_of_no_gap as Hng. rewrite Hlo in Hng.
  apply last_Some in E as [pre0 E]. rewrite E in Hc.
  apply chain_snoc in Hc as (_ & (? & ? & ? & _) & Hend).
  assert (Hs : run_ok s0) by (destruct R; simpl in Hs0, HR; naive_solver). destruct Hs as (? & ? & ? & _).
  destruct (ntfs_are_rl_mergeable p s0).
  - specialize (Hng eq_refl). rewrite (s64_id (rl_length p + rl_length s0)), s64_id
      by (unfold S64_MIN; lia). lia.
  - rewrite s64_id by (unfold S64_MIN; lia). lia.
Qed.

Lemma end_insert : rl_lcn td = LCN_ENOENT ->
  merged_ok D td R sv se
    (ntfs_rl_insert ((D ++ [td]) ++ sl) (zlen (D ++ [td])) (R ++ ts :: rest) (zlen R) (zlen D)).
Proof.
  intros Htd. pose proof HD as [Hc (Ht & _)].
  assert (exists R', R = s0 :: R') as [R' ER] by (destruct R; simpl in Hs0; naive_solver).
  set (L := if disc_of D s0 then D ++ gap_run D s0 :: R else join_left (left_of D R) D R).
  assert (Heq : D ++ gap ++ R ≈ L).
  { unfold L. rewrite end_disc. unfold gap. destruct (Z.ltb_spec (rl_vcn td) sv); [|apply join_left_equiv].
    assert (gap_run D s0 = mk_rle (rl_vcn td) LCN_RL_NOT_MAPPED (sv - rl_vcn td)) as ->; [|done].
    unfold gap_run. rewrite (chain_head_vcn _ _ _ _ HR Hs0).
    destruct (list.last D) as [p|] eqn:E.
    - rewrite (chain_last_end _ _ _ _ Hc E). pose proof sv_se_range.
      by rewrite s64_id by (unfold S64_MIN; lia).
    - apply last_None in E. rewrite E in Hc. simpl in Hc. rewrite <- Hc. f_equal. lia. }
  assert (exists e, list.last L = Some e) as [e He].
  { destruct (Heq _ _ end_chain) as [HL _]. destruct (list.last L) as [e|] eqn:E; [by eauto|].
    apply last_None in E. rewrite E in HL. simpl in HL. pose proof sv_se_range. lia. }
  pose proof (equiv_last _ _ _ _ _ Heq end_chain He) as Hend.
  destruct (insert_spec D td [] sl s0 R' (ts :: rest) e) as [Hres|(sl' & Hres & Hr)].
  - rewrite end_disc, <- ER. intros Hg. destruct (left_of D R) eqn:E; [|done].
    apply left_of_no_gap in E. lia.
  - by rewrite <- ER.
  - left. rewrite Htd. unfold LCN_ENOENT, LCN_RL_NOT_MAPPED. lia.
  - rewrite Htd. done.
  - eapply room_eq; [exact Hroom|zlen_lia].
  - rewrite <- ER. zlen_lia.
  - left. by rewrite ER.
  - rewrite <- ER in Hres, Hr. simpl in Hres, Hr.
    eapply (end_done L (set_vcn (vcn_end e) td)); [exact Heq|exact Hres|done|done|done|exact Hr].
Qed.

Lemma end_replace : rl_lcn td = LCN_RL_NOT_MAPPED -> rl_vcn td = sv ->
  merged_ok D td R sv se
    (ntfs_rl_replace ((D ++ [td]) ++ sl) (zlen (D ++ [td])) (R ++ ts :: rest) (zlen R + 1) (zlen D)).
Proof.
  intros Htd Ev.
  assert (Heq : D ++ gap ++ R ≈ join_left (left_of D R) D R).
  { unfold gap. destruct (Z.ltb_spec (rl_vcn td) sv); [lia|]. apply join_left_equiv. }
  assert (HRne : R <> []) by (by destruct R).
  assert (HL : join_left (left_of D (R ++ [ts])) D (R ++ [ts]) = join_left (left_of D R) D R ++ [ts]).
  { assert (left_of D (R ++ [ts]) = left_of D R) as -> by (unfold left_of; by destruct R).
    unfold join_left. destruct (left_of D R), (list.last D), R; simpl; try done; shape. }
  destruct (replace_spec D td [] sl R ts rest) as [Hres|(sl' & Hres & Hr)].
  - by intros m T' e HT.
  - eapply room_eq; [exact Hroom|zlen_lia].
  - zlen_lia.
  - left. rewrite <- Hres. by replace ((R ++ [ts]) ++ rest) with (R ++ ts :: rest) by shape;
      replace (zlen (R ++ [ts])) with (zlen R + 1) by zlen_lia.
  - simpl in Hres, Hr. rewrite HL, app_nil_r in Hres, Hr.
    replace ((R ++ [ts]) ++ rest) with (R ++ ts :: rest) in Hres by shape.
    replace (zlen (R ++ [ts])) with (zlen R + 1) in Hres by zlen_lia.
    eapply end_done; [exact Heq|exact Hres|done|by rewrite Htl|done|exact Hr].
Qed.

(** After a gap behind a "not mapped" terminator the old terminator becomes the
    unmapped run of the gap.  [ntfs_rl_append] then looks at dst[marker], one
    element behind the zlen D + zlen R + 2 it asked room for, so that the element
    has to fit in the pages that were allocated: without it the access is outside
    the buffer, see [append_full_buffer]. *)
Definition spare : Prop := zlen D + zlen R + 2 < capacity (zlen D + zlen R + 2).

Lemma end_append : rl_lcn td = LCN_RL_NOT_MAPPED -> rl_vcn td < sv -> spare ->
  merged_ok D td R sv se
    (ntfs_rl_append ((D ++ [td]) ++ sl) (zlen (D ++ [td])) (R ++ ts :: rest) (zlen R + 1) (zlen D)).
Proof.
  intros Htd Hgap Hspare. pose proof sv_se_range.
  assert (exists R', R = s0 :: R') as [R' ER] by (destruct R; simpl in Hs0; naive_solver).
  pose proof (chain_head_vcn _ _ _ _ HR Hs0) as Hv. unfold ntfs_rl_append.
  destruct (Z.ltb_spec (zlen D + 1) (zlen (D ++ [td]))); [zlen_lia|]. rewrite bind_Ret.
  destruct (realloc_grow (D ++ [td]) sl (zlen (D ++ [td])) (zlen (D ++ [td]) + (zlen R + 1) - Z.b2z false))
    as [->|(sl1 & -> & Hroom')]; [done|simpl; zlen_lia|simpl; zlen_lia|eapply room_eq; [exact Hroom|zlen_lia]
    |by left|]. rewrite !bind_Ret. simpl Z.b2z in *. rewrite !Z.add_0_r.
  assert (Hcap : zlen D + zlen R + 3 <= zlen ((D ++ [td]) ++ sl1)).
  { unfold room in Hroom'. unfold spare in Hspare.
    replace (zlen (D ++ [td]) + (zlen R + 1) - 0) with (zlen D + zlen R + 2) in Hroom' by zlen_lia. lia. }
  destruct (splice (D ++ [td]) [] [] sl1 (R ++ ts :: rest) (zlen D + 1) 0 0 (zlen R + 1) 0)
    as (b1 & sl2 & Hmm & Hmc & Hlen); [zlen_lia|done|lia|zlen_lia|lia|zlen_lia|zlen_lia|].
  simpl in Hmm, Hmc, Hlen. rewrite Z.add_0_r in Hmm, Hmc. change (zlen []) with 0 in Hmm.
  replace (zlen D + (zlen R + 1) + 1) with (zlen D + 1 + (zlen R + 1)) by lia.
  replace (zlen (D ++ [td]) - (zlen D + 1)) with 0 by zlen_lia.
  rewrite Hmm, bind_Ret, Hmc, bind_Ret. clear Hmm Hmc.
  replace (R ++ ts :: rest) with ((R ++ [ts]) ++ rest) in Hlen |- * by shape.
  rewrite drop_0, take_src in Hlen |- * by zlen_lia.
  set (td1 := set_length (sv - rl_vcn td) td).
  rewrite (rd_at _ (D ++ [td]) (R' ++ ts :: sl2) s0 (zlen D + 1)), bind_Ret, Hv
    by (rewrite ?ER; at_pos).
  rewrite (upd_at _ D ((R ++ [ts]) ++ sl2) td), bind_Ret by at_pos.
  rewrite s64_id by (unfold S64_MIN; lia). fold td1.
  (* the element read behind the list *)
  destruct sl2 as [|x sl2]; [zlen_lia|].
  assert (Hx : rd (D ++ td1 :: (R ++ [ts]) ++ x :: sl2) (zlen D + 1 + (zlen R + 1)) = Ret x)
    by (apply (rd_at _ (D ++ td1 :: R ++ [ts]) sl2 x); at_pos).
  rewrite Hx, bind_Ret.
  assert (Hfin : exists x', (if rl_lcn x =? LCN_ENOENT
      then p ← rd (D ++ td1 :: (R ++ [ts]) ++ x :: sl2) (zlen D + 1 + (zlen R + 1) - 1);
           wr (D ++ td1 :: (R ++ [ts]) ++ x :: sl2) (zlen D + 1 + (zlen R + 1)) (set_vcn (vcn_end p) x)
      else Ret (D ++ td1 :: (R ++ [ts]) ++ x :: sl2))
      = Ret (((D ++ td1 :: R) ++ [ts]) ++ x' :: sl2)).
  { destruct (rl_lcn x =? LCN_ENOENT); [|eexists; shape].
    rewrite (rd_at _ (D ++ td1 :: R) (x :: sl2) ts), bind_Ret by at_pos.
    rewrite (wr_at _ (D ++ td1 :: R ++ [ts]) sl2 x) by at_pos. eexists. shape. }
  destruct Hfin as [x' Hfin].
  eapply (end_done (D ++ td1 :: R) ts (x' :: sl2)); [|exact Hfin|done|by rewrite Htl|done|].
  - unfold gap. destruct (Z.ltb_spec (rl_vcn td) sv); [|lia]. simpl.
    unfold td1, set_length. by rewrite <- Htd.
  - eapply room_eq in Hroom'; [|reflexivity]. unfold room in *.
    etrans; [|etrans; [exact Hroom'|]]; [apply capacity_mono|rewrite <- Hlen]; zlen_lia.
Qed.

Lemma merge_at_end :
  (rl_lcn td = LCN_RL_NOT_MAPPED -> rl_vcn td < sv -> spare) ->
  merged_ok D td R sv se (merge_both ((D ++ [td]) ++ sl) (P ++ R ++ ts :: rest)).
Proof.
  intros Hspare. rewrite end_eval. pose proof HD as [_ (Ht & ? & Htn)]. pose proof sv_se_range.
  pose proof (chain_head_vcn _ _ _ _ HR Hs0) as Hv. pose proof (chain_last_end _ _ _ _ HR Hz) as He.
  unfold m_op, m_ss, m_start, m_finish. rewrite Hv, He, Ht. unfold vcn_end.
  rewrite Ht, Z.add_0_r, s64_id by (unfold S64_MIN; lia). unfold LCN_ENOENT, LCN_RL_NOT_MAPPED in *.
  destruct (Z.leb_spec (rl_vcn td) se); [|lia]. rewrite !andb_true_r.
  destruct (Z.eqb_spec (rl_lcn td) (-3)) as [E|E].
  - rewrite E. simpl. by apply end_insert.
  - assert (rl_lcn td = -2) as -> by lia. simpl. destruct (Z.eqb_spec (rl_vcn td) sv).
    + apply end_replace; [unfold LCN_RL_NOT_MAPPED; lia|done].
    + apply end_append; [unfold LCN_RL_NOT_MAPPED; lia|lia|]. apply Hspare; lia.
Qed.
End MergeEnd.

(** ** The theorem *)

(** The runs from [sv] to [se] can be merged into the runlist [D], [td].  One of
    two conditions holds.
    - All of them lie inside one element of [D] that is a hole or not mapped.
    - They start at the end of [D] or behind it.  When [D] ends in a "not mapped"
      terminator and there is a gap between its end and [sv], the new runlist must
      moreover not fill the pages of its buffer completely ([spare]). *)
Definition mergeable_at (D : rl_buf) (td : runlist_element) (R : rl_buf) (sv se : Z) : Prop :=
  (exists pre h post, D = pre ++ h :: post /\ rl_lcn h < 0 /\ rl_vcn h <= sv /\
     se <= rl_vcn h + rl_length h) \/
  (rl_vcn td <= sv /\ (rl_lcn td = LCN_RL_NOT_MAPPED -> rl_vcn td < sv -> spare D R)).

(** A source runlist of one extent: unmapped elements, then mapped or sparse
    runs covering [sv, se), then a "not mapped" terminator at [se]. *)
Definition extent_src (P R : rl_buf) (ts : runlist_element) (sv se : Z) : Prop :=
  Forall (fun r => negb (rl_length r =? 0) && (rl_lcn r <? LCN_HOLE) = true) P /\
  chain sv R se /\ sv < se /\ Forall (fun r => LCN_HOLE <= rl_lcn r) R /\
  rl_length ts = 0 /\ rl_lcn ts = LCN_RL_NOT_MAPPED /\ rl_vcn ts = se.

Lemma merge_both_correct `{KA : KernelAlloc} D td sl P R ts rest sv se :
  runlist_wf 0 D td -> room (D ++ td :: sl) (zlen D + 1) ->
  zlen D + zlen R + 3 <= RL_MAX ->
  extent_src P R ts sv se -> mergeable_at D td R sv se ->
  merged_ok D td R sv se (merge_both (D ++ td :: sl) (P ++ R ++ ts :: rest)).
Proof.
  intros HD Hroom Hmax (HP & HR & Hlt & HRl & Hts & Htl & Htv) Hat.
  replace (D ++ td :: sl) with ((D ++ [td]) ++ sl) in * by shape.
  assert (exists s0, head R = Some s0) as [s0 Hs0] by (destruct R; simpl in HR; [lia|by eauto]).
  assert (exists z, list.last R = Some z) as [z Hz].
  { destruct (list.last R) eqn:E; [by eauto|]. apply last_None in E as ->. simpl in HR. lia. }
  destruct Hat as [(pre & h & post & -> & ? & ? & ?)|[? ?]].
  - eapply merge_in_hole; eauto.
  - eapply merge_at_end; eauto.
Qed.
