(* ===== verification/RunlistTheorems.v ===== *)
(** * Properties of runlist lookup and merging *)

From Stdlib Require Import ZArith Lia Bool.
From stdpp Require Import base list numbers option.
From S2P Require Import Prelude Runlist RunlistSpec RunlistBuf RunlistMerge RunlistMergeSpec.
From S2P Require Import RunlistMergeProof.

(** An allocator that always has memory, for the concrete instances. *)
Definition demo_alloc : KernelAlloc := {|
  kmalloc_ok := fun _ => true;
  vmalloc_ok := fun _ _ => true;
  totalram_pages := 0x100000;
  garbage := fun _ => mk_rle 0 0 0;
|}.

(** A page holding the list [l]. *)
Definition demo_page (l : rl_buf) : rl_buf := l ++ repeat (mk_rle 0 0 0) (170 - length l).

(** [ntfs_rl_vcn_to_lcn] on a buffer that holds a well-formed runlist
    returns, for every VCN, the LCN the runlist denotes: the LCN inside the run
    that covers the VCN, LCN_HOLE or LCN_RL_NOT_MAPPED for such runs, the
    terminator's value beyond the end, and LCN_ENOENT below the first VCN. *)
Theorem vcn_to_lcn_correct b l t v x :
  runlist_wf v l t -> holds b l t -> 0 <= v -> 0 <= x <= S64_MAX ->
  ntfs_rl_vcn_to_lcn (Some b) x = Ret (if x <? v then LCN_ENOENT else denote l t x).
Proof. apply vcn_to_lcn_denote. Qed.

Definition demo_runs : rl_buf := [mk_rle 0 100 4; mk_rle 4 (-1) 2; mk_rle 6 50 1].
Definition demo_end : runlist_element := mk_rle 7 (-3) 0.

(** Decides well-formedness of a concrete runlist. *)
Ltac wf_demo := unfold runlist_wf, term_ok; cbn [chain rl_vcn rl_lcn rl_length];
  unfold run_ok, S64_MAX, LCN_HOLE, LCN_RL_NOT_MAPPED, LCN_ENOENT; cbn [rl_vcn rl_lcn rl_length]; lia.

Lemma demo_wf : runlist_wf 0 demo_runs demo_end.
Proof. unfold demo_runs, demo_end. wf_demo. Qed.

Lemma demo_holds : holds (demo_page (demo_runs ++ [demo_end])) demo_runs demo_end.
Proof. by eexists. Qed.

Lemma vcn_to_lcn_correct_witness :
  ntfs_rl_vcn_to_lcn (Some (demo_page (demo_runs ++ [demo_end]))) 2 = Ret 102.
Proof.
  refine (eq_trans (vcn_to_lcn_correct _ demo_runs demo_end 0 2 demo_wf demo_holds _ _) _);
    [lia|unfold S64_MAX; lia|reflexivity].
Defined.

(** [ntfs_rl_find_vcn_nolock] returns the element covering the VCN when it
    is mapped or sparse, the terminator beyond the end of a complete runlist,
    and NULL otherwise. *)
Theorem find_vcn_correct b l t v x :
  runlist_wf v l t -> holds b l t -> 0 <= x ->
  ntfs_rl_find_vcn_nolock (Some b) x = Ret (if x <? v then None else find_run l t x 0).
Proof. apply find_vcn_find_run. Qed.

Lemma find_vcn_correct_witness :
  ntfs_rl_find_vcn_nolock (Some (demo_page (demo_runs ++ [demo_end]))) 5 = Ret (Some 1).
Proof.
  refine (eq_trans (find_vcn_correct _ demo_runs demo_end 0 5 demo_wf demo_holds _) _); [lia|reflexivity].
Defined.

(** ** Merging *)



(** [n] runs of one cluster each. *)
Definition small_runs (n : Z) : rl_buf := (fun i => mk_rle i (2 * i) 1) <$> seqZ 0 n.

(** Behind a gap, and with no element of the buffer left over, the condition of
    [mergeable_at] is needed: appending one run and the end marker to 339 elements
    asks for 341, which fill two pages but for 8 bytes, and then looks at the LCN
    of element 341.  With 340 elements to place the merge succeeds. *)
Example append_full_buffer :
  let merge n sl := @ntfs_runlists_merge demo_alloc
    (Ret (Some (small_runs n ++ mk_rle n LCN_RL_NOT_MAPPED 0 :: repeat (mk_rle 0 0 0) sl)))
    (Ret (Some ([mk_rle 0 LCN_RL_NOT_MAPPED 400; mk_rle 400 7000 3; mk_rle 403 LCN_RL_NOT_MAPPED 0] ++
       repeat (mk_rle 0 0 0) 167))) in
  capacity 341 = 341 /\ merge 338 2%nat = Fault /\
  (b ← merge 337 3%nat; x ← ntfs_rl_vcn_to_lcn b 401; y ← ntfs_rl_vcn_to_lcn b 399; Ret (x, y)) =
    Ret (7001, LCN_RL_NOT_MAPPED).
Proof. vm_compute. auto. Qed.

(** The list [ntfs_runlists_merge] makes of the first extent of an attribute. *)
Definition first_list (v : Z) (l : rl_buf) : rl_buf :=
  if v =? 0 then l else mk_rle 0 LCN_RL_NOT_MAPPED v :: l.

Lemma first_list_chain v l w : 0 <= v <= S64_MAX -> chain v l w -> chain 0 (first_list v l) w.
Proof.
  intros Hv Hch. unfold first_list. destruct (Z.eqb_spec v 0) as [->|]; [done|].
  simpl. split; [done|]. split; [|done]. unfold run_ok, LCN_RL_NOT_MAPPED, S64_MAX in *. simpl. lia.
Qed.

(** When there is no runlist yet, [ntfs_runlists_merge] returns the new
    one, with an unmapped element for the VCNs below its first one. *)
Theorem runlists_merge_first {KA : KernelAlloc} l t sl v :
  runlist_wf v l t -> 0 <= v -> room (l ++ t :: sl) (zlen l + 1) -> zlen l + 2 <= RL_MAX ->
  let m := ntfs_runlists_merge (Ret None) (Ret (Some (l ++ t :: sl))) in
  m = Errno ENOMEM \/
  exists sl', m = Ret (Some (first_list v l ++ t :: sl')) /\ runlist_wf 0 (first_list v l) t.
Proof.
  intros [Hch Ht] Hv Hroom Hmax m. unfold m, ntfs_runlists_merge, merge_first, first_list.
  assert (HvM : v <= S64_MAX) by (pose proof (chain_le _ _ _ Hch); destruct Ht as (_ & ? & _); lia).
  assert (Hwf : runlist_wf 0 (first_list v l) t) by (split; [by apply first_list_chain|done]).
  destruct (holds_rd0 (l ++ t :: sl) l t v) as (r0 & Hr0 & Hrv); [by eexists|done|].
  rewrite Hr0, bind_Ret, Hrv. destruct (Z.eqb_spec v 0) as [->|Hn]; cbn [negb].
  { right. exists sl. by rewrite bind_Ret. }
  pose proof (scan_up_spec [] l t sl (fun r => negb (rl_length r =? 0)) (scan_fuel (l ++ t :: sl))) as Hs.
  cbn [app] in Hs. rewrite (@zlen_nil runlist_element), Z.add_0_l in Hs.
  rewrite Hs by ((by eapply chain_runs) || apply scan_fuel_ok || (by destruct Ht as (-> & _))). clear Hs. rewrite bind_Ret.
  assert (Hlen : zlen l + 1 = zlen (l ++ [t])) by zlen_lia. pose proof (zlen_nonneg l).
  replace (l ++ t :: sl) with ((l ++ [t]) ++ sl) in * by (by rewrite <- app_assoc).
  destruct (realloc_grow (l ++ [t]) sl (zlen l + 1) (zlen l + 1 + 1)) as [->|(sl1 & -> & Hroom1)];
    [done|lia|lia|done|by left|]. right. rewrite bind_Ret.
  destruct sl1 as [|x sl1].
  { unfold room in Hroom1. pose proof (capacity_ge (zlen l + 1 + 1)). zlen_lia. }
  unfold ntfs_rl_mm. destruct (Z.gtb_spec (zlen l + 1) 0); [|lia]. cbn [negb andb Z.eqb].
  assert (exists a rest, l ++ [t] = a :: rest /\ rl_vcn a = v) as (a & rest & Ea & Hav).
  { destruct l as [|a l]; simpl in *; [|naive_solver]. exists t, []. naive_solver. }
  assert (Hra : zlen rest + 1 = zlen l + 1) by (rewrite Hlen, Ea; zlen_lia).
  rewrite (blit_eq _ _ _ _ _ [a] (rest ++ [x]) sl1 [] (l ++ [t]) (x :: sl1));
    [|by rewrite Ea; cbn; rewrite <- app_assoc|done|done|done|zlen_lia|done].
  rewrite bind_Ret. cbn [app].
  rewrite (upd_at _ [] ((l ++ [t]) ++ sl1) a), bind_Ret by done. cbn [app].
  rewrite (upd_at _ [] ((l ++ [t]) ++ sl1) (set_vcn 0 a)), bind_Ret by done. cbn [app].
  set (a1 := set_lcn LCN_RL_NOT_MAPPED (set_vcn 0 a)).
  rewrite (rd_at _ [a1] (rest ++ sl1) a), bind_Ret by ((by rewrite Ea) || done).
  rewrite (upd_at _ [] ((l ++ [t]) ++ sl1) a1), bind_Ret by done.
  exists sl1. split; [|revert Hwf; unfold first_list; by rewrite (proj2 (Z.eqb_neq v 0)) by done]. unfold a1, set_length, set_lcn, set_vcn. cbn.
  by rewrite Hav, <- app_assoc.
Qed.

Lemma runlists_merge_first_witness :
  exists sl', @ntfs_runlists_merge demo_alloc (Ret None)
    (Ret (Some ([mk_rle 3 9 2] ++ mk_rle 5 (-2) 0 :: repeat (mk_rle 0 0 0) 168))) =
  Ret (Some ([mk_rle 0 (-2) 3; mk_rle 3 9 2] ++ mk_rle 5 (-2) 0 :: sl')).
Proof.
  destruct (@runlists_merge_first demo_alloc [mk_rle 3 9 2] (mk_rle 5 (-2) 0) (repeat (mk_rle 0 0 0) 168) 3)
    as [E|(sl' & E & _)].
  - wf_demo.
  - lia.
  - unfold room. vm_compute. discriminate.
  - unfold RL_MAX. vm_compute. discriminate.
  - vm_compute in E. discriminate.
  - exists sl'. exact E.
Defined.

(** The error and trivial cases of [ntfs_runlists_merge]: no source leaves
    the destination, error pointers give -EINVAL, and a source without any
    mapped element stops in the BUG_ON. *)
Theorem runlists_merge_errors {KA : KernelAlloc} d l t sl e :
  Forall (fun r => negb (rl_length r =? 0) && (rl_lcn r <? LCN_HOLE) = true) l -> rl_length t = 0 ->
  ntfs_runlists_merge (Ret d) (Ret None) = Ret d /\
  ntfs_runlists_merge (Ret d) (Errno e) = Errno EINVAL /\
  ntfs_runlists_merge (Errno e) (Ret (Some (l ++ t :: sl))) = Errno EINVAL /\
  forall b, ntfs_runlists_merge (Ret (Some b)) (Ret (Some (l ++ t :: sl))) = Bug.
Proof.
  intros Hl Ht. split_and!; try done. intros b. unfold ntfs_runlists_merge, merge_both.
  pose proof (scan_up_spec [] l t sl (fun r => negb (rl_length r =? 0) && (rl_lcn r <? LCN_HOLE))
    (scan_fuel (l ++ t :: sl)) Hl) as Hs.
  cbn [app] in Hs. rewrite (@zlen_nil runlist_element), Z.add_0_l in Hs.
  rewrite Hs by ((by rewrite Ht) || apply scan_fuel_ok).
  by rewrite bind_Ret, rd_mid, bind_Ret, Ht by done.
Qed.

Lemma runlists_merge_errors_witness :
  @ntfs_runlists_merge demo_alloc (Ret (Some [])) (Ret (Some ([mk_rle 0 (-2) 3] ++ mk_rle 3 (-2) 0 :: []))) = Bug.
Proof.
  apply (@runlists_merge_errors demo_alloc None [mk_rle 0 (-2) 3] (mk_rle 3 (-2) 0) [] ENOMEM);
    [repeat constructor|reflexivity].
Defined.

(** ** What the merge does not do *)

(** A source that overlaps a real run at a different VCN is not refused with
    -ERANGE: the run is split around it and its tail keeps the wrong LCN. *)
Example merge_overlap_undetected :
  exists sl, @ntfs_runlists_merge demo_alloc
      (Ret (Some (demo_page [mk_rle 0 10 5; mk_rle 5 (-3) 0])))
      (Ret (Some (demo_page [mk_rle 0 (-2) 2; mk_rle 2 50 2; mk_rle 4 (-2) 0]))) =
    Ret (Some ([mk_rle 0 10 2; mk_rle 2 50 2; mk_rle 4 10 1; mk_rle 5 (-3) 0] ++ sl)).
Proof. eexists. vm_compute. reflexivity. Qed.

(** When the base extent is mapped after a physically contiguous later one, the
    scan for the end of the attribute starts behind the merged list: the
    LCN_ENOENT terminator is lost behind an early "not mapped" one. *)
Example merge_marker_lost :
  exists sl, @ntfs_runlists_merge demo_alloc
      (Ret (Some (demo_page [mk_rle 0 (-2) 3; mk_rle 3 3 3; mk_rle 6 (-2) 0])))
      (Ret (Some (demo_page [mk_rle 0 0 3; mk_rle 3 (-2) 4; mk_rle 7 (-3) 0]))) =
    Ret (Some ([mk_rle 0 0 6; mk_rle 6 (-2) 0; mk_rle 6 (-2) 1; mk_rle 7 (-3) 0] ++ sl)).
Proof. eexists. vm_compute. reflexivity. Qed.
