(* ===== verification/MappingPairs.v ===== *)
(** * Mapping pairs arrays

    Models [ntfs_mapping_pairs_decompress], [ntfs_get_nr_significant_bytes],
    [ntfs_get_size_for_mapping_pairs], [ntfs_write_significant_bytes] and
    [ntfs_mapping_pairs_build] of [src/ntfs/runlist.c]. *)

From Stdlib Require Import ZArith Lia Bool.
From stdpp Require Import base list numbers option.
From S2P Require Import Prelude Endian Runlist RunlistMerge.

(** The fields of [ntfs_volume] these functions use. *)
Record ntfs_volume := mk_vol {
  vol_cluster_size : Z;
  vol_cluster_size_bits : Z;
  vol_major_ver : Z;
}.

(** ** Non-resident attribute records (layout.h): offsets of the fields. *)
Definition ATTR_length : Z := 4.
Definition ATTR_lowest_vcn : Z := 16.
Definition ATTR_highest_vcn : Z := 24.
Definition ATTR_mapping_pairs_offset : Z := 32.
Definition ATTR_allocated_size : Z := 40.

(** ** Decompression *)

(** [for (; b > lo; b--) deltaxcn = (deltaxcn << 8) + buf[b];] for [n] rounds *)
Fixpoint mp_rest (n : nat) (mem : list Z) (buf b deltaxcn : Z) : outcome Z :=
  match n with
  | O => Ret deltaxcn
  | S n => y ← rd mem (buf + b); mp_rest n mem buf (b - 1) (s64 (s64 (Z.shiftl deltaxcn 8) + y))
  end.

(** The number in [buf[lo+1] .. buf[b]], the last byte being sign extended. *)
Definition mp_number (mem : list Z) (buf b lo : Z) : outcome Z :=
  x ← rd mem (buf + b); mp_rest (Z.to_nat (b - 1 - lo)) mem buf (b - 1) (s8 x).

(** State of the decompression loop. *)
Record mp_state := mk_mp {
  mp_buf : Z;      (* position in the attribute record *)
  mp_rl : rl_buf;
  mp_rlsize : Z;   (* bytes *)
  mp_rlpos : Z;    (* u16 *)
  mp_vcn : Z;
  mp_lcn : Z;
}.

Section Decompress.
Context `{KA : KernelAlloc}.

(** Allocate more memory if needed. *)
Definition mp_grow (st : mp_state) : outcome mp_state :=
  if (mp_rlpos st + 3) * RLE_SIZE >? mp_rlsize st then
    rl2 ← ntfs_malloc_nofs (mp_rlsize st + PAGE_SIZE);
    match rl2 with
    | None => Errno ENOMEM
    | Some bytes =>
        rl ← rl_recopy (mp_rl st) (mp_rlsize st) bytes;
        Ret (mk_mp (mp_buf st) rl (mp_rlsize st + PAGE_SIZE) (mp_rlpos st) (mp_vcn st) (mp_lcn st))
    end
  else Ret st.

(** The run length of a pair, -1 when it is missing. *)
Definition mp_length (mem : list Z) (attr_end buf c : Z) : outcome Z :=
  let b := Z.land c 0xf in
  if negb (b =? 0) then
    if buf + b >? attr_end then Errno EIO else mp_number mem buf b 0
  else Ret (-1).

(** The new lcn of a pair and the lcn entered in the runlist. *)
Definition mp_new_lcn (mem : list Z) (attr_end buf c lcn : Z) : outcome (Z * Z) :=
  if Z.land c 0xf0 =? 0 then Ret (lcn, LCN_HOLE)
  else
    let b2 := Z.land c 0xf in
    let b := b2 + Z.land (Z.shiftr c 4) 0xf in
    if buf + b >? attr_end then Errno EIO
    else
      deltaxcn ← mp_number mem buf b b2;
      let lcn := s64 (lcn + deltaxcn) in
      if lcn <? -1 then Errno EIO else Ret (lcn, lcn).

(** One mapping pair: the body of the loop. *)
Definition mp_pair (mem : list Z) (attr_end : Z) (st : mp_state) : outcome mp_state :=
  st ← mp_grow st;
  let buf := mp_buf st in
  let rlpos := mp_rlpos st in
  rl ← upd (mp_rl st) rlpos (set_vcn (mp_vcn st));
  c ← rd mem buf;
  deltaxcn ← mp_length mem attr_end buf c;
  if deltaxcn <? 0 then Errno EIO
  else
    rl ← upd rl rlpos (set_length deltaxcn);
    let vcn := s64 (mp_vcn st + deltaxcn) in
    '(lcn, entry) ← mp_new_lcn mem attr_end buf c (mp_lcn st);
    rl ← upd rl rlpos (set_lcn entry);
    Ret (mk_mp (buf + (Z.land c 0xf + Z.land (Z.shiftr c 4) 0xf + 1)) rl (mp_rlsize st)
           (u16 (rlpos + 1)) vcn lcn).

(** [while (buf < attr_end && *buf)] *)
Fixpoint mp_loop (fuel : nat) (mem : list Z) (attr_end : Z) (st : mp_state) : outcome mp_state :=
  match fuel with
  | O => Diverge
  | S fuel =>
      if mp_buf st <? attr_end then
        c ← rd mem (mp_buf st);
        if c =? 0 then Ret st
        else st ← mp_pair mem attr_end st; mp_loop fuel mem attr_end st
      else Ret st
  end.

(** The base extent: the not mapped element when more extents follow. *)
Definition mp_base (vol : ntfs_volume) (mem : list Z) (deltaxcn : Z) (st : mp_state)
    : outcome (rl_buf * Z * Z) :=
  allocated_size ← rd_sle64 mem ATTR_allocated_size;
  let max_cluster :=
    s64 (Z.shiftr (s64 (s64 (allocated_size + vol_cluster_size vol) - 1))
                  (vol_cluster_size_bits vol) - 1) in
  if negb (deltaxcn =? 0) then
    if deltaxcn <? max_cluster then
      rl ← upd (mp_rl st) (mp_rlpos st) (set_vcn (mp_vcn st));
      let n := s64 (max_cluster - deltaxcn) in
      rl ← upd rl (mp_rlpos st) (set_length n);
      rl ← upd rl (mp_rlpos st) (set_lcn LCN_RL_NOT_MAPPED);
      Ret (rl, u16 (mp_rlpos st + 1), s64 (mp_vcn st + n))
    else if deltaxcn >? max_cluster then Errno EIO
    else Ret (mp_rl st, mp_rlpos st, mp_vcn st)
  else Ret (mp_rl st, mp_rlpos st, mp_vcn st).

(** After the loop: check @highest_vcn, and set up the terminator. *)
Definition mp_finish (vol : ntfs_volume) (mem : list Z) (attr_end lowest_vcn : Z) (st : mp_state)
    : outcome rl_buf :=
  if mp_buf st >=? attr_end then Errno EIO
  else
    deltaxcn ← rd_sle64 mem ATTR_highest_vcn;
    if negb (deltaxcn =? 0) && negb (s64 (mp_vcn st - 1) =? deltaxcn) then Errno EIO
    else
      '(rl, rlpos, vcn, lcn) ←
        (if lowest_vcn =? 0 then
           '(rl, rlpos, vcn) ← mp_base vol mem deltaxcn st; Ret (rl, rlpos, vcn, LCN_ENOENT)
         else Ret (mp_rl st, mp_rlpos st, mp_vcn st, LCN_RL_NOT_MAPPED));
      rl ← upd rl rlpos (set_lcn lcn);
      rl ← upd rl rlpos (set_vcn vcn);
      upd rl rlpos (set_length 0).

(** The loop visits each byte of the attribute at most once. *)
Definition mp_fuel (attr_end : Z) : nat := S (S (Z.to_nat attr_end)).

(** [mem] is the memory from the start of the attribute record on. *)
Definition ntfs_mapping_pairs_decompress (vol : ntfs_volume) (mem : list Z) (old_rl : option rl_buf)
    : outcome (option rl_buf) :=
  vcn ← rd_sle64 mem ATTR_lowest_vcn;
  buf ← rd_le16 mem ATTR_mapping_pairs_offset;
  attr_end ← rd_le32 mem ATTR_length;
  if buf >? attr_end then Errno EIO
  else
    empty ← (if vcn =? 0 then c ← rd mem buf; Ret (c =? 0) else Ret false);
    if (empty : bool) then Ret old_rl
    else
      p ← ntfs_malloc_nofs PAGE_SIZE;
      match p with
      | None => Errno ENOMEM
      | Some bytes =>
          '(rl, rlpos) ← (if negb (vcn =? 0) then
                            rl ← upd (fresh_rl bytes) 0 (set_vcn 0);
                            rl ← upd rl 0 (set_lcn LCN_RL_NOT_MAPPED);
                            rl ← upd rl 0 (set_length vcn);
                            Ret (rl, 1)
                          else Ret (fresh_rl bytes, 0));
          st ← mp_loop (mp_fuel attr_end) mem attr_end (mk_mp buf rl PAGE_SIZE rlpos vcn 0);
          rl ← mp_finish vol mem attr_end vcn st;
          match old_rl with
          | None => Ret (Some rl)
          | Some _ => ntfs_runlists_merge (Ret old_rl) (Ret (Some rl))
          end
      end.
End Decompress.

(** ** Sizes and writing *)

(** [do { l >>= 8; i++; } while (l != 0 && l != -1);] *)
Fixpoint sig_loop (fuel : nat) (l i : Z) : Z :=
  match fuel with
  | O => i
  | S fuel =>
      let l := Z.shiftr l 8 in
      let i := i + 1 in
      if negb (l =? 0) && negb (l =? -1) then sig_loop fuel l i else i
  end.

(** Eight shifts by a byte leave 0 or -1 of any [s64]. *)
Definition SIG_FUEL : nat := 8.

Definition ntfs_get_nr_significant_bytes (n : Z) : Z :=
  let i := sig_loop SIG_FUEL n 0 in
  let j := s8 (Z.land (Z.shiftr n (8 * (i - 1))) 0xff) in
  if ((n <? 0) && (j >=? 0)) || ((n >? 0) && (j <? 0)) then i + 1 else i.

(** Walking a runlist: a [runlist_element *] that is not NULL is a buffer and an
    index into it.  [while (rl->length && first_vcn >= rl[1].vcn) rl++;] *)
Fixpoint skip_to (fuel : nat) (b : rl_buf) (vcn i : Z) : outcome Z :=
  match fuel with
  | O => Diverge
  | S fuel =>
      r ← rd b i;
      if negb (rl_length r =? 0) then
        r1 ← rd b (i + 1);
        if vcn >=? rl_vcn r1 then skip_to fuel b vcn (i + 1) else Ret i
      else Ret i
  end.

(** The common cap: "If @stop_vcn is given and finishes inside this run". *)
Definition cap_run (last_vcn : Z) (r r1 : runlist_element) : Z * bool :=
  if (last_vcn >=? 0) && (rl_vcn r1 >? last_vcn) then
    let s1 := s64 (last_vcn + 1) in
    (if rl_vcn r1 >? s1 then s64 (s1 - rl_vcn r) else rl_length r, true)
  else (rl_length r, false).

(** [err_out:] *)
Definition rl_err (r : runlist_element) : Z :=
  if rl_lcn r =? LCN_RL_NOT_MAPPED then EINVAL else EIO.

(** The loop over the full runs of [ntfs_get_size_for_mapping_pairs]. *)
Fixpoint size_runs (fuel : nat) (vol : ntfs_volume) (b : rl_buf) (last_vcn i rls prev_lcn : Z)
    (the_end : bool) : outcome Z :=
  match fuel with
  | O => Diverge
  | S fuel =>
      r ← rd b i;
      if negb (rl_length r =? 0) && negb the_end then
        if (rl_length r <? 0) || (rl_lcn r <? LCN_HOLE) then Errno (rl_err r)
        else
          r1 ← rd b (i + 1);
          let '(length, the_end) := cap_run last_vcn r r1 in
          let rls := rls + (1 + ntfs_get_nr_significant_bytes length) in
          if (rl_lcn r >=? 0) || (vol_major_ver vol <? 3) then
            size_runs fuel vol b last_vcn (i + 1)
              (rls + ntfs_get_nr_significant_bytes (s64 (rl_lcn r - prev_lcn))) (rl_lcn r) the_end
          else size_runs fuel vol b last_vcn (i + 1) rls prev_lcn the_end
      else Ret rls
  end.

Definition ntfs_get_size_for_mapping_pairs (vol : ntfs_volume) (rl : option rl_buf)
    (first_vcn last_vcn : Z) : outcome Z :=
  BUG_ON (first_vcn <? 0);;
  BUG_ON (last_vcn <? -1);;
  BUG_ON ((last_vcn >=? 0) && (first_vcn >? last_vcn));;
  match rl with
  | None =>
      BUG_ON (negb (first_vcn =? 0));;
      BUG_ON (last_vcn >? 0);;
      Ret 1
  | Some b =>
      i ← skip_to (scan_fuel b) b first_vcn 0;
      r ← rd b i;
      if ((rl_length r =? 0) && (first_vcn >? rl_vcn r)) || (first_vcn <? rl_vcn r)
      then Errno EINVAL
      else if first_vcn >? rl_vcn r then
        if (rl_length r <? 0) || (rl_lcn r <? LCN_HOLE) then Errno (rl_err r)
        else
          r1 ← rd b (i + 1);
          let '(length, the_end) := cap_run last_vcn r r1 in
          let delta := s64 (first_vcn - rl_vcn r) in
          let rls := 1 + (1 + ntfs_get_nr_significant_bytes (s64 (length - delta))) in
          if (rl_lcn r >=? 0) || (vol_major_ver vol <? 3) then
            let prev_lcn := if rl_lcn r >=? 0 then s64 (rl_lcn r + delta) else rl_lcn r in
            size_runs (scan_fuel b) vol b last_vcn (i + 1)
              (rls + ntfs_get_nr_significant_bytes prev_lcn) prev_lcn the_end
          else size_runs (scan_fuel b) vol b last_vcn (i + 1) rls 0 the_end
      else size_runs (scan_fuel b) vol b last_vcn i 1 0 false
  end.

(** [do { if (dst > dst_max) goto err_out; *dst++ = l & 0xff; l >>= 8; i++; }
    while (...)]: the memory, and [None] for [goto err_out]. *)
Fixpoint wsb_loop (fuel : nat) (mem : list Z) (dst dst_max l i : Z) : outcome (list Z * option Z) :=
  match fuel with
  | O => Diverge
  | S fuel =>
      if dst >? dst_max then Ret (mem, None)
      else
        mem ← wr mem dst (Z.land l 0xff);
        let l := Z.shiftr l 8 in
        let i := i + 1 in
        if negb (l =? 0) && negb (l =? -1) then wsb_loop fuel mem (dst + 1) dst_max l i
        else Ret (mem, Some i)
  end.

(** The memory, and the number of bytes written or -ENOSPC. *)
Definition ntfs_write_significant_bytes (mem : list Z) (dst dst_max n : Z) : outcome (list Z * Z) :=
  '(mem, r) ← wsb_loop SIG_FUEL mem dst dst_max n 0;
  match r with
  | None => Ret (mem, - ENOSPC)
  | Some i =>
      let j := s8 (Z.land (Z.shiftr n (8 * (i - 1))) 0xff) in
      if (n <? 0) && (j >=? 0) then
        if dst + i >? dst_max then Ret (mem, - ENOSPC)
        else mem ← wr mem (dst + i) 0xff; Ret (mem, i + 1)
      else if (n >? 0) && (j <? 0) then
        if dst + i >? dst_max then Ret (mem, - ENOSPC)
        else mem ← wr mem (dst + i) 0; Ret (mem, i + 1)
      else Ret (mem, i)
  end.

(** What [ntfs_mapping_pairs_build] leaves: the destination buffer, the value
    stored in *@stop_vcn, and the return value. *)
Record mpb_result := mk_mpb { mpb_dst : list Z; mpb_stop : option Z; mpb_ret : Z }.

(** [size_err:] and the success path. *)
Definition mpb_stop_at (mem : list Z) (dst : Z) (r : runlist_element) (err : Z) : outcome mpb_result :=
  mem ← wr mem dst 0; Ret (mk_mpb mem (Some (rl_vcn r)) err).

(** Writes one pair: [None] is [goto size_err], [Some] the position of the next
    one.  [lcn] is the lcn change to write, if any. *)
Definition mpb_pair (mem : list Z) (dst dst_max length : Z) (lcn : option Z)
    : outcome (list Z * option Z) :=
  '(mem, len_len) ← ntfs_write_significant_bytes mem (dst + 1) dst_max length;
  if len_len <? 0 then Ret (mem, None)
  else
    '(mem, lcn_len) ← (match lcn with
                       | Some d => ntfs_write_significant_bytes mem (dst + 1 + len_len) dst_max d
                       | None => Ret (mem, 0)
                       end);
    if lcn_len <? 0 then Ret (mem, None)
    else
      let dst_next := dst + len_len + lcn_len + 1 in
      if dst_next >? dst_max then Ret (mem, None)
      else
        mem ← wr mem dst (u8 (Z.lor (Z.shiftl lcn_len 4) len_len));
        Ret (mem, Some dst_next).

(** The loop over the full runs of [ntfs_mapping_pairs_build]. *)
Fixpoint mpb_runs (fuel : nat) (vol : ntfs_volume) (mem : list Z) (dst dst_max : Z)
    (b : rl_buf) (last_vcn i prev_lcn : Z) (the_end : bool) : outcome mpb_result :=
  match fuel with
  | O => Diverge
  | S fuel =>
      r ← rd b i;
      if negb (rl_length r =? 0) && negb the_end then
        if (rl_length r <? 0) || (rl_lcn r <? LCN_HOLE) then Ret (mk_mpb mem None (- rl_err r))
        else
          r1 ← rd b (i + 1);
          let '(length, the_end) := cap_run last_vcn r r1 in
          let store := (rl_lcn r >=? 0) || (vol_major_ver vol <? 3) in
          '(mem, next) ← mpb_pair mem dst dst_max length
                           (if store then Some (s64 (rl_lcn r - prev_lcn)) else None);
          match next with
          | None => mpb_stop_at mem dst r (- ENOSPC)
          | Some dst =>
              mpb_runs fuel vol mem dst dst_max b last_vcn (i + 1)
                (if store then rl_lcn r else prev_lcn) the_end
          end
      else mpb_stop_at mem dst r 0
  end.

Definition ntfs_mapping_pairs_build (vol : ntfs_volume) (mem : list Z) (dst_len : Z)
    (rl : option rl_buf) (first_vcn last_vcn : Z) : outcome mpb_result :=
  BUG_ON (first_vcn <? 0);;
  BUG_ON (last_vcn <? -1);;
  BUG_ON ((last_vcn >=? 0) && (first_vcn >? last_vcn));;
  BUG_ON (dst_len <? 1);;
  match rl with
  | None =>
      BUG_ON (negb (first_vcn =? 0));;
      BUG_ON (last_vcn >? 0);;
      mem ← wr mem 0 0;
      Ret (mk_mpb mem (Some 0) 0)
  | Some b =>
      i ← skip_to (scan_fuel b) b first_vcn 0;
      r ← rd b i;
      if ((rl_length r =? 0) && (first_vcn >? rl_vcn r)) || (first_vcn <? rl_vcn r)
      then Ret (mk_mpb mem None (- EINVAL))
      else
        let dst_max := dst_len - 1 in
        if first_vcn >? rl_vcn r then
          if (rl_length r <? 0) || (rl_lcn r <? LCN_HOLE) then Ret (mk_mpb mem None (- rl_err r))
          else
            r1 ← rd b (i + 1);
            let '(length, the_end) := cap_run last_vcn r r1 in
            let delta := s64 (first_vcn - rl_vcn r) in
            let store := (rl_lcn r >=? 0) || (vol_major_ver vol <? 3) in
            let prev_lcn :=
              if store then (if rl_lcn r >=? 0 then s64 (rl_lcn r + delta) else rl_lcn r) else 0 in
            '(mem, next) ← mpb_pair mem 0 dst_max (s64 (length - delta))
                             (if store then Some prev_lcn else None);
            match next with
            | None => mpb_stop_at mem 0 r (- ENOSPC)
            | Some dst =>
                mpb_runs (scan_fuel b) vol mem dst dst_max b last_vcn (i + 1) prev_lcn the_end
            end
        else mpb_runs (scan_fuel b) vol mem 0 dst_max b last_vcn i 0 false
  end.
