(* ===== verification/MappingPairsSpec.v ===== *)
(** * The mapping pairs code

    The byte encoding of runs as a specification, and proofs that the size, the
    writer and the reader of [MappingPairs] implement it. *)

From Stdlib Require Import ZArith Lia Bool.
From stdpp Require Import base list numbers option.
From S2P Require Import Prelude Endian Runlist RunlistSpec RunlistBuf RunlistMerge MappingPairs.

(** ** Numbers in the fewest bytes *)

(** [n] fits in [k] bytes as a signed number. *)
Definition fits (k n : Z) : Prop := - 2 ^ (8 * k - 1) <= n < 2 ^ (8 * k - 1).

Lemma pow_8_succ k : 0 <= k -> 2 ^ (8 * (k + 1)) = 0x100 * 2 ^ (8 * k).
Proof. intros. replace (8 * (k + 1)) with (8 + 8 * k) by lia. by rewrite Z.pow_add_r by lia. Qed.

(** One shift by a byte. *)
Lemma shift8_range l k :
  0 <= k -> - 2 ^ (8 * (k + 1)) <= l < 2 ^ (8 * (k + 1)) <->
  - 2 ^ (8 * k) <= Z.shiftr l 8 < 2 ^ (8 * k).
Proof.
  intros. rewrite pow_8_succ, Z.shiftr_div_pow2 by lia. change (2 ^ 8) with 0x100.
  pose proof (Z.div_mod l 0x100). pose proof (Z.mod_pos_bound l 0x100). lia.
Qed.

Lemma shift8_end l : (Z.shiftr l 8 = 0 \/ Z.shiftr l 8 = -1) <-> - 2 ^ 8 <= l < 2 ^ 8.
Proof.
  rewrite Z.shiftr_div_pow2 by lia. change (2 ^ 8) with 0x100.
  pose proof (Z.div_mod l 0x100). pose proof (Z.mod_pos_bound l 0x100). lia.
Qed.

(** The loop counts the bytes that hold the number without regard to its sign. *)
Lemma sig_loop_spec fuel l i :
  (0 < fuel)%nat -> - 2 ^ (8 * Z.of_nat fuel) <= l < 2 ^ (8 * Z.of_nat fuel) ->
  exists k, sig_loop fuel l i = i + k /\ 1 <= k <= Z.of_nat fuel /\
    - 2 ^ (8 * k) <= l < 2 ^ (8 * k) /\
    (1 < k -> ~ (- 2 ^ (8 * (k - 1)) <= l < 2 ^ (8 * (k - 1)))).
Proof.
  revert l i. induction fuel as [|fuel IH]; intros l i Hf Hl; [lia|]. cbn [sig_loop].
  pose proof (shift8_end l) as Hend.
  destruct (negb (Z.shiftr l 8 =? 0) && negb (Z.shiftr l 8 =? -1)) eqn:E.
  - assert (Hne : ~ (- 2 ^ 8 <= l < 2 ^ 8)) by (rewrite <- Hend; lia).
    replace (Z.of_nat (S fuel)) with (Z.of_nat fuel + 1) in Hl by lia.
    apply shift8_range in Hl; [|lia].
    destruct fuel as [|fuel']; [simpl in Hl; lia|].
    destruct (IH (Z.shiftr l 8) (i + 1)) as (k & Hk & Hr & Hin & Hnot); [lia|done|].
    exists (k + 1). rewrite Hk. split; [lia|]. split; [lia|].
    split; [apply shift8_range; [lia|done]|]. intros _.
    replace (k + 1 - 1) with k by lia. intros Hc.
    destruct (Z.eqb_spec k 1) as [->|]; [done|].
    apply Hnot; [lia|]. apply shift8_range; [lia|]. by replace (k - 1 + 1) with k by lia.
  - exists 1. assert (- 2 ^ 8 <= l < 2 ^ 8) by (apply Hend; lia).
    split; [done|]. split; [lia|]. split; [done|lia].
Qed.

(** The sign byte that the code looks at. *)
Lemma sign_byte n k :
  1 <= k -> - 2 ^ (8 * k) <= n < 2 ^ (8 * k) ->
  let j := s8 (Z.land (Z.shiftr n (8 * (k - 1))) 0xff) in
  (n < 0 /\ 0 <= j <-> n < - 2 ^ (8 * k - 1)) /\ (0 < n /\ j < 0 <-> 2 ^ (8 * k - 1) <= n).
Proof.
  intros Hk Hn j.
  set (p := 2 ^ (8 * (k - 1))). assert (0 < p) by (apply Z.pow_pos_nonneg; lia).
  assert (E1 : 2 ^ (8 * k) = 0x100 * p).
  { unfold p. replace k with (k - 1 + 1) at 1 by lia. apply pow_8_succ. lia. }
  assert (E2 : 2 ^ (8 * k - 1) = 0x80 * p).
  { unfold p. replace (8 * k - 1) with (7 + 8 * (k - 1)) by lia. by rewrite Z.pow_add_r by lia. }
  rewrite E1 in Hn. rewrite E2.
  unfold j. change 0xff with (Z.ones 8). rewrite Z.land_ones, Z.shiftr_div_pow2 by lia.
  fold p. change (2 ^ 8) with 0x100.
  set (m := n / p). pose proof (Z.div_mod n p) as Hdm. pose proof (Z.mod_pos_bound n p) as Hmb.
  fold m in Hdm. assert (Hm : -0x100 <= m < 0x100) by nia.
  assert (Hj : s8 (m mod 0x100) = if m <? -0x80 then m + 0x100 else if m <? 0x80 then m else m - 0x100).
  { unfold s8. rewrite Zplus_mod_idemp_l. pose proof (Z.div_mod (m + 0x80) 0x100).
    pose proof (Z.mod_pos_bound (m + 0x80) 0x100).
    destruct (Z.ltb_spec m (-0x80)), (Z.ltb_spec m 0x80); lia. }
  rewrite Hj. destruct (Z.ltb_spec m (-0x80)), (Z.ltb_spec m 0x80); split; split; intros; nia.
Qed.

Definition s64_ok (n : Z) : Prop := S64_MIN <= n <= S64_MAX.

(** [ntfs_get_nr_significant_bytes] is the least number of bytes that fits. *)
Lemma nr_significant_spec n :
  s64_ok n -> let k := ntfs_get_nr_significant_bytes n in
  1 <= k <= 8 /\ fits k n /\ (1 < k -> ~ fits (k - 1) n).
Proof.
  intros Hn k. unfold s64_ok, S64_MIN, S64_MAX in Hn.
  destruct (sig_loop_spec SIG_FUEL n 0) as (i & Hi & Hr & Hin & Hnot);
    [unfold SIG_FUEL; lia|unfold SIG_FUEL; simpl; lia|].
  unfold k, ntfs_get_nr_significant_bytes. rewrite Hi, Z.add_0_l.
  destruct (sign_byte n i) as [Hs1 Hs2]; [lia|done|].
  set (j := s8 _) in *. unfold fits. unfold SIG_FUEL in Hr.
  destruct (((n <? 0) && (j >=? 0)) || ((n >? 0) && (j <? 0))) eqn:E.
  - assert (Hout : n < - 2 ^ (8 * i - 1) \/ 2 ^ (8 * i - 1) <= n) by lia.
    assert (i < 8).
    { destruct (Z.eqb_spec i 8) as [->|]; [|lia]. change (2 ^ (8 * 8 - 1)) with 0x8000000000000000 in Hout. lia. }
    assert (2 ^ (8 * i) <= 2 ^ (8 * (i + 1) - 1)) by (apply Z.pow_le_mono_r; lia).
    split; [lia|]. split; [lia|]. intros _. replace (i + 1 - 1) with i by lia. lia.
  - split; [lia|]. split; [lia|]. intros Hi1 Hc. apply (Hnot Hi1).
    assert (2 ^ (8 * (i - 1) - 1) <= 2 ^ (8 * (i - 1))) by (apply Z.pow_le_mono_r; lia). lia.
Qed.

(** The bytes of a number. *)
Definition enc_num (n : Z) : list Z := le_split (Z.to_nat (ntfs_get_nr_significant_bytes n)) n.

Lemma zlen_enc_num n : s64_ok n -> zlen (enc_num n) = ntfs_get_nr_significant_bytes n.
Proof.
  intros Hn. destruct (nr_significant_spec n Hn). unfold enc_num. rewrite zlen_le_split. lia.
Qed.

(** ** Reading a number back *)

Lemma le_split_snoc n z : le_split (S n) z = le_split n z ++ [z / 2 ^ (8 * Z.of_nat n) mod 0x100].
Proof.
  revert z. induction n as [|n IH]; intros z; [by rewrite Z.div_1_r|].
  change (le_split (S (S n)) z) with (z mod 0x100 :: le_split (S n) (z / 0x100)).
  rewrite IH. cbn [le_split app]. do 3 f_equal. rewrite Z.div_div by lia.
  f_equal. replace (8 * Z.of_nat (S n)) with (8 + 8 * Z.of_nat n) by lia. by rewrite Z.pow_add_r by lia.
Qed.

(** One round: the byte below the digits read so far. *)
Lemma mp_round z n :
  s64_ok z -> 0 <= n ->
  s64 (s64 (Z.shiftl (z / 2 ^ (8 * (n + 1))) 8) + z / 2 ^ (8 * n) mod 0x100) = z / 2 ^ (8 * n).
Proof.
  intros Hz Hn. rewrite Z.shiftl_mul_pow2, pow_8_succ by lia.
  assert (0 < 2 ^ (8 * n)) by (apply Z.pow_pos_nonneg; lia).
  rewrite (Z.mul_comm 0x100), <- Z.div_div by lia.
  set (y := z / 2 ^ (8 * n)). assert (Hy : s64_ok y).
  { unfold s64_ok, S64_MIN, S64_MAX in *. unfold y. split.
    - apply Z.div_le_lower_bound; nia.
    - apply Z.div_le_upper_bound; nia. }
  change (2 ^ 8) with 0x100. pose proof (Z.div_mod y 0x100). pose proof (Z.mod_pos_bound y 0x100).
  unfold s64_ok, S64_MIN, S64_MAX in *.
  rewrite (s64_id (y / 0x100 * 0x100)) by (unfold S64_MIN, S64_MAX; lia).
  rewrite s64_id by (unfold S64_MIN, S64_MAX; lia). lia.
Qed.

Lemma mp_rest_spec n : forall mem buf b z pre post,
  s64_ok z -> mem = pre ++ le_split n z ++ post -> buf + b = zlen pre + Z.of_nat n - 1 ->
  mp_rest n mem buf b (z / 2 ^ (8 * Z.of_nat n)) = Ret z.
Proof.
  induction n as [|n IH]; intros mem buf b z pre post Hz Hmem Hb; cbn [mp_rest].
  { by rewrite Z.div_1_r. }
  rewrite le_split_snoc, <- app_assoc in Hmem.
  rewrite (rd_at mem (pre ++ le_split n z) post (z / 2 ^ (8 * Z.of_nat n) mod 0x100));
    [|by rewrite <- app_assoc|rewrite zlen_app, zlen_le_split; lia].
  rewrite bind_Ret. replace (Z.of_nat (S n)) with (Z.of_nat n + 1) by lia.
  rewrite mp_round by (done || lia). eapply IH; eauto. lia.
Qed.

(** The bytes of a number that fits are read back as that number. *)
Lemma mp_number_spec k mem buf b lo z pre post :
  1 <= k <= 8 -> fits k z -> mem = pre ++ le_split (Z.to_nat k) z ++ post ->
  b = lo + k -> buf + lo + 1 = zlen pre -> mp_number mem buf b lo = Ret z.
Proof.
  intros Hk Hf Hmem -> Hb. unfold mp_number.
  assert (Hz : s64_ok z).
  { unfold fits in Hf. assert (2 ^ (8 * k - 1) <= 2 ^ 63) by (apply Z.pow_le_mono_r; lia).
    unfold s64_ok, S64_MIN, S64_MAX. lia. }
  replace (Z.to_nat k) with (S (Z.to_nat (k - 1))) in Hmem by lia.
  set (n := Z.to_nat (k - 1)) in *. rewrite le_split_snoc, <- app_assoc in Hmem.
  rewrite (rd_at mem (pre ++ le_split n z) post (z / 2 ^ (8 * Z.of_nat n) mod 0x100));
    [|by rewrite <- app_assoc|rewrite zlen_app, zlen_le_split; lia].
  rewrite bind_Ret. replace (Z.to_nat (lo + k - 1 - lo)) with n by lia.
  replace (s8 (z / 2 ^ (8 * Z.of_nat n) mod 0x100)) with (z / 2 ^ (8 * Z.of_nat n)).
  { eapply mp_rest_spec; [done|done|lia]. }
  unfold fits in Hf. replace (8 * k - 1) with (7 + 8 * Z.of_nat n) in Hf by lia.
  rewrite Z.pow_add_r in Hf by lia. set (p := 2 ^ (8 * Z.of_nat n)) in *.
  assert (0 < p) by (apply Z.pow_pos_nonneg; lia).
  assert (-0x80 <= z / p < 0x80).
  { split; [apply Z.div_le_lower_bound|apply Z.div_lt_upper_bound]; lia. }
  unfold s8. rewrite Zplus_mod_idemp_l, Z.mod_small by lia. lia.
Qed.

(** ** The specification of the array *)

(** A header byte with the two byte counts, the length, and the lcn change. *)
Definition enc_pair (len : Z) (delta : option Z) : list Z :=
  let d := match delta with Some d => enc_num d | None => [] end in
  (16 * zlen d + ntfs_get_nr_significant_bytes len) :: enc_num len ++ d.

(** Since NTFS 3.0 holes are stored without an lcn change. *)
Definition stores_lcn (ver : Z) (r : runlist_element) : bool := (rl_lcn r >=? 0) || (ver <? 3).

Fixpoint enc_runs (ver prev : Z) (l : list runlist_element) : list Z :=
  match l with
  | [] => []
  | r :: l =>
      if stores_lcn ver r
      then enc_pair (rl_length r) (Some (rl_lcn r - prev)) ++ enc_runs ver (rl_lcn r) l
      else enc_pair (rl_length r) None ++ enc_runs ver prev l
  end.

(** The mapping pairs array of a list of runs. *)
Definition mapping_pairs (ver : Z) (l : list runlist_element) : list Z := enc_runs ver 0 l ++ [0].

(** The runs from [first] on, the first of them shortened at its start. *)
Fixpoint from (first : Z) (l : list runlist_element) : list runlist_element :=
  match l with
  | [] => []
  | r :: l =>
      if first >=? rl_vcn r + rl_length r then from first l
      else if first >? rl_vcn r then
        mk_rle first (run_lcn r first) (rl_length r - (first - rl_vcn r)) :: l
      else r :: l
  end.

(** The runs up to [last], the last of them shortened at its end; all of them
    for [last = -1]. *)
Fixpoint cut (last : Z) (l : list runlist_element) : list runlist_element :=
  match l with
  | [] => []
  | r :: l =>
      if (last >=? 0) && (rl_vcn r + rl_length r >? last)
      then [set_length (Z.min (rl_length r) (last + 1 - rl_vcn r)) r]
      else r :: cut last l
  end.

(** The part of a runlist a mapping pairs array covers. *)
Definition window (first last : Z) (l : list runlist_element) : list runlist_element :=
  cut last (from first l).

(** ** What the window contains *)

Definition mapped (r : runlist_element) : bool := LCN_HOLE <=? rl_lcn r.

(** Where the window ends. *)
Definition window_end (last w : Z) : Z := if last >=? 0 then Z.min w (last + 1) else w.

Lemma run_ok_tail r d :
  run_ok r -> 0 <= d < rl_length r ->
  run_ok (mk_rle (rl_vcn r + d) (run_lcn r (rl_vcn r + d)) (rl_length r - d)).
Proof.
  unfold run_ok, run_lcn, LCN_RL_NOT_MAPPED. cbn. intros Hr Hd.
  destruct (Z.geb_spec (rl_lcn r) 0); lia.
Qed.

Lemma run_ok_prefix r n : run_ok r -> 0 < n <= rl_length r -> run_ok (set_length n r).
Proof. unfold run_ok. cbn. lia. Qed.

Lemma from_chain first v l w : chain v l w -> v <= first <= w -> chain first (from first l) w.
Proof.
  revert v. induction l as [|r l IH]; cbn [from chain]; intros v; [lia|].
  intros (Hv & Hr & Hch) Hf. destruct (Z.geb_spec first (rl_vcn r + rl_length r)).
  - eapply IH; eauto. lia.
  - destruct (Z.gtb_spec first (rl_vcn r)); cbn [chain rl_vcn rl_length].
    + split; [done|]. split.
      * pose proof (run_ok_tail r (first - rl_vcn r) Hr) as Ht.
        replace (rl_vcn r + (first - rl_vcn r)) with first in Ht by lia. apply Ht. lia.
      * by replace (first + (rl_length r - (first - rl_vcn r))) with (v + rl_length r) by lia.
    + replace first with v by lia. done.
Qed.

Lemma from_look first v l w x :
  chain v l w -> v <= first -> first <= x -> look (from first l) x = look l x.
Proof.
  revert v. induction l as [|r l IH]; cbn [from chain look]; intros v; [done|].
  intros (Hv & Hr & Hch) Hf Hx. destruct (Z.geb_spec first (rl_vcn r + rl_length r)).
  - destruct (Z.ltb_spec x (rl_vcn r + rl_length r)); [lia|]. eapply IH; eauto. lia.
  - destruct (Z.gtb_spec first (rl_vcn r)); [|done]. cbn [look rl_vcn rl_length].
    replace (first + (rl_length r - (first - rl_vcn r))) with (rl_vcn r + rl_length r) by lia.
    destruct (Z.ltb_spec x (rl_vcn r + rl_length r)); [|done].
    unfold run_lcn; cbn. destruct (Z.geb_spec (rl_lcn r) 0) as [|Hn]; f_equal.
    + destruct (Z.geb_spec (rl_lcn r + (first - rl_vcn r)) 0); lia.
    + destruct (Z.geb_spec (rl_lcn r) 0); lia.
Qed.

Lemma cut_chain last v l w :
  chain v l w -> (0 <= last -> v <= last) -> chain v (cut last l) (window_end last w).
Proof.
  unfold window_end. revert v. induction l as [|r l IH]; cbn [cut chain]; intros v.
  { intros -> ?. destruct (Z.geb_spec last 0); lia. }
  intros (Hv & Hr & Hch) Hl. pose proof (chain_le _ _ _ Hch).
  destruct (Z.geb_spec last 0), (Z.gtb_spec (rl_vcn r + rl_length r) last); cbn [andb chain].
  - cbn. split; [done|]. split; [apply run_ok_prefix; [done|]; unfold run_ok in Hr; lia|]. lia.
  - specialize (IH _ Hch). destruct (Z.geb_spec last 0); [|lia]. split_and!; [done..|]. apply IH. lia.
  - specialize (IH _ Hch). destruct (Z.geb_spec last 0); [lia|]. split_and!; [done..|]. apply IH. lia.
  - specialize (IH _ Hch). destruct (Z.geb_spec last 0); [lia|]. split_and!; [done..|]. apply IH. lia.
Qed.

Lemma cut_look last v l w x :
  chain v l w -> (0 <= last -> x <= last) -> look (cut last l) x = look l x.
Proof.
  revert v. induction l as [|r l IH]; cbn [cut chain look]; intros v; [done|].
  intros (Hv & Hr & Hch) Hx.
  destruct (Z.geb_spec last 0), (Z.gtb_spec (rl_vcn r + rl_length r) last); cbn [andb look].
  - cbn. destruct (Z.ltb_spec x (rl_vcn r + Z.min (rl_length r) (last + 1 - rl_vcn r))); [|lia].
    by destruct (Z.ltb_spec x (rl_vcn r + rl_length r)); [|lia].
  - erewrite IH; eauto.
  - erewrite IH; eauto.
  - erewrite IH; eauto.
Qed.

(** ** The size of the array *)

Lemma enc_num_s64 n : s64_ok n -> zlen (enc_num (s64 n)) = ntfs_get_nr_significant_bytes n.
Proof. intros Hn. rewrite s64_id by done. by apply zlen_enc_num. Qed.

Lemma zlen_enc_pair len delta :
  s64_ok len -> (forall d, delta = Some d -> s64_ok d) ->
  zlen (enc_pair len delta) =
    1 + ntfs_get_nr_significant_bytes len +
    match delta with Some d => ntfs_get_nr_significant_bytes d | None => 0 end.
Proof.
  intros Hl Hd. unfold enc_pair. rewrite zlen_cons, zlen_app, zlen_enc_num by done.
  destruct delta as [d|]; [rewrite zlen_enc_num by auto|rewrite zlen_nil]; lia.
Qed.

(** The lcn a new run is stored relative to. *)
Definition prev_ok (p : Z) : Prop := -1 <= p <= S64_MAX.

Lemma delta_ok r p : run_ok r -> mapped r = true -> prev_ok p -> s64_ok (rl_lcn r - p).
Proof.
  unfold run_ok, mapped, prev_ok, s64_ok, S64_MIN, S64_MAX, LCN_HOLE. intros Hr Hm%Z.leb_le Hp. lia.
Qed.

Lemma run_len_ok r : run_ok r -> s64_ok (rl_length r).
Proof. unfold run_ok, s64_ok, S64_MIN. lia. Qed.

Lemma mapped_prev r : run_ok r -> mapped r = true -> prev_ok (rl_lcn r).
Proof. unfold run_ok, mapped, prev_ok, LCN_HOLE. intros ? ?%Z.leb_le. lia. Qed.

(** The cap is a cut of the run. *)
Lemma cap_run_spec last r r1 :
  run_ok r -> rl_vcn r1 = rl_vcn r + rl_length r -> (0 <= last -> rl_vcn r <= last) ->
  cap_run last r r1 =
    if (last >=? 0) && (rl_vcn r + rl_length r >? last)
    then (Z.min (rl_length r) (last + 1 - rl_vcn r), true) else (rl_length r, false).
Proof.
  intros Hr E Hl. unfold cap_run. rewrite E. unfold run_ok, S64_MAX in Hr.
  destruct (Z.geb_spec last 0), (Z.gtb_spec (rl_vcn r + rl_length r) last); cbn [andb]; try done.
  rewrite (s64_id (last + 1)) by (unfold S64_MIN, S64_MAX; lia).
  destruct (Z.gtb_spec (rl_vcn r + rl_length r) (last + 1)); [|f_equal; lia].
  rewrite s64_id by (unfold S64_MIN, S64_MAX; lia). f_equal. lia.
Qed.

Lemma bad_run r :
  run_ok r -> (rl_length r <? 0) || (rl_lcn r <? LCN_HOLE) = negb (mapped r).
Proof.
  unfold run_ok, mapped. intros. destruct (Z.ltb_spec (rl_length r) 0); [lia|].
  cbn. by rewrite Z.leb_antisym, negb_involutive.
Qed.

Lemma bad_run_err r : run_ok r -> mapped r = false -> rl_err r = EINVAL.
Proof.
  unfold run_ok, mapped, rl_err, LCN_RL_NOT_MAPPED, LCN_HOLE. intros ? ?%Z.leb_gt.
  destruct (Z.eqb_spec (rl_lcn r) (-2)); [done|lia].
Qed.

(** The bytes of the first run of a list, and the lcn the next one refers to. *)
Definition run_delta (ver prev : Z) (r : runlist_element) : option Z :=
  if stores_lcn ver r then Some (rl_lcn r - prev) else None.
Definition next_prev (ver prev : Z) (r : runlist_element) : Z :=
  if stores_lcn ver r then rl_lcn r else prev.

Lemma enc_runs_cons ver prev r l :
  enc_runs ver prev (r :: l) =
    enc_pair (rl_length r) (run_delta ver prev r) ++ enc_runs ver (next_prev ver prev r) l.
Proof. cbn [enc_runs]. unfold run_delta, next_prev. by destruct (stores_lcn ver r). Qed.

Lemma run_delta_ok ver prev r :
  run_ok r -> mapped r = true -> prev_ok prev -> forall d, run_delta ver prev r = Some d -> s64_ok d.
Proof.
  intros Hr Hm Hp d. unfold run_delta. destruct (stores_lcn ver r); [|done].
  intros [= <-]. by apply delta_ok.
Qed.

Lemma next_prev_ok ver prev r :
  run_ok r -> mapped r = true -> prev_ok prev -> prev_ok (next_prev ver prev r).
Proof. intros. unfold next_prev. destruct (stores_lcn ver r); [by apply mapped_prev|done]. Qed.

(** Setting the length of a run changes nothing but the length. *)
Lemma run_delta_len ver prev r n : run_delta ver prev (set_length n r) = run_delta ver prev r.
Proof. done. Qed.

Section Size.
Context (vol : ntfs_volume) (last : Z) (t : runlist_element) (slack : list runlist_element).
Let ver := vol_major_ver vol.
Hypothesis Ht : rl_length t = 0.

Lemma size_runs_end fuel pre l i rls prev :
  i = zlen pre -> (0 < fuel)%nat ->
  size_runs fuel vol (pre ++ l ++ t :: slack) last i rls prev true = Ret rls.
Proof.
  intros -> Hf. destruct fuel; [lia|]. cbn [size_runs].
  destruct (rd_in_range (pre ++ l ++ t :: slack) (zlen pre)) as [r Hr]; [zlen_lia|].
  by rewrite Hr, bind_Ret, andb_false_r.
Qed.

Lemma size_runs_spec l : forall fuel pre v i rls prev,
  chain v l (rl_vcn t) -> (0 <= last -> v <= last) -> prev_ok prev ->
  i = zlen pre -> (length l < fuel)%nat ->
  size_runs fuel vol (pre ++ l ++ t :: slack) last i rls prev false =
    if forallb mapped (cut last l) then Ret (rls + zlen (enc_runs ver prev (cut last l)))
    else Errno EINVAL.
Proof.
  induction l as [|r l IH]; intros fuel pre v i rls prev Hch Hl Hp Hi Hf;
    (destruct fuel as [|fuel]; [cbn in Hf; lia|]); cbn [size_runs].
  { cbn [app cut forallb enc_runs]. rewrite (rd_at _ pre slack t i) by done.
    rewrite bind_Ret, Ht. cbn. rewrite (@zlen_nil Z). f_equal. lia. }
  destruct Hch as (Hv & Hr & Hch). cbn [length] in Hf.
  destruct (chain_head l t slack _ Hch) as (r1 & rest & Erest & Hr1).
  rewrite (rd_at _ pre (l ++ t :: slack) r i) by done.
  rewrite bind_Ret, run_ok_nonzero, bad_run by done. cbn [andb negb].
  assert (Em : forallb mapped (cut last (r :: l)) = mapped r && forallb mapped
    (if (last >=? 0) && (rl_vcn r + rl_length r >? last) then [] else cut last l))
    by (cbn [cut]; by destruct ((last >=? 0) && _)).
  rewrite Em. destruct (mapped r) eqn:Emap; cbn [negb andb]; [|by rewrite bad_run_err].
  rewrite (rd_at _ (pre ++ [r]) rest r1 (i + 1)); [|cbn [app]; rewrite Erest, <- app_assoc; done|zlen_lia].
  rewrite bind_Ret, (cap_run_spec last r r1) by (done || (rewrite Hr1; lia) || lia).
  cbn [cut]. change ((rl_lcn r >=? 0) || (vol_major_ver vol <? 3)) with (stores_lcn ver r).
  assert (Hpair : forall n, 0 < n <= rl_length r ->
    zlen (enc_pair n (run_delta ver prev r)) = 1 + ntfs_get_nr_significant_bytes n +
      if stores_lcn ver r then ntfs_get_nr_significant_bytes (s64 (rl_lcn r - prev)) else 0).
  { intros n Hn. rewrite zlen_enc_pair; [|unfold s64_ok, S64_MIN; unfold run_ok in Hr; lia
      |by apply run_delta_ok].
    unfold run_delta. destruct (stores_lcn ver r); [|done].
    rewrite s64_id by (apply delta_ok; done). done. }
  replace (pre ++ (r :: l) ++ t :: slack) with ((pre ++ [r]) ++ l ++ t :: slack) by (by rewrite <- app_assoc).
  destruct ((last >=? 0) && (rl_vcn r + rl_length r >? last)) eqn:Ecap; cbn [forallb];
    rewrite enc_runs_cons, zlen_app.
  - rewrite run_delta_len. cbn [set_length rl_length enc_runs].
    rewrite (@zlen_nil Z), Hpair by (unfold run_ok in Hr; lia).
    destruct (stores_lcn ver r); rewrite size_runs_end by zlen_lia; f_equal; lia.
  - rewrite Hpair by (unfold run_ok in Hr; lia). unfold next_prev.
    pose proof (next_prev_ok ver prev r Hr Emap Hp) as Hnp. unfold next_prev in Hnp.
    destruct (stores_lcn ver r);
      (erewrite IH; [|exact Hch|lia|done|zlen_lia|lia]); destruct (forallb mapped (cut last l));
      done || (f_equal; lia).
Qed.
End Size.

(** ** Finding the first run *)

Lemma skip_to_spec t slack first l : forall fuel pre v,
  rl_length t = 0 -> chain v l (rl_vcn t) -> v <= first -> (length l < fuel)%nat ->
  exists l1 l2 m, l = l1 ++ l2 /\ chain v l1 m /\ chain m l2 (rl_vcn t) /\ m <= first /\
    (forall r l', l2 = r :: l' -> first < rl_vcn r + rl_length r) /\
    from first l = from first l2 /\
    skip_to fuel (pre ++ l ++ t :: slack) first (zlen pre) = Ret (zlen pre + zlen l1).
Proof.
  induction l as [|r l IH]; intros fuel pre v Ht Hch Hv Hf;
    (destruct fuel as [|fuel]; [cbn in Hf; lia|]); cbn [skip_to].
  { exists [], [], v. split_and!; try done. cbn [app].
    rewrite (rd_at _ pre slack t (zlen pre)) by done. rewrite bind_Ret, Ht. cbn. by rewrite Z.add_0_r. }
  destruct Hch as (Hr0 & Hr & Hch). cbn [length] in Hf.
  destruct (chain_head l t slack _ Hch) as (r1 & rest & Erest & Hr1).
  rewrite (rd_at _ pre (l ++ t :: slack) r (zlen pre)) by done.
  rewrite bind_Ret, run_ok_nonzero by done.
  rewrite (rd_at _ (pre ++ [r]) rest r1 (zlen pre + 1));
    [|cbn [app]; rewrite Erest, <- app_assoc; done|zlen_lia].
  rewrite bind_Ret, Hr1. destruct (Z.geb_spec first (v + rl_length r)) as [Hge|Hlt].
  - destruct (IH fuel (pre ++ [r]) (v + rl_length r)) as (l1 & l2 & m & -> & H1 & H2 & Hm & Hh & Hfr & E);
      [done|done|lia|lia|].
    exists (r :: l1), l2, m. split_and!; try done. { cbn. rewrite Hr0.
      destruct (Z.geb_spec first (v + rl_length r)); [done|lia]. }
    replace (pre ++ (r :: l1 ++ l2) ++ t :: slack) with ((pre ++ [r]) ++ (l1 ++ l2) ++ t :: slack)
      by (by rewrite <- app_assoc).
    replace (zlen pre + 1) with (zlen (pre ++ [r])) by zlen_lia.
    cbn [app]. rewrite E. f_equal. zlen_lia.
  - exists [], (r :: l), v. split_and!; try done; [|f_equal; zlen_lia].
    intros r' l' [= <- <-]. lia.
Qed.

(** The first run of the window, when [first] lies inside a run [r]. *)
Definition tail_run (first : Z) (r : runlist_element) : runlist_element :=
  mk_rle first (run_lcn r first) (rl_length r - (first - rl_vcn r)).

Lemma tail_run_ok first r :
  run_ok r -> rl_vcn r <= first < rl_vcn r + rl_length r -> run_ok (tail_run first r).
Proof.
  intros Hr Hf. pose proof (run_ok_tail r (first - rl_vcn r) Hr) as Ht.
  replace (rl_vcn r + (first - rl_vcn r)) with first in Ht by lia. apply Ht. lia.
Qed.

Lemma tail_run_lcn first r :
  run_ok r -> rl_vcn r <= first < rl_vcn r + rl_length r ->
  mapped (tail_run first r) = mapped r /\ (forall ver, stores_lcn ver (tail_run first r) = stores_lcn ver r) /\
  (if rl_lcn r >=? 0 then s64 (rl_lcn r + s64 (first - rl_vcn r)) else rl_lcn r) = rl_lcn (tail_run first r).
Proof.
  intros Hr Hf. unfold run_ok, S64_MAX in Hr. unfold mapped, stores_lcn, tail_run, run_lcn, LCN_HOLE. cbn.
  destruct (Z.geb_spec (rl_lcn r) 0).
  - rewrite (s64_id (first - rl_vcn r)), s64_id by (unfold S64_MIN, S64_MAX; lia).
    split_and!; [lia|intros; destruct (Z.geb_spec (rl_lcn r + (first - rl_vcn r)) 0); [done|lia]|lia].
  - split_and!; [done| |done]. intros. destruct (Z.geb_spec (rl_lcn r) 0); [lia|done].
Qed.

Lemma from_inside first r l :
  rl_vcn r <= first < rl_vcn r + rl_length r -> from first (r :: l) = tail_run first r :: l.
Proof.
  intros Hf. cbn. destruct (Z.geb_spec first (rl_vcn r + rl_length r)); [lia|].
  destruct (Z.gtb_spec first (rl_vcn r)); [done|].
  replace first with (rl_vcn r) by lia. unfold tail_run, run_lcn. rewrite Z.sub_diag, Z.sub_0_r, Z.add_0_r.
  destruct r as [? lcn ?]; cbn. by destruct (lcn >=? 0).
Qed.

(** The window, when [first] lies inside the first run: the cap on the partial
    run that both functions compute is a cut of its tail. *)
Lemma window_partial last first r r1 l :
  run_ok r -> rl_vcn r1 = rl_vcn r + rl_length r -> rl_vcn r <= first < rl_vcn r + rl_length r ->
  (0 <= last -> first <= last) ->
  exists n q, cap_run last r r1 = (n, (last >=? 0) && (rl_vcn r + rl_length r >? last)) /\
    q = set_length (s64 (n - s64 (first - rl_vcn r))) (tail_run first r) /\ run_ok q /\
    window first last (r :: l) =
      q :: if (last >=? 0) && (rl_vcn r + rl_length r >? last) then [] else cut last l.
Proof.
  intros Hr E Hf Hl. unfold window. rewrite cap_run_spec, from_inside by (done || lia). cbn [cut].
  replace (rl_vcn (tail_run first r) + rl_length (tail_run first r)) with (rl_vcn r + rl_length r)
    by (cbn; lia).
  pose proof (tail_run_ok first r Hr Hf) as Hok. unfold run_ok, S64_MAX in Hr.
  destruct ((last >=? 0) && (rl_vcn r + rl_length r >? last)) eqn:Ec; eexists; eexists;
    (split; [reflexivity|]); (split; [reflexivity|]);
    rewrite (s64_id (first - rl_vcn r)), s64_id by (unfold S64_MIN, S64_MAX; lia); split.
  - apply run_ok_prefix; [done|]. cbn. lia.
  - f_equal. unfold set_length. f_equal. cbn. lia.
  - apply run_ok_prefix; [done|]. cbn. lia.
  - done.
Qed.

(** The arguments both functions accept. *)
Definition window_args (first last w : Z) : Prop :=
  0 <= first <= w /\ -1 <= last /\ (0 <= last -> first <= last).

Lemma window_guards {A} first last w (k : outcome A) :
  window_args first last w ->
  (BUG_ON (first <? 0);; BUG_ON (last <? -1);; BUG_ON ((last >=? 0) && (first >? last));; k) = k.
Proof.
  intros (Hf & Hl & Hfl). unfold BUG_ON.
  destruct (Z.ltb_spec first 0); [lia|]. destruct (Z.ltb_spec last (-1)); [lia|].
  destruct (Z.geb_spec last 0), (Z.gtb_spec first last); cbn; done || lia.
Qed.

(** The partial first run of [ntfs_get_size_for_mapping_pairs]. *)
Lemma size_partial vol last first t slack pre r l fuel :
  rl_length t = 0 -> run_ok r -> chain (rl_vcn r + rl_length r) l (rl_vcn t) ->
  rl_vcn r <= first < rl_vcn r + rl_length r -> (0 <= last -> first <= last) -> (length l < fuel)%nat ->
  let b := pre ++ r :: l ++ t :: slack in
  let i := zlen pre in
  (if (rl_length r <? 0) || (rl_lcn r <? LCN_HOLE) then Errno (rl_err r)
   else
     r1 ← rd b (i + 1);
     let '(length, the_end) := cap_run last r r1 in
     let delta := s64 (first - rl_vcn r) in
     let rls := 1 + (1 + ntfs_get_nr_significant_bytes (s64 (length - delta))) in
     if (rl_lcn r >=? 0) || (vol_major_ver vol <? 3) then
       let prev_lcn := if rl_lcn r >=? 0 then s64 (rl_lcn r + delta) else rl_lcn r in
       size_runs fuel vol b last (i + 1) (rls + ntfs_get_nr_significant_bytes prev_lcn) prev_lcn the_end
     else size_runs fuel vol b last (i + 1) rls 0 the_end) =
  if forallb mapped (window first last (r :: l))
  then Ret (1 + zlen (enc_runs (vol_major_ver vol) 0 (window first last (r :: l))))
  else Errno EINVAL.
Proof.
  intros Ht Hr Hch Hf Hl Hfuel b i. subst b i.
  destruct (chain_head l t slack _ Hch) as (r1 & rest & Erest & Hr1).
  destruct (window_partial last first r r1 l) as (n & q & Hcap & Hq & Hok & ->); [done..|].
  destruct (tail_run_lcn first r Hr Hf) as (Hmap & Hst & Hlcn).
  assert (Hqm : mapped q = mapped r) by (by rewrite Hq, <- Hmap).
  rewrite bad_run by done. cbn [forallb]. rewrite Hqm.
  destruct (mapped r) eqn:Em; cbn [negb andb]; [|by rewrite bad_run_err].
  rewrite (rd_at _ (pre ++ [r]) rest r1 (zlen pre + 1));
    [|rewrite Erest, <- app_assoc; done|zlen_lia].
  rewrite bind_Ret, Hcap. cbv beta iota zeta. rewrite Hlcn.
  replace (s64 (n - s64 (first - rl_vcn r))) with (rl_length q) by (by rewrite Hq).
  change ((rl_lcn r >=? 0) || (vol_major_ver vol <? 3)) with (stores_lcn (vol_major_ver vol) r).
  rewrite <- Hst. replace (rl_lcn (tail_run first r)) with (rl_lcn q) by (by rewrite Hq).
  change (stores_lcn (vol_major_ver vol) (tail_run first r))
    with (stores_lcn (vol_major_ver vol) (set_length (s64 (n - s64 (first - rl_vcn r))) (tail_run first r))).
  rewrite <- Hq. set (ver := vol_major_ver vol) in *. clear Hq.
  assert (Hp0 : prev_ok 0) by (unfold prev_ok, S64_MAX; lia).
  pose proof (next_prev_ok ver 0 q Hok Hqm Hp0) as Hnp. unfold next_prev in Hnp.
  rewrite enc_runs_cons, zlen_app.
  rewrite zlen_enc_pair by (apply run_len_ok, Hok || by apply run_delta_ok).
  unfold run_delta, next_prev. rewrite Z.sub_0_r.
  replace (pre ++ r :: l ++ t :: slack) with ((pre ++ [r]) ++ l ++ t :: slack) by (by rewrite <- app_assoc).
  destruct ((last >=? 0) && (rl_vcn r + rl_length r >? last)) eqn:Ec; destruct (stores_lcn ver q).
  1,2: rewrite size_runs_end by (done || zlen_lia); cbn [forallb enc_runs]; rewrite (@zlen_nil Z); f_equal; lia.
  1,2: rewrite (size_runs_spec vol last t slack Ht l _ _ (rl_vcn r + rl_length r)) by (done || zlen_lia);
    fold ver; destruct (forallb mapped (cut last l)); [f_equal; lia|done].
Qed.

(** [ntfs_get_size_for_mapping_pairs] is the length of the specified array. *)
Lemma size_spec vol b l t v first last :
  holds b l t -> runlist_wf v l t -> v <= first -> window_args first last (rl_vcn t) ->
  ntfs_get_size_for_mapping_pairs vol (Some b) first last =
    if forallb mapped (window first last l)
    then Ret (zlen (mapping_pairs (vol_major_ver vol) (window first last l)))
    else Errno EINVAL.
Proof.
  intros [slack ->] [Hch Ht] Hv Hargs. unfold ntfs_get_size_for_mapping_pairs.
  rewrite (window_guards _ _ _ _ Hargs). destruct Hargs as (Hf & Hl & Hfl). destruct Ht as (Ht & _).
  destruct (skip_to_spec t slack first l (scan_fuel (l ++ t :: slack)) [] v)
    as (l1 & l2 & m & -> & H1 & H2 & Hm & Hh & Hfr & E); [done..|apply scan_fuel_ok|].
  cbn [app] in E. rewrite (@zlen_nil runlist_element), Z.add_0_l in E. rewrite E, bind_Ret. unfold window. rewrite Hfr. clear E Hfr.
  assert (Hfuel : (length l2 < scan_fuel ((l1 ++ l2) ++ t :: slack))%nat).
  { pose proof (scan_fuel_ok (l1 ++ l2) t slack) as Hs. rewrite length_app in Hs. lia. }
  rewrite <- app_assoc in *. unfold mapping_pairs.
  assert (Hlast : (0 <= last -> m <= last)) by lia.
  destruct l2 as [|r l2].
  { cbn [app]. rewrite (rd_at _ l1 slack t (zlen l1)) by done.
    cbn in H2. subst m. rewrite bind_Ret, Ht. destruct (Z.gtb_spec first (rl_vcn t)); [lia|].
    destruct (Z.ltb_spec first (rl_vcn t)); [lia|]. cbn [negb andb orb].
    rewrite (size_runs_spec vol last t slack Ht [] _ l1 (rl_vcn t)) by (done || zlen_lia).
    cbn. rewrite (@zlen_cons Z). f_equal. }
  rewrite (rd_at _ l1 (l2 ++ t :: slack) r (zlen l1)) by done.
  destruct H2 as (<- & Hr & Hch2). pose proof (Hh _ _ eq_refl) as Hin.
  rewrite bind_Ret. pose proof (run_ok_nonzero r Hr) as Hz. apply negb_true_iff in Hz. rewrite Hz.
  destruct (Z.ltb_spec first (rl_vcn r)); [lia|]. cbn [andb orb].
  destruct (Z.gtb_spec first (rl_vcn r)) as [Hpart|].
  - change (cut last (from first (r :: l2))) with (window first last (r :: l2)).
    rewrite (size_partial vol last first t slack l1 r l2) by (done || lia || (cbn [length] in Hfuel; lia)).
    destruct (forallb mapped _); [|done]. f_equal. zlen_lia.
  - replace (from first (r :: l2)) with (r :: l2).
    2:{ cbn. destruct (Z.geb_spec first (rl_vcn r + rl_length r)); [lia|].
        destruct (Z.gtb_spec first (rl_vcn r)); [lia|done]. }
    rewrite (size_runs_spec vol last t slack Ht (r :: l2) _ l1 (rl_vcn r))
      by (done || zlen_lia || (unfold prev_ok, S64_MAX; lia)).
    destruct (forallb mapped _); [|done]. f_equal. zlen_lia.
Qed.
