(* ===== verification/MappingPairsBuild.v ===== *)
(** * Building a mapping pairs array

    [ntfs_write_significant_bytes] and [ntfs_mapping_pairs_build] write the array
    specified in [MappingPairsSpec], and never outside the buffer they are given. *)

From Stdlib Require Import ZArith Lia Bool.
From stdpp Require Import base list numbers option.
From S2P Require Import Prelude Endian Runlist RunlistSpec MappingPairs MappingPairsSpec.

(** ** One number *)

Lemma mask_byte l : Z.land l 0xff = l mod 0x100.
Proof. change 0xff with (Z.ones 8). by rewrite Z.land_ones. Qed.

Lemma shift_byte l : Z.shiftr l 8 = l / 0x100.
Proof. by rewrite Z.shiftr_div_pow2. Qed.

(** The count of [sig_loop] does not depend on where it starts. *)
Lemma sig_loop_shift fuel l i : sig_loop fuel l i = i + sig_loop fuel l 0.
Proof.
  revert l i. induction fuel as [|fuel IH]; intros l i; cbn [sig_loop]; [lia|].
  destruct (negb _ && negb _); [|lia]. rewrite (IH _ (i + 1)), (IH _ (0 + 1)). lia.
Qed.

Lemma sig_loop_pos fuel l : (0 < fuel)%nat -> 1 <= sig_loop fuel l 0.
Proof.
  revert l. induction fuel as [|fuel IH]; intros l Hf; [lia|]. cbn [sig_loop].
  destruct (negb _ && negb _); [|lia]. rewrite sig_loop_shift.
  destruct fuel; [cbn; lia|]. specialize (IH (Z.shiftr l 8)). lia.
Qed.

(** The writing loop, with [mid] the bytes from @dst up to @dst_max. *)
Lemma wsb_loop_spec fuel : forall pre mid post dst dst_max l i,
  - 2 ^ (8 * Z.of_nat fuel) <= l < 2 ^ (8 * Z.of_nat fuel) -> (0 < fuel)%nat ->
  dst = zlen pre -> dst_max = zlen pre + zlen mid - 1 ->
  let k := sig_loop fuel l 0 in
  exists mid', zlen mid' = zlen mid /\
    wsb_loop fuel (pre ++ mid ++ post) dst dst_max l i =
      Ret (pre ++ mid' ++ post, if k <=? zlen mid then Some (i + k) else None) /\
    (k <= zlen mid -> mid' = le_split (Z.to_nat k) l ++ drop (Z.to_nat k) mid).
Proof.
  induction fuel as [|fuel IH]; intros pre mid post dst dst_max l i Hl Hf Hd Hm k; [lia|].
  pose proof (sig_loop_pos (S fuel) l Hf) as Hk. fold k in Hk.
  cbn [wsb_loop]. destruct mid as [|x mid].
  { exists []. split; [done|]. destruct (Z.gtb_spec dst dst_max); [|rewrite @zlen_nil in *; lia].
    rewrite @zlen_nil. destruct (Z.leb_spec k 0); [lia|]. split; [done|lia]. }
  destruct (Z.gtb_spec dst dst_max); [zlen_lia|].
  cbn [app]. rewrite wr_mid, bind_Ret by done. rewrite mask_byte.
  pose proof (shift8_end l) as Hend. unfold k. cbn [sig_loop].
  destruct (negb (Z.shiftr l 8 =? 0) && negb (Z.shiftr l 8 =? -1)) eqn:E.
  - rewrite sig_loop_shift. replace (0 + 1) with 1 by done.
    replace (Z.of_nat (S fuel)) with (Z.of_nat fuel + 1) in Hl by lia.
    apply shift8_range in Hl; [|lia].
    destruct fuel as [|fuel]; [cbn in Hl; lia|].
    destruct (IH (pre ++ [l mod 0x100]) mid post (dst + 1) dst_max (Z.shiftr l 8) (i + 1))
      as (mid' & Hlen & Hw & Hmid); [done|lia|zlen_lia|zlen_lia|].
    set (k' := sig_loop (S fuel) (Z.shiftr l 8) 0) in *.
    assert (1 <= k') by (apply sig_loop_pos; lia).
    exists (l mod 0x100 :: mid'). split; [zlen_lia|].
    rewrite <- !app_assoc in Hw. cbn [app] in Hw |- *. rewrite Hw. split.
    + rewrite zlen_cons. destruct (Z.leb_spec k' (zlen mid)), (Z.leb_spec (1 + k') (1 + zlen mid)); try lia; [|done].
      by replace (i + 1 + k') with (i + (1 + k')) by lia.
    + intros Hle. rewrite Hmid by zlen_lia. replace (Z.to_nat (1 + k')) with (S (Z.to_nat k')) by lia.
      cbn [le_split app drop]. by rewrite shift_byte.
  - exists (l mod 0x100 :: mid). split; [zlen_lia|]. rewrite zlen_cons.
    change (0 + 1) with 1. destruct (Z.leb_spec 1 (1 + zlen mid)); [|zlen_lia]. split; done.
Qed.

(** The bytes left by the loop, and the extra byte for the sign. *)
Lemma enc_num_cases n :
  s64_ok n -> let i := sig_loop SIG_FUEL n 0 in
  let j := s8 (Z.land (Z.shiftr n (8 * (i - 1))) 0xff) in
  1 <= i <= 8 /\
  enc_num n = le_split (Z.to_nat i) n ++
    (if (n <? 0) && (j >=? 0) then [0xff] else if (n >? 0) && (j <? 0) then [0] else []).
Proof.
  intros Hn i j. unfold s64_ok, S64_MIN, S64_MAX in Hn.
  destruct (sig_loop_spec SIG_FUEL n 0) as (k & Hi & Hr & Hin & _);
    [unfold SIG_FUEL; lia|unfold SIG_FUEL; simpl; lia|].
  fold i in Hi. rewrite Z.add_0_l in Hi. subst k. unfold SIG_FUEL in Hr.
  split; [lia|]. unfold enc_num, ntfs_get_nr_significant_bytes. fold i j.
  assert (Hdiv : n / 2 ^ (8 * Z.of_nat (Z.to_nat i)) = if n <? 0 then -1 else 0).
  { rewrite Z2Nat.id by lia. destruct (Z.ltb_spec n 0); [|apply Z.div_small; lia].
    symmetry. apply Z.div_unique with (n + 2 ^ (8 * i)); lia. }
  assert (Hsucc : le_split (Z.to_nat (i + 1)) n =
    le_split (Z.to_nat i) n ++ [(if n <? 0 then -1 else 0) mod 0x100]).
  { replace (Z.to_nat (i + 1)) with (S (Z.to_nat i)) by lia. by rewrite le_split_snoc, Hdiv. }
  destruct (Z.ltb_spec n 0), (Z.gtb_spec n 0), (Z.geb_spec j 0), (Z.ltb_spec j 0); cbn [andb orb];
    try lia; rewrite ?app_nil_r; done.
Qed.

(** [ntfs_write_significant_bytes]: the bytes of the number when they fit, and
    nothing beyond @dst_max in any case. *)
Lemma write_sig_spec pre mid post dst dst_max n :
  s64_ok n -> dst = zlen pre -> dst_max = zlen pre + zlen mid - 1 ->
  exists mid', zlen mid' = zlen mid /\
    ntfs_write_significant_bytes (pre ++ mid ++ post) dst dst_max n =
      Ret (pre ++ mid' ++ post, if zlen (enc_num n) <=? zlen mid then zlen (enc_num n) else - ENOSPC) /\
    (zlen (enc_num n) <= zlen mid -> mid' = enc_num n ++ drop (length (enc_num n)) mid).
Proof.
  intros Hn Hd Hm. destruct (enc_num_cases n Hn) as [Hi He].
  destruct (wsb_loop_spec SIG_FUEL pre mid post dst dst_max n 0) as (mid1 & Hlen & Hw & Hmid);
    [unfold s64_ok, S64_MIN, S64_MAX in Hn; unfold SIG_FUEL; simpl; lia|unfold SIG_FUEL; lia|done..|].
  set (i := sig_loop SIG_FUEL n 0) in *. unfold ntfs_write_significant_bytes.
  rewrite Hw, bind_Ret. clear Hw.
  assert (Hz : zlen (le_split (Z.to_nat i) n) = i) by (rewrite zlen_le_split; lia).
  destruct (Z.leb_spec i (zlen mid)) as [Hfit|Hno]; cbv beta iota zeta.
  2:{ exists mid1. split; [done|]. destruct (Z.leb_spec (zlen (enc_num n)) (zlen mid)) as [Hc|]; [|split; [done|lia]].
      rewrite He, zlen_app in Hc. zlen_lia. }
  rewrite Z.add_0_l. set (j := s8 _) in *. specialize (Hmid Hfit).
  assert (Hextra : forall x, enc_num n = le_split (Z.to_nat i) n ++ [x] ->
    exists mid', zlen mid' = zlen mid /\
      (if dst + i >? dst_max then Ret (pre ++ mid1 ++ post, - ENOSPC)
       else mem ← wr (pre ++ mid1 ++ post) (dst + i) x; Ret (mem, i + 1)) =
      Ret (pre ++ mid' ++ post, if zlen (enc_num n) <=? zlen mid then zlen (enc_num n) else - ENOSPC) /\
      (zlen (enc_num n) <= zlen mid -> mid' = enc_num n ++ drop (length (enc_num n)) mid)).
  { intros x Hx. rewrite Hx, zlen_app, Hz, zlen_cons, @zlen_nil.
    destruct (Z.gtb_spec (dst + i) dst_max).
    - exists mid1. destruct (Z.leb_spec (i + (1 + 0)) (zlen mid)); [lia|]. split; [done|]. split; [done|lia].
    - destruct (drop (Z.to_nat i) mid) as [|y m2] eqn:Ed.
      { apply (f_equal length) in Ed. rewrite length_drop in Ed. cbn [length] in Ed. unfold zlen in *. lia. }
      exists (le_split (Z.to_nat i) n ++ x :: m2). subst mid1. split; [zlen_lia|].
      destruct (Z.leb_spec (i + (1 + 0)) (zlen mid)); [|lia].
      rewrite (wr_at _ (pre ++ le_split (Z.to_nat i) n) (m2 ++ post) y); [|by rewrite <- !app_assoc|zlen_lia].
      rewrite bind_Ret. split; [rewrite <- !app_assoc; by replace (i + (1 + 0)) with (i + 1) by lia|].
      intros _. rewrite <- app_assoc, length_app, length_le_split. cbn [app length].
      rewrite <- (drop_drop mid 1 (Z.to_nat i)), Ed. done. }
  destruct ((n <? 0) && (j >=? 0)); [by apply Hextra|].
  destruct ((n >? 0) && (j <? 0)); [by apply Hextra|].
  exists mid1. split; [done|]. rewrite He, app_nil_r, Hz, length_le_split.
  destruct (Z.leb_spec i (zlen mid)); [|lia]. split; done.
Qed.

(** ** One pair *)

Lemma header_byte a b :
  0 <= a <= 8 -> 1 <= b <= 8 -> u8 (Z.lor (Z.shiftl a 4) b) = 16 * a + b.
Proof.
  intros Ha Hb.
  assert (a = 0 \/ a = 1 \/ a = 2 \/ a = 3 \/ a = 4 \/ a = 5 \/ a = 6 \/ a = 7 \/ a = 8) as Ea by lia.
  assert (b = 1 \/ b = 2 \/ b = 3 \/ b = 4 \/ b = 5 \/ b = 6 \/ b = 7 \/ b = 8) as Eb by lia.
  destruct_or! Ea; destruct_or! Eb; by subst.
Qed.

(** The optional lcn change. *)
Definition enc_delta (delta : option Z) : list Z :=
  match delta with Some d => enc_num d | None => [] end.

Lemma write_delta_spec pre mid post dst dst_max delta :
  (forall d, delta = Some d -> s64_ok d) -> dst = zlen pre -> dst_max = zlen pre + zlen mid - 1 ->
  exists mid', zlen mid' = zlen mid /\
    (match delta with
     | Some d => ntfs_write_significant_bytes (pre ++ mid ++ post) dst dst_max d
     | None => Ret (pre ++ mid ++ post, 0)
     end) =
      Ret (pre ++ mid' ++ post,
           if zlen (enc_delta delta) <=? zlen mid then zlen (enc_delta delta) else - ENOSPC) /\
    (zlen (enc_delta delta) <= zlen mid ->
     mid' = enc_delta delta ++ drop (length (enc_delta delta)) mid).
Proof.
  intros Hd Hdst Hmax. destruct delta as [d|]; [apply write_sig_spec; auto|].
  exists mid. split; [done|]. cbn [enc_delta]. rewrite (@zlen_nil Z).
  destruct (Z.leb_spec 0 (zlen mid)); [done|zlen_lia].
Qed.

Lemma enc_delta_len delta :
  (forall d, delta = Some d -> s64_ok d) -> 0 <= zlen (enc_delta delta) <= 8.
Proof.
  intros Hd. destruct delta as [d|]; [|unfold zlen; cbn; lia]. cbn [enc_delta].
  rewrite zlen_enc_num by auto. destruct (nr_significant_spec d); [auto|lia].
Qed.

Lemma mpb_pair_spec pre mid post dst dst_max len delta :
  s64_ok len -> (forall d, delta = Some d -> s64_ok d) ->
  dst = zlen pre -> dst_max = zlen pre + zlen mid - 1 -> 0 < zlen mid ->
  exists mid', zlen mid' = zlen mid /\
    mpb_pair (pre ++ mid ++ post) dst dst_max len delta =
      Ret (pre ++ mid' ++ post,
           if zlen (enc_pair len delta) <? zlen mid then Some (dst + zlen (enc_pair len delta)) else None) /\
    (zlen (enc_pair len delta) < zlen mid ->
     mid' = enc_pair len delta ++ drop (length (enc_pair len delta)) mid).
Proof.
  intros Hlen Hdelta Hd Hmax Hmid. unfold enc_pair. fold (enc_delta delta).
  pose proof (enc_delta_len delta Hdelta) as HD.
  pose proof (zlen_enc_num len Hlen) as HL. destruct (nr_significant_spec len Hlen) as [Hnr _].
  set (h := 16 * zlen (enc_delta delta) + ntfs_get_nr_significant_bytes len).
  set (e := enc_num len) in *. set (d := enc_delta delta) in *.
  rewrite zlen_cons, zlen_app. unfold mpb_pair.
  destruct mid as [|x mid]; [rewrite @zlen_nil in Hmid; lia|].
  destruct (write_sig_spec (pre ++ [x]) mid post (dst + 1) dst_max len Hlen) as (m1 & Hm1 & Hw1 & He1);
    [zlen_lia|zlen_lia|]. fold e in Hw1, He1.
  replace (pre ++ (x :: mid) ++ post) with ((pre ++ [x]) ++ mid ++ post) by (by rewrite <- app_assoc).
  rewrite Hw1, bind_Ret. clear Hw1. cbv beta iota zeta. rewrite zlen_cons.
  destruct (Z.leb_spec (zlen e) (zlen mid)) as [Hfit|].
  2:{ cbn. exists (x :: m1). split; [zlen_lia|]. rewrite <- app_assoc.
      destruct (Z.ltb_spec (1 + (zlen e + zlen d)) (1 + zlen mid)); [lia|]. split; [done|lia]. }
  destruct (Z.ltb_spec (zlen e) 0); [lia|]. rewrite He1 by done.
  set (m2 := drop (length e) mid). assert (Hm2 : zlen m2 = zlen mid - zlen e).
  { unfold m2, zlen in *. rewrite length_drop. lia. }
  destruct (write_delta_spec ((pre ++ [x]) ++ e) m2 post (dst + 1 + zlen e) dst_max delta Hdelta)
    as (m3 & Hm3 & Hw2 & He2); [zlen_lia|zlen_lia|]. fold d in Hw2, He2.
  replace ((pre ++ [x]) ++ (e ++ m2) ++ post) with (((pre ++ [x]) ++ e) ++ m2 ++ post)
    by (by rewrite <- !app_assoc).
  rewrite Hw2, bind_Ret. clear Hw2. cbv beta iota zeta.
  destruct (Z.leb_spec (zlen d) (zlen m2)) as [Hfit2|].
  2:{ cbn. exists (x :: e ++ m3). split; [zlen_lia|]. rewrite <- !app_assoc.
      destruct (Z.ltb_spec (1 + (zlen e + zlen d)) (1 + zlen mid)); [lia|]. split; [by cbn; rewrite <- app_assoc|lia]. }
  destruct (Z.ltb_spec (zlen d) 0); [lia|].
  destruct (Z.gtb_spec (dst + zlen e + zlen d + 1) dst_max).
  { exists (x :: e ++ m3). split; [zlen_lia|]. rewrite <- !app_assoc.
    destruct (Z.ltb_spec (1 + (zlen e + zlen d)) (1 + zlen mid)); [zlen_lia|]. split; [by cbn; rewrite <- app_assoc|lia]. }
  rewrite (wr_at _ pre ((e ++ m3) ++ post) x) by (by rewrite <- !app_assoc || done).
  rewrite bind_Ret, header_byte by lia. exists (h :: e ++ m3). split; [zlen_lia|].
  destruct (Z.ltb_spec (1 + (zlen e + zlen d)) (1 + zlen mid)); [|zlen_lia].
  unfold h. rewrite HL. split; [cbn; do 3 f_equal; lia|]. intros _. f_equal.
  rewrite He2 by done. unfold m2. cbn [app length drop]. rewrite <- app_assoc, length_app, drop_drop. done.
Qed.

(** ** All the runs *)

(** The vcn stored in *@stop_vcn on success: the end of the last run used. *)
Fixpoint stop_of (last w : Z) (l : list runlist_element) : Z :=
  match l with
  | [] => w
  | r :: l =>
      if (last >=? 0) && (rl_vcn r + rl_length r >? last) then rl_vcn r + rl_length r
      else stop_of last w l
  end.

(** [built ver prev start l stop mid mid' st ret]: building the pairs of [l] in
    the space [mid] leaves [mid'].  Either all of them are there, followed by the
    terminator, or the first ones are and the next one does not fit.  [start] is
    the vcn of the element the first run of [l] was taken from. *)
Definition built (ver prev start : Z) (l : list runlist_element) (stop : Z) (mid mid' : list Z)
    (st ret : Z) : Prop :=
  zlen mid' = zlen mid /\ exists l1 l2 junk, l = l1 ++ l2 /\
    mid' = enc_runs ver prev l1 ++ 0 :: junk /\
    match l2 with
    | [] => ret = 0 /\ st = stop
    | r :: _ =>
        ret = - ENOSPC /\ st = (if decide (l1 = []) then start else rl_vcn r) /\
        zlen mid <= zlen (enc_runs ver prev (l1 ++ [r]))
    end.

Lemma built_done ver prev start stop x mid : built ver prev start [] stop (x :: mid) (0 :: mid) stop 0.
Proof. split; [zlen_lia|]. exists [], [], mid. done. Qed.

Lemma built_full ver prev start r l stop x mid x' mid' :
  zlen mid' = zlen mid -> 1 + zlen mid <= zlen (enc_pair (rl_length r) (run_delta ver prev r)) ->
  x' = 0 -> built ver prev start (r :: l) stop (x :: mid) (x' :: mid') start (- ENOSPC).
Proof.
  intros Hm Hno ->. split; [zlen_lia|]. exists [], (r :: l), mid'. split_and!; [done..|].
  cbn [app]. rewrite enc_runs_cons. zlen_lia.
Qed.

Lemma built_cons ver prev start start' r l stop mid mid2 mid' st ret :
  let p := enc_pair (rl_length r) (run_delta ver prev r) in
  zlen mid = zlen p + zlen mid2 -> (forall q l', l = q :: l' -> rl_vcn q = start') ->
  built ver (next_prev ver prev r) start' l stop mid2 mid' st ret ->
  built ver prev start (r :: l) stop mid (p ++ mid') st ret.
Proof.
  intros p Hz Hhd (Hlen & l1 & l2 & junk & -> & -> & Hr). split; [zlen_lia|].
  exists (r :: l1), l2, junk. split; [done|]. rewrite enc_runs_cons. fold p.
  split; [by rewrite <- app_assoc|]. destruct l2 as [|q l2]; [done|].
  destruct Hr as (-> & -> & Hno). split_and!; [done| |].
  - destruct (decide (l1 = [])) as [->|]; [|by rewrite decide_False].
    rewrite decide_False by done. symmetry. by eapply Hhd.
  - cbn [app]. rewrite enc_runs_cons. fold p. zlen_lia.
Qed.

Lemma mpb_stop_spec pre x mid post dst r err :
  dst = zlen pre ->
  mpb_stop_at (pre ++ (x :: mid) ++ post) dst r err =
    Ret (mk_mpb (pre ++ (0 :: mid) ++ post) (Some (rl_vcn r)) err).
Proof. intros Hd. unfold mpb_stop_at. cbn [app]. by rewrite wr_mid. Qed.

(** What a run has to satisfy for its pair to be written. *)
Lemma pair_step ver prev q pre mid post dst dst_max :
  run_ok q -> mapped q = true -> prev_ok prev ->
  dst = zlen pre -> dst_max = zlen pre + zlen mid - 1 -> 0 < zlen mid ->
  let p := enc_pair (rl_length q) (run_delta ver prev q) in
  (exists mid2, zlen mid = zlen p + zlen mid2 /\ 0 < zlen mid2 /\
     mpb_pair (pre ++ mid ++ post) dst dst_max (rl_length q)
       (if stores_lcn ver q then Some (s64 (rl_lcn q - prev)) else None) =
       Ret ((pre ++ p) ++ mid2 ++ post, Some (dst + zlen p))) \/
  (exists x mid', 1 + zlen mid' = zlen mid /\ zlen mid <= zlen p /\
     mpb_pair (pre ++ mid ++ post) dst dst_max (rl_length q)
       (if stores_lcn ver q then Some (s64 (rl_lcn q - prev)) else None) =
       Ret (pre ++ (x :: mid') ++ post, None)).
Proof.
  intros Hq Hm Hp Hd Hmax Hmid p.
  assert (E : (if stores_lcn ver q then Some (s64 (rl_lcn q - prev)) else None) = run_delta ver prev q).
  { unfold run_delta. destruct (stores_lcn ver q); [|done]. by rewrite s64_id by (by apply delta_ok). }
  rewrite E.
  destruct (mpb_pair_spec pre mid post dst dst_max (rl_length q) (run_delta ver prev q))
    as (mid' & Hlen & Hw & Hmid'); [by apply run_len_ok|by apply run_delta_ok|done..|].
  fold p in Hw, Hmid'. rewrite Hw. destruct (Z.ltb_spec (zlen p) (zlen mid)) as [Hlt|Hge].
  - left. rewrite Hmid' in Hlen |- * by done. exists (drop (length p) mid).
    rewrite zlen_app in Hlen. split; [lia|]. split; [lia|]. by rewrite <- !app_assoc.
  - right. destruct mid' as [|x mid']; [rewrite (@zlen_nil Z) in Hlen; lia|].
    exists x, mid'. split; [zlen_lia|]. done.
Qed.

Lemma cut_head last v l w q l' : chain v l w -> cut last l = q :: l' -> rl_vcn q = v.
Proof.
  destruct l as [|r l]; [done|]. cbn [cut chain]. intros (Hv & _).
  destruct ((last >=? 0) && _); intros [= <- <-]; done.
Qed.

Section Build.
Context (vol : ntfs_volume) (last dst_max : Z) (t : runlist_element) (slack : list runlist_element).
Let ver := vol_major_ver vol.
Hypothesis Ht : rl_length t = 0.

(** The runs after the last one the window uses do not matter. *)
Lemma mpb_runs_end fuel pre mid post dst (bpre : rl_buf) r brest i prev :
  dst = zlen pre -> 0 < zlen mid -> i = zlen bpre -> (0 < fuel)%nat ->
  exists mid', mpb_runs fuel vol (pre ++ mid ++ post) dst dst_max (bpre ++ r :: brest) last i prev true =
    Ret (mk_mpb (pre ++ mid' ++ post) (Some (rl_vcn r)) 0) /\
    built ver prev 0 [] (rl_vcn r) mid mid' (rl_vcn r) 0.
Proof.
  intros Hd Hm -> Hf. destruct fuel; [lia|]. cbn [mpb_runs].
  rewrite (rd_at _ bpre brest r (zlen bpre)), bind_Ret, andb_false_r by done.
  destruct mid as [|x mid]; [rewrite (@zlen_nil Z) in Hm; lia|].
  rewrite mpb_stop_spec by done. eexists. split; [done|]. apply built_done.
Qed.

Lemma mpb_runs_spec l : forall fuel pre mid post dst bpre v i prev,
  chain v l (rl_vcn t) -> (0 <= last -> v <= last) -> prev_ok prev ->
  i = zlen bpre -> (length l < fuel)%nat -> forallb mapped (cut last l) = true ->
  dst = zlen pre -> dst_max = zlen pre + zlen mid - 1 -> 0 < zlen mid ->
  exists mid' st ret,
    mpb_runs fuel vol (pre ++ mid ++ post) dst dst_max (bpre ++ l ++ t :: slack) last i prev false =
      Ret (mk_mpb (pre ++ mid' ++ post) (Some st) ret) /\
    built ver prev v (cut last l) (stop_of last (rl_vcn t) l) mid mid' st ret.
Proof.
  induction l as [|r l IH]; intros fuel pre mid post dst bpre v i prev Hch Hl Hp Hi Hf Hmap Hd Hmax Hmid;
    (destruct fuel as [|fuel]; [cbn in Hf; lia|]); cbn [mpb_runs].
  { cbn [app cut stop_of]. rewrite (rd_at _ bpre slack t i) by done. rewrite bind_Ret, Ht.
    destruct mid as [|x mid]; [rewrite (@zlen_nil Z) in Hmid; lia|].
    change (negb (0 =? 0) && negb false) with false. cbv iota.
    rewrite mpb_stop_spec by done. do 3 eexists. split; [done|]. apply built_done. }
  destruct Hch as (Hv & Hr & Hch). cbn [length] in Hf.
  destruct (chain_head l t slack _ Hch) as (r1 & rest & Erest & Hr1).
  rewrite (rd_at _ bpre (l ++ t :: slack) r i) by done.
  rewrite bind_Ret, run_ok_nonzero, bad_run by done. cbn [andb negb].
  cbn [cut stop_of] in Hmap |- *.
  rewrite (rd_at _ (bpre ++ [r]) rest r1 (i + 1));
    [|cbn [app]; rewrite Erest, <- app_assoc; done|zlen_lia].
  rewrite (bind_Ret r1), (cap_run_spec last r r1) by (done || (rewrite Hr1; lia) || lia).
  replace (bpre ++ (r :: l) ++ t :: slack) with ((bpre ++ [r]) ++ l ++ t :: slack)
    by (by rewrite <- app_assoc).
  change ((rl_lcn r >=? 0) || (vol_major_ver vol <? 3)) with (stores_lcn ver r).
  destruct ((last >=? 0) && (rl_vcn r + rl_length r >? last)) eqn:Ecap.
  - set (q := set_length _ r) in *.
    assert (Hq : run_ok q) by (apply run_ok_prefix; [done|]; unfold run_ok in Hr; lia).
    cbn [forallb] in Hmap. apply andb_true_iff in Hmap as [Hm _].
    change (mapped r) with (mapped q). rewrite Hm. cbn [negb].
    change (stores_lcn ver r) with (stores_lcn ver q). change (rl_lcn r) with (rl_lcn q).
    destruct (pair_step ver prev q pre mid post dst dst_max)
      as [(mid2 & Hz & Hm2 & Hw)|(x & mid' & Hz & Hno & Hw)]; [done..| |];
      cbn [q set_length rl_length] in Hw; rewrite Hw, bind_Ret; clear Hw.
    + rewrite Erest.
      set (p := enc_pair (rl_length q) (run_delta ver prev q)) in *.
      destruct (mpb_runs_end fuel (pre ++ p) mid2 post (dst + zlen p) (bpre ++ [r]) r1 rest (i + 1)
        (next_prev ver prev q)) as (mid' & E & Hb); [zlen_lia|done|zlen_lia|lia|].
      exists (p ++ mid'), (rl_vcn r1), 0.
      split; [etrans; [exact E|by rewrite <- !app_assoc]|]. rewrite Hr1, <- Hv in *. by eapply (built_cons _ _ _ 0).
    + rewrite mpb_stop_spec by done. do 3 eexists. split; [done|].
      destruct mid as [|y mid]; [rewrite (@zlen_nil Z) in Hmid; lia|].
      rewrite Hv. apply built_full; zlen_lia.
  - cbn [forallb] in Hmap. apply andb_true_iff in Hmap as [Hm Hmap]. rewrite Hm. cbn [negb].
    destruct (pair_step ver prev r pre mid post dst dst_max)
      as [(mid2 & Hz & Hm2 & ->)|(x & mid' & Hz & Hno & ->)]; [done..| |]; rewrite bind_Ret.
    + fold (next_prev ver prev r).
      edestruct (IH fuel (pre ++ enc_pair (rl_length r) (run_delta ver prev r)) mid2)
        as (mid' & st & ret & -> & Hb); [exact Hch|lia|by apply next_prev_ok|zlen_lia|lia|done|zlen_lia..|].
      exists (enc_pair (rl_length r) (run_delta ver prev r) ++ mid'), st, ret.
      split; [by rewrite <- !app_assoc|]. eapply built_cons; [done| |exact Hb]. intros q l'. by eapply cut_head.
    + rewrite mpb_stop_spec by done. do 3 eexists. split; [done|].
      destruct mid as [|y mid]; [rewrite (@zlen_nil Z) in Hmid; lia|].
      rewrite Hv. apply built_full; zlen_lia.
Qed.
End Build.

(** ** The whole function *)

(** The partial first run of [ntfs_mapping_pairs_build]. *)
Lemma build_partial vol last first t slack bpre r l fuel mid post :
  rl_length t = 0 -> run_ok r -> chain (rl_vcn r + rl_length r) l (rl_vcn t) ->
  rl_vcn r <= first < rl_vcn r + rl_length r -> (0 <= last -> first <= last) -> (length l < fuel)%nat ->
  forallb mapped (window first last (r :: l)) = true -> 0 < zlen mid ->
  let b := bpre ++ r :: l ++ t :: slack in
  let i := zlen bpre in
  let dst_max := zlen mid - 1 in
  let ver := vol_major_ver vol in
  exists mid' st ret,
  (if (rl_length r <? 0) || (rl_lcn r <? LCN_HOLE) then Ret (mk_mpb (mid ++ post) None (- rl_err r))
   else
     r1 ← rd b (i + 1);
     let '(length, the_end) := cap_run last r r1 in
     let delta := s64 (first - rl_vcn r) in
     let store := (rl_lcn r >=? 0) || (vol_major_ver vol <? 3) in
     let prev_lcn :=
       if store then (if rl_lcn r >=? 0 then s64 (rl_lcn r + delta) else rl_lcn r) else 0 in
     '(mem, next) ← mpb_pair (mid ++ post) 0 dst_max (s64 (length - delta))
                      (if store then Some prev_lcn else None);
     match next with
     | None => mpb_stop_at mem 0 r (- ENOSPC)
     | Some dst => mpb_runs fuel vol mem dst dst_max b last (i + 1) prev_lcn the_end
     end) = Ret (mk_mpb (mid' ++ post) (Some st) ret) /\
  built ver 0 (rl_vcn r) (window first last (r :: l)) (stop_of last (rl_vcn t) (r :: l)) mid mid' st ret.
Proof.
  intros Ht Hr Hch Hf Hl Hfuel Hmap Hmid b i dst_max ver. subst b i.
  destruct (chain_head l t slack _ Hch) as (r1 & rest & Erest & Hr1).
  destruct (window_partial last first r r1 l) as (n & q & Hcap & Hq & Hok & Hw); [done..|].
  rewrite Hw in Hmap |- *. clear Hw.
  destruct (tail_run_lcn first r Hr Hf) as (Hmr & Hst & Hlcn).
  cbn [forallb] in Hmap. apply andb_true_iff in Hmap as [Hqm Hmap].
  assert (Hm : mapped r = true) by (by rewrite <- Hmr; rewrite Hq in Hqm).
  rewrite bad_run, Hm by done. cbn [negb].
  rewrite (rd_at _ (bpre ++ [r]) rest r1 (zlen bpre + 1));
    [|rewrite Erest, <- app_assoc; done|zlen_lia].
  rewrite bind_Ret, Hcap. cbv beta iota zeta. rewrite Hlcn.
  replace (s64 (n - s64 (first - rl_vcn r))) with (rl_length q) by (by rewrite Hq).
  change ((rl_lcn r >=? 0) || (vol_major_ver vol <? 3)) with (stores_lcn ver r).
  rewrite <- Hst. replace (rl_lcn (tail_run first r)) with (rl_lcn q) by (by rewrite Hq).
  change (stores_lcn ver (tail_run first r))
    with (stores_lcn ver (set_length (s64 (n - s64 (first - rl_vcn r))) (tail_run first r))).
  rewrite <- Hq. clear Hq Hcap.
  assert (Hp0 : prev_ok 0) by (unfold prev_ok, S64_MAX; lia).
  assert (Es : s64 (rl_lcn q - 0) = rl_lcn q).
  { rewrite Z.sub_0_r. apply s64_id. pose proof (delta_ok q 0 Hok Hqm Hp0) as Hd. by rewrite Z.sub_0_r in Hd. }
  set (p := enc_pair (rl_length q) (run_delta ver 0 q)).
  destruct (pair_step ver 0 q [] mid post 0 dst_max)
    as [(mid2 & Hz & Hm2 & Hw)|(x & mid' & Hz & Hno & Hw)]; [done..|unfold dst_max; zlen_lia|done| |];
    rewrite Es in Hw; cbn [app] in Hw;
    (replace (if stores_lcn ver q then Some (if stores_lcn ver q then rl_lcn q else 0) else None)
      with (if stores_lcn ver q then Some (rl_lcn q) else None) by (by destruct (stores_lcn ver q)));
    rewrite Hw, bind_Ret; clear Hw; fold p in Hz |- *; cbv beta iota zeta.
  - replace (bpre ++ r :: l ++ t :: slack) with ((bpre ++ [r]) ++ l ++ t :: slack) by (by rewrite <- app_assoc).
    cbn [stop_of]. destruct ((last >=? 0) && (rl_vcn r + rl_length r >? last)) eqn:Ec.
    + rewrite Erest.
      destruct (mpb_runs_end vol last dst_max fuel p mid2 post (zlen p) (bpre ++ [r]) r1 rest
        (zlen bpre + 1) (next_prev ver 0 q)) as (mid' & E & Hb); [done|done|zlen_lia|lia|].
      exists (p ++ mid'), (rl_vcn r1), 0. split; [etrans; [exact E|by rewrite <- app_assoc]|].
      rewrite Hr1 in Hb |- *. by eapply (built_cons _ _ _ 0).
    + destruct (mpb_runs_spec vol last dst_max t slack Ht l fuel p mid2 post (zlen p) (bpre ++ [r])
        (rl_vcn r + rl_length r) (zlen bpre + 1) (next_prev ver 0 q)) as (mid' & st & ret & E & Hb);
        [done|lia|by apply next_prev_ok|zlen_lia|lia|done|done|unfold dst_max; zlen_lia|done|].
      exists (p ++ mid'), st, ret. split; [etrans; [exact E|by rewrite <- app_assoc]|].
      eapply built_cons; [done| |exact Hb]. intros q' l'. by eapply cut_head.
  - pose proof (mpb_stop_spec [] x mid' post 0 r (- ENOSPC)) as E. cbn [app] in E.
    rewrite E by done. exists (0 :: mid'), (rl_vcn r), (- ENOSPC). split; [done|].
    destruct mid as [|y mid]; [rewrite (@zlen_nil Z) in Hmid; lia|]. apply built_full; zlen_lia.
Qed.

(** The element of a runlist that contains [x] starts here. *)
Fixpoint run_start (x w : Z) (l : list runlist_element) : Z :=
  match l with
  | [] => w
  | r :: l => if x >=? rl_vcn r + rl_length r then run_start x w l else rl_vcn r
  end.

Lemma run_start_skip x w l1 l2 v m :
  chain v l1 m -> m <= x -> run_start x w (l1 ++ l2) = run_start x w l2.
Proof.
  revert v. induction l1 as [|r l1 IH]; intros v; [done|]. cbn [chain app run_start].
  intros (Hv & Hr & Hch) Hm. pose proof (chain_le _ _ _ Hch).
  destruct (Z.geb_spec x (rl_vcn r + rl_length r)); [|lia]. by eapply IH.
Qed.

Lemma stop_of_skip last w l1 l2 v m :
  chain v l1 m -> (0 <= last -> m <= last) -> stop_of last w (l1 ++ l2) = stop_of last w l2.
Proof.
  revert v. induction l1 as [|r l1 IH]; intros v; [done|]. cbn [chain app stop_of].
  intros (Hv & Hr & Hch) Hm. pose proof (chain_le _ _ _ Hch).
  destruct (Z.geb_spec last 0), (Z.gtb_spec (rl_vcn r + rl_length r) last); cbn [andb]; try lia; by eapply IH.
Qed.

(** [ntfs_mapping_pairs_build] on a buffer [mid] of @dst_len bytes, [post] being
    the memory behind it. *)
Lemma build_spec vol b l t v first last mid post :
  holds b l t -> runlist_wf v l t -> v <= first -> window_args first last (rl_vcn t) ->
  0 < zlen mid -> forallb mapped (window first last l) = true ->
  exists mid' st ret,
    ntfs_mapping_pairs_build vol (mid ++ post) (zlen mid) (Some b) first last =
      Ret (mk_mpb (mid' ++ post) (Some st) ret) /\
    built (vol_major_ver vol) 0 (run_start first (rl_vcn t) l) (window first last l)
      (stop_of last (rl_vcn t) l) mid mid' st ret.
Proof.
  intros [slack ->] [Hch Ht] Hv Hargs Hmid Hmap. unfold ntfs_mapping_pairs_build.
  rewrite (window_guards _ _ _ _ Hargs). destruct Hargs as (Hf & Hl & Hfl). destruct Ht as (Ht & _).
  unfold BUG_ON. destruct (Z.ltb_spec (zlen mid) 1); [lia|]. rewrite bind_Ret.
  destruct (skip_to_spec t slack first l (scan_fuel (l ++ t :: slack)) [] v)
    as (l1 & l2 & m & -> & H1 & H2 & Hm & Hh & Hfr & E); [done..|apply scan_fuel_ok|].
  cbn [app] in E. rewrite (@zlen_nil runlist_element), Z.add_0_l in E. rewrite E, bind_Ret.
  rewrite (run_start_skip first _ l1 l2 v m) by done.
  rewrite (stop_of_skip last _ l1 l2 v m) by (done || lia).
  unfold window in Hmap |- *. rewrite Hfr in Hmap |- *. clear E Hfr.
  assert (Hfuel : (length l2 < scan_fuel ((l1 ++ l2) ++ t :: slack))%nat).
  { pose proof (scan_fuel_ok (l1 ++ l2) t slack) as Hs. rewrite length_app in Hs. lia. }
  rewrite <- app_assoc in *. assert (Hlast : (0 <= last -> m <= last)) by lia.
  assert (Hp0 : prev_ok 0) by (unfold prev_ok, S64_MAX; lia).
  destruct l2 as [|r l2].
  { cbn [app]. rewrite (rd_at _ l1 slack t (zlen l1)) by done. cbn in H2. subst m.
    rewrite bind_Ret, Ht. destruct (Z.gtb_spec first (rl_vcn t)); [lia|].
    destruct (Z.ltb_spec first (rl_vcn t)); [lia|]. cbn [negb andb orb].
    edestruct (mpb_runs_spec vol last (zlen mid - 1) t slack Ht [] (scan_fuel (l1 ++ t :: slack)) [] mid post 0
      l1 (rl_vcn t) (zlen l1) 0) as (mid' & st & ret & E & Hb); [done..|zlen_lia|done|].
    exists mid', st, ret. split; [exact E|exact Hb]. }
  rewrite (rd_at _ l1 (l2 ++ t :: slack) r (zlen l1)) by done.
  destruct H2 as (<- & Hr & Hch2). pose proof (Hh _ _ eq_refl) as Hin.
  rewrite bind_Ret. pose proof (run_ok_nonzero r Hr) as Hz. apply negb_true_iff in Hz. rewrite Hz.
  destruct (Z.ltb_spec first (rl_vcn r)); [lia|]. cbn [andb orb run_start].
  destruct (Z.geb_spec first (rl_vcn r + rl_length r)); [lia|].
  destruct (Z.gtb_spec first (rl_vcn r)) as [Hpart|].
  - apply (build_partial vol last first t slack l1 r l2 _ mid post); (done || lia || (cbn [length] in Hfuel; lia)).
  - assert (Hfr : from first (r :: l2) = r :: l2).
    { cbn. destruct (Z.geb_spec first (rl_vcn r + rl_length r)); [lia|].
      destruct (Z.gtb_spec first (rl_vcn r)); [lia|done]. }
    rewrite Hfr in Hmap |- *.
    apply (mpb_runs_spec vol last (zlen mid - 1) t slack Ht (r :: l2) _ [] mid post 0 l1 (rl_vcn r));
      try done; zlen_lia.
Qed.
