(* ===== verification/MappingPairsDecode.v ===== *)
(** * Decompressing a mapping pairs array

    [ntfs_mapping_pairs_decompress] stays inside the attribute record and its
    runlist buffer on any input, and inverts the array specified in
    [MappingPairsSpec]. *)

From Stdlib Require Import ZArith Lia Bool.
From stdpp Require Import base list numbers option.
From S2P Require Import Prelude Endian Runlist RunlistSpec RunlistBuf RunlistMerge RunlistMergeSpec.
From S2P Require Import MappingPairs MappingPairsSpec.

Section WithAlloc.
Context `{KA : KernelAlloc}.

(** ** The runlist buffer *)

(** [used] is filled, and there is space for the two elements that may follow. *)
Definition mp_inv (st : mp_state) (used sl : rl_buf) : Prop :=
  mp_rl st = used ++ sl /\ mp_rlpos st = zlen used /\
  Z.of_nat (rl_cap (mp_rlsize st)) <= zlen (mp_rl st) /\ (mp_rlpos st + 2) * RLE_SIZE <= mp_rlsize st.

Lemma rl_cap_ge n m : 0 <= n -> n * RLE_SIZE <= m -> n <= Z.of_nat (rl_cap m).
Proof.
  unfold rl_cap, RLE_SIZE. intros. assert (n <= m / 24) by (apply Z.div_le_lower_bound; lia). lia.
Qed.

(** The space for one more element. *)
Lemma mp_grow_spec st used sl :
  mp_inv st used sl ->
  mp_grow st = Errno ENOMEM \/
  exists x sl' rlsize, Z.of_nat (rl_cap rlsize) <= zlen (used ++ x :: sl') /\
    (zlen used + 3) * RLE_SIZE <= rlsize /\
    mp_grow st = Ret (mk_mp (mp_buf st) (used ++ x :: sl') rlsize (mp_rlpos st) (mp_vcn st) (mp_lcn st)).
Proof.
  intros (Hrl & Hpos & Hcap & Hsz). unfold mp_grow. pose proof (zlen_nonneg used).
  assert (Hsplit : forall sl rlsize, (zlen used + 3) * RLE_SIZE <= rlsize ->
    Z.of_nat (rl_cap rlsize) <= zlen (used ++ sl) -> exists x sl', sl = x :: sl').
  { intros s rlsize H1 H2. destruct s as [|x s]; [|eauto].
    pose proof (rl_cap_ge (zlen used + 3) rlsize ltac:(lia) H1). zlen_lia. }
  destruct (Z.gtb_spec ((mp_rlpos st + 3) * RLE_SIZE) (mp_rlsize st)) as [Hg|Hg].
  - unfold ntfs_malloc_nofs.
    destruct (malloc_cases false (mp_rlsize st + PAGE_SIZE)) as [->|(bytes & -> & Hb)];
      [unfold PAGE_SIZE, RLE_SIZE in *; lia|by left|]. right. rewrite bind_Ret, Hrl.
    pose proof (rl_cap_ge (zlen used + 2) (mp_rlsize st) ltac:(lia) ltac:(lia)) as Hc2.
    destruct (recopy_grow used sl (mp_rlsize st) bytes) as (sl' & -> & Hl);
      [unfold zlen in *; lia|rewrite <- Hrl; unfold zlen in *; lia|unfold PAGE_SIZE in *; lia|].
    pose proof (rl_cap_mono _ _ Hb) as Hmono.
    assert (Hcap' : Z.of_nat (rl_cap (mp_rlsize st + PAGE_SIZE)) <= zlen (used ++ sl'))
      by (unfold zlen; lia).
    assert (Hsz' : (zlen used + 3) * RLE_SIZE <= mp_rlsize st + PAGE_SIZE)
      by (unfold RLE_SIZE, PAGE_SIZE in *; lia).
    destruct (Hsplit _ _ Hsz' Hcap') as (x & sl2 & ->).
    exists x, sl2, (mp_rlsize st + PAGE_SIZE). done.
  - right. rewrite Hrl in Hcap. rewrite Hpos in Hg.
    destruct (Hsplit _ _ Hg Hcap) as (x & sl2 & ->).
    exists x, sl2, (mp_rlsize st). rewrite <- Hrl. split; [by rewrite Hrl|]. split; [done|]. by destruct st.
Qed.

(** The loop body, apart from the buffer management. *)
Definition mp_next (mem : list Z) (attr_end : Z) (st : mp_state) (k : Z -> Z -> Z -> Z -> outcome mp_state)
    : outcome mp_state :=
  c ← rd mem (mp_buf st);
  len ← mp_length mem attr_end (mp_buf st) c;
  if len <? 0 then Errno EIO
  else
    '(lcn, entry) ← mp_new_lcn mem attr_end (mp_buf st) c (mp_lcn st);
    k c len lcn entry.

Lemma mp_pair_eq mem attr_end st used sl :
  mp_inv st used sl ->
  mp_pair mem attr_end st = Errno ENOMEM \/
  exists sl' rlsize, Z.of_nat (rl_cap rlsize) <= 1 + zlen (used ++ sl') /\
    (zlen used + 3) * RLE_SIZE <= rlsize /\
    mp_pair mem attr_end st = mp_next mem attr_end st (fun c len lcn entry =>
      Ret (mk_mp (mp_buf st + (Z.land c 0xf + Z.land (Z.shiftr c 4) 0xf + 1))
             (used ++ mk_rle (mp_vcn st) entry len :: sl') rlsize
             (u16 (mp_rlpos st + 1)) (s64 (mp_vcn st + len)) lcn)).
Proof.
  intros Hinv. unfold mp_pair, mp_next.
  destruct (mp_grow_spec st used sl Hinv) as [->|(x & sl' & rlsize & Hcap & Hsz & ->)]; [by left|].
  right. exists sl', rlsize. split; [zlen_lia|]. split; [done|]. rewrite bind_Ret.
  destruct Hinv as (_ & Hpos & _). cbn [mp_buf mp_rl mp_rlsize mp_rlpos mp_vcn mp_lcn].
  erewrite upd_at, bind_Ret by done.
  destruct (rd mem (mp_buf st)) as [c| | | |]; try done. rewrite !bind_Ret.
  destruct (mp_length mem attr_end (mp_buf st) c) as [len| | | |]; try done. rewrite !bind_Ret.
  destruct (len <? 0); [done|].
  erewrite upd_at, bind_Ret by done.
  destruct (mp_new_lcn mem attr_end (mp_buf st) c (mp_lcn st)) as [[lcn entry]| | | |]; try done.
  rewrite !bind_Ret. erewrite upd_at, bind_Ret by done. done.
Qed.

(** ** Decoding one pair *)

Lemma header_fields a b :
  0 <= a <= 8 -> 1 <= b <= 8 ->
  let c := 16 * a + b in
  Z.land c 0xf = b /\ Z.land (Z.shiftr c 4) 0xf = a /\ (Z.land c 0xf0 =? 0) = (a =? 0) /\ c <> 0.
Proof.
  intros Ha Hb.
  assert (a = 0 \/ a = 1 \/ a = 2 \/ a = 3 \/ a = 4 \/ a = 5 \/ a = 6 \/ a = 7 \/ a = 8) as Ea by lia.
  assert (b = 1 \/ b = 2 \/ b = 3 \/ b = 4 \/ b = 5 \/ b = 6 \/ b = 7 \/ b = 8) as Eb by lia.
  destruct_or! Ea; destruct_or! Eb; by subst.
Qed.

(** The bytes of one run decode to the run. *)
Lemma mp_next_spec mem attr_end st k pre post ver prev r :
  run_ok r -> mapped r = true -> prev_ok prev -> mp_lcn st = prev ->
  let p := enc_pair (rl_length r) (run_delta ver prev r) in
  mem = pre ++ p ++ post -> mp_buf st = zlen pre -> mp_buf st + zlen p <= attr_end ->
  exists c, rd mem (mp_buf st) = Ret c /\ c <> 0 /\
    Z.land c 0xf + Z.land (Z.shiftr c 4) 0xf + 1 = zlen p /\
    mp_next mem attr_end st k = k c (rl_length r) (next_prev ver prev r) (rl_lcn r).
Proof.
  intros Hr Hm Hp Hlcn p Hmem Hbuf Hend.
  pose proof (run_len_ok r Hr) as Hlen. destruct (nr_significant_spec _ Hlen) as (Hnr & Hfit & _).
  pose proof (zlen_enc_num _ Hlen) as HzL.
  set (d := match run_delta ver prev r with Some d => enc_num d | None => [] end).
  assert (HD : 0 <= zlen d <= 8 /\ (zlen d = 0 <-> stores_lcn ver r = false)).
  { unfold d. pose proof (run_delta_ok ver prev r Hr Hm Hp) as Hd. unfold run_delta in *.
    destruct (stores_lcn ver r); [|unfold zlen; cbn; naive_solver lia].
    rewrite zlen_enc_num by (by apply Hd). destruct (nr_significant_spec _ (Hd _ eq_refl)) as (H1 & _).
    split; [lia|]. split; [lia|done]. }
  destruct HD as [HD Hzero].
  set (L := enc_num (rl_length r)) in *.
  set (c := 16 * zlen d + ntfs_get_nr_significant_bytes (rl_length r)).
  assert (Ep : p = c :: L ++ d) by done.
  destruct (header_fields (zlen d) (ntfs_get_nr_significant_bytes (rl_length r))) as (Hlo & Hhi & H0 & Hc);
    [lia|lia|]. fold c in Hlo, Hhi, H0, Hc.
  assert (Hzp : zlen p = 1 + (zlen L + zlen d)) by (rewrite Ep; zlen_lia).
  exists c. split; [rewrite Hmem, Ep; by apply rd_mid|]. split; [done|]. split; [lia|].
  unfold mp_next. rewrite (rd_at mem pre ((L ++ d) ++ post) c) by (by rewrite Hmem, Ep || done).
  rewrite bind_Ret. unfold mp_length. rewrite Hlo.
  destruct (Z.eqb_spec (ntfs_get_nr_significant_bytes (rl_length r)) 0); [lia|]. cbn [negb].
  destruct (Z.gtb_spec (mp_buf st + ntfs_get_nr_significant_bytes (rl_length r)) attr_end); [lia|].
  rewrite (mp_number_spec (ntfs_get_nr_significant_bytes (rl_length r)) mem _ _ 0 (rl_length r) (pre ++ [c]) (d ++ post));
    [|lia|done|rewrite Hmem, Ep, <- !app_assoc; cbn; by rewrite <- app_assoc|lia|zlen_lia].
  rewrite bind_Ret. destruct (Z.ltb_spec (rl_length r) 0); [unfold run_ok in Hr; lia|].
  unfold mp_new_lcn. rewrite H0, Hlo, Hhi. unfold next_prev.
  destruct (stores_lcn ver r) eqn:Es.
  - destruct (Z.eqb_spec (zlen d) 0) as [Hz|_]; [by apply Hzero in Hz|].
    destruct (Z.gtb_spec (mp_buf st + (ntfs_get_nr_significant_bytes (rl_length r) + zlen d)) attr_end); [lia|].
    pose proof (delta_ok r prev Hr Hm Hp) as Hd. destruct (nr_significant_spec _ Hd) as (Hnd & Hfd & _).
    assert (Ed : d = enc_num (rl_lcn r - prev)) by (unfold d, run_delta; by rewrite Es).
    assert (Hzd : zlen d = ntfs_get_nr_significant_bytes (rl_lcn r - prev)) by (rewrite Ed; by apply zlen_enc_num).
    rewrite (mp_number_spec (zlen d) mem _ _ _ (rl_lcn r - prev) (pre ++ c :: L) post);
      [|lia|by rewrite Hzd|rewrite Hmem, Ep, <- app_assoc; cbn; rewrite <- app_assoc, Hzd, Ed; done|done|zlen_lia].
    rewrite bind_Ret, Hlcn, s64_id; [|unfold run_ok, S64_MIN, S64_MAX, LCN_RL_NOT_MAPPED in *; lia].
    replace (prev + (rl_lcn r - prev)) with (rl_lcn r) by lia.
    unfold mapped, LCN_HOLE in Hm. apply Z.leb_le in Hm.
    by destruct (Z.ltb_spec (rl_lcn r) (-1)); [lia|].
  - destruct (Z.eqb_spec (zlen d) 0) as [Hz|Hz]; [|by rewrite Hzero in Hz].
    rewrite bind_Ret, Hlcn. unfold stores_lcn in Es. unfold mapped in Hm. apply Z.leb_le in Hm.
    replace LCN_HOLE with (rl_lcn r); [done|]. unfold LCN_HOLE in *. lia.
Qed.

(** ** Decoding the array *)

Lemma enc_runs_len ver prev l : (length l <= length (enc_runs ver prev l))%nat.
Proof.
  revert prev. induction l as [|r l IH]; intros prev; [done|]. rewrite enc_runs_cons, length_app.
  specialize (IH (next_prev ver prev r)). cbn [enc_pair length]. lia.
Qed.

(** [rlpos] is a [u16]. *)
Definition RLPOS_MAX : Z := 0xffff.

Lemma mp_loop_spec ver attr_end w mem post l : forall fuel pre prev used sl st,
  chain (mp_vcn st) l w -> forallb mapped l = true -> prev_ok prev -> mp_lcn st = prev ->
  mp_inv st used sl -> mem = pre ++ enc_runs ver prev l ++ 0 :: post -> mp_buf st = zlen pre ->
  zlen pre + zlen (enc_runs ver prev l) < attr_end -> zlen used + zlen l <= RLPOS_MAX ->
  (length l < fuel)%nat ->
  mp_loop fuel mem attr_end st = Errno ENOMEM \/
  exists st' sl', mp_loop fuel mem attr_end st = Ret st' /\ mp_inv st' (used ++ l) sl' /\
    mp_buf st' = zlen pre + zlen (enc_runs ver prev l) /\ mp_vcn st' = w.
Proof.
  induction l as [|r l IH]; intros fuel pre prev used sl st Hch Hmap Hp Hlcn Hinv Hmem Hbuf Hend Hmax Hf;
    (destruct fuel as [|fuel]; [cbn in Hf; lia|]); cbn [mp_loop].
  { right. exists st, sl. cbn [enc_runs app] in *.
    rewrite (@zlen_nil Z) in *. destruct (Z.ltb_spec (mp_buf st) attr_end); [|lia].
    rewrite (rd_at mem pre post 0), bind_Ret by done. rewrite app_nil_r. cbn in Hch.
    split_and!; done || lia. }
  destruct Hch as (Hv & Hr & Hch). cbn [forallb] in Hmap. apply andb_true_iff in Hmap as [Hm Hmap].
  rewrite enc_runs_cons in Hmem, Hend |- *. rewrite zlen_app in Hend |- *.
  set (p := enc_pair (rl_length r) (run_delta ver prev r)) in *. cbn [length] in Hf.
  pose proof (zlen_nonneg p). pose proof (zlen_nonneg (enc_runs ver (next_prev ver prev r) l)).
  destruct (Z.ltb_spec (mp_buf st) attr_end); [|lia].
  destruct (mp_pair_eq mem attr_end st used sl Hinv) as [Epair|(sl' & rlsize & Hcap & Hsz & Epair)];
    [|set (k := fun c _ _ _ => _) in Epair];
    (destruct (mp_next_spec mem attr_end st (fun c len lcn entry => Ret st) pre
      (enc_runs ver (next_prev ver prev r) l ++ 0 :: post) ver prev r)
      as (c & Hrd & Hc & _); [done..|by rewrite Hmem, <- app_assoc|done|fold p; lia|]);
    rewrite Hrd, bind_Ret; (destruct (Z.eqb_spec c 0); [done|]); rewrite Epair; [by left|].
  destruct (mp_next_spec mem attr_end st k pre
      (enc_runs ver (next_prev ver prev r) l ++ 0 :: post) ver prev r)
      as (c' & Hrd' & _ & Hlen & ->); [done..|by rewrite Hmem, <- app_assoc|done|fold p; lia|].
  rewrite Hrd in Hrd'. injection Hrd' as <-. fold p in Hlen. unfold k. rewrite bind_Ret, Hlen.
  destruct Hinv as (Hrl & Hpos & _). unfold RLPOS_MAX in Hmax.
  assert (Er : mk_rle (mp_vcn st) (rl_lcn r) (rl_length r) = r) by (destruct r; cbn in *; congruence).
  rewrite Er, (s64_id (mp_vcn st + rl_length r)) by (unfold run_ok, S64_MIN in *; lia).
  set (st1 := mk_mp _ _ _ _ _ _).
  edestruct (IH fuel (pre ++ p) (next_prev ver prev r) (used ++ [r]) sl' st1) as [->|(st' & sl2 & -> & Hi & Hb & Hw)];
    [exact Hch|done|by apply next_prev_ok|done| |by rewrite Hmem, <- !app_assoc|cbn; zlen_lia|zlen_lia
    |unfold RLPOS_MAX; zlen_lia|lia|by left|].
  { unfold mp_inv, st1. cbn. rewrite <- app_assoc. split; [done|].
    rewrite u16_id by zlen_lia. split_and!; zlen_lia. }
  right. exists st', sl2. rewrite <- app_assoc in Hi. split_and!; [done..|zlen_lia|done].
Qed.

(** ** The whole function *)

(** The fields of a non-resident attribute record, its mapping pairs array being
    [mp], [post] the bytes behind it. *)
Record nonresident (mem : list Z) (lowest highest alloc : Z) (mp post : list Z) : Prop := {
  nr_mem : exists pre attr_end, mem = pre ++ mp ++ post /\
    rd_le16 mem ATTR_mapping_pairs_offset = Ret (zlen pre) /\
    rd_le32 mem ATTR_length = Ret attr_end /\ zlen pre + zlen mp <= attr_end;
  nr_lowest : rd_sle64 mem ATTR_lowest_vcn = Ret lowest;
  nr_highest : rd_sle64 mem ATTR_highest_vcn = Ret highest;
  nr_alloc : rd_sle64 mem ATTR_allocated_size = Ret alloc;
}.

(** The last cluster of the attribute according to @allocated_size. *)
Definition max_cluster (vol : ntfs_volume) (alloc : Z) : Z :=
  s64 (Z.shiftr (s64 (s64 (alloc + vol_cluster_size vol) - 1)) (vol_cluster_size_bits vol) - 1).

(** What follows the decoded runs, which end before [w]. *)
Definition decoded_tail (vol : ntfs_volume) (lowest highest alloc w : Z) : list runlist_element :=
  let m := max_cluster vol alloc in
  if lowest =? 0 then
    if negb (highest =? 0) && (highest <? m) then
      [mk_rle w LCN_RL_NOT_MAPPED (s64 (m - highest)); mk_rle (s64 (w + s64 (m - highest))) LCN_ENOENT 0]
    else [mk_rle w LCN_ENOENT 0]
  else [mk_rle w LCN_RL_NOT_MAPPED 0].

(** What precedes them. *)
Definition decoded_head (lowest : Z) : list runlist_element :=
  if lowest =? 0 then [] else [mk_rle 0 LCN_RL_NOT_MAPPED lowest].

Lemma mp_finish_spec vol mem attr_end lowest highest alloc st used sl w :
  mp_inv st used sl -> mp_buf st < attr_end -> mp_vcn st = w -> 0 < w <= S64_MAX ->
  rd_sle64 mem ATTR_highest_vcn = Ret highest -> rd_sle64 mem ATTR_allocated_size = Ret alloc ->
  (highest <> 0 -> highest = w - 1) -> (lowest = 0 -> highest <> 0 -> highest <= max_cluster vol alloc) ->
  mp_rlpos st < RLPOS_MAX ->
  exists sl', mp_finish vol mem attr_end lowest st = Ret (used ++ decoded_tail vol lowest highest alloc w ++ sl').
Proof.
  intros (Hrl & Hpos & Hcap & Hsz) Hb Hv Hw Hh Ha Hhi Hmax Hm. unfold mp_finish, decoded_tail.
  pose proof (rl_cap_ge (zlen used + 2) (mp_rlsize st)) as Hc. rewrite Hrl, zlen_app in Hcap.
  destruct sl as [|x [|y sl]]; [zlen_lia..|].
  destruct (Z.geb_spec (mp_buf st) attr_end); [lia|]. rewrite Hh, bind_Ret, Hv.
  rewrite (s64_id (w - 1)) by (unfold S64_MIN; lia).
  replace (negb (highest =? 0) && negb (w - 1 =? highest)) with false by lia. cbv iota.
  unfold RLPOS_MAX in Hm. assert (Hu : u16 (mp_rlpos st + 1) = zlen used + 1) by (rewrite u16_id; zlen_lia).
  destruct (Z.eqb_spec lowest 0) as [->|].
  - unfold mp_base. rewrite Ha, !bind_Ret. fold (max_cluster vol alloc).
    destruct (Z.eqb_spec highest 0) as [|Hn]; cbn [negb andb].
    { rewrite !bind_Ret, Hrl. do 3 (erewrite upd_at, ?bind_Ret by done). exists (y :: sl). by rewrite Hv. }
    destruct (Z.ltb_spec highest (max_cluster vol alloc)).
    + rewrite Hrl. do 3 (erewrite upd_at, ?bind_Ret by done). rewrite Hu, Hv.
      set (q := mk_rle w LCN_RL_NOT_MAPPED (s64 (max_cluster vol alloc - highest))).
      change (set_lcn _ (set_length _ (set_vcn w x))) with q.
      replace (used ++ q :: y :: sl) with ((used ++ [q]) ++ y :: sl) by (by rewrite <- app_assoc).
      do 3 (erewrite (upd_at _ (used ++ [q])), ?bind_Ret by (done || zlen_lia)).
      exists sl. by rewrite <- app_assoc.
    + destruct (Z.gtb_spec highest (max_cluster vol alloc)); [lia|].
      rewrite !bind_Ret, Hrl. do 3 (erewrite upd_at, ?bind_Ret by done). exists (y :: sl). by rewrite Hv.
  - rewrite bind_Ret, Hrl. do 3 (erewrite upd_at, ?bind_Ret by done). by exists (y :: sl).
Qed.

(** The arguments for which the array of [l], covering the VCNs from [lowest]
    below [w], is consistent with the rest of the attribute record. *)
Definition extent_ok (vol : ntfs_volume) (lowest highest alloc w : Z) (l : list runlist_element) : Prop :=
  0 <= lowest /\ chain lowest l w /\ forallb mapped l = true /\ l <> [] /\ zlen l + 3 <= RLPOS_MAX /\
  (highest <> 0 -> highest = w - 1) /\ (lowest = 0 -> highest <> 0 -> highest <= max_cluster vol alloc).

Lemma mp_start_spec bytes lowest :
  PAGE_SIZE <= bytes -> 0 <= lowest <= S64_MAX ->
  exists sl, (if negb (lowest =? 0) then
      rl ← upd (fresh_rl bytes) 0 (set_vcn 0);
      rl ← upd rl 0 (set_lcn LCN_RL_NOT_MAPPED);
      rl ← upd rl 0 (set_length lowest);
      Ret (rl, 1)
    else Ret (fresh_rl bytes, 0)) = Ret (decoded_head lowest ++ sl, zlen (decoded_head lowest)) /\
  Z.of_nat (rl_cap PAGE_SIZE) <= zlen (decoded_head lowest ++ sl).
Proof.
  intros Hb Hl. unfold decoded_head. pose proof (rl_cap_mono _ _ Hb) as Hcap.
  pose proof (fresh_rl_length bytes) as Hf. destruct (Z.eqb_spec lowest 0); cbn [negb].
  - exists (fresh_rl bytes). split; [done|]. unfold zlen. cbn [app]. lia.
  - assert (170 <= Z.of_nat (rl_cap PAGE_SIZE)) by done.
    destruct (fresh_rl bytes) as [|x sl]; [cbn in Hf; lia|]. exists sl.
    do 3 (erewrite (upd_at _ [] sl), ?bind_Ret by done).
    split; [done|]. unfold zlen. cbn [app length] in *. lia.
Qed.

Lemma decompress_spec vol mem lowest highest alloc ver l w post :
  nonresident mem lowest highest alloc (mapping_pairs ver l) post ->
  extent_ok vol lowest highest alloc w l ->
  ntfs_mapping_pairs_decompress vol mem None = Errno ENOMEM \/
  exists sl, ntfs_mapping_pairs_decompress vol mem None =
    Ret (Some (decoded_head lowest ++ l ++ decoded_tail vol lowest highest alloc w ++ sl)).
Proof.
  intros [(pre & attr_end & Hmem & Hoff & Hlen & Hfit) Hlow Hhigh Halloc]
    (Hl0 & Hch & Hmap & Hne & Hcount & Hhi & Hmax).
  unfold mapping_pairs in *. rewrite zlen_app, zlen_cons, (@zlen_nil Z) in Hfit. rewrite <- app_assoc in Hmem.
  destruct l as [|r l]; [done|]. destruct Hch as (Hrv & Hr & Hch). pose proof (chain_le _ _ _ Hch) as Hle.
  assert (Hw : 0 < w <= S64_MAX).
  { unfold run_ok in Hr. split; [lia|]. eapply chain_max; [exact Hch|lia]. }
  assert (Hchain : chain lowest (r :: l) w) by done.
  pose proof (enc_runs_len ver 0 (r :: l)) as Hel. pose proof (zlen_nonneg pre).
  assert (Hc : exists c, rd mem (zlen pre) = Ret c /\ c <> 0).
  { pose proof Hmap as Hm. cbn [forallb] in Hm. apply andb_true_iff in Hm as [Hm _].
    rewrite enc_runs_cons, zlen_app in Hfit. rewrite enc_runs_cons, <- app_assoc in Hmem.
    pose proof (zlen_nonneg (enc_runs ver (next_prev ver 0 r) l)).
    destruct (mp_next_spec mem attr_end (mk_mp (zlen pre) [] 0 0 0 0) (fun _ _ _ _ => Diverge) pre _ ver 0 r
      Hr Hm ltac:(unfold prev_ok, S64_MAX; lia) eq_refl Hmem eq_refl) as (c & Hrd & Hc & _); [cbn; lia|].
    eauto. }
  destruct Hc as (c & Hrd & Hc). unfold ntfs_mapping_pairs_decompress.
  rewrite Hlow, bind_Ret, Hoff, bind_Ret, Hlen, bind_Ret.
  destruct (Z.gtb_spec (zlen pre) attr_end); [zlen_lia|].
  replace (if lowest =? 0 then c ← rd mem (zlen pre); Ret (c =? 0) else Ret false) with (Ret false).
  2:{ rewrite Hrd, bind_Ret. destruct (lowest =? 0); [|done]. by destruct (Z.eqb_spec c 0). }
  rewrite bind_Ret. unfold ntfs_malloc_nofs.
  destruct (malloc_cases false PAGE_SIZE) as [->|(bytes & -> & Hb)]; [done|by left|]. rewrite bind_Ret.
  destruct (mp_start_spec bytes lowest Hb) as (sl & -> & Hcap); [unfold run_ok in Hr; lia|]. rewrite bind_Ret.
  assert (Hhd : zlen (decoded_head lowest) <= 1) by (unfold decoded_head; destruct (lowest =? 0); done).
  set (st := mk_mp _ _ _ _ _ _).
  destruct (mp_loop_spec ver attr_end w mem post (r :: l) (mp_fuel attr_end) pre 0 (decoded_head lowest) sl st)
    as [->|(st' & sl' & -> & Hinv & Hbuf & Hvcn)];
    [done|done|unfold prev_ok, S64_MAX; lia|done| |done|done|lia|zlen_lia| |by left|].
  { unfold mp_inv, st, PAGE_SIZE, RLE_SIZE in *. cbn. split_and!; done || lia. }
  { unfold mp_fuel, zlen in *. lia. }
  rewrite bind_Ret. right.
  destruct (mp_finish_spec vol mem attr_end lowest highest alloc st' _ _ w Hinv) as (sl2 & ->);
    [lia|done|lia|done..| |].
  { destruct Hinv as (_ & -> & _). unfold RLPOS_MAX in *. zlen_lia. }
  exists sl2. by rewrite bind_Ret, <- app_assoc.
Qed.

(** ** Arbitrary input *)

(** The ways a function that reads untrusted data may end. *)
Definition clean {A} (o : outcome A) (P : A -> Prop) : Prop :=
  match o with Ret a => P a | Errno e => e = ENOMEM \/ e = EIO | _ => False end.

Lemma clean_bind {A B} (m : outcome A) (f : A -> outcome B) P Q :
  clean m P -> (forall a, P a -> clean (f a) Q) -> clean (m ≫= f) Q.
Proof. destruct m; cbn; auto. Qed.

Lemma clean_rd (mem : list Z) i : 0 <= i < zlen mem -> clean (rd mem i) (fun _ => True).
Proof. intros Hi. destruct (rd_in_range mem i Hi) as [x ->]. done. Qed.

Lemma mp_rest_safe mem buf n : forall b d,
  buf + b < zlen mem -> 0 <= buf + b - Z.of_nat n + 1 -> clean (mp_rest n mem buf b d) (fun _ => True).
Proof.
  induction n as [|n IH]; intros b d Hb Hlo; [done|]. cbn [mp_rest].
  eapply clean_bind; [apply clean_rd; lia|]. intros y _. apply IH; lia.
Qed.

Lemma mp_number_safe mem buf b lo :
  buf + b < zlen mem -> 0 <= buf -> 0 <= lo < b -> clean (mp_number mem buf b lo) (fun _ => True).
Proof.
  intros. eapply clean_bind; [apply clean_rd; lia|]. intros x _. apply mp_rest_safe; lia.
Qed.

Lemma land_nonneg c m : 0 <= m -> 0 <= Z.land c m.
Proof. intros. apply Z.land_nonneg. by right. Qed.

Lemma mp_next_safe mem attr_end st k P :
  0 <= mp_buf st < attr_end -> attr_end < zlen mem ->
  (forall c len lcn entry, clean (k c len lcn entry) P) -> clean (mp_next mem attr_end st k) P.
Proof.
  intros Hb He Hk. unfold mp_next. eapply clean_bind; [apply clean_rd; lia|]. intros c _.
  pose proof (land_nonneg c 0xf ltac:(lia)) as Hlo. pose proof (land_nonneg (Z.shiftr c 4) 0xf ltac:(lia)) as Hhi.
  apply clean_bind with (fun _ => True).
  { unfold mp_length. destruct (Z.eqb_spec (Z.land c 0xf) 0); cbn [negb]; [done|].
    destruct (Z.gtb_spec (mp_buf st + Z.land c 0xf) attr_end); [by right|]. apply mp_number_safe; lia. }
  intros len _. destruct (len <? 0); [by right|].
  apply clean_bind with (fun _ => True); [|intros [lcn entry] _; apply Hk].
  unfold mp_new_lcn. destruct (Z.eqb_spec (Z.land c 0xf0) 0) as [|Hn]; [done|].
  assert (Hpos : Z.land (Z.shiftr c 4) 0xf <> 0).
  { intros E. apply Hn. replace 0xf0 with (Z.shiftl 0xf 4) by done.
    rewrite <- (Z.shiftl_0_l 4), <- E, Z.shiftl_land. apply Z.bits_inj'. intros j Hj.
    rewrite !Z.land_spec. destruct (Z.ltb_spec j 4).
    - by rewrite (Z.shiftl_spec_low 15), !andb_false_r by lia.
    - rewrite (Z.shiftl_spec (Z.shiftr c 4)), Z.shiftr_spec by lia. by replace (j - 4 + 4) with j by lia. }
  destruct (Z.gtb_spec (mp_buf st + (Z.land c 0xf + Z.land (Z.shiftr c 4) 0xf)) attr_end); [by right|].
  eapply clean_bind; [apply mp_number_safe; lia|]. intros d _.
  destruct (s64 (mp_lcn st + d) <? -1); [by right|done].
Qed.

(** The invariant of the loop on any input. *)
Definition mp_safe (st : mp_state) : Prop :=
  0 <= mp_buf st /\ exists used sl, mp_inv st used sl.

Lemma mp_loop_safe mem attr_end : forall fuel st,
  attr_end < zlen mem -> mp_safe st -> (Z.to_nat (attr_end - mp_buf st) < fuel)%nat ->
  clean (mp_loop fuel mem attr_end st) mp_safe.
Proof.
  induction fuel as [|fuel IH]; intros st He (Hb & used & sl & Hinv) Hf; [lia|]. cbn [mp_loop].
  destruct (Z.ltb_spec (mp_buf st) attr_end) as [Hlt|]; [|by split; eauto].
  eapply clean_bind; [apply clean_rd; lia|]. intros c0 _.
  destruct (c0 =? 0); [by split; eauto|].
  apply clean_bind with (fun st' => mp_safe st' /\ mp_buf st < mp_buf st').
  2:{ intros st' (Hs & Hgt). apply IH; [done|done|]. destruct Hs as (? & _). lia. }
  destruct (mp_pair_eq mem attr_end st used sl Hinv) as [->|(sl' & rlsize & Hcap & Hsz & ->)]; [by left|].
  apply mp_next_safe; [lia|done|]. intros c len lcn entry. cbn [clean].
  pose proof (land_nonneg c 0xf ltac:(lia)) as Hlo. pose proof (land_nonneg (Z.shiftr c 4) 0xf ltac:(lia)) as Hhi.
  split; [|cbn; lia]. split; [cbn; lia|]. destruct Hinv as (_ & Hpos & _). rewrite Hpos.
  pose proof (zlen_nonneg used). set (e := mk_rle _ _ _).
  assert (Hu : u16 (zlen used + 1) <= zlen used + 1) by (apply Z.mod_le; lia).
  assert (Hu0 : 0 <= u16 (zlen used + 1)) by (apply Z.mod_pos_bound; lia).
  set (n := u16 (zlen used + 1)) in *.
  exists (take (Z.to_nat n) (used ++ e :: sl')), (drop (Z.to_nat n) (used ++ e :: sl')).
  unfold mp_inv. cbn [mp_rl mp_rlpos mp_rlsize]. rewrite take_drop. split; [done|].
  split; [unfold zlen in *; rewrite length_take, length_app; cbn [length]; lia|].
  split; [zlen_lia|]. unfold RLE_SIZE in *. lia.
Qed.

Lemma clean_upd (b : rl_buf) i f : 0 <= i < zlen b -> clean (upd b i f) (fun b' => zlen b' = zlen b).
Proof.
  intros Hi. unfold upd. destruct (rd_in_range b i Hi) as [x Hx]. rewrite Hx, bind_Ret.
  apply rd_spec in Hx as [_ Hx]. apply list_elem_of_split_length in Hx as (l1 & l2 & -> & Hn).
  rewrite wr_mid by (unfold zlen; lia). cbn. zlen_lia.
Qed.

Lemma mp_finish_safe vol mem attr_end lowest st :
  mp_safe st -> (exists h, rd_sle64 mem ATTR_highest_vcn = Ret h) ->
  (exists a, rd_sle64 mem ATTR_allocated_size = Ret a) ->
  clean (mp_finish vol mem attr_end lowest st) (fun _ => True).
Proof.
  intros (_ & used & sl & Hrl & Hpos & Hcap & Hsz) [h Hh] [a Ha]. unfold mp_finish.
  destruct (mp_buf st >=? attr_end); [by right|]. rewrite Hh, bind_Ret.
  destruct (negb (h =? 0) && _); [by right|]. pose proof (zlen_nonneg used).
  pose proof (rl_cap_ge (zlen used + 2) (mp_rlsize st) ltac:(lia) ltac:(lia)) as Hc.
  set (N := zlen (mp_rl st)) in *.
  apply clean_bind with (fun '(rl, rlpos, vcn, lcn) => zlen rl = N /\ 0 <= rlpos < N).
  2:{ intros [[[rl rlpos] vcn] lcn] [Hl Hp].
      eapply clean_bind; [apply clean_upd; lia|]. cbn beta. intros rl1 H1.
      eapply clean_bind; [apply clean_upd; lia|]. cbn beta. intros rl2 H2.
      destruct (upd rl2 rlpos (set_length 0)) eqn:E; try done;
      pose proof (clean_upd rl2 rlpos (set_length 0) ltac:(lia)) as Hu; by rewrite E in Hu. }
  assert (Hbase : clean (Ret (mp_rl st, mp_rlpos st, mp_vcn st) : outcome (rl_buf * Z * Z))
    (fun '(rl, rlpos, vcn) => zlen rl = N /\ 0 <= rlpos < N)) by (cbn; lia).
  destruct (lowest =? 0); [|cbn; lia].
  eapply (clean_bind _ _ (fun '(rl, rlpos, vcn) => zlen rl = N /\ 0 <= rlpos < N));
    [|by intros [[rl rlpos] vcn] Hx].
  unfold mp_base. rewrite Ha, bind_Ret. destruct (negb (h =? 0)); [|done].
  destruct (h <? _); [|destruct (h >? _); [by right|done]].
  eapply clean_bind; [apply clean_upd; lia|]. cbn beta. intros rl1 H1.
  eapply clean_bind; [apply clean_upd; lia|]. cbn beta. intros rl2 H2.
  eapply clean_bind; [apply clean_upd; lia|]. cbn beta. intros rl3 H3.
  cbn. split; [lia|]. assert (0 <= u16 (mp_rlpos st + 1)) by (apply Z.mod_pos_bound; lia).
  assert (u16 (mp_rlpos st + 1) <= mp_rlpos st + 1) by (apply Z.mod_le; lia). lia.
Qed.

(** On any attribute record whose header is in memory and whose length leaves
    one more byte readable, decompression returns a runlist, -EIO or -ENOMEM. *)
Lemma decompress_safe vol mem lowest highest alloc off attr_end :
  rd_sle64 mem ATTR_lowest_vcn = Ret lowest -> rd_sle64 mem ATTR_highest_vcn = Ret highest ->
  rd_sle64 mem ATTR_allocated_size = Ret alloc -> rd_le16 mem ATTR_mapping_pairs_offset = Ret off ->
  rd_le32 mem ATTR_length = Ret attr_end -> 0 <= off -> attr_end < zlen mem ->
  clean (ntfs_mapping_pairs_decompress vol mem None) (fun _ => True).
Proof.
  intros Hl Hh Ha Ho He Hoff Hlen. unfold ntfs_mapping_pairs_decompress.
  rewrite Hl, bind_Ret, Ho, bind_Ret, He, bind_Ret.
  destruct (Z.gtb_spec off attr_end); [by right|].
  apply clean_bind with (fun _ => True).
  { destruct (lowest =? 0); [|done]. eapply clean_bind; [apply clean_rd; lia|done]. }
  intros empty _. destruct empty; [done|]. unfold ntfs_malloc_nofs.
  destruct (malloc_cases false PAGE_SIZE) as [->|(bytes & -> & Hb)]; [done|by left|]. rewrite bind_Ret.
  pose proof (rl_cap_mono _ _ Hb) as Hcap. pose proof (fresh_rl_length bytes) as Hf.
  assert (Hz : Z.of_nat (rl_cap PAGE_SIZE) <= zlen (fresh_rl bytes)) by (unfold zlen; lia).
  assert (H170 : Z.of_nat (rl_cap PAGE_SIZE) = 170) by done.
  apply clean_bind with (fun '(rl, rlpos) => zlen rl = zlen (fresh_rl bytes) /\ 0 <= rlpos <= 1).
  { destruct (negb (lowest =? 0)); [|cbn; lia].
    eapply clean_bind; [apply clean_upd; lia|]. cbn beta. intros rl1 H1.
    eapply clean_bind; [apply clean_upd; lia|]. cbn beta. intros rl2 H2.
    eapply clean_bind; [apply clean_upd; lia|]. cbn beta. intros rl3 H3. cbn. lia. }
  intros [rl rlpos] [Hrl Hp].
  apply clean_bind with mp_safe.
  { apply mp_loop_safe; [done| |unfold mp_fuel; cbn; lia].
    split; [cbn; lia|]. exists (take (Z.to_nat rlpos) rl), (drop (Z.to_nat rlpos) rl).
    unfold mp_inv, RLE_SIZE. cbn [mp_rl mp_rlpos mp_rlsize]. rewrite take_drop. split; [done|].
    split; [unfold zlen in *; rewrite length_take; lia|]. split; [lia|]. unfold PAGE_SIZE. lia. }
  intros st Hst. eapply clean_bind; [apply mp_finish_safe; eauto|]. done.
Qed.

(** ** With an existing runlist *)

(** Decompressing into a runlist is decompressing without one, and merging. *)
Lemma decompress_then vol mem old :
  ntfs_mapping_pairs_decompress vol mem old =
    (r ← ntfs_mapping_pairs_decompress vol mem None;
     match r, old with
     | None, _ => Ret old
     | Some rl, None => Ret (Some rl)
     | Some rl, Some _ => ntfs_runlists_merge (Ret old) (Ret (Some rl))
     end).
Proof.
  unfold ntfs_mapping_pairs_decompress.
  destruct (rd_sle64 mem ATTR_lowest_vcn) as [vcn| | | |]; try done. rewrite !bind_Ret.
  destruct (rd_le16 mem ATTR_mapping_pairs_offset) as [buf| | | |]; try done. rewrite !bind_Ret.
  destruct (rd_le32 mem ATTR_length) as [attr_end| | | |]; try done. rewrite !bind_Ret.
  destruct (buf >? attr_end); [done|].
  destruct (if vcn =? 0 then _ else _) as [empty| | | |]; try done. rewrite !bind_Ret. destruct empty; [done|].
  destruct (ntfs_malloc_nofs PAGE_SIZE) as [[bytes|]| | | |]; try done. rewrite !bind_Ret.
  destruct (if negb (vcn =? 0) then _ else _) as [[rl rlpos]| | | |]; try done. rewrite !bind_Ret.
  destruct (mp_loop _ _ _ _) as [st| | | |]; try done. rewrite !bind_Ret.
  by destruct (mp_finish _ _ _ _ _), old.
Qed.

Lemma decompress_old vol mem o rl :
  ntfs_mapping_pairs_decompress vol mem None = Ret (Some rl) ->
  ntfs_mapping_pairs_decompress vol mem (Some o) = ntfs_runlists_merge (Ret (Some o)) (Ret (Some rl)).
Proof. intros H. by rewrite decompress_then, H. Qed.
End WithAlloc.
