(* ===== verification/MappingPairsTheorems.v ===== *)
(** * Properties of the mapping pairs functions *)

From Stdlib Require Import ZArith Lia Bool.
From stdpp Require Import base list numbers option.
From S2P Require Import Prelude Endian Runlist RunlistSpec RunlistBuf RunlistMerge RunlistMergeProof.
From S2P Require Import RunlistTheorems MappingPairs MappingPairsSpec MappingPairsBuild MappingPairsDecode.

(** ** Numbers *)

(** [ntfs_get_nr_significant_bytes] is, for every [s64], the least number
    of bytes in which the value fits as a signed number. *)
Theorem nr_significant_least n :
  S64_MIN <= n <= S64_MAX ->
  let k := ntfs_get_nr_significant_bytes n in
  1 <= k <= 8 /\ - 2 ^ (8 * k - 1) <= n < 2 ^ (8 * k - 1) /\
  forall j, 1 <= j < k -> ~ (- 2 ^ (8 * j - 1) <= n < 2 ^ (8 * j - 1)).
Proof.
  intros Hn k. destruct (nr_significant_spec n Hn) as (Hk & Hfit & Hleast). fold k in Hk, Hfit, Hleast.
  split; [done|]. split; [exact Hfit|]. intros j Hj Hc. apply Hleast; [lia|]. unfold fits.
  assert (2 ^ (8 * j - 1) <= 2 ^ (8 * (k - 1) - 1)) by (apply Z.pow_le_mono_r; lia). lia.
Qed.

Lemma nr_significant_least_witness : ntfs_get_nr_significant_bytes 128 = 2 /\ 1 <= ntfs_get_nr_significant_bytes 128 <= 8.
Proof. split; [reflexivity|]. apply (nr_significant_least 128). unfold S64_MIN, S64_MAX. lia. Defined.

(** [ntfs_write_significant_bytes] writes the little-endian bytes of the
    number, as many as [ntfs_get_nr_significant_bytes] counts, when they end at
    or before @dst_max, and otherwise returns -ENOSPC; it never touches memory
    before @dst or behind @dst_max. *)
Theorem write_significant_bytes_correct pre mid post n :
  S64_MIN <= n <= S64_MAX ->
  let k := ntfs_get_nr_significant_bytes n in
  exists mid', zlen mid' = zlen mid /\
    ntfs_write_significant_bytes (pre ++ mid ++ post) (zlen pre) (zlen pre + zlen mid - 1) n =
      Ret (pre ++ mid' ++ post, if k <=? zlen mid then k else - ENOSPC) /\
    (k <= zlen mid -> mid' = le_split (Z.to_nat k) n ++ drop (Z.to_nat k) mid).
Proof.
  intros Hn k. destruct (nr_significant_spec n Hn) as (Hk & _). fold k in Hk.
  destruct (write_sig_spec pre mid post (zlen pre) (zlen pre + zlen mid - 1) n Hn) as (mid' & Hl & Hw & Hm);
    [done..|]. rewrite zlen_enc_num in Hw, Hm by done.
  exists mid'. split; [done|]. split; [done|]. intros Hle. rewrite Hm by done.
  unfold enc_num. by rewrite length_le_split.
Qed.

Lemma write_significant_bytes_correct_witness :
  exists mid', ntfs_write_significant_bytes ([7] ++ [0; 0; 0] ++ [9]) 1 3 (-129) = Ret ([7] ++ mid' ++ [9], 2).
Proof.
  destruct (write_significant_bytes_correct [7] [0; 0; 0] [9] (-129)) as (mid' & _ & E & _);
    [unfold S64_MIN, S64_MAX; lia|]. exists mid'. exact E.
Defined.

(** ** Arrays *)

(** [ntfs_get_size_for_mapping_pairs] returns exactly the length of the
    mapping pairs array of the runs between @first_vcn and @last_vcn (to the end
    for -1), and -EINVAL when one of them is not mapped. *)
Theorem get_size_correct vol b l t v first last :
  holds b l t -> runlist_wf v l t -> v <= first -> window_args first last (rl_vcn t) ->
  ntfs_get_size_for_mapping_pairs vol (Some b) first last =
    if forallb mapped (window first last l)
    then Ret (zlen (mapping_pairs (vol_major_ver vol) (window first last l)))
    else Errno EINVAL.
Proof. apply size_spec. Qed.

Definition demo_vol : ntfs_volume := mk_vol 4096 12 3.

Lemma demo_args : window_args 1 5 7.
Proof. unfold window_args. lia. Qed.

Lemma get_size_correct_witness :
  ntfs_get_size_for_mapping_pairs demo_vol (Some (demo_page (demo_runs ++ [demo_end]))) 1 5 = Ret 6.
Proof.
  refine (eq_trans (get_size_correct demo_vol _ demo_runs demo_end 0 1 5 demo_holds demo_wf _ demo_args) _);
    [lia|reflexivity].
Defined.

(** The runs a mapping pairs array describes are those of the runlist, cut
    to the range asked for: they cover exactly the VCNs from @first_vcn to
    @last_vcn or the end, and give each of them its LCN. *)
Theorem window_correct first last v l t :
  runlist_wf v l t -> v <= first -> window_args first last (rl_vcn t) ->
  chain first (window first last l) (window_end last (rl_vcn t)) /\
  forall x, first <= x -> (0 <= last -> x <= last) -> look (window first last l) x = look l x.
Proof.
  intros [Hch _] Hv (Hf & Hl & Hfl). unfold window.
  assert (Hfr : chain first (from first l) (rl_vcn t)) by (eapply from_chain; [exact Hch|lia]).
  split; [apply cut_chain; [done|lia]|]. intros x Hx Hxl.
  rewrite (cut_look last first _ (rl_vcn t)) by done. by eapply from_look.
Qed.

Lemma window_correct_witness : chain 1 (window 1 5 demo_runs) 6.
Proof. apply (window_correct 1 5 0 demo_runs demo_end demo_wf); [lia|exact demo_args]. Defined.

(** [ntfs_mapping_pairs_build] in a buffer of the size that
    [ntfs_get_size_for_mapping_pairs] returned succeeds: it fills the buffer
    with exactly the mapping pairs array of the runs, and leaves the memory
    behind the buffer alone. *)
Theorem build_of_size vol b l t v first last mid post :
  holds b l t -> runlist_wf v l t -> v <= first -> window_args first last (rl_vcn t) ->
  ntfs_get_size_for_mapping_pairs vol (Some b) first last = Ret (zlen mid) ->
  ntfs_mapping_pairs_build vol (mid ++ post) (zlen mid) (Some b) first last =
    Ret (mk_mpb (mapping_pairs (vol_major_ver vol) (window first last l) ++ post)
           (Some (stop_of last (rl_vcn t) l)) 0).
Proof.
  intros Hb Hwf Hv Ha Hsz. rewrite (size_spec vol b l t v first last Hb Hwf Hv Ha) in Hsz.
  destruct (forallb mapped (window first last l)) eqn:Em; [|done]. injection Hsz as Hsz.
  unfold mapping_pairs in *. rewrite zlen_app, zlen_cons, (@zlen_nil Z) in Hsz.
  pose proof (zlen_nonneg (enc_runs (vol_major_ver vol) 0 (window first last l))).
  destruct (build_spec vol b l t v first last mid post) as (mid' & st & ret & -> & Hlen & l1 & l2 & junk & El & -> & Hr);
    [done..|lia|done|]. rewrite El in Hsz |- *.
  destruct l2 as [|r l2].
  - destruct Hr as [-> ->]. rewrite app_nil_r in *. destruct junk; [done|zlen_lia].
  - destruct Hr as (_ & _ & Hno). exfalso. revert Hsz Hno.
    replace (l1 ++ r :: l2) with ((l1 ++ [r]) ++ l2) by (by rewrite <- app_assoc). intros Hsz Hno.
    assert (Happ : forall ver p a c, zlen (enc_runs ver p a) <= zlen (enc_runs ver p (a ++ c))).
    { intros ver p a c. revert p. induction a as [|x a IH]; intros p; cbn [app].
      - change (enc_runs ver p []) with (@nil Z). rewrite (@zlen_nil Z). apply zlen_nonneg.
      - rewrite !enc_runs_cons, !zlen_app. specialize (IH (next_prev ver p x)). lia. }
    specialize (Happ (vol_major_ver vol) 0 (l1 ++ [r]) l2). lia.
Qed.

Lemma build_of_size_witness :
  ntfs_mapping_pairs_build demo_vol ([9; 9; 9; 9; 9; 9] ++ [8]) 6 (Some (demo_page (demo_runs ++ [demo_end]))) 1 5 =
    Ret (mk_mpb [0x11; 3; 101; 0x01; 2; 0; 8] (Some 6) 0).
Proof.
  refine (eq_trans (build_of_size demo_vol _ demo_runs demo_end 0 1 5 [9; 9; 9; 9; 9; 9] [8]
    demo_holds demo_wf _ demo_args _) _); [lia|reflexivity|reflexivity].
Defined.

(** The range starts at an element of the runlist, or the pair of its first,
    partial, run fits with the terminator. *)
Definition first_fits (ver first : Z) (win l : list runlist_element) (w size : Z) : Prop :=
  run_start first w l = first \/
  exists r win', win = r :: win' /\ zlen (enc_runs ver 0 [r]) < size.

Lemma from_from x first v l w :
  chain v l w -> first <= x -> from x (from first l) = from x l.
Proof.
  revert v. induction l as [|r l IH]; intros v; [done|]. cbn [chain from]. intros (Hv & Hr & Hch) Hx.
  destruct (Z.geb_spec first (rl_vcn r + rl_length r)).
  - rewrite (IH _ Hch Hx). destruct (Z.geb_spec x (rl_vcn r + rl_length r)); [done|lia].
  - destruct (Z.gtb_spec first (rl_vcn r)); [|done]. cbn [from rl_vcn rl_length].
    replace (first + (rl_length r - (first - rl_vcn r))) with (rl_vcn r + rl_length r) by lia.
    destruct (Z.geb_spec x (rl_vcn r + rl_length r)); [done|].
    destruct (Z.gtb_spec x (rl_vcn r)); [|lia]. destruct (Z.gtb_spec x first).
    + unfold run_lcn. cbn [rl_vcn rl_lcn]. f_equal. f_equal; [|lia].
      destruct (rl_lcn r >=? 0) eqn:El; [|by rewrite El]. apply Z.geb_le in El.
      destruct (Z.geb_spec (rl_lcn r + (first - rl_vcn r)) 0); lia.
    + by replace x with first by lia.
Qed.

(** What is left of the window behind its first runs is the window that starts
    there. *)
Lemma cut_rest last v L w l1 m r l2 :
  chain v L w -> cut last L = l1 ++ r :: l2 -> chain v l1 m -> cut last (from m L) = r :: l2.
Proof.
  revert v L. induction l1 as [|q l1 IH]; intros v L HL Hc H1.
  - cbn [chain] in H1. subst m. destruct L as [|r0 L]; [done|]. destruct HL as (Hv & Hr & _). cbn [from].
    unfold run_ok in Hr. destruct (Z.geb_spec v (rl_vcn r0 + rl_length r0)); [lia|].
    destruct (Z.gtb_spec v (rl_vcn r0)); [lia|]. done.
  - destruct L as [|r0 L]; [done|]. cbn [cut app] in Hc.
    destruct ((last >=? 0) && (rl_vcn r0 + rl_length r0 >? last)); [by destruct l1|].
    injection Hc as -> Hc. destruct HL as (Hv & Hr & HL). destruct H1 as (_ & _ & H1).
    pose proof (chain_le _ _ _ H1). cbn [from].
    destruct (Z.geb_spec m (rl_vcn q + rl_length q)); [|lia]. by eapply IH.
Qed.

(** C35: [ntfs_mapping_pairs_build] on a buffer of any size, for a range whose
    last VCN ends an element of the runlist and whose first VCN starts one
    (otherwise the pair of the first, partial, run has to fit): the buffer then
    holds the pairs of the runs from @first_vcn up to *@stop_vcn and a
    terminator, as many as fit, and the memory behind it is kept.  It returns 0
    when *@stop_vcn is the end of the range, and otherwise -ENOSPC, when the pair
    of the run at *@stop_vcn does not fit; the runs left over are those a further
    call with @first_vcn set to *@stop_vcn is for. *)
Theorem build_any_size vol b l t v first last mid post :
  holds b l t -> runlist_wf v l t -> v <= first -> window_args first last (rl_vcn t) ->
  0 < zlen mid -> forallb mapped (window first last l) = true ->
  stop_of last (rl_vcn t) l = window_end last (rl_vcn t) ->
  first_fits (vol_major_ver vol) first (window first last l) l (rl_vcn t) (zlen mid) ->
  exists l1 junk st ret,
    let pairs := enc_runs (vol_major_ver vol) 0 l1 in
    ntfs_mapping_pairs_build vol (mid ++ post) (zlen mid) (Some b) first last =
      Ret (mk_mpb ((pairs ++ 0 :: junk) ++ post) (Some st) ret) /\
    zlen (pairs ++ 0 :: junk) = zlen mid /\ chain first l1 st /\
    ((ret = 0 /\ l1 = window first last l /\ st = window_end last (rl_vcn t)) \/
     (ret = - ENOSPC /\ exists r l2, window st last l = r :: l2 /\ rl_vcn r = st /\
        window first last l = l1 ++ r :: l2 /\
        zlen mid <= zlen (enc_runs (vol_major_ver vol) 0 (l1 ++ [r])))).
Proof.
  intros Hb Hwf Hv Ha Hmid Hmap Hstop Hfit.
  destruct (build_spec vol b l t v first last mid post Hb Hwf Hv Ha Hmid Hmap)
    as (mid' & st & ret & E & Hlen & l1 & l2 & junk & El & -> & Hr).
  destruct Hwf as [Hch _]. destruct Ha as (Hf & Hl & Hfl).
  assert (Hfr : chain first (from first l) (rl_vcn t)) by (eapply from_chain; [exact Hch|lia]).
  assert (Hwin : chain first (window first last l) (window_end last (rl_vcn t))).
  { apply cut_chain; [exact Hfr|lia]. }
  rewrite El in Hwin. apply chain_app in Hwin as (m & H1 & H2).
  exists l1, junk, st, ret. cbv zeta. split; [done|]. split; [done|]. destruct l2 as [|r l2].
  - destruct Hr as [-> ->]. cbn [chain] in H2. rewrite app_nil_r in El.
    split; [congruence|]. left. split_and!; congruence.
  - destruct Hr as (-> & Est & Hno). cbn [chain] in H2. destruct H2 as (Hm & _).
    assert (st = m) as ->.
    { rewrite Est. destruct (decide (l1 = [])) as [->|]; [|done].
      cbn [chain app] in H1, Hno. destruct Hfit as [?|(q & win' & Eq & Hq)]; [congruence|].
      rewrite El in Eq. injection Eq as -> _. lia. }
    split; [done|]. right. split; [done|]. exists r, l2. split_and!; [|done..].
    unfold window in El |- *. rewrite <- (from_from m first v l (rl_vcn t)).
    + by eapply cut_rest.
    + done.
    + by eapply chain_le.
Qed.

Lemma build_any_size_witness :
  exists l1 junk,
    ntfs_mapping_pairs_build demo_vol ([9; 9; 9; 9; 9] ++ [8]) 5
      (Some (demo_page (demo_runs ++ [demo_end]))) 0 (-1) =
        Ret (mk_mpb ((enc_runs 3 0 l1 ++ 0 :: junk) ++ [8]) (Some 4) (- ENOSPC)) /\ chain 0 l1 4.
Proof.
  destruct (build_any_size demo_vol _ demo_runs demo_end 0 0 (-1) [9; 9; 9; 9; 9] [8] demo_holds demo_wf)
    as (l1 & junk & st & ret & E & _ & Hc & _);
    [lia|unfold window_args; cbn; lia|reflexivity..|left; reflexivity|].
  assert (Hm : ntfs_mapping_pairs_build demo_vol ([9; 9; 9; 9; 9] ++ [8]) 5
    (Some (demo_page (demo_runs ++ [demo_end]))) 0 (-1) = Ret (mk_mpb [0x11; 4; 100; 0; 2; 8] (Some 4) (- ENOSPC)))
    by (vm_compute; reflexivity).
  change (zlen [9; 9; 9; 9; 9]) with 5 in E. rewrite E in Hm. injection Hm as _ -> ->.
  exists l1, junk. split; [exact E|exact Hc].
Defined.

(** On a range that starts inside an element whose pair does not fit,
    *@stop_vcn is the start of that element, below @first_vcn; and when
    @last_vcn lies inside an element, the end of that element. *)
Example build_stop_partial :
  ntfs_mapping_pairs_build demo_vol [9; 9; 9; 9; 9; 9; 9; 9; 9] 2
    (Some (demo_page (demo_runs ++ [demo_end]))) 1 (-1) = Ret (mk_mpb [0; 3; 9; 9; 9; 9; 9; 9; 9] (Some 0) (- ENOSPC)) /\
  ntfs_mapping_pairs_build demo_vol [9; 9; 9; 9; 9; 9; 9; 9; 9] 9
    (Some (demo_page (demo_runs ++ [demo_end]))) 0 2 = Ret (mk_mpb [0x11; 3; 100; 0; 9; 9; 9; 9; 9] (Some 4) 0).
Proof. split; vm_compute; reflexivity. Qed.

(** ** Decompression *)

(** A volume geometry and allocated size without overflow. *)
Definition geometry_ok (vol : ntfs_volume) (alloc : Z) : Prop :=
  1 <= vol_cluster_size vol /\ 0 <= vol_cluster_size_bits vol /\
  0 <= alloc <= S64_MAX - vol_cluster_size vol.

(** The map a decompressed extent denotes. *)
Definition extent_lcn (vol : ntfs_volume) (lowest highest alloc w : Z) (l : list runlist_element) (x : Z) : Z :=
  if x <? lowest then LCN_RL_NOT_MAPPED
  else if x <? w then default LCN_ENOENT (look l x)
  else if negb (lowest =? 0) then LCN_RL_NOT_MAPPED
  else if negb (highest =? 0) && (x <=? max_cluster vol alloc) then LCN_RL_NOT_MAPPED
  else LCN_ENOENT.

Lemma max_cluster_bound vol alloc :
  geometry_ok vol alloc -> -1 <= max_cluster vol alloc < S64_MAX.
Proof.
  intros (Hc & Hb & Ha). unfold max_cluster, S64_MAX in *.
  rewrite (s64_id (alloc + _)), (s64_id (alloc + _ - 1)) by (unfold S64_MIN, S64_MAX; lia).
  set (n := alloc + vol_cluster_size vol - 1). assert (0 <= n <= 0x7fffffffffffffff) by lia.
  assert (0 <= Z.shiftr n (vol_cluster_size_bits vol) <= n).
  { rewrite Z.shiftr_div_pow2 by lia. split; [apply Z.div_pos; [lia|apply Z.pow_pos_nonneg; lia]|].
    assert (0 < 2 ^ vol_cluster_size_bits vol) by (apply Z.pow_pos_nonneg; lia).
    apply Z.div_le_upper_bound; nia. }
  rewrite s64_id by (unfold S64_MIN, S64_MAX; lia). lia.
Qed.

Lemma decoded_wf vol lowest highest alloc w l :
  extent_ok vol lowest highest alloc w l -> geometry_ok vol alloc ->
  exists L t, decoded_head lowest ++ l ++ decoded_tail vol lowest highest alloc w = L ++ [t] /\
    runlist_wf 0 L t /\
    forall x, 0 <= x -> denote L t x = extent_lcn vol lowest highest alloc w l x.
Proof.
  intros (Hl0 & Hch & Hmap & Hne & Hcount & Hhi & Hmax) Hg.
  pose proof (max_cluster_bound vol alloc Hg) as Hm. set (m := max_cluster vol alloc) in *.
  assert (Hw : lowest < w <= S64_MAX).
  { destruct l as [|r l]; [done|]. destruct Hch as (Hv & Hr & Hc). unfold run_ok in Hr.
    pose proof (chain_le _ _ _ Hc). split; [lia|]. eapply chain_max; [exact Hc|lia]. }
  assert (Hhd : chain 0 (decoded_head lowest) lowest).
  { apply (first_list_chain lowest [] lowest); [lia|done]. }
  assert (Hhl : forall L x, 0 <= x -> look (decoded_head lowest ++ L) x =
    if x <? lowest then Some LCN_RL_NOT_MAPPED else look L x).
  { intros L x Hx. rewrite (look_app 0 _ lowest) by done. destruct (Z.ltb_spec x lowest); [|done].
    unfold decoded_head. destruct (Z.eqb_spec lowest 0); [lia|]. cbn.
    by destruct (Z.ltb_spec x (0 + lowest)); [|lia]. }
  assert (Hll : forall x, lowest <= x < w -> exists y, look l x = Some y) by (intros; by eapply look_Some).
  unfold decoded_tail, extent_lcn. fold m. unfold denote.
  destruct (Z.eqb_spec lowest 0) as [El|El]; cbn [negb].
  - specialize (Hmax El). destruct (Z.eqb_spec highest 0) as [Eh|Eh]; cbn [negb andb].
    2:{ specialize (Hhi Eh). specialize (Hmax Eh). destruct (Z.ltb_spec highest m).
      - rewrite (s64_id (m - highest)), s64_id by (unfold S64_MIN, S64_MAX in *; lia).
        replace (w + (m - highest)) with (m + 1) by lia.
        set (q := mk_rle w LCN_RL_NOT_MAPPED (m - highest)). set (t := mk_rle (m + 1) LCN_ENOENT 0).
        exists (decoded_head lowest ++ l ++ [q]), t. split; [by rewrite <- !app_assoc|].
        assert (Hq : chain w [q] (m + 1)).
        { cbn. split; [done|]. split; [|lia]. unfold run_ok, LCN_RL_NOT_MAPPED, S64_MAX in *. cbn. lia. }
        split; [split; [eapply chain_app_2; [done|by eapply chain_app_2]|]|].
        { unfold term_ok, t, LCN_ENOENT, LCN_RL_NOT_MAPPED. cbn. lia. }
        intros x Hx. rewrite Hhl by done. destruct (Z.ltb_spec x lowest); [done|].
        rewrite (look_app lowest l w) by (done || lia). destruct (Z.ltb_spec x w).
        { destruct (Hll x ltac:(lia)) as [y ->]. done. }
        cbn. replace (w + (m - highest)) with (m + 1) by lia.
        destruct (Z.ltb_spec x (m + 1)), (Z.leb_spec x m); try lia; done.
      - exists (decoded_head lowest ++ l), (mk_rle w LCN_ENOENT 0). split; [by rewrite <- app_assoc|].
        split; [split; [by eapply chain_app_2|]|].
        { unfold term_ok, LCN_ENOENT, LCN_RL_NOT_MAPPED. cbn. lia. }
        intros x Hx. rewrite Hhl by done. destruct (Z.ltb_spec x lowest); [done|].
        destruct (Z.ltb_spec x w); [done|]. rewrite (look_None lowest l w) by done. cbn.
        by destruct (Z.leb_spec x m); [lia|]. }
    exists (decoded_head lowest ++ l), (mk_rle w LCN_ENOENT 0). split; [by rewrite <- app_assoc|].
    split; [split; [by eapply chain_app_2|]|].
    { unfold term_ok, LCN_ENOENT, LCN_RL_NOT_MAPPED. cbn. lia. }
    intros x Hx. rewrite Hhl by done. destruct (Z.ltb_spec x lowest); [done|].
    destruct (Z.ltb_spec x w); [done|]. by rewrite (look_None lowest l w).
  - exists (decoded_head lowest ++ l), (mk_rle w LCN_RL_NOT_MAPPED 0). split; [by rewrite <- app_assoc|].
    split; [split; [by eapply chain_app_2|]|].
    { unfold term_ok, LCN_ENOENT, LCN_RL_NOT_MAPPED. cbn. lia. }
    intros x Hx. rewrite Hhl by done. destruct (Z.ltb_spec x lowest); [done|].
    destruct (Z.ltb_spec x w); [|by rewrite (look_None lowest l w)].
    destruct (Hll x ltac:(lia)) as [y ->]. done.
Qed.

(** Decompressing an extent into no runlist. *)
Lemma decompress_denotes {KA : KernelAlloc} vol mem lowest highest alloc ver l w post :
  nonresident mem lowest highest alloc (mapping_pairs ver l) post ->
  extent_ok vol lowest highest alloc w l -> geometry_ok vol alloc ->
  ntfs_mapping_pairs_decompress vol mem None = Errno ENOMEM \/
  exists b L t, ntfs_mapping_pairs_decompress vol mem None = Ret (Some b) /\
    holds b L t /\ runlist_wf 0 L t /\
    forall x, 0 <= x <= S64_MAX ->
      ntfs_rl_vcn_to_lcn (Some b) x = Ret (extent_lcn vol lowest highest alloc w l x).
Proof.
  intros Hm He Hg. destruct (decompress_spec vol mem lowest highest alloc ver l w post Hm He)
    as [->|(sl & ->)]; [by left|]. right.
  destruct (decoded_wf vol lowest highest alloc w l He Hg) as (L & t & EL & Hwf & Hd).
  assert (Hh : holds (decoded_head lowest ++ l ++ decoded_tail vol lowest highest alloc w ++ sl) L t).
  { exists sl. rewrite !app_assoc, <- (app_assoc _ l), EL. by rewrite <- app_assoc. }
  do 3 eexists. split; [done|]. split; [exact Hh|]. split; [done|]. intros x Hx.
  rewrite (vcn_to_lcn_denote _ L t 0 x Hwf Hh) by lia.
  destruct (Z.ltb_spec x 0); [lia|]. by rewrite Hd by lia.
Qed.

(** Decompressing the mapping pairs array of the runs of an extent gives,
    unless memory runs out, a well-formed runlist that maps each VCN of the
    extent to the LCN of its run, marks the rest of the attribute as not mapped,
    and ends with LCN_ENOENT exactly when the end of the attribute is known. *)
Theorem decompress_correct {KA : KernelAlloc} vol mem lowest highest alloc ver l w post :
  nonresident mem lowest highest alloc (mapping_pairs ver l) post ->
  extent_ok vol lowest highest alloc w l -> geometry_ok vol alloc ->
  ntfs_mapping_pairs_decompress vol mem None = Errno ENOMEM \/
  exists b L t, ntfs_mapping_pairs_decompress vol mem None = Ret (Some b) /\
    holds b L t /\ runlist_wf 0 L t /\
    forall x, 0 <= x <= S64_MAX ->
      ntfs_rl_vcn_to_lcn (Some b) x = Ret (extent_lcn vol lowest highest alloc w l x).
Proof. apply decompress_denotes. Qed.

(** An attribute record: the header fields used, the array at offset 64. *)
Definition demo_attr (lowest highest alloc len : Z) (mp : list Z) : list Z :=
  repeat 0 4 ++ le_split 4 len ++ repeat 0 8 ++ le_split 8 lowest ++ le_split 8 highest ++
  le_split 2 64 ++ repeat 0 6 ++ le_split 8 alloc ++ repeat 0 16 ++ mp ++ repeat 0 4.

Definition demo_mp : list Z := mapping_pairs 3 demo_runs.

Lemma demo_nonresident lowest highest :
  S64_MIN <= lowest <= S64_MAX -> S64_MIN <= highest <= S64_MAX ->
  nonresident (demo_attr lowest highest 28672 75 demo_mp) lowest highest 28672 demo_mp (repeat 0 4).
Proof.
  intros Hl Hh. assert (Hrd : forall z, S64_MIN <= z <= S64_MAX -> le_combine (le_split 8 z) = u64 z).
  { intros z Hz. by rewrite le_combine_split. }
  split.
  - exists (take 64 (demo_attr lowest highest 28672 75 demo_mp)), 75. done.
  - unfold rd_sle64, rd_le64. transitivity (Ret (sle64_to_cpu (le_combine (le_split 8 lowest)))); [done|].
    rewrite Hrd by done. f_equal. by apply sle64_roundtrip.
  - unfold rd_sle64, rd_le64. transitivity (Ret (sle64_to_cpu (le_combine (le_split 8 highest)))); [done|].
    rewrite Hrd by done. f_equal. by apply sle64_roundtrip.
  - done.
Qed.

Lemma demo_extent lowest highest :
  lowest = 0 -> highest = 6 -> extent_ok demo_vol lowest highest 28672 7 demo_runs.
Proof.
  intros -> ->. unfold extent_ok. by split_and!.
Qed.

Lemma demo_geometry : geometry_ok demo_vol 28672.
Proof. unfold geometry_ok, S64_MAX. cbn. lia. Qed.

Lemma decompress_correct_witness :
  exists b, @ntfs_mapping_pairs_decompress demo_alloc demo_vol (demo_attr 0 6 28672 75 demo_mp) None = Ret (Some b) /\
    ntfs_rl_vcn_to_lcn (Some b) 6 = Ret 50.
Proof.
  destruct (@decompress_correct demo_alloc demo_vol (demo_attr 0 6 28672 75 demo_mp) 0 6 28672 3 demo_runs 7 (repeat 0 4))
    as [E|(b & L & t & E & _ & _ & Hx)].
  - apply demo_nonresident; unfold S64_MIN, S64_MAX; lia.
  - by apply demo_extent.
  - exact demo_geometry.
  - vm_compute in E. discriminate.
  - exists b. split; [exact E|]. rewrite Hx by (unfold S64_MAX; lia). reflexivity.
Defined.

(** C3: on any attribute record, however corrupt, whose header is in memory and
    whose length leaves one more readable byte, [ntfs_mapping_pairs_decompress]
    decodes the mapping pairs without reading or writing outside its buffers and
    terminates: when no runlist exists yet (old_rl is NULL), it returns a runlist,
    -EIO or -ENOMEM.  With an existing runlist it fails with -EIO or -ENOMEM in the
    same cases, returns the existing runlist when the array is empty, and otherwise
    returns what [ntfs_runlists_merge] makes of the existing and the decoded
    runlist, which is not part of this claim. *)
Theorem decompress_any_input {KA : KernelAlloc} vol mem off attr_end :
  48 <= zlen mem -> Forall byte_ok mem ->
  rd_le16 mem ATTR_mapping_pairs_offset = Ret off -> rd_le32 mem ATTR_length = Ret attr_end ->
  attr_end < zlen mem ->
  let decompress := ntfs_mapping_pairs_decompress vol mem in
  (exists e, (e = EIO \/ e = ENOMEM) /\ forall old_rl, decompress old_rl = Errno e) \/
  (forall old_rl, decompress old_rl = Ret old_rl) \/
  (exists rl, decompress None = Ret (Some rl) /\
     forall old_rl, decompress (Some old_rl) = ntfs_runlists_merge (Ret (Some old_rl)) (Ret (Some rl))).
Proof.
  intros Hlen Hbytes Hoff Hend Hfit decompress.
  assert (H64 : forall o, 0 <= o <= 40 -> exists z, rd_sle64 mem o = Ret z).
  { intros o Ho. unfold rd_sle64, rd_le64, rd_bytes. cmp_true. cbn [andb]. rewrite !bind_Ret. eauto. }
  destruct (H64 ATTR_lowest_vcn) as [lo Hlo]; [unfold ATTR_lowest_vcn; lia|].
  destruct (H64 ATTR_highest_vcn) as [hi Hhi]; [unfold ATTR_highest_vcn; lia|].
  destruct (H64 ATTR_allocated_size) as [al Hal]; [unfold ATTR_allocated_size; lia|].
  assert (Hoff0 : 0 <= off).
  { unfold rd_le16 in Hoff. apply bind_Ret_inv in Hoff as (l & Hl & [= <-]).
    unfold rd_bytes in Hl. destruct ((0 <=? _) && _); [|done]. injection Hl as <-.
    apply le_combine_bound. by apply Forall_take, Forall_drop. }
  pose proof (decompress_safe vol mem lo hi al off attr_end Hlo Hhi Hal Hoff Hend Hoff0 Hfit) as Hc.
  assert (Hthen : forall old, decompress old = _) by (intros old; apply decompress_then).
  destruct (ntfs_mapping_pairs_decompress vol mem None) as [[rl|]|e| | |] eqn:E; cbn in Hc; try done.
  - right. right. exists rl. split; [exact E|]. intros old. by rewrite Hthen.
  - right. left. intros old. by rewrite Hthen.
  - left. exists e. split; [naive_solver|]. intros old. by rewrite Hthen.
Qed.

Lemma decompress_any_input_witness :
  let mem := demo_attr 0 6 28672 75 [0x7f; 1; 2; 3; 0x44; 9; 9; 9; 9; 9; 0] in
  @ntfs_mapping_pairs_decompress demo_alloc demo_vol mem None = Errno EIO /\
  @ntfs_mapping_pairs_decompress demo_alloc demo_vol mem (Some (demo_page (demo_runs ++ [demo_end]))) = Errno EIO.
Proof.
  intros mem. destruct (@decompress_any_input demo_alloc demo_vol mem 64 75) as [(e & He & Hd)|[Hd|(rl & E & _)]].
  - vm_compute. discriminate.
  - apply (list.Forall_impl (fun b => ((0 <=? b) && (b <? 0x100)) = true)); [|unfold byte_ok; lia].
    repeat (constructor; [reflexivity|]). constructor.
  - reflexivity.
  - reflexivity.
  - vm_compute. reflexivity.
  - rewrite !Hd. destruct He as [->| ->]; [done|]. specialize (Hd None). vm_compute in Hd. discriminate.
  - specialize (Hd None). vm_compute in Hd. discriminate.
  - vm_compute in E. discriminate.
Defined.

Lemma window_short first last l : zlen (window first last l) <= zlen l.
Proof.
  assert (Hc : forall l, zlen (cut last l) <= zlen l).
  { clear l. induction l as [|r l' IH]; cbn [cut]; [lia|]. destruct ((last >=? 0) && _); zlen_lia. }
  assert (Hf : forall l, zlen (from first l) <= zlen l).
  { clear l. induction l as [|r l' IH]; cbn [from]; [lia|].
    destruct (first >=? _); [zlen_lia|]. destruct (first >? _); zlen_lia. }
  unfold window. etrans; [apply Hc|apply Hf].
Qed.

(** C2: building the mapping pairs array of part of a runlist and decompressing
    it from an attribute record gives back the LCN of every VCN of that part. *)
Theorem build_decompress_roundtrip {KA : KernelAlloc}
    vol b l t v first last mid post out stop mem highest alloc rest :
  holds b l t -> runlist_wf v l t -> 0 <= v <= first -> window_args first last (rl_vcn t) ->
  forallb mapped (window first last l) = true -> zlen l + 3 <= RLPOS_MAX -> 0 < zlen mid ->
  zlen out = zlen mid ->
  ntfs_mapping_pairs_build vol (mid ++ post) (zlen mid) (Some b) first last = Ret (mk_mpb (out ++ post) stop 0) ->
  let w := window_end last (rl_vcn t) in
  nonresident mem first highest alloc out rest -> geometry_ok vol alloc -> first < w ->
  (highest <> 0 -> highest = w - 1) -> (first = 0 -> highest <> 0 -> highest <= max_cluster vol alloc) ->
  ntfs_mapping_pairs_decompress vol mem None = Errno ENOMEM \/
  exists b', ntfs_mapping_pairs_decompress vol mem None = Ret (Some b') /\
    forall x, first <= x < w -> ntfs_rl_vcn_to_lcn (Some b') x = ntfs_rl_vcn_to_lcn (Some b) x.
Proof.
  intros Hb Hwf Hv Ha Hmap Hcount Hmid Hout Hbuild w Hmem Hg Hlt Hhi Hmax.
  destruct (build_spec vol b l t v first last mid post) as (mid' & st & ret & E & Hlen & l1 & l2 & junk & El & Emid & Hr);
    [done..|lia|done|done|done|]. rewrite E in Hbuild. injection Hbuild as Epost _ ->.
  apply app_inj_1 in Epost as [<- _]; [|unfold zlen in *; lia].
  destruct l2 as [|r l2]; [|by destruct Hr as [? _]]. rewrite app_nil_r in El. subst l1.
  destruct Hwf as [Hch Ht]. destruct Ha as (Hf & Hl & Hfl).
  assert (Hfr : chain first (from first l) (rl_vcn t)) by (eapply from_chain; [exact Hch|lia]).
  assert (Hwin : chain first (window first last l) w) by (apply cut_chain; [done|lia]).
  assert (Hsrc : forall x, first <= x < w -> look (window first last l) x = look l x).
  { intros x Hx. unfold window. rewrite (cut_look last first _ (rl_vcn t)); [by eapply from_look; [exact Hch|lia..]|done|].
    unfold w, window_end in Hx. destruct (Z.geb_spec last 0); lia. }
  assert (Hext : extent_ok vol first highest alloc w (window first last l)).
  { unfold extent_ok. pose proof (window_short first last l). split_and!; try done; [lia| |lia].
    intros Hn. rewrite Hn in Hwin. cbn in Hwin. lia. }
  assert (Hmem' : nonresident mem first highest alloc
    (mapping_pairs (vol_major_ver vol) (window first last l)) (junk ++ rest)).
  { destruct Hmem as [(pre & ae & Hm & H1 & H2 & H3) H4 H5 H6]. split; [|done..].
    exists pre, ae. unfold mapping_pairs. rewrite Emid in Hm, H3. split_and!; try done.
    - rewrite Hm. by rewrite <- !app_assoc.
    - zlen_lia. }
  destruct (decompress_spec vol mem first highest alloc _ _ w _ Hmem' Hext) as [->|(sl & ->)]; [by left|].
  right. eexists. split; [done|]. intros x Hx.
  destruct (decoded_wf vol first highest alloc w _ Hext Hg) as (L & t' & EL & Hwf' & Hd).
  assert (Hh : holds (decoded_head first ++ window first last l ++ decoded_tail vol first highest alloc w ++ sl) L t').
  { exists sl. rewrite !app_assoc, <- (app_assoc _ (window _ _ _)), EL. by rewrite <- app_assoc. }
  assert (HxM : x <= S64_MAX).
  { destruct Ht as (_ & ? & _). unfold w, window_end in Hx. destruct (last >=? 0); lia. }
  rewrite (vcn_to_lcn_denote _ L t' 0 x Hwf' Hh), (vcn_to_lcn_denote b l t v x) by (done || lia).
  destruct (Z.ltb_spec x 0); [lia|]. destruct (Z.ltb_spec x v); [lia|]. rewrite Hd by lia.
  unfold extent_lcn, denote. destruct (Z.ltb_spec x first); [lia|]. destruct (Z.ltb_spec x w); [|lia].
  destruct (look_Some _ _ _ x Hwin Hx) as [y Hy]. rewrite <- Hsrc by done. by rewrite Hy.
Qed.

Lemma build_decompress_roundtrip_witness :
  exists b', @ntfs_mapping_pairs_decompress demo_alloc demo_vol (demo_attr 0 6 28672 75 demo_mp) None = Ret (Some b') /\
    ntfs_rl_vcn_to_lcn (Some b') 6 = Ret 50.
Proof.
  destruct (@build_decompress_roundtrip demo_alloc demo_vol (demo_page (demo_runs ++ [demo_end])) demo_runs demo_end
    0 0 (-1) (repeat 9 (length demo_mp)) [] demo_mp (Some 7) (demo_attr 0 6 28672 75 demo_mp) 6 28672 (repeat 0 4))
    as [E|(b' & E & Hx)].
  - exact demo_holds.
  - exact demo_wf.
  - lia.
  - unfold window_args. cbn. lia.
  - reflexivity.
  - vm_compute. discriminate.
  - reflexivity.
  - reflexivity.
  - vm_compute. reflexivity.
  - apply demo_nonresident; unfold S64_MIN, S64_MAX; lia.
  - exact demo_geometry.
  - reflexivity.
  - reflexivity.
  - intros _ _. vm_compute. discriminate.
  - vm_compute in E. discriminate.
  - exists b'. split; [exact E|]. rewrite Hx by (vm_compute; split; [discriminate|reflexivity]). reflexivity.
Defined.

Lemma decoded_head_unmapped lowest :
  Forall (fun r => negb (rl_length r =? 0) && (rl_lcn r <? LCN_HOLE) = true) (decoded_head lowest).
Proof.
  unfold decoded_head. destruct (Z.eqb_spec lowest 0); [done|]. repeat constructor. cbn.
  by destruct (Z.eqb_spec lowest 0).
Qed.

(** Decompressing an extent into a runlist. *)
Lemma decompress_merges {KA : KernelAlloc} vol mem lowest highest alloc ver l w post D td sl :
  nonresident mem lowest highest alloc (mapping_pairs ver l) post ->
  extent_ok vol lowest highest alloc w l -> 0 < lowest ->
  runlist_wf 0 D td -> room (D ++ td :: sl) (zlen D + 1) -> zlen D + zlen l + 3 <= RL_MAX ->
  mergeable_at D td l lowest w ->
  let m := ntfs_mapping_pairs_decompress vol mem (Some (D ++ td :: sl)) in
  m = Errno ENOMEM \/
  exists b L t, m = Ret (Some b) /\ holds b L t /\ runlist_wf 0 L t /\
    forall x, 0 <= x <= S64_MAX -> ntfs_rl_vcn_to_lcn (Some b) x = Ret (overlay D td l lowest w x).
Proof.
  intros Hm He Hlow HD Hroom Hmax Hat m. unfold m.
  destruct (decompress_spec vol mem lowest highest alloc ver l w post Hm He) as [E|(rest & E)].
  { left. by rewrite decompress_then, E. }
  rewrite (decompress_old vol mem _ _ E). clear E.
  unfold decoded_tail. destruct (Z.eqb_spec lowest 0); [lia|]. cbn [app].
  destruct He as (_ & Hch & Hmap & Hne & _).
  assert (Hsrc : extent_src (decoded_head lowest) l (mk_rle w LCN_RL_NOT_MAPPED 0) lowest w).
  { unfold extent_src. split_and!; try done; [apply decoded_head_unmapped| |].
    - destruct l as [|r l']; [done|]. destruct Hch as (Hv & Hr & Hc). apply chain_le in Hc.
      unfold run_ok in Hr. lia.
    - apply list.Forall_forall. intros r Hr. rewrite forallb_forall in Hmap.
      apply Z.leb_le, Hmap. by apply list_elem_of_In. }
  unfold ntfs_runlists_merge.
  destruct (merge_both_correct D td sl (decoded_head lowest) l _ rest lowest w HD Hroom Hmax Hsrc Hat)
    as [->|(L & t & sl' & -> & Hwf & _ & _ & Hd)]; [by left|]. right.
  exists (L ++ t :: sl'), L, t. split; [done|]. split; [by eexists|]. split; [done|].
  intros x Hx. rewrite (vcn_to_lcn_denote _ L t 0 x Hwf) by ((by eexists) || lia).
  destruct (Z.ltb_spec x 0); [lia|]. by rewrite Hd by lia.
Qed.

(** C28: mapping a further extent: decompressing the record of an extent that
    starts behind VCN 0 into an existing runlist, together fewer than 2^26 elements.
    The VCNs of the extent lie
    inside one element of the runlist that is a hole or not mapped, or start at
    its end or behind it, where after a gap behind a "not mapped" end one element
    of the buffer has to stay free ([mergeable_at]).  The function then either
    runs out of memory or gives a well-formed runlist that maps the VCNs
    of the extent as its mapping pairs say and every other VCN as before. *)
Theorem map_extent_correct {KA : KernelAlloc} vol mem lowest highest alloc ver l w post D td sl :
  nonresident mem lowest highest alloc (mapping_pairs ver l) post ->
  extent_ok vol lowest highest alloc w l -> 0 < lowest ->
  runlist_wf 0 D td -> room (D ++ td :: sl) (zlen D + 1) -> zlen D + zlen l + 3 <= RL_MAX ->
  mergeable_at D td l lowest w ->
  let m := ntfs_mapping_pairs_decompress vol mem (Some (D ++ td :: sl)) in
  m = Errno ENOMEM \/
  exists b L t, m = Ret (Some b) /\ holds b L t /\ runlist_wf 0 L t /\
    forall x, 0 <= x <= S64_MAX -> ntfs_rl_vcn_to_lcn (Some b) x = Ret (overlay D td l lowest w x).
Proof. apply decompress_merges. Qed.

Lemma map_extent_correct_witness :
  exists b, @ntfs_mapping_pairs_decompress demo_alloc demo_vol
      (demo_attr 4 10 28672 75 (mapping_pairs 3 [mk_rle 4 100 4; mk_rle 8 (-1) 2; mk_rle 10 50 1]))
      (Some ([mk_rle 0 7 4; mk_rle 4 (-2) 10] ++ mk_rle 14 (-3) 0 :: repeat (mk_rle 0 0 0) 167)) = Ret (Some b) /\
    ntfs_rl_vcn_to_lcn (Some b) 10 = Ret 50.
Proof.
  destruct (@map_extent_correct demo_alloc demo_vol
    (demo_attr 4 10 28672 75 (mapping_pairs 3 [mk_rle 4 100 4; mk_rle 8 (-1) 2; mk_rle 10 50 1])) 4 10 28672 3
    [mk_rle 4 100 4; mk_rle 8 (-1) 2; mk_rle 10 50 1] 11 (repeat 0 4)
    [mk_rle 0 7 4; mk_rle 4 (-2) 10] (mk_rle 14 (-3) 0) (repeat (mk_rle 0 0 0) 167))
    as [E|(b & L & t & E & _ & _ & Hx)].
  - split; [exists (take 64 (demo_attr 4 10 28672 75 [])), 75; done|done..].
  - unfold extent_ok. by split_and!.
  - lia.
  - wf_demo.
  - unfold room. vm_compute. discriminate.
  - vm_compute. discriminate.
  - left. exists [mk_rle 0 7 4], (mk_rle 4 (-2) 10), []. cbn. split_and!; done || lia.
  - vm_compute in E. discriminate.
  - exists b. split; [exact E|]. rewrite Hx by (unfold S64_MAX; lia). reflexivity.
Defined.
