(* ===== verification/RunlistEdit.v ===== *)
(** * Truncating a runlist and punching holes

    Models [ntfs_rl_truncate_nolock] and [ntfs_rl_punch_nolock] of
    [src/ntfs/runlist.c].  The [runlist] structure is the buffer its @rl member
    points to, [None] being NULL; both functions give the new @rl and the return
    value.  Pointers into the buffer are indices. *)

From Stdlib Require Import ZArith Lia Bool.
From stdpp Require Import base list numbers option.
From S2P Require Import Prelude Runlist RunlistMerge MappingPairs.

Definition nonterm (r : runlist_element) : bool := negb (rl_length r =? 0).

Section Edit.
Context `{KA : KernelAlloc}.

(** A reallocation that may fail with a warning only. *)
Definition try_realloc (rl : rl_buf) (old_size new_size : Z) : outcome rl_buf :=
  match ntfs_rl_realloc rl old_size new_size with
  | Errno _ => Ret rl
  | o => o
  end.

(** ** ntfs_rl_truncate_nolock *)

(** "Shrinking runlist": [rl] is the run that contains @new_length. *)
Definition truncate_shrink (b : rl_buf) (rl new_length : Z) : outcome rl_buf :=
  trl ← scan_up (scan_fuel b) nonterm b (rl + 1);
  let old_size := trl + 1 in
  b ← upd b rl (fun r => set_length (s64 (new_length - rl_vcn r)) r);
  r ← rd b rl;
  '(b, rl, is_end) ←
    (if negb (rl_length r =? 0) then
       n ← rd b (rl + 1);
       b ← upd b (rl + 1) (set_vcn new_length);
       b ← upd b (rl + 1) (set_length 0);
       Ret (b, rl + 1, rl_length n =? 0)
     else Ret (b, rl, false));
  b ← upd b rl (set_lcn LCN_ENOENT);
  if negb is_end then try_realloc b old_size (rl + 1) else Ret b.

(** "Expanding runlist": [rl] is the terminator. *)
Definition truncate_expand (b : rl_buf) (rl new_length : Z) : outcome (rl_buf * Z) :=
  sparse ← (if rl >? 0 then p ← rd b (rl - 1); Ret (rl_lcn p =? LCN_HOLE) else Ret false);
  let last b rl :=
    b ← upd b rl (set_vcn new_length);
    b ← upd b rl (set_lcn LCN_ENOENT);
    Ret (b, 0) in
  if (sparse : bool) then
    b ← upd b (rl - 1) (fun p => set_length (s64 (new_length - rl_vcn p)) p);
    last b rl
  else
    let old_size := rl + 1 in
    match ntfs_rl_realloc b old_size (old_size + 1) with
    | Errno e => Ret (b, - e)
    | o =>
        b ← o;
        b ← upd b rl (set_lcn LCN_HOLE);
        b ← upd b rl (fun r => set_length (s64 (new_length - rl_vcn r)) r);
        b ← upd b (rl + 1) (set_length 0);
        last b (rl + 1)
    end.

Definition ntfs_rl_truncate_nolock (runlist : option rl_buf) (new_length : Z)
    : outcome (option rl_buf * Z) :=
  BUG_ON (new_length <? 0);;
  if new_length =? 0 then Ret (None, 0)
  else match runlist with
  | None =>
      p ← ntfs_malloc_nofs PAGE_SIZE;
      match p with
      | None => Ret (None, - ENOMEM)
      | Some bytes =>
          rl ← upd (fresh_rl bytes) 0 (set_vcn 0);
          rl ← upd rl 1 (set_length 0);
          rl ← upd rl 0 (set_lcn LCN_HOLE);
          rl ← upd rl 0 (set_length new_length);
          rl ← upd rl 1 (set_vcn new_length);
          rl ← upd rl 1 (set_lcn LCN_ENOENT);
          Ret (Some rl, 0)
      end
  | Some b =>
      r0 ← rd b 0;
      BUG_ON (new_length <? rl_vcn r0);;
      rl ← skip_to (scan_fuel b) b new_length 0;
      r ← rd b rl;
      if negb (rl_length r =? 0) then
        b ← truncate_shrink b rl new_length; Ret (Some b, 0)
      else if new_length >? rl_vcn r then
        '(b, err) ← truncate_expand b rl new_length; Ret (Some b, err)
      else b ← upd b rl (set_lcn LCN_ENOENT); Ret (Some b, 0)
  end.

(** ** ntfs_rl_punch_nolock *)

(** "Find @end in the runlist": [None] is [return -EINVAL]. *)
Fixpoint punch_end (fuel : nat) (b : rl_buf) (end_ i : Z) : outcome (option Z) :=
  match fuel with
  | O => Diverge
  | S fuel =>
      r ← rd b i;
      if negb (rl_length r =? 0) then
        r1 ← rd b (i + 1);
        if end_ >=? rl_vcn r1 then
          if rl_lcn r <? LCN_HOLE then Ret None else punch_end fuel b end_ (i + 1)
        else Ret (Some i)
      else Ret (Some i)
  end.

(** "Cut out all runlist elements up to @end." *)
Definition punch_cut (b : rl_buf) (rl rl_end rl_real_end : Z) : outcome rl_buf :=
  if rl <? rl_end then blit b rl b rl_end (rl_real_end - rl_end + 1) else Ret b.

(** [shrink_allocation:] *)
Definition punch_shrink (b : rl_buf) (rl rl_end old_size : Z) : outcome rl_buf :=
  if rl <? rl_end then try_realloc b old_size (old_size - (rl_end - rl)) else Ret b.

(** [extend_hole:] *)
Definition punch_extend (b : rl_buf) (rl rl_end rl_real_end old_size end_ : Z) : outcome rl_buf :=
  b ← upd b rl (fun r => set_length (s64 (end_ - rl_vcn r)) r);
  e ← rd b rl_end;
  '(b, rl_end) ←
    (if rl_lcn e =? LCN_HOLE then
       e1 ← rd b (rl_end + 1);
       b ← upd b rl (fun r => set_length (s64 (rl_vcn e1 - rl_vcn r)) r);
       Ret (b, rl_end + 1)
     else Ret (b, rl_end));
  let rl := rl + 1 in
  b ← punch_cut b rl rl_end rl_real_end;
  r ← rd b rl;
  b ← (if end_ >? rl_vcn r then
         let delta := s64 (end_ - rl_vcn r) in
         b ← upd b rl (set_vcn end_);
         b ← upd b rl (fun r => set_length (s64 (rl_length r - delta)) r);
         if rl_lcn r >=? 0 then upd b rl (fun r => set_lcn (s64 (rl_lcn r + delta)) r) else Ret b
       else Ret b);
  punch_shrink b rl rl_end old_size.

(** [split_end:] *)
Definition punch_split_end (b : rl_buf) (rl rl_real_end length : Z) (lcn_fixup : bool) : outcome rl_buf :=
  b ← blit b (rl + 1) b rl (rl_real_end - rl + 1);
  b ← upd b rl (set_lcn LCN_HOLE);
  b ← upd b rl (set_length length);
  b ← upd b (rl + 1) (fun r => set_vcn (s64 (rl_vcn r + length)) r);
  r ← rd b (rl + 1);
  b ← (if (rl_lcn r >=? 0) || lcn_fixup
       then upd b (rl + 1) (fun r => set_lcn (s64 (rl_lcn r + length)) r) else Ret b);
  upd b (rl + 1) (fun r => set_length (s64 (rl_length r - length)) r).

(** @end in a hole, @start inside a run. *)
Definition punch_into_hole (b : rl_buf) (rl rl_end rl_real_end old_size start : Z) : outcome rl_buf :=
  b ← upd b rl (fun r => set_length (s64 (start - rl_vcn r)) r);
  let rl := rl + 1 in
  b ← punch_cut b rl rl_end rl_real_end;
  b ← upd b rl (set_vcn start);
  n ← rd b (rl + 1);
  b ← upd b rl (set_length (s64 (rl_vcn n - start)));
  punch_shrink b rl rl_end old_size.

(** @start inside a run, @end beyond it and not in a hole, when the run after it
    is not the last one affected. *)
Definition punch_over (b : rl_buf) (rl rl_end rl_real_end old_size start end_ : Z) : outcome rl_buf :=
  b ← upd b rl (fun r => set_length (s64 (start - rl_vcn r)) r);
  let rl := rl + 1 in
  b ← upd b rl (set_vcn start);
  b ← upd b rl (set_lcn LCN_HOLE);
  punch_extend b rl rl_end rl_real_end old_size end_.

(** @start inside a run and @end in the next one; the buffer has grown by one. *)
Definition punch_next (b : rl_buf) (rl rl_real_end start length : Z) : outcome rl_buf :=
  b ← upd b rl (fun r => set_length (s64 (start - rl_vcn r)) r);
  let rl := rl + 1 in
  r ← rd b rl;
  let delta := s64 (rl_vcn r - start) in
  b ← upd b rl (set_vcn start);
  '(b, lcn_fixup) ←
    (if rl_lcn r >=? 0
     then b ← upd b rl (fun r => set_lcn (s64 (rl_lcn r - delta)) r); Ret (b, true)
     else Ret (b, false));
  b ← upd b rl (fun r => set_length (s64 (rl_length r + delta)) r);
  punch_split_end b rl rl_real_end length lcn_fixup.

(** @start and @end inside one run; the buffer has grown by two. *)
Definition punch_both (b : rl_buf) (rl rl_real_end start end_ length : Z) : outcome rl_buf :=
  b ← blit b (rl + 2) b rl (rl_real_end - rl + 1);
  b ← upd b rl (fun r => set_length (s64 (start - rl_vcn r)) r);
  b ← upd b (rl + 1) (set_vcn start);
  b ← upd b (rl + 1) (set_lcn LCN_HOLE);
  b ← upd b (rl + 1) (set_length length);
  r ← rd b (rl + 2);
  let delta := s64 (end_ - rl_vcn r) in
  b ← upd b (rl + 2) (set_vcn end_);
  b ← upd b (rl + 2) (fun r => set_lcn (s64 (rl_lcn r + delta)) r);
  upd b (rl + 2) (fun r => set_length (s64 (rl_length r - delta)) r).

(** [trl = ntfs_rl_realloc(runlist->rl, old_size, new_size); if (IS_ERR(trl)) goto
    enomem_out;] and the rest. *)
Definition with_realloc (b : rl_buf) (old_size new_size : Z) (k : rl_buf -> outcome rl_buf)
    : outcome (rl_buf * Z) :=
  match ntfs_rl_realloc b old_size new_size with
  | Errno _ => Ret (b, - ENOMEM)
  | o => b ← o; b ← k b; Ret (b, 0)
  end.

Definition ok (m : outcome rl_buf) : outcome (rl_buf * Z) := b ← m; Ret (b, 0).

(** The cases by where @start ([rl]) and @end ([rl_end]) lie. *)
Definition punch_cases (b : rl_buf) (rl rl_end rl_real_end start end_ length : Z)
    : outcome (rl_buf * Z) :=
  let old_size := rl_real_end + 1 in
  r ← rd b rl;
  if rl_lcn r =? LCN_HOLE then
    r1 ← rd b (rl + 1);
    if end_ <=? rl_vcn r1 then Ret (b, 0)
    else ok (punch_extend b rl rl_end rl_real_end old_size end_)
  else if start =? rl_vcn r then
    prev_hole ← (if rl >? 0 then p ← rd b (rl - 1); Ret (rl_lcn p =? LCN_HOLE) else Ret false);
    if (prev_hole : bool) then ok (punch_extend b (rl - 1) rl_end rl_real_end old_size end_)
    else
      r1 ← rd b (rl + 1);
      if end_ >=? rl_vcn r1 then
        b ← upd b rl (set_lcn LCN_HOLE);
        ok (punch_extend b rl rl_end rl_real_end old_size end_)
      else with_realloc b old_size (old_size + 1) (fun b => punch_split_end b rl rl_real_end length false)
  else
    e ← rd b rl_end;
    if rl_lcn e =? LCN_HOLE then ok (punch_into_hole b rl rl_end rl_real_end old_size start)
    else
      r1 ← rd b (rl + 1);
      if end_ >=? rl_vcn r1 then
        over ← (if negb (rl_length r1 =? 0) then r2 ← rd b (rl + 2); Ret (end_ >=? rl_vcn r2)
                else Ret false);
        if (over : bool) then ok (punch_over b rl rl_end rl_real_end old_size start end_)
        else with_realloc b old_size (old_size + 1) (fun b => punch_next b rl rl_real_end start length)
      else with_realloc b old_size (old_size + 2)
             (fun b => punch_both b rl rl_real_end start end_ length).

Definition ntfs_rl_punch_nolock (runlist : option rl_buf) (start length : Z)
    : outcome (option rl_buf * Z) :=
  let end_ := s64 (start + length) in
  BUG_ON (start <? 0);;
  BUG_ON (length <? 0);;
  BUG_ON (end_ <? 0);;
  match runlist with
  | None => Ret (None, if (start =? 0) && (length =? 0) then 0 else - ENOENT)
  | Some b =>
      rl ← skip_to (scan_fuel b) b start 0;
      re ← punch_end (scan_fuel b) b end_ rl;
      match re with
      | None => Ret (Some b, - EINVAL)
      | Some rl_end =>
          e ← rd b rl_end;
          if negb (rl_length e =? 0) && (rl_lcn e <? LCN_HOLE) then Ret (Some b, - EINVAL)
          else if (rl_length e =? 0) && (end_ >? rl_vcn e) then Ret (Some b, - ENOENT)
          else if length =? 0 then Ret (Some b, 0)
          else
            r ← rd b rl;
            if rl_length r =? 0 then Ret (Some b, - ENOENT)
            else
              rl_real_end ← scan_up (scan_fuel b) nonterm b rl_end;
              '(b, err) ← punch_cases b rl rl_end rl_real_end start end_ length;
              Ret (Some b, err)
      end
  end.
End Edit.
