(* ===== verification/RunlistEditProof.v ===== *)
(** * Correctness of truncating a runlist

    Reallocation that keeps what is in use, and [ntfs_rl_truncate_nolock]. *)

From Stdlib Require Import ZArith Lia Bool.
From stdpp Require Import base list numbers option.
From S2P Require Import Prelude Runlist RunlistSpec RunlistBuf RunlistMerge RunlistMergeSpec.
From S2P Require Import RunlistMergeProof MappingPairs MappingPairsSpec RunlistEdit.

Lemma room_mono (b : rl_buf) n m : 0 <= m <= n -> n <= RL_MAX -> room b n -> room b m.
Proof. unfold room. intros ? ? ?. pose proof (capacity_mono m n). lia. Qed.

(** Replacing elements does not change the room. *)
Lemma room_zlen (b b' : rl_buf) n : room b n -> zlen b' = zlen b -> room b' n.
Proof. unfold room. lia. Qed.

(** Reads and writes at the position of an element: the shape of the buffer is
    solved up to associativity. *)
Tactic Notation "upd_step" constr(pre) constr(x) :=
  rewrite (upd_at _ pre _ x) by at_pos; rewrite bind_Ret.
Tactic Notation "rd_step" constr(pre) constr(x) constr(i) :=
  rewrite (rd_at _ pre _ x i) by at_pos; rewrite bind_Ret.

Section Realloc.
Context `{KA : KernelAlloc}.

(** What is in use survives any reallocation that succeeds. *)
Lemma realloc_keep used sl n m :
  0 < n <= RL_MAX -> 0 < m <= RL_MAX -> zlen used <= n -> zlen used <= m -> room (used ++ sl) n ->
  ntfs_rl_realloc (used ++ sl) n m = Errno ENOMEM \/
  exists sl', ntfs_rl_realloc (used ++ sl) n m = Ret (used ++ sl') /\ room (used ++ sl') m.
Proof.
  intros Hn Hm Hun Hum Hroom. unfold ntfs_rl_realloc.
  pose proof (rl_bytes_bounds n ltac:(lia)). pose proof (rl_bytes_bounds m ltac:(lia)).
  destruct (Z.eqb_spec (rl_bytes n) (rl_bytes m)) as [E|E].
  { right. exists sl. split; [done|]. unfold room, capacity in *. by rewrite <- E. }
  unfold ntfs_malloc_nofs.
  destruct (malloc_cases false (rl_bytes m)) as [->|(bytes & -> & Hb)];
    [unfold RLE_SIZE in *; lia|by left|]. right. rewrite bind_Ret.
  pose proof (capacity_ge n ltac:(lia)). pose proof (capacity_ge m ltac:(lia)).
  pose proof (rl_cap_mono _ _ Hb). unfold room, capacity in *.
  destruct (Z.gtb_spec (rl_bytes n) bytes).
  - destruct (recopy_grow used sl bytes bytes) as (sl' & Hr & Hl).
    + unfold zlen in *. lia.
    + pose proof (rl_cap_mono bytes (rl_bytes n) ltac:(lia)). unfold zlen in *. lia.
    + lia.
    + exists sl'. unfold rl_recopy in *. destruct (Z.gtb_spec (rl_bytes n) bytes); [|lia].
      destruct (Z.gtb_spec bytes bytes); [lia|]. split; [exact Hr|]. unfold zlen. rewrite Hl. lia.
  - destruct (recopy_grow used sl (rl_bytes n) bytes) as (sl' & Hr & Hl); [unfold zlen in *; lia..|].
    exists sl'. split; [exact Hr|]. unfold zlen. rewrite Hl. lia.
Qed.

Lemma realloc_list L t sl n m :
  0 < n <= RL_MAX -> m <= RL_MAX -> zlen L + 1 <= n -> zlen L + 1 <= m -> room (L ++ t :: sl) n ->
  ntfs_rl_realloc (L ++ t :: sl) n m = Errno ENOMEM \/
  exists sl', ntfs_rl_realloc (L ++ t :: sl) n m = Ret (L ++ t :: sl') /\ room (L ++ t :: sl') m.
Proof.
  intros Hn Hm Hu Hum Hroom. pose proof (zlen_nonneg L). rewrite cons_middle, app_assoc in Hroom |- *.
  destruct (realloc_keep (L ++ [t]) sl n m) as [->|(sl' & -> & Hr)]; [lia|lia|zlen_lia|zlen_lia|done|by left|].
  right. exists sl'. rewrite <- app_assoc in Hr |- *. done.
Qed.

(** Giving memory back may fail, which changes nothing. *)
Lemma try_realloc_keep L t sl n m :
  m <= n -> n <= RL_MAX -> zlen L + 1 <= m -> room (L ++ t :: sl) n ->
  exists sl', try_realloc (L ++ t :: sl) n m = Ret (L ++ t :: sl') /\ room (L ++ t :: sl') m.
Proof.
  intros Hm Hn Hu Hroom. pose proof (zlen_nonneg L). unfold try_realloc.
  destruct (realloc_list L t sl n m) as [->|(sl' & -> & Hr)]; [lia|lia|lia|lia|done| |eauto].
  exists sl. split; [done|]. eapply room_mono; [|exact Hn|exact Hroom]. lia.
Qed.

(** ** Truncation *)

(** The map after truncation to [n] clusters. *)
Definition truncated (D : rl_buf) (td : runlist_element) (n x : Z) : Z :=
  if x <? n then (if x <? rl_vcn td then denote D td x else LCN_HOLE) else LCN_ENOENT.

(** A buffer with a runlist of exactly [n] clusters that maps them as [truncated]. *)
Definition truncates (D : rl_buf) (td : runlist_element) (n : Z) (b : rl_buf) : Prop :=
  exists L t, holds b L t /\ runlist_wf 0 L t /\ room b (zlen L + 1) /\ rl_vcn t = n /\ rl_lcn t = LCN_ENOENT /\
    forall x, 0 <= x -> denote L t x = truncated D td n x.

Lemma truncates_intro D td n b L sl :
  b = L ++ mk_rle n LCN_ENOENT 0 :: sl -> chain 0 L n -> 0 <= n <= S64_MAX -> room b (zlen L + 1) ->
  (forall x, 0 <= x < n -> look L x = Some (truncated D td n x)) -> truncates D td n b.
Proof.
  intros -> Hc Hn Hroom Hx. exists L, (mk_rle n LCN_ENOENT 0). split; [by eexists|].
  split; [split; [done|]; unfold term_ok, LCN_ENOENT, LCN_RL_NOT_MAPPED; cbn; lia|]. split_and!; [done..|].
  intros x H0. unfold denote. destruct (Z.ltb_spec x n).
  - by rewrite Hx.
  - rewrite (look_None _ _ _ _ Hc) by done. unfold truncated. by destruct (Z.ltb_spec x n); [lia|].
Qed.

Lemma denote_Some l t x y : look l x = Some y -> denote l t x = y.
Proof. unfold denote. by intros ->. Qed.

(** Below the cut the old list decides. *)
Lemma truncated_below D td n x :
  chain 0 D (rl_vcn td) -> 0 <= x < n -> n <= rl_vcn td -> look D x = Some (truncated D td n x).
Proof.
  intros Hc Hx Hn. unfold truncated. destruct (Z.ltb_spec x n); [|lia].
  destruct (Z.ltb_spec x (rl_vcn td)); [|lia]. destruct (look_Some _ _ _ x Hc) as [y Hy]; [lia|].
  unfold denote. by rewrite Hy.
Qed.

Lemma shrink_spec l1 r l' td sl n :
  let D := l1 ++ r :: l' in
  runlist_wf 0 D td -> room (D ++ td :: sl) (zlen D + 1) -> zlen D + 2 <= RL_MAX ->
  rl_vcn r <= n < rl_vcn r + rl_length r ->
  exists b, truncate_shrink (D ++ td :: sl) (zlen l1) n = Ret b /\ truncates D td n b.
Proof.
  intros D [Hc Ht] Hroom Hmax Hn. pose proof Hc as (m & H1 & Hv & Hr & H2)%chain_app. subst m.
  assert (HzD : zlen D = zlen l1 + (1 + zlen l')) by (unfold D; zlen_lia).
  pose proof (zlen_nonneg l1). pose proof (zlen_nonneg l'). pose proof (chain_le _ _ _ H2) as Hle.
  pose proof (chain_le _ _ _ H1) as Hv0. pose proof Hr as (_ & Hlen & Hmx & _).
  unfold truncate_shrink.
  pose proof (scan_up_spec (l1 ++ [r]) l' td sl nonterm (scan_fuel (D ++ td :: sl))) as Hs.
  replace ((l1 ++ [r]) ++ l' ++ td :: sl) with (D ++ td :: sl) in Hs by (unfold D; by rewrite <- !app_assoc).
  replace (zlen (l1 ++ [r])) with (zlen l1 + 1) in Hs by zlen_lia. rewrite Hs; clear Hs.
  2:{ exact (chain_runs _ _ _ H2). }
  2:{ unfold nonterm. destruct Ht as [-> _]. done. }
  2:{ apply zlen_scan_fuel. unfold D. zlen_lia. }
  rewrite bind_Ret. unfold D. rewrite <- app_assoc. cbn [app]. upd_step l1 r.
  rewrite s64_id by (unfold S64_MIN; lia). rd_step l1 (set_length (n - rl_vcn r) r) (zlen l1).
  change (rl_length (set_length (n - rl_vcn r) r)) with (n - rl_vcn r).
  destruct (Z.eqb_spec (n - rl_vcn r) 0) as [E|E]; cbn [negb].
  - rewrite bind_Ret. upd_step l1 (set_length (n - rl_vcn r) r).
    assert (Et : set_lcn LCN_ENOENT (set_length (n - rl_vcn r) r) = mk_rle n LCN_ENOENT 0)
      by (unfold set_lcn, set_length; cbn; f_equal; lia). rewrite Et.
    destruct (try_realloc_keep l1 (mk_rle n LCN_ENOENT 0) (l' ++ td :: sl) (zlen l1 + 1 + zlen l' + 1) (zlen l1 + 1))
      as (sl' & Hre & Hro); [lia|lia|lia|eapply room_zlen; [eapply room_mono; [| |exact Hroom]; lia|unfold D; zlen_lia]|].
    eexists. split; [exact Hre|].
    eapply (truncates_intro _ _ _ _ l1 sl'); [done|by replace n with (rl_vcn r) by lia|unfold S64_MAX in *; lia|exact Hro|].
    intros x Hx. fold D. rewrite <- (truncated_below D td n x) by (done || lia). unfold D.
    symmetry. eapply look_app_l; [exact H1|lia|lia].
  - destruct (chain_head l' td sl _ H2) as (y & rest & Ey & _). rewrite Ey.
    rd_step (l1 ++ [set_length (n - rl_vcn r) r]) y (zlen l1 + 1).
    upd_step (l1 ++ [set_length (n - rl_vcn r) r]) y.
    upd_step (l1 ++ [set_length (n - rl_vcn r) r]) (set_vcn n y). rewrite bind_Ret.
    upd_step (l1 ++ [set_length (n - rl_vcn r) r]) (set_length 0 (set_vcn n y)).
    change (set_lcn LCN_ENOENT (set_length 0 (set_vcn n y))) with (mk_rle n LCN_ENOENT 0).
    set (L := l1 ++ [set_length (n - rl_vcn r) r]). set (t := mk_rle n LCN_ENOENT 0).
    assert (HL : zlen L = zlen l1 + 1) by (unfold L; zlen_lia).
    assert (Hroom' : room (L ++ t :: rest) (zlen D + 1)).
    { eapply room_zlen; [exact Hroom|]. apply (f_equal zlen) in Ey. unfold D, L. zlen_lia. }
    assert (Hfin : forall sl', room (L ++ t :: sl') (zlen L + 1) -> truncates D td n (L ++ t :: sl')).
    { intros sl' Hro. eapply (truncates_intro _ _ _ _ L sl'); [done| |unfold S64_MAX in *; lia|exact Hro|].
      - unfold L. apply chain_snoc. split; [exact H1|]. split; [apply run_ok_prefix; [done|lia]|cbn; lia].
      - intros x Hx. fold D. rewrite <- (truncated_below D td n x) by (done || lia).
        unfold L, D. rewrite !(look_app _ _ _ _ _ H1) by lia. destruct (Z.ltb_spec x (rl_vcn r)); [done|].
        cbn. destruct (Z.ltb_spec x (rl_vcn r + (n - rl_vcn r))); [|lia].
        by destruct (Z.ltb_spec x (rl_vcn r + rl_length r)); [|lia]. }
    destruct (rl_length y =? 0); cbn [negb].
    + eexists. split; [reflexivity|]. apply Hfin. eapply room_mono; [| |exact Hroom']; lia.
    + destruct (try_realloc_keep L t rest (zlen l1 + 1 + zlen l' + 1) (zlen l1 + 1 + 1)) as (sl' & Hre & Hro);
        [lia|lia|lia|eapply room_mono; [| |exact Hroom']; lia|].
      eexists. split; [exact Hre|]. apply Hfin. eapply room_eq; [exact Hro|lia].
Qed.

(** A list extended with a hole from its end to [n]. *)
Lemma truncated_above D td n x :
  chain 0 D (rl_vcn td) -> rl_vcn td < n -> 0 <= x < n ->
  Some (truncated D td n x) = if x <? rl_vcn td then look D x else Some LCN_HOLE.
Proof.
  intros Hc Hn Hx. unfold truncated, denote. destruct (Z.ltb_spec x n); [|lia].
  destruct (Z.ltb_spec x (rl_vcn td)); [|done]. destruct (look_Some _ _ _ x Hc) as [y Hy]; [lia|]. by rewrite Hy.
Qed.

(** The last two assignments of the expanding branch. *)
Lemma expand_last L t sl n (b : rl_buf) D td :
  rl_length t = 0 -> chain 0 L n -> 0 <= n <= S64_MAX -> room (L ++ t :: sl) (zlen L + 1) ->
  (forall x, 0 <= x < n -> look L x = Some (truncated D td n x)) -> b = L ++ t :: sl ->
  exists b', (b ← upd b (zlen L) (set_vcn n); b ← upd b (zlen L) (set_lcn LCN_ENOENT); Ret (b, 0)) = Ret (b', 0) /\
    truncates D td n b'.
Proof.
  intros Ht Hc Hn Hroom Hx ->. upd_step L t. upd_step L (set_vcn n t). eexists. split; [reflexivity|].
  unfold set_lcn, set_vcn. cbn. rewrite Ht. eapply (truncates_intro _ _ _ _ L sl); [done..| |done].
  eapply room_zlen; [exact Hroom|zlen_lia].
Qed.

Lemma expand_hole D0 p td sl n :
  let D := D0 ++ [p] in
  runlist_wf 0 D td -> room (D ++ td :: sl) (zlen D + 1) -> rl_vcn td < n <= S64_MAX -> rl_lcn p = LCN_HOLE ->
  exists b, truncate_expand (D ++ td :: sl) (zlen D) n = Ret (b, 0) /\ truncates D td n b.
Proof.
  intros D [Hc Ht] Hroom Hn Hp. pose proof Hc as (H1 & Hr & Ee)%chain_snoc. pose proof (zlen_nonneg D0).
  pose proof Hr as (? & ? & ? & _). unfold truncate_expand.
  assert (HD : zlen D = zlen D0 + 1) by (unfold D; zlen_lia).
  destruct (Z.gtb_spec (zlen D) 0); [|lia]. replace (D ++ td :: sl) with (D0 ++ p :: td :: sl) by (unfold D; by rewrite <- app_assoc).
  rd_step D0 p (zlen D - 1). rewrite bind_Ret, Hp, Z.eqb_refl. upd_step D0 p.
  rewrite s64_id by (unfold S64_MIN; lia).
  set (q := set_length (n - rl_vcn p) p). replace (zlen D) with (zlen (D0 ++ [q])) by zlen_lia.
  eapply (expand_last _ td sl); [by destruct Ht| |lia| | |by rewrite <- app_assoc].
  - apply chain_snoc. split; [exact H1|]. split; [|cbn; lia]. unfold run_ok, q, LCN_HOLE in *. cbn. lia.
  - eapply room_zlen; [eapply room_eq; [exact Hroom|zlen_lia]|zlen_lia].
  - intros x Hx. rewrite (truncated_above D td n x) by (done || lia). unfold D. rewrite !(look_app _ _ _ _ _ H1) by lia.
    cbn. unfold run_lcn. cbn. rewrite Hp. cbn.
    repeat match goal with |- context [?a <? ?c] => destruct (Z.ltb_spec a c) end; done || lia.
Qed.

Lemma expand_new D td sl n :
  runlist_wf 0 D td -> room (D ++ td :: sl) (zlen D + 1) -> zlen D + 2 <= RL_MAX -> rl_vcn td < n <= S64_MAX ->
  (forall p, list.last D = Some p -> rl_lcn p <> LCN_HOLE) ->
  truncate_expand (D ++ td :: sl) (zlen D) n = Ret (D ++ td :: sl, - ENOMEM) \/
  exists b, truncate_expand (D ++ td :: sl) (zlen D) n = Ret (b, 0) /\ truncates D td n b.
Proof.
  intros [Hc Ht] Hroom Hmax Hn Hlast. pose proof (zlen_nonneg D). unfold truncate_expand.
  replace (if zlen D >? 0 then _ else _) with (Ret false).
  2:{ destruct (Z.gtb_spec (zlen D) 0) as [Hz|Hz]; [|done].
      destruct D as [|p D0 _] using rev_ind; [done|]. rewrite last_snoc in Hlast. specialize (Hlast p eq_refl).
      rewrite <- app_assoc. cbn [app]. rd_step D0 p (zlen (D0 ++ [p]) - 1).
      by destruct (Z.eqb_spec (rl_lcn p) LCN_HOLE). }
  rewrite bind_Ret.
  destruct (realloc_list D td sl (zlen D + 1) (zlen D + 1 + 1)) as [->|(sl' & -> & Hr)]; [lia|lia|lia|lia|done|by left|].
  right. rewrite bind_Ret. pose proof (capacity_ge (zlen D + 1 + 1) ltac:(lia)).
  destruct sl' as [|y sl']; [unfold room in Hr; zlen_lia|].
  assert (0 <= rl_vcn td) by (destruct Ht as (_ & ? & _); lia).
  upd_step D td. upd_step D (set_lcn LCN_HOLE td). cbn [rl_vcn set_lcn]. rewrite s64_id by (unfold S64_MIN, S64_MAX in *; lia).
  set (q := set_length (n - rl_vcn td) (set_lcn LCN_HOLE td)). upd_step (D ++ [q]) y.
  replace (zlen D + 1) with (zlen (D ++ [q])) by zlen_lia.
  eapply (expand_last _ (set_length 0 y) sl'); [done| |lia| | |done].
  - apply chain_snoc. split; [exact Hc|]. split; [|cbn; lia]. unfold run_ok, q, LCN_HOLE, LCN_RL_NOT_MAPPED, S64_MAX in *. cbn. lia.
  - eapply room_zlen; [eapply room_eq; [exact Hr|zlen_lia]|zlen_lia].
  - intros x Hx. rewrite (truncated_above D td n x), (look_app _ _ _ _ _ Hc) by (done || lia).
    cbn. unfold run_lcn. cbn.
    repeat match goal with |- context [?a <? ?c] => destruct (Z.ltb_spec a c) end; done || lia.
Qed.

Lemma truncate_spec D td sl n :
  runlist_wf 0 D td -> room (D ++ td :: sl) (zlen D + 1) -> zlen D + 2 <= RL_MAX -> 0 < n <= S64_MAX ->
  let m := ntfs_rl_truncate_nolock (Some (D ++ td :: sl)) n in
  m = Ret (Some (D ++ td :: sl), - ENOMEM) \/ exists b, m = Ret (Some b, 0) /\ truncates D td n b.
Proof.
  intros Hwf Hroom Hmax Hn. pose proof Hwf as [Hc (Htl & Htv & Hlc)]. cbv zeta.
  unfold ntfs_rl_truncate_nolock. destruct (Z.ltb_spec n 0); [lia|]. destruct (Z.eqb_spec n 0); [lia|]. cbn [BUG_ON].
  rewrite bind_Ret. destruct (holds_rd0 (D ++ td :: sl) D td 0 ltac:(by eexists) Hc) as (r0 & -> & Hr0).
  rewrite bind_Ret, Hr0. destruct (Z.ltb_spec n 0); [lia|]. cbn [BUG_ON]. rewrite bind_Ret.
  destruct (skip_to_spec td sl n D (scan_fuel (D ++ td :: sl)) [] 0 Htl Hc ltac:(lia)) as
    (l1 & l2 & m & E & H1 & H2 & Hm & Hh & _ & Hsk); [apply scan_fuel_ok|].
  cbn [app] in Hsk. rewrite (@zlen_nil runlist_element), Z.add_0_l in Hsk. rewrite Hsk, bind_Ret. clear Hsk.
  destruct l2 as [|r l'].
  - rewrite app_nil_r in E. subst l1. cbn in H2. subst m. rd_step D td (zlen D). rewrite Htl, Z.eqb_refl. cbn [negb].
    destruct (Z.gtb_spec n (rl_vcn td)).
    + destruct (list.last D) as [p|] eqn:El.
      * destruct (decide (rl_lcn p = LCN_HOLE)) as [Hp|Hp].
        -- apply last_Some in El as [D0 ->]. right.
           destruct (expand_hole D0 p td sl n Hwf Hroom ltac:(lia) Hp) as (b & -> & Hb). by exists b.
        -- destruct (expand_new D td sl n Hwf Hroom Hmax ltac:(lia)) as [->|(b & -> & Hb)];
             [congruence|by left|right; by exists b].
      * destruct (expand_new D td sl n Hwf Hroom Hmax ltac:(lia)) as [->|(b & -> & Hb)];
          [congruence|by left|right; by exists b].
    + right. assert (rl_vcn td = n) as <- by lia. upd_step D td. eexists. split; [reflexivity|].
      eapply (truncates_intro _ _ _ _ D sl); [|done|done| |].
      * destruct td; cbn in *. by subst.
      * eapply room_zlen; [exact Hroom|zlen_lia].
      * intros x Hx. apply truncated_below; done || lia.
  - subst D. destruct H2 as (Hv & Hr & H2). specialize (Hh r l' eq_refl).
    rewrite <- app_assoc. cbn [app]. rd_step l1 r (zlen l1). rewrite (run_ok_nonzero r Hr). right.
    destruct (shrink_spec l1 r l' td sl n Hwf Hroom Hmax ltac:(lia)) as (b & Hb & Htr).
    rewrite <- app_assoc in Hb. cbn [app] in Hb. rewrite Hb. eexists. by split.
Qed.
End Realloc.
