(* ===== verification/RunlistPunch.v ===== *)
(** * Correctness of punching holes

    [ntfs_rl_punch_nolock] against the list in which the runs between @start
    and @end are replaced by one hole. *)

From Stdlib Require Import ZArith Lia Bool.
From stdpp Require Import base list numbers option.
From S2P Require Import Prelude Runlist RunlistSpec RunlistBuf RunlistMerge RunlistMergeSpec.
From S2P Require Import RunlistMergeProof MappingPairs MappingPairsSpec RunlistEdit RunlistEditProof.

(** ** Where @start and @end lie *)

Definition unmapped (r : runlist_element) : bool := rl_lcn r <? LCN_HOLE.

(** The runs that meet the VCNs from [start] to [e]: none of them may be
    unmapped. *)
Definition blocked (start e : Z) (D : rl_buf) : bool :=
  existsb (fun r => (rl_vcn r + rl_length r >? start) && (rl_vcn r <=? e) && unmapped r) D.

Lemma punch_end_spec td sl e l : forall fuel pre v,
  rl_length td = 0 -> chain v l (rl_vcn td) -> v <= e -> (length l < fuel)%nat ->
  exists M l3 m, l = M ++ l3 /\ chain v M m /\ chain m l3 (rl_vcn td) /\ m <= e /\
    (forall y l4, l3 = y :: l4 -> e < rl_vcn y + rl_length y) /\
    punch_end fuel (pre ++ l ++ td :: sl) e (zlen pre) =
      Ret (if existsb unmapped M then None else Some (zlen pre + zlen M)).
Proof.
  induction l as [|r l IH]; intros fuel pre v Ht Hc He Hf; (destruct fuel as [|fuel]; [cbn in Hf; lia|]); cbn [punch_end].
  { exists [], [], v. split_and!; try done. cbn [app]. rewrite (rd_at _ pre sl td (zlen pre)) by done.
    rewrite bind_Ret, Ht. cbn. by rewrite Z.add_0_r. }
  destruct Hc as (Hv & Hr & Hc). cbn [length] in Hf.
  destruct (chain_head l td sl _ Hc) as (r1 & rest & Erest & Hr1).
  rewrite (rd_at _ pre (l ++ td :: sl) r (zlen pre)) by done. rewrite bind_Ret, run_ok_nonzero by done.
  rewrite (rd_at _ (pre ++ [r]) rest r1 (zlen pre + 1)); [|cbn [app]; rewrite Erest, <- app_assoc; done|zlen_lia].
  rewrite bind_Ret, Hr1. destruct (Z.geb_spec e (v + rl_length r)) as [Hge|Hlt].
  - destruct (IH fuel (pre ++ [r]) (v + rl_length r)) as (M & l3 & m & -> & H1 & H2 & Hm & Hh & E); [done|done|lia|lia|].
    exists (r :: M), l3, m. split_and!; try done. cbn [existsb]. unfold unmapped at 1.
    destruct (rl_lcn r <? LCN_HOLE); [done|]. cbn [orb].
    replace (pre ++ (r :: M ++ l3) ++ td :: sl) with ((pre ++ [r]) ++ (M ++ l3) ++ td :: sl) by (by rewrite <- app_assoc).
    replace (zlen pre + 1) with (zlen (pre ++ [r])) by zlen_lia. cbn [app]. rewrite E.
    destruct (existsb unmapped M); [done|]. do 2 f_equal. zlen_lia.
  - exists [], (r :: l), v. split_and!; try done; [|cbn; do 2 f_equal; zlen_lia]. intros ? ? [= <- <-]. lia.
Qed.

(** [blocked] on the three parts the scans find. *)
Lemma blocked_before start e v l w : chain v l w -> w <= start -> blocked start e l = false.
Proof.
  unfold blocked. revert v. induction l as [|r l IH]; cbn; intros v; [done|]. intros (Hv & Hr & Hc) Hw.
  pose proof (chain_le _ _ _ Hc). destruct (Z.gtb_spec (rl_vcn r + rl_length r) start); [lia|]. cbn. eauto.
Qed.

Lemma blocked_after start e v l w : chain v l w -> e < v -> blocked start e l = false.
Proof.
  unfold blocked. revert v. induction l as [|r l IH]; cbn; intros v; [done|]. intros (Hv & Hr & Hc) Hw.
  pose proof Hr as (_ & ? & _). destruct (Z.leb_spec (rl_vcn r) e); [lia|].
  rewrite andb_false_r. cbn. eapply IH; eauto. lia.
Qed.

Lemma blocked_inside start e v l w :
  chain v l w -> w <= e -> (forall r l', l = r :: l' -> start < rl_vcn r + rl_length r) ->
  blocked start e l = existsb unmapped l.
Proof.
  unfold blocked. revert v. induction l as [|r l IH]; cbn; intros v; [done|]. intros (Hv & Hr & Hc) Hw Hh.
  pose proof (chain_le _ _ _ Hc). pose proof Hr as (_ & ? & _). specialize (Hh r l eq_refl) as Hs.
  destruct (Z.gtb_spec (rl_vcn r + rl_length r) start); [|lia]. destruct (Z.leb_spec (rl_vcn r) e); [|lia]. cbn. f_equal.
  eapply IH; eauto. intros r' l' ->. destruct Hc as (? & (_ & ? & _) & _). lia.
Qed.

Lemma blocked_parts start e v l1 m1 M m l3 w :
  chain v l1 m1 -> chain m1 M m -> chain m l3 w -> m1 <= start -> m <= e -> start <= e ->
  (forall r l', M ++ l3 = r :: l' -> start < rl_vcn r + rl_length r) ->
  (forall y l4, l3 = y :: l4 -> e < rl_vcn y + rl_length y) ->
  blocked start e (l1 ++ M ++ l3) = existsb unmapped M || match l3 with y :: _ => unmapped y | [] => false end.
Proof.
  intros H1 HM H3 Hs Hm Hse Hh He. unfold blocked. rewrite !existsb_app. fold (blocked start e l1) (blocked start e M).
  rewrite (blocked_before _ _ _ _ _ H1), (blocked_inside _ _ _ _ _ HM); [|done| |done].
  2:{ intros r l' ->. by apply (Hh r (l' ++ l3)). }
  cbn [orb]. f_equal. destruct l3 as [|y l4]; [done|]. cbn [existsb]. destruct H3 as (Hv & Hr & Hc).
  specialize (He y l4 eq_refl). destruct (Z.gtb_spec (rl_vcn y + rl_length y) start); [|lia].
  destruct (Z.leb_spec (rl_vcn y) e); [|lia]. cbn [andb].
  pose proof (blocked_after start e _ _ _ Hc ltac:(lia)) as Hb. unfold blocked in Hb. by rewrite Hb, orb_false_r.
Qed.

(** ** The punched list *)

Definition hole (a e : Z) : runlist_element := mk_rle a LCN_HOLE (e - a).

(** The part of a run before [start]. *)
Definition before (start : Z) (r : runlist_element) : rl_buf :=
  if start =? rl_vcn r then [] else [set_length (start - rl_vcn r) r].

Lemma hole_ok a e : 0 <= a < e -> e <= S64_MAX -> run_ok (hole a e).
Proof. unfold run_ok, hole, LCN_HOLE, LCN_RL_NOT_MAPPED, S64_MAX. cbn. lia. Qed.

(** Adjacent holes are one hole. *)
Lemma hole_join r e1 e : rl_lcn r = LCN_HOLE -> [r; hole e1 e] ≈ [hole (rl_vcn r) e].
Proof.
  intros Hl v w (Hv & Hr & Hv2 & Hr2 & Hw). unfold hole in *. cbn in *. unfold run_ok in *. cbn in *. split.
  - split; [lia|]. split; [unfold LCN_HOLE, LCN_RL_NOT_MAPPED, S64_MAX in *; lia|lia].
  - intros x Hx. unfold run_lcn. cbn. rewrite Hl. cbn.
    repeat match goal with |- context [?a <? ?c] => destruct (Z.ltb_spec a c) end; done || lia.
Qed.

(** Runs that look alike everywhere. *)
Lemma before_spec start v r :
  run_ok r -> rl_vcn r = v -> v <= start < v + rl_length r ->
  chain v (before start r) start /\ forall x, v <= x < start -> look (before start r) x = Some (run_lcn r x).
Proof.
  intros Hr Hv Hs. unfold before. destruct (Z.eqb_spec start (rl_vcn r)); [split; [cbn; lia|lia]|].
  split; [cbn; split; [done|]; split; [apply run_ok_prefix; [done|]|]; lia|].
  intros x Hx. cbn. destruct (Z.ltb_spec x (rl_vcn r + (start - rl_vcn r))); [done|lia].
Qed.

(** ** Extending a hole *)

(** The end of the extended hole and the rest: a hole at @end is swallowed. *)
Definition ext_end (e : Z) (l3 : rl_buf) : Z :=
  match l3 with y :: _ => if rl_lcn y =? LCN_HOLE then rl_vcn y + rl_length y else e | [] => e end.
Definition ext_rest (l3 : rl_buf) : rl_buf :=
  match l3 with y :: l4 => if rl_lcn y =? LCN_HOLE then l4 else l3 | [] => [] end.

Definition ends_after (e : Z) (l : rl_buf) : Prop := forall y l4, l = y :: l4 -> e < rl_vcn y + rl_length y.

Lemma from_beyond e v l w : chain v l w -> e <= v -> from e l = l.
Proof.
  destruct l as [|y l]; [done|]. intros (Hv & (_ & ? & _) & _) He. cbn.
  destruct (Z.geb_spec e (rl_vcn y + rl_length y)); [lia|]. destruct (Z.gtb_spec e (rl_vcn y)); [lia|done].
Qed.

Lemma extend_equiv a e m l3 w :
  chain m l3 w -> m <= e -> ends_after e l3 ->
  [hole a e] ++ from e l3 ≈ [hole a (ext_end e l3)] ++ from e (ext_rest l3).
Proof.
  intros H3 Hm Hend. destruct l3 as [|y l4]; [done|]. unfold ext_end, ext_rest.
  destruct (Z.eqb_spec (rl_lcn y) LCN_HOLE) as [El|El]; [|done]. specialize (Hend y l4 eq_refl).
  destruct H3 as (Hv & Hr & H4). rewrite (from_beyond e _ _ _ H4), from_inside by lia.
  assert (Et : tail_run e y = hole e (rl_vcn y + rl_length y)).
  { unfold tail_run, hole, run_lcn. rewrite El. cbn. f_equal. lia. }
  rewrite Et. change ([hole a e] ++ hole e (rl_vcn y + rl_length y) :: l4)
    with ([hole a e; hole e (rl_vcn y + rl_length y)] ++ l4).
  rewrite (hole_join (hole a e)) by done. done.
Qed.

Lemma cut_spec (P Y Z sl : rl_buf) :
  exists sl', punch_cut (P ++ Y ++ Z ++ sl) (zlen P) (zlen P + zlen Y) (zlen P + zlen Y + zlen Z - 1) = Ret (P ++ Z ++ sl') /\
    zlen sl' = zlen Y + zlen sl.
Proof.
  unfold punch_cut. pose proof (zlen_nonneg Y). destruct (Z.ltb_spec (zlen P) (zlen P + zlen Y)).
  - replace (zlen P + zlen Y + zlen Z - 1 - (zlen P + zlen Y) + 1) with (zlen Z) by lia.
    set (R := Y ++ Z ++ sl). assert (HR : zlen R = zlen Y + zlen Z + zlen sl) by (unfold R; zlen_lia).
    pose proof (zlen_nonneg sl). exists (drop (length Z) R).
    rewrite (blit_eq _ _ _ _ _ P (take (length Z) R) (drop (length Z) R) (P ++ Y) Z sl).
    + split; [done|]. unfold zlen in *. rewrite length_drop. lia.
    + by rewrite take_drop.
    + unfold R. by rewrite <- app_assoc.
    + done.
    + zlen_lia.
    + unfold zlen in *. rewrite length_take. lia.
    + done.
  - assert (Y = []) as -> by (destruct Y; [done|zlen_lia]). exists sl. done.
Qed.

Section Extend.
Context `{KA : KernelAlloc}.

Lemma shrink_alloc L t sl rl rl_end old :
  rl <= rl_end -> old <= RL_MAX -> zlen L + 1 = old - (rl_end - rl) -> room (L ++ t :: sl) old ->
  exists sl', punch_shrink (L ++ t :: sl) rl rl_end old = Ret (L ++ t :: sl') /\ room (L ++ t :: sl') (zlen L + 1).
Proof.
  intros Hle Hmax Hz Hroom. unfold punch_shrink. destruct (Z.ltb_spec rl rl_end).
  - rewrite <- Hz. apply try_realloc_keep; done || lia.
  - exists sl. split; [done|]. eapply room_eq; [exact Hroom|lia].
Qed.

(** "Adjust the beginning of the tail if necessary." *)
Lemma adjust_spec (P Z : rl_buf) td sl e m :
  chain m Z (rl_vcn td) -> rl_vcn td <= S64_MAX -> 0 <= e <= rl_vcn td -> ends_after e Z ->
  (r ← rd (P ++ Z ++ td :: sl) (zlen P);
   if e >? rl_vcn r then
     let delta := s64 (e - rl_vcn r) in
     b ← upd (P ++ Z ++ td :: sl) (zlen P) (set_vcn e);
     b ← upd b (zlen P) (fun r => set_length (s64 (rl_length r - delta)) r);
     if rl_lcn r >=? 0 then upd b (zlen P) (fun r => set_lcn (s64 (rl_lcn r + delta)) r) else Ret b
   else Ret (P ++ Z ++ td :: sl)) = Ret (P ++ from e Z ++ td :: sl).
Proof.
  intros Hc Htd He Hend. destruct Z as [|y Z]; cbn [app from].
  { rewrite rd_mid, bind_Ret by done. destruct (Z.gtb_spec e (rl_vcn td)); [lia|done]. }
  rewrite rd_mid, bind_Ret by done. destruct Hc as (Hv & Hr & Hc). specialize (Hend y Z eq_refl).
  destruct (Z.geb_spec e (rl_vcn y + rl_length y)); [lia|]. destruct (Z.gtb_spec e (rl_vcn y)); [|done].
  unfold run_ok, LCN_RL_NOT_MAPPED, S64_MAX in *.
  assert (S64_MIN < 0) by done. assert (HM : S64_MAX = 9223372036854775807) by done.
  cbv zeta. upd_step P y. upd_step P (set_vcn e y). cbn [set_vcn rl_length].
  rewrite (s64_id (e - rl_vcn y)), (s64_id (rl_length y - (e - rl_vcn y))) by lia.
  unfold run_lcn. destruct (Z.geb_spec (rl_lcn y) 0); [|done].
  rewrite (upd_at _ P (Z ++ td :: sl) (set_length (rl_length y - (e - rl_vcn y)) (set_vcn e y))) by done.
  cbn. rewrite (s64_id (rl_lcn y + (e - rl_vcn y))) by lia. done.
Qed.

(** "If @end is in a hole, merge it with the current one." *)
Lemma extend_end (X Y l3 : rl_buf) a td sl e m :
  chain m l3 (rl_vcn td) -> rl_vcn td <= S64_MAX -> rl_lcn td < LCN_HOLE -> 0 <= a <= e -> m <= e -> ends_after e l3 ->
  exists Y', Y ++ l3 = Y' ++ ext_rest l3 /\
    (e0 ← rd (X ++ hole a e :: Y ++ l3 ++ td :: sl) (zlen X + 1 + zlen Y);
     if rl_lcn e0 =? LCN_HOLE then
       e1 ← rd (X ++ hole a e :: Y ++ l3 ++ td :: sl) (zlen X + 1 + zlen Y + 1);
       b ← upd (X ++ hole a e :: Y ++ l3 ++ td :: sl) (zlen X) (fun r => set_length (s64 (rl_vcn e1 - rl_vcn r)) r);
       Ret (b, zlen X + 1 + zlen Y + 1)
     else Ret (X ++ hole a e :: Y ++ l3 ++ td :: sl, zlen X + 1 + zlen Y)) =
    Ret (X ++ hole a (ext_end e l3) :: Y' ++ ext_rest l3 ++ td :: sl, zlen X + 1 + zlen Y').
Proof.
  intros H3 Htd Htl Ha Hm Hend. destruct l3 as [|y l4].
  { exists Y. split; [done|]. cbn [app]. rd_step (X ++ hole a e :: Y) td (zlen X + 1 + zlen Y).
    by destruct (Z.eqb_spec (rl_lcn td) LCN_HOLE); [lia|]. }
  unfold ext_rest, ext_end. cbn [app]. rd_step (X ++ hole a e :: Y) y (zlen X + 1 + zlen Y).
  destruct (Z.eqb_spec (rl_lcn y) LCN_HOLE); [|by exists Y].
  exists (Y ++ [y]). split; [by rewrite <- app_assoc|]. destruct H3 as (Hv & Hr & H4). specialize (Hend y l4 eq_refl).
  destruct (chain_head l4 td sl _ H4) as (z & rest & Ez & Hz). pose proof (chain_le _ _ _ H4). rewrite <- Hv in Hz.
  rewrite Ez. rd_step (X ++ hole a e :: Y ++ [y]) z (zlen X + 1 + zlen Y + 1). upd_step X (hole a e).
  rewrite Hz. cbn [rl_vcn hole]. rewrite s64_id by (unfold S64_MIN; lia).
  rewrite <- app_assoc. cbn [app]. do 2 f_equal. zlen_lia.
Qed.

Lemma ext_rest_chain e m l3 w :
  chain m l3 w -> m <= e -> ends_after e l3 -> exists m', chain m' (ext_rest l3) w /\ ends_after e (ext_rest l3).
Proof.
  intros H3 Hm Hend. destruct l3 as [|y l4]; [by exists m|]. unfold ext_rest.
  destruct (rl_lcn y =? LCN_HOLE); [|by exists m]. destruct H3 as (Hv & Hr & H4). eexists. split; [exact H4|].
  intros z l5 ->. specialize (Hend y _ eq_refl). destruct H4 as (Hz & (_ & ? & _) & _). lia.
Qed.

Lemma zlen_from e l w v : chain v l w -> ends_after e l -> zlen (from e l) = zlen l.
Proof.
  destruct l as [|y l]; [done|]. intros _ Hend. specialize (Hend y l eq_refl). cbn.
  destruct (Z.geb_spec e (rl_vcn y + rl_length y)); [lia|]. destruct (Z.gtb_spec e (rl_vcn y)); [zlen_lia|done].
Qed.

Lemma extend_spec X h Y l3 td sl e m :
  let n := zlen X + 1 + zlen Y + zlen l3 in
  chain m l3 (rl_vcn td) -> rl_vcn td <= S64_MAX -> rl_lcn td < LCN_HOLE -> 0 <= rl_vcn h <= e -> m <= e <= rl_vcn td ->
  ends_after e l3 -> rl_lcn h = LCN_HOLE -> n + 1 <= RL_MAX -> room (X ++ h :: Y ++ l3 ++ td :: sl) (n + 1) ->
  exists sl', let L := X ++ [hole (rl_vcn h) (ext_end e l3)] ++ from e (ext_rest l3) in
    punch_extend (X ++ h :: Y ++ l3 ++ td :: sl) (zlen X) (zlen X + 1 + zlen Y) n (n + 1) e = Ret (L ++ td :: sl') /\
    room (L ++ td :: sl') (zlen L + 1).
Proof.
  intros n H3 Htd Htl Hh He Hend Hhole Hmax Hroom. unfold punch_extend. upd_step X h.
  rewrite s64_id by (unfold S64_MIN; lia).
  replace (set_length (e - rl_vcn h) h) with (hole (rl_vcn h) e) by (unfold hole, set_length; by rewrite Hhole).
  destruct (extend_end X Y l3 (rl_vcn h) td sl e m H3 Htd Htl Hh ltac:(lia) Hend) as (Y' & EY & Hend').
  destruct (ext_rest_chain e m l3 _ H3 ltac:(lia) Hend) as (m' & Hc' & Hend2).
  set (h2 := hole (rl_vcn h) (ext_end e l3)) in *. set (Z := ext_rest l3) in *.
  rewrite <- bind_assoc, Hend', bind_Ret. clear Hend'.
  assert (Hn : zlen Y + zlen l3 = zlen Y' + zlen Z) by (apply (f_equal zlen) in EY; rewrite !zlen_app in EY; exact EY).
  destruct (cut_spec (X ++ [h2]) Y' (Z ++ [td]) sl) as (sl1 & Hcut & Hsl1).
  rewrite <- !app_assoc in Hcut. cbn [app] in Hcut.
  replace (zlen (X ++ [h2])) with (zlen X + 1) in Hcut by zlen_lia.
  replace (zlen X + 1 + zlen Y' + zlen (Z ++ [td]) - 1) with n in Hcut by (unfold n; zlen_lia).
  rewrite Hcut, bind_Ret. clear Hcut.
  pose proof (adjust_spec (X ++ [h2]) Z td sl1 e m' Hc' Htd ltac:(lia) Hend2) as Hadj.
  rewrite <- !app_assoc in Hadj. cbn [app] in Hadj. replace (zlen (X ++ [h2])) with (zlen X + 1) in Hadj by zlen_lia.
  rewrite <- bind_assoc, Hadj, bind_Ret. clear Hadj.
  pose proof (zlen_from e Z _ _ Hc' Hend2) as Hf. pose proof (zlen_nonneg Y').
  destruct (shrink_alloc (X ++ [h2] ++ from e Z) td sl1 (zlen X + 1) (zlen X + 1 + zlen Y') (n + 1)) as (sl' & Hs & Hr').
  - lia.
  - lia.
  - unfold n. zlen_lia.
  - eapply room_zlen; [exact Hroom|]. zlen_lia.
  - exists sl'. cbv zeta. split; [|exact Hr']. rewrite <- Hs, <- app_assoc. done.
Qed.
End Extend.

(** ** Splitting runs *)

Lemma split_end_spec (X T sl : rl_buf) y s len fix_ :
  punch_split_end (X ++ y :: T ++ s :: sl) (zlen X) (zlen X + zlen T) len fix_ =
    Ret (X ++ mk_rle (rl_vcn y) LCN_HOLE len ::
         mk_rle (s64 (rl_vcn y + len)) (if (rl_lcn y >=? 0) || fix_ then s64 (rl_lcn y + len) else rl_lcn y)
           (s64 (rl_length y - len)) :: T ++ sl).
Proof.
  unfold punch_split_end.
  rewrite (blit_eq _ _ _ _ _ (X ++ [y]) (T ++ [s]) sl X (y :: T) (s :: sl)), bind_Ret; try at_pos.
  rewrite <- app_assoc. cbn [app]. upd_step X y. upd_step X (set_lcn LCN_HOLE y).
  set (h := set_length len (set_lcn LCN_HOLE y)). upd_step (X ++ [h]) y.
  set (y1 := set_vcn (s64 (rl_vcn y + len)) y). rewrite <- app_assoc. cbn [app]. rd_step (X ++ [h]) y1 (zlen X + 1).
  change (rl_lcn y1) with (rl_lcn y). destruct ((rl_lcn y >=? 0) || fix_).
  - upd_step (X ++ [h]) y1. rewrite (upd_at _ (X ++ [h]) (T ++ sl) (set_lcn (s64 (rl_lcn y1 + len)) y1)) by at_pos.
    by rewrite <- app_assoc.
  - rewrite bind_Ret, (upd_at _ (X ++ [h]) (T ++ sl) y1) by at_pos. by rewrite <- app_assoc.
Qed.

Lemma punch_both_spec (X T sl : rl_buf) y s1 s2 start e len :
  punch_both (X ++ y :: T ++ s1 :: s2 :: sl) (zlen X) (zlen X + zlen T) start e len =
    Ret (X ++ set_length (s64 (start - rl_vcn y)) y :: mk_rle start LCN_HOLE len ::
         mk_rle e (s64 (rl_lcn y + s64 (e - rl_vcn y))) (s64 (rl_length y - s64 (e - rl_vcn y))) :: T ++ sl).
Proof.
  unfold punch_both.
  assert (Hq : exists q m1, T ++ [s1; s2] = q :: m1 /\ zlen m1 = zlen T + 1).
  { destruct T as [|q T]; [exists s1, [s2]; done|]. exists q, (T ++ [s1; s2]). split; [done|zlen_lia]. }
  destruct Hq as (q & m1 & Eq & Hm1).
  replace (X ++ y :: T ++ s1 :: s2 :: sl) with (X ++ y :: q :: m1 ++ sl)
    by (rewrite (app_comm_cons m1), <- Eq, <- app_assoc; done).
  rewrite (blit_eq _ _ _ _ _ (X ++ [y; q]) m1 sl X (y :: T) (s1 :: s2 :: sl)), bind_Ret; try at_pos.
  2:{ cbn [app]. rewrite (app_comm_cons m1), <- Eq, <- app_assoc. done. }
  rewrite <- app_assoc. cbn [app]. upd_step X y. set (y0 := set_length (s64 (start - rl_vcn y)) y).
  upd_step (X ++ [y0]) q. rewrite <- app_assoc. cbn [app]. upd_step (X ++ [y0]) (set_vcn start q).
  rewrite <- app_assoc. cbn [app]. upd_step (X ++ [y0]) (set_lcn LCN_HOLE (set_vcn start q)).
  rewrite <- app_assoc. cbn [app]. set (h := set_length len _). rd_step (X ++ [y0; h]) y (zlen X + 2).
  upd_step (X ++ [y0; h]) y. rewrite <- app_assoc. cbn [app]. upd_step (X ++ [y0; h]) (set_vcn e y).
  rewrite (upd_at _ (X ++ [y0; h]) (T ++ sl) (set_lcn (s64 (rl_lcn (set_vcn e y) + s64 (e - rl_vcn y))) (set_vcn e y))) by at_pos.
  by rewrite <- app_assoc.
Qed.

Section Punch.
Context `{KA : KernelAlloc}.
Context (sl l1 : rl_buf) (r : runlist_element) (M l3 : rl_buf) (td : runlist_element) (start e m : Z).
Let D : rl_buf := l1 ++ M ++ l3.
Hypothesis Hwf : runlist_wf 0 D td.
Hypothesis H1 : chain 0 l1 (rl_vcn r).
Hypothesis HM : chain (rl_vcn r) M m.
Hypothesis H3 : chain m l3 (rl_vcn td).
Hypothesis Hr : run_ok r.
Hypothesis Hhd : exists l', M ++ l3 = r :: l'.
Hypothesis Hs : rl_vcn r <= start < rl_vcn r + rl_length r.
Hypothesis Hse : start < e.
Hypothesis Hm : m <= e <= rl_vcn td.
Hypothesis Hend : ends_after e l3.

Definition punched : rl_buf := l1 ++ before start r ++ [hole start e] ++ from e l3.

Lemma td_bound : rl_vcn td <= S64_MAX.
Proof. destruct Hwf as [_ (_ & ? & _)]. lia. Qed.

Lemma from_e_chain : chain e (from e l3) (rl_vcn td).
Proof. eapply from_chain; [exact H3|lia]. Qed.

Lemma punched_chain : chain 0 punched (rl_vcn td).
Proof.
  pose proof td_bound. pose proof (chain_le _ _ _ H1). destruct (before_spec start (rl_vcn r) r Hr eq_refl Hs) as [Hb _].
  unfold punched. eapply chain_app_2; [exact H1|]. eapply chain_app_2; [exact Hb|]. cbn.
  split; [done|]. split; [apply hole_ok; lia|]. replace (start + (e - start)) with e by lia. apply from_e_chain.
Qed.

(** What the punched list maps. *)
Lemma punched_look x : 0 <= x < rl_vcn td ->
  look punched x = if (start <=? x) && (x <? e) then Some LCN_HOLE else look D x.
Proof.
  intros Hx. pose proof (chain_le _ _ _ H1). destruct (before_spec start (rl_vcn r) r Hr eq_refl Hs) as [Hb Hbl].
  unfold punched, D. rewrite !(look_app _ _ _ _ _ H1) by lia. destruct (Z.ltb_spec x (rl_vcn r)).
  { destruct (Z.leb_spec start x); [lia|done]. }
  rewrite (look_app _ _ _ _ _ Hb) by lia. destruct (Z.ltb_spec x start).
  { destruct (Z.leb_spec start x); [lia|]. cbn [andb]. rewrite Hbl by lia. destruct Hhd as [l' ->]. cbn.
    by destruct (Z.ltb_spec x (rl_vcn r + rl_length r)); [|lia]. }
  destruct (Z.leb_spec start x); [|lia]. cbn. replace (start + (e - start)) with e by lia.
  destruct (Z.ltb_spec x e); [done|]. rewrite (from_look _ _ _ _ _ H3) by lia.
  symmetry. eapply look_app_r; [exact HM|lia].
Qed.

(** A buffer with a runlist that maps [start, e) to a hole and keeps the rest. *)
Definition punches (b : rl_buf) : Prop :=
  exists L, holds b L td /\ runlist_wf 0 L td /\ room b (zlen L + 1) /\
    forall x, 0 <= x -> denote L td x = if (start <=? x) && (x <? e) then LCN_HOLE else denote D td x.

Lemma punches_intro L s : punched ≈ L -> room (L ++ td :: s) (zlen L + 1) -> punches (L ++ td :: s).
Proof.
  intros Heq Hroom. destruct (Heq _ _ punched_chain) as [Hc Hl]. destruct Hwf as [HcD Ht].
  exists L. split; [by eexists|]. split; [done|]. split; [done|]. intros x Hx. unfold denote.
  destruct (Z.ltb_spec x (rl_vcn td)).
  - rewrite <- Hl, punched_look by lia. by destruct (_ && _).
  - rewrite (look_None _ _ _ _ Hc), (look_None _ _ _ _ HcD) by lia.
    destruct (Z.leb_spec start x), (Z.ltb_spec x e); done || lia.
Qed.

(** *** The cases of the code *)

Hypothesis Hroom : room (D ++ td :: sl) (zlen D + 1).
Hypothesis Hmax : zlen D + 3 <= RL_MAX.
Hypothesis HmapM : existsb unmapped M = false.
Hypothesis Hmap3 : forall y l4, l3 = y :: l4 -> unmapped y = false.

Lemma td_unmapped : rl_lcn td < LCN_HOLE.
Proof. destruct Hwf as [_ (_ & _ & ?)]. unfold LCN_HOLE, LCN_RL_NOT_MAPPED in *. lia. Qed.

Lemma zlen_D : zlen D = zlen l1 + zlen M + zlen l3.
Proof. unfold D. zlen_lia. Qed.

Lemma r_vcn : 0 <= rl_vcn r.
Proof. exact (chain_le _ _ _ H1). Qed.

(** Extending the hole [h], whatever it was made of. *)
Lemma extend_done X h Y :
  zlen X + 1 + zlen Y = zlen l1 + zlen M -> rl_lcn h = LCN_HOLE -> 0 <= rl_vcn h <= e ->
  l1 ++ before start r ++ [hole start e] ≈ X ++ [hole (rl_vcn h) e] ->
  exists b, punch_extend (X ++ h :: Y ++ l3 ++ td :: sl) (zlen X) (zlen l1 + zlen M) (zlen D) (zlen D + 1) e = Ret b /\
    punches b.
Proof.
  intros Hz Hh Hv Heq. pose proof zlen_D as HD.
  destruct (extend_spec X h Y l3 td sl e m H3 td_bound td_unmapped Hv Hm Hend Hh) as (sl' & E & Hr').
  - lia.
  - eapply room_zlen; [eapply room_eq; [exact Hroom|lia]|unfold D; zlen_lia].
  - cbv zeta in E, Hr'. replace (zlen X + 1 + zlen Y + zlen l3) with (zlen D) in E by lia.
    rewrite Hz in E. eexists. split; [exact E|]. apply punches_intro; [|exact Hr'].
    unfold punched. rewrite !app_assoc, <- (app_assoc l1), Heq, <- !app_assoc. apply app_seg_equiv; [done|].
    eapply extend_equiv; [exact H3|lia|exact Hend].
Qed.

(** @start and @end in one hole. *)
Lemma case_inside : rl_lcn r = LCN_HOLE -> e <= rl_vcn r + rl_length r -> punches (D ++ td :: sl).
Proof.
  intros Hl He. exists D. split; [by eexists|]. split; [exact Hwf|]. split; [exact Hroom|]. intros x Hx.
  destruct (Z.leb_spec start x), (Z.ltb_spec x e); cbn [andb]; try done. unfold denote, D.
  rewrite (look_app _ _ _ _ _ H1) by lia. destruct (Z.ltb_spec x (rl_vcn r)); [lia|]. destruct Hhd as [l' ->]. cbn.
  destruct (Z.ltb_spec x (rl_vcn r + rl_length r)); [|lia]. cbn. unfold run_lcn. rewrite Hl. done.
Qed.

(** Beyond [r], the runs skipped start with [r]. *)
Lemma M_cons : rl_vcn r + rl_length r <= e -> exists M', M = r :: M'.
Proof.
  intros He. destruct Hhd as [l' Hl]. destruct M as [|r0 M']; [|cbn in Hl; injection Hl as -> _; by exists M'].
  cbn in Hl. specialize (Hend r l' Hl). lia.
Qed.

(** Inside [r], nothing is skipped. *)
Lemma l3_cons : e < rl_vcn r + rl_length r -> M = [] /\ exists l4, l3 = r :: l4.
Proof.
  intros He. destruct Hhd as [l' Hl]. destruct M as [|r0 M']; [cbn in Hl; by eauto|].
  cbn in Hl. injection Hl as -> _. destruct HM as (_ & _ & Hc). pose proof (chain_le _ _ _ Hc). lia.
Qed.

Lemma before_start : start = rl_vcn r -> before start r = [].
Proof. intros ->. unfold before. by rewrite Z.eqb_refl. Qed.

Lemma case_from_hole : rl_lcn r = LCN_HOLE -> rl_vcn r + rl_length r < e ->
  exists b, punch_extend (D ++ td :: sl) (zlen l1) (zlen l1 + zlen M) (zlen D) (zlen D + 1) e = Ret b /\ punches b.
Proof.
  intros Hl He. pose proof r_vcn. destruct (M_cons ltac:(lia)) as [M' EM].
  replace (D ++ td :: sl) with (l1 ++ r :: M' ++ l3 ++ td :: sl) by (unfold D; rewrite EM, <- !app_assoc; done).
  apply extend_done; [rewrite EM; zlen_lia|done|lia|]. unfold before. destruct (Z.eqb_spec start (rl_vcn r)) as [->|Hne]; [done|].
  apply app_seg_equiv; [done|]. apply (hole_join (set_length (start - rl_vcn r) r)). done.
Qed.

Lemma case_prev_hole l0 p : l1 = l0 ++ [p] -> rl_lcn p = LCN_HOLE -> start = rl_vcn r ->
  exists b, punch_extend (D ++ td :: sl) (zlen l1 - 1) (zlen l1 + zlen M) (zlen D) (zlen D + 1) e = Ret b /\ punches b.
Proof.
  intros El Hp Hst. pose proof H1 as Hc1. rewrite El in Hc1. apply chain_snoc in Hc1 as (H0 & Hpk & Ee).
  pose proof (chain_le _ _ _ H0). pose proof Hpk as (_ & ? & _).
  replace (D ++ td :: sl) with (l0 ++ p :: M ++ l3 ++ td :: sl) by (unfold D; rewrite El, <- !app_assoc; done).
  replace (zlen l1 - 1) with (zlen l0) by (rewrite El; zlen_lia).
  apply extend_done; [rewrite El; zlen_lia|done|lia|]. rewrite before_start, El by done. cbn [app]. rewrite <- app_assoc.
  apply app_seg_equiv; [done|]. by apply hole_join.
Qed.

Lemma case_run_start : start = rl_vcn r -> rl_vcn r + rl_length r <= e ->
  exists b, punch_extend (l1 ++ set_lcn LCN_HOLE r :: tail (M ++ l3) ++ td :: sl)
      (zlen l1) (zlen l1 + zlen M) (zlen D) (zlen D + 1) e = Ret b /\ punches b.
Proof.
  intros Hst He. pose proof r_vcn. destruct (M_cons He) as [M' EM]. replace (tail (M ++ l3)) with (M' ++ l3) by (by rewrite EM). rewrite <- app_assoc.
  apply extend_done; [rewrite EM; zlen_lia|done|cbn; lia|]. rewrite before_start by done. cbn. by rewrite Hst.
Qed.

Lemma case_over M' r1 : M = r :: r1 :: M' -> rl_vcn r < start ->
  exists b, punch_extend (l1 ++ set_length (start - rl_vcn r) r :: set_lcn LCN_HOLE (set_vcn start r1) :: M' ++ l3 ++ td :: sl)
      (zlen l1 + 1) (zlen l1 + zlen M) (zlen D) (zlen D + 1) e = Ret b /\ punches b.
Proof.
  intros EM Hst. pose proof r_vcn.
  pose proof (extend_done (l1 ++ [set_length (start - rl_vcn r) r]) (set_lcn LCN_HOLE (set_vcn start r1)) M') as Hx.
  rewrite <- !app_assoc in Hx. cbn [app] in Hx. replace (zlen (l1 ++ [set_length (start - rl_vcn r) r])) with (zlen l1 + 1) in Hx by zlen_lia.
  apply Hx; [rewrite EM; zlen_lia|done|cbn; lia|]. unfold before. destruct (Z.eqb_spec start (rl_vcn r)); [lia|]. done.
Qed.

(** Growing by [k] elements first. *)
Lemma with_realloc_spec k K (Q : rl_buf -> Prop) :
  0 < k <= 2 ->
  (forall s, room (D ++ td :: s) (zlen D + 1 + k) -> k <= zlen s -> exists b, K (D ++ td :: s) = Ret b /\ Q b) ->
  with_realloc (D ++ td :: sl) (zlen D + 1) (zlen D + 1 + k) K = Ret (D ++ td :: sl, - ENOMEM) \/
  exists b, with_realloc (D ++ td :: sl) (zlen D + 1) (zlen D + 1 + k) K = Ret (b, 0) /\ Q b.
Proof.
  intros Hk HK. pose proof (zlen_nonneg D). unfold with_realloc.
  destruct (realloc_list D td sl (zlen D + 1) (zlen D + 1 + k)) as [->|(s & -> & Hr')];
    [lia|lia|lia|lia|exact Hroom|by left|right].
  pose proof (capacity_ge (zlen D + 1 + k) ltac:(lia)).
  destruct (HK s Hr') as (b & Hb & HQ); [unfold room in Hr'; zlen_lia|]. rewrite bind_Ret, Hb, bind_Ret. eauto.
Qed.

Lemma r_mapped : rl_lcn r <> LCN_HOLE -> 0 <= rl_lcn r.
Proof.
  intros Hl. assert (Hu : unmapped r = false).
  { destruct Hhd as [l' E]. destruct M as [|r0 M']; cbn in E; [by apply (Hmap3 r l')|].
    injection E as -> _. cbn in HmapM. by apply orb_false_iff in HmapM as [? _]. }
  unfold unmapped, LCN_HOLE in *. destruct (Z.ltb_spec (rl_lcn r) (-1)); [done|lia].
Qed.

Lemma tail_run_eq y : run_ok y -> 0 <= rl_lcn y -> rl_vcn y <= e ->
  tail_run e y = mk_rle e (rl_lcn y + (e - rl_vcn y)) (rl_length y - (e - rl_vcn y)).
Proof. intros Hy Hl He. unfold tail_run, run_lcn. by destruct (Z.geb_spec (rl_lcn y) 0); [|lia]. Qed.

Lemma from_e_cons y l4 : l3 = y :: l4 -> from e l3 = tail_run e y :: l4.
Proof. intros E. pose proof H3 as Hc. rewrite E in *. destruct Hc as (Hv & _). apply from_inside. specialize (Hend y l4 eq_refl). lia. Qed.

Lemma e_bound : 0 <= start < e /\ e <= S64_MAX.
Proof. pose proof r_vcn. pose proof td_bound. lia. Qed.

Lemma case_split_start : start = rl_vcn r -> e < rl_vcn r + rl_length r -> rl_lcn r <> LCN_HOLE ->
  forall s, room (D ++ td :: s) (zlen D + 1 + 1) -> 1 <= zlen s ->
  exists b, punch_split_end (D ++ td :: s) (zlen l1) (zlen D) (e - start) false = Ret b /\ punches b.
Proof.
  intros Hst He Hl s Hr' Hs'. destruct s as [|s0 s]; [zlen_lia|]. clear Hs'. pose proof e_bound as He2.
  pose proof (r_mapped Hl) as Hl0. destruct (l3_cons He) as (EM & l4 & E3). pose proof zlen_D as HD. rewrite EM, E3 in HD.
  pose proof Hr as Hrr. unfold run_ok in Hrr. assert (S64_MIN < 0) by done.
  pose proof (split_end_spec l1 (l4 ++ [td]) s r s0 (e - start) false) as Hsp.
  replace (l1 ++ r :: (l4 ++ [td]) ++ s0 :: s) with (D ++ td :: s0 :: s) in Hsp
    by (unfold D; rewrite EM, E3; cbn [app]; by rewrite <- !app_assoc).
  replace (zlen l1 + zlen (l4 ++ [td])) with (zlen D) in Hsp by zlen_lia. rewrite Hsp. clear Hsp.
  destruct (Z.geb_spec (rl_lcn r) 0); [|lia]. cbn [orb]. rewrite !s64_id by lia.
  assert (EL : punched = l1 ++ mk_rle (rl_vcn r) LCN_HOLE (e - start) ::
    mk_rle (rl_vcn r + (e - start)) (rl_lcn r + (e - start)) (rl_length r - (e - start)) :: l4).
  { unfold punched, hole. rewrite before_start, (from_e_cons r l4 E3), tail_run_eq by (done || lia). cbn [app].
    repeat (f_equal; try lia). }
  rewrite <- app_assoc. cbn [app]. eexists. split; [reflexivity|].
  replace (l1 ++ _ :: _ :: l4 ++ td :: s) with (punched ++ td :: s) by (rewrite EL, <- app_assoc; done).
  apply punches_intro; [done|]. eapply room_zlen; [eapply room_eq; [exact Hr'|]|].
  - rewrite EL, HD. zlen_lia.
  - rewrite !zlen_app, EL, HD. zlen_lia.
Qed.

Lemma case_both : rl_vcn r < start -> e < rl_vcn r + rl_length r -> rl_lcn r <> LCN_HOLE ->
  forall s, room (D ++ td :: s) (zlen D + 1 + 2) -> 2 <= zlen s ->
  exists b, punch_both (D ++ td :: s) (zlen l1) (zlen D) start e (e - start) = Ret b /\ punches b.
Proof.
  intros Hst He Hl s Hr' Hs'. destruct s as [|s0 [|s1 s]]; [zlen_lia|zlen_lia|]. clear Hs'. pose proof e_bound as He2.
  pose proof (r_mapped Hl) as Hl0. destruct (l3_cons He) as (EM & l4 & E3). pose proof zlen_D as HD. rewrite EM, E3 in HD.
  pose proof Hr as Hrr. unfold run_ok in Hrr. assert (S64_MIN < 0) by done.
  pose proof (punch_both_spec l1 (l4 ++ [td]) s r s0 s1 start e (e - start)) as Hsp.
  replace (l1 ++ r :: (l4 ++ [td]) ++ s0 :: s1 :: s) with (D ++ td :: s0 :: s1 :: s) in Hsp
    by (unfold D; rewrite EM, E3; cbn [app]; by rewrite <- !app_assoc).
  replace (zlen l1 + zlen (l4 ++ [td])) with (zlen D) in Hsp by zlen_lia. rewrite Hsp. clear Hsp.
  rewrite !s64_id by (rewrite ?s64_id; lia).
  assert (EL : punched = l1 ++ set_length (start - rl_vcn r) r :: mk_rle start LCN_HOLE (e - start) ::
    mk_rle e (rl_lcn r + (e - rl_vcn r)) (rl_length r - (e - rl_vcn r)) :: l4).
  { unfold punched, hole, before. rewrite (from_e_cons r l4 E3), tail_run_eq by (done || lia).
    destruct (Z.eqb_spec start (rl_vcn r)); [lia|done]. }
  rewrite <- app_assoc. cbn [app]. eexists. split; [reflexivity|].
  replace (l1 ++ _ :: _ :: _ :: l4 ++ td :: s) with (punched ++ td :: s) by (rewrite EL, <- app_assoc; done).
  apply punches_intro; [done|]. eapply room_zlen; [eapply room_eq; [exact Hr'|]|].
  - rewrite EL, HD. zlen_lia.
  - rewrite !zlen_app, EL, HD. zlen_lia.
Qed.

(** [punch_next] on any element [y] behind [r], the terminator included. *)
Lemma punch_next_spec (T s : rl_buf) y s0 :
  0 <= rl_vcn r -> 0 <= start < e -> e <= S64_MAX -> start <= rl_vcn y <= e -> 0 <= rl_length y ->
  rl_vcn y + rl_length y <= S64_MAX -> rl_lcn y + rl_length y <= S64_MAX -> e <= rl_vcn y + rl_length y ->
  punch_next (l1 ++ r :: y :: T ++ s0 :: s) (zlen l1) (zlen l1 + 1 + zlen T) start (e - start) =
    Ret (l1 ++ set_length (start - rl_vcn r) r :: hole start e ::
         mk_rle e (if rl_lcn y >=? 0 then rl_lcn y + (e - rl_vcn y) else rl_lcn y) (rl_length y - (e - rl_vcn y)) :: T ++ s).
Proof.
  intros Hr0 Hse2 He2 Hy Hly Hmy Hcy Hey. assert (S64_MIN = - S64_MAX - 1) by done. unfold punch_next. upd_step l1 r.
  rewrite s64_id by lia. set (r0 := set_length (start - rl_vcn r) r). rd_step (l1 ++ [r0]) y (zlen l1 + 1).
  rewrite (s64_id (rl_vcn y - start)) by lia. upd_step (l1 ++ [r0]) y.
  set (y2 := mk_rle start (if rl_lcn y >=? 0 then rl_lcn y - (rl_vcn y - start) else rl_lcn y) (rl_length y + (rl_vcn y - start))).
  assert (Hb : forall (K : rl_buf -> bool -> outcome rl_buf),
    ('(b, lcn_fixup) ←
      (if rl_lcn y >=? 0
       then b ← upd ((l1 ++ [r0]) ++ set_vcn start y :: T ++ s0 :: s) (zlen l1 + 1)
                  (fun r => set_lcn (s64 (rl_lcn r - (rl_vcn y - start))) r); Ret (b, true)
       else Ret ((l1 ++ [r0]) ++ set_vcn start y :: T ++ s0 :: s, false));
     b ← upd b (zlen l1 + 1) (fun r => set_length (s64 (rl_length r + (rl_vcn y - start))) r);
     K b lcn_fixup) = K ((l1 ++ [r0]) ++ y2 :: T ++ s0 :: s) (rl_lcn y >=? 0)).
  { intros K. unfold y2. destruct (Z.geb_spec (rl_lcn y) 0).
    - upd_step (l1 ++ [r0]) (set_vcn start y). rewrite bind_Ret.
      upd_step (l1 ++ [r0]) (set_lcn (s64 (rl_lcn (set_vcn start y) - (rl_vcn y - start))) (set_vcn start y)).
      unfold set_length, set_lcn, set_vcn. cbn. rewrite !s64_id by lia. done.
    - rewrite bind_Ret. upd_step (l1 ++ [r0]) (set_vcn start y). unfold set_length, set_vcn. cbn. rewrite s64_id by lia. done. }
  rewrite (Hb (fun b f => punch_split_end b (zlen l1 + 1) (zlen l1 + 1 + zlen T) (e - start) f)). clear Hb.
  pose proof (split_end_spec (l1 ++ [r0]) T s y2 s0 (e - start) (rl_lcn y >=? 0)) as Hsp.
  replace (zlen (l1 ++ [r0])) with (zlen l1 + 1) in Hsp by zlen_lia. rewrite Hsp, <- app_assoc. cbn [app].
  unfold y2, hole. cbn [rl_vcn rl_lcn rl_length]. destruct (Z.geb_spec (rl_lcn y) 0).
  - rewrite orb_true_r, !s64_id by lia. repeat (f_equal; try lia).
  - destruct (Z.geb_spec (rl_lcn y) 0); [lia|]. cbn [orb]. rewrite !s64_id by lia. repeat (f_equal; try lia).
Qed.

Lemma case_next : M = [r] -> rl_vcn r < start -> (forall y l4, l3 = y :: l4 -> rl_lcn y <> LCN_HOLE) ->
  forall s, room (D ++ td :: s) (zlen D + 1 + 1) -> 1 <= zlen s ->
  exists b, punch_next (D ++ td :: s) (zlen l1) (zlen D) start (e - start) = Ret b /\ punches b.
Proof.
  intros EM Hst Hnh s Hr' Hs'. destruct s as [|s0 s]; [zlen_lia|]. clear Hs'. pose proof e_bound as He2.
  pose proof r_vcn as Hr0. pose proof td_bound as Htd. pose proof zlen_D as HD. rewrite EM in HD.
  assert (Em : m = rl_vcn r + rl_length r) by (pose proof HM as HM'; rewrite EM in HM'; by destruct HM' as (_ & _ & <-)).
  assert (Eb : before start r = [set_length (start - rl_vcn r) r]) by (unfold before; destruct (Z.eqb_spec start (rl_vcn r)); [lia|done]).
  assert (Hfin : forall T y, l3 ++ [td] = y :: T -> punched ++ [td] =
    l1 ++ set_length (start - rl_vcn r) r :: hole start e ::
      mk_rle e (if rl_lcn y >=? 0 then rl_lcn y + (e - rl_vcn y) else rl_lcn y) (rl_length y - (e - rl_vcn y)) :: T ->
    start <= rl_vcn y <= e -> 0 <= rl_length y -> rl_vcn y + rl_length y <= S64_MAX ->
    rl_lcn y + rl_length y <= S64_MAX -> e <= rl_vcn y + rl_length y ->
    exists b, punch_next (D ++ td :: s0 :: s) (zlen l1) (zlen D) start (e - start) = Ret b /\ punches b).
  { intros T y EyT Ep Hy1 Hy2 Hy3 Hy4 Hy5. pose proof (f_equal zlen EyT) as Hz. pose proof (f_equal zlen Ep) as Hzp.
    pose proof (punch_next_spec T s y s0 Hr0 ltac:(lia) ltac:(lia) Hy1 Hy2 Hy3 Hy4 Hy5) as Hpn.
    replace (l1 ++ r :: y :: T ++ s0 :: s) with (D ++ td :: s0 :: s) in Hpn.
    2:{ unfold D. rewrite EM, (app_comm_cons T), <- EyT, <- !app_assoc. done. }
    replace (zlen l1 + 1 + zlen T) with (zlen D) in Hpn by zlen_lia. rewrite Hpn. eexists. split; [reflexivity|].
    replace (l1 ++ _ :: _ :: _ :: T ++ s) with (punched ++ td :: s).
    2:{ rewrite (cons_middle td), app_assoc, Ep, <- app_assoc. done. }
    apply punches_intro; [done|]. eapply room_zlen; [eapply room_eq; [exact Hr'|]|]; zlen_lia. }
  assert (E3 : l3 = [] \/ exists y l4, l3 = y :: l4) by (clear; destruct l3; eauto).
  destruct E3 as [E3|(y & l4 & E3)]; pose proof H3 as Hc; rewrite E3 in Hc.
  - cbn in Hc. pose proof td_unmapped as Hu. unfold LCN_HOLE in Hu. destruct Hwf as [_ (Htl & Htv & _)].
    apply (Hfin [] td); [by rewrite E3| |lia..].
    unfold punched. rewrite E3, Eb. cbn [from app]. rewrite <- app_assoc. cbn [app]. do 3 f_equal.
    destruct (Z.geb_spec (rl_lcn td) 0); [lia|]. destruct td. cbn in *. repeat (f_equal; try lia).
  - destruct Hc as (Hv & Hy & H4). specialize (Hend y l4 E3) as Hey. specialize (Hmap3 y l4 E3) as Hu.
    specialize (Hnh y l4 E3). unfold unmapped, LCN_HOLE in *. unfold run_ok in Hy.
    destruct (Z.ltb_spec (rl_lcn y) (-1)); [done|].
    apply (Hfin (l4 ++ [td]) y); [by rewrite E3| |lia..].
    unfold punched. rewrite (from_e_cons y l4 E3), Eb. unfold tail_run, run_lcn. rewrite <- !app_assoc. done.
Qed.

Lemma case_into_hole y l4 : l3 = y :: l4 -> rl_lcn y = LCN_HOLE -> rl_vcn r < start -> rl_lcn r <> LCN_HOLE ->
  exists b, punch_into_hole (D ++ td :: sl) (zlen l1) (zlen l1 + zlen M) (zlen D) (zlen D + 1) start = Ret b /\ punches b.
Proof.
  intros E3 Hy Hst Hl. pose proof e_bound as He2. pose proof td_bound as Htd. pose proof r_vcn as Hr0.
  pose proof (Hend y l4 E3) as Hey. pose proof H3 as Hc. rewrite E3 in Hc. destruct Hc as (Hv & Hyo & H4).
  pose proof (chain_le _ _ _ H4) as Hle. assert (S64_MIN < 0) by done.
  destruct Hhd as [l' Ehd]. assert (EM : exists M', M = r :: M').
  { destruct M as [|r0 M']; cbn in Ehd; [|injection Ehd as -> _; by exists M']. rewrite E3 in Ehd. injection Ehd as -> _. done. }
  destruct EM as [M' EM]. pose proof zlen_D as HD. rewrite EM, E3 in HD. unfold punch_into_hole.
  replace (D ++ td :: sl) with (l1 ++ r :: M' ++ y :: l4 ++ td :: sl) by (unfold D; rewrite EM, E3, <- !app_assoc; done).
  upd_step l1 r. rewrite s64_id by lia. set (r0 := set_length (start - rl_vcn r) r).
  destruct (cut_spec (l1 ++ [r0]) M' (y :: l4 ++ [td]) sl) as (s & Hcut & Hzs).
  rewrite <- !app_assoc in Hcut. cbn [app] in Hcut. rewrite <- !app_assoc in Hcut. cbn [app] in Hcut.
  replace (zlen (l1 ++ [r0])) with (zlen l1 + 1) in Hcut by zlen_lia.
  replace (zlen l1 + 1 + zlen M' + zlen (y :: l4 ++ [td]) - 1) with (zlen D) in Hcut by zlen_lia.
  replace (zlen l1 + zlen M) with (zlen l1 + 1 + zlen M') by (rewrite EM; zlen_lia).
  rewrite Hcut, bind_Ret. clear Hcut. upd_step (l1 ++ [r0]) y. rewrite <- app_assoc. cbn [app].
  destruct (chain_head l4 td s _ H4) as (z & rest & Ez & Hz). rewrite Ez.
  rd_step (l1 ++ [r0; set_vcn start y]) z (zlen l1 + 1 + 1). rewrite Hz, <- Ez.
  rewrite s64_id by lia. upd_step (l1 ++ [r0]) (set_vcn start y).
  replace (set_length (m + rl_length y - start) (set_vcn start y)) with (hole start (m + rl_length y))
    by (unfold hole, set_length, set_vcn; cbn; by rewrite Hy).
  set (L := l1 ++ [r0; hole start (m + rl_length y)] ++ l4). pose proof (zlen_nonneg M').
  destruct (shrink_alloc L td s (zlen l1 + 1) (zlen l1 + 1 + zlen M') (zlen D + 1)) as (s' & Hs' & Hr').
  - lia.
  - lia.
  - unfold L. zlen_lia.
  - eapply room_zlen; [exact Hroom|]. rewrite !zlen_app, HD. unfold L. zlen_lia.
  - exists (L ++ td :: s'). split; [rewrite <- Hs'; unfold L; f_equal; by rewrite <- !app_assoc|].
    apply punches_intro; [|exact Hr']. pose proof (extend_equiv start e m l3 _ H3 ltac:(lia) Hend) as Hx.
    unfold punched, L, before. destruct (Z.eqb_spec start (rl_vcn r)); [lia|]. fold r0. rewrite Hx, E3.
    unfold ext_end, ext_rest. rewrite Hy, Z.eqb_refl, Hv, (from_beyond e _ _ _ H4) by lia. done.
Qed.

(** The run after [r]: skipped when it ends by [e], else the one that holds [e]. *)
Lemma M_cons2 l' : M ++ l3 = r :: l' -> rl_vcn r + rl_length r <= e ->
  (M = [r] /\ l3 = l') \/ exists r1 M', M = r :: r1 :: M' /\ l' = r1 :: M' ++ l3 /\ rl_vcn r1 + rl_length r1 <= e.
Proof.
  intros El He. destruct (M_cons He) as [M' EM]. rewrite EM in El. cbn in El. injection El as El.
  destruct M' as [|r1 M']; [by left|]. right. exists r1, M'. split; [done|]. split; [done|].
  pose proof HM as Hc. rewrite EM in Hc. destruct Hc as (_ & _ & Hv & _ & Hc). pose proof (chain_le _ _ _ Hc). lia.
Qed.

(** The rest of the list behind [r]. *)
Lemma rest_chain l' : M ++ l3 = r :: l' -> chain (rl_vcn r + rl_length r) l' (rl_vcn td).
Proof.
  intros El. assert (Hc : chain (rl_vcn r) (M ++ l3) (rl_vcn td)) by (eapply chain_app_2; [exact HM|exact H3]).
  rewrite El in Hc. by destruct Hc as (_ & _ & Hc).
Qed.

Lemma D_split l' : M ++ l3 = r :: l' -> D ++ td :: sl = l1 ++ r :: l' ++ td :: sl.
Proof. intros El. unfold D. rewrite El, <- !app_assoc. done. Qed.

(** The element at the index of @end. *)
Lemma rd_end : rd (D ++ td :: sl) (zlen l1 + zlen M) = Ret (default td (head l3)).
Proof.
  unfold D. assert (E3 : l3 = [] \/ exists y l4, l3 = y :: l4) by (clear; destruct l3; eauto).
  destruct E3 as [E3|(y & l4 & E3)]; rewrite E3.
  - rewrite app_nil_r. cbn. apply (rd_at _ (l1 ++ M) sl td); at_pos.
  - cbn. apply (rd_at _ (l1 ++ M) (l4 ++ td :: sl) y); at_pos.
Qed.

Definition punch_result (res : outcome (rl_buf * Z)) : Prop :=
  res = Ret (D ++ td :: sl, - ENOMEM) \/ exists b, res = Ret (b, 0) /\ punches b.

Lemma ok_result res : (exists b, res = Ret b /\ punches b) -> punch_result (ok res).
Proof. intros (b & -> & Hb). right. exists b. done. Qed.

(** @start at the beginning of a run that is not a hole. *)
Lemma cases_start l' : M ++ l3 = r :: l' -> start = rl_vcn r -> rl_lcn r <> LCN_HOLE ->
  punch_result (
    prev_hole ← (if zlen l1 >? 0 then p ← rd (D ++ td :: sl) (zlen l1 - 1); Ret (rl_lcn p =? LCN_HOLE) else Ret false);
    if (prev_hole : bool) then ok (punch_extend (D ++ td :: sl) (zlen l1 - 1) (zlen l1 + zlen M) (zlen D) (zlen D + 1) e)
    else
      r1 ← rd (D ++ td :: sl) (zlen l1 + 1);
      if e >=? rl_vcn r1 then
        b ← upd (D ++ td :: sl) (zlen l1) (set_lcn LCN_HOLE);
        ok (punch_extend b (zlen l1) (zlen l1 + zlen M) (zlen D) (zlen D + 1) e)
      else with_realloc (D ++ td :: sl) (zlen D + 1) (zlen D + 1 + 1)
             (fun b => punch_split_end b (zlen l1) (zlen D) (e - start) false)).
Proof.
  intros El Hst Hl. pose proof (D_split l' El) as ED. pose proof (rest_chain l' El) as Hc.
  destruct (chain_head l' td sl _ Hc) as (r1 & rest & Er1 & Hr1).
  assert (Hrest : punch_result (r1 ← rd (D ++ td :: sl) (zlen l1 + 1);
      if e >=? rl_vcn r1 then
        b ← upd (D ++ td :: sl) (zlen l1) (set_lcn LCN_HOLE);
        ok (punch_extend b (zlen l1) (zlen l1 + zlen M) (zlen D) (zlen D + 1) e)
      else with_realloc (D ++ td :: sl) (zlen D + 1) (zlen D + 1 + 1)
             (fun b => punch_split_end b (zlen l1) (zlen D) (e - start) false))).
  { rewrite (rd_at (D ++ td :: sl) (l1 ++ [r]) rest r1 (zlen l1 + 1)) by (rewrite ?ED, ?Er1; at_pos). rewrite bind_Ret, Hr1.
    destruct (Z.geb_spec e (rl_vcn r + rl_length r)).
    - rewrite (upd_at _ l1 (l' ++ td :: sl) r) by (rewrite ?ED; done). rewrite bind_Ret. apply ok_result.
      pose proof (case_run_start Hst ltac:(lia)) as Hx. rewrite El in Hx. exact Hx.
    - apply with_realloc_spec; [lia|]. apply case_split_start; done || lia. }
  destruct (Z.gtb_spec (zlen l1) 0) as [Hz|Hz]; [|exact Hrest].
  destruct (list.last l1) as [p|] eqn:Ep.
  2:{ apply last_None in Ep. rewrite Ep in Hz. done. }
  apply last_Some in Ep as [l0 Ep].
  rewrite (rd_at (D ++ td :: sl) l0 (M ++ l3 ++ td :: sl) p (zlen l1 - 1)) by (unfold D; rewrite ?Ep; at_pos).
  rewrite !bind_Ret. destruct (Z.eqb_spec (rl_lcn p) LCN_HOLE) as [Hp|Hp]; [|exact Hrest].
  apply ok_result. by apply (case_prev_hole l0 p).
Qed.

(** @start inside a run that is not a hole. *)
Lemma cases_middle l' : M ++ l3 = r :: l' -> rl_vcn r < start -> rl_lcn r <> LCN_HOLE ->
  punch_result (
    e0 ← rd (D ++ td :: sl) (zlen l1 + zlen M);
    if rl_lcn e0 =? LCN_HOLE then ok (punch_into_hole (D ++ td :: sl) (zlen l1) (zlen l1 + zlen M) (zlen D) (zlen D + 1) start)
    else
      r1 ← rd (D ++ td :: sl) (zlen l1 + 1);
      if e >=? rl_vcn r1 then
        over ← (if negb (rl_length r1 =? 0) then r2 ← rd (D ++ td :: sl) (zlen l1 + 2); Ret (e >=? rl_vcn r2)
                else Ret false);
        if (over : bool) then ok (punch_over (D ++ td :: sl) (zlen l1) (zlen l1 + zlen M) (zlen D) (zlen D + 1) start e)
        else with_realloc (D ++ td :: sl) (zlen D + 1) (zlen D + 1 + 1) (fun b => punch_next b (zlen l1) (zlen D) start (e - start))
      else with_realloc (D ++ td :: sl) (zlen D + 1) (zlen D + 1 + 2)
             (fun b => punch_both b (zlen l1) (zlen D) start e (e - start))).
Proof.
  intros El Hst Hl. pose proof (D_split l' El) as ED. pose proof (rest_chain l' El) as Hc. pose proof td_bound as Htd.
  destruct (chain_head l' td sl _ Hc) as (r1 & rest & Er1 & Hr1). assert (S64_MIN < 0) by done. pose proof r_vcn as Hr0.
  rewrite rd_end, bind_Ret. destruct (Z.eqb_spec (rl_lcn (default td (head l3))) LCN_HOLE) as [Eh|Eh].
  { apply ok_result. pose proof td_unmapped. assert (E3 : exists y l4, l3 = y :: l4 /\ rl_lcn y = LCN_HOLE).
    { destruct l3 as [|y l4]; cbn in Eh; [lia|eauto]. }
    destruct E3 as (y & l4 & E3 & Hy). by apply (case_into_hole y l4). }
  rewrite (rd_at (D ++ td :: sl) (l1 ++ [r]) rest r1 (zlen l1 + 1)) by (rewrite ?ED, ?Er1; at_pos). rewrite bind_Ret, Hr1.
  destruct (Z.geb_spec e (rl_vcn r + rl_length r)) as [Hge|Hlt].
  2:{ apply with_realloc_spec; [lia|]. apply case_both; done || lia. }
  assert (Hnext : M = [r] -> punch_result (with_realloc (D ++ td :: sl) (zlen D + 1) (zlen D + 1 + 1)
      (fun b => punch_next b (zlen l1) (zlen D) start (e - start)))).
  { intros EM. apply with_realloc_spec; [lia|]. apply case_next; [done|done|]. intros y l4 E3. by rewrite E3 in Eh. }
  destruct l' as [|q l'].
  { cbn in Er1. injection Er1 as <- <-. destruct Hwf as [_ (-> & _)]. cbn [Z.eqb negb]. rewrite bind_Ret. apply Hnext.
    destruct (M_cons2 [] El ltac:(lia)) as [[? _]|(? & ? & _ & [=] & _)]. done. }
  cbn in Er1. injection Er1 as <- <-. destruct Hc as (Hq & Hqo & Hc). rewrite (run_ok_nonzero q Hqo).
  destruct (chain_head l' td sl _ Hc) as (r2 & rest2 & Er2 & Hr2).
  rewrite (rd_at (D ++ td :: sl) (l1 ++ [r; q]) rest2 r2 (zlen l1 + 2)) by (rewrite ?ED; cbn [app]; rewrite ?Er2; at_pos).
  rewrite !bind_Ret, Hr2.
  destruct (M_cons2 (q :: l') El ltac:(lia)) as [[EM E3]|(q' & M' & EM & [= <- El'] & Hq2)].
  - destruct (Z.geb_spec e (rl_vcn r + rl_length r + rl_length q)); [|by apply Hnext].
    specialize (Hend q l' E3). lia.
  - destruct (Z.geb_spec e (rl_vcn r + rl_length r + rl_length q)); [|lia]. apply ok_result. unfold punch_over.
    rewrite ED. cbn [app]. upd_step l1 r. rewrite s64_id by (unfold run_ok in Hr; lia).
    set (r0 := set_length (start - rl_vcn r) r). upd_step (l1 ++ [r0]) q. rewrite <- app_assoc. cbn [app].
    upd_step (l1 ++ [r0]) (set_vcn start q). rewrite <- app_assoc. cbn [app].
    pose proof (case_over M' q EM Hst) as Hx. rewrite El', <- app_assoc. exact Hx.
Qed.

Lemma punch_cases_spec :
  punch_result (punch_cases (D ++ td :: sl) (zlen l1) (zlen l1 + zlen M) (zlen D) start e (e - start)).
Proof.
  destruct Hhd as [l' El]. pose proof (D_split l' El) as ED. pose proof (rest_chain l' El) as Hc. unfold punch_cases.
  rewrite (rd_at (D ++ td :: sl) l1 (l' ++ td :: sl) r (zlen l1)) by (rewrite ?ED; done). rewrite bind_Ret.
  destruct (Z.eqb_spec (rl_lcn r) LCN_HOLE) as [Hl|Hl].
  - destruct (chain_head l' td sl _ Hc) as (r1 & rest & Er1 & Hr1).
    rewrite (rd_at (D ++ td :: sl) (l1 ++ [r]) rest r1 (zlen l1 + 1)) by (rewrite ?ED, ?Er1; at_pos). rewrite bind_Ret, Hr1.
    destruct (Z.leb_spec e (rl_vcn r + rl_length r)).
    + right. eexists. split; [reflexivity|]. by apply case_inside.
    + apply ok_result. apply case_from_hole; done || lia.
  - destruct (Z.eqb_spec start (rl_vcn r)).
    + by apply (cases_start l').
    + apply (cases_middle l'); done || lia.
Qed.
End Punch.
