(* ===== verification/RunlistEditTheorems.v ===== *)
(** * Properties of truncation and hole punching *)

From Stdlib Require Import ZArith Lia Bool.
From stdpp Require Import base list numbers option.
From S2P Require Import Prelude Runlist RunlistSpec RunlistBuf RunlistMerge RunlistMergeSpec.
From S2P Require Import RunlistMergeProof RunlistTheorems MappingPairs MappingPairsSpec RunlistEdit RunlistEditProof RunlistPunch.

(** C29: [ntfs_rl_truncate_nolock] to a non-zero length: it either fails with
    -ENOMEM and leaves the runlist alone, or leaves a well-formed runlist of
    exactly that length, ended by LCN_ENOENT, in which every VCN below the old
    and the new end keeps its LCN and every VCN added is sparse. *)
Theorem truncate_correct {KA : KernelAlloc} D td sl n :
  runlist_wf 0 D td -> room (D ++ td :: sl) (zlen D + 1) -> zlen D + 2 <= RL_MAX -> 0 < n <= S64_MAX ->
  let res := ntfs_rl_truncate_nolock (Some (D ++ td :: sl)) n in
  res = Ret (Some (D ++ td :: sl), - ENOMEM) \/
  exists b L t, res = Ret (Some b, 0) /\ holds b L t /\ runlist_wf 0 L t /\ room b (zlen L + 1) /\ rl_vcn t = n /\
    forall x, 0 <= x <= S64_MAX -> ntfs_rl_vcn_to_lcn (Some b) x =
      Ret (if x <? n then (if x <? rl_vcn td then denote D td x else LCN_HOLE) else LCN_ENOENT).
Proof.
  intros Hwf Hroom Hmax Hn. cbv zeta.
  destruct (truncate_spec D td sl n Hwf Hroom Hmax Hn) as [->|(b & -> & L & t & Hb & HL & Hr & Ht & _ & Hd)]; [by left|].
  right. exists b, L, t. split; [done|]. split_and!; [done..|]. intros x Hx.
  rewrite (vcn_to_lcn_denote b L t 0 x HL Hb) by lia. destruct (Z.ltb_spec x 0); [lia|]. by rewrite Hd by lia.
Qed.

Lemma truncate_correct_witness :
  exists b, @ntfs_rl_truncate_nolock demo_alloc (Some (demo_runs ++ demo_end :: repeat (mk_rle 0 0 0) 166)) 5 = Ret (Some b, 0) /\
    ntfs_rl_vcn_to_lcn (Some b) 4 = Ret LCN_HOLE /\ ntfs_rl_vcn_to_lcn (Some b) 6 = Ret LCN_ENOENT.
Proof.
  destruct (@truncate_correct demo_alloc demo_runs demo_end (repeat (mk_rle 0 0 0) 166) 5) as [E|(b & L & t & E & _ & _ & _ & _ & Hx)].
  - exact demo_wf.
  - unfold room. vm_compute. discriminate.
  - vm_compute. discriminate.
  - unfold S64_MAX. lia.
  - vm_compute in E. discriminate.
  - exists b. split; [exact E|]. split; rewrite Hx by (unfold S64_MAX; lia); reflexivity.
Defined.

(** The tests on the element at @end. *)
Lemma end_tests l3 td e m :
  chain m l3 (rl_vcn td) -> rl_length td = 0 -> ends_after e l3 ->
  let y := default td (head l3) in
  negb (rl_length y =? 0) && (rl_lcn y <? LCN_HOLE) = match l3 with y :: _ => unmapped y | [] => false end /\
  (rl_length y =? 0) && (e >? rl_vcn y) = (rl_vcn td <? e).
Proof.
  intros H3 Ht Hend y. destruct l3 as [|z l4]; unfold y; cbn [head default from_option id].
  - rewrite Ht. cbn. split; [done|]. by rewrite Z.gtb_ltb.
  - destruct H3 as (Hv & Hr & Hc). specialize (Hend z l4 eq_refl). pose proof (chain_le _ _ _ Hc). cbn.
    rewrite (run_ok_nonzero z Hr). split; [done|]. pose proof Hr as (_ & ? & _).
    destruct (Z.eqb_spec (rl_length z) 0); [lia|]. destruct (Z.ltb_spec (rl_vcn td) e); [lia|done].
Qed.

(** Everything [ntfs_rl_punch_nolock] does on a runlist that exists. *)
Lemma punch_spec {KA : KernelAlloc} D td sl start len :
  let e := start + len in
  let res := ntfs_rl_punch_nolock (Some (D ++ td :: sl)) start len in
  runlist_wf 0 D td -> room (D ++ td :: sl) (zlen D + 1) -> zlen D + 3 <= RL_MAX -> 0 <= start -> 0 <= len -> e <= S64_MAX ->
  if blocked start e D then res = Ret (Some (D ++ td :: sl), - EINVAL)
  else if rl_vcn td <? e then res = Ret (Some (D ++ td :: sl), - ENOENT)
  else if len =? 0 then res = Ret (Some (D ++ td :: sl), 0)
  else res = Ret (Some (D ++ td :: sl), - ENOMEM) \/
    exists b L, res = Ret (Some b, 0) /\ holds b L td /\ runlist_wf 0 L td /\ room b (zlen L + 1) /\
      forall x, 0 <= x -> denote L td x = if (start <=? x) && (x <? e) then LCN_HOLE else denote D td x.
Proof.
  intros e res Hwf Hroom Hmax Hs Hlen He. pose proof Hwf as [Hc (Htl & Htv & Htt)]. unfold res, ntfs_rl_punch_nolock.
  fold e. rewrite (s64_id e) by (unfold S64_MIN; lia). unfold BUG_ON.
  rewrite (proj2 (Z.ltb_ge start 0)), (proj2 (Z.ltb_ge len 0)), (proj2 (Z.ltb_ge e 0)), !bind_Ret by lia.
  destruct (skip_to_spec td sl start D (scan_fuel (D ++ td :: sl)) [] 0 Htl Hc ltac:(lia)) as
    (l1 & l2 & m1 & ED & H1 & H2 & Hm1 & Hh & _ & Hsk); [apply scan_fuel_ok|].
  cbn [app] in Hsk. rewrite (@zlen_nil runlist_element), Z.add_0_l in Hsk. rewrite Hsk, bind_Ret. clear Hsk.
  destruct (punch_end_spec td sl e l2 (scan_fuel (D ++ td :: sl)) l1 m1 Htl H2 ltac:(lia)) as
    (M & l3 & m & El2 & HM & H3 & Hme & Hend & Hpe).
  { apply zlen_scan_fuel. rewrite ED. zlen_lia. }
  replace (l1 ++ l2 ++ td :: sl) with (D ++ td :: sl) in Hpe by (rewrite ED, <- app_assoc; done).
  rewrite Hpe, bind_Ret. clear Hpe. subst l2 D.
  rewrite (blocked_parts start e 0 l1 m1 M m l3 (rl_vcn td)) by (done || lia).
  destruct (existsb unmapped M) eqn:EM; [done|]. cbn [orb]. rewrite (rd_end sl l1 M l3 td), bind_Ret.
  destruct (end_tests l3 td e m H3 Htl Hend) as [-> ->]. set (u := match l3 with y :: _ => unmapped y | [] => false end).
  assert (Hu : u = false -> forall y l4, l3 = y :: l4 -> unmapped y = false) by (intros Hu y l4 ->; exact Hu).
  destruct u; [done|]. destruct (Z.ltb_spec (rl_vcn td) e); [done|]. destruct (Z.eqb_spec len 0); [done|].
  destruct (M ++ l3) as [|r l'] eqn:El; [cbn in H2; lia|]. specialize (Hh r l' eq_refl) as Hhr. pose proof H2 as (Hv & Hr & _).
  rewrite (rd_at ((l1 ++ r :: l') ++ td :: sl) l1 (l' ++ td :: sl) r (zlen l1)) by at_pos. rewrite bind_Ret.
  destruct (Z.eqb_spec (rl_length r) 0); [unfold run_ok in Hr; lia|]. subst m1.
  pose proof (scan_up_spec (l1 ++ M) l3 td sl nonterm (scan_fuel ((l1 ++ r :: l') ++ td :: sl)) (chain_runs _ _ _ H3)) as Hsc.
  replace ((l1 ++ M) ++ l3 ++ td :: sl) with ((l1 ++ r :: l') ++ td :: sl) in Hsc by (rewrite <- El, <- !app_assoc; done).
  rewrite zlen_app in Hsc. rewrite Hsc, bind_Ret.
  2:{ unfold nonterm. by rewrite Htl. }
  2:{ apply zlen_scan_fuel. rewrite <- El. zlen_lia. }
  rewrite <- El in *. replace (zlen l1 + zlen M + zlen l3) with (zlen (l1 ++ M ++ l3)) by zlen_lia.
  replace len with (e - start) by (unfold e; lia).
  destruct (punch_cases_spec sl l1 r M l3 td start e m Hwf H1 HM H3 Hr (ex_intro _ l' El) ltac:(lia) ltac:(lia) ltac:(lia)
    Hend Hroom ltac:(lia) EM (Hu eq_refl)) as [->|(b & -> & L & HL)]; [by left|right]. exists b, L. by rewrite bind_Ret.
Qed.

(** C10: [ntfs_rl_punch_nolock] on a range inside the runlist that meets no
    unmapped run: it either fails with -ENOMEM and leaves the runlist alone, or
    leaves a well-formed runlist with the same end in which exactly the VCNs of
    the range became sparse and every other VCN keeps its LCN; all block moves
    stay inside the memory allocated. *)
Theorem punch_correct {KA : KernelAlloc} D td sl start len :
  runlist_wf 0 D td -> room (D ++ td :: sl) (zlen D + 1) -> zlen D + 3 <= RL_MAX ->
  0 <= start -> 0 < len -> start + len <= rl_vcn td -> blocked start (start + len) D = false ->
  let res := ntfs_rl_punch_nolock (Some (D ++ td :: sl)) start len in
  res = Ret (Some (D ++ td :: sl), - ENOMEM) \/
  exists b L, res = Ret (Some b, 0) /\ holds b L td /\ runlist_wf 0 L td /\ room b (zlen L + 1) /\
    forall x, 0 <= x <= S64_MAX -> ntfs_rl_vcn_to_lcn (Some b) x =
      Ret (if (start <=? x) && (x <? start + len) then LCN_HOLE else denote D td x).
Proof.
  intros Hwf Hroom Hmax Hs Hl He Hb. pose proof Hwf as [_ (_ & Ht & _)].
  pose proof (punch_spec D td sl start len Hwf Hroom Hmax Hs ltac:(lia) ltac:(lia)) as Hp. cbv zeta in Hp |- *.
  rewrite Hb, (proj2 (Z.ltb_ge _ _)), (proj2 (Z.eqb_neq len 0)) in Hp by lia.
  destruct Hp as [->|(b & L & -> & HL & Hwl & Hr & Hd)]; [by left|right]. exists b, L. split_and!; [done..|].
  intros x Hx. rewrite (vcn_to_lcn_denote b L td 0 x Hwl HL) by lia. destruct (Z.ltb_spec x 0); [lia|]. by rewrite Hd by lia.
Qed.

Lemma punch_correct_witness :
  exists b, @ntfs_rl_punch_nolock demo_alloc (Some (demo_runs ++ demo_end :: repeat (mk_rle 0 0 0) 166)) 1 2 = Ret (Some b, 0) /\
    ntfs_rl_vcn_to_lcn (Some b) 2 = Ret LCN_HOLE /\ ntfs_rl_vcn_to_lcn (Some b) 3 = Ret 103.
Proof.
  destruct (@punch_correct demo_alloc demo_runs demo_end (repeat (mk_rle 0 0 0) 166) 1 2) as [E|(b & L & E & _ & _ & _ & Hx)].
  - exact demo_wf.
  - unfold room. vm_compute. discriminate.
  - vm_compute. discriminate.
  - lia.
  - lia.
  - cbn. lia.
  - reflexivity.
  - vm_compute in E. discriminate.
  - exists b. split; [exact E|]. split; rewrite Hx by (unfold S64_MAX; lia); reflexivity.
Defined.

(** The error returns of [ntfs_rl_punch_nolock], all of which leave the
    runlist as it was: -EINVAL when a run that meets the range is not mapped,
    -ENOENT when the range ends beyond the runlist; an empty range inside the
    runlist succeeds without a change. *)
Theorem punch_errors {KA : KernelAlloc} D td sl start len :
  runlist_wf 0 D td -> room (D ++ td :: sl) (zlen D + 1) -> zlen D + 3 <= RL_MAX ->
  0 <= start -> 0 <= len -> start + len <= S64_MAX ->
  let res := ntfs_rl_punch_nolock (Some (D ++ td :: sl)) start len in
  (blocked start (start + len) D = true -> res = Ret (Some (D ++ td :: sl), - EINVAL)) /\
  (blocked start (start + len) D = false ->
     (rl_vcn td < start + len -> res = Ret (Some (D ++ td :: sl), - ENOENT)) /\
     (len = 0 -> start <= rl_vcn td -> res = Ret (Some (D ++ td :: sl), 0))).
Proof.
  intros Hwf Hroom Hmax Hs Hl He. pose proof (punch_spec D td sl start len Hwf Hroom Hmax Hs Hl He) as Hp.
  cbv zeta in Hp |- *. split; intros Hb; rewrite Hb in Hp; [exact Hp|]. split.
  - intros Ht. by rewrite (proj2 (Z.ltb_lt _ _)) in Hp.
  - intros -> Ht. by rewrite (proj2 (Z.ltb_ge _ _)) in Hp by lia.
Qed.

Lemma punch_errors_witness :
  @ntfs_rl_punch_nolock demo_alloc (Some (demo_runs ++ demo_end :: repeat (mk_rle 0 0 0) 166)) 5 3 =
    Ret (Some (demo_runs ++ demo_end :: repeat (mk_rle 0 0 0) 166), - ENOENT).
Proof.
  refine (proj1 (proj2 (@punch_errors demo_alloc demo_runs demo_end (repeat (mk_rle 0 0 0) 166) 5 3 demo_wf _ _ _ _ _) _) _).
  - unfold room. vm_compute. discriminate.
  - vm_compute. discriminate.
  - lia.
  - lia.
  - unfold S64_MAX. lia.
  - reflexivity.
  - cbn. lia.
Defined.
