(* ===== verification/Mst.v ===== *)
(** * Multi sector transfer protection

    Models [src/ntfs/mst.c].  All accesses of these functions to a record are to
    aligned [le16]s, so a record is the list of its 16-bit words: word 2 is
    @usa_ofs, word 3 is @usa_count, words 0 and 1 are @magic. *)

From Stdlib Require Import ZArith Lia Bool.
From stdpp Require Import base list numbers option.
From S2P Require Import Prelude.

Definition NTFS_BLOCK_SIZE : Z := 512.
Definition NTFS_BLOCK_SIZE_BITS : Z := 9.

(** [NTFS_BLOCK_SIZE/sizeof(u16)] *)
Definition BLOCK_WORDS : Z := 256.

Definition magic_HOLE : Z := 0x454c4f48.
Definition magic_BAAD : Z := 0x44414142.

(** [b->magic] and its update. *)
Definition get_magic (b : list Z) : outcome Z := lo ← rd b 0; hi ← rd b 1; Ret (lo + 0x10000 * hi).
Definition set_magic (b : list Z) (m : Z) : outcome (list Z) :=
  b ← wr b 0 (m mod 0x10000); wr b 1 (m / 0x10000).

(** "Size and alignment checks": true when there is nothing to fix up. *)
Definition usa_invalid (size usa_ofs usa_count : Z) : bool :=
  negb (Z.land size (NTFS_BLOCK_SIZE - 1) =? 0) || negb (Z.land usa_ofs 1 =? 0)
  || (usa_ofs + usa_count * 2 >? size) || negb (Z.shiftr size NTFS_BLOCK_SIZE_BITS =? usa_count).

(** "Check for incomplete multi sector transfer(s)." *)
Fixpoint mst_check (usa_count : nat) (b : list Z) (data_pos usn : Z) : outcome bool :=
  match usa_count with
  | O => Ret true
  | S n =>
      x ← rd b data_pos;
      if negb (x =? usn) then Ret false else mst_check n b (data_pos + BLOCK_WORDS) usn
  end.

(** "Fixup all sectors": restore the data from the update sequence array. *)
Fixpoint mst_restore (usa_count : nat) (b : list Z) (usa_pos data_pos : Z) : outcome (list Z) :=
  match usa_count with
  | O => Ret b
  | S n =>
      x ← rd b (usa_pos + 1);
      b ← wr b data_pos x;
      mst_restore n b (usa_pos + 1) (data_pos + BLOCK_WORDS)
  end.

(** "Fixup all sectors": save the data and store the update sequence number. *)
Fixpoint mst_protect (usa_count : nat) (b : list Z) (usa_pos data_pos le_usn : Z) : outcome (list Z) :=
  match usa_count with
  | O => Ret b
  | S n =>
      x ← rd b data_pos;
      b ← wr b (usa_pos + 1) x;
      b ← wr b data_pos le_usn;
      mst_protect n b (usa_pos + 1) (data_pos + BLOCK_WORDS) le_usn
  end.

(** The record afterwards, and the return value. *)
Definition post_read_mst_fixup (b : list Z) (size : Z) : outcome (list Z * Z) :=
  usa_ofs ← rd b 2;
  cnt ← rd b 3;
  let usa_count := u16 (cnt - 1) in
  if usa_invalid size usa_ofs usa_count then Ret (b, 0)
  else
    let usa_pos := usa_ofs / 2 in
    usn ← rd b usa_pos;
    intact ← mst_check (Z.to_nat usa_count) b (BLOCK_WORDS - 1) usn;
    if negb intact then b ← set_magic b magic_BAAD; Ret (b, - EINVAL)
    else b ← mst_restore (Z.to_nat usa_count) b usa_pos (BLOCK_WORDS - 1); Ret (b, 0).

(** The cyclic increment of the update sequence number. *)
Definition next_usn (usn : Z) : Z :=
  let usn := u16 (usn + 1) in
  if (usn =? 0xffff) || (usn =? 0) then 1 else usn.

Definition pre_write_mst_fixup (b : option (list Z)) (size : Z) : outcome (option (list Z) * Z) :=
  match b with
  | None => Ret (None, - EINVAL)
  | Some b =>
      m ← get_magic b;
      if (m =? magic_BAAD) || (m =? magic_HOLE) then Ret (Some b, - EINVAL)
      else
        usa_ofs ← rd b 2;
        cnt ← rd b 3;
        let usa_count := u16 (cnt - 1) in
        if usa_invalid size usa_ofs usa_count then Ret (Some b, - EINVAL)
        else
          let usa_pos := usa_ofs / 2 in
          old ← rd b usa_pos;
          let usn := next_usn old in
          b ← wr b usa_pos usn;
          b ← mst_protect (Z.to_nat usa_count) b usa_pos (BLOCK_WORDS - 1) usn;
          Ret (Some b, 0)
  end.

Definition post_write_mst_fixup (b : list Z) : outcome (list Z) :=
  usa_ofs ← rd b 2;
  cnt ← rd b 3;
  mst_restore (Z.to_nat (u16 (cnt - 1))) b (usa_ofs / 2) (BLOCK_WORDS - 1).

(** ** The loops, seen through lookups *)

(** The word at index [i]. *)
Definition word (b : list Z) (i : Z) : option Z := if i <? 0 then None else b !! Z.to_nat i.

Lemma rd_word b i x : rd b i = Ret x <-> word b i = Some x.
Proof. unfold rd, word. destruct (i <? 0); [done|]. destruct (b !! Z.to_nat i); naive_solver. Qed.

Lemma word_in_range b i : 0 <= i < zlen b -> exists x, word b i = Some x.
Proof. intros Hi. destruct (rd_in_range b i Hi) as [x Hx]. exists x. by apply rd_word. Qed.

Lemma wr_word b i x :
  0 <= i < zlen b ->
  exists b', wr b i x = Ret b' /\ zlen b' = zlen b /\
    forall j, word b' j = if j =? i then Some x else word b j.
Proof.
  intros Hi. unfold wr. replace ((0 <=? i) && (i <? zlen b)) with true by lia.
  eexists. split; [done|]. split; [unfold zlen; by rewrite length_insert|].
  intros j. unfold word. destruct (Z.ltb_spec j 0), (Z.eqb_spec j i) as [->|]; try (done || lia).
  - apply list_lookup_insert_eq. unfold zlen in Hi. lia.
  - apply list_lookup_insert_ne. lia.
Qed.

(** [j] is the last word of one of the [n] sectors from [d] on. *)
Definition protected (n : nat) (d j : Z) : bool :=
  (d <=? j) && (j <? d + Z.of_nat n * BLOCK_WORDS) && ((j - d) mod BLOCK_WORDS =? 0).

Lemma protected_O d j : protected 0 d j = false.
Proof.
  unfold protected. destruct (Z.leb_spec d j), (Z.ltb_spec j (d + Z.of_nat 0 * BLOCK_WORDS)); done || lia.
Qed.

Lemma protected_S n d j :
  protected (S n) d j = (j =? d) || protected n (d + BLOCK_WORDS) j.
Proof.
  unfold protected, BLOCK_WORDS. replace (j - (d + 256)) with (j - d + (-1) * 256) by lia.
  rewrite Z.mod_add by lia. pose proof (Z.div_mod (j - d) 256). pose proof (Z.mod_pos_bound (j - d) 256).
  destruct (Z.eqb_spec j d) as [->|]; cbn [orb].
  { rewrite Z.sub_diag, Z.mod_0_l, Z.leb_refl by lia. destruct (Z.ltb_spec d (d + Z.of_nat (S n) * 256)); [done|lia]. }
  destruct (Z.eqb_spec ((j - d) mod 256) 0); [|by rewrite !andb_false_r]. rewrite !andb_true_r.
  destruct (Z.leb_spec d j), (Z.ltb_spec j (d + Z.of_nat (S n) * 256)), (Z.leb_spec (d + 256) j),
    (Z.ltb_spec j (d + 256 + Z.of_nat n * 256)); done || lia.
Qed.

(** What the loops need: a record of [zlen b] words whose update sequence array,
    at word [u], lies before the first protected word [d]. *)
Definition usa_fits (n : nat) (b : list Z) (u d : Z) : Prop :=
  0 <= u /\ u + Z.of_nat n < d /\ (n <> O -> d + (Z.of_nat n - 1) * BLOCK_WORDS < zlen b).

Lemma usa_fits_S n b u d : usa_fits (S n) b u d -> usa_fits n b (u + 1) (d + BLOCK_WORDS).
Proof. unfold usa_fits, BLOCK_WORDS. intros (? & ? & H). specialize (H ltac:(done)). lia. Qed.

Lemma usa_fits_zlen n b b' u d : zlen b' = zlen b -> usa_fits n b u d -> usa_fits n b' u d.
Proof. unfold usa_fits. by intros ->. Qed.

Lemma usa_fits_here n b u d : usa_fits (S n) b u d -> 0 <= u + 1 < d /\ d < zlen b.
Proof. unfold usa_fits, BLOCK_WORDS. intros (? & ? & H). specialize (H ltac:(done)). lia. Qed.

Lemma mst_protect_spec usn n : forall b u d,
  usa_fits n b u d ->
  exists b', mst_protect n b u d usn = Ret b' /\ zlen b' = zlen b /\
    forall j, word b' j =
      if protected n d j then Some usn
      else if (u <? j) && (j <=? u + Z.of_nat n) then word b (d + (j - u - 1) * BLOCK_WORDS)
      else word b j.
Proof.
  induction n as [|n IH]; intros b u d Hf.
  { exists b. split; [done|]. split; [done|]. intros j. rewrite protected_O, Z.add_0_r.
    by replace ((u <? j) && (j <=? u)) with false by lia. }
  pose proof (usa_fits_here _ _ _ _ Hf) as (Hu & Hd). pose proof (Nat2Z.is_nonneg n) as Hn0. cbn [mst_protect].
  destruct (word_in_range b d) as [x Hx]; [lia|]. rewrite (proj2 (rd_word b d x) Hx), bind_Ret.
  destruct (wr_word b (u + 1) x) as (b1 & -> & Hz1 & H1); [lia|]. rewrite bind_Ret.
  destruct (wr_word b1 d usn) as (b2 & -> & Hz2 & H2); [lia|]. rewrite bind_Ret.
  destruct (IH b2 (u + 1) (d + BLOCK_WORDS)) as (b' & -> & Hz' & H').
  { eapply usa_fits_zlen; [|by apply usa_fits_S]. lia. }
  exists b'. split; [done|]. split; [lia|]. intros j. rewrite H', protected_S, ?Nat2Z.inj_succ. unfold Z.succ.
  destruct (protected n (d + BLOCK_WORDS) j) eqn:Ep; [by rewrite orb_true_r|]. rewrite orb_false_r.
  destruct (Z.eqb_spec j d) as [->|Hjd].
  { replace ((u + 1 <? d) && (d <=? u + 1 + Z.of_nat n)) with false.
    - rewrite H2. by rewrite Z.eqb_refl.
    - destruct Hf as (_ & ? & _). lia. }
  destruct (Z.eqb_spec j (u + 1)) as [->|Hju].
  { replace ((u + 1 <? u + 1) && _) with false by lia.
    replace ((u <? u + 1) && (u + 1 <=? u + (Z.of_nat n + 1))) with true by lia.
    rewrite H2, H1. destruct (Z.eqb_spec (u + 1) d); [lia|]. rewrite Z.eqb_refl, <- Hx. f_equal. lia. }
  destruct ((u + 1 <? j) && (j <=? u + 1 + Z.of_nat n)) eqn:Ej.
  - replace ((u <? j) && (j <=? u + (Z.of_nat n + 1))) with true by lia.
    replace (d + BLOCK_WORDS + (j - (u + 1) - 1) * BLOCK_WORDS) with (d + (j - u - 1) * BLOCK_WORDS) by lia.
    set (k := d + (j - u - 1) * BLOCK_WORDS). assert (d < k) by (unfold k, BLOCK_WORDS; lia).
    rewrite H2, H1. destruct (Z.eqb_spec k d); [lia|]. destruct (Z.eqb_spec k (u + 1)); [lia|done].
  - replace ((u <? j) && (j <=? u + (Z.of_nat n + 1))) with false by lia.
    rewrite H2, H1. destruct (Z.eqb_spec j d); [lia|]. destruct (Z.eqb_spec j (u + 1)); [lia|done].
Qed.

Lemma mst_restore_spec n : forall b u d,
  usa_fits n b u d ->
  exists b', mst_restore n b u d = Ret b' /\ zlen b' = zlen b /\
    forall j, word b' j =
      if protected n d j then word b (u + 1 + (j - d) / BLOCK_WORDS) else word b j.
Proof.
  induction n as [|n IH]; intros b u d Hf.
  { exists b. split; [done|]. split; [done|]. intros j. by rewrite protected_O. }
  pose proof (usa_fits_here _ _ _ _ Hf) as (Hu & Hd). pose proof (Nat2Z.is_nonneg n) as Hn0. cbn [mst_restore].
  destruct (word_in_range b (u + 1)) as [x Hx]; [lia|]. rewrite (proj2 (rd_word b (u + 1) x) Hx), bind_Ret.
  destruct (wr_word b d x) as (b1 & -> & Hz1 & H1); [lia|]. rewrite bind_Ret.
  destruct (IH b1 (u + 1) (d + BLOCK_WORDS)) as (b' & -> & Hz' & H').
  { eapply usa_fits_zlen; [|by apply usa_fits_S]. lia. }
  exists b'. split; [done|]. split; [lia|]. intros j. rewrite H', protected_S, ?Nat2Z.inj_succ. unfold Z.succ.
  destruct (protected n (d + BLOCK_WORDS) j) eqn:Ep.
  - rewrite orb_true_r. unfold protected, BLOCK_WORDS in *. destruct Hf as (_ & Hlt & _).
    replace ((j - d) / 256) with (1 + (j - (d + 256)) / 256)
      by (replace (j - d) with (j - (d + 256) + 1 * 256) by lia; rewrite Z.div_add by lia; lia).
    replace (u + 1 + 1 + (j - (d + 256)) / 256) with (u + 1 + (1 + (j - (d + 256)) / 256)) by lia.
    assert (0 <= (j - (d + 256)) / 256 < Z.of_nat n) by
      (split; [apply Z.div_pos|apply Z.div_lt_upper_bound]; lia).
    rewrite H1. by destruct (Z.eqb_spec (u + 1 + (1 + (j - (d + 256)) / 256)) d); [lia|].
  - rewrite orb_false_r, H1. destruct (Z.eqb_spec j d) as [->|]; [|done].
    by rewrite Z.sub_diag, Z.div_0_l, Z.add_0_r by done.
Qed.

Lemma mst_check_spec usn n : forall b d,
  0 <= d -> (n <> O -> d + (Z.of_nat n - 1) * BLOCK_WORDS < zlen b) ->
  exists r, mst_check n b d usn = Ret r /\
    (r = true <-> forall j, protected n d j = true -> word b j = Some usn).
Proof.
  induction n as [|n IH]; intros b d Hd Hl.
  { exists true. split; [done|]. split; [|done]. intros _ j. by rewrite protected_O. }
  specialize (Hl ltac:(done)). cbn [mst_check]. unfold BLOCK_WORDS in Hl.
  destruct (word_in_range b d) as [x Hx]; [lia|]. rewrite (proj2 (rd_word b d x) Hx), bind_Ret.
  destruct (Z.eqb_spec x usn) as [->|Hne]; cbn [negb].
  - destruct (IH b (d + BLOCK_WORDS)) as (r & -> & Hr); [unfold BLOCK_WORDS; lia..|].
    exists r. split; [done|]. rewrite Hr. split; intros H j Hj.
    + rewrite protected_S in Hj. destruct (Z.eqb_spec j d) as [E|]; [by rewrite E|]. by apply H.
    + apply H. rewrite protected_S, Hj. by rewrite orb_true_r.
  - exists false. split; [done|]. split; [done|]. intros H. specialize (H d).
    rewrite protected_S, Z.eqb_refl in H. rewrite H in Hx by done. congruence.
Qed.

(** ** The functions *)

(** A record of [n] sectors with its update sequence array where layout.h
    requires it: behind the header and before the last word of the first sector. *)
Record record_ok (b : list Z) (n usa_ofs : Z) : Prop := {
  ro_len : zlen b = n * BLOCK_WORDS;
  ro_sectors : 1 <= n < 0x10000;
  ro_ofs : word b 2 = Some usa_ofs;
  ro_count : word b 3 = Some (n + 1);
  ro_even : Z.land usa_ofs 1 = 0;
  ro_place : 8 <= usa_ofs /\ usa_ofs + 2 * (n + 1) <= 510;
}.

(** The words of the update sequence array. *)
Definition in_usa (n usa_ofs j : Z) : bool := (usa_ofs / 2 <=? j) && (j <=? usa_ofs / 2 + n).

Lemma usa_valid b n usa_ofs :
  record_ok b n usa_ofs ->
  u16 (n + 1 - 1) = n /\ usa_invalid (n * NTFS_BLOCK_SIZE) usa_ofs n = false /\
  usa_fits (Z.to_nat n) b (usa_ofs / 2) (BLOCK_WORDS - 1) /\ 4 <= usa_ofs / 2.
Proof.
  intros [Hl Hn Ho Hc He Hp]. split; [rewrite u16_id; lia|]. split.
  - unfold usa_invalid, NTFS_BLOCK_SIZE, NTFS_BLOCK_SIZE_BITS. rewrite He.
    replace (512 - 1) with (Z.ones 9) by done. rewrite Z.land_ones, Z.shiftr_div_pow2 by lia.
    change (2 ^ 9) with 512. rewrite Z.mod_mul, Z.div_mul, !Z.eqb_refl by lia.
    destruct (Z.gtb_spec (usa_ofs + n * 2) (n * 512)); [lia|done].
  - unfold usa_fits, BLOCK_WORDS in *. rewrite Z2Nat.id by lia.
    assert (4 <= usa_ofs / 2) by (apply Z.div_le_lower_bound; lia).
    assert (usa_ofs / 2 <= 254 - n) by (apply Z.div_le_upper_bound; lia). lia.
Qed.

Lemma next_usn_ok x : 1 <= next_usn x < 0xffff.
Proof.
  unfold next_usn. assert (0 <= u16 (x + 1) < 0x10000) by (apply Z.mod_pos_bound; lia).
  destruct (Z.eqb_spec (u16 (x + 1)) 0xffff), (Z.eqb_spec (u16 (x + 1)) 0); cbn [orb]; lia.
Qed.

(** Protected words are outside the array. *)
Lemma usa_not_protected n d u j : u + Z.of_nat n < d -> j <= u + Z.of_nat n -> protected n d j = false.
Proof. intros. unfold protected. by destruct (Z.leb_spec d j); [lia|]. Qed.

Lemma protected_saved n d u j :
  protected n d j = true ->
  (u <? u + 1 + (j - d) / BLOCK_WORDS) && (u + 1 + (j - d) / BLOCK_WORDS <=? u + Z.of_nat n) = true /\
  d + (u + 1 + (j - d) / BLOCK_WORDS - u - 1) * BLOCK_WORDS = j.
Proof.
  unfold protected, BLOCK_WORDS. intros H. pose proof (Nat2Z.is_nonneg n).
  pose proof (Z.div_mod (j - d) 256 ltac:(done)). split; [|lia].
  assert (0 <= (j - d) / 256) by (apply Z.div_pos; lia).
  assert ((j - d) / 256 < Z.of_nat n) by (apply Z.div_lt_upper_bound; lia). lia.
Qed.

(** Writing protects the record. *)
Lemma pre_write_spec b n usa_ofs m :
  record_ok b n usa_ofs -> get_magic b = Ret m -> m <> magic_BAAD -> m <> magic_HOLE ->
  exists b1 usn, pre_write_mst_fixup (Some b) (n * NTFS_BLOCK_SIZE) = Ret (Some b1, 0) /\
    1 <= usn < 0xffff /\ record_ok b1 n usa_ofs /\ word b1 (usa_ofs / 2) = Some usn /\
    (forall j, protected (Z.to_nat n) (BLOCK_WORDS - 1) j = true ->
       word b1 j = Some usn /\ word b1 (usa_ofs / 2 + 1 + (j - (BLOCK_WORDS - 1)) / BLOCK_WORDS) = word b j) /\
    (forall j, protected (Z.to_nat n) (BLOCK_WORDS - 1) j = false -> in_usa n usa_ofs j = false ->
       word b1 j = word b j).
Proof.
  intros Hok Hm Hb Hh. destruct (usa_valid b n usa_ofs Hok) as (Hn & Hinv & Hfit & Hu).
  destruct Hok as [Hl Hs Ho Hc He Hp]. unfold pre_write_mst_fixup. rewrite Hm, bind_Ret.
  destruct (Z.eqb_spec m magic_BAAD); [done|]. destruct (Z.eqb_spec m magic_HOLE); [done|]. cbn [orb].
  rewrite (proj2 (rd_word b 2 _) Ho), bind_Ret, (proj2 (rd_word b 3 _) Hc), bind_Ret, Hn, Hinv.
  set (u := usa_ofs / 2) in *. set (d := BLOCK_WORDS - 1) in *. set (k := Z.to_nat n) in *.
  assert (Hk : Z.of_nat k = n) by (unfold k; lia).
  assert (Hub : 0 <= u < zlen b).
  { destruct Hfit as (? & Hlt & Hd). unfold d, BLOCK_WORDS in *. lia. }
  destruct (word_in_range b u Hub) as [old Hold]. rewrite (proj2 (rd_word b u _) Hold), bind_Ret.
  pose proof (next_usn_ok old) as Husn. set (usn := next_usn old) in *.
  destruct (wr_word b u usn Hub) as (b0 & -> & Hz0 & H0). rewrite bind_Ret.
  destruct (mst_protect_spec usn k b0 u d) as (b1 & -> & Hz1 & H1); [by eapply usa_fits_zlen|].
  exists b1, usn. rewrite bind_Ret. split; [done|]. split; [done|].
  assert (Hlt : u + n < d) by (destruct Hfit as (_ & ? & _); lia).
  assert (Hlow : forall j, j < u -> word b1 j = word b j).
  { intros j Hj. rewrite H1, (usa_not_protected k d u) by lia.
    destruct (Z.ltb_spec u j); [lia|]. cbn [andb]. rewrite H0. by destruct (Z.eqb_spec j u); [lia|]. }
  split; [split; try done; [lia| |]; rewrite Hlow by lia; done|].
  split. { rewrite H1, (usa_not_protected k d u) by lia. rewrite Z.ltb_irrefl. cbn [andb].
    by rewrite H0, Z.eqb_refl. }
  split.
  - intros j Hj. split; [by rewrite H1, Hj|].
    destruct (protected_saved k d u j Hj) as [Hin Hpos].
    rewrite H1, (usa_not_protected k d u) by lia. rewrite Hin, Hpos, H0.
    destruct (Z.eqb_spec j u); [|done]. subst j. by rewrite (usa_not_protected k d u) in Hj by lia.
  - intros j Hj Hout. rewrite H1, Hj. unfold in_usa in Hout. fold u in Hout.
    replace ((u <? j) && (j <=? u + Z.of_nat k)) with false by lia. rewrite H0.
    destruct (Z.eqb_spec j u); [lia|done].
Qed.

(** Reading a record whose sectors all carry the update sequence number. *)
Lemma post_read_intact b n usa_ofs usn :
  record_ok b n usa_ofs -> word b (usa_ofs / 2) = Some usn ->
  (forall j, protected (Z.to_nat n) (BLOCK_WORDS - 1) j = true -> word b j = Some usn) ->
  exists b', post_read_mst_fixup b (n * NTFS_BLOCK_SIZE) = Ret (b', 0) /\
    post_write_mst_fixup b = Ret b' /\
    forall j, word b' j =
      if protected (Z.to_nat n) (BLOCK_WORDS - 1) j
      then word b (usa_ofs / 2 + 1 + (j - (BLOCK_WORDS - 1)) / BLOCK_WORDS) else word b j.
Proof.
  intros Hok Husn Hall. destruct (usa_valid b n usa_ofs Hok) as (Hn & Hinv & Hfit & Hu).
  destruct Hok as [Hl Hs Ho Hc He Hp]. unfold post_read_mst_fixup, post_write_mst_fixup.
  rewrite (proj2 (rd_word b 2 _) Ho), !bind_Ret, (proj2 (rd_word b 3 _) Hc), !bind_Ret, Hn, Hinv.
  rewrite (proj2 (rd_word b _ _) Husn), bind_Ret.
  destruct (mst_check_spec usn (Z.to_nat n) b (BLOCK_WORDS - 1)) as (r & -> & Hr);
    [unfold BLOCK_WORDS; lia|apply Hfit|]. rewrite bind_Ret.
  rewrite (proj2 Hr Hall). cbn [negb].
  destruct (mst_restore_spec (Z.to_nat n) b (usa_ofs / 2) (BLOCK_WORDS - 1) Hfit) as (b' & -> & _ & H').
  exists b'. done.
Qed.

(** C30: multi sector transfer protection round trip: protecting a valid record
    for writing stores a valid update sequence number in every sector, and both
    reading the record back and undoing the protection after the write succeed
    and restore every word of the record outside the update sequence array. *)
Theorem mst_roundtrip b n usa_ofs m :
  record_ok b n usa_ofs -> get_magic b = Ret m -> m <> magic_BAAD -> m <> magic_HOLE ->
  exists b1 b2 usn,
    pre_write_mst_fixup (Some b) (n * NTFS_BLOCK_SIZE) = Ret (Some b1, 0) /\ 1 <= usn < 0xffff /\
    (forall j, protected (Z.to_nat n) (BLOCK_WORDS - 1) j = true -> word b1 j = Some usn) /\
    post_read_mst_fixup b1 (n * NTFS_BLOCK_SIZE) = Ret (b2, 0) /\ post_write_mst_fixup b1 = Ret b2 /\
    forall j, in_usa n usa_ofs j = false -> word b2 j = word b j.
Proof.
  intros Hok Hm Hb Hh.
  destruct (pre_write_spec b n usa_ofs m Hok Hm Hb Hh) as (b1 & usn & Hpre & Husn & Hok1 & Hu & Hp & Hr).
  destruct (post_read_intact b1 n usa_ofs usn Hok1 Hu) as (b2 & Hread & Hwrite & H2); [intros; by apply Hp|].
  exists b1, b2, usn. split; [done|]. split; [done|]. split; [intros; by apply Hp|]. split; [done|]. split; [done|].
  intros j Hj. rewrite H2. destruct (protected (Z.to_nat n) (BLOCK_WORDS - 1) j) eqn:E; [by apply Hp|by apply Hr].
Qed.

Definition demo_record : list Z :=
  [0x4946; 0x454c; 0x30; 3] ++ repeat 7 20 ++ [5; 0; 0] ++ repeat 9 485.

Lemma demo_record_ok : record_ok demo_record 2 0x30.
Proof. split; done || lia. Qed.

Lemma mst_roundtrip_witness :
  exists b1 b2, pre_write_mst_fixup (Some demo_record) 1024 = Ret (Some b1, 0) /\
    post_read_mst_fixup b1 1024 = Ret (b2, 0) /\ word b2 511 = Some 9.
Proof.
  destruct (mst_roundtrip demo_record 2 0x30 0x454c4946 demo_record_ok) as (b1 & b2 & usn & H1 & _ & _ & H2 & _ & Hj);
    [reflexivity|discriminate|discriminate|].
  exists b1, b2. split; [exact H1|]. split; [exact H2|]. exact (Hj 511 eq_refl).
Defined.

(** C31: detection of incomplete transfers: reading a valid record gives -EINVAL
    exactly when some sector does not carry the update sequence number, and the
    record then has the magic "BAAD" and is otherwise unchanged. *)
Theorem mst_torn_write_detected b n usa_ofs usn :
  record_ok b n usa_ofs -> word b (usa_ofs / 2) = Some usn ->
  exists b' r, post_read_mst_fixup b (n * NTFS_BLOCK_SIZE) = Ret (b', r) /\
    ((r = 0 /\ forall j, protected (Z.to_nat n) (BLOCK_WORDS - 1) j = true -> word b j = Some usn) \/
     (r = - EINVAL /\ (exists j, protected (Z.to_nat n) (BLOCK_WORDS - 1) j = true /\ word b j <> Some usn) /\
      get_magic b' = Ret magic_BAAD /\ forall j, 2 <= j -> word b' j = word b j)).
Proof.
  intros Hok Husn. destruct (usa_valid b n usa_ofs Hok) as (Hn & Hinv & Hfit & Hu). pose proof Hok as Hok'.
  destruct Hok as [Hl Hs Ho Hc He Hp].
  destruct (mst_check_spec usn (Z.to_nat n) b (BLOCK_WORDS - 1)) as (r & Hck & Hr);
    [unfold BLOCK_WORDS; lia|apply Hfit|].
  destruct r.
  { destruct (post_read_intact b n usa_ofs usn Hok' Husn) as (b' & Hrd & _); [by apply Hr|].
    exists b', 0. split; [done|]. left. split; [done|]. by apply Hr. }
  unfold post_read_mst_fixup.
  rewrite (proj2 (rd_word b 2 _) Ho), !bind_Ret, (proj2 (rd_word b 3 _) Hc), !bind_Ret, Hn, Hinv.
  rewrite (proj2 (rd_word b _ _) Husn), bind_Ret, Hck, bind_Ret. cbn [negb]. unfold set_magic.
  destruct (wr_word b 0 (magic_BAAD mod 0x10000)) as (b1 & -> & Hz1 & H1); [unfold BLOCK_WORDS in *; lia|].
  rewrite bind_Ret.
  destruct (wr_word b1 1 (magic_BAAD / 0x10000)) as (b2 & -> & Hz2 & H2); [unfold BLOCK_WORDS in *; lia|].
  exists b2, (- EINVAL). rewrite bind_Ret. split; [done|]. right. split; [done|]. split.
  - destruct (decide (Forall (fun j => word b (Z.of_nat j * BLOCK_WORDS + 255) = Some usn) (seq 0 (Z.to_nat n))))
      as [Hall|Hno%not_Forall_Exists].
    + exfalso. assert (false = true); [|done]. apply Hr. intros j Hj. unfold protected, BLOCK_WORDS in Hj.
      rewrite list.Forall_forall in Hall. pose proof (Z.div_mod (j - 255) 256 ltac:(done)) as Hdm.
      replace (256 - 1) with 255 in Hj by done. rewrite Z2Nat.id in Hj by lia.
      assert (0 <= (j - 255) / 256) by (apply Z.div_pos; lia).
      assert ((j - 255) / 256 < n) by (apply Z.div_lt_upper_bound; lia).
      specialize (Hall (Z.to_nat ((j - 255) / 256))). rewrite Z2Nat.id in Hall by done.
      rewrite <- Hall by (apply elem_of_seq; lia). f_equal. unfold BLOCK_WORDS. lia.
    + apply list.Exists_exists in Hno as (i & Hi & Hne). apply elem_of_seq in Hi.
      exists (Z.of_nat i * BLOCK_WORDS + 255). split; [|done]. unfold protected, BLOCK_WORDS.
      replace (Z.of_nat i * 256 + 255 - (256 - 1)) with (Z.of_nat i * 256) by lia.
      rewrite Z.mod_mul, Z2Nat.id by lia.
      destruct (Z.leb_spec (256 - 1) (Z.of_nat i * 256 + 255)); [|lia].
      destruct (Z.ltb_spec (Z.of_nat i * 256 + 255) (256 - 1 + n * 256)); [done|lia].
    + solve_decision.
  - split; [|intros j Hj; rewrite H2, H1; destruct (Z.eqb_spec j 1), (Z.eqb_spec j 0); lia || done].
    unfold get_magic. rewrite (proj2 (rd_word b2 0 (magic_BAAD mod 0x10000))); [|by rewrite H2, H1].
    rewrite bind_Ret, (proj2 (rd_word b2 1 (magic_BAAD / 0x10000))) by (by rewrite H2). done.
Qed.

Lemma mst_torn_write_detected_witness :
  exists b' r, post_read_mst_fixup demo_record 1024 = Ret (b', r) /\ r = - EINVAL.
Proof.
  destruct (mst_torn_write_detected demo_record 2 0x30 5 demo_record_ok eq_refl) as (b' & r & E & [[-> _]|[-> _]]).
  - vm_compute in E. discriminate.
  - exists b', (- EINVAL). split; [exact E|reflexivity].
Defined.

(** The size check counts the fixups but not the update sequence number: an
    array that ends two bytes behind the record passes it, and the last fixup is
    then read from outside the record. *)
Example mst_check_lets_array_overrun :
  post_read_mst_fixup ([0x4946; 0x454c; 510; 2] ++ repeat 7 252) 512 = Fault.
Proof. reflexivity. Qed.
