(* ===== verification/Unistr.v ===== *)
(** * Unicode names

    Models [src/ntfs/unistr.c].  A string of [ntfschar]s is the list of the
    values of its characters; the lengths are separate arguments, as in C. *)

From Stdlib Require Import ZArith Lia Bool.
From stdpp Require Import base list numbers option.
From S2P Require Import Prelude.

Definition NTFS_MAX_NAME_LEN : Z := 255.

Definition legal_ansi_char_array : list Z := [
  0x00; 0x10; 0x10; 0x10; 0x10; 0x10; 0x10; 0x10;
  0x10; 0x10; 0x10; 0x10; 0x10; 0x10; 0x10; 0x10;
  0x10; 0x10; 0x10; 0x10; 0x10; 0x10; 0x10; 0x10;
  0x10; 0x10; 0x10; 0x10; 0x10; 0x10; 0x10; 0x10;
  0x17; 0x07; 0x18; 0x17; 0x17; 0x17; 0x17; 0x17;
  0x17; 0x17; 0x18; 0x16; 0x16; 0x17; 0x07; 0x00;
  0x17; 0x17; 0x17; 0x17; 0x17; 0x17; 0x17; 0x17;
  0x17; 0x17; 0x04; 0x16; 0x18; 0x16; 0x18; 0x18].

Inductive IGNORE_CASE_BOOL := CASE_SENSITIVE | IGNORE_CASE.

(** [if (c < upcase_len) c = le16_to_cpu(upcase[c]);] *)
Definition upcase_char (upcase : list Z) (upcase_len c : Z) : outcome Z :=
  if c <? upcase_len then rd upcase c else Ret c.

(** [c < 64 && legal_ansi_char_array[c] & 8] *)
Definition illegal_char (c : Z) : outcome bool :=
  if c <? 64 then x ← rd legal_ansi_char_array c; Ret (negb (Z.land x 8 =? 0)) else Ret false.

(** ** Comparing *)

(** The loop of [ntfs_collate_names]: [inl] is a [return]. *)
Fixpoint collate_loop (n : nat) (name1 name2 : list Z) (i err_val : Z) (ic : IGNORE_CASE_BOOL)
    (upcase : list Z) (upcase_len : Z) : outcome (Z + unit) :=
  match n with
  | O => Ret (inr tt)
  | S n =>
      c1 ← rd name1 i;
      c2 ← rd name2 i;
      '(c1, c2) ← (match ic with
                   | IGNORE_CASE =>
                       c1 ← upcase_char upcase upcase_len c1;
                       c2 ← upcase_char upcase upcase_len c2; Ret (c1, c2)
                   | CASE_SENSITIVE => Ret (c1, c2)
                   end);
      bad ← illegal_char c1;
      if (bad : bool) then Ret (inl err_val)
      else if c1 <? c2 then Ret (inl (-1))
      else if c1 >? c2 then Ret (inl 1)
      else collate_loop n name1 name2 (i + 1) err_val ic upcase upcase_len
  end.

Definition ntfs_collate_names (name1 : list Z) (name1_len : Z) (name2 : list Z) (name2_len : Z)
    (err_val : Z) (ic : IGNORE_CASE_BOOL) (upcase : list Z) (upcase_len : Z) : outcome Z :=
  let min_len := if name1_len >? name2_len then name2_len else name1_len in
  r ← collate_loop (Z.to_nat min_len) name1 name2 0 err_val ic upcase upcase_len;
  match r with
  | inl v => Ret v
  | inr _ =>
      if name1_len <? name2_len then Ret (-1)
      else if name1_len =? name2_len then Ret 0
      else
        c1 ← rd name1 min_len;
        bad ← illegal_char c1;
        Ret (if (bad : bool) then err_val else 1)
  end.

Fixpoint ucsncmp_loop (n : nat) (s1 s2 : list Z) (i : Z) : outcome Z :=
  match n with
  | O => Ret 0
  | S n =>
      c1 ← rd s1 i;
      c2 ← rd s2 i;
      if c1 <? c2 then Ret (-1) else if c1 >? c2 then Ret 1
      else if c1 =? 0 then Ret 0 else ucsncmp_loop n s1 s2 (i + 1)
  end.

Definition ntfs_ucsncmp (s1 s2 : list Z) (n : Z) : outcome Z := ucsncmp_loop (Z.to_nat n) s1 s2 0.

Fixpoint ucsncasecmp_loop (n : nat) (s1 s2 : list Z) (i : Z) (upcase : list Z) (upcase_size : Z)
    : outcome Z :=
  match n with
  | O => Ret 0
  | S n =>
      c1 ← rd s1 i;
      c1 ← upcase_char upcase upcase_size c1;
      c2 ← rd s2 i;
      c2 ← upcase_char upcase upcase_size c2;
      if c1 <? c2 then Ret (-1) else if c1 >? c2 then Ret 1
      else if c1 =? 0 then Ret 0 else ucsncasecmp_loop n s1 s2 (i + 1) upcase upcase_size
  end.

Definition ntfs_ucsncasecmp (s1 s2 : list Z) (n : Z) (upcase : list Z) (upcase_size : Z) : outcome Z :=
  ucsncasecmp_loop (Z.to_nat n) s1 s2 0 upcase upcase_size.

Definition ntfs_are_names_equal (s1 : list Z) (s1_len : Z) (s2 : list Z) (s2_len : Z)
    (ic : IGNORE_CASE_BOOL) (upcase : list Z) (upcase_size : Z) : outcome bool :=
  if negb (s1_len =? s2_len) then Ret false
  else match ic with
  | CASE_SENSITIVE => r ← ntfs_ucsncmp s1 s2 s1_len; Ret (r =? 0)
  | IGNORE_CASE => r ← ntfs_ucsncasecmp s1 s2 s1_len upcase upcase_size; Ret (r =? 0)
  end.

(** ** Upcasing *)

Fixpoint upcase_name_loop (n : nat) (name : list Z) (i : Z) (upcase : list Z) (upcase_len : Z)
    : outcome (list Z) :=
  match n with
  | O => Ret name
  | S n =>
      u ← rd name i;
      name ← (if u <? upcase_len then x ← rd upcase u; wr name i x else Ret name);
      upcase_name_loop n name (i + 1) upcase upcase_len
  end.

Definition ntfs_upcase_name (name : list Z) (name_len : Z) (upcase : list Z) (upcase_len : Z)
    : outcome (list Z) :=
  upcase_name_loop (Z.to_nat name_len) name 0 upcase upcase_len.

(** [FILE_NAME_ATTR]: the members these functions use. *)
Record FILE_NAME_ATTR := mk_fn { file_name_length : Z; file_name : list Z }.

Definition ntfs_file_upcase_value (file_name_attr : FILE_NAME_ATTR) (upcase : list Z) (upcase_len : Z)
    : outcome FILE_NAME_ATTR :=
  n ← ntfs_upcase_name (file_name file_name_attr) (file_name_length file_name_attr) upcase upcase_len;
  Ret (mk_fn (file_name_length file_name_attr) n).

Definition ntfs_file_compare_values (file_name_attr1 file_name_attr2 : FILE_NAME_ATTR) (err_val : Z)
    (ic : IGNORE_CASE_BOOL) (upcase : list Z) (upcase_len : Z) : outcome Z :=
  ntfs_collate_names (file_name file_name_attr1) (file_name_length file_name_attr1)
    (file_name file_name_attr2) (file_name_length file_name_attr2) err_val ic upcase upcase_len.

(** ** Conversion from and to the NLS character set

    The NLS table and the kernel allocators are not part of the driver. *)

Definition NLS_MAX_CHARSET_SIZE : Z := 6.

(** @char2uni: bytes and their number -> the result and the character.
    @uni2char: character and space left -> the result and the bytes written. *)
Class nls_table := {
  char2uni : list Z -> Z -> Z * Z;
  uni2char : Z -> Z -> Z * list Z;
}.

(** [kmem_cache_alloc(ntfs_name_cache)] gives NULL or NTFS_MAX_NAME_LEN + 1
    characters; [kmalloc(n)] gives NULL or [n] bytes; with arbitrary contents. *)
Class NameAlloc := {
  name_cache_alloc : option (list Z);
  kmalloc : Z -> option (list Z);
  name_cache_len : forall b, name_cache_alloc = Some b -> zlen b = NTFS_MAX_NAME_LEN + 1;
  kmalloc_len : forall n b, 0 <= n -> kmalloc n = Some b -> zlen b = n;
}.

Section Nls.
Context {nls : nls_table} {NA : NameAlloc}.

(** The loop of [ntfs_nlstoucs]: the buffer and [o], or [goto name_err].  Every
    round but the last stores a character, and there are at most
    NTFS_MAX_NAME_LEN + 1 rounds. *)
Fixpoint nlstoucs_loop (fuel : nat) (ins : list Z) (ins_len i o : Z) (ucs : list Z)
    : outcome (list Z * Z) :=
  match fuel with
  | O => Diverge
  | S fuel =>
      if i <? ins_len then
        let '(wc_len, wc) := char2uni (drop (Z.to_nat i) ins) (ins_len - i) in
        if (wc_len >=? 0) && (o <? NTFS_MAX_NAME_LEN) then
          if negb (wc =? 0) then
            ucs ← wr ucs o (u16 wc);
            nlstoucs_loop fuel ins ins_len (i + wc_len) (o + 1) ucs
          else Ret (ucs, o)
        else if wc_len <? 0 then Errno EILSEQ else Errno ENAMETOOLONG
      else Ret (ucs, o)
  end.

Definition NLSTOUCS_FUEL : nat := 257.

(** The output buffer and the number of characters. *)
Definition ntfs_nlstoucs (ins : option (list Z)) (ins_len : Z) : outcome (list Z * Z) :=
  match ins with
  | None => Errno EINVAL
  | Some ins =>
      match name_cache_alloc with
      | None => Errno ENOMEM
      | Some ucs =>
          '(ucs, o) ← nlstoucs_loop NLSTOUCS_FUEL ins ins_len 0 0 ucs;
          ucs ← wr ucs o 0;
          Ret (ucs, o)
      end
  end.

(** The loop of [ntfs_ucstonls], with [own] for [ns != *outs]; [fuel] bounds the
    number of characters and of reallocations. *)
Fixpoint ucstonls_loop (fuel : nat) (ins : list Z) (ins_len i o : Z) (ns : list Z) (ns_len : Z) (own : bool)
    : outcome (list Z * Z) :=
  match fuel with
  | O => Diverge
  | S fuel =>
      if i <? ins_len then
        c ← rd ins i;
        let '(wc, out) := uni2char c (ns_len - o) in
        ns ← blit ns o out 0 (zlen out);
        if wc >? 0 then ucstonls_loop fuel ins ins_len (i + 1) (o + wc) ns ns_len own
        else if wc =? 0 then Ret (ns, o)
        else if (wc =? - ENAMETOOLONG) && own then
          let size := Z.land (ns_len + 64) (Z.lnot 63) in
          match kmalloc size with
          | Some tc =>
              tc ← blit tc 0 ns 0 ns_len;
              ucstonls_loop fuel ins ins_len i o tc (size - 1) own
          | None => Errno ENAMETOOLONG
          end
        else Errno (if wc =? - ENAMETOOLONG then ENAMETOOLONG else EILSEQ)
      else Ret (ns, o)
  end.

(** @outs is the caller's buffer of @outs_len bytes, or [None] for NULL. *)
Definition ntfs_ucstonls (fuel : nat) (ins : option (list Z)) (ins_len : Z) (outs : option (list Z)) (outs_len : Z)
    : outcome (list Z * Z) :=
  match ins with
  | None => Errno EINVAL
  | Some ins =>
      match outs with
      | Some ns =>
          if outs_len =? 0 then Errno ENAMETOOLONG
          else
            '(ns, o) ← ucstonls_loop fuel ins ins_len 0 0 ns outs_len false;
            ns ← wr ns o 0; Ret (ns, o)
      | None =>
          let ns_len := ins_len * NLS_MAX_CHARSET_SIZE in
          match kmalloc (ns_len + 1) with
          | None => Errno ENOMEM
          | Some ns =>
              '(ns, o) ← ucstonls_loop fuel ins ins_len 0 0 ns ns_len true;
              ns ← wr ns o 0; Ret (ns, o)
          end
      end
  end.
End Nls.
