(* ===== verification/UnistrTheorems.v ===== *)
(** * Properties of the Unicode name functions

    Names are compared as the lexicographic order on their (upcased) characters,
    a total order. *)

From Stdlib Require Import ZArith Lia Bool.
From stdpp Require Import base list numbers option.
From S2P Require Import Prelude Unistr.

(** ** The order *)

Fixpoint lex (a b : list Z) : comparison :=
  match a, b with
  | [], [] => Eq
  | [], _ :: _ => Lt
  | _ :: _, [] => Gt
  | x :: a, y :: b => match x ?= y with Eq => lex a b | c => c end
  end.

Definition sgn (c : comparison) : Z := match c with Lt => -1 | Eq => 0 | Gt => 1 end.

Lemma lex_eq a b : lex a b = Eq <-> a = b.
Proof.
  revert b. induction a as [|x a IH]; intros [|y b]; cbn; try done.
  destruct (Z.compare_spec x y) as [->| |]; [|naive_solver lia..]. rewrite IH. naive_solver.
Qed.

Lemma lex_opp a b : lex b a = CompOpp (lex a b).
Proof.
  revert b. induction a as [|x a IH]; intros [|y b]; cbn; try done.
  rewrite (Z.compare_antisym y x). destruct (y ?= x); cbn; [apply IH|done..].
Qed.

Lemma lex_trans a b c : lex a b = Lt -> lex b c = Lt -> lex a c = Lt.
Proof.
  revert b c. induction a as [|x a IH]; intros [|y b] [|z c]; cbn; try done.
  destruct (Z.compare_spec x y), (Z.compare_spec y z), (Z.compare_spec x z); try (done || lia). apply IH.
Qed.

Lemma lex_app a b x y : length a = length b -> lex (a ++ x) (b ++ y) = match lex a b with Eq => lex x y | c => c end.
Proof.
  revert b. induction a as [|u a IH]; intros [|v b] Hl; try done. cbn in *.
  destruct (u ?= v); [|done..]. apply IH. lia.
Qed.

Lemma sgn_inj c d : sgn c = sgn d -> c = d.
Proof. by destruct c, d. Qed.

(** ** Characters *)

Definition char_ok (c : Z) : Prop := 0 <= c < 0x10000.

(** The character a comparison works on. *)
Definition fold_char (ic : IGNORE_CASE_BOOL) (upcase : list Z) (upcase_len c : Z) : Z :=
  match ic with
  | CASE_SENSITIVE => c
  | IGNORE_CASE => if c <? upcase_len then default c (upcase !! Z.to_nat c) else c
  end.

(** An upcase table of @upcase_len characters. *)
Definition table_ok (upcase : list Z) (upcase_len : Z) : Prop :=
  upcase_len <= zlen upcase /\ Forall char_ok upcase.

Definition bad_char (c : Z) : bool :=
  (c <? 64) && negb (Z.land (default 0 (legal_ansi_char_array !! Z.to_nat c)) 8 =? 0).

Lemma illegal_char_spec c : 0 <= c -> illegal_char c = Ret (bad_char c).
Proof.
  intros Hc. unfold illegal_char, bad_char. destruct (Z.ltb_spec c 64); [|done]. cbn [andb].
  destruct (rd_in_range legal_ansi_char_array c) as [x Hx]; [change (zlen legal_ansi_char_array) with 64; lia|].
  rewrite Hx, bind_Ret. apply rd_spec in Hx as [_ ->]. done.
Qed.

(** The documented invalid characters are exactly the ones with bit 3 set. *)
Lemma bad_char_set c : 0 <= c -> bad_char c = true <-> c ∈ [0x22; 0x2a; 0x3c; 0x3e; 0x3f].
Proof.
  intros Hc. unfold bad_char. rewrite !elem_of_cons, elem_of_nil. split.
  - intros [Hlt%Z.ltb_lt Hb]%andb_true_iff.
    assert (Hall : forallb (fun n => negb (negb (Z.land (default 0 (legal_ansi_char_array !! n)) 8 =? 0))
      || bool_decide (Z.of_nat n ∈ [0x22; 0x2a; 0x3c; 0x3e; 0x3f])) (seq 0 64) = true) by reflexivity.
    rewrite forallb_forall in Hall. specialize (Hall (Z.to_nat c)).
    rewrite Hb in Hall. cbn [negb orb] in Hall. rewrite bool_decide_eq_true, Z2Nat.id in Hall by done.
    rewrite !elem_of_cons, elem_of_nil in Hall. apply Hall, in_seq. lia.
  - intros Hin. destruct_or! Hin; by subst.
Qed.

Section Fold.
Context (ic : IGNORE_CASE_BOOL) (upcase : list Z) (upcase_len : Z).
Hypothesis Htab : table_ok upcase upcase_len.
Let f := fold_char ic upcase upcase_len.

Lemma upcase_char_spec c : 0 <= c -> upcase_char upcase upcase_len c = Ret (fold_char IGNORE_CASE upcase upcase_len c).
Proof.
  intros Hc. destruct Htab as [Hl _]. unfold upcase_char, fold_char. destruct (Z.ltb_spec c upcase_len); [|done].
  destruct (rd_in_range upcase c) as [x Hx]; [lia|]. rewrite Hx. by apply rd_spec in Hx as [_ ->].
Qed.

Lemma fold_char_ok c : char_ok c -> char_ok (f c).
Proof.
  intros Hc. unfold f, fold_char. destruct ic; [done|]. destruct (c <? upcase_len); [|done].
  destruct (upcase !! Z.to_nat c) eqn:E; [|done]. cbn. destruct Htab as [_ Ht].
  by eapply (Forall_lookup_1 char_ok upcase).
Qed.

Lemma fold_pair c1 c2 : 0 <= c1 -> 0 <= c2 ->
  (match ic with
   | IGNORE_CASE =>
       c1 ← upcase_char upcase upcase_len c1; c2 ← upcase_char upcase upcase_len c2; Ret (c1, c2)
   | CASE_SENSITIVE => Ret (c1, c2)
   end) = Ret (f c1, f c2).
Proof. intros. unfold f. destruct ic; [done|]. by rewrite !upcase_char_spec. Qed.

(** ** The comparison loops *)

(** The loop over the common length, on names without an invalid character. *)
Lemma collate_loop_spec err a : forall b p q r s i,
  Forall char_ok a -> Forall char_ok b -> Forall (fun c => bad_char (f c) = false) a ->
  length a = length b -> i = zlen p -> i = zlen q ->
  collate_loop (length a) (p ++ a ++ r) (q ++ b ++ s) i err ic upcase upcase_len =
    Ret (match lex (map f a) (map f b) with Eq => inr tt | c => inl (sgn c) end).
Proof.
  induction a as [|x a IH]; intros [|y b] p q r s i Ha Hb Hbad Hl Hp Hq; try done.
  inversion Ha; inversion Hb; inversion Hbad; subst. cbn [length collate_loop map lex].
  rewrite (rd_at (p ++ (x :: a) ++ r) p (a ++ r) x (zlen p)), bind_Ret by done.
  rewrite (rd_at _ q (b ++ s) y (zlen p)), bind_Ret by done.
  rewrite fold_pair, bind_Ret by (unfold char_ok in *; lia).
  pose proof (fold_char_ok x) as Hfx. rewrite illegal_char_spec, bind_Ret by (apply Hfx; done).
  rewrite H9. destruct (Z.compare_spec (f x) (f y)) as [E|E|E].
  - rewrite E, Z.ltb_irrefl, Z.gtb_ltb, Z.ltb_irrefl.
    replace (p ++ (x :: a) ++ r) with ((p ++ [x]) ++ a ++ r) by (by rewrite <- app_assoc).
    replace (q ++ (y :: b) ++ s) with ((q ++ [y]) ++ b ++ s) by (by rewrite <- app_assoc).
    apply IH; try done; [cbn in Hl; lia|zlen_lia..].
  - by destruct (Z.ltb_spec (f x) (f y)); [|lia].
  - destruct (Z.ltb_spec (f x) (f y)); [lia|]. by destruct (Z.gtb_spec (f x) (f y)); [|lia].
Qed.

(** An invalid character in @name1 after a common prefix. *)
Lemma collate_loop_bad err a : forall b c d p q r s i n,
  Forall char_ok a -> Forall char_ok b -> char_ok c -> char_ok d ->
  Forall (fun c => bad_char (f c) = false) a -> bad_char (f c) = true -> map f a = map f b ->
  i = zlen p -> i = zlen q -> (length a < n)%nat ->
  collate_loop n (p ++ a ++ c :: r) (q ++ b ++ d :: s) i err ic upcase upcase_len = Ret (inl err).
Proof.
  induction a as [|x a IH]; intros [|y b] c d p q r s i n Ha Hb Hc Hd Hbad Hbc Hm Hp Hq Hn; try done;
    (destruct n as [|n]; [cbn in Hn; lia|]); cbn [collate_loop].
  - cbn [app]. rewrite (rd_at (p ++ c :: r) p r c i), bind_Ret by done. rewrite (rd_at _ q s d i), bind_Ret by done.
    rewrite fold_pair, bind_Ret by (unfold char_ok in *; lia).
    pose proof (fold_char_ok c Hc) as Hfc. rewrite illegal_char_spec, bind_Ret by apply Hfc. by rewrite Hbc.
  - inversion Ha; inversion Hb; inversion Hbad; subst. injection Hm as Exy Hm.
    rewrite (rd_at (p ++ (x :: a) ++ c :: r) p (a ++ c :: r) x (zlen p)), bind_Ret by done.
    rewrite (rd_at _ q (b ++ d :: s) y (zlen p)), bind_Ret by done.
    rewrite fold_pair, bind_Ret by (unfold char_ok in *; lia).
    pose proof (fold_char_ok x) as Hfx. rewrite illegal_char_spec, bind_Ret by (apply Hfx; done).
    rewrite H9, Exy, Z.ltb_irrefl, Z.gtb_ltb, Z.ltb_irrefl.
    replace (p ++ (x :: a) ++ c :: r) with ((p ++ [x]) ++ a ++ c :: r) by (by rewrite <- app_assoc).
    replace (q ++ (y :: b) ++ d :: s) with ((q ++ [y]) ++ b ++ d :: s) by (by rewrite <- app_assoc).
    apply IH; try done; [zlen_lia..|cbn in Hn; lia].
Qed.

(** [ntfs_collate_names] on names without an invalid character. *)
Lemma collate_names_spec err s1 s2 r1 r2 :
  Forall char_ok s1 -> Forall char_ok s2 ->
  Forall (fun c => bad_char (f c) = false) s1 -> Forall (fun c => bad_char c = false) s1 ->
  ntfs_collate_names (s1 ++ r1) (zlen s1) (s2 ++ r2) (zlen s2) err ic upcase upcase_len =
    Ret (sgn (lex (map f s1) (map f s2))).
Proof.
  intros H1 H2 Hb Hbr. unfold ntfs_collate_names.
  set (m := if zlen s1 >? zlen s2 then zlen s2 else zlen s1).
  assert (Hm : m = Z.min (zlen s1) (zlen s2)) by (unfold m; destruct (Z.gtb_spec (zlen s1) (zlen s2)); lia).
  pose proof (zlen_nonneg s1). pose proof (zlen_nonneg s2).
  set (n := Z.to_nat m). assert (Hn : (n <= length s1)%nat /\ (n <= length s2)%nat) by (unfold n, zlen in *; lia).
  pose proof (collate_loop_spec err (take n s1) (take n s2) [] [] (drop n s1 ++ r1) (drop n s2 ++ r2) 0
    ltac:(by apply Forall_take) ltac:(by apply Forall_take) ltac:(by apply Forall_take)
    ltac:(rewrite !length_take; lia) eq_refl eq_refl) as Hloop.
  rewrite length_take_le in Hloop by lia. cbn [app] in Hloop. rewrite !app_assoc, !take_drop in Hloop.
  rewrite Hloop, bind_Ret. clear Hloop.
  replace (lex (map f s1) (map f s2)) with (lex (map f (take n s1) ++ map f (drop n s1)) (map f (take n s2) ++ map f (drop n s2)))
    by (by rewrite <- !map_app, !take_drop).
  rewrite lex_app by (rewrite !length_map, !length_take; lia).
  destruct (lex (map f (take n s1)) (map f (take n s2))); [|done..].
  destruct (Z.ltb_spec (zlen s1) (zlen s2)) as [Hlt|Hge].
  { rewrite (drop_ge s1) by (unfold n, zlen in *; lia).
    destruct (drop n s2) eqn:E; [|done]. apply (f_equal length) in E. rewrite length_drop in E. unfold n, zlen in *. cbn in E. lia. }
  destruct (Z.eqb_spec (zlen s1) (zlen s2)) as [He|Hne].
  { rewrite (drop_ge s1), (drop_ge s2) by (unfold n, zlen in *; lia). done. }
  rewrite (drop_ge s2) by (unfold n, zlen in *; lia).
  destruct (drop n s1) as [|x l] eqn:E.
  { apply (f_equal length) in E. rewrite length_drop in E. unfold n, zlen in *. cbn in E. lia. }
  assert (Hx : bad_char x = false /\ char_ok x).
  { assert (x ∈ s1) by (rewrite <- (take_drop n s1), E; apply elem_of_app; right; apply elem_of_cons; by left).
    rewrite list.Forall_forall in Hbr, H1. auto. }
  rewrite (rd_at _ (take n s1) (l ++ r1) x m);
    [|by rewrite <- (take_drop n s1) at 1; rewrite E, <- app_assoc|unfold zlen in *; rewrite length_take; unfold n; lia].
  rewrite bind_Ret, illegal_char_spec, bind_Ret by apply Hx. destruct Hx as [-> _]. done.
Qed.

(** The characters of a name up to a NUL. *)
Lemma ucsncmp_loop_spec a : forall b p q r s i,
  length a = length b -> Forall (fun c => c <> 0) a -> i = zlen p -> i = zlen q ->
  ucsncmp_loop (length a) (p ++ a ++ r) (q ++ b ++ s) i = Ret (sgn (lex a b)).
Proof.
  induction a as [|x a IH]; intros [|y b] p q r s i Hl Hz Hp Hq; try done.
  inversion Hz; subst. cbn [length ucsncmp_loop lex].
  rewrite (rd_at (p ++ (x :: a) ++ r) p (a ++ r) x (zlen p)), bind_Ret by done.
  rewrite (rd_at _ q (b ++ s) y (zlen p)), bind_Ret by done.
  destruct (Z.compare_spec x y) as [E|E|E].
  - rewrite E, Z.ltb_irrefl, Z.gtb_ltb, Z.ltb_irrefl. subst y. destruct (Z.eqb_spec x 0); [done|].
    replace (p ++ (x :: a) ++ r) with ((p ++ [x]) ++ a ++ r) by (by rewrite <- app_assoc).
    replace (q ++ (x :: b) ++ s) with ((q ++ [x]) ++ b ++ s) by (by rewrite <- app_assoc).
    apply IH; try done; [cbn in Hl; lia|zlen_lia..].
  - by destruct (Z.ltb_spec x y); [|lia].
  - destruct (Z.ltb_spec x y); [lia|]. by destruct (Z.gtb_spec x y); [|lia].
Qed.

Lemma ucsncasecmp_loop_spec a : forall b p q r s i,
  let g := fold_char IGNORE_CASE upcase upcase_len in
  Forall char_ok a -> Forall char_ok b ->
  length a = length b -> Forall (fun c => g c <> 0) a -> i = zlen p -> i = zlen q ->
  ucsncasecmp_loop (length a) (p ++ a ++ r) (q ++ b ++ s) i upcase upcase_len = Ret (sgn (lex (map g a) (map g b))).
Proof.
  induction a as [|x a IH]; intros [|y b] p q r s i g Ha Hb Hl Hz Hp Hq; try done.
  inversion Hz; inversion Ha; inversion Hb; subst. cbn [length ucsncasecmp_loop lex map].
  rewrite (rd_at (p ++ (x :: a) ++ r) p (a ++ r) x (zlen p)), bind_Ret by done.
  rewrite upcase_char_spec, bind_Ret by (unfold char_ok in *; lia). fold g.
  rewrite (rd_at _ q (b ++ s) y (zlen p)), bind_Ret by done.
  rewrite upcase_char_spec, bind_Ret by (unfold char_ok in *; lia). fold g.
  destruct (Z.compare_spec (g x) (g y)) as [E|E|E].
  - rewrite E, Z.ltb_irrefl, Z.gtb_ltb, Z.ltb_irrefl. rewrite <- E. destruct (Z.eqb_spec (g x) 0); [done|].
    replace (p ++ (x :: a) ++ r) with ((p ++ [x]) ++ a ++ r) by (by rewrite <- app_assoc).
    replace (q ++ (y :: b) ++ s) with ((q ++ [y]) ++ b ++ s) by (by rewrite <- app_assoc).
    apply IH; try done; [cbn in Hl; lia|zlen_lia..].
  - by destruct (Z.ltb_spec (g x) (g y)); [|lia].
  - destruct (Z.ltb_spec (g x) (g y)); [lia|]. by destruct (Z.gtb_spec (g x) (g y)); [|lia].
Qed.
End Fold.

(** ** Claims *)

(** A name: its characters, none of them invalid. *)
Definition name_ok (ic : IGNORE_CASE_BOOL) (upcase : list Z) (upcase_len : Z) (s : list Z) : Prop :=
  Forall char_ok s /\ Forall (fun c => bad_char c = false) s /\
  Forall (fun c => bad_char (fold_char ic upcase upcase_len c) = false) s.

(** On names without invalid characters [ntfs_collate_names] is the
    lexicographic order of the names, upcased when case is ignored: a total
    order in which exactly the names that are equal up to case compare as 0. *)
Theorem collate_names_total_order ic upcase upcase_len err s1 s2 s3 :
  table_ok upcase upcase_len -> name_ok ic upcase upcase_len s1 -> name_ok ic upcase upcase_len s2 ->
  name_ok ic upcase upcase_len s3 ->
  let f := map (fold_char ic upcase upcase_len) in
  let cmp a b := ntfs_collate_names a (zlen a) b (zlen b) err ic upcase upcase_len in
  cmp s1 s2 = Ret (sgn (lex (f s1) (f s2))) /\
  (cmp s1 s2 = Ret 0 <-> f s1 = f s2) /\
  (forall r, cmp s1 s2 = Ret r -> cmp s2 s1 = Ret (- r)) /\
  (cmp s1 s2 = Ret (-1) -> cmp s2 s3 = Ret (-1) -> cmp s1 s3 = Ret (-1)).
Proof.
  intros Ht (H1 & B1 & F1) (H2 & B2 & F2) (H3 & B3 & F3) f cmp.
  assert (E : forall a b, name_ok ic upcase upcase_len a -> Forall char_ok b -> cmp a b = Ret (sgn (lex (f a) (f b)))).
  { intros a b (Ha & Ba & Fa) Hb. pose proof (collate_names_spec ic upcase upcase_len Ht err a b [] []) as Hs.
    rewrite !app_nil_r in Hs. by apply Hs. }
  rewrite (E s1 s2), (E s2 s1), (E s2 s3), (E s1 s3) by (done || split_and!; done).
  split; [done|]. split; [|split].
  - rewrite <- lex_eq. split; [intros [= H]; by apply sgn_inj|by intros ->].
  - intros r [= <-]. rewrite (lex_opp (f s1)). by destruct (lex (f s1) (f s2)).
  - intros [= A] [= B]. rewrite (lex_trans _ (f s2) _); [done|..]; by apply sgn_inj.
Qed.

Lemma collate_names_total_order_witness :
  ntfs_collate_names [0x41; 0x42] 2 [0x41; 0x43] 2 (-2) CASE_SENSITIVE [] 0 = Ret (-1).
Proof.
  apply (collate_names_total_order CASE_SENSITIVE [] 0 (-2) [0x41; 0x42] [0x41; 0x43] [0x44]);
    unfold table_ok, name_ok, char_ok; split_and?; repeat constructor; reflexivity || lia.
Defined.

(** When @name1 has an invalid character after a common prefix of the two
    names, [ntfs_collate_names] returns @err_val; the invalid characters are
    exactly the double quote, the star, the angle brackets and the question mark. *)
Theorem collate_names_invalid ic upcase upcase_len err a b c d r s :
  table_ok upcase upcase_len -> name_ok ic upcase upcase_len a -> Forall char_ok b -> char_ok c -> char_ok d ->
  map (fold_char ic upcase upcase_len) a = map (fold_char ic upcase upcase_len) b ->
  fold_char ic upcase upcase_len c ∈ [0x22; 0x2a; 0x3c; 0x3e; 0x3f] ->
  ntfs_collate_names (a ++ c :: r) (zlen (a ++ c :: r)) (b ++ d :: s) (zlen (b ++ d :: s)) err ic upcase upcase_len
    = Ret err.
Proof.
  intros Ht (Ha & Ba & Fa) Hb Hc Hd Hm Hbad.
  assert (Hbc : bad_char (fold_char ic upcase upcase_len c) = true)
    by (apply bad_char_set; [by apply fold_char_ok|done]).
  assert (Hl : length a = length b) by (apply (f_equal length) in Hm; by rewrite !length_map in Hm).
  unfold ntfs_collate_names. set (m := if _ >? _ then _ else _).
  assert (length a < Z.to_nat m)%nat.
  { unfold m. destruct (_ >? _); rewrite zlen_app, zlen_cons; unfold zlen; lia. }
  pose proof (collate_loop_bad ic upcase upcase_len Ht err a b c d [] [] r s 0 (Z.to_nat m)) as E.
  cbn [app] in E. by rewrite E.
Qed.

Lemma collate_names_invalid_witness :
  ntfs_collate_names [0x61; 0x2a; 0x62] 3 [0x61; 0x62] 2 (-2) CASE_SENSITIVE [] 0 = Ret (-2).
Proof.
  apply (collate_names_invalid CASE_SENSITIVE [] 0 (-2) [0x61] [0x61] 0x2a 0x62 [0x62] []);
    unfold table_ok, name_ok, char_ok; split_and?; repeat constructor; reflexivity || lia.
Defined.

Lemma names_equal_spec ic upcase upcase_len s1 s2 r1 r2 :
  table_ok upcase upcase_len -> Forall char_ok s1 -> Forall char_ok s2 ->
  Forall (fun c => fold_char ic upcase upcase_len c <> 0) s1 ->
  ntfs_are_names_equal (s1 ++ r1) (zlen s1) (s2 ++ r2) (zlen s2) ic upcase upcase_len =
    Ret (bool_decide (map (fold_char ic upcase upcase_len) s1 = map (fold_char ic upcase upcase_len) s2)).
Proof.
  intros Ht H1 H2 Hz. unfold ntfs_are_names_equal.
  destruct (Z.eqb_spec (zlen s1) (zlen s2)) as [E|E]; cbn [negb].
  2:{ rewrite bool_decide_false; [done|]. intros Hm%(f_equal length). rewrite !length_map in Hm.
      unfold zlen in E. lia. }
  assert (Hl : length s1 = length s2) by (unfold zlen in E; lia).
  assert (Hn : Z.to_nat (zlen s1) = length s1) by (unfold zlen; lia).
  assert (Hfin : forall a b, (sgn (lex a b) =? 0) = bool_decide (a = b)).
  { intros a b. rewrite <- (bool_decide_ext _ _ (lex_eq a b)). by destruct (lex a b). }
  destruct ic.
  - unfold ntfs_ucsncmp. rewrite Hn. unfold fold_char in *. rewrite !map_id.
    pose proof (ucsncmp_loop_spec s1 s2 [] [] r1 r2 0) as Hs. cbn [app] in Hs. rewrite Hs, bind_Ret by done.
    by rewrite Hfin.
  - unfold ntfs_ucsncasecmp. rewrite Hn.
    pose proof (ucsncasecmp_loop_spec upcase upcase_len Ht s1 s2 [] [] r1 r2 0) as Hs. cbn [app] in Hs.
    rewrite Hs, bind_Ret by done. by rewrite Hfin.
Qed.

(** [ntfs_are_names_equal] decides equality of the names, up to case when
    case is ignored, for names without NUL characters. *)
Theorem are_names_equal_correct ic upcase upcase_len s1 s2 r1 r2 :
  table_ok upcase upcase_len -> Forall char_ok s1 -> Forall char_ok s2 ->
  Forall (fun c => fold_char ic upcase upcase_len c <> 0) s1 ->
  ntfs_are_names_equal (s1 ++ r1) (zlen s1) (s2 ++ r2) (zlen s2) ic upcase upcase_len =
    Ret (bool_decide (map (fold_char ic upcase upcase_len) s1 = map (fold_char ic upcase upcase_len) s2)).
Proof. apply names_equal_spec. Qed.

Lemma are_names_equal_correct_witness :
  ntfs_are_names_equal ([0; 1] ++ []) 2 ([1; 0] ++ []) 2 IGNORE_CASE [7; 7] 2 = Ret true.
Proof.
  apply (are_names_equal_correct IGNORE_CASE [7; 7] 2 [0; 1] [1; 0] [] []);
    unfold table_ok, char_ok; split_and?; repeat constructor; try (vm_compute; discriminate); lia.
Defined.

Lemma upcase_name_loop_spec upcase upcase_len s : forall p r i,
  table_ok upcase upcase_len -> Forall char_ok s -> i = zlen p ->
  upcase_name_loop (length s) (p ++ s ++ r) i upcase upcase_len =
    Ret (p ++ map (fold_char IGNORE_CASE upcase upcase_len) s ++ r).
Proof.
  induction s as [|x s IH]; intros p r i Ht Hs Hi; [done|]. inversion Hs; subst. cbn [length upcase_name_loop map].
  rewrite (rd_at (p ++ (x :: s) ++ r) p (s ++ r) x (zlen p)), bind_Ret by done.
  pose proof (upcase_char_spec upcase upcase_len Ht x ltac:(unfold char_ok in *; lia)) as Hu.
  unfold upcase_char in Hu. set (y := fold_char IGNORE_CASE upcase upcase_len x) in *.
  assert (E : (if x <? upcase_len then z ← rd upcase x; wr (p ++ (x :: s) ++ r) (zlen p) z
      else Ret (p ++ (x :: s) ++ r)) = Ret ((p ++ [y]) ++ s ++ r)).
  { destruct (x <? upcase_len).
    - rewrite Hu, bind_Ret. cbn [app]. rewrite wr_mid by done. by rewrite <- app_assoc.
    - injection Hu as Hy. rewrite <- Hy. by rewrite <- app_assoc. }
  rewrite E, bind_Ret, IH by (done || zlen_lia). by rewrite <- app_assoc.
Qed.

(** [ntfs_upcase_name] replaces the first @name_len characters of the name
    by their upcased counterparts and nothing else; the result then compares
    equal to the name when case is ignored, if upcasing is idempotent. *)
Theorem upcase_name_correct upcase upcase_len s r :
  table_ok upcase upcase_len -> Forall char_ok s ->
  let f := fold_char IGNORE_CASE upcase upcase_len in
  ntfs_upcase_name (s ++ r) (zlen s) upcase upcase_len = Ret (map f s ++ r) /\
  ((forall c, f (f c) = f c) -> Forall (fun c => f c <> 0) s ->
   ntfs_are_names_equal (map f s ++ r) (zlen s) (s ++ r) (zlen s) IGNORE_CASE upcase upcase_len = Ret true).
Proof.
  intros Ht Hs f. split.
  - unfold ntfs_upcase_name. replace (Z.to_nat (zlen s)) with (length s) by (unfold zlen; lia).
    by apply (upcase_name_loop_spec upcase upcase_len s [] r 0).
  - intros Hidem Hz. unfold ntfs_are_names_equal. rewrite Z.eqb_refl. cbn [negb]. unfold ntfs_ucsncasecmp.
    replace (Z.to_nat (zlen s)) with (length (map f s)) by (rewrite length_map; unfold zlen; lia).
    pose proof (ucsncasecmp_loop_spec upcase upcase_len Ht (map f s) s [] [] r r 0) as E. cbn [app] in E.
    rewrite E, bind_Ret; try done.
    + fold f. rewrite map_map, (map_ext _ f Hidem). by rewrite (proj2 (lex_eq _ _) eq_refl).
    + apply Forall_map. eapply list.Forall_impl; [exact Hs|]. intros c Hc. by apply fold_char_ok.
    + by rewrite length_map.
    + apply Forall_map. eapply list.Forall_impl; [exact Hz|]. intros c Hc. fold f. by rewrite Hidem.
Qed.

Lemma upcase_name_correct_witness : ntfs_upcase_name ([1; 0] ++ [9]) 2 [5; 6] 2 = Ret [6; 5; 9].
Proof.
  apply (upcase_name_correct [5; 6] 2 [1; 0] [9]);
    unfold table_ok, char_ok; split_and?; repeat constructor; try (vm_compute; discriminate); lia.
Defined.
