(* ===== verification/UnistrNls.v ===== *)
(** * Conversion between the NLS character set and Unicode *)

From Stdlib Require Import ZArith Lia Bool.
From stdpp Require Import base list numbers option.
From S2P Require Import Prelude Unistr.

Section Nls.
Context {nls : nls_table} {NA : NameAlloc}.

(** [decodes s u]: the NLS table converts the bytes [s] to the characters [u]. *)
Inductive decodes : list Z -> list Z -> Prop :=
| decodes_nil : decodes [] []
| decodes_cons s k wc u :
    char2uni s (zlen s) = (k, wc) -> 1 <= k <= zlen s -> 0 < wc < 0x10000 ->
    decodes (drop (Z.to_nat k) s) u -> decodes s (wc :: u).

(** What is relied on of a table: a character has at most NLS_MAX_CHARSET_SIZE
    bytes, and @uni2char gives back the bytes @char2uni read, if they fit. *)
Definition nls_inverse : Prop := forall s k wc,
  char2uni s (zlen s) = (k, wc) -> 1 <= k <= zlen s -> 0 < wc < 0x10000 ->
  k <= NLS_MAX_CHARSET_SIZE /\
  forall space, k <= space -> uni2char wc space = (k, take (Z.to_nat k) s).

Lemma decodes_nonempty s wc u : decodes s (wc :: u) -> 0 < zlen s.
Proof. inversion 1; subst. lia. Qed.

Lemma nlstoucs_loop_spec s u : decodes s u -> forall fuel p q rest i o ins_len,
  i = zlen p -> o = zlen q -> ins_len = zlen p + zlen s -> o <= NTFS_MAX_NAME_LEN ->
  zlen (q ++ rest) = NTFS_MAX_NAME_LEN + 1 -> NTFS_MAX_NAME_LEN + 1 - o <= Z.of_nat fuel ->
  nlstoucs_loop fuel (p ++ s) ins_len i o (q ++ rest) =
    if o + zlen u <=? NTFS_MAX_NAME_LEN
    then Ret (q ++ u ++ drop (length u) rest, o + zlen u) else Errno ENAMETOOLONG.
Proof.
  induction 1 as [|s k wc u Hc Hk Hwc Hd IH]; intros fuel p q rest i o ins_len Hi Ho Hn Hmax Hlen Hf;
    (destruct fuel as [|fuel]; [unfold NTFS_MAX_NAME_LEN in *; lia|]); cbn [nlstoucs_loop].
  { rewrite (@zlen_nil Z) in *. destruct (Z.ltb_spec i ins_len); [lia|].
    destruct (Z.leb_spec (o + 0) NTFS_MAX_NAME_LEN); [|lia]. cbn [length app drop]. by rewrite Z.add_0_r. }
  destruct (Z.ltb_spec i ins_len); [|lia].
  replace (drop (Z.to_nat i) (p ++ s)) with s
    by (rewrite Hi; unfold zlen; rewrite Nat2Z.id; by rewrite drop_app_length).
  replace (ins_len - i) with (zlen s) by lia. rewrite Hc.
  destruct (Z.geb_spec k 0); [|lia]. rewrite zlen_cons. pose proof (zlen_nonneg u). cbn [andb].
  destruct (Z.ltb_spec o NTFS_MAX_NAME_LEN) as [Hlt|Hge].
  2:{ destruct (Z.ltb_spec k 0); [lia|]. by destruct (Z.leb_spec (o + (1 + zlen u)) NTFS_MAX_NAME_LEN); [lia|]. }
  destruct (Z.eqb_spec wc 0); [lia|]. cbn [negb].
  destruct rest as [|x rest]; [rewrite app_nil_r in Hlen; unfold NTFS_MAX_NAME_LEN in *; lia|].
  rewrite wr_mid, bind_Ret, u16_id by (done || lia).
  replace (p ++ s) with ((p ++ take (Z.to_nat k) s) ++ drop (Z.to_nat k) s)
    by (by rewrite <- app_assoc, take_drop).
  replace (q ++ wc :: rest) with ((q ++ [wc]) ++ rest) by (by rewrite <- app_assoc).
  assert (Hzt : zlen (take (Z.to_nat k) s) = k) by (unfold zlen in *; rewrite length_take; lia).
  assert (Hzd : zlen (drop (Z.to_nat k) s) = zlen s - k) by (unfold zlen in *; rewrite length_drop; lia).
  rewrite (IH fuel (p ++ take (Z.to_nat k) s) (q ++ [wc]) rest (i + k) (o + 1) ins_len)
    by (unfold NTFS_MAX_NAME_LEN in *; zlen_lia).
  replace (o + 1 + zlen u) with (o + (1 + zlen u)) by lia.
  destruct (o + (1 + zlen u) <=? NTFS_MAX_NAME_LEN); [|done]. by rewrite <- app_assoc.
Qed.

Lemma ucstonls_loop_spec s u : decodes s u -> nls_inverse -> forall fuel p tl q rest ns_len own,
  zlen q + NLS_MAX_CHARSET_SIZE * zlen u <= ns_len -> ns_len < zlen (q ++ rest) -> (length u < fuel)%nat ->
  exists rest', zlen (q ++ s ++ rest') = zlen (q ++ rest) /\ zlen s <= NLS_MAX_CHARSET_SIZE * zlen u /\
  ucstonls_loop fuel (p ++ u ++ tl) (zlen p + zlen u) (zlen p) (zlen q) (q ++ rest) ns_len own =
    Ret (q ++ s ++ rest', zlen q + zlen s).
Proof.
  intros Hdec Hinv. induction Hdec as [|s k wc u Hc Hk Hwc Hd IH]; intros fuel p tl q rest ns_len own Hsp Hlen Hf;
    (destruct fuel as [|fuel]; [cbn in Hf; lia|]); cbn [ucstonls_loop].
  { exists rest. rewrite (@zlen_nil Z). cbn [app]. destruct (Z.ltb_spec (zlen p) (zlen p + 0)); [lia|].
    split; [done|]. split; [lia|]. by rewrite Z.add_0_r. }
  destruct (Hinv s k wc Hc Hk Hwc) as [Hk6 Hout]. rewrite zlen_cons in Hsp |- *.
  pose proof (zlen_nonneg u). unfold NLS_MAX_CHARSET_SIZE in *.
  destruct (Z.ltb_spec (zlen p) (zlen p + (1 + zlen u))); [|lia].
  rewrite (rd_at (p ++ (wc :: u) ++ tl) p (u ++ tl) wc (zlen p)), bind_Ret by done. rewrite Hout by lia.
  set (c := take (Z.to_nat k) s). assert (Hzc : zlen c = k) by (unfold c, zlen in *; rewrite length_take; lia).
  assert (Hr : k <= zlen rest) by (rewrite zlen_app in Hlen; lia).
  rewrite (blit_eq (q ++ rest) (zlen q) c 0 (zlen c) q (take (Z.to_nat k) rest) (drop (Z.to_nat k) rest) [] c []);
    [|by rewrite take_drop|by rewrite app_nil_r|done|done|rewrite Hzc; unfold zlen in *; rewrite length_take; lia|done].
  rewrite bind_Ret. destruct (Z.gtb_spec k 0); [|lia].
  replace (p ++ (wc :: u) ++ tl) with ((p ++ [wc]) ++ u ++ tl) by (by rewrite <- app_assoc).
  assert (Hzr : zlen (drop (Z.to_nat k) rest) = zlen rest - k) by (unfold zlen in *; rewrite length_drop; lia).
  destruct (IH fuel (p ++ [wc]) tl (q ++ c) (drop (Z.to_nat k) rest) ns_len own) as (rest' & Hz & Hs & E);
    [zlen_lia..|cbn in Hf; lia|].
  assert (Es : s = c ++ drop (Z.to_nat k) s) by (unfold c; by rewrite take_drop).
  exists rest'. rewrite <- !app_assoc in E, Hz. rewrite !zlen_app in Hz.
  replace (zlen p + (1 + zlen u)) with (zlen (p ++ [wc]) + zlen u) by zlen_lia.
  replace (zlen p + 1) with (zlen (p ++ [wc])) by zlen_lia.
  replace (zlen q + k) with (zlen (q ++ c)) by zlen_lia.
  assert (Hzs : zlen s = k + zlen (drop (Z.to_nat k) s)) by (rewrite Es at 1; rewrite zlen_app, Hzc; done).
  split; [zlen_lia|]. split; [lia|]. etrans; [by rewrite <- app_assoc; exact E|].
  replace (q ++ s ++ rest') with ((q ++ c) ++ drop (Z.to_nat k) s ++ rest')
    by (rewrite Es at 2; by rewrite <- !app_assoc).
  do 2 f_equal. zlen_lia.
Qed.

Lemma ucstonls_loop_tail s u : decodes s u -> nls_inverse -> forall fuel tl ns ns_len own,
  NLS_MAX_CHARSET_SIZE * zlen u <= ns_len -> ns_len < zlen ns -> (length u < fuel)%nat ->
  exists rest', zlen (s ++ rest') = zlen ns /\ zlen s <= NLS_MAX_CHARSET_SIZE * zlen u /\
  ucstonls_loop fuel (u ++ tl) (zlen u) 0 0 ns ns_len own = Ret (s ++ rest', zlen s).
Proof.
  intros Hd Hinv fuel tl ns ns_len own H1 H2 H3.
  destruct (ucstonls_loop_spec s u Hd Hinv fuel [] tl [] ns ns_len own) as (rest' & Hz & Hs & E); [done..|].
  exists rest'. done.
Qed.

(** [ntfs_nlstoucs] on a name the table can convert. *)
Lemma nlstoucs_spec s u b :
  decodes s u -> name_cache_alloc = Some b ->
  if zlen u <=? NTFS_MAX_NAME_LEN
  then exists slack, ntfs_nlstoucs (Some s) (zlen s) = Ret (u ++ 0 :: slack, zlen u)
  else ntfs_nlstoucs (Some s) (zlen s) = Errno ENAMETOOLONG.
Proof.
  intros Hd Hb. unfold ntfs_nlstoucs. rewrite Hb. pose proof (name_cache_len b Hb) as Hz.
  pose proof (nlstoucs_loop_spec s u Hd NLSTOUCS_FUEL [] [] b 0 0 (zlen s)) as E.
  cbn [app] in E. rewrite E by (done || (unfold NTFS_MAX_NAME_LEN, NLSTOUCS_FUEL; lia)). clear E.
  rewrite Z.add_0_l. destruct (Z.leb_spec (zlen u) NTFS_MAX_NAME_LEN); [|done]. rewrite bind_Ret.
  destruct (drop (length u) b) as [|x slack] eqn:Ed.
  { apply (f_equal length) in Ed. rewrite length_drop in Ed. cbn in Ed. unfold zlen, NTFS_MAX_NAME_LEN in *. lia. }
  rewrite wr_mid by done. rewrite bind_Ret. by exists slack.
Qed.

(** C37: names survive the conversion to Unicode and back: for an NLS table
    whose @uni2char inverts its @char2uni, [ntfs_ucstonls] applied to what
    [ntfs_nlstoucs] returned for a name gives the bytes of the name, unless a
    buffer cannot be allocated; names of more than NTFS_MAX_NAME_LEN characters
    are refused with -ENAMETOOLONG. *)
Theorem nls_roundtrip s u b fuel :
  decodes s u -> nls_inverse -> name_cache_alloc = Some b -> (length u < fuel)%nat ->
  if zlen u <=? NTFS_MAX_NAME_LEN then
    exists slack, ntfs_nlstoucs (Some s) (zlen s) = Ret (u ++ 0 :: slack, zlen u) /\
      (ntfs_ucstonls fuel (Some (u ++ 0 :: slack)) (zlen u) None 0 = Errno ENOMEM \/
       exists rest, ntfs_ucstonls fuel (Some (u ++ 0 :: slack)) (zlen u) None 0 = Ret (s ++ 0 :: rest, zlen s))
  else ntfs_nlstoucs (Some s) (zlen s) = Errno ENAMETOOLONG.
Proof.
  intros Hd Hinv Hb Hf. pose proof (nlstoucs_spec s u b Hd Hb) as E.
  destruct (Z.leb_spec (zlen u) NTFS_MAX_NAME_LEN) as [Hle|]; [|done]. destruct E as (slack & E).
  exists slack. split; [done|]. clear E. unfold ntfs_ucstonls. pose proof (zlen_nonneg u) as Hu.
  destruct (kmalloc (zlen u * NLS_MAX_CHARSET_SIZE + 1)) as [ns|] eqn:Ens; [|by left]. right.
  pose proof (kmalloc_len (zlen u * NLS_MAX_CHARSET_SIZE + 1) ns ltac:(unfold NLS_MAX_CHARSET_SIZE; lia) Ens) as Hns.
  destruct (ucstonls_loop_tail s u Hd Hinv fuel (0 :: slack) ns (zlen u * NLS_MAX_CHARSET_SIZE) true)
    as (rest' & Hz & Hs & ->); [unfold NLS_MAX_CHARSET_SIZE in *; lia|unfold NLS_MAX_CHARSET_SIZE in *; lia|done|]. rewrite bind_Ret.
  destruct rest' as [|x rest]; [rewrite app_nil_r in Hz; lia|].
  rewrite wr_mid by done. rewrite bind_Ret. by exists rest.
Qed.
End Nls.

(** The ISO 8859-1 character set, and an allocator that has memory. *)
Definition latin1 : nls_table := {|
  char2uni := fun s n => match s with c :: _ => if (0 <? c) && (c <? 0x100) then (1, c) else (- EINVAL, 0) | [] => (- EINVAL, 0) end;
  uni2char := fun wc space => if space <? 1 then (- ENAMETOOLONG, []) else if wc <? 0x100 then (1, [wc]) else (- EINVAL, []);
|}.

#[refine] Definition demo_names : NameAlloc := {|
  name_cache_alloc := Some (repeat 0 256);
  kmalloc := fun n => Some (repeat 0 (Z.to_nat n));
|}.
Proof.
  - intros b [= <-]. reflexivity.
  - intros n b Hn [= <-]. unfold zlen. rewrite repeat_length. lia.
Defined.

Lemma latin1_inverse : @nls_inverse latin1.
Proof.
  intros s k wc Hc Hk Hwc. destruct s as [|c s]; cbn in Hc; [injection Hc; lia|].
  destruct ((0 <? c) && (c <? 0x100)) eqn:E; injection Hc as <- <-; [|lia].
  split; [unfold NLS_MAX_CHARSET_SIZE; lia|]. intros space Hs. cbn.
  destruct (Z.ltb_spec space 1); [lia|]. destruct (Z.ltb_spec c 0x100); [done|lia].
Qed.

Lemma nls_roundtrip_witness :
  exists slack, @ntfs_nlstoucs latin1 demo_names (Some [0x61; 0xe4]) 2 = Ret ([0x61; 0xe4] ++ 0 :: slack, 2).
Proof.
  assert (Hd : @decodes latin1 [0x61; 0xe4] [0x61; 0xe4]).
  { apply (decodes_cons _ 1); [reflexivity|unfold zlen; cbn; lia|lia|].
    apply (decodes_cons _ 1); [reflexivity|vm_compute; split; discriminate|lia|]. constructor. }
  destruct (@nls_roundtrip latin1 demo_names [0x61; 0xe4] [0x61; 0xe4] (repeat 0 256) 10 Hd latin1_inverse
    eq_refl ltac:(cbn; lia)) as (slack & E & _). exists slack. exact E.
Defined.
