(* ===== verification/Upcase.v ===== *)
(** * The default upcase table

    Models [src/ntfs/upcase.c]. *)

From Stdlib Require Import ZArith Lia Bool.
From stdpp Require Import base list numbers option.
From S2P Require Import Prelude Runlist RunlistBuf Mst Unistr UnistrTheorems.

Definition default_upcase_len : Z := 0x10000.

(** Start, End, Add *)
Definition uc_run_table : list (Z * Z * Z) := [
  (0x0061, 0x007B, (-32)); (0x0451, 0x045D, (-80)); (0x1F70, 0x1F72, 74);
  (0x00E0, 0x00F7, (-32)); (0x045E, 0x0460, (-80)); (0x1F72, 0x1F76, 86);
  (0x00F8, 0x00FF, (-32)); (0x0561, 0x0587, (-48)); (0x1F76, 0x1F78, 100);
  (0x0256, 0x0258, (-205)); (0x1F00, 0x1F08, 8); (0x1F78, 0x1F7A, 128);
  (0x028A, 0x028C, (-217)); (0x1F10, 0x1F16, 8); (0x1F7A, 0x1F7C, 112);
  (0x03AC, 0x03AD, (-38)); (0x1F20, 0x1F28, 8); (0x1F7C, 0x1F7E, 126);
  (0x03AD, 0x03B0, (-37)); (0x1F30, 0x1F38, 8); (0x1FB0, 0x1FB2, 8);
  (0x03B1, 0x03C2, (-32)); (0x1F40, 0x1F46, 8); (0x1FD0, 0x1FD2, 8);
  (0x03C2, 0x03C3, (-31)); (0x1F51, 0x1F52, 8); (0x1FE0, 0x1FE2, 8);
  (0x03C3, 0x03CC, (-32)); (0x1F53, 0x1F54, 8); (0x1FE5, 0x1FE6, 7);
  (0x03CC, 0x03CD, (-64)); (0x1F55, 0x1F56, 8); (0x2170, 0x2180, (-16));
  (0x03CD, 0x03CF, (-63)); (0x1F57, 0x1F58, 8); (0x24D0, 0x24EA, (-26));
  (0x0430, 0x0450, (-32)); (0x1F60, 0x1F68, 8); (0xFF41, 0xFF5B, (-32))].

(** Start, End *)
Definition uc_dup_table : list (Z * Z) := [
  (0x0100, 0x012F); (0x01A0, 0x01A6); (0x03E2, 0x03EF);
  (0x04CB, 0x04CC); (0x0132, 0x0137); (0x01B3, 0x01B7);
  (0x0460, 0x0481); (0x04D0, 0x04EB); (0x0139, 0x0149);
  (0x01CD, 0x01DD); (0x0490, 0x04BF); (0x04EE, 0x04F5);
  (0x014A, 0x0178); (0x01DE, 0x01EF); (0x04BF, 0x04BF);
  (0x04F8, 0x04F9); (0x0179, 0x017E); (0x01F4, 0x01F5);
  (0x04C1, 0x04C4); (0x1E00, 0x1E95); (0x018B, 0x018B);
  (0x01FA, 0x0218); (0x04C7, 0x04C8); (0x1EA0, 0x1EF9)].

(** Offset, Value *)
Definition uc_word_table : list (Z * Z) := [
  (0x00FF, 0x0178); (0x01AD, 0x01AC); (0x01F3, 0x01F1);
  (0x0269, 0x0196); (0x0183, 0x0182); (0x01B0, 0x01AF);
  (0x0253, 0x0181); (0x026F, 0x019C); (0x0185, 0x0184);
  (0x01B9, 0x01B8); (0x0254, 0x0186); (0x0272, 0x019D);
  (0x0188, 0x0187); (0x01BD, 0x01BC); (0x0259, 0x018F);
  (0x0275, 0x019F); (0x018C, 0x018B); (0x01C6, 0x01C4);
  (0x025B, 0x0190); (0x0283, 0x01A9); (0x0192, 0x0191);
  (0x01C9, 0x01C7); (0x0260, 0x0193); (0x0288, 0x01AE);
  (0x0199, 0x0198); (0x01CC, 0x01CA); (0x0263, 0x0194);
  (0x0292, 0x01B7); (0x01A8, 0x01A7); (0x01DD, 0x018E);
  (0x0268, 0x0197)].

(** [le16_add_cpu(&uc[i], val)] *)
Definition le16_add_cpu (uc : list Z) (i val : Z) : outcome (list Z) := x ← rd uc i; wr uc i (u16 (x + val)).

(** [for (i = start; i < end; i++) uc[i] = cpu_to_le16(i);] for [n] rounds *)
Fixpoint uc_init (n : nat) (uc : list Z) (i : Z) : outcome (list Z) :=
  match n with
  | O => Ret uc
  | S n => uc ← wr uc i (u16 i); uc_init n uc (i + 1)
  end.

Fixpoint uc_run (n : nat) (uc : list Z) (i add : Z) : outcome (list Z) :=
  match n with
  | O => Ret uc
  | S n => uc ← le16_add_cpu uc i add; uc_run n uc (i + 1) add
  end.

Fixpoint uc_runs (t : list (Z * Z * Z)) (uc : list Z) : outcome (list Z) :=
  match t with
  | [] => Ret uc
  | (s, e, a) :: t => uc ← uc_run (Z.to_nat (e - s)) uc s a; uc_runs t uc
  end.

Fixpoint uc_dup (n : nat) (uc : list Z) (i : Z) : outcome (list Z) :=
  match n with
  | O => Ret uc
  | S n => uc ← le16_add_cpu uc (i + 1) (-1); uc_dup n uc (i + 2)
  end.

(** [i < end] for [i] from [start] in steps of two: [(end - start + 1) / 2] rounds *)
Fixpoint uc_dups (t : list (Z * Z)) (uc : list Z) : outcome (list Z) :=
  match t with
  | [] => Ret uc
  | (s, e) :: t => uc ← uc_dup (Z.to_nat ((e - s + 1) / 2)) uc s; uc_dups t uc
  end.

Fixpoint uc_words (t : list (Z * Z)) (uc : list Z) : outcome (list Z) :=
  match t with
  | [] => Ret uc
  | (o, v) :: t => uc ← wr uc o (u16 v); uc_words t uc
  end.

(** [generate_default_upcase]: [None] for NULL. *)
Definition generate_default_upcase `{KA : KernelAlloc} : outcome (option (list Z)) :=
  p ← ntfs_malloc_nofs (default_upcase_len * 2);
  match p with
  | None => Ret None
  | Some bytes =>
      let uc := repeat 0 (Z.to_nat (bytes / 2)) in
      uc ← uc_init (Z.to_nat default_upcase_len) uc 0;
      uc ← uc_runs uc_run_table uc;
      uc ← uc_dups uc_dup_table uc;
      uc ← uc_words uc_word_table uc;
      Ret (Some uc)
  end.

(** ** What the table contains *)

Definition run_char (c : Z) (x : Z) (t : Z * Z * Z) : Z :=
  let '(s, e, a) := t in if (s <=? c) && (c <? e) then u16 (x + a) else x.
Definition dup_char (c : Z) (x : Z) (t : Z * Z) : Z :=
  let '(s, e) := t in
  if (s <? c) && (c <=? e) && ((c - s) mod 2 =? 1) then u16 (x + -1) else x.
Definition word_char (c : Z) (x : Z) (t : Z * Z) : Z := let '(o, v) := t in if c =? o then u16 v else x.

(** The upcase of a character. *)
Definition default_upcase (c : Z) : Z :=
  fold_left (word_char c) uc_word_table (fold_left (dup_char c) uc_dup_table (fold_left (run_char c) uc_run_table c)).

(** One update, seen through lookups. *)
Lemma le16_add_word uc i v x :
  word uc i = Some x ->
  exists uc', le16_add_cpu uc i v = Ret uc' /\ zlen uc' = zlen uc /\
    forall j, word uc' j = if j =? i then Some (u16 (x + v)) else word uc j.
Proof.
  intros Hx. unfold le16_add_cpu. pose proof Hx as Hrd. apply rd_word in Hrd. rewrite Hrd, bind_Ret. apply wr_word.
  apply rd_spec in Hrd as [? Hl%lookup_lt_Some]. unfold zlen. lia.
Qed.

(** [j] is one of the [n] indices from [i] on. *)
Definition inside (i : Z) (n : nat) (j : Z) : bool := (i <=? j) && (j <? i + Z.of_nat n).

Lemma inside_O i j : inside i 0 j = false.
Proof. unfold inside. destruct (Z.leb_spec i j), (Z.ltb_spec j (i + Z.of_nat 0)); done || lia. Qed.

Lemma inside_S i n j : inside i (S n) j = (j =? i) || inside (i + 1) n j.
Proof.
  unfold inside. destruct (Z.leb_spec i j), (Z.ltb_spec j (i + Z.of_nat (S n))), (Z.eqb_spec j i),
    (Z.leb_spec (i + 1) j), (Z.ltb_spec j (i + 1 + Z.of_nat n)); done || lia.
Qed.

Lemma uc_init_spec n : forall uc i, 0 <= i -> i + Z.of_nat n <= zlen uc ->
  exists uc', uc_init n uc i = Ret uc' /\ zlen uc' = zlen uc /\
    forall j, word uc' j = if inside i n j then Some (u16 j) else word uc j.
Proof.
  induction n as [|n IH]; intros uc i Hi Hn; cbn [uc_init].
  { exists uc. split; [done|]. split; [done|]. intros j. by rewrite inside_O. }
  destruct (wr_word uc i (u16 i)) as (u1 & -> & Hz & H1); [lia|]. rewrite bind_Ret.
  destruct (IH u1 (i + 1)) as (u2 & -> & Hz2 & H2); [lia..|]. exists u2. split; [done|]. split; [lia|].
  intros j. rewrite H2, H1, inside_S. destruct (inside (i + 1) n j); [by rewrite orb_true_r|].
  rewrite orb_false_r. by destruct (Z.eqb_spec j i) as [->|].
Qed.

(** [uc] has an entry for every character, [g c] for the character [c]. *)
Definition holds_table (uc : list Z) (g : Z -> Z) : Prop :=
  default_upcase_len <= zlen uc /\ forall c, 0 <= c < default_upcase_len -> word uc c = Some (g c).

Lemma le16_add_table uc g i v :
  holds_table uc g -> 0 <= i < default_upcase_len ->
  exists uc', le16_add_cpu uc i v = Ret uc' /\
    holds_table uc' (fun c => if c =? i then u16 (g c + v) else g c).
Proof.
  intros [Hl Hg] Hi. destruct (le16_add_word uc i v (g i)) as (uc' & -> & Hz & H); [auto|].
  exists uc'. split; [done|]. split; [lia|]. intros c Hc. rewrite H. destruct (Z.eqb_spec c i) as [->|]; auto.
Qed.

Lemma holds_table_ext uc g g' :
  (forall c, 0 <= c < default_upcase_len -> g c = g' c) -> holds_table uc g -> holds_table uc g'.
Proof. intros E [Hl Hg]. split; [done|]. intros c Hc. rewrite Hg, E by done. done. Qed.

Lemma uc_run_table_spec a n : forall uc g i,
  holds_table uc g -> 0 <= i -> i + Z.of_nat n <= default_upcase_len ->
  exists uc', uc_run n uc i a = Ret uc' /\
    holds_table uc' (fun c => if inside i n c then u16 (g c + a) else g c).
Proof.
  induction n as [|n IH]; intros uc g i Hg Hi Hn; cbn [uc_run].
  { exists uc. split; [done|]. eapply holds_table_ext; [|exact Hg]. intros c _. by rewrite inside_O. }
  destruct (le16_add_table uc g i a Hg) as (u1 & -> & H1); [lia|]. rewrite bind_Ret.
  destruct (IH u1 _ (i + 1) H1) as (u2 & -> & H2); [lia..|]. exists u2. split; [done|].
  eapply holds_table_ext; [|exact H2]. intros c _. cbn beta. rewrite inside_S.
  destruct (Z.eqb_spec c i) as [->|]; [|done]. unfold inside. by destruct (Z.leb_spec (i + 1) i); [lia|].
Qed.

(** The rows of the tables are inside the table. *)
Definition run_row_ok (t : Z * Z * Z) : bool := let '(s, e, _) := t in (0 <=? s) && (s <=? e) && (e <=? 0x10000).
Definition dup_row_ok (t : Z * Z) : bool := let '(s, e) := t in (0 <=? s) && (s <=? e) && (e <? 0xffff).
Definition word_row_ok (t : Z * Z) : bool := let '(o, v) := t in (0 <=? o) && (o <? 0x10000).

Lemma uc_runs_spec t : forall uc g, forallb run_row_ok t = true -> holds_table uc g ->
  exists uc', uc_runs t uc = Ret uc' /\ holds_table uc' (fun c => fold_left (run_char c) t (g c)).
Proof.
  induction t as [|[[s e] a] t IH]; intros uc g Ht Hg; cbn [uc_runs]; [by exists uc|].
  cbn [forallb] in Ht. apply andb_true_iff in Ht as [Hr Ht]. unfold run_row_ok in Hr.
  destruct (uc_run_table_spec a (Z.to_nat (e - s)) uc g s Hg) as (u1 & -> & H1);
    [lia|unfold default_upcase_len; lia|]. rewrite bind_Ret.
  destruct (IH u1 _ Ht H1) as (u2 & -> & H2). exists u2. split; [done|].
  eapply holds_table_ext; [|exact H2]. intros c _. cbn [fold_left]. f_equal. unfold run_char, inside.
  replace (s + Z.of_nat (Z.to_nat (e - s))) with e by lia. done.
Qed.

(** [c] is one of the [n] characters [i + 1], [i + 3], .. *)
Definition odd_inside (i : Z) (n : nat) (c : Z) : bool :=
  (i <? c) && (c <? i + 2 * Z.of_nat n) && ((c - i) mod 2 =? 1).

Lemma odd_inside_S i n c : odd_inside i (S n) c = (c =? i + 1) || odd_inside (i + 2) n c.
Proof.
  unfold odd_inside. replace (c - (i + 2)) with (c - i + (-1) * 2) by lia. rewrite Z.mod_add by lia.
  pose proof (Z.div_mod (c - i) 2 ltac:(done)). pose proof (Z.mod_pos_bound (c - i) 2 ltac:(done)).
  destruct (Z.eqb_spec c (i + 1)) as [->|].
  { replace (i + 1 - i) with 1 by lia. destruct (Z.ltb_spec i (i + 1)), (Z.ltb_spec (i + 1) (i + 2 * Z.of_nat (S n))); done || lia. }
  destruct (Z.eqb_spec ((c - i) mod 2) 1); [|by rewrite !andb_false_r]. rewrite !andb_true_r.
  destruct (Z.ltb_spec i c), (Z.ltb_spec c (i + 2 * Z.of_nat (S n))), (Z.ltb_spec (i + 2) c),
    (Z.ltb_spec c (i + 2 + 2 * Z.of_nat n)); done || lia.
Qed.

Lemma uc_dup_spec n : forall uc g i,
  holds_table uc g -> 0 <= i -> i + 2 * Z.of_nat n <= default_upcase_len ->
  exists uc', uc_dup n uc i = Ret uc' /\
    holds_table uc' (fun c => if odd_inside i n c then u16 (g c + -1) else g c).
Proof.
  induction n as [|n IH]; intros uc g i Hg Hi Hn; cbn [uc_dup].
  { exists uc. split; [done|]. eapply holds_table_ext; [|exact Hg]. intros c _. unfold odd_inside.
    destruct (Z.ltb_spec i c), (Z.ltb_spec c (i + 2 * Z.of_nat 0)); done || lia. }
  destruct (le16_add_table uc g (i + 1) (-1) Hg) as (u1 & -> & H1); [lia|]. rewrite bind_Ret.
  destruct (IH u1 _ (i + 2) H1) as (u2 & -> & H2); [lia..|]. exists u2. split; [done|].
  eapply holds_table_ext; [|exact H2]. intros c _. cbn beta. rewrite odd_inside_S.
  destruct (Z.eqb_spec c (i + 1)) as [->|]; [|done]. unfold odd_inside. by destruct (Z.ltb_spec (i + 2) (i + 1)); [lia|].
Qed.

Lemma uc_dups_spec t : forall uc g, forallb dup_row_ok t = true -> holds_table uc g ->
  exists uc', uc_dups t uc = Ret uc' /\ holds_table uc' (fun c => fold_left (dup_char c) t (g c)).
Proof.
  induction t as [|[s e] t IH]; intros uc g Ht Hg; cbn [uc_dups]; [by exists uc|].
  cbn [forallb] in Ht. apply andb_true_iff in Ht as [Hr Ht]. unfold dup_row_ok in Hr.
  pose proof (Z.div_mod (e - s + 1) 2 ltac:(done)) as Hdm. pose proof (Z.mod_pos_bound (e - s + 1) 2 ltac:(done)).
  set (n := Z.to_nat ((e - s + 1) / 2)). assert (Hn : Z.of_nat n = (e - s + 1) / 2) by (unfold n; lia).
  destruct (uc_dup_spec n uc g s Hg) as (u1 & -> & H1);
    [lia|unfold default_upcase_len; lia|]. rewrite bind_Ret.
  destruct (IH u1 _ Ht H1) as (u2 & -> & H2). exists u2. split; [done|].
  eapply holds_table_ext; [|exact H2]. intros c _. cbn [fold_left]. f_equal. unfold dup_char, odd_inside.
  pose proof (Z.div_mod (c - s) 2 ltac:(done)). rewrite Hn.
  destruct (Z.eqb_spec ((c - s) mod 2) 1); [|by rewrite !andb_false_r]. rewrite !andb_true_r.
  destruct (Z.ltb_spec s c), (Z.leb_spec c e), (Z.ltb_spec c (s + 2 * ((e - s + 1) / 2))); done || lia.
Qed.

Lemma uc_words_spec t : forall uc g, forallb word_row_ok t = true -> holds_table uc g ->
  exists uc', uc_words t uc = Ret uc' /\ holds_table uc' (fun c => fold_left (word_char c) t (g c)).
Proof.
  induction t as [|[o v] t IH]; intros uc g Ht Hg; cbn [uc_words]; [by exists uc|].
  cbn [forallb] in Ht. apply andb_true_iff in Ht as [Hr Ht]. unfold word_row_ok in Hr. destruct Hg as [Hl Hg].
  destruct (wr_word uc o (u16 v)) as (u1 & -> & Hz & H1); [unfold default_upcase_len in Hl; lia|]. rewrite bind_Ret.
  destruct (IH u1 (fun c => word_char c (g c) (o, v)) Ht) as (u2 & -> & H2).
  { split; [lia|]. intros c Hc. rewrite H1. cbn. destruct (Z.eqb_spec c o); auto. }
  exists u2. done.
Qed.

(** [generate_default_upcase] returns NULL only when there is no memory;
    otherwise the table maps every character to its upcase according to the
    three tables of the source; in particular the small ASCII letters to the
    capitals and the rest of ASCII to itself. *)
Theorem default_upcase_correct {KA : KernelAlloc} :
  generate_default_upcase = Ret None \/
  exists uc, generate_default_upcase = Ret (Some uc) /\
    (forall c, 0 <= c < default_upcase_len -> word uc c = Some (default_upcase c)) /\
    default_upcase_len <= zlen uc /\
    (forall c, 0 <= c < 0x80 -> default_upcase c = if (0x61 <=? c) && (c <=? 0x7a) then c - 32 else c).
Proof.
  unfold generate_default_upcase, ntfs_malloc_nofs.
  destruct (malloc_cases false (default_upcase_len * 2)) as [->|(bytes & -> & Hb)]; [done|by left|]. right.
  rewrite bind_Ret. set (uc := repeat 0 (Z.to_nat (bytes / 2))).
  assert (Huc : default_upcase_len <= zlen uc).
  { unfold uc, zlen, default_upcase_len in *. rewrite repeat_length.
    assert (0x10000 <= bytes / 2) by (apply Z.div_le_lower_bound; lia). lia. }
  destruct (uc_init_spec (Z.to_nat default_upcase_len) uc 0) as (u0 & -> & Hz0 & H0); [lia|rewrite Z2Nat.id by (unfold default_upcase_len; lia); lia|]. rewrite bind_Ret.
  assert (Ht0 : holds_table u0 (fun c => c)).
  { split; [lia|]. intros c Hc. rewrite H0. unfold inside. rewrite Z2Nat.id by (unfold default_upcase_len; lia).
    destruct (Z.leb_spec 0 c), (Z.ltb_spec c (0 + default_upcase_len)); [|lia..]. cbn.
    by rewrite u16_id by (unfold default_upcase_len in *; lia). }
  destruct (uc_runs_spec uc_run_table u0 _ eq_refl Ht0) as (u1 & -> & H1). rewrite bind_Ret.
  destruct (uc_dups_spec uc_dup_table u1 _ eq_refl H1) as (u2 & -> & H2). rewrite bind_Ret.
  destruct (uc_words_spec uc_word_table u2 _ eq_refl H2) as (u3 & -> & H3). rewrite bind_Ret.
  exists u3. split; [done|]. destruct H3 as [Hl H3]. split; [exact H3|]. split; [done|].
  intros c Hc.
  assert (Hall : forallb (fun n => default_upcase (Z.of_nat n) =?
    (if (0x61 <=? Z.of_nat n) && (Z.of_nat n <=? 0x7a) then Z.of_nat n - 32 else Z.of_nat n)) (seq 0 128) = true)
    by (vm_compute; reflexivity).
  rewrite forallb_forall in Hall. specialize (Hall (Z.to_nat c)). rewrite Z2Nat.id in Hall by lia.
  apply Z.eqb_eq, Hall, in_seq. lia.
Qed.
