(* ===== verification/Collate.v ===== *)
(** * Collation of index keys

    Models [src/ntfs/collate.c] and [src/ntfs/collate.h].  A data item is the
    list of its bytes; [memcmp] is the C library's, comparing unsigned bytes. *)

From Stdlib Require Import ZArith Lia Bool.
From stdpp Require Import base list numbers option.
From S2P Require Import Prelude Endian Unistr UnistrTheorems.

Definition COLLATION_BINARY : Z := 0.
Definition COLLATION_FILE_NAME : Z := 1.
Definition COLLATION_NTOFS_ULONG : Z := 0x10.

(** [memcmp(s1, s2, n)]: the difference of the first bytes that differ. *)
Fixpoint memcmp (n : nat) (s1 s2 : list Z) (i : Z) : outcome Z :=
  match n with
  | O => Ret 0
  | S n => a ← rd s1 i; b ← rd s2 i; if a =? b then memcmp n s1 s2 (i + 1) else Ret (a - b)
  end.

Definition ntfs_collate_binary (data1 : list Z) (data1_len : Z) (data2 : list Z) (data2_len : Z) : outcome Z :=
  rc ← memcmp (Z.to_nat (Z.min data1_len data2_len)) data1 data2 0;
  if (rc =? 0) && negb (data1_len =? data2_len) then
    Ret (if data1_len <? data2_len then -1 else 1)
  else Ret rc.

Definition ntfs_collate_ntofs_ulong (data1 : list Z) (data1_len : Z) (data2 : list Z) (data2_len : Z) : outcome Z :=
  BUG_ON (negb (data1_len =? data2_len));;
  BUG_ON (negb (data1_len =? 4));;
  d1 ← rd_le32 data1 0;
  d2 ← rd_le32 data2 0;
  Ret (if d1 <? d2 then -1 else if d1 =? d2 then 0 else 1).

(** The tables of collation functions; [None] is NULL. *)
Definition ntfs_do_collate0x0 : list (option (list Z -> Z -> list Z -> Z -> outcome Z)) :=
  [Some ntfs_collate_binary; None; None].
Definition ntfs_do_collate0x1 : list (option (list Z -> Z -> list Z -> Z -> outcome Z)) :=
  [Some ntfs_collate_ntofs_ulong; None; None; None].

(** A call through a table. *)
Definition call_table (t : list (option (list Z -> Z -> list Z -> Z -> outcome Z))) (i : Z)
    (data1 : list Z) (data1_len : Z) (data2 : list Z) (data2_len : Z) : outcome Z :=
  f ← rd t i;
  match f with Some f => f data1 data1_len data2 data2_len | None => Fault end.

Definition ntfs_collate (cr : Z) (data1 : list Z) (data1_len : Z) (data2 : list Z) (data2_len : Z) : outcome Z :=
  BUG_ON (negb (cr =? COLLATION_BINARY) && negb (cr =? COLLATION_NTOFS_ULONG));;
  let i := cr in
  BUG_ON (i <? 0);;
  if i <=? 0x02 then call_table ntfs_do_collate0x0 i data1 data1_len data2 data2_len
  else
    BUG_ON (i <? 0x10);;
    let i := i - 0x10 in
    if i <=? 3 then call_table ntfs_do_collate0x1 i data1 data1_len data2 data2_len
    else Bug.

Definition ntfs_is_collation_rule_supported (cr : Z) : bool :=
  if negb (cr =? COLLATION_BINARY) && negb (cr =? COLLATION_NTOFS_ULONG) then false
  else ((cr >=? 0) && (cr <=? 0x02)) || ((cr >=? 0x10) && (cr <=? 0x13)).

(** ** Properties *)

Lemma memcmp_spec a : forall b p q r s i,
  length a = length b -> i = zlen p -> i = zlen q ->
  exists d, memcmp (length a) (p ++ a ++ r) (q ++ b ++ s) i = Ret d /\ Z.sgn d = sgn (lex a b).
Proof.
  induction a as [|x a IH]; intros [|y b] p q r s i Hl Hp Hq; try done; [by exists 0|]. cbn [length memcmp lex].
  rewrite (rd_at (p ++ (x :: a) ++ r) p (a ++ r) x i), bind_Ret by done.
  rewrite (rd_at (q ++ (y :: b) ++ s) q (b ++ s) y i), bind_Ret by done.
  destruct (Z.compare_spec x y) as [->|Hlt|Hgt].
  - rewrite Z.eqb_refl.
    replace (p ++ (y :: a) ++ r) with ((p ++ [y]) ++ a ++ r) by (by rewrite <- app_assoc).
    replace (q ++ (y :: b) ++ s) with ((q ++ [y]) ++ b ++ s) by (by rewrite <- app_assoc).
    apply IH; [cbn in Hl; lia|zlen_lia..].
  - destruct (Z.eqb_spec x y); [lia|]. exists (x - y). split; [done|]. cbn. lia.
  - destruct (Z.eqb_spec x y); [lia|]. exists (x - y). split; [done|]. cbn. lia.
Qed.

(** The common prefix and the lengths decide the lexicographic order. *)
Lemma memcmp_lex a b r s :
  exists d, memcmp (Z.to_nat (Z.min (zlen a) (zlen b))) (a ++ r) (b ++ s) 0 = Ret d /\
    sgn (lex a b) = if d =? 0 then (if zlen a =? zlen b then 0 else if zlen a <? zlen b then -1 else 1) else Z.sgn d.
Proof.
  set (n := Z.to_nat (Z.min (zlen a) (zlen b))).
  assert (Hn : (n <= length a)%nat /\ (n <= length b)%nat) by (unfold n, zlen; lia).
  destruct (memcmp_spec (take n a) (take n b) [] [] (drop n a ++ r) (drop n b ++ s) 0) as (d & E & Hd);
    [rewrite !length_take; lia|done|done|].
  cbn [app] in E. rewrite !app_assoc, !take_drop, length_take_le in E by lia. exists d. split; [exact E|]. clear E.
  replace (lex a b) with (lex (take n a ++ drop n a) (take n b ++ drop n b)) by (by rewrite !take_drop).
  rewrite lex_app by (rewrite !length_take; lia).
  assert (Hzero : d = 0 <-> lex (take n a) (take n b) = Eq).
  { destruct (lex (take n a) (take n b)); cbn in Hd; split; intros; done || lia. }
  destruct (Z.eqb_spec d 0) as [Ed|Hne].
  2:{ rewrite Hd. destruct (lex (take n a) (take n b)); done || naive_solver. }
  rewrite (proj1 Hzero Ed). destruct (Z.eqb_spec (zlen a) (zlen b)) as [Eq|Hneq].
  { rewrite !drop_ge by (unfold n, zlen in *; lia). done. }
  destruct (Z.ltb_spec (zlen a) (zlen b)).
  - rewrite (drop_ge a) by (unfold n, zlen in *; lia).
    destruct (drop n b) eqn:Ed'; [|done]. apply (f_equal length) in Ed'. rewrite length_drop in Ed'.
    unfold n, zlen in *. cbn [length] in Ed'. lia.
  - rewrite (drop_ge b) by (unfold n, zlen in *; lia).
    destruct (drop n a) eqn:Ed'; [|done]. apply (f_equal length) in Ed'. rewrite length_drop in Ed'.
    unfold n, zlen in *. cbn [length] in Ed'. lia.
Qed.

(** [ntfs_collate_binary] is the lexicographic order of the bytes. *)
Lemma collate_binary_spec a b :
  exists d, ntfs_collate_binary a (zlen a) b (zlen b) = Ret d /\ Z.sgn d = sgn (lex a b).
Proof.
  destruct (memcmp_lex a b [] []) as (d & E & Hd). rewrite !app_nil_r in E. unfold ntfs_collate_binary.
  rewrite E, bind_Ret, Hd. destruct (Z.eqb_spec d 0) as [->|]; cbn [andb]; [|eauto].
  destruct (zlen a =? zlen b); cbn [negb]; [eauto|]. destruct (zlen a <? zlen b); eauto.
Qed.

(** For every rule that [ntfs_is_collation_rule_supported] accepts and keys
    of the right size [ntfs_collate] returns, without reaching a NULL entry of
    its tables, the sign of a total order on the keys: the lexicographic order of
    the bytes, or the order of the little-endian numbers; for every other rule it
    stops in the BUG_ON. *)
Theorem collate_correct cr a b :
  (ntfs_is_collation_rule_supported cr = false -> ntfs_collate cr a (zlen a) b (zlen b) = Bug) /\
  (cr = COLLATION_BINARY -> ntfs_is_collation_rule_supported cr = true /\
     exists d, ntfs_collate cr a (zlen a) b (zlen b) = Ret d /\ Z.sgn d = sgn (lex a b)) /\
  (cr = COLLATION_NTOFS_ULONG -> zlen a = 4 -> zlen b = 4 ->
     ntfs_is_collation_rule_supported cr = true /\
     ntfs_collate cr a (zlen a) b (zlen b) = Ret (sgn (le_combine a ?= le_combine b))).
Proof.
  unfold ntfs_is_collation_rule_supported, ntfs_collate, COLLATION_BINARY, COLLATION_NTOFS_ULONG, BUG_ON. split; [|split].
  - destruct (Z.eqb_spec cr 0) as [->|]; cbn [negb andb]; [done|].
    destruct (Z.eqb_spec cr 0x10) as [->|]; cbn [negb andb]; done.
  - intros ->. split; [done|]. exact (collate_binary_spec a b).
  - intros -> Ha Hb. split; [done|]. transitivity (ntfs_collate_ntofs_ulong a (zlen a) b (zlen b)); [done|].
    unfold ntfs_collate_ntofs_ulong, BUG_ON. rewrite Ha, Hb. change (negb (4 =? 4)) with false. cbv iota. rewrite !bind_Ret.
    unfold rd_le32, rd_bytes. rewrite Ha, Hb. change ((0 <=? 0) && (0 + Z.of_nat 4 <=? 4)) with true.
    change (Z.to_nat 0) with 0%nat. rewrite !drop_0.
    rewrite !bind_Ret, !take_ge by (unfold zlen in *; lia).
    destruct (Z.compare_spec (le_combine a) (le_combine b)) as [->|H|H].
    + by rewrite Z.ltb_irrefl, Z.eqb_refl.
    + by destruct (Z.ltb_spec (le_combine a) (le_combine b)); [|lia].
    + destruct (Z.ltb_spec (le_combine a) (le_combine b)); [lia|].
      by destruct (Z.eqb_spec (le_combine a) (le_combine b)); [lia|].
Qed.

Lemma collate_correct_witness :
  ntfs_collate COLLATION_NTOFS_ULONG [1; 0; 0; 0] 4 [0; 1; 0; 0] 4 = Ret (-1).
Proof.
  destruct (collate_correct COLLATION_NTOFS_ULONG [1; 0; 0; 0] [0; 1; 0; 0]) as (_ & _ & H).
  destruct (H eq_refl eq_refl eq_refl) as [_ E]. exact E.
Defined.
