(* ===== verification/Attrib.v ===== *)
(** * Attribute records

    Models the attribute search and the attribute record operations of
    [src/ntfs/attrib.c].  An mft record is the list of the bytes of its buffer
    and a pointer into it an offset; reads outside the buffer are [Fault]. *)

From Stdlib Require Import ZArith Lia Bool.
From stdpp Require Import base list numbers option.
From S2P Require Import Prelude Endian Unistr Collate.

Definition EPERM : Z := 1.

(** ** Layout (layout.h) *)

Definition AT_UNUSED : Z := 0.
Definition AT_ATTRIBUTE_LIST : Z := 0x20.
Definition AT_INDEX_ALLOCATION : Z := 0xa0.
Definition AT_END : Z := 0xffffffff.

Definition MFT_attrs_offset : Z := 20.
Definition MFT_bytes_in_use : Z := 24.
Definition MFT_bytes_allocated : Z := 28.

Definition A_type : Z := 0.
Definition A_length : Z := 4.
Definition A_non_resident : Z := 8.
Definition A_name_length : Z := 9.
Definition A_name_offset : Z := 10.
Definition A_instance : Z := 14.
Definition A_value_length : Z := 16.
Definition A_value_offset : Z := 20.

(** The members @mrec, @attr and @is_first of [ntfs_attr_search_ctx], which are all
    [ntfs_attr_find] uses of it, and the errors flag of the volume. *)
Record find_ctx := mk_find_ctx {
  ctx_mrec : list Z;
  ctx_attr : Z;
  ctx_is_first : bool;
  ctx_vol_errors : bool;
}.

Definition set_attr (a : Z) (c : find_ctx) : find_ctx :=
  mk_find_ctx (ctx_mrec c) a (ctx_is_first c) (ctx_vol_errors c).
Definition set_first (f : bool) (c : find_ctx) : find_ctx :=
  mk_find_ctx (ctx_mrec c) (ctx_attr c) f (ctx_vol_errors c).
Definition find_set_errors (c : find_ctx) : find_ctx :=
  mk_find_ctx (ctx_mrec c) (ctx_attr c) (ctx_is_first c) true.

(** ** ntfs_attr_find *)

(** What the comparisons say about an attribute of the right type. *)
Inductive verdict := Match | Continue | NotThere.

Section Find.
Context (upcase : list Z) (upcase_len : Z).

(** The name comparison. *)
Definition find_name (name : option (list Z)) (name_len : Z) (ic : IGNORE_CASE_BOOL) (mrec : list Z) (a : Z)
    : outcome verdict :=
  a_name_length ← rd_u8 mrec (a + A_name_length);
  match name with
  | None => Ret (if negb (a_name_length =? 0) then NotThere else Match)
  | Some name =>
      name_offset ← rd_le16 mrec (a + A_name_offset);
      let a_name := ntfschars_at mrec (a + name_offset) in
      equal ← ntfs_are_names_equal name name_len a_name a_name_length ic upcase upcase_len;
      if (equal : bool) then Ret Match
      else
        rc ← ntfs_collate_names name name_len a_name a_name_length 1 IGNORE_CASE upcase upcase_len;
        if rc =? -1 then Ret NotThere
        else if negb (rc =? 0) then Ret Continue
        else
          rc ← ntfs_collate_names name name_len a_name a_name_length 1 CASE_SENSITIVE upcase upcase_len;
          Ret (if rc =? -1 then NotThere else if negb (rc =? 0) then Continue else Match)
  end.

(** The value comparison. *)
Definition find_val (val : option (list Z)) (val_len : Z) (mrec : list Z) (a : Z) : outcome verdict :=
  match val with
  | None => Ret Match
  | Some val =>
      value_offset ← rd_le16 mrec (a + A_value_offset);
      avl ← rd_le32 mrec (a + A_value_length);
      rc ← memcmp (Z.to_nat (Z.min val_len avl)) val (drop (Z.to_nat (a + value_offset)) mrec) 0;
      Ret (if rc =? 0 then
             (if val_len =? avl then Match else if val_len <? avl then NotThere else Continue)
           else if rc <? 0 then NotThere else Continue)
  end.

Fixpoint attr_find_loop (fuel : nat) (type : Z) (name : option (list Z)) (name_len : Z) (ic : IGNORE_CASE_BOOL)
    (val : option (list Z)) (val_len : Z) (ctx : find_ctx) (a : Z)
    : outcome (find_ctx * Z) :=
  match fuel with
  | O => Diverge
  | S fuel =>
      let mrec := ctx_mrec ctx in
      bytes_allocated ← rd_le32 mrec MFT_bytes_allocated;
      if (a <? 0) || (a >? bytes_allocated) then Ret (find_set_errors ctx, - EIO)
      else
        let ctx := set_attr a ctx in
        a_type ← rd_le32 mrec (a + A_type);
        if (a_type >? type) || (a_type =? AT_END) then Ret (ctx, - ENOENT)
        else
          a_length ← rd_le32 mrec (a + A_length);
          if a_length =? 0 then Ret (find_set_errors ctx, - EIO)
          else
            v ← (if negb (a_type =? type) then Ret Continue
                 else
                   n ← find_name name name_len ic mrec a;
                   match n with Match => find_val val val_len mrec a | _ => Ret n end);
            match v with
            | Match => Ret (ctx, 0)
            | NotThere => Ret (ctx, - ENOENT)
            | Continue => attr_find_loop fuel type name name_len ic val val_len ctx (a + a_length)
            end
  end.

(** Every attribute of the loop starts behind the one before it and inside the
    record. *)
Definition find_fuel (bytes_allocated : Z) : nat := S (S (Z.to_nat bytes_allocated)).

Definition ntfs_attr_find (type : Z) (name : option (list Z)) (name_len : Z) (ic : IGNORE_CASE_BOOL)
    (val : option (list Z)) (val_len : Z) (ctx : find_ctx) : outcome (find_ctx * Z) :=
  '(a, ctx) ←
    (if ctx_is_first ctx then Ret (ctx_attr ctx, set_first false ctx)
     else len ← rd_le32 (ctx_mrec ctx) (ctx_attr ctx + A_length); Ret (ctx_attr ctx + len, ctx));
  bytes_allocated ← rd_le32 (ctx_mrec ctx) MFT_bytes_allocated;
  attr_find_loop (find_fuel bytes_allocated) type name name_len ic val val_len ctx a.
End Find.

(** ** $AttrDef *)

Definition ATTR_DEF_size : Z := 0xa0.
Definition AD_type : Z := 0x80.
Definition AD_flags : Z := 0x8c.
Definition AD_min_size : Z := 0x90.
Definition AD_max_size : Z := 0x98.
Definition ATTR_DEF_RESIDENT : Z := 0x40.

(** The loop of [ntfs_attr_find_in_attrdef]: the offset of the definition. *)
Fixpoint attrdef_loop (fuel : nat) (attrdef : list Z) (attrdef_size type ad : Z) : outcome (option Z) :=
  match fuel with
  | O => Diverge
  | S fuel =>
      if ad <? attrdef_size then
        ad_type ← rd_le32 attrdef (ad + AD_type);
        if ad_type =? 0 then Ret None
        else if ad_type <? type then attrdef_loop fuel attrdef attrdef_size type (ad + ATTR_DEF_size)
        else Ret (if ad_type =? type then Some ad else None)
      else Ret None
  end.

Definition ntfs_attr_find_in_attrdef (attrdef : option (list Z)) (attrdef_size type : Z) : outcome (option Z) :=
  match attrdef with
  | None => Bug
  | Some attrdef =>
      BUG_ON (type =? 0);;
      attrdef_loop (S (Z.to_nat attrdef_size)) attrdef attrdef_size type 0
  end.

Definition ntfs_attr_size_bounds_check (attrdef : option (list Z)) (attrdef_size type size : Z) : outcome Z :=
  BUG_ON (size <? 0);;
  if (type =? AT_ATTRIBUTE_LIST) && (size >? 256 * 1024) then Ret (- ERANGE)
  else
    ad ← ntfs_attr_find_in_attrdef attrdef attrdef_size type;
    match ad, attrdef with
    | Some ad, Some attrdef =>
        min_size ← rd_sle64 attrdef (ad + AD_min_size);
        max_size ← rd_sle64 attrdef (ad + AD_max_size);
        Ret (if ((min_size >? 0) && (size <? min_size)) || ((max_size >? 0) && (size >? max_size))
             then - ERANGE else 0)
    | _, _ => Ret (- ENOENT)
    end.

Definition ntfs_attr_can_be_non_resident (attrdef : option (list Z)) (attrdef_size type : Z) : outcome Z :=
  ad ← ntfs_attr_find_in_attrdef attrdef attrdef_size type;
  match ad, attrdef with
  | Some ad, Some attrdef =>
      flags ← rd_le32 attrdef (ad + AD_flags);
      Ret (if negb (Z.land flags ATTR_DEF_RESIDENT =? 0) then - EPERM else 0)
  | _, _ => Ret (- ENOENT)
  end.

Definition ntfs_attr_can_be_resident (type : Z) : Z :=
  if type =? AT_INDEX_ALLOCATION then - EPERM else 0.

(** ** Resizing attribute records *)

(** [(n + 7) & ~7] on a [u32] *)
Definition align8 (n : Z) : Z := Z.land (u32 (n + 7)) 0xfffffff8.

Definition ntfs_attr_record_resize (m : list Z) (a new_size : Z) : outcome (list Z * Z) :=
  let new_size := if negb (Z.land new_size 7 =? 0) then align8 new_size else new_size in
  a_length ← rd_le32 m (a + A_length);
  if negb (new_size =? a_length) then
    bytes_in_use ← rd_le32 m MFT_bytes_in_use;
    bytes_allocated ← rd_le32 m MFT_bytes_allocated;
    let new_muse := u32 (bytes_in_use - a_length + new_size) in
    if new_muse >? bytes_allocated then Ret (m, - ENOSPC)
    else
      m ← blit m (a + new_size) m (a + a_length) (bytes_in_use - a - a_length);
      m ← wr_le32 m MFT_bytes_in_use new_muse;
      m ← (if new_size >=? A_length + 4 then wr_le32 m (a + A_length) new_size else Ret m);
      Ret (m, 0)
  else Ret (m, 0).

Definition ntfs_resident_attr_value_resize (m : list Z) (a new_size : Z) : outcome (list Z * Z) :=
  value_offset ← rd_le16 m (a + A_value_offset);
  '(m, err) ← ntfs_attr_record_resize m a (u32 (value_offset + new_size));
  if negb (err =? 0) then Ret (m, - ENOSPC)
  else
    old_size ← rd_le32 m (a + A_value_length);
    value_offset ← rd_le16 m (a + A_value_offset);
    m ← (if new_size >? old_size
         then blit m (a + value_offset + old_size) (repeat 0 (Z.to_nat (new_size - old_size))) 0 (new_size - old_size)
         else Ret m);
    m ← wr_le32 m (a + A_value_length) new_size;
    Ret (m, 0).
