(* ===== verification/AttribSpec.v ===== *)
(** * Searching attribute records

    What an mft record holds, the order its attributes are kept in, and the
    refinement of [ntfs_attr_find] to a search in that order. *)

From Stdlib Require Import ZArith Lia Bool.
From stdpp Require Import base list numbers option.
From S2P Require Import Prelude Endian Unistr UnistrTheorems Collate Attrib.

(** ** Attributes and their order *)

Record attr := mk_attr {
  at_type : Z;
  at_length : Z;
  at_name : list Z;
  at_value : option (list Z);   (* [None] when not resident *)
}.

(** What a search looks for. *)
Record key := mk_key { k_type : Z; k_name : list Z; k_val : option (list Z) }.

Definition then_ (c d : comparison) : comparison := match c with Eq => d | _ => c end.

Section Order.
Context (upcase : list Z) (upcase_len : Z).
Let g := map (fold_char IGNORE_CASE upcase upcase_len).

(** Names collate without regard to case first. *)
Definition name_cmp (ic : IGNORE_CASE_BOOL) (n m : list Z) : comparison :=
  then_ (lex (g n) (g m)) (match ic with IGNORE_CASE => Eq | CASE_SENSITIVE => lex n m end).

Definition val_cmp (v : option (list Z)) (a : attr) : comparison :=
  match v with None => Eq | Some v => lex v (default [] (at_value a)) end.

Definition key_cmp (ic : IGNORE_CASE_BOOL) (k : key) (a : attr) : comparison :=
  then_ (k_type k ?= at_type a) (then_ (name_cmp ic (k_name k) (at_name a)) (val_cmp (k_val k) a)).

(** The order of the attributes of a record. *)
Definition attr_cmp (a b : attr) : comparison :=
  key_cmp CASE_SENSITIVE (mk_key (at_type a) (at_name a) (Some (default [] (at_value a)))) b.

Fixpoint attrs_sorted (l : list attr) : Prop :=
  match l with [] => True | a :: l => Forall (fun b => attr_cmp a b <> Gt) l /\ attrs_sorted l end.

(** If [a] does not come after [b], a key that is not behind [a] is not behind
    [b], and a key before [a] is before [b]. *)
Definition mono (c d : comparison) : Prop := (c <> Gt -> d <> Gt) /\ (c = Lt -> d = Lt).

Lemma lex_mono k a b : lex a b <> Gt -> mono (lex k a) (lex k b).
Proof.
  intros H. destruct (lex a b) eqn:E; [apply lex_eq in E as ->; by split| |done].
  destruct (lex k a) eqn:Ek; [apply lex_eq in Ek as ->; rewrite E; by split| |split; done].
  rewrite (lex_trans _ _ _ Ek E). by split.
Qed.

Lemma then_assoc a b c : then_ (then_ a b) c = then_ a (then_ b c).
Proof. by destruct a. Qed.

(** One level of a lexicographic order. *)
Lemma then_mono ab kab ka kb ra rb :
  then_ ab kab <> Gt -> (ab = Lt -> ka <> Gt -> kb = Lt) -> (ab = Eq -> ka = kb /\ (kab <> Gt -> mono ra rb)) ->
  mono (then_ ka ra) (then_ kb rb).
Proof.
  intros H Hlt Heq. destruct ab; cbn in H; [|clear Heq|done].
  - destruct (Heq eq_refl) as [-> Hm]. specialize (Hm H). destruct kb; cbn; [done|by split..].
  - specialize (Hlt eq_refl). destruct ka; cbn; [rewrite Hlt by done; by split..|by split].
Qed.

Lemma lex_lt_mono k a b : lex a b = Lt -> lex k a <> Gt -> lex k b = Lt.
Proof.
  intros E H. destruct (lex k a) eqn:Ek; [apply lex_eq in Ek as ->; done| |done]. exact (lex_trans _ _ _ Ek E).
Qed.

Lemma key_mono ic k a b :
  ic = CASE_SENSITIVE \/ k_val k = None -> attr_cmp a b <> Gt -> mono (key_cmp ic k a) (key_cmp ic k b).
Proof.
  intros Hic H. unfold attr_cmp, key_cmp in *. cbn [k_type k_name k_val] in H.
  eapply then_mono; [exact H| |].
  { intros E Hk. change (at_type a < at_type b) in E. apply Z.compare_lt_iff. revert Hk. destruct (Z.compare_spec (k_type k) (at_type a)); [intros; lia..|done]. }
  intros ->%Z.compare_eq. split; [done|]. clear H. intros H. unfold name_cmp in *.
  destruct ic; [|destruct Hic as [[=]|Hv]].
  - rewrite !then_assoc in *. eapply then_mono; [exact H|apply lex_lt_mono|]. intros ->%lex_eq. split; [done|]. clear H. intros H.
    eapply then_mono; [exact H|apply lex_lt_mono|]. intros ->%lex_eq. split; [done|]. cbn [val_cmp].
    unfold val_cmp. destruct (k_val k); [apply lex_mono|by split].
  - assert (Hk : forall x, val_cmp (k_val k) x = Eq) by (intros x; unfold val_cmp; by rewrite Hv).
    rewrite !Hk, !then_assoc in *. eapply then_mono; [exact H|apply lex_lt_mono|].
    intros ->%lex_eq. by split.
Qed.

(** ** Searching in order *)

(** The first attribute the key is not behind. *)
Fixpoint split_at (ic : IGNORE_CASE_BOOL) (k : key) (l : list attr) : list attr * list attr :=
  match l with
  | [] => ([], [])
  | a :: l' => match key_cmp ic k a with
               | Gt => let '(p, r) := split_at ic k l' in (a :: p, r)
               | _ => ([], l)
               end
  end.

Definition found (ic : IGNORE_CASE_BOOL) (k : key) (r : list attr) : bool :=
  match r with a :: _ => match key_cmp ic k a with Eq => true | _ => false end | [] => false end.

(** In a sorted list that attribute is the first match if there is one, and
    everything from it on does not come before the key. *)
Lemma split_at_sorted ic k l p r :
  ic = CASE_SENSITIVE \/ k_val k = None -> attrs_sorted l -> split_at ic k l = (p, r) ->
  l = p ++ r /\ Forall (fun a => key_cmp ic k a = Gt) p /\ Forall (fun a => key_cmp ic k a <> Gt) r /\
  (found ic k r = true <-> exists a, a ∈ l /\ key_cmp ic k a = Eq).
Proof.
  intros Hic. revert p r. induction l as [|a l IH]; cbn [split_at attrs_sorted]; intros p r Hs E.
  { injection E as <- <-. split_and!; try done; [constructor..|]. cbn. split; [done|]. intros (a & Ha & _). by apply elem_of_nil in Ha. }
  destruct Hs as [Ha Hs]. destruct (key_cmp ic k a) eqn:Ek.
  3:{ destruct (split_at ic k l) as [p' r'] eqn:E'. injection E as <- <-.
      destruct (IH p' r' Hs eq_refl) as (-> & Hp & Hr & Hf). split_and!; [done|by constructor|done|].
      rewrite Hf. split; intros (b & Hb & Eb); exists b; (split; [|done]); [by right|].
      apply elem_of_cons in Hb as [->|Hb]; [congruence|done]. }
  all: injection E as <- <-; split; [done|]; split; [constructor|].
  all: assert (Hl : Forall (fun b => key_cmp ic k b <> Gt) l)
    by (eapply list.Forall_impl; [exact Ha|]; intros b Hb; apply (key_mono ic k a b Hic Hb); congruence).
  all: split; [constructor; [congruence|exact Hl]|]; cbn [found]; rewrite Ek; split; try done.
  - intros _. exists a. split; [by left|done].
  - intros (b & Hb & Eb). apply elem_of_cons in Hb as [->|Hb]; [congruence|].
    rewrite list.Forall_forall in Ha. pose proof (proj2 (key_mono ic k a b Hic (Ha b Hb)) Ek). congruence.
Qed.
End Order.

(** ** Records *)

(** The attribute at offset [off] of the record [mem]. *)
Definition attr_at (mem : list Z) (off : Z) (a : attr) : Prop :=
  rd_le32 mem (off + A_type) = Ret (at_type a) /\ at_type a <> AT_END /\
  rd_le32 mem (off + A_length) = Ret (at_length a) /\ 0 < at_length a /\
  rd_u8 mem (off + A_name_length) = Ret (zlen (at_name a)) /\ Forall char_ok (at_name a) /\
  (exists o rest, rd_le16 mem (off + A_name_offset) = Ret o /\ ntfschars_at mem (off + o) = at_name a ++ rest) /\
  match at_value a with
  | None => True
  | Some v => exists o rest, rd_le16 mem (off + A_value_offset) = Ret o /\
      rd_le32 mem (off + A_value_length) = Ret (zlen v) /\ drop (Z.to_nat (off + o)) mem = v ++ rest
  end.

(** The attributes from offset [off] on, up to the AT_END marker. *)
Fixpoint attrs_at (mem : list Z) (bytes_allocated off : Z) (l : list attr) : Prop :=
  0 <= off <= bytes_allocated /\
  match l with
  | [] => rd_le32 mem (off + A_type) = Ret AT_END
  | a :: l => attr_at mem off a /\ attrs_at mem bytes_allocated (off + at_length a) l
  end.

(** Bytes taken by attributes. *)
Definition total (l : list attr) : Z := fold_right (fun a n => at_length a + n) 0 l.

Definition verdict_of (c : comparison) : verdict := match c with Lt => NotThere | Eq => Match | Gt => Continue end.

Section Find.
Context (upcase : list Z) (upcase_len : Z).
Hypothesis Htab : table_ok upcase upcase_len.

(** A name that can be searched for. *)
Definition search_name (s : list Z) : Prop :=
  name_ok IGNORE_CASE upcase upcase_len s /\ Forall (fun c => c <> 0 /\ fold_char IGNORE_CASE upcase upcase_len c <> 0) s.

Lemma find_name_spec ic name mem off a :
  attr_at mem off a -> (forall s, name = Some s -> search_name s) ->
  find_name upcase upcase_len name (zlen (default [] name)) ic mem off =
    Ret (verdict_of (name_cmp upcase upcase_len ic (default [] name) (at_name a))).
Proof.
  intros (_ & _ & _ & _ & Hnl & Hch & (o & rest & Ho & Hn) & _) Hs. unfold find_name. rewrite Hnl, bind_Ret.
  destruct name as [s|]; cbn [default from_option].
  2:{ unfold name_cmp. destruct (at_name a) as [|x n]; [by destruct ic|]. rewrite zlen_cons. pose proof (zlen_nonneg n).
      destruct (Z.eqb_spec (1 + zlen n) 0); [lia|]. done. }
  destruct (Hs s eq_refl) as ((Hc & Hb & Hfb) & Hz). rewrite Ho, bind_Ret, Hn.
  assert (Hz' : Forall (fun c => fold_char ic upcase upcase_len c <> 0) s).
  { eapply list.Forall_impl; [exact Hz|]. intros c [Hc1 Hc2]. by destruct ic. }
  pose proof (names_equal_spec ic upcase upcase_len s (at_name a) [] rest Htab Hc Hch Hz') as Heq.
  pose proof (collate_names_spec IGNORE_CASE upcase upcase_len Htab 1 s (at_name a) [] rest Hc Hch Hfb Hb) as Hci.
  pose proof (collate_names_spec CASE_SENSITIVE upcase upcase_len Htab 1 s (at_name a) [] rest Hc Hch Hb Hb) as Hcs.
  change (fold_char CASE_SENSITIVE upcase upcase_len) with (fun c : Z => c) in Hcs. rewrite !map_id in Hcs.
  rewrite app_nil_r in Heq, Hci, Hcs. change (id s) with s. rewrite Heq, bind_Ret, Hci, bind_Ret, Hcs, bind_Ret. clear Heq Hci Hcs.
  unfold name_cmp. destruct ic.
  - change (fold_char CASE_SENSITIVE upcase upcase_len) with (fun c : Z => c). rewrite !map_id.
    case_bool_decide as E; [by rewrite E, !(proj2 (lex_eq _ _) eq_refl)|].
    destruct (lex (map _ s) _); cbn; try done. by destruct (lex s (at_name a)).
  - case_bool_decide as E; [by rewrite E, !(proj2 (lex_eq _ _) eq_refl)|].
    destruct (lex (map _ s) _) eqn:El; cbn; try done. by apply lex_eq in El.
Qed.

Lemma find_val_spec val mem off a :
  attr_at mem off a -> (forall v, val = Some v -> is_Some (at_value a)) ->
  find_val val (zlen (default [] val)) mem off = Ret (verdict_of (val_cmp val a)).
Proof.
  intros (_ & _ & _ & _ & _ & _ & _ & Hv) Hs. destruct val as [v|]; [|done]. unfold find_val, val_cmp. cbn [default from_option].
  destruct (Hs v eq_refl) as [w Ew]. rewrite Ew in Hv |- *. destruct Hv as (o & rest & Ho & Hl & Hd).
  rewrite Ho, bind_Ret, Hl, bind_Ret, Hd. change (id v) with v. destruct (memcmp_lex v w [] rest) as (d & E & Hsg).
  rewrite app_nil_r in E. rewrite E, bind_Ret. cbn [default from_option]. change (id w) with w. f_equal. revert Hsg.
  destruct (Z.eqb_spec d 0).
  - destruct (zlen v =? zlen w), (zlen v <? zlen w), (lex v w); cbn; done.
  - destruct (lex v w), (Z.ltb_spec d 0); cbn; try done; lia.
Qed.

(** The loop is a search in order. *)
Lemma attr_find_loop_spec ic k name val ba mem errs first : forall l fuel off p r,
  rd_le32 mem MFT_bytes_allocated = Ret ba -> attrs_at mem ba off l ->
  k = mk_key (k_type k) (default [] name) val -> 0 <= k_type k -> (forall s, name = Some s -> search_name s) ->
  Forall (fun a => forall v, val = Some v -> at_type a = k_type k -> is_Some (at_value a)) l ->
  split_at upcase upcase_len ic k l = (p, r) -> k_type k <> AT_END -> (length l < fuel)%nat -> forall old,
  attr_find_loop upcase upcase_len fuel (k_type k) name (zlen (default [] name)) ic val (zlen (default [] val))
    (mk_find_ctx mem old first errs) off =
    Ret (mk_find_ctx mem (off + total p) first errs, if found upcase upcase_len ic k r then 0 else - ENOENT).
Proof.
  induction l as [|a l IH]; intros fuel off p r Hba Hat Ek Hk Hname Hval Hsp Hend Hf old;
    (destruct fuel as [|fuel]; [cbn in Hf; lia|]); cbn [attr_find_loop ctx_mrec]; destruct Hat as [Hoff Hat];
    rewrite Hba, bind_Ret, (proj2 (Z.ltb_ge off 0)) by lia;
    (destruct (Z.gtb_spec off ba); [lia|]); cbn [orb].
  - rewrite Hat, bind_Ret, Z.eqb_refl, orb_true_r. injection Hsp as <- <-. cbn. by rewrite Z.add_0_r.
  - destruct Hat as [Ha Hrest]. pose proof Ha as (Hty & Hne & Hlen & Hpos & _). rewrite Hty, bind_Ret.
    destruct (Z.eqb_spec (at_type a) AT_END); [done|]. rewrite orb_false_r. cbn [split_at] in Hsp.
    apply list.Forall_cons in Hval as [Hva Hval]. rewrite Hlen.
    assert (Hrec : key_cmp upcase upcase_len ic k a = Gt ->
      attr_find_loop upcase upcase_len fuel (k_type k) name (zlen (default [] name)) ic val (zlen (default [] val))
        (set_attr off (mk_find_ctx mem old first errs)) (off + at_length a) =
      Ret (mk_find_ctx mem (off + total p) first errs, if found upcase upcase_len ic k r then 0 else - ENOENT)).
    { intros Ec. rewrite Ec in Hsp. destruct (split_at upcase upcase_len ic k l) as [p' r'] eqn:E'. injection Hsp as <- <-.
      unfold set_attr. cbn [ctx_mrec ctx_is_first ctx_vol_errors]. cbn [length] in Hf.
      rewrite (IH fuel (off + at_length a) p' r') by (done || lia). cbn [total fold_right]. fold (total p'). do 3 f_equal. lia. }
    assert (Hstop : forall c, key_cmp upcase upcase_len ic k a = c -> c <> Gt ->
      p = [] /\ found upcase upcase_len ic k r = match c with Eq => true | _ => false end).
    { intros c Ec Hc. rewrite Ec in Hsp. destruct c; [| |done]; injection Hsp as <- <-; cbn; by rewrite Ec. }
    destruct (Z.gtb_spec (at_type a) (k_type k)) as [Hgt|Hle].
    { destruct (Hstop Lt) as [-> ->]; [|done|cbn; by rewrite Z.add_0_r].
      unfold key_cmp. by rewrite (proj2 (Z.compare_lt_iff _ _)) by lia. }
    rewrite bind_Ret. destruct (Z.eqb_spec (at_length a) 0); [lia|].
    destruct (Z.eqb_spec (at_type a) (k_type k)) as [Et|Et]; cbn [negb].
    2:{ rewrite bind_Ret. apply Hrec. unfold key_cmp. by rewrite (proj2 (Z.compare_gt_iff _ _)) by lia. }
    rewrite (find_name_spec ic name mem off a Ha Hname), bind_Ret.
    assert (Ec : key_cmp upcase upcase_len ic k a = then_ (name_cmp upcase upcase_len ic (default [] name) (at_name a)) (val_cmp val a)).
    { unfold key_cmp. rewrite Et, Z.compare_refl, Ek. done. }
    destruct (name_cmp upcase upcase_len ic (default [] name) (at_name a)); cbn [then_ verdict_of] in Ec |- *.
    + rewrite (find_val_spec val mem off a Ha) by (intros v Ev; by apply (Hva v)). rewrite bind_Ret.
      destruct (val_cmp val a); cbn [verdict_of]; [| |by apply Hrec];
        (edestruct Hstop as [-> ->]; [exact Ec|done|]); cbn; by rewrite Z.add_0_r.
    + rewrite bind_Ret. edestruct Hstop as [-> ->]; [exact Ec|done|]. cbn. by rewrite Z.add_0_r.
    + rewrite bind_Ret. by apply Hrec.
Qed.

(** Each attribute takes at least a byte. *)
Lemma attrs_at_length mem ba l : forall off, attrs_at mem ba off l -> Z.of_nat (length l) <= ba - off.
Proof.
  induction l as [|a l IH]; intros off [Hoff Hat]; cbn [length]; [lia|]. destruct Hat as [(_ & _ & _ & Hpos & _) Hat].
  specialize (IH _ Hat). lia.
Qed.
End Find.
