(* ===== verification/AttribTheorems.v ===== *)
(** * Properties of attribute records *)

From Stdlib Require Import ZArith Lia Bool.
From stdpp Require Import base list numbers option.
From S2P Require Import Prelude Endian Unistr UnistrTheorems Collate Attrib AttribSpec.

(** The search in terms of the order of the attributes. *)
Lemma attr_find_spec upcase upcase_len ic type name val mem ba off l errs :
  table_ok upcase upcase_len -> rd_le32 mem MFT_bytes_allocated = Ret ba -> attrs_at mem ba off l ->
  attrs_sorted upcase upcase_len l -> 0 <= type -> type <> AT_END ->
  (forall s, name = Some s -> search_name upcase upcase_len s) ->
  Forall (fun a => forall v, val = Some v -> at_type a = type -> is_Some (at_value a)) l ->
  ic = CASE_SENSITIVE \/ val = None ->
  let cmp := key_cmp upcase upcase_len ic (mk_key type (default [] name) val) in
  exists p r err, l = p ++ r /\ Forall (fun a => cmp a = Gt) p /\ Forall (fun a => cmp a <> Gt) r /\
    ntfs_attr_find upcase upcase_len type name (zlen (default [] name)) ic val (zlen (default [] val)) (mk_find_ctx mem off true errs) =
      Ret (mk_find_ctx mem (off + total p) false errs, err) /\
    (err = 0 /\ (exists a r', r = a :: r' /\ cmp a = Eq) \/ err = - ENOENT /\ forall a, a ∈ l -> cmp a <> Eq).
Proof.
  intros Htab Hba Hat Hs Hty Hne Hn Hv Hic cmp. set (k := mk_key type (default [] name) val) in *.
  destruct (split_at upcase upcase_len ic k l) as [p r] eqn:E.
  destruct (split_at_sorted upcase upcase_len ic k l p r Hic Hs E) as (El & Hp & Hr & Hf).
  exists p, r, (if found upcase upcase_len ic k r then 0 else - ENOENT). split; [done|]. split; [done|]. split; [done|].
  split.
  - unfold ntfs_attr_find. cbn [ctx_is_first]. rewrite bind_Ret. unfold set_first. cbn [ctx_mrec ctx_attr ctx_vol_errors].
    rewrite Hba, bind_Ret. pose proof (attrs_at_length mem ba l off Hat) as Hl.
    assert (0 <= off) by (destruct l; destruct Hat; lia).
    apply (attr_find_loop_spec upcase upcase_len Htab ic k name val ba mem errs false l _ off p r); try done.
    unfold find_fuel. lia.
  - destruct (found upcase upcase_len ic k r) eqn:Ef.
    + left. split; [done|]. destruct r as [|a r']; [done|]. cbn in Ef. exists a, r'. split; [done|].
      unfold cmp. destruct (key_cmp upcase upcase_len ic k a); done.
    + right. split; [done|]. intros a Ha Ec. assert (false = true) by (apply Hf; by exists a). done.
Qed.

(** C9: [ntfs_attr_find] in an mft record whose attributes are in order: it
    returns 0 exactly when the record has an attribute of the type, name and
    value searched for, and then @ctx->attr is the first one; otherwise it
    returns -ENOENT and @ctx->attr is the place where such an attribute belongs,
    behind every attribute that comes before it and in front of all others. *)
Theorem attr_find_correct upcase upcase_len ic type name val mem ba off l errs :
  table_ok upcase upcase_len -> rd_le32 mem MFT_bytes_allocated = Ret ba -> attrs_at mem ba off l ->
  attrs_sorted upcase upcase_len l -> 0 <= type -> type <> AT_END ->
  (forall s, name = Some s -> search_name upcase upcase_len s) ->
  Forall (fun a => forall v, val = Some v -> at_type a = type -> is_Some (at_value a)) l ->
  ic = CASE_SENSITIVE \/ val = None ->
  let cmp := key_cmp upcase upcase_len ic (mk_key type (default [] name) val) in
  exists p r err, l = p ++ r /\ Forall (fun a => cmp a = Gt) p /\ Forall (fun a => cmp a <> Gt) r /\
    ntfs_attr_find upcase upcase_len type name (zlen (default [] name)) ic val (zlen (default [] val)) (mk_find_ctx mem off true errs) =
      Ret (mk_find_ctx mem (off + total p) false errs, err) /\
    (err = 0 /\ (exists a r', r = a :: r' /\ cmp a = Eq) \/ err = - ENOENT /\ forall a, a ∈ l -> cmp a <> Eq).
Proof. apply attr_find_spec. Qed.

(** A record with an unnamed attribute and one named "ab". *)
Definition demo_mft : list Z :=
  repeat 0 28 ++ le_split 4 128 ++ repeat 0 16 ++
  (le_split 4 0x10 ++ le_split 4 24 ++ [0; 0] ++ le_split 2 24 ++ repeat 0 8 ++ le_split 2 24 ++ [0; 0]) ++
  (le_split 4 0x80 ++ le_split 4 32 ++ [0; 2] ++ le_split 2 24 ++ repeat 0 8 ++ le_split 2 32 ++ [0; 0] ++ [0x61; 0; 0x62; 0; 0; 0; 0; 0]) ++
  le_split 4 AT_END ++ repeat 0 20.

Definition demo_attrs : list attr := [mk_attr 0x10 24 [] (Some []); mk_attr 0x80 32 [0x61; 0x62] (Some [])].

Lemma demo_attrs_at : attrs_at demo_mft 128 48 demo_attrs.
Proof.
  assert (Hend : rd_le32 demo_mft (48 + 24 + 32 + A_type) = Ret AT_END) by reflexivity.
  assert (H1 : attr_at demo_mft 48 (mk_attr 0x10 24 [] (Some []))).
  { unfold attr_at. cbn [at_type at_length at_name at_value]. do 6 (split; [try (reflexivity || constructor || (vm_compute; discriminate)); lia|]).
    split; [exists 24; eexists; split; reflexivity|]. exists 24; eexists; split_and!; reflexivity. }
  assert (H2 : attr_at demo_mft (48 + 24) (mk_attr 0x80 32 [0x61; 0x62] (Some []))).
  { unfold attr_at. cbn [at_type at_length at_name at_value].
    do 6 (split; [try (reflexivity || (vm_compute; discriminate) || (repeat constructor; unfold char_ok; lia)); lia|]).
    split; [exists 24; eexists; split; reflexivity|]. exists 32; eexists; split_and!; reflexivity. }
  cbn [attrs_at demo_attrs at_length]. split; [lia|]. split; [exact H1|]. split; [lia|]. split; [exact H2|]. split; [lia|exact Hend].
Qed.

Lemma attr_find_correct_witness :
  exists c, ntfs_attr_find [] 0 0x80 (Some [0x61; 0x62]) 2 CASE_SENSITIVE None 0 (mk_find_ctx demo_mft 48 true false) = Ret (c, 0) /\
    ctx_attr c = 72.
Proof.
  destruct (attr_find_correct [] 0 CASE_SENSITIVE 0x80 (Some [0x61; 0x62]) None demo_mft 128 48 demo_attrs false)
    as (p & r & err & El & Hp & Hr & E & Hres).
  - split; [vm_compute; discriminate|constructor].
  - reflexivity.
  - exact demo_attrs_at.
  - cbn [attrs_sorted demo_attrs]. repeat constructor; vm_compute; discriminate.
  - lia.
  - vm_compute. discriminate.
  - intros s [= <-]. unfold search_name, name_ok, char_ok. split_and!; repeat constructor; (reflexivity || (vm_compute; discriminate) || lia).
  - repeat constructor; discriminate.
  - by left.
  - destruct Hres as [[-> (a & r' & -> & Ha)]|[-> Hn]].
    + eexists. split; [exact E|]. cbn [ctx_attr].
      destruct p as [|x [|y p]]; cbn in El; injection El; intros; subst; [vm_compute in Ha; discriminate|reflexivity|].
      destruct p; discriminate.
    + exfalso. apply (Hn (mk_attr 0x80 32 [0x61; 0x62] (Some []))); [right; left|reflexivity].
Defined.

(** ** Resizing *)

Lemma align8_spec n : 0 <= n <= 0x7fffffff ->
  (if negb (Z.land n 7 =? 0) then align8 n else n) = (n + 7) / 8 * 8.
Proof.
  intros Hn. assert (H7 : Z.land n 7 = n mod 8) by (change 7 with (Z.ones 3); by rewrite Z.land_ones by lia).
  pose proof (Z.div_mod n 8 ltac:(done)). pose proof (Z.mod_pos_bound n 8 ltac:(done)).
  rewrite H7. destruct (Z.eqb_spec (n mod 8) 0) as [E|E]; cbn [negb].
  - replace (n + 7) with (7 + n / 8 * 8) by lia. rewrite Z.div_add by lia. change (7 / 8) with 0. lia.
  - unfold align8. rewrite u32_id by lia. set (x := n + 7). assert (Hx : 0 <= x < 2 ^ 32) by (change (2 ^ 32) with 0x100000000; lia).
    replace (x / 8 * 8) with (Z.shiftl (Z.shiftr x 3) 3) by (rewrite Z.shiftl_mul_pow2, Z.shiftr_div_pow2 by lia; done).
    change 0xfffffff8 with (Z.shiftl (Z.ones 29) 3). apply Z.bits_inj'. intros j Hj.
    rewrite Z.land_spec, !Z.shiftl_spec by lia. destruct (Z.ltb_spec j 3).
    + rewrite (Z.testbit_neg_r (Z.ones 29)), (Z.testbit_neg_r (Z.shiftr x 3)) by lia. apply andb_false_r.
    + rewrite Z.shiftr_spec by lia. replace (j - 3 + 3) with j by lia. destruct (Z.ltb_spec j 32).
      * rewrite Z.ones_spec_low by lia. apply andb_true_r.
      * assert (Hb : Z.testbit x j = false).
        { destruct (Z.eq_dec x 0) as [->|]; [apply Z.bits_0|]. apply Z.bits_above_log2; [lia|].
          pose proof (proj1 (Z.log2_lt_pow2 x 32 ltac:(lia)) ltac:(lia)). lia. }
        by rewrite Hb.
Qed.

(** A record: the header with @bytes_in_use, the attributes before the one of
    interest, that one, the ones behind it and the unused rest. *)
Definition record (h1 h2 : list Z) (use alloc : Z) (A T S : list Z) : list Z :=
  h1 ++ le_split 4 use ++ le_split 4 alloc ++ h2 ++ A ++ T ++ S.

Lemma le_combine_4 z : 0 <= z < 0x100000000 -> le_combine (le_split 4 z) = z.
Proof. intros. rewrite le_combine_split. apply Z.mod_small. change (2 ^ (8 * Z.of_nat 4)) with 0x100000000. lia. Qed.

Lemma rd_le32_at mem pre z post off :
  mem = pre ++ le_split 4 z ++ post -> off = zlen pre -> 0 <= z < 0x100000000 -> rd_le32 mem off = Ret z.
Proof.
  intros Hm Ho Hz. unfold rd_le32. rewrite (rd_bytes_at 4 mem pre _ post off Hm Ho), bind_Ret by apply length_le_split.
  by rewrite le_combine_4.
Qed.

Lemma wr_le32_at mem pre old post off z :
  mem = pre ++ old ++ post -> off = zlen pre -> zlen old = 4 -> wr_le32 mem off z = Ret (pre ++ le_split 4 z ++ post).
Proof. intros Hm Ho Hz. unfold wr_le32. eapply wr_bytes_at; [exact Hm|exact Ho|]. by rewrite zlen_le_split. Qed.

(** What moving the attributes behind [A] leaves of its [n] bytes. *)
Definition resized (n : Z) (A T S : list Z) : list Z :=
  let R := take (Z.to_nat n) (A ++ T ++ S) in
  if n >=? 8 then take 4 R ++ le_split 4 n ++ drop 8 R else R.

Lemma record_resize_spec h1 h2 use alloc A0 A1 T S n len :
  let A := A0 ++ le_split 4 (zlen A0 + 4 + zlen A1) ++ A1 in
  let m := record h1 h2 use alloc A T S in
  let n8 := (n + 7) / 8 * 8 in
  zlen h1 = 24 -> zlen A0 = 4 -> len = zlen A -> 0 <= n <= 0x7fffffff -> zlen m <= alloc < 0x80000000 ->
  use = zlen h1 + 8 + zlen h2 + zlen A + zlen T -> alloc <= zlen m ->
  ntfs_attr_record_resize m (32 + zlen h2) n =
    if n8 =? len then Ret (m, 0)
    else if use - len + n8 >? alloc then Ret (m, - ENOSPC)
    else Ret (record h1 h2 (use - len + n8) alloc (resized n8 A T S) T
               (drop (Z.to_nat (n8 + zlen T)) (A ++ T ++ S)), 0).
Proof.
  intros A m n8 Hh1 HA0 Hlen Hn Hm Huse Hal. unfold ntfs_attr_record_resize. rewrite align8_spec by lia. fold n8.
  assert (Hn8 : 0 <= n8 <= n + 7) by (unfold n8; pose proof (Z.div_mod (n + 7) 8 ltac:(done)); pose proof (Z.mod_pos_bound (n + 7) 8 ltac:(done)); lia).
  assert (HzA : zlen A = 8 + zlen A1) by (unfold A; rewrite !zlen_app, zlen_le_split; lia).
  assert (Hzm : zlen m = 32 + zlen h2 + zlen A + zlen T + zlen S) by (unfold m, record; rewrite !zlen_app, !zlen_le_split; lia).
  pose proof (zlen_nonneg h2). pose proof (zlen_nonneg A1). pose proof (zlen_nonneg T). pose proof (zlen_nonneg S). pose proof (zlen_nonneg h2).
  rewrite (rd_le32_at m (h1 ++ le_split 4 use ++ le_split 4 alloc ++ h2 ++ A0) len (A1 ++ T ++ S) (32 + zlen h2 + A_length)).
  2:{ unfold m, record, A. rewrite Hlen, HzA, HA0, <- !app_assoc. replace (4 + 4 + zlen A1) with (8 + zlen A1) by lia. done. }
  2:{ rewrite !zlen_app, !zlen_le_split. unfold A_length. lia. }
  2:{ lia. }
  rewrite bind_Ret. destruct (Z.eqb_spec n8 len); cbn [negb]; [done|].
  rewrite (rd_le32_at m h1 use (le_split 4 alloc ++ h2 ++ A ++ T ++ S) MFT_bytes_in_use) by (done || lia). rewrite bind_Ret.
  rewrite (rd_le32_at m (h1 ++ le_split 4 use) alloc (h2 ++ A ++ T ++ S) MFT_bytes_allocated);
    [|unfold m, record; by rewrite <- app_assoc|rewrite zlen_app, zlen_le_split; unfold MFT_bytes_allocated; lia|lia].
  rewrite bind_Ret, u32_id by lia. destruct (Z.gtb_spec (use - len + n8) alloc); [done|].
  set (P := h1 ++ le_split 4 use ++ le_split 4 alloc ++ h2).
  assert (HzP : zlen P = 32 + zlen h2) by (unfold P; rewrite !zlen_app, !zlen_le_split; lia).
  set (R := A ++ T ++ S) in *. assert (HzR : zlen R = zlen A + zlen T + zlen S) by (unfold R; zlen_lia).
  assert (Em : m = P ++ R) by (unfold m, record, P; by rewrite <- !app_assoc).
  set (X := take (Z.to_nat n8) R). set (S' := drop (Z.to_nat (n8 + zlen T)) R).
  assert (HzX : zlen X = n8) by (unfold X, zlen in *; rewrite length_take; lia).
  rewrite (blit_eq m (32 + zlen h2 + n8) m (32 + zlen h2 + len) (use - (32 + zlen h2) - len)
    (P ++ X) (take (length T) (drop (Z.to_nat n8) R)) S' (P ++ A) T S); cycle 1.
  { rewrite Em, <- app_assoc. f_equal. unfold X, S'. replace (Z.to_nat (n8 + zlen T)) with (Z.to_nat n8 + length T)%nat by (unfold zlen; lia).
    by rewrite <- drop_drop, (take_drop (length T)), take_drop. }
  { rewrite Em. unfold R. by rewrite <- app_assoc. }
  { zlen_lia. }
  { zlen_lia. }
  { unfold zlen in *. rewrite length_take, length_drop. lia. }
  { lia. }
  rewrite bind_Ret. rewrite (wr_le32_at _ h1 (le_split 4 use) (le_split 4 alloc ++ h2 ++ X ++ T ++ S'));
    [|unfold P; by rewrite <- !app_assoc|done|by rewrite zlen_le_split].
  rewrite bind_Ret. unfold record, resized. fold R. fold X. change (A_length + 4) with 8.
  destruct (Z.geb_spec n8 8); [|done].
  rewrite (wr_le32_at _ (h1 ++ le_split 4 (use - len + n8) ++ le_split 4 alloc ++ h2 ++ take 4 X) (take 4 (drop 4 X)) (drop 8 X ++ T ++ S')), bind_Ret.
  - rewrite <- !app_assoc. done.
  - rewrite <- !app_assoc. do 4 f_equal. rewrite !app_assoc. do 2 f_equal.
    rewrite <- app_assoc. replace (drop 8 X) with (drop 4 (drop 4 X)) by (by rewrite drop_drop). by rewrite !take_drop.
  - rewrite !zlen_app, !zlen_le_split. unfold zlen in *. rewrite length_take. unfold A_length. lia.
  - unfold zlen in *. rewrite length_take, length_drop. lia.
Qed.

(** [ntfs_attr_record_resize] rounds the new size up to eight bytes; when
    the record has no room it returns -ENOSPC and changes nothing; otherwise the
    attributes behind the one resized are moved unchanged to its new end, the
    attribute keeps its bytes up to the smaller of both sizes apart from its
    length field, which holds the new size, and only @bytes_in_use of the header
    changes. *)
Theorem record_resize_correct h1 h2 use alloc A0 A1 T S n :
  let A := A0 ++ le_split 4 (zlen A0 + 4 + zlen A1) ++ A1 in
  let m := record h1 h2 use alloc A T S in
  let n8 := (n + 7) / 8 * 8 in
  zlen h1 = 24 -> zlen A0 = 4 -> 0 < n <= 0x7fffffff -> zlen m = alloc -> alloc < 0x80000000 ->
  use = zlen h1 + 8 + zlen h2 + zlen A + zlen T ->
  let res := ntfs_attr_record_resize m (32 + zlen h2) n in
  (use - zlen A + n8 > alloc -> n8 <> zlen A -> res = Ret (m, - ENOSPC)) /\
  (use - zlen A + n8 <= alloc -> exists A' S',
     res = Ret (record h1 h2 (use - zlen A + n8) alloc (A0 ++ le_split 4 n8 ++ A') T S', 0) /\ 8 + zlen A' = n8 /\
     zlen A' + zlen S' = zlen A1 + zlen S /\ forall i, (i < length A')%nat -> (i < length A1)%nat -> A' !! i = A1 !! i).
Proof.
  intros A m n8 Hh1 HA0 Hn Hm Hal Huse res.
  pose proof (record_resize_spec h1 h2 use alloc A0 A1 T S n (zlen A) Hh1 HA0 eq_refl ltac:(lia)) as Hs. cbv zeta in Hs.
  fold A in Hs. fold m in Hs. specialize (Hs ltac:(lia) Huse ltac:(lia)). fold n8 in Hs. fold res in Hs.
  assert (HzA : zlen A = 8 + zlen A1) by (unfold A; rewrite !zlen_app, zlen_le_split; lia).
  assert (Hzm : zlen m = 32 + zlen h2 + zlen A + zlen T + zlen S) by (unfold m, record; rewrite !zlen_app, !zlen_le_split; lia).
  assert (Hn8 : 8 <= n8) by (unfold n8; pose proof (Z.div_mod (n + 7) 8 ltac:(done)); pose proof (Z.mod_pos_bound (n + 7) 8 ltac:(done)); lia).
  rewrite Hs. clear Hs. split.
  { intros Hgt Hne. destruct (Z.eqb_spec n8 (zlen A)); [done|]. by destruct (Z.gtb_spec (use - zlen A + n8) alloc); [|lia]. }
  intros Hle. destruct (Z.eqb_spec n8 (zlen A)) as [E|E].
  { exists A1, S. rewrite E. split_and!; try done. unfold m.
    replace (use - zlen A + zlen A) with use by lia. unfold A at 1. replace (zlen A0 + 4 + zlen A1) with (zlen A) by lia. done. }
  destruct (Z.gtb_spec (use - zlen A + n8) alloc); [lia|]. set (R := A1 ++ T ++ S).
  pose proof (zlen_nonneg T). pose proof (zlen_nonneg S). pose proof (zlen_nonneg A1).
  assert (HzR : zlen R = zlen A1 + zlen T + zlen S) by (unfold R; zlen_lia).
  exists (take (Z.to_nat (n8 - 8)) R), (drop (Z.to_nat (n8 + zlen T)) (A ++ T ++ S)).
  assert (ER : take (Z.to_nat n8) (A ++ T ++ S) = (A0 ++ le_split 4 (zlen A0 + 4 + zlen A1)) ++ take (Z.to_nat (n8 - 8)) R).
  { unfold A, R. rewrite <- !app_assoc, (app_assoc A0), take_app, take_ge.
    - rewrite length_app, length_le_split. unfold zlen in HA0.
      replace (Z.to_nat n8 - (length A0 + 4))%nat with (Z.to_nat (n8 - 8)) by lia. by rewrite <- app_assoc.
    - rewrite length_app, length_le_split. unfold zlen in HA0. lia. }
  split; [|split_and!].
  - unfold resized. rewrite ER. destruct (Z.geb_spec n8 8); [|lia]. do 3 f_equal.
    assert (HlA : length A0 = 4%nat) by (unfold zlen in HA0; lia).
    replace 8%nat with (length (A0 ++ le_split 4 (zlen A0 + 4 + zlen A1))) by (rewrite length_app, length_le_split; lia).
    rewrite drop_app_length, <- !app_assoc. by rewrite <- HlA, take_app_length.
  - unfold zlen in *. rewrite length_take. lia.
  - unfold zlen in *. rewrite length_take, length_drop, !length_app. lia.
  - intros i H1i H2i. rewrite length_take in H1i. rewrite lookup_take_lt by lia. unfold R. by rewrite lookup_app_l.
Qed.

Lemma record_resize_correct_witness :
  let m := record (repeat 7 24) [] 56 72 ([1; 2; 3; 4] ++ le_split 4 16 ++ repeat 5 8) (repeat 9 8) (repeat 0 16) in
  exists A' S', ntfs_attr_record_resize m 32 20 =
    Ret (record (repeat 7 24) [] 64 72 ([1; 2; 3; 4] ++ le_split 4 24 ++ A') (repeat 9 8) S', 0).
Proof.
  destruct (record_resize_correct (repeat 7 24) [] 56 72 [1; 2; 3; 4] (repeat 5 8) (repeat 9 8) (repeat 0 16) 20)
    as [_ Hok]; [done|done|lia|done|lia|done|].
  destruct Hok as (A' & S' & E & _); [vm_compute; discriminate|]. exists A', S'. exact E.
Defined.

(** The value resized to [n] bytes. *)
Definition resize_value (n : Z) (V : list Z) : list Z :=
  take (Z.to_nat n) V ++ repeat 0 (Z.to_nat (n - zlen V)).

(** Clearing the new part of the value and storing its length. *)
Lemma value_fill (P Y post : list Z) hdr B V C vo new :
  zlen hdr = 8 -> zlen B = 8 -> vo = 22 + zlen C -> 0 <= new <= zlen Y -> 0 <= vo < 0x10000 -> zlen V < 0x100000000 ->
  (forall i, (i < Z.to_nat new)%nat -> (i < length V)%nat -> Y !! i = V !! i) ->
  let attr z Y := hdr ++ B ++ le_split 4 z ++ le_split 2 vo ++ C ++ Y in
  (old_size ← rd_le32 (P ++ attr (zlen V) Y ++ post) (zlen P + A_value_length);
   value_offset ← rd_le16 (P ++ attr (zlen V) Y ++ post) (zlen P + A_value_offset);
   m ← (if new >? old_size
        then blit (P ++ attr (zlen V) Y ++ post) (zlen P + value_offset + old_size) (repeat 0 (Z.to_nat (new - old_size))) 0 (new - old_size)
        else Ret (P ++ attr (zlen V) Y ++ post));
   m ← wr_le32 m (zlen P + A_value_length) new;
   Ret (m, 0)) = Ret (P ++ attr new (resize_value new V ++ drop (Z.to_nat new) Y) ++ post, 0).
Proof.
  intros Hh HB Hvo Hnew Hvo2 HzV HY attr. pose proof (zlen_nonneg V). unfold attr.
  rewrite (rd_le32_at _ (P ++ hdr ++ B) (zlen V) (le_split 2 vo ++ C ++ Y ++ post));
    [|by rewrite <- !app_assoc|unfold A_value_length; zlen_lia|lia]. rewrite bind_Ret.
  unfold rd_le16. rewrite (rd_bytes_at 2 _ (P ++ hdr ++ B ++ le_split 4 (zlen V)) (le_split 2 vo) (C ++ Y ++ post));
    [|by rewrite <- !app_assoc|rewrite !zlen_app, zlen_le_split; unfold A_value_offset; lia|apply length_le_split].
  rewrite !bind_Ret. replace (le_combine (le_split 2 vo)) with vo.
  2:{ rewrite le_combine_split. symmetry. apply Z.mod_small. change (2 ^ (8 * Z.of_nat 2)) with 0x10000. lia. }
  assert (Hfin : forall Y', Y' = resize_value new V ++ drop (Z.to_nat new) Y ->
    (m ← wr_le32 (P ++ (hdr ++ B ++ le_split 4 (zlen V) ++ le_split 2 vo ++ C ++ Y') ++ post) (zlen P + A_value_length) new; Ret (m, 0)) =
    Ret (P ++ (hdr ++ B ++ le_split 4 new ++ le_split 2 vo ++ C ++ resize_value new V ++ drop (Z.to_nat new) Y) ++ post, 0)).
  { intros Y' ->. rewrite (wr_le32_at _ (P ++ hdr ++ B) (le_split 4 (zlen V)) (le_split 2 vo ++ C ++ (resize_value new V ++ drop (Z.to_nat new) Y) ++ post));
      [|by rewrite <- !app_assoc|unfold A_value_length; zlen_lia|by rewrite zlen_le_split].
    rewrite bind_Ret. by rewrite <- !app_assoc. }
  assert (Htk : forall k, (k <= Z.to_nat new)%nat -> (k <= length V)%nat -> take k Y = take k V).
  { intros k Hk1 Hk2. apply list_eq. intros i. destruct (decide (i < k)%nat).
    - rewrite !lookup_take_lt by lia. apply HY; lia.
    - rewrite !lookup_take_ge by lia. done. }
  destruct (Z.gtb_spec new (zlen V)).
  - rewrite (blit_eq _ _ _ _ _ (P ++ hdr ++ B ++ le_split 4 (zlen V) ++ le_split 2 vo ++ C ++ V)
      (take (Z.to_nat (new - zlen V)) (drop (length V) Y)) (drop (Z.to_nat new) Y ++ post) [] (repeat 0 (Z.to_nat (new - zlen V))) []).
    + rewrite bind_Ret. erewrite <- (Hfin (V ++ repeat 0 (Z.to_nat (new - zlen V)) ++ drop (Z.to_nat new) Y)).
      * by rewrite <- !app_assoc.
      * unfold resize_value. rewrite take_ge by (unfold zlen in *; lia). by rewrite <- app_assoc.
    + rewrite <- !app_assoc. do 6 f_equal. rewrite <- (take_drop (length V) Y) at 1.
      rewrite (Htk (length V)) by (unfold zlen in *; lia). rewrite firstn_all, <- app_assoc. f_equal.
      replace (Z.to_nat new) with (length V + Z.to_nat (new - zlen V))%nat by (unfold zlen in *; lia).
      by rewrite <- drop_drop, app_assoc, take_drop.
    + by rewrite app_nil_r.
    + rewrite !zlen_app, !zlen_le_split. lia.
    + done.
    + unfold zlen in *. rewrite length_take, length_drop. lia.
    + unfold zlen in *. rewrite repeat_length. lia.
  - rewrite bind_Ret. apply Hfin. unfold resize_value. replace (Z.to_nat (new - zlen V)) with 0%nat by lia. cbn [repeat].
    rewrite app_nil_r, <- (Htk (Z.to_nat new)) by (unfold zlen in *; lia). by rewrite take_drop.
Qed.

(** The attribute record of a resident attribute, with the value and the padding
    behind it. *)
Definition value_attr (ty B C : list Z) (len z : Z) (V : list Z) : list Z :=
  ty ++ le_split 4 len ++ B ++ le_split 4 z ++ le_split 2 (22 + zlen C) ++ C ++ V.

(** What follows a change of the record: the new value is filled up with zeroes. *)
Lemma value_finish h1 h2 use alloc ty B C V Y T S n8 new :
  let vo := 22 + zlen C in
  zlen h1 = 24 -> zlen ty = 4 -> zlen B = 8 -> 0 <= new -> vo + new <= 0x7fffffff -> vo < 0x10000 ->
  zlen V < 0x100000000 -> new <= zlen Y -> zlen Y = n8 - vo ->
  (forall i, (i < Z.to_nat new)%nat -> (i < length V)%nat -> Y !! i = V !! i) ->
  exists pad' S', ('(m, err) ← Ret (record h1 h2 use alloc (value_attr ty B C n8 (zlen V) Y) T S, 0);
    if negb (err =? 0) then Ret (m, - ENOSPC)
    else
      old_size ← rd_le32 m (32 + zlen h2 + A_value_length);
      value_offset ← rd_le16 m (32 + zlen h2 + A_value_offset);
      m ← (if new >? old_size
           then blit m (32 + zlen h2 + value_offset + old_size) (repeat 0 (Z.to_nat (new - old_size))) 0 (new - old_size)
           else Ret m);
      m ← wr_le32 m (32 + zlen h2 + A_value_length) new;
      Ret (m, 0)) =
    Ret (record h1 h2 use alloc (value_attr ty B C n8 new (resize_value new V ++ pad')) T S', 0) /\ vo + new + zlen pad' = n8.
Proof.
  intros vo Hh1 Hty HB Hnew Hn Hvo HV HY1 HY2 HY3. pose proof (zlen_nonneg C).
  exists (drop (Z.to_nat new) Y), S. split; [|unfold zlen in *; rewrite length_drop; lia].
  rewrite bind_Ret. cbn [Z.eqb negb]. set (P' := h1 ++ le_split 4 use ++ le_split 4 alloc ++ h2).
  assert (HP' : zlen P' = 32 + zlen h2) by (unfold P'; rewrite !zlen_app, !zlen_le_split; lia).
  pose proof (value_fill P' Y (T ++ S) (ty ++ le_split 4 n8) B V C vo new) as Hv. cbv zeta in Hv. rewrite HP' in Hv.
  unfold record, value_attr. unfold P' in Hv. rewrite <- !app_assoc in Hv. rewrite <- !app_assoc. unfold vo in *.
  rewrite Hv; try done; try lia; rewrite ?zlen_app, ?zlen_le_split, <- ?app_assoc; try lia; done.
Qed.

(** The bytes of the record when its length changes. *)
Lemma value_resized ty B C V pad T S len n8 :
  let Y := take (Z.to_nat (n8 - (22 + zlen C))) ((V ++ pad) ++ T ++ S) in
  zlen ty = 4 -> zlen B = 8 -> 22 + zlen C <= n8 ->
  resized n8 (value_attr ty B C len (zlen V) (V ++ pad)) T S = value_attr ty B C n8 (zlen V) Y.
Proof.
  intros Y Hty HB Hn8. pose proof (zlen_nonneg C). set (Q := (V ++ pad) ++ T ++ S) in *.
  set (HD := B ++ le_split 4 (zlen V) ++ le_split 2 (22 + zlen C) ++ C).
  assert (HzHD : length HD = Z.to_nat (22 + zlen C - 8)) by (unfold HD, zlen in *; rewrite !length_app, !length_le_split; lia).
  assert (Hlt : length ty = 4%nat) by (unfold zlen in Hty; lia).
  unfold resized. destruct (Z.geb_spec n8 8); [|lia].
  replace (value_attr ty B C len (zlen V) (V ++ pad) ++ T ++ S) with ((ty ++ le_split 4 len) ++ HD ++ Q)
    by (unfold value_attr, HD, Q; by rewrite <- !app_assoc).
  assert (Et : take (Z.to_nat n8) ((ty ++ le_split 4 len) ++ HD ++ Q) = (ty ++ le_split 4 len) ++ HD ++ Y).
  { rewrite app_assoc, take_app, take_ge by (rewrite !length_app, length_le_split; lia).
    rewrite <- app_assoc. do 3 f_equal. unfold Y. f_equal. rewrite !length_app, length_le_split. lia. }
  rewrite Et. clear Et.
  replace (take 4 _) with ty by (rewrite <- Hlt, <- !app_assoc; by rewrite take_app_length).
  replace 8%nat with (length (ty ++ le_split 4 len)) by (rewrite length_app, length_le_split; lia).
  rewrite drop_app_length. unfold value_attr, HD. by rewrite <- !app_assoc.
Qed.

(** [ntfs_resident_attr_value_resize]: when there is no room it returns
    -ENOSPC and the record is unchanged; otherwise the value keeps its bytes up
    to the smaller of both lengths, the bytes added are zero, the length fields of
    the attribute and @bytes_in_use are those of the new value, and the
    attributes behind it follow unchanged. *)
Theorem value_resize_correct h1 h2 use alloc ty B C V pad T S new :
  let vo := 22 + zlen C in
  let attr := value_attr ty B C in
  let len := vo + zlen V + zlen pad in
  let m := record h1 h2 use alloc (attr len (zlen V) (V ++ pad)) T S in
  let n8 := (vo + new + 7) / 8 * 8 in
  zlen h1 = 24 -> zlen ty = 4 -> zlen B = 8 -> 0 <= new -> vo + new <= 0x7fffffff -> vo < 0x10000 ->
  zlen m = alloc -> alloc < 0x80000000 -> use = zlen h1 + 8 + zlen h2 + len + zlen T ->
  let res := ntfs_resident_attr_value_resize m (32 + zlen h2) new in
  (use - len + n8 > alloc -> n8 <> len -> res = Ret (m, - ENOSPC)) /\
  (use - len + n8 <= alloc -> exists pad' S',
     res = Ret (record h1 h2 (use - len + n8) alloc (attr n8 new (resize_value new V ++ pad')) T S', 0) /\
     vo + new + zlen pad' = n8).
Proof.
  intros vo attr len m n8 Hh1 Hty HB Hnew Hn Hvo Hm Hal Huse res.
  pose proof (zlen_nonneg C). pose proof (zlen_nonneg V). pose proof (zlen_nonneg pad). pose proof (zlen_nonneg T). pose proof (zlen_nonneg S). pose proof (zlen_nonneg h2).
  set (A1 := B ++ le_split 4 (zlen V) ++ le_split 2 vo ++ C ++ V ++ pad).
  assert (HzA1 : zlen A1 = len - 8) by (unfold A1, len, vo; rewrite !zlen_app, !zlen_le_split; lia).
  assert (Ea : attr len (zlen V) (V ++ pad) = ty ++ le_split 4 (zlen ty + 4 + zlen A1) ++ A1)
    by (unfold attr, value_attr, A1; do 2 f_equal; f_equal; fold A1; lia).
  assert (HzA : zlen (attr len (zlen V) (V ++ pad)) = len) by (rewrite Ea, !zlen_app, zlen_le_split; lia).
  assert (Hzm : zlen m = 32 + zlen h2 + len + zlen T + zlen S) by (unfold m, record; rewrite !zlen_app, HzA, !zlen_le_split; lia).
  assert (Hn8 : vo + new <= n8 <= vo + new + 7) by (unfold n8; pose proof (Z.div_mod (vo + new + 7) 8 ltac:(done)); pose proof (Z.mod_pos_bound (vo + new + 7) 8 ltac:(done)); lia).
  pose proof (record_resize_spec h1 h2 use alloc ty A1 T S (vo + new) len Hh1 Hty) as Hs. cbv zeta in Hs. rewrite <- Ea in Hs. fold m in Hs. fold n8 in Hs.
  specialize (Hs ltac:(lia) ltac:(lia) ltac:(lia) ltac:(lia) ltac:(lia)).
  set (P := h1 ++ le_split 4 use ++ le_split 4 alloc ++ h2).
  assert (Hrd : rd_le16 m (32 + zlen h2 + A_value_offset) = Ret vo).
  { unfold rd_le16. rewrite (rd_bytes_at 2 _ (P ++ ty ++ le_split 4 len ++ B ++ le_split 4 (zlen V)) (le_split 2 vo) (C ++ (V ++ pad) ++ T ++ S)).
    - rewrite bind_Ret, le_combine_split. f_equal. apply Z.mod_small. change (2 ^ (8 * Z.of_nat 2)) with 0x10000. lia.
    - unfold m, record, attr, value_attr, P. by rewrite <- !app_assoc.
    - unfold P. rewrite !zlen_app, !zlen_le_split. unfold A_value_offset. lia.
    - apply length_le_split. }
  unfold res, ntfs_resident_attr_value_resize. rewrite Hrd, bind_Ret, u32_id by lia. rewrite Hs. clear Hs Hrd. split.
  { intros Hgt Hne. destruct (Z.eqb_spec n8 len); [done|]. by destruct (Z.gtb_spec (use - len + n8) alloc); [|lia]. }
  intros Hle. destruct (Z.eqb_spec n8 len) as [E|E].
  - replace m with (record h1 h2 (use - len + n8) alloc (attr n8 (zlen V) (V ++ pad)) T S) by (unfold m; rewrite E; f_equal; lia).
    apply value_finish; try done; rewrite ?zlen_app; try lia. intros i _ Hi. by rewrite lookup_app_l.
  - destruct (Z.gtb_spec (use - len + n8) alloc); [lia|]. unfold attr at 1. rewrite value_resized by (done || lia).
    assert (HQ : zlen ((V ++ pad) ++ T ++ S) = zlen V + zlen pad + zlen T + zlen S) by zlen_lia.
    apply value_finish; try done; try lia; [unfold zlen in *; rewrite length_take; lia..|].
    intros i Hi1 Hi2. rewrite lookup_take_lt by lia. rewrite lookup_app_l by (rewrite length_app; lia). by rewrite lookup_app_l.
Qed.

Lemma value_resize_correct_witness :
  let attr len z V := [0x10; 0; 0; 0] ++ le_split 4 len ++ repeat 0 8 ++ le_split 4 z ++ le_split 2 24 ++ [0; 0] ++ V in
  let m := record (repeat 7 24) [] 72 104 (attr 32 5 ([1; 2; 3; 4; 5] ++ [9; 9; 9])) (repeat 9 8) (repeat 0 32) in
  exists pad' S', ntfs_resident_attr_value_resize m 32 12 =
    Ret (record (repeat 7 24) [] 80 104 (attr 40 12 ([1; 2; 3; 4; 5; 0; 0; 0; 0; 0; 0; 0] ++ pad')) (repeat 9 8) S', 0).
Proof.
  destruct (value_resize_correct (repeat 7 24) [] 72 104 [0x10; 0; 0; 0] (repeat 0 8) [0; 0] [1; 2; 3; 4; 5] [9; 9; 9] (repeat 9 8) (repeat 0 32) 12)
    as [_ Hok]; try (vm_compute; congruence).
  destruct Hok as (pad' & S' & E & _); [vm_compute; discriminate|]. exists pad', S'. exact E.
Defined.
