(* ===== verification/Time.v ===== *)
(** * NTFS time

    Models [src/ntfs/time.h].  [time_t] and [long] are 64 bits wide. *)

From Stdlib Require Import ZArith Lia Bool.
From stdpp Require Import base list numbers option.
From S2P Require Import Prelude Endian.

Record timespec := mk_ts { tv_sec : Z; tv_nsec : Z }.

Definition NTFS_TIME_OFFSET : Z := (369 * 365 + 89) * 24 * 3600 * 10000000.

(** C division truncates towards zero. *)
Definition utc2ntfs (ts : timespec) : Z :=
  cpu_to_sle64 (s64 (s64 (s64 (tv_sec ts * 10000000) + Z.quot (tv_nsec ts) 100) + NTFS_TIME_OFFSET)).

(** [get_current_ntfs_time]: the clock is an argument. *)
Definition get_current_ntfs_time (current_kernel_time : timespec) : Z := utc2ntfs current_kernel_time.

(** [do_div(t, 10000000)] leaves the quotient in [t] and returns the remainder. *)
Definition ntfs2utc (time : Z) : timespec :=
  let t := u64 (s64 (sle64_to_cpu time - NTFS_TIME_OFFSET)) in
  mk_ts (s64 (t / 10000000)) (t mod 10000000 * 100).

(** A time that both formats can express: not before 1970 and before the last
    NTFS time. *)
Definition time_ok (ts : timespec) : Prop :=
  0 <= tv_sec ts <= 910692730084 /\ 0 <= tv_nsec ts < 1000000000.

(** Converting a Linux time to NTFS time and back keeps the seconds and
    rounds the nano-seconds down to the 100ns granularity of NTFS. *)
Theorem utc_ntfs_roundtrip ts :
  time_ok ts -> ntfs2utc (utc2ntfs ts) = mk_ts (tv_sec ts) (tv_nsec ts / 100 * 100).
Proof.
  intros [Hs Hn]. unfold ntfs2utc, utc2ntfs, NTFS_TIME_OFFSET in *.
  rewrite Z.quot_div_nonneg by lia.
  assert (Hd : 0 <= tv_nsec ts / 100 < 10000000) by (split; [apply Z.div_pos|apply Z.div_lt_upper_bound]; lia).
  set (n := tv_nsec ts / 100) in *. set (s := tv_sec ts) in *.
  rewrite (s64_id (s * 10000000)), (s64_id (s * 10000000 + n)), (s64_id (s * 10000000 + n + _)) by (unfold S64_MIN, S64_MAX; lia).
  rewrite sle64_roundtrip by (unfold S64_MIN, S64_MAX; lia).
  replace (s * 10000000 + n + _ - _) with (n + s * 10000000) by lia.
  rewrite (s64_id (n + s * 10000000)), u64_id by (unfold S64_MIN, S64_MAX; lia).
  rewrite Z.div_add, Z.mod_add, Z.div_small, Z.mod_small by lia.
  rewrite s64_id by (unfold S64_MIN, S64_MAX; lia). done.
Qed.

Lemma utc_ntfs_roundtrip_witness : ntfs2utc (utc2ntfs (mk_ts 1500000000 123456789)) = mk_ts 1500000000 123456700.
Proof. apply (utc_ntfs_roundtrip (mk_ts 1500000000 123456789)). split; cbn; lia. Defined.

(** NTFS times from 1970 on survive the conversion to Linux time and back. *)
Theorem ntfs_utc_roundtrip t :
  NTFS_TIME_OFFSET <= t <= S64_MAX -> utc2ntfs (ntfs2utc (cpu_to_sle64 t)) = cpu_to_sle64 t.
Proof.
  intros Ht. unfold ntfs2utc, utc2ntfs, NTFS_TIME_OFFSET, S64_MAX in *.
  rewrite sle64_roundtrip by (unfold S64_MIN, S64_MAX; lia).
  set (d := t - (369 * 365 + 89) * 24 * 3600 * 10000000). assert (Hd : 0 <= d <= 0x7fffffffffffffff) by (unfold d; lia).
  rewrite (s64_id d), (u64_id d) by (unfold S64_MIN, S64_MAX; lia). cbn [tv_sec tv_nsec].
  pose proof (Z.div_mod d 10000000 ltac:(done)). pose proof (Z.mod_pos_bound d 10000000 ltac:(done)).
  rewrite Z.quot_mul by done.
  rewrite (s64_id (d / 10000000)), (s64_id (d / 10000000 * 10000000)) by (unfold S64_MIN, S64_MAX; lia).
  replace (d / 10000000 * 10000000 + d mod 10000000) with d by lia. rewrite (s64_id d) by (unfold S64_MIN, S64_MAX; lia).
  replace (d + _) with t by (unfold d; lia). by rewrite s64_id by (unfold S64_MIN, S64_MAX; lia).
Qed.

Lemma ntfs_utc_roundtrip_witness : utc2ntfs (ntfs2utc (cpu_to_sle64 131445504000000001)) = cpu_to_sle64 131445504000000001.
Proof. apply (ntfs_utc_roundtrip 131445504000000001). unfold NTFS_TIME_OFFSET, S64_MAX. lia. Defined.

(** The conversion is unsigned: a time before 1970 is read as one far in the
    future instead of a negative number of seconds. *)
Example ntfs2utc_before_1970 : ntfs2utc (cpu_to_sle64 (NTFS_TIME_OFFSET - 10000000)) = mk_ts 1844674407369 955161600 /\
  ntfs2utc (utc2ntfs (mk_ts (-1) 0)) <> mk_ts (-1) 0.
Proof. split; [reflexivity|discriminate]. Qed.
