(* ===== verification/Compress.v ===== *)
(** * Decompression of compression blocks

    Models [ntfs_decompress] of [src/ntfs/compress.c], for PAGE_CACHE_SIZE =
    NTFS_SB_SIZE = 4096.  Pointers into the compression block and into the
    current destination page are offsets; an access outside either is [Fault]. *)

From Stdlib Require Import ZArith Lia Bool.
From stdpp Require Import base list numbers option.
From S2P Require Import Prelude Endian.

Definition NTFS_SYMBOL_TOKEN : Z := 0.
Definition NTFS_TOKEN_MASK : Z := 1.
Definition NTFS_SB_SIZE_MASK : Z := 0x0fff.
Definition NTFS_SB_SIZE : Z := 0x1000.
Definition NTFS_SB_IS_COMPRESSED : Z := 0x8000.
Definition PAGE_CACHE_SHIFT : Z := 12.
Definition PAGE_CACHE_SIZE : Z := 4096.

(** [x & ~PAGE_CACHE_MASK] *)
Definition page_offset (x : Z) : Z := Z.land x (PAGE_CACHE_SIZE - 1).

(** [struct page]: its index in the file, its contents and its state. *)
Record page := mk_page { pg_index : Z; pg_data : list Z; pg_uptodate : bool; pg_locked : bool }.

Definition set_data (d : list Z) (p : page) : page := mk_page (pg_index p) d (pg_uptodate p) (pg_locked p).

(** [memset(mem + ofs, 0, n)] *)
Definition zero (mem : list Z) (ofs n : Z) : outcome (list Z) :=
  blit mem ofs (repeat 0 (Z.to_nat n)) 0 n.

Definition zero_partial_compressed_page (p : page) (initialized_size : Z) : outcome page :=
  if Z.shiftl (pg_index p) PAGE_CACHE_SHIFT >=? initialized_size then
    d ← zero (pg_data p) 0 PAGE_CACHE_SIZE; Ret (set_data d p)
  else
    let kp_ofs := page_offset initialized_size in
    d ← zero (pg_data p) kp_ofs (PAGE_CACHE_SIZE - kp_ofs); Ret (set_data d p).

Definition handle_bounds_compressed_page (p : page) (i_size initialized_size : Z) : outcome page :=
  if (pg_index p >=? Z.shiftr initialized_size PAGE_CACHE_SHIFT) && (initialized_size <? i_size)
  then zero_partial_compressed_page p initialized_size else Ret p.

(** ** Tokens *)

(** [for (i = ..; i >= 0x10; i >>= 1) lg++;] on a [u16] *)
Fixpoint lg_loop (fuel : nat) (i lg : Z) : Z :=
  match fuel with
  | O => lg
  | S fuel => if i >=? 0x10 then lg_loop fuel (Z.shiftr i 1) (lg + 1) else lg
  end.

(** Twelve shifts bring any [u16] below 0x10. *)
Definition LG_FUEL : nat := 16.

(** Position while parsing a sub-block. *)
Record sb_state := mk_sb {
  sb_cb : Z;          (* cb *)
  sb_data : list Z;   (* contents of dp *)
  sb_dp : Z;          (* dp_addr *)
  sb_ofs : Z;         (* *dest_ofs *)
}.

(** [while (length--) *dp_addr++ = *dp_back_addr++;] *)
Fixpoint copy_bytes (length : nat) (data : list Z) (dp back : Z) : outcome (list Z) :=
  match length with
  | O => Ret data
  | S n => x ← rd data back; data ← wr data dp x; copy_bytes n data (dp + 1) (back + 1)
  end.

(** Copying the byte sequence of a phrase. *)
Definition copy_phrase (data : list Z) (dp back length : Z) : outcome (list Z) :=
  let max_non_overlap := dp - back in
  if length <=? max_non_overlap then blit data dp data back length
  else
    data ← blit data dp data back max_non_overlap;
    copy_bytes (Z.to_nat (length - max_non_overlap)) data (dp + max_non_overlap) (back + max_non_overlap).

(** One phrase token: [None] is [goto return_overflow]. *)
Definition phrase_token (cb : list Z) (sb_start sb_start_ofs sb_end_ofs : Z) (st : sb_state)
    : outcome (sb_state * bool) :=
  if sb_dp st =? sb_start then Ret (st, false)
  else
    let lg := lg_loop LG_FUEL (u16 (sb_ofs st - sb_start_ofs - 1)) 0 in
    pt ← rd_le16 cb (sb_cb st);
    let back := sb_dp st - Z.shiftr pt (12 - lg) - 1 in
    if back <? sb_start then Ret (st, false)
    else
      let length := Z.land pt (Z.shiftr 0xfff lg) + 3 in
      let ofs := sb_ofs st + length in
      if ofs >? sb_end_ofs then Ret (mk_sb (sb_cb st) (sb_data st) (sb_dp st) ofs, false)
      else
        data ← copy_phrase (sb_data st) (sb_dp st) back length;
        Ret (mk_sb (sb_cb st + 2) data (sb_dp st + length) ofs, true).

(** "Parse the eight tokens described by the tag": false is [return_overflow]. *)
Fixpoint token_loop (tokens : nat) (cb : list Z) (cb_sb_end sb_start sb_start_ofs sb_end_ofs tag : Z) (st : sb_state)
    : outcome (sb_state * bool) :=
  match tokens with
  | O => Ret (st, true)
  | S tokens =>
      if (sb_cb st >=? cb_sb_end) || (sb_dp st >? sb_start + NTFS_SB_SIZE) then Ret (st, true)
      else if Z.land tag NTFS_TOKEN_MASK =? NTFS_SYMBOL_TOKEN then
        x ← rd cb (sb_cb st);
        data ← wr (sb_data st) (sb_dp st) x;
        token_loop tokens cb cb_sb_end sb_start sb_start_ofs sb_end_ofs (Z.shiftr tag 1)
          (mk_sb (sb_cb st + 1) data (sb_dp st + 1) (sb_ofs st + 1))
      else
        '(st, ok) ← phrase_token cb sb_start sb_start_ofs sb_end_ofs st;
        if (ok : bool) then token_loop tokens cb cb_sb_end sb_start sb_start_ofs sb_end_ofs (Z.shiftr tag 1) st
        else Ret (st, false)
  end.

(** [do_next_tag:] until the end of the sub-block; the remainder is zeroed. *)
Fixpoint tag_loop (fuel : nat) (cb : list Z) (cb_sb_end sb_start sb_start_ofs sb_end_ofs : Z) (st : sb_state)
    : outcome (sb_state * bool) :=
  match fuel with
  | O => Diverge
  | S fuel =>
      if sb_cb st =? cb_sb_end then
        if sb_dp st <? sb_start + NTFS_SB_SIZE then
          let nr_bytes := sb_end_ofs - sb_ofs st in
          data ← zero (sb_data st) (sb_dp st) nr_bytes;
          Ret (mk_sb (sb_cb st) data (sb_dp st) (sb_ofs st + nr_bytes), true)
        else Ret (st, true)
      else if (sb_cb st >? cb_sb_end) || (sb_dp st >? sb_start + NTFS_SB_SIZE) then Ret (st, false)
      else
        tag ← rd cb (sb_cb st);
        '(st, ok) ← token_loop 8 cb cb_sb_end sb_start sb_start_ofs sb_end_ofs tag
                      (mk_sb (sb_cb st + 1) (sb_data st) (sb_dp st) (sb_ofs st));
        if (ok : bool) then tag_loop fuel cb cb_sb_end sb_start sb_start_ofs sb_end_ofs st else Ret (st, false)
  end.

(** ** Sub-blocks *)

Record dec_state := mk_dec {
  dest_pages : list (option page);
  dest_index : Z;
  dest_ofs : Z;
  completed_pages : list Z;
  dec_cb : Z;
}.

Definition set_page (ps : list (option page)) (i : Z) (p : option page) : outcome (list (option page)) := wr ps i p.

(** [finalize_page:] with the page written back: false is [return_overflow]. *)
Definition finish_sb (dest_max_index : Z) (st : dec_state) (p : page) (data : list Z) (ofs cb : Z)
    : outcome (dec_state * bool) :=
  ps ← set_page (dest_pages st) (dest_index st) (Some (set_data data p));
  let ofs := page_offset ofs in
  if ofs =? 0 then
    Ret (mk_dec ps (dest_index st + 1) ofs (completed_pages st ++ [dest_index st]) cb,
         negb (dest_index st + 1 >? dest_max_index))
  else Ret (mk_dec ps (dest_index st) ofs (completed_pages st) cb, true).

(** The sub-block at [dec_cb st]: false is [return_overflow]. *)
Definition do_sb (cb : list Z) (cb_size dest_max_index dest_max_ofs : Z) (st : dec_state)
    : outcome (dec_state * bool) :=
  let do_sb_start := u16 (dest_ofs st) in
  let do_sb_end := u16 (do_sb_start + NTFS_SB_SIZE) in
  if (dest_index st =? dest_max_index) && (do_sb_end >? dest_max_ofs) then Ret (st, false)
  else if dec_cb st + 6 >? cb_size then Ret (st, false)
  else
    hdr ← rd_le16 cb (dec_cb st);
    let cb_sb_end := dec_cb st + Z.land hdr NTFS_SB_SIZE_MASK + 3 in
    if cb_sb_end >? cb_size then Ret (st, false)
    else
      dp ← rd (dest_pages st) (dest_index st);
      match dp with
      | None =>
          let ofs := page_offset (dest_ofs st + NTFS_SB_SIZE) in
          if ofs =? 0 then
            Ret (mk_dec (dest_pages st) (dest_index st + 1) ofs (completed_pages st) cb_sb_end,
                 negb (dest_index st + 1 >? dest_max_index))
          else Ret (mk_dec (dest_pages st) (dest_index st) ofs (completed_pages st) cb_sb_end, true)
      | Some p =>
          if Z.land hdr NTFS_SB_IS_COMPRESSED =? 0 then
            let c := dec_cb st + 2 in
            if negb (cb_sb_end - c =? NTFS_SB_SIZE) then Ret (st, false)
            else
              data ← blit (pg_data p) do_sb_start cb c NTFS_SB_SIZE;
              finish_sb dest_max_index st p data (dest_ofs st + NTFS_SB_SIZE) (c + NTFS_SB_SIZE)
          else
            '(sb, ok) ← tag_loop (Z.to_nat cb_size) cb cb_sb_end do_sb_start do_sb_start do_sb_end
                          (mk_sb (dec_cb st + 2) (pg_data p) do_sb_start (dest_ofs st));
            if (ok : bool) then finish_sb dest_max_index st p (sb_data sb) (sb_ofs sb) (sb_cb sb)
            else
              ps ← set_page (dest_pages st) (dest_index st) (Some (set_data (sb_data sb) p));
              Ret (mk_dec ps (dest_index st) (sb_ofs sb) (completed_pages st) (sb_cb sb), false)
      end.

(** [do_next_sb:] until the end; the error code at [return_error:]. *)
Fixpoint sb_loop (fuel : nat) (cb : list Z) (cb_size dest_max_index dest_max_ofs : Z) (st : dec_state)
    : outcome (dec_state * Z) :=
  match fuel with
  | O => Diverge
  | S fuel =>
      fin ← (if dec_cb st =? cb_size then Ret true
             else hdr ← rd_le16 cb (dec_cb st);
                  Ret ((hdr =? 0) || ((dest_index st =? dest_max_index) && (dest_ofs st =? dest_max_ofs))));
      if (fin : bool) then Ret (st, 0)
      else
        '(st, ok) ← do_sb cb cb_size dest_max_index dest_max_ofs st;
        if (ok : bool) then sb_loop fuel cb cb_size dest_max_index dest_max_ofs st
        else Ret (st, - EOVERFLOW)
  end.

(** "Second stage: finalize completed pages": the pages, @xpage_done, and the
    finished pages in order. *)
Fixpoint finalize (l : list Z) (ps : list (option page)) (xpage i_size initialized_size : Z) (xpage_done : bool)
    (finished : list page) : outcome (list (option page) * bool * list page) :=
  match l with
  | [] => Ret (ps, xpage_done, finished)
  | di :: l =>
      dp ← rd ps di;
      match dp with
      | None => Fault
      | Some p =>
          p ← handle_bounds_compressed_page p i_size initialized_size;
          let p := mk_page (pg_index p) (pg_data p) true false in
          ps ← set_page ps di None;
          finalize l ps xpage i_size initialized_size (xpage_done || (di =? xpage)) (finished ++ [p])
      end
  end.

Record dec_result := mk_res {
  res_pages : list (option page); res_index : Z; res_ofs : Z;
  res_xpage_done : bool; res_finished : list page; res_err : Z;
}.

(** Each sub-block takes at least three bytes of the compression block. *)
Definition ntfs_decompress (pages : list (option page)) (index ofs dest_max_index dest_max_ofs xpage : Z)
    (xpage_done : bool) (cb : list Z) (cb_size i_size initialized_size : Z) : outcome dec_result :=
  '(st, err) ← sb_loop (S (Z.to_nat cb_size)) cb cb_size dest_max_index dest_max_ofs
                 (mk_dec pages index ofs [] 0);
  '(ps, done_, finished) ← finalize (completed_pages st) (dest_pages st) xpage i_size initialized_size xpage_done [];
  Ret (mk_res ps (dest_index st) (dest_ofs st) done_ finished err).
