(* ===== verification/CompressSpec.v ===== *)
(** * LZNT1 tokens

    A reference semantics of compressed sub-blocks, byte by byte, and the proof
    that the optimised code of [ntfs_decompress] implements it. *)

From Stdlib Require Import ZArith Lia Bool.
From stdpp Require Import base list numbers option.
From S2P Require Import Prelude Endian Compress.

(** ** Reference semantics *)

(** A literal byte, or [len] bytes from [back] bytes before the current end. *)
Inductive token := Sym (b : Z) | Phrase (back len : Z).

Fixpoint lz_copy (n : nat) (back : nat) (out : list Z) : list Z :=
  match n with
  | O => out
  | S n => lz_copy n back (out ++ [default 0 (out !! (length out - back)%nat)])
  end.

Definition expand (out : list Z) (t : token) : list Z :=
  match t with
  | Sym b => out ++ [b]
  | Phrase back len => lz_copy (Z.to_nat len) (Z.to_nat back) out
  end.

Definition expand_all (out : list Z) (ts : list token) : list Z := fold_left expand ts out.

(** The split of a phrase token between distance and length depends on the
    position in the sub-block. *)
Definition lg_of (out : list Z) : Z := lg_loop LG_FUEL (u16 (zlen out - 1)) 0.

Definition token_ok (out : list Z) (t : token) : Prop :=
  match t with
  | Sym b => byte_ok b /\ zlen out < NTFS_SB_SIZE
  | Phrase back len =>
      1 <= back <= zlen out /\ 3 <= len < 2 ^ (12 - lg_of out) + 3 /\ zlen out + len <= NTFS_SB_SIZE
  end.

(** The bytes of a token. *)
Definition enc_token (out : list Z) (t : token) : list Z :=
  match t with
  | Sym b => [b]
  | Phrase back len => le_split 2 ((back - 1) * 2 ^ (12 - lg_of out) + (len - 3))
  end.

Fixpoint tokens_ok (out : list Z) (ts : list token) : Prop :=
  match ts with [] => True | t :: ts => token_ok out t /\ tokens_ok (expand out t) ts end.

Fixpoint enc_tokens (out : list Z) (ts : list token) : list Z :=
  match ts with [] => [] | t :: ts => enc_token out t ++ enc_tokens (expand out t) ts end.

(** The tag byte in front of up to eight tokens. *)
Fixpoint tag_of (ts : list token) : Z :=
  match ts with
  | [] => 0
  | Sym _ :: ts => 2 * tag_of ts
  | Phrase _ _ :: ts => 1 + 2 * tag_of ts
  end.

(** ** Copying *)

Lemma length_lz_copy n back out : length (lz_copy n back out) = (length out + n)%nat.
Proof. revert out. induction n as [|n IH]; intros out; cbn; [lia|]. rewrite IH, length_app. cbn. lia. Qed.

Lemma lz_copy_add a b back out : lz_copy (a + b) back out = lz_copy b back (lz_copy a back out).
Proof. revert out. induction a as [|a IH]; intros out; [done|]. cbn. apply IH. Qed.

(** Without overlap the copied bytes are all there at the start. *)
Lemma lz_copy_block n back out :
  (n <= back <= length out)%nat ->
  lz_copy n back out = out ++ take n (drop (length out - back) out).
Proof.
  revert out. induction n as [|n IH]; intros out Hn; cbn [lz_copy]; [by rewrite app_nil_r|].
  destruct (lookup_lt_is_Some_2 out (length out - back)) as [x Hx]; [lia|]. rewrite Hx. cbn [default].
  rewrite IH by (rewrite length_app; cbn; lia). rewrite length_app. cbn [length].
  rewrite (drop_S out x (length out - back) Hx). cbn [take]. rewrite <- app_assoc. f_equal. cbn. f_equal.
  replace (length out + 1 - back)%nat with (S (length out - back)) by lia.
  rewrite drop_app_le by lia. rewrite take_app_le; [done|]. rewrite length_drop. lia.
Qed.

Lemma copy_bytes_spec n : forall back out rest,
  (1 <= back <= length out)%nat -> (n <= length rest)%nat ->
  copy_bytes n (out ++ rest) (zlen out) (zlen out - Z.of_nat back) = Ret (lz_copy n back out ++ drop n rest).
Proof.
  induction n as [|n IH]; intros back out rest Hb Hr; [done|]. cbn [copy_bytes lz_copy].
  destruct rest as [|y rest]; [cbn in Hr; lia|].
  destruct (lookup_lt_is_Some_2 out (length out - back)) as [x Hx]; [lia|].
  assert (Hrd : rd (out ++ y :: rest) (zlen out - Z.of_nat back) = Ret x).
  { apply rd_spec. unfold zlen. split; [lia|]. replace (Z.to_nat _) with (length out - back)%nat by lia.
    by apply lookup_app_l_Some. }
  rewrite Hrd, bind_Ret, wr_mid, bind_Ret by done. rewrite Hx. cbn [default].
  replace (out ++ x :: rest) with ((out ++ [x]) ++ rest) by (by rewrite <- app_assoc).
  replace (zlen out + 1) with (zlen (out ++ [x])) by zlen_lia.
  replace (zlen out - Z.of_nat back + 1) with (zlen (out ++ [x]) - Z.of_nat back) by zlen_lia.
  rewrite IH; [done|rewrite length_app; cbn; lia|cbn in Hr; lia].
Qed.

(** A block move from [out] to behind it. *)
Lemma blit_block n back out rest :
  (n <= back <= length out)%nat -> (n <= length rest)%nat ->
  blit (out ++ rest) (zlen out) (out ++ rest) (zlen out - Z.of_nat back) (Z.of_nat n) =
    Ret (lz_copy n back out ++ drop n rest).
Proof.
  intros Hn Hr. rewrite lz_copy_block by done.
  set (k := (length out - back)%nat).
  rewrite (blit_eq _ _ _ _ _ out (take n rest) (drop n rest) (take k out) (take n (drop k out)) (drop n (drop k out) ++ rest)).
  - by rewrite <- app_assoc.
  - by rewrite take_drop.
  - rewrite (app_assoc (take n _)), take_drop, app_assoc, take_drop. done.
  - done.
  - unfold zlen. rewrite length_take. lia.
  - unfold zlen. rewrite length_take. lia.
  - unfold zlen. rewrite length_take, length_drop. lia.
Qed.

(** [copy_phrase]: the block copy and the byte by byte copy of the overlap are
    the reference copy. *)
Lemma copy_phrase_spec back len out rest :
  1 <= back <= zlen out -> 0 <= len <= zlen rest ->
  copy_phrase (out ++ rest) (zlen out) (zlen out - back) len =
    Ret (lz_copy (Z.to_nat len) (Z.to_nat back) out ++ drop (Z.to_nat len) rest).
Proof.
  intros Hb Hl. unfold copy_phrase. replace (zlen out - (zlen out - back)) with back by lia.
  set (b := Z.to_nat back). set (n := Z.to_nat len).
  assert (Eb : back = Z.of_nat b) by (unfold b; lia). assert (En : len = Z.of_nat n) by (unfold n; lia).
  rewrite Eb, En in *. clearbody b n. unfold zlen in Hb, Hl.
  destruct (Z.leb_spec (Z.of_nat n) (Z.of_nat b)).
  - apply blit_block; lia.
  - rewrite blit_block, bind_Ret by lia.
    replace (Z.to_nat (Z.of_nat n - Z.of_nat b)) with (n - b)%nat by lia.
    replace (zlen out + Z.of_nat b) with (zlen (lz_copy b b out)) by (unfold zlen; rewrite length_lz_copy; lia).
    replace (zlen out - Z.of_nat b + Z.of_nat b) with (zlen (lz_copy b b out) - Z.of_nat b)
      by (unfold zlen; rewrite length_lz_copy; lia).
    rewrite copy_bytes_spec; [|rewrite length_lz_copy; lia|rewrite length_drop; lia].
    rewrite <- lz_copy_add, drop_drop. do 2 f_equal; f_equal; lia.
Qed.

(** ** Tokens *)

Lemma lg_loop_spec m : forall fuel i lg,
  0 <= i < 2 ^ (4 + Z.of_nat m) -> (m <= fuel)%nat ->
  exists k, lg_loop fuel i lg = lg + Z.of_nat k /\ (k <= m)%nat /\ i < 2 ^ (4 + Z.of_nat k).
Proof.
  induction m as [|m IH]; intros fuel i lg Hi Hf.
  - exists 0%nat. change (2 ^ (4 + Z.of_nat 0)) with 16 in *. split; [|split; [done|lia]].
    destruct fuel; cbn [lg_loop]; [lia|]. destruct (Z.geb_spec i 0x10); lia.
  - destruct fuel as [|fuel]; [lia|]. cbn [lg_loop]. destruct (Z.geb_spec i 0x10).
    + assert (E : 2 ^ (4 + Z.of_nat (S m)) = 2 * 2 ^ (4 + Z.of_nat m)).
      { replace (4 + Z.of_nat (S m)) with (1 + (4 + Z.of_nat m)) by lia. by rewrite Z.pow_add_r by lia. }
      rewrite Z.shiftr_div_pow2 by lia. change (2 ^ 1) with 2.
      pose proof (Z.div_mod i 2 ltac:(done)). pose proof (Z.mod_pos_bound i 2 ltac:(done)).
      destruct (IH fuel (i / 2) (lg + 1)) as (k & -> & Hk & Hlt); [lia|lia|].
      exists (S k). split; [lia|]. split; [lia|].
      replace (4 + Z.of_nat (S k)) with (1 + (4 + Z.of_nat k)) by lia. rewrite Z.pow_add_r by lia. lia.
    + exists 0%nat. split; [lia|]. split; [lia|]. change (2 ^ (4 + Z.of_nat 0)) with 16. lia.
Qed.

Lemma lg_of_spec out :
  1 <= zlen out <= NTFS_SB_SIZE -> 0 <= lg_of out <= 8 /\ zlen out <= 2 ^ (4 + lg_of out).
Proof.
  unfold NTFS_SB_SIZE. intros Ho. unfold lg_of. rewrite u16_id by lia.
  destruct (lg_loop_spec 8 LG_FUEL (zlen out - 1) 0) as (k & -> & Hk & Hlt);
    [change (2 ^ (4 + Z.of_nat 8)) with 4096; lia|unfold LG_FUEL; lia|].
  rewrite Z.add_0_l. split; lia.
Qed.

(** The fields of a phrase token. *)
Lemma phrase_fields lg back len :
  0 <= lg <= 8 -> 1 <= back <= 2 ^ (4 + lg) -> 3 <= len < 2 ^ (12 - lg) + 3 ->
  let pt := (back - 1) * 2 ^ (12 - lg) + (len - 3) in
  0 <= pt < 0x10000 /\ Z.shiftr pt (12 - lg) = back - 1 /\ Z.land pt (Z.shiftr 0xfff lg) = len - 3.
Proof.
  intros Hlg Hb Hl pt. set (w := 2 ^ (12 - lg)) in *. assert (0 < w) by (apply Z.pow_pos_nonneg; lia).
  assert (Hw : 2 ^ (4 + lg) * w = 0x10000).
  { unfold w. rewrite <- Z.pow_add_r by lia. replace (4 + lg + (12 - lg)) with 16 by lia. done. }
  assert (E : pt = len - 3 + (back - 1) * w) by (unfold pt; lia).
  split; [nia|]. split.
  - rewrite Z.shiftr_div_pow2 by lia. fold w. rewrite E, Z.div_add, Z.div_small by lia. lia.
  - replace (Z.shiftr 0xfff lg) with (Z.ones (12 - lg)).
    + rewrite Z.land_ones by lia. fold w. rewrite E, Z.mod_add, Z.mod_small by lia. done.
    + change 0xfff with (Z.ones 12). apply Z.bits_inj'. intros j Hj. rewrite Z.shiftr_spec by lia.
      destruct (Z.ltb_spec j (12 - lg)).
      * rewrite !Z.ones_spec_low by lia. done.
      * rewrite !Z.ones_spec_high by lia. done.
Qed.

Lemma le_combine_2 z : 0 <= z < 0x10000 -> le_combine (le_split 2 z) = z.
Proof. intros. rewrite le_combine_split. apply Z.mod_small. change (2 ^ (8 * Z.of_nat 2)) with 0x10000. lia. Qed.

Definition sb_at (cb : Z) (out rest : list Z) : sb_state := mk_sb cb (out ++ rest) (zlen out) (zlen out).

Lemma zlen_expand_phrase back len out : 0 <= len -> zlen (expand out (Phrase back len)) = zlen out + len.
Proof. intros. cbn. unfold zlen. rewrite length_lz_copy. lia. Qed.

Lemma phrase_token_spec cb pre post out rest back len :
  token_ok out (Phrase back len) -> zlen (out ++ rest) = NTFS_SB_SIZE ->
  cb = pre ++ enc_token out (Phrase back len) ++ post ->
  phrase_token cb 0 0 NTFS_SB_SIZE (sb_at (zlen pre) out rest) =
    Ret (sb_at (zlen pre + 2) (expand out (Phrase back len)) (drop (Z.to_nat len) rest), true).
Proof.
  intros (Hb & Hl & Hfit) Hz Hcb. unfold phrase_token, sb_at. cbn [sb_dp sb_ofs sb_cb sb_data].
  destruct (lg_of_spec out) as [Hlg Hout]; [unfold NTFS_SB_SIZE in *; lia|].
  destruct (Z.eqb_spec (zlen out) 0); [lia|]. rewrite Z.sub_0_r. fold (lg_of out).
  destruct (phrase_fields (lg_of out) back len) as (Hpt & Hsh & Hla); [lia|lia|lia|].
  unfold rd_le16. cbn [enc_token] in Hcb.
  rewrite (rd_bytes_at 2 cb pre _ post (zlen pre) Hcb eq_refl), !bind_Ret by apply length_le_split.
  rewrite le_combine_2, Hsh, Hla by done.
  destruct (Z.ltb_spec (zlen out - (back - 1) - 1) 0); [lia|].
  destruct (Z.gtb_spec (zlen out + (len - 3 + 3)) NTFS_SB_SIZE); [lia|].
  replace (zlen out - (back - 1) - 1) with (zlen out - back) by lia. replace (len - 3 + 3) with len by lia.
  rewrite copy_phrase_spec, bind_Ret by (rewrite zlen_app in Hz; lia).
  rewrite zlen_expand_phrase by lia. done.
Qed.

(** Parsing the tokens of one tag; they end with the sub-block, or there are
    eight of them. *)
Lemma token_loop_spec cb post ts : forall n pre out rest cb_sb_end,
  tokens_ok out ts -> zlen (out ++ rest) = NTFS_SB_SIZE ->
  cb = pre ++ enc_tokens out ts ++ post ->
  zlen pre + zlen (enc_tokens out ts) <= cb_sb_end -> (length ts <= n)%nat ->
  (length ts = n \/ zlen pre + zlen (enc_tokens out ts) = cb_sb_end) ->
  exists rest', zlen (expand_all out ts ++ rest') = NTFS_SB_SIZE /\
    token_loop n cb cb_sb_end 0 0 NTFS_SB_SIZE (tag_of ts) (sb_at (zlen pre) out rest) =
      Ret (sb_at (zlen pre + zlen (enc_tokens out ts)) (expand_all out ts) rest', true).
Proof.
  induction ts as [|t ts IH]; intros n pre out rest cb_sb_end Hok Hz Hcb Hend Hn Hlast.
  { cbn [enc_tokens] in *. rewrite (@zlen_nil Z), Z.add_0_r in *. exists rest. split; [done|].
    destruct n as [|n]; [done|]. cbn [token_loop]. destruct Hlast as [Hlast|Hlast]; [done|].
    unfold sb_at. cbn [sb_cb sb_dp]. destruct (Z.geb_spec (zlen pre) cb_sb_end); [done|lia]. }
  destruct Hok as [Ht Hok]. destruct n as [|n]; [cbn in Hn; lia|]. cbn [token_loop].
  cbn [enc_tokens] in Hcb, Hend, Hlast |- *. rewrite zlen_app in Hend, Hlast |- *. rewrite <- app_assoc in Hcb.
  pose proof (zlen_nonneg (enc_tokens (expand out t) ts)).
  assert (Hlt : 1 <= zlen (enc_token out t))
    by (destruct t; cbn [enc_token]; rewrite ?zlen_le_split; unfold zlen; cbn; lia).
  unfold sb_at at 1 2. cbn [sb_cb sb_dp].
  destruct (Z.geb_spec (zlen pre) cb_sb_end); [lia|].
  destruct (Z.gtb_spec (zlen out) (0 + NTFS_SB_SIZE)); [zlen_lia|]. cbn [orb]. rewrite Z.add_assoc.
  destruct t as [b|back len].
  - cbn [tag_of]. replace (Z.land (2 * tag_of ts) NTFS_TOKEN_MASK =? NTFS_SYMBOL_TOKEN) with true.
    2:{ unfold NTFS_TOKEN_MASK, NTFS_SYMBOL_TOKEN. change 1 with (Z.ones 1). rewrite Z.land_ones by lia.
        rewrite (Z.mul_comm 2), Z.mod_mul by done. done. }
    replace (Z.shiftr (2 * tag_of ts) 1) with (tag_of ts)
      by (rewrite Z.shiftr_div_pow2, (Z.mul_comm 2), Z.div_mul; done || lia).
    cbn [enc_token app] in Hcb. unfold sb_at. cbn [sb_cb sb_dp sb_data sb_ofs].
    rewrite (rd_at cb pre (enc_tokens (expand out (Sym b)) ts ++ post) b), bind_Ret by done.
    destruct Ht as [_ Hroom]. destruct rest as [|x rest]; [rewrite app_nil_r in Hz; lia|].
    rewrite wr_mid, bind_Ret by done. cbn [enc_token] in Hend, Hlast |- *. rewrite (zlen_cons b []), (@zlen_nil Z), Z.add_0_r in *. change (expand out (Sym b)) with (out ++ [b]) in *.
    destruct (IH n (pre ++ [b]) (out ++ [b]) rest cb_sb_end Hok) as (rest' & Hz' & E);
      [zlen_lia|by rewrite Hcb, <- app_assoc|zlen_lia|cbn [length] in Hn; lia|destruct Hlast as [Hl|Hl]; [left; cbn in Hl; lia|right; zlen_lia]|].
    exists rest'. split; [exact Hz'|]. unfold sb_at in E. rewrite !zlen_app, !zlen_cons, !(@zlen_nil Z), Z.add_0_r in E.
    rewrite <- app_assoc in E. cbn [app] in E. exact E.
  - cbn [tag_of]. replace (Z.land (1 + 2 * tag_of ts) NTFS_TOKEN_MASK =? NTFS_SYMBOL_TOKEN) with false.
    2:{ unfold NTFS_TOKEN_MASK, NTFS_SYMBOL_TOKEN. change 1 with (Z.ones 1) at 2. rewrite Z.land_ones by lia.
        rewrite (Z.mul_comm 2), Z.mod_add by done. done. }
    replace (Z.shiftr (1 + 2 * tag_of ts) 1) with (tag_of ts)
      by (rewrite Z.shiftr_div_pow2, (Z.mul_comm 2) by lia; change (2 ^ 1) with 2; rewrite Z.div_add by lia; done).
    rewrite (phrase_token_spec cb pre (enc_tokens (expand out (Phrase back len)) ts ++ post) out rest back len), bind_Ret by done.
    assert (Hz2 : zlen (enc_token out (Phrase back len)) = 2) by (cbn [enc_token]; by rewrite zlen_le_split).
    destruct Ht as (Hb & Hl & Hfit).
    destruct (IH n (pre ++ enc_token out (Phrase back len)) (expand out (Phrase back len)) (drop (Z.to_nat len) rest) cb_sb_end Hok)
      as (rest' & Hz' & E).
    + rewrite zlen_app, zlen_expand_phrase by lia. rewrite zlen_app in Hz. unfold zlen in *. rewrite length_drop. lia.
    + by rewrite Hcb, <- app_assoc.
    + zlen_lia.
    + cbn [length] in Hn. lia.
    + destruct Hlast as [Hlast|Hlast]; [left; cbn [length] in Hlast; lia|right; zlen_lia].
    + exists rest'. split; [exact Hz'|]. rewrite zlen_app, Hz2 in E. rewrite Hz2. exact E.
Qed.

(** ** Sub-blocks *)

Fixpoint enc_groups (out : list Z) (gs : list (list token)) : list Z :=
  match gs with
  | [] => []
  | g :: gs => (tag_of g :: enc_tokens out g) ++ enc_groups (expand_all out g) gs
  end.

(** Every tag but the last has eight tokens. *)
Fixpoint groups_ok (out : list Z) (gs : list (list token)) : Prop :=
  match gs with
  | [] => True
  | g :: gs =>
      (length g <= 8)%nat /\ (gs <> [] -> length g = 8%nat) /\ tokens_ok out g /\ groups_ok (expand_all out g) gs
  end.

Definition expand_groups (out : list Z) (gs : list (list token)) : list Z := fold_left expand_all gs out.

(** A sub-block padded with zeroes to its full size. *)
Definition fill (out : list Z) : list Z := out ++ repeat 0 (Z.to_nat (NTFS_SB_SIZE - zlen out)).

Lemma zlen_repeat (x n : Z) : 0 <= n -> zlen (repeat x (Z.to_nat n)) = n.
Proof. intros. unfold zlen. rewrite repeat_length. lia. Qed.

Lemma tag_loop_spec cb post gs : forall fuel pre out rest,
  groups_ok out gs -> zlen (out ++ rest) = NTFS_SB_SIZE -> cb = pre ++ enc_groups out gs ++ post ->
  (length gs < fuel)%nat ->
  exists dp, zlen (fill (expand_groups out gs)) = NTFS_SB_SIZE /\
    tag_loop fuel cb (zlen pre + zlen (enc_groups out gs)) 0 0 NTFS_SB_SIZE (sb_at (zlen pre) out rest) =
      Ret (mk_sb (zlen pre + zlen (enc_groups out gs)) (fill (expand_groups out gs)) dp NTFS_SB_SIZE, true).
Proof.
  induction gs as [|g gs IH]; intros fuel pre out rest Hok Hz Hcb Hf;
    (destruct fuel as [|fuel]; [cbn in Hf; lia|]); cbn [tag_loop].
  { cbn [enc_groups]. rewrite (@zlen_nil Z), Z.add_0_r. unfold sb_at at 1. cbn [sb_cb]. rewrite Z.eqb_refl.
    unfold sb_at. cbn [sb_dp sb_ofs sb_data sb_cb]. rewrite zlen_app in Hz. pose proof (zlen_nonneg rest).
    unfold expand_groups, fill. cbn [fold_left]. exists (zlen out).
    split; [rewrite zlen_app, zlen_repeat by lia; lia|].
    destruct (Z.ltb_spec (zlen out) (0 + NTFS_SB_SIZE)).
    - unfold zero. rewrite (blit_eq _ _ _ _ _ out rest [] [] (repeat 0 (Z.to_nat (NTFS_SB_SIZE - zlen out))) []);
        [|by rewrite app_nil_r|by rewrite app_nil_r|done|done|lia|rewrite zlen_repeat; lia].
      rewrite bind_Ret, app_nil_r. do 3 f_equal. lia.
    - assert (rest = []) as ->. { destruct rest; [done|]. rewrite zlen_cons in Hz. zlen_lia. }
      rewrite (@zlen_nil Z) in Hz. replace (NTFS_SB_SIZE - zlen out) with 0 by lia. cbn [Z.to_nat repeat].
      do 3 f_equal. lia. }
  destruct Hok as (Hlen & H8 & Hts & Hgs). cbn [enc_groups] in Hcb |- *. cbn [length] in Hf.
  rewrite zlen_app, zlen_cons. pose proof (zlen_nonneg (enc_tokens out g)).
  set (E := enc_groups (expand_all out g) gs) in *. pose proof (zlen_nonneg E).
  unfold sb_at. cbn [sb_cb sb_dp sb_data sb_ofs].
  destruct (Z.eqb_spec (zlen pre) (zlen pre + (1 + zlen (enc_tokens out g) + zlen E))); [lia|].
  destruct (Z.gtb_spec (zlen pre) (zlen pre + (1 + zlen (enc_tokens out g) + zlen E))); [lia|].
  destruct (Z.gtb_spec (zlen out) (0 + NTFS_SB_SIZE)); [zlen_lia|]. cbn [orb].
  rewrite <- app_assoc in Hcb. cbn [app] in Hcb.
  rewrite (rd_at cb pre (enc_tokens out g ++ E ++ post) (tag_of g)), bind_Ret by done.
  destruct (token_loop_spec cb (E ++ post) g 8 (pre ++ [tag_of g]) out rest
    (zlen pre + (1 + zlen (enc_tokens out g) + zlen E)) Hts Hz) as (rest' & Hz' & Htl).
  - by rewrite Hcb, <- app_assoc.
  - zlen_lia.
  - done.
  - destruct gs as [|g' gs]; [right|left; by apply H8].
    unfold E. cbn [enc_groups]. rewrite (@zlen_nil Z). zlen_lia.
  - unfold sb_at in Htl. replace (zlen (pre ++ [tag_of g])) with (zlen pre + 1) in Htl by zlen_lia.
    rewrite Htl, bind_Ret. clear Htl.
    destruct (IH fuel (pre ++ tag_of g :: enc_tokens out g) (expand_all out g) rest' Hgs Hz') as (dp & Hzf & Hr).
    + rewrite Hcb. by rewrite <- app_assoc.
    + lia.
    + exists dp. split; [exact Hzf|]. fold E in Hr.
      replace (zlen (pre ++ tag_of g :: enc_tokens out g)) with (zlen pre + 1 + zlen (enc_tokens out g)) in Hr by zlen_lia.
      replace (zlen pre + (1 + zlen (enc_tokens out g) + zlen E))
        with (zlen pre + 1 + zlen (enc_tokens out g) + zlen E) by lia. exact Hr.
Qed.
