(* ===== verification/CompressTheorems.v ===== *)
(** * Correctness of [ntfs_decompress]

    A compression block as the sub-blocks NTFS writes, and the proof that the
    decompressor turns it into their contents, page by page. *)

From Stdlib Require Import ZArith Lia Bool.
From stdpp Require Import base list numbers option.
From S2P Require Import Prelude Endian Compress CompressSpec.

(** ** Sub-blocks on disk *)














(** ** Whole compression blocks *)






(** ** The second stage *)










Definition blank_page (i : Z) : page := mk_page i (repeat 0xff 4096) false true.


(** The token loop tests [dp_addr <= dp_sb_end]: a symbol token behind a full
    sub-block is stored one byte past the page. *)
Example symbol_token_past_page :
  let body := enc_groups [] [[Sym 0x61; Phrase 1 4095; Sym 0x62]] in
  let cb := le_split 2 (0xb000 + (zlen body - 1)) ++ body in
  ntfs_decompress [Some (blank_page 0)] 0 0 1 0 0 false cb (zlen cb) 4096 4096 = Fault.
Proof. vm_compute. reflexivity. Qed.
