(* ===== verification/Boot.v ===== *)
(** * Boot sector and volume geometry

    Models, of [src/ntfs/super.c], the check of a boot sector
    ([is_boot_sector_ntfs]), its search and repair ([read_ntfs_boot_sector]),
    its interpretation ([parse_ntfs_boot_sector]) and the initial state of the
    allocators ([ntfs_setup_allocators]).  A boot sector is the list of its bytes;
    [NTFS_BOOT_SECTOR] is a packed structure of 512 bytes, so its fields are
    read at fixed offsets.  The block device, the device block size, the page
    size and the size of a long are parameters. *)

From Stdlib Require Import ZArith Lia Bool.
From stdpp Require Import base list numbers option.
From S2P Require Import Prelude Endian.

(** [ffs]: the position of the lowest bit set, counted from one. *)
Fixpoint ctz (p : positive) : Z := match p with xO p => 1 + ctz p | _ => 0 end.
Definition ffs (z : Z) : Z := match z with Z0 => 0 | Zpos p | Zneg p => 1 + ctz p end.

(** [x << n] on 32 bits; a shift by the width or more is undefined. *)
Definition shl32 (x n : Z) : outcome Z :=
  if (0 <=? n) && (n <? 32) then Ret (u32 (Z.shiftl x n)) else Fault.

(** ** NTFS_BOOT_SECTOR (layout.h) *)

Definition NTFS_BLOCK_SIZE : Z := 512.
Definition NTFS_MAX_CLUSTER_SIZE : Z := 64 * 1024.
Definition magicNTFS : Z := 0x202020205346544e.

(** The [n] byte field at offset [off]. *)
Definition fld (n : nat) (off : nat) (b : list Z) : Z := le_combine (take n (drop off b)).

Definition oem_id (b : list Z) : Z := fld 8 3 b.
Definition bytes_per_sector (b : list Z) : Z := fld 2 11 b.
Definition sectors_per_cluster (b : list Z) : Z := fld 1 13 b.
Definition reserved_sectors (b : list Z) : Z := fld 2 14 b.
Definition fats (b : list Z) : Z := fld 1 16 b.
Definition root_entries (b : list Z) : Z := fld 2 17 b.
Definition sectors (b : list Z) : Z := fld 2 19 b.
Definition sectors_per_fat (b : list Z) : Z := fld 2 22 b.
Definition large_sectors (b : list Z) : Z := fld 4 32 b.
Definition number_of_sectors (b : list Z) : Z := sle64_to_cpu (fld 8 40 b).
Definition b_mft_lcn (b : list Z) : Z := sle64_to_cpu (fld 8 48 b).
Definition b_mftmirr_lcn (b : list Z) : Z := sle64_to_cpu (fld 8 56 b).
Definition clusters_per_mft_record (b : list Z) : Z := s8 (fld 1 64 b).
Definition clusters_per_index_record (b : list Z) : Z := s8 (fld 1 68 b).
Definition volume_serial_number (b : list Z) : Z := fld 8 72 b.
Definition checksum (b : list Z) : Z := fld 4 80 b.
Definition end_of_sector_marker (b : list Z) : Z := fld 2 510 b.

(** ** is_boot_sector_ntfs *)

Inductive boot_warning := Invalid_checksum | Invalid_end_of_sector_marker.

(** The sum of the [n] 32-bit words from offset [off] on. *)
Fixpoint boot_sum (n : nat) (off : nat) (b : list Z) (i : Z) : Z :=
  match n with O => i | S n => boot_sum n (off + 4) b (u32 (i + fld 4 off b)) end.

Definition clusters_per_record_ok (c : Z) : bool :=
  if (u8 c <? 0xe1) || (u8 c >? 0xf7)
  then (c =? 1) || (c =? 2) || (c =? 4) || (c =? 8) || (c =? 16) || (c =? 32) || (c =? 64)
  else true.

Definition is_boot_sector_ntfs (b : list Z) (silent : bool) : bool * list boot_warning :=
  let w1 := if negb (checksum b =? 0) && negb silent && negb (checksum b =? boot_sum 20 0 b 0)
            then [Invalid_checksum] else [] in
  if negb (oem_id b =? magicNTFS) then (false, w1)
  else if (bytes_per_sector b <? 0x100) || (bytes_per_sector b >? 0x1000) then (false, w1)
  else
    let spc := sectors_per_cluster b in
    if negb ((spc =? 1) || (spc =? 2) || (spc =? 4) || (spc =? 8) || (spc =? 16) || (spc =? 32) || (spc =? 64) || (spc =? 128))
    then (false, w1)
    else if u32 (bytes_per_sector b * spc) >? NTFS_MAX_CLUSTER_SIZE then (false, w1)
    else if negb (reserved_sectors b =? 0) || negb (root_entries b =? 0) || negb (sectors b =? 0)
         || negb (sectors_per_fat b =? 0) || negb (large_sectors b =? 0) || negb (fats b =? 0) then (false, w1)
    else if negb (clusters_per_record_ok (clusters_per_mft_record b)) then (false, w1)
    else if negb (clusters_per_record_ok (clusters_per_index_record b)) then (false, w1)
    else
      let w2 := if negb silent && negb (end_of_sector_marker b =? 0xaa55) then [Invalid_end_of_sector_marker] else [] in
      (true, w1 ++ w2).

(** ** read_ntfs_boot_sector *)

(** The buffers of the device's blocks ([None]: the block cannot be read), the
    references held on them and the blocks written to the device. *)
Record device := mk_device {
  bufs : Z -> option (list Z);
  held : list Z;
  written : list Z;
}.

(** One reference to block [n] less. *)
Fixpoint release (n : Z) (l : list Z) : list Z :=
  match l with [] => [] | x :: l => if x =? n then l else x :: release n l end.

Definition sb_bread (d : device) (n : Z) : device * option (list Z) :=
  match bufs d n with
  | Some data => (mk_device (bufs d) (n :: held d) (written d), Some data)
  | None => (d, None)
  end.

Definition brelse (d : device) (n : Z) : device := mk_device (bufs d) (release n (held d)) (written d).

(** [memcpy(bh_primary->b_data, bh_backup->b_data, NTFS_BLOCK_SIZE)] *)
Definition copy_block (dst src : list Z) : list Z :=
  take (Z.to_nat NTFS_BLOCK_SIZE) src ++ drop (Z.to_nat NTFS_BLOCK_SIZE) dst.

Definition set_buf (d : device) (n : Z) (data : list Z) : device :=
  mk_device (fun m => if m =? n then Some data else bufs d m) (held d) (written d).

Definition mark_dirty_and_sync (d : device) (n : Z) : device := mk_device (bufs d) (held d) (n :: written d).

Section Read.
(** [nr_blocks] of the volume, whether errors=recover was given, whether the
    mount is read-only, and whether writing the block succeeds. *)
Context (nr_blocks : Z) (silent recover rdonly write_ok : bool).

(** The label [hotfix_primary_boot_sector]: the block whose buffer is returned. *)
Definition hotfix_primary (d : device) (primary : option (list Z)) (backup_nr : Z) (backup : list Z) : device * option Z :=
  match primary with
  | Some p =>
      if negb rdonly then
        let d := set_buf d 0 (copy_block p backup) in
        let d := mark_dirty_and_sync d 0 in
        if (write_ok : bool) then (brelse d backup_nr, Some 0)
        else (brelse d 0, Some backup_nr)
      else (brelse d 0, Some backup_nr)
  | None => (d, Some backup_nr)
  end.

Definition release_primary (d : device) (primary : option (list Z)) : device :=
  match primary with Some _ => brelse d 0 | None => d end.

(** The NT3.51 backup, in the middle of the device. *)
Definition read_nt3_backup (d : device) (primary : option (list Z)) : device * option Z :=
  let nr := Z.shiftr nr_blocks 1 in
  let '(d, backup) := sb_bread d nr in
  match backup with
  | Some bk =>
      if fst (is_boot_sector_ntfs bk silent) then hotfix_primary d primary nr bk
      else (release_primary (brelse d nr) primary, None)
  | None => (release_primary d primary, None)
  end.

(** The NT4 backup, at the end of the device, and then the older one. *)
Definition read_nt4_backup (d : device) (primary : option (list Z)) : device * option Z :=
  let nr := u64 (nr_blocks - 1) in
  let '(d, backup) := sb_bread d nr in
  match backup with
  | Some bk =>
      if fst (is_boot_sector_ntfs bk silent) then hotfix_primary d primary nr bk
      else read_nt3_backup (brelse d nr) primary
  | None => read_nt3_backup d primary
  end.

Definition read_ntfs_boot_sector (d : device) : device * option Z :=
  let '(d, primary) := sb_bread d 0 in
  if match primary with Some p => fst (is_boot_sector_ntfs p silent) | None => false end then (d, Some 0)
  else if negb recover then (release_primary d primary, None)
  else read_nt4_backup d primary.
End Read.

(** ** parse_ntfs_boot_sector *)

(** The fields of [ntfs_volume] (volume.h) these functions set or use. *)
Record ntfs_volume := mk_volume {
  sector_size : Z;
  sector_size_bits : Z;
  cluster_size : Z;
  cluster_size_mask : Z;
  cluster_size_bits : Z;
  mft_record_size : Z;
  mft_record_size_mask : Z;
  mft_record_size_bits : Z;
  index_record_size : Z;
  index_record_size_mask : Z;
  index_record_size_bits : Z;
  nr_clusters : Z;
  mft_lcn : Z;
  mftmirr_lcn : Z;
  mftmirr_size : Z;
  serial_no : Z;
}.

Section Parse.
(** [sb->s_blocksize], [PAGE_CACHE_SIZE] and [sizeof(unsigned long)]. *)
Context (s_blocksize PAGE_CACHE_SIZE sizeof_long : Z).

(** The size of an mft or index record from its field of the boot sector. *)
Definition record_size (cluster_size clusters_per_record : Z) : outcome Z :=
  if clusters_per_record >? 0 then shl32 cluster_size (ffs clusters_per_record - 1)
  else shl32 1 (- clusters_per_record).

(** [None]: the function returned false, and the caller drops the volume. *)
Definition parse_ntfs_boot_sector (b : list Z) : outcome (option ntfs_volume) :=
  let sector_size := bytes_per_sector b in
  let sector_size_bits := u8 (ffs sector_size - 1) in
  if sector_size <? s_blocksize then Ret None
  else
    let sectors_per_cluster_bits := u32 (ffs (sectors_per_cluster b) - 1) in
    cluster_size ← shl32 sector_size sectors_per_cluster_bits;
    let cluster_size_mask := u32 (cluster_size - 1) in
    let cluster_size_bits := u8 (ffs cluster_size - 1) in
    if cluster_size <? sector_size then Ret None
    else
      mft_record_size ← record_size cluster_size (clusters_per_mft_record b);
      let mft_record_size_mask := u32 (mft_record_size - 1) in
      let mft_record_size_bits := u8 (ffs mft_record_size - 1) in
      if mft_record_size >? PAGE_CACHE_SIZE then Ret None
      else if mft_record_size <? sector_size then Ret None
      else
        index_record_size ← record_size cluster_size (clusters_per_index_record b);
        let index_record_size_mask := u32 (index_record_size - 1) in
        let index_record_size_bits := u8 (ffs index_record_size - 1) in
        if index_record_size <? sector_size then Ret None
        else
          let ll := Z.shiftr (number_of_sectors b) sectors_per_cluster_bits in
          if u64 ll >=? 2 ^ 32 then Ret None
          else
            let nr_clusters := ll in
            if (sizeof_long <? 8) && (u64 (Z.shiftl ll cluster_size_bits) >=? 2 ^ 41) then Ret None
            else if b_mft_lcn b >=? nr_clusters then Ret None
            else if b_mftmirr_lcn b >=? nr_clusters then Ret None
            else
              four ← shl32 4 mft_record_size_bits;
              let mftmirr_size := if cluster_size <=? four then 4 else Z.shiftr cluster_size mft_record_size_bits in
              Ret (Some (mk_volume sector_size sector_size_bits cluster_size cluster_size_mask cluster_size_bits
                mft_record_size mft_record_size_mask mft_record_size_bits
                index_record_size index_record_size_mask index_record_size_bits
                nr_clusters (b_mft_lcn b) (b_mftmirr_lcn b) mftmirr_size (volume_serial_number b))).
End Parse.

(** ** ntfs_setup_allocators *)

(** The allocator fields of [ntfs_volume]. *)
Record allocators := mk_allocators {
  mft_zone_start : Z;
  mft_zone_pos : Z;
  mft_zone_end : Z;
  data1_zone_pos : Z;
  data2_zone_pos : Z;
  mft_data_pos : Z;
}.

Definition mft_zone_share (mft_zone_multiplier nr_clusters : Z) : Z :=
  if mft_zone_multiplier =? 4 then Z.shiftr nr_clusters 1
  else if mft_zone_multiplier =? 3 then Z.shiftr (nr_clusters + Z.shiftr nr_clusters 1) 2
  else if mft_zone_multiplier =? 2 then Z.shiftr nr_clusters 2
  else Z.shiftr nr_clusters 3.

(** The lcn of the mft on a volume as mkntfs makes it. *)
Definition default_mft_lcn (cluster_size : Z) : Z :=
  let lcn := u32 (8192 + 2 * cluster_size - 1) / cluster_size in
  if lcn * cluster_size <? 16 * 1024 then u32 (16 * 1024 + cluster_size - 1) / cluster_size else lcn.

(** The loop that halves the zone until it lies inside the volume. *)
Fixpoint cap_zone (fuel : nat) (mft_lcn nr_clusters mft_zone_size : Z) : outcome Z :=
  match fuel with
  | O => Diverge
  | S fuel =>
      if mft_lcn + mft_zone_size >=? nr_clusters
      then cap_zone fuel mft_lcn nr_clusters (Z.shiftr mft_zone_size 1)
      else Ret (mft_lcn + mft_zone_size)
  end.

(** The zone size has at most 32 bits, so it is zero after 33 halvings. *)
Definition zone_fuel : nat := 64.

Definition ntfs_setup_allocators (mft_zone_multiplier : Z) (vol : ntfs_volume) : outcome allocators :=
  let mft_zone_size := mft_zone_share mft_zone_multiplier (nr_clusters vol) in
  let zone_start := mft_lcn vol in
  let zone_start := if zone_start <=? default_mft_lcn (cluster_size vol) then 0 else zone_start in
  mft_zone_end ← cap_zone zone_fuel (mft_lcn vol) (nr_clusters vol) mft_zone_size;
  Ret (mk_allocators zone_start (mft_lcn vol) mft_zone_end mft_zone_end 0 24).
