(* ===== verification/BootTheorems.v ===== *)
(** * Boot sector: theorems

    The boot sector that is used is a valid one and the device is repaired only
    when it may be; the geometry of a volume whose boot sector is accepted; the
    initial zones of the allocators. *)

From Stdlib Require Import ZArith Lia Bool.
From stdpp Require Import base list numbers option.
From S2P Require Import Prelude Endian Boot.

(** ** Reading the boot sector *)

Definition valid_boot (b : list Z) : Prop := fst (is_boot_sector_ntfs b true) = true.

(** Only the warnings depend on @silent. *)
Lemma boot_silent b silent : fst (is_boot_sector_ntfs b silent) = fst (is_boot_sector_ntfs b true).
Proof.
  unfold is_boot_sector_ntfs. cbv zeta.
  repeat match goal with |- context [if ?c then (false, _) else _] => destruct c; [reflexivity|] end.
  reflexivity.
Qed.

(** The fields of the boot sector lie in the part the repair copies. *)
Lemma fld_copy n off dst src : (off + n <= 512)%nat -> (512 <= length src)%nat ->
  fld n off (copy_block dst src) = fld n off src.
Proof.
  intros Hn Hs. unfold fld, copy_block. change (Z.to_nat NTFS_BLOCK_SIZE) with 512%nat.
  f_equal. rewrite <- (take_drop 512 src) at 2.
  rewrite !drop_app_le, !take_app_le by (rewrite ?length_drop, length_take; lia). done.
Qed.

Lemma valid_boot_copy dst src : (512 <= length src)%nat -> valid_boot src -> valid_boot (copy_block dst src).
Proof.
  intros Hs. unfold valid_boot, is_boot_sector_ntfs, oem_id, bytes_per_sector, sectors_per_cluster, reserved_sectors,
    root_entries, sectors, sectors_per_fat, large_sectors, fats, clusters_per_mft_record, clusters_per_index_record,
    checksum, end_of_sector_marker.
  rewrite !fld_copy by lia. cbn [negb andb]. by rewrite !andb_false_r.
Qed.

(** The block can be read and holds a valid boot sector. *)
Definition usable (d : device) (n : Z) : Prop := exists b, bufs d n = Some b /\ valid_boot b.

Lemma usable_iff d n silent :
  usable d n <-> match bufs d n with Some b => fst (is_boot_sector_ntfs b silent) | None => false end = true.
Proof.
  unfold usable, valid_boot. destruct (bufs d n) as [b|]; [|naive_solver].
  rewrite boot_silent. naive_solver.
Qed.

(** The search found nothing to use. *)
Definition nothing_usable (recover : bool) (nr_blocks : Z) (d : device) : Prop :=
  ~ usable d 0 /\ (recover = true -> ~ usable d (u64 (nr_blocks - 1)) /\ ~ usable d (Z.shiftr nr_blocks 1)).

Section ReadProof.
Context (nr_blocks : Z) (silent recover rdonly write_ok : bool).

(** The references held while the backups are tried. *)
Definition primary_refs (d : device) : list Z := match bufs d 0 with Some _ => [0] | None => [] end.

(** What trying the backups in the blocks [ns] leads to. *)
Definition backup_result (d d' : device) (r : option Z) (ns : list Z) : Prop :=
  match r with
  | Some n => usable d' n /\ held d' = [n] /\ Exists (usable d) ns
  | None => held d' = [] /\ bufs d' = bufs d /\ Forall (fun n => ~ usable d n) ns
  end /\
  (written d' = written d \/ written d' = 0 :: written d /\ rdonly = false /\ is_Some (bufs d 0)).

Lemma hotfix_spec d0 d primary bnr bk ns :
  bufs d = bufs d0 -> written d = written d0 -> held d = bnr :: primary_refs d0 -> primary = bufs d0 0 -> bnr ∈ ns ->
  bufs d0 bnr = Some bk -> (512 <= length bk)%nat -> valid_boot bk ->
  let '(d', r) := hotfix_primary rdonly write_ok d primary bnr bk in backup_result d0 d' r ns.
Proof.
  intros Hbf Hw Hh -> Hin Hb Hl Hv.
  assert (Hex : Exists (usable d0) ns) by (apply Exists_exists; exists bnr; split; [by apply list_elem_of_In|by exists bk]).
  unfold hotfix_primary, backup_result, primary_refs, usable in *. destruct (bufs d0 0) as [p|] eqn:E0.
  2:{ rewrite Hbf. split_and!; eauto. }
  destruct rdonly; cbn -[Z.eqb]; [|destruct write_ok; cbn -[Z.eqb]]; rewrite Hh, ?Hbf, ?Hw; cbn [release]; rewrite ?Z.eqb_refl.
  - split_and!; eauto. destruct (Z.eqb_spec bnr 0); [by subst|done].
  - split_and!; eauto 6 using valid_boot_copy.
  - destruct (Z.eqb_spec bnr 0) as [->|Hne]; split_and!; eauto 6 using valid_boot_copy.
Qed.

Lemma read_nt3_spec d0 d :
  (forall n b, bufs d0 n = Some b -> (512 <= length b)%nat) ->
  bufs d = bufs d0 -> written d = written d0 -> held d = primary_refs d0 ->
  let '(d', r) := read_nt3_backup nr_blocks silent rdonly write_ok d (bufs d0 0) in
  backup_result d0 d' r [Z.shiftr nr_blocks 1].
Proof.
  intros Hl Hbf Hw Hh. unfold read_nt3_backup, sb_bread. set (nr := Z.shiftr nr_blocks 1).
  pose proof (usable_iff d0 nr silent) as Hu. rewrite <- Hbf in Hu. destruct (bufs d nr) as [bk|] eqn:Eb; rewrite Hbf in Eb.
  - destruct (fst (is_boot_sector_ntfs bk silent)) eqn:Ei.
    + apply (hotfix_spec d0); eauto; [cbn; by f_equal|by left|]. by rewrite boot_silent in Ei.
    + unfold backup_result, release_primary, primary_refs in *. destruct (bufs d0 0); cbn; rewrite Hh, Z.eqb_refl;
        split_and!; auto; by constructor; [rewrite Hu|].
  - unfold backup_result, release_primary, primary_refs in *. destruct (bufs d0 0); cbn; rewrite Hh;
        split_and!; auto; by constructor; [rewrite Hu|].
Qed.

Lemma read_nt4_spec d0 d :
  (forall n b, bufs d0 n = Some b -> (512 <= length b)%nat) ->
  bufs d = bufs d0 -> written d = written d0 -> held d = primary_refs d0 ->
  let '(d', r) := read_nt4_backup nr_blocks silent rdonly write_ok d (bufs d0 0) in
  backup_result d0 d' r [u64 (nr_blocks - 1); Z.shiftr nr_blocks 1].
Proof.
  intros Hl Hbf Hw Hh. unfold read_nt4_backup, sb_bread. set (nr := u64 (nr_blocks - 1)).
  assert (Hnext : forall d1, ~ usable d0 nr -> bufs d1 = bufs d0 -> written d1 = written d0 -> held d1 = primary_refs d0 ->
    let '(d', r) := read_nt3_backup nr_blocks silent rdonly write_ok d1 (bufs d0 0) in
    backup_result d0 d' r [nr; Z.shiftr nr_blocks 1]).
  { intros d1 Hn H1 H2 H3. pose proof (read_nt3_spec d0 d1 Hl H1 H2 H3) as Hs.
    destruct (read_nt3_backup _ _ _ _ d1 _) as [d' r]. unfold backup_result in *. destruct r, Hs as [[? [? ?]] ?]; split_and!; auto. }
  pose proof (usable_iff d0 nr silent) as Hu. rewrite <- Hbf in Hu. destruct (bufs d nr) as [bk|] eqn:Eb; rewrite Hbf in Eb.
  - destruct (fst (is_boot_sector_ntfs bk silent)) eqn:Ei.
    + apply (hotfix_spec d0); eauto; [cbn; by f_equal|by left|]. by rewrite boot_silent in Ei.
    + apply Hnext; [by rewrite Hu|done|done|]. cbn. rewrite Z.eqb_refl. done.
  - apply Hnext; [by rewrite Hu|done..].
Qed.
End ReadProof.

(** C38: [read_ntfs_boot_sector] returns a buffer exactly when the primary boot
    sector is valid, or errors=recover was given and one of both backup copies
    is valid.  The buffer it returns holds a valid boot sector and is the only
    one it keeps a reference to; a valid primary is returned as it is.  Block 0
    is written at most once, and only when it was readable and invalid, recovery
    was asked for and the mount is not read-only; a search that finds nothing
    changes no buffer. *)
Theorem read_boot_sector_correct nr_blocks silent recover rdonly write_ok d d' r :
  (forall n b, bufs d n = Some b -> (512 <= length b)%nat) -> held d = [] ->
  read_ntfs_boot_sector nr_blocks silent recover rdonly write_ok d = (d', r) ->
  match r with
  | Some n => usable d' n /\ held d' = [n] /\ ~ nothing_usable recover nr_blocks d
  | None => held d' = [] /\ bufs d' = bufs d /\ nothing_usable recover nr_blocks d
  end /\
  (usable d 0 -> r = Some 0 /\ bufs d' = bufs d) /\
  (written d' = written d \/
   written d' = 0 :: written d /\ recover = true /\ rdonly = false /\ is_Some (bufs d 0) /\ ~ usable d 0).
Proof.
  intros Hlen Hheld. unfold read_ntfs_boot_sector, sb_bread.
  pose proof (usable_iff d 0 silent) as Hu.
  pose proof (read_nt4_spec nr_blocks silent rdonly write_ok d) as Hs. unfold nothing_usable.
  assert (Hmain : forall d1, bufs d1 = bufs d -> written d1 = written d -> held d1 = primary_refs d -> ~ usable d 0 ->
    (if negb recover then (release_primary d1 (bufs d 0), None)
     else read_nt4_backup nr_blocks silent rdonly write_ok d1 (bufs d 0)) = (d', r) ->
    match r with
    | Some n => usable d' n /\ held d' = [n] /\ ~ nothing_usable recover nr_blocks d
    | None => held d' = [] /\ bufs d' = bufs d /\ nothing_usable recover nr_blocks d
    end /\ (usable d 0 -> r = Some 0 /\ bufs d' = bufs d) /\
    (written d' = written d \/
     written d' = 0 :: written d /\ recover = true /\ rdonly = false /\ is_Some (bufs d 0) /\ ~ usable d 0)).
  { intros d1 H1 H2 H3 Hn. unfold nothing_usable. destruct recover; cbn [negb].
    - intros E. specialize (Hs d1 Hlen H1 H2 H3). rewrite E in Hs. destruct Hs as [Hr Hw].
      split; [|split; [done|naive_solver]]. destruct r as [n|].
      + destruct Hr as (? & ? & Hex). split_and!; [done..|]. intros [_ Hn2]. destruct (Hn2 eq_refl).
        rewrite !Exists_cons, Exists_nil in Hex. naive_solver.
      + destruct Hr as (? & ? & Hf). split_and!; [done..|]. intros _. rewrite !list.Forall_cons in Hf. naive_solver.
    - intros [= <- <-]. unfold release_primary, primary_refs in *. destruct (bufs d 0); cbn; rewrite H3; split_and!; auto; done. }
  destruct (bufs d 0) as [p|] eqn:E0.
  - destruct (fst (is_boot_sector_ntfs p silent)) eqn:Ep.
    + intros [= <- <-]. cbn. rewrite Hheld. split_and!; auto; [by apply Hu|]. intros [Hn _]. by apply Hn, Hu.
    + apply Hmain; [done|done| |by rewrite Hu]. cbn. unfold primary_refs. by rewrite E0, Hheld.
  - apply Hmain; [done|done| |by rewrite Hu]. unfold primary_refs. by rewrite E0, Hheld.
Qed.

(** A boot sector with 8 sectors per cluster and 1024 byte mft records. *)
Definition sample_boot (bps nr_sectors lcn : Z) : list Z :=
  [0xeb; 0x52; 0x90] ++ le_split 8 magicNTFS ++ le_split 2 bps ++ [8] ++ repeat 0 7 ++ [0xf8; 0; 0] ++ le_split 2 63
  ++ le_split 2 255 ++ repeat 0 12 ++ le_split 8 nr_sectors ++ le_split 8 lcn ++ le_split 8 2
  ++ [0xf6; 0; 0; 0] ++ [1; 0; 0; 0] ++ le_split 8 0x1234567890 ++ repeat 0 430 ++ [0x55; 0xaa].

Lemma read_boot_sector_correct_witness :
  let good := sample_boot 512 1000 4 in
  let d := mk_device (fun n => if n =? 0 then Some (repeat 0 512) else if n =? 999 then Some good else None) [] [] in
  let '(d', r) := read_ntfs_boot_sector 1000 false true false true d in
  r = Some 0 /\ bufs d' 0 = Some good /\ usable d' 0 /\ held d' = [0] /\ written d' = [0].
Proof.
  intros good d. destruct (read_ntfs_boot_sector 1000 false true false true d) as [d' r] eqn:E.
  pose proof (read_boot_sector_correct 1000 false true false true d d' r) as H.
  assert (Hr : r = Some 0 /\ bufs d' 0 = Some good /\ written d' = [0]).
  { vm_compute in E. injection E as <- <-. vm_compute. auto. }
  destruct Hr as (-> & Hb & Hw). destruct H as [(Hu & Hh & _) _].
  - intros n b. unfold d. cbn [bufs]. destruct (n =? 0); [|destruct (n =? 999)]; intros [= <-]; vm_compute; lia.
  - reflexivity.
  - exact E.
  - auto.
Defined.

(** ** Geometry *)

Lemma ctz_pow2 (k : nat) : ctz (Nat.iter k xO xH) = Z.of_nat k.
Proof. induction k as [|k IH]; [done|]. change (1 + ctz (Nat.iter k xO xH) = Z.of_nat (S k)). lia. Qed.

Lemma ffs_pow2 k : 0 <= k -> ffs (2 ^ k) = k + 1.
Proof.
  intros Hk. assert (E : 2 ^ k = Zpos (Nat.iter (Z.to_nat k) xO xH)).
  { rewrite <- (Z2Nat.id k) at 1 by done. induction (Z.to_nat k) as [|n IH]; [done|].
    rewrite Nat2Z.inj_succ, Z.pow_succ_r, IH by lia. done. }
  rewrite E. cbn [ffs]. rewrite ctz_pow2. lia.
Qed.

Lemma shl32_pow2 x n : 0 <= n < 32 -> 0 <= x * 2 ^ n < 0x100000000 -> shl32 x n = Ret (x * 2 ^ n).
Proof.
  intros Hn Hx. unfold shl32. rewrite (proj2 (Z.leb_le 0 n)), (proj2 (Z.ltb_lt n 32)) by lia. cbn [andb].
  by rewrite Z.shiftl_mul_pow2, u32_id by lia.
Qed.

(** The size the boot sector gives for a record. *)
Definition nominal_record_size (cluster_size c : Z) : Z := if c >? 0 then cluster_size * c else 2 ^ (- c).

Lemma record_size_spec cb c :
  0 <= cb <= 16 -> -128 <= c < 128 -> clusters_per_record_ok c = true ->
  exists k, 0 <= k <= 31 /\ nominal_record_size (2 ^ cb) c = 2 ^ k /\ record_size (2 ^ cb) c = Ret (2 ^ k).
Proof.
  intros Hcb Hc Hok.
  assert (Hcases : (exists j, 0 <= j <= 6 /\ c = 2 ^ j) \/ -31 <= c <= -9).
  { revert Hok. unfold clusters_per_record_ok, u8. destruct (Z.ltb_spec (c mod 0x100) 0xe1), (Z.gtb_spec (c mod 0x100) 0xf7); cbn [orb];
      rewrite ?orb_true_iff, ?Z.eqb_eq; intros Hok.
    4:{ right. assert (c < 0) by (destruct (Z.lt_ge_cases c 0); [done|]; rewrite Z.mod_small in * by lia; lia).
        rewrite <- (Z.mod_add c 1), Z.mod_small in * by lia. lia. }
    all: left; destruct Hok as [[[[[[-> | ->] | ->] | ->] | ->] | ->] | ->];
      [exists 0 | exists 1 | exists 2 | exists 3 | exists 4 | exists 5 | exists 6]; done. }
  unfold nominal_record_size, record_size. destruct Hcases as [(j & Hj & ->)|Hn].
  - assert (0 < 2 ^ j) by (apply Z.pow_pos_nonneg; lia). destruct (Z.gtb_spec (2 ^ j) 0); [|lia].
    exists (cb + j). rewrite ffs_pow2, Z.add_simpl_r, Z.pow_add_r by lia. split; [lia|split; [done|]].
    apply shl32_pow2; [lia|]. rewrite <- Z.pow_add_r by lia. pose proof (Z.pow_lt_mono_r 2 (cb + j) 32). lia.
  - destruct (Z.gtb_spec c 0); [lia|]. exists (- c). split; [lia|split; [done|]].
    rewrite shl32_pow2; [f_equal; lia|lia|]. pose proof (Z.pow_lt_mono_r 2 (- c) 32). lia.
Qed.

(** What an accepted boot sector says about the sizes. *)
Lemma valid_boot_inv b : valid_boot b ->
  0x100 <= bytes_per_sector b <= 0x1000 /\ (exists j, 0 <= j <= 7 /\ sectors_per_cluster b = 2 ^ j) /\
  bytes_per_sector b * sectors_per_cluster b <= NTFS_MAX_CLUSTER_SIZE /\
  clusters_per_record_ok (clusters_per_mft_record b) = true /\ clusters_per_record_ok (clusters_per_index_record b) = true.
Proof.
  unfold valid_boot, is_boot_sector_ntfs. cbv zeta.
  destruct (negb (oem_id b =? magicNTFS)); [done|].
  destruct (Z.ltb_spec (bytes_per_sector b) 0x100); [done|]. destruct (Z.gtb_spec (bytes_per_sector b) 0x1000); [done|]. cbn [orb].
  match goal with |- context [if negb ?c then _ else _] => destruct c eqn:Es; [|done] end. cbn [negb].
  assert (Hj : exists j, 0 <= j <= 7 /\ sectors_per_cluster b = 2 ^ j).
  { rewrite !orb_true_iff, !Z.eqb_eq in Es. destruct Es as [[[[[[[-> | ->] | ->] | ->] | ->] | ->] | ->] | ->];
      [exists 0 | exists 1 | exists 2 | exists 3 | exists 4 | exists 5 | exists 6 | exists 7]; done. }
  assert (0 <= bytes_per_sector b * sectors_per_cluster b < 0x100000000).
  { destruct Hj as (j & Hj & ->). pose proof (Z.pow_le_mono_r 2 j 7). assert (0 < 2 ^ j) by (apply Z.pow_pos_nonneg; lia). nia. }
  rewrite u32_id by done. destruct (Z.gtb_spec (bytes_per_sector b * sectors_per_cluster b) NTFS_MAX_CLUSTER_SIZE); [done|].
  match goal with |- context [if ?c then _ else _] => destruct c; [done|] end.
  destruct (clusters_per_record_ok (clusters_per_mft_record b)); [|done].
  destruct (clusters_per_record_ok (clusters_per_index_record b)); [|done]. done.
Qed.

(** The conditions under which the driver supports a volume, in terms of the
    sizes the boot sector stands for. *)
Definition supported (s_blocksize page sizeof_long : Z) (b : list Z) : Prop :=
  let cs := bytes_per_sector b * sectors_per_cluster b in
  let nr := number_of_sectors b / sectors_per_cluster b in
  let mft := nominal_record_size cs (clusters_per_mft_record b) in
  let index := nominal_record_size cs (clusters_per_index_record b) in
  s_blocksize <= bytes_per_sector b <= mft /\ mft <= page /\ bytes_per_sector b <= index /\
  0 <= nr < 2 ^ 32 /\ (sizeof_long < 8 -> nr * cs < 2 ^ 41) /\ b_mft_lcn b < nr /\ b_mftmirr_lcn b < nr.

(** A size, its logarithm and its mask. *)
Definition size_bits_mask (size bits mask : Z) : Prop := 0 <= bits < 32 /\ size = 2 ^ bits /\ mask = size - 1.

Record geometry (b : list Z) (v : ntfs_volume) : Prop := {
  geo_sector : sector_size v = bytes_per_sector b /\ sector_size v = 2 ^ sector_size_bits v;
  geo_cluster : cluster_size v = bytes_per_sector b * sectors_per_cluster b /\
    size_bits_mask (cluster_size v) (cluster_size_bits v) (cluster_size_mask v);
  geo_mft : mft_record_size v = nominal_record_size (cluster_size v) (clusters_per_mft_record b) /\
    size_bits_mask (mft_record_size v) (mft_record_size_bits v) (mft_record_size_mask v);
  geo_index : index_record_size v = nominal_record_size (cluster_size v) (clusters_per_index_record b) /\
    size_bits_mask (index_record_size v) (index_record_size_bits v) (index_record_size_mask v);
  geo_clusters : nr_clusters v = number_of_sectors b / sectors_per_cluster b;
  geo_lcns : mft_lcn v = b_mft_lcn b /\ mftmirr_lcn v = b_mftmirr_lcn b;
  geo_mirror : mftmirr_size v * mft_record_size v = Z.max (4 * mft_record_size v) (cluster_size v);
  geo_serial : serial_no v = volume_serial_number b;
}.

Lemma size_bits_mask_pow2 k : 0 <= k < 32 -> size_bits_mask (2 ^ k) (u8 (ffs (2 ^ k) - 1)) (u32 (2 ^ k - 1)).
Proof.
  intros Hk. rewrite ffs_pow2, Z.add_simpl_r, u8_id by lia. split; [lia|split; [done|]].
  assert (0 < 2 ^ k) by (apply Z.pow_pos_nonneg; lia). pose proof (Z.pow_lt_mono_r 2 k 32). apply u32_id. lia.
Qed.

Lemma u64_ge_iff x : S64_MIN <= x <= S64_MAX -> (u64 x >=? 2 ^ 32) = negb ((0 <=? x) && (x <? 2 ^ 32)).
Proof.
  unfold S64_MIN, S64_MAX, u64. intros Hx. destruct (Z.leb_spec 0 x); cbn [andb negb].
  - rewrite Z.mod_small by lia. destruct (Z.geb_spec x (2 ^ 32)), (Z.ltb_spec x (2 ^ 32)); try lia; done.
  - rewrite <- (Z.mod_add x 1), Z.mod_small by lia. destruct (Z.geb_spec (x + 1 * 0x10000000000000000) (2 ^ 32)); [done|lia].
Qed.

Lemma mirror_size cb mb : 0 <= cb -> 0 <= mb ->
  (if 2 ^ cb <=? 4 * 2 ^ mb then 4 else Z.shiftr (2 ^ cb) mb) * 2 ^ mb = Z.max (4 * 2 ^ mb) (2 ^ cb).
Proof.
  intros Hc Hm. destruct (Z.leb_spec (2 ^ cb) (4 * 2 ^ mb)); [lia|].
  assert (mb <= cb). { apply (Z.pow_le_mono_r_iff 2); [lia|lia|]. pose proof (Z.pow_pos_nonneg 2 mb). lia. }
  rewrite Z.shiftr_div_pow2 by done. replace cb with (cb - mb + mb) at 1 by lia.
  rewrite Z.pow_add_r, Z.div_mul by (try lia; pose proof (Z.pow_pos_nonneg 2 mb); lia).
  rewrite <- Z.pow_add_r by lia. replace (cb - mb + mb) with cb by lia. lia.
Qed.

(** The exponents of the sizes of an accepted boot sector. *)
Lemma boot_exponents b k : valid_boot b -> 0 <= k -> bytes_per_sector b = 2 ^ k ->
  exists j m x, (0 <= j <= 7 /\ k <= 12 /\ k + j <= 16 /\ 0 <= m <= 31 /\ 0 <= x <= 31) /\ sectors_per_cluster b = 2 ^ j /\
    (nominal_record_size (2 ^ (k + j)) (clusters_per_mft_record b) = 2 ^ m /\
     record_size (2 ^ (k + j)) (clusters_per_mft_record b) = Ret (2 ^ m)) /\
    (nominal_record_size (2 ^ (k + j)) (clusters_per_index_record b) = 2 ^ x /\
     record_size (2 ^ (k + j)) (clusters_per_index_record b) = Ret (2 ^ x)).
Proof.
  intros Hv Hk0 Hk. destruct (valid_boot_inv b Hv) as (Hbps & (j & Hj & Hspc) & Hmax & Hcm & Hci).
  assert (Hk12 : k <= 12) by (apply (Z.pow_le_mono_r_iff 2); lia).
  assert (Hkj : k + j <= 16).
  { apply (Z.pow_le_mono_r_iff 2); [lia..|]. rewrite Z.pow_add_r, <- Hk, <- Hspc by lia. exact Hmax. }
  assert (Hs8 : forall x, -128 <= s8 x < 128) by (intros x; unfold s8; pose proof (Z.mod_pos_bound (x + 0x80) 0x100); lia).
  destruct (record_size_spec (k + j) (clusters_per_mft_record b)) as (m & Hm & Em & Rm); [lia|apply Hs8|done|].
  destruct (record_size_spec (k + j) (clusters_per_index_record b)) as (x & Hx & Ex & Rx); [lia|apply Hs8|done|].
  exists j, m, x. auto 10.
Qed.

Lemma nr_sectors_range b j : 0 <= j -> S64_MIN <= number_of_sectors b / 2 ^ j <= S64_MAX.
Proof.
  intros Hj. pose proof (s64_range (fld 8 40 b)) as Hr. fold (sle64_to_cpu (fld 8 40 b)) in Hr. fold (number_of_sectors b) in Hr.
  assert (0 < 2 ^ j) by (apply Z.pow_pos_nonneg; lia). unfold S64_MIN, S64_MAX in *.
  split; [apply Z.div_le_lower_bound; nia|apply Z.div_le_upper_bound; nia].
Qed.

(** The volume size in bytes of the check for 32-bit machines. *)
Lemma volume_bytes nr cb : 0 <= nr < 2 ^ 32 -> 0 <= cb <= 16 -> u64 (Z.shiftl nr (u8 (ffs (2 ^ cb) - 1))) = nr * 2 ^ cb.
Proof.
  intros Hnr Hcb. rewrite ffs_pow2, Z.add_simpl_r, u8_id, Z.shiftl_mul_pow2 by lia. apply u64_id.
  pose proof (Z.pow_le_mono_r 2 cb 16). pose proof (Z.pow_pos_nonneg 2 cb). nia.
Qed.

(** C39: [parse_ntfs_boot_sector], on a boot sector [is_boot_sector_ntfs] accepts
    and whose sector size is a power of two: no shift is undefined, the volume is
    refused exactly when it is not [supported], and otherwise every size is the
    one the boot sector stands for and a power of two with the logarithm and mask
    stored beside it, the number of clusters is that of whole clusters, and the
    mft mirror holds four mft records or a cluster of them, whichever is more. *)
Theorem parse_boot_sector_correct s_blocksize page sizeof_long b k :
  valid_boot b -> 0 <= k -> bytes_per_sector b = 2 ^ k -> page <= 2 ^ 29 ->
  match parse_ntfs_boot_sector s_blocksize page sizeof_long b with
  | Ret (Some v) => supported s_blocksize page sizeof_long b /\ geometry b v
  | Ret None => ~ supported s_blocksize page sizeof_long b
  | _ => False
  end.
Proof.
  intros Hv Hk0 Hk Hpage. destruct (boot_exponents b k Hv Hk0 Hk) as (j & m & x & Hr & Hspc & (Em & Rm) & (Ex & Rx)).
  assert (Hcs : bytes_per_sector b * sectors_per_cluster b = 2 ^ (k + j)) by (by rewrite Hk, Hspc, Z.pow_add_r by lia).
  pose proof (nr_sectors_range b j ltac:(lia)) as Hnr.
  pose proof (Z.pow_le_mono_r 2 (k + j) 16 ltac:(lia) ltac:(lia)). pose proof (Z.pow_pos_nonneg 2 (k + j) ltac:(lia) ltac:(lia)).
  unfold supported, parse_ntfs_boot_sector. cbv zeta. rewrite Hcs, Em, Ex.
  rewrite Hspc, ffs_pow2, Z.add_simpl_r, (u32_id j) by lia. rewrite Hk in Hcs |- *. rewrite Hspc in Hcs.
  destruct (Z.ltb_spec (2 ^ k) s_blocksize); [lia|]. rewrite shl32_pow2, Hcs, bind_Ret by lia.
  destruct (Z.ltb_spec (2 ^ (k + j)) (2 ^ k)) as [Hlt|]; [pose proof (Z.pow_le_mono_r 2 k (k + j)); lia|].
  rewrite Rm, bind_Ret. destruct (Z.gtb_spec (2 ^ m) page); [lia|].
  destruct (Z.ltb_spec (2 ^ m) (2 ^ k)); [lia|]. rewrite Rx, bind_Ret. destruct (Z.ltb_spec (2 ^ x) (2 ^ k)); [lia|].
  rewrite Z.shiftr_div_pow2, u64_ge_iff by lia. set (nr := number_of_sectors b / 2 ^ j) in *.
  destruct (Z.leb_spec 0 nr); cbn [andb negb]; [|lia]. destruct (Z.ltb_spec nr (2 ^ 32)); cbn [negb]; [|lia].
  rewrite volume_bytes by lia.
  destruct ((sizeof_long <? 8) && (nr * 2 ^ (k + j) >=? 2 ^ 41)) eqn:Elong.
  { apply andb_true_iff in Elong as [?%Z.ltb_lt ?%Z.geb_le]. lia. }
  assert (Hlong : sizeof_long < 8 -> nr * 2 ^ (k + j) < 2 ^ 41).
  { intros Hl%Z.ltb_lt. rewrite Hl in Elong. cbn [andb] in Elong. destruct (Z.geb_spec (nr * 2 ^ (k + j)) (2 ^ 41)); [done|lia]. }
  destruct (Z.geb_spec (b_mft_lcn b) nr); [lia|]. destruct (Z.geb_spec (b_mftmirr_lcn b) nr); [lia|].
  assert (Hm29 : m <= 29) by (apply (Z.pow_le_mono_r_iff 2); lia).
  assert (Hm8 : u8 (ffs (2 ^ m) - 1) = m) by (rewrite ffs_pow2, Z.add_simpl_r by lia; apply u8_id; lia).
  rewrite Hm8, shl32_pow2, bind_Ret by (pose proof (Z.pow_le_mono_r 2 m 29); pose proof (Z.pow_pos_nonneg 2 m); lia).
  split; [lia|]. pose proof (size_bits_mask_pow2 m ltac:(lia)) as Hbm. rewrite Hm8 in Hbm.
  constructor; cbn; rewrite ?Em, ?Ex, ?Hk, ?Hspc, ?Hcs; auto using mirror_size.
  - split; [done|]. rewrite ffs_pow2, Z.add_simpl_r, u8_id by lia. done.
  - split; [done|]. apply size_bits_mask_pow2. lia.
  - split; [done|]. apply size_bits_mask_pow2. lia.
  - apply mirror_size; lia.
Qed.

Lemma parse_boot_sector_correct_witness :
  exists v, parse_ntfs_boot_sector 512 4096 8 (sample_boot 512 1000 4) = Ret (Some v) /\
    geometry (sample_boot 512 1000 4) v /\ cluster_size v = 4096 /\ mft_record_size v = 1024 /\ nr_clusters v = 125.
Proof.
  pose proof (parse_boot_sector_correct 512 4096 8 (sample_boot 512 1000 4) 9) as H.
  assert (E : exists v, parse_ntfs_boot_sector 512 4096 8 (sample_boot 512 1000 4) = Ret (Some v) /\
    cluster_size v = 4096 /\ mft_record_size v = 1024 /\ nr_clusters v = 125) by (eexists; vm_compute; eauto).
  destruct E as (v & E & Hc & Hm & Hn). rewrite E in H. exists v. split; [done|]. split; [|done].
  apply H; [by vm_compute|lia|by vm_compute|lia].
Defined.

(** The sector size is only compared with 256 and 4096: for one that is no power
    of two the logarithm that is stored is that of another size. *)
Example odd_sector_size_accepted :
  valid_boot (sample_boot 768 1000 4) /\
  exists v, parse_ntfs_boot_sector 512 4096 8 (sample_boot 768 1000 4) = Ret (Some v) /\
    sector_size v = 768 /\ sector_size_bits v = 8 /\ cluster_size v = 6144 /\ cluster_size_bits v = 11.
Proof. split; [by vm_compute|]. eexists. vm_compute. auto. Qed.

(** A negative lcn of the mft is not beyond the end of the volume. *)
Example negative_mft_lcn_accepted :
  valid_boot (sample_boot 512 1000 (-7)) /\
  match parse_ntfs_boot_sector 512 4096 8 (sample_boot 512 1000 (-7)) with
  | Ret (Some v) => mft_lcn v = -7 /\ (a ← ntfs_setup_allocators 1 v; Ret (mft_zone_pos a)) = Ret (-7)
  | _ => False
  end.
Proof. vm_compute. auto. Qed.

(** ** Allocators *)

Lemma mft_zone_share_spec mult nr :
  mft_zone_share mult nr = (if (2 <=? mult) && (mult <=? 4) then mult else 1) * nr / 8.
Proof.
  unfold mft_zone_share. rewrite !Z.shiftr_div_pow2 by lia.
  change (2 ^ 1) with 2. change (2 ^ 2) with 4. change (2 ^ 3) with 8.
  destruct (Z.eqb_spec mult 4) as [->|]; [|destruct (Z.eqb_spec mult 3) as [->|]; [|destruct (Z.eqb_spec mult 2) as [->|]]].
  4:{ destruct (Z.leb_spec 2 mult), (Z.leb_spec mult 4); cbn [andb]; try lia; f_equal; lia. }
  - change ((if _ && _ then _ else _) * nr) with (4 * nr). Z.to_euclidean_division_equations. lia.
  - change ((if _ && _ then _ else _) * nr) with (3 * nr). Z.to_euclidean_division_equations. lia.
  - change ((if _ && _ then _ else _) * nr) with (2 * nr). Z.to_euclidean_division_equations. lia.
Qed.

(** The halving loop stops at the first zone size that fits. *)
Lemma cap_zone_spec (n fuel : nat) lcn nr size :
  (n < fuel)%nat -> 0 <= size < 2 ^ Z.of_nat n -> lcn < nr ->
  exists k, (k <= n)%nat /\ cap_zone fuel lcn nr size = Ret (lcn + size / 2 ^ Z.of_nat k) /\
    lcn + size / 2 ^ Z.of_nat k < nr /\ forall i, (i < k)%nat -> nr <= lcn + size / 2 ^ Z.of_nat i.
Proof.
  revert fuel size. induction n as [|n IH]; intros [|fuel] size Hf Hs Hl; try lia; cbn [cap_zone];
    (destruct (Z.geb_spec (lcn + size) nr); [|exists 0%nat; rewrite Z.div_1_r; split_and!; [lia|done|lia|lia]]).
  { change (2 ^ Z.of_nat 0) with 1 in Hs. lia. }
  rewrite Nat2Z.inj_succ, Z.pow_succ_r in Hs by lia.
  destruct (IH fuel (size / 2)) as (k & Hk & E & H1 & H2); [lia|split; [apply Z.div_pos; lia|apply Z.div_lt_upper_bound; lia]|done|].
  assert (Hd : forall i : nat, size / 2 / 2 ^ Z.of_nat i = size / 2 ^ Z.of_nat (S i)).
  { intros i. rewrite Z.div_div, Nat2Z.inj_succ, Z.pow_succ_r; lia. }
  exists (S k). rewrite Z.shiftr_div_pow2 by lia. change (2 ^ 1) with 2. rewrite E, !Hd in *. split_and!; [lia|done|done|].
  intros [|i] Hi; [by rewrite Z.div_1_r|]. rewrite <- Hd. apply H2. lia.
Qed.

Lemma default_mft_lcn_spec cb lcn : 8 <= cb <= 16 ->
  (lcn <=? default_mft_lcn (2 ^ cb)) = (lcn * 2 ^ cb <=? Z.max (16 * 1024) (2 * 2 ^ cb)).
Proof.
  intros Hcb.
  assert (H : cb = 8 \/ cb = 9 \/ cb = 10 \/ cb = 11 \/ cb = 12 \/ cb = 13 \/ cb = 14 \/ cb = 15 \/ cb = 16) by lia.
  repeat destruct H as [-> | H]; try subst cb;
    match goal with |- _ = (_ * ?p <=? ?m) => let p' := eval vm_compute in p in let m' := eval vm_compute in m in change p with p'; change m with m' end;
    match goal with |- (_ <=? ?d) = _ => let d' := eval vm_compute in d in change d with d' end;
    match goal with |- (?a <=? ?c) = (?d <=? ?e) => destruct (Z.leb_spec a c), (Z.leb_spec d e); try lia; done end.
Qed.

(** What a parsed boot sector guarantees the allocators. *)
Lemma parse_zone_facts s_blocksize page sizeof_long b k v :
  valid_boot b -> 0 <= k -> bytes_per_sector b = 2 ^ k ->
  parse_ntfs_boot_sector s_blocksize page sizeof_long b = Ret (Some v) ->
  0 <= nr_clusters v < 2 ^ 32 /\ mft_lcn v < nr_clusters v /\ exists cb, 8 <= cb <= 16 /\ cluster_size v = 2 ^ cb.
Proof.
  intros Hv Hk0 Hk. destruct (boot_exponents b k Hv Hk0 Hk) as (j & m & x & Hr & Hspc & (Em & Rm) & (Ex & Rx)).
  destruct (valid_boot_inv b Hv) as (Hbps & _).
  assert (8 <= k) by (apply (Z.pow_le_mono_r_iff 2); lia).
  pose proof (nr_sectors_range b j ltac:(lia)) as Hnr.
  pose proof (Z.pow_le_mono_r 2 (k + j) 16 ltac:(lia) ltac:(lia)). pose proof (Z.pow_pos_nonneg 2 (k + j) ltac:(lia) ltac:(lia)).
  unfold parse_ntfs_boot_sector. cbv zeta. destruct (_ <? s_blocksize); [done|].
  rewrite Hspc, ffs_pow2, Z.add_simpl_r, (u32_id j), Hk by lia.
  rewrite shl32_pow2, <- Z.pow_add_r, bind_Ret by (rewrite <- ?Z.pow_add_r; lia).
  destruct (_ <? _); [done|]. rewrite Rm, bind_Ret. destruct (_ >? _); [done|]. destruct (_ <? _); [done|].
  rewrite Rx, bind_Ret. destruct (_ <? _); [done|]. rewrite Z.shiftr_div_pow2, u64_ge_iff by lia.
  destruct (Z.leb_spec 0 (number_of_sectors b / 2 ^ j)), (Z.ltb_spec (number_of_sectors b / 2 ^ j) (2 ^ 32)); cbn [andb negb]; try done.
  destruct (_ && _); [done|]. destruct (Z.geb_spec (b_mft_lcn b) (number_of_sectors b / 2 ^ j)); [done|].
  destruct (_ >=? _); [done|]. intros (four & _ & [= <-])%bind_Ret_inv. cbn. split; [lia|split; [lia|]]. exists (k + j). lia.
Qed.

(** C40: [ntfs_setup_allocators] on the volume [parse_ntfs_boot_sector] made: the
    loop that shrinks the mft zone ends, and the zone ends at the mft plus the
    largest of the configured share of the volume, its half, its quarter, ...
    that stays inside the volume; the zone is extended to the start of the volume
    exactly when the mft starts no later than 16kiB or two clusters; the data
    zones start at the end of the mft zone and at the start of the volume. *)
Theorem setup_allocators_correct s_blocksize page sizeof_long b k v mult :
  valid_boot b -> 0 <= k -> bytes_per_sector b = 2 ^ k ->
  parse_ntfs_boot_sector s_blocksize page sizeof_long b = Ret (Some v) ->
  let share := (if (2 <=? mult) && (mult <=? 4) then mult else 1) * nr_clusters v / 8 in
  exists n : nat,
    let zone_end := mft_lcn v + share / 2 ^ Z.of_nat n in
    ntfs_setup_allocators mult v =
      Ret (mk_allocators (if mft_lcn v * cluster_size v <=? Z.max (16 * 1024) (2 * cluster_size v) then 0 else mft_lcn v)
        (mft_lcn v) zone_end zone_end 0 24) /\
    zone_end < nr_clusters v /\ forall i, (i < n)%nat -> nr_clusters v <= mft_lcn v + share / 2 ^ Z.of_nat i.
Proof.
  intros Hv Hk0 Hk Hp share.
  destruct (parse_zone_facts _ _ _ _ _ _ Hv Hk0 Hk Hp) as (Hnr & Hlcn & cb & Hcb & Ecs).
  assert (Hshare : 0 <= share < 2 ^ Z.of_nat 34).
  { change (2 ^ Z.of_nat 34) with (4 * 2 ^ 32). unfold share. destruct (Z.leb_spec 2 mult), (Z.leb_spec mult 4); cbn [andb];
      (split; [apply Z.div_pos; nia|apply Z.div_lt_upper_bound; nia]). }
  destruct (cap_zone_spec 34 zone_fuel (mft_lcn v) (nr_clusters v) share) as (n & _ & E & H1 & H2); [unfold zone_fuel; lia|done|done|].
  exists n. cbv zeta. split_and!; [|done|done]. unfold ntfs_setup_allocators. rewrite mft_zone_share_spec. fold share.
  rewrite E, bind_Ret, Ecs, default_mft_lcn_spec by done. done.
Qed.

Lemma setup_allocators_correct_witness :
  match parse_ntfs_boot_sector 512 4096 8 (sample_boot 512 1000 100) with
  | Ret (Some v) => ntfs_setup_allocators 4 v = Ret (mk_allocators 100 100 115 115 0 24)
  | _ => False
  end.
Proof.
  destruct (parse_ntfs_boot_sector 512 4096 8 (sample_boot 512 1000 100)) as [[v|] | | | |] eqn:E; try (vm_compute in E; discriminate).
  pose proof (setup_allocators_correct 512 4096 8 (sample_boot 512 1000 100) 9 v 4) as H.
  destruct H as (n & Hs & H1 & H2); [by vm_compute|lia|by vm_compute|exact E|].
  vm_compute in E. injection E as <-. rewrite Hs.
  assert (n = 2%nat) as ->; [|reflexivity].
  destruct n as [|[|[|n]]]; [vm_compute in H1; discriminate..|reflexivity|].
  specialize (H2 2%nat ltac:(lia)). vm_compute in H2. by destruct H2.
Defined.
