(* ===== verification/MftMap.v ===== *)
(** * Mapping mft records

    Models the mapping of mft records of [src/ntfs/mft.c] and [src/ntfs/mft.h],
    the part of [src/ntfs/inode.c] that makes and destroys the inodes of extent
    records, and [ntfs_map_page] of [src/ntfs/aops.h].

    The inodes are a store of records indexed by their address; a function is a
    state transformer on that store, with an [outcome].  The page cache (what
    [read_mapping_page] returns for a page of $MFT) and the memory allocator are
    parameters; taking a mutex the caller already holds never returns. *)

From Stdlib Require Import ZArith Lia Bool.
From stdpp Require Import base list numbers option gmap.
From S2P Require Import Prelude Endian.

(** ** References (layout.h) *)

Definition MREF (x : Z) : Z := Z.land x 0xffffffffffff.
Definition MSEQNO (x : Z) : Z := Z.land (Z.shiftr x 48) 0xffff.
Definition MK_MREF (m s : Z) : Z := Z.lor (u64 (Z.shiftl s 48)) (Z.land m 0xffffffffffff).

Definition magic_FILE : Z := 0x454c4946.
Definition ntfs_is_magicp (mem : list Z) (p magic : Z) : outcome bool := x ← rd_le32 mem p; Ret (x =? magic).
Definition ntfs_is_mft_recordp (mem : list Z) (p : Z) : outcome bool := ntfs_is_magicp mem p magic_FILE.
Definition MFT_sequence_number : Z := 16.

(** ** State *)

(** The address of an inode. *)
Abbreviation ptr := positive.

(** [ntfs_inode] (inode.h), as far as records are mapped through it.  @ext is
    the array of the extent inodes of a base inode, with the slots that are
    allocated and not used yet, or the base inode of an extent inode; @attr_list is
    the attribute list, present when [NInoAttrList] holds (@attr_list_size is its
    length). *)
Inductive ext := Extents (inos : list (option ptr)) | Base (ni : ptr).

Record ntfs_inode := mk_inode {
  mft_no : Z;
  seq_no : Z;
  count : Z;
  mrec_lock : bool;
  page : option Z;
  page_ofs : Z;
  extent_lock : bool;
  nr_extents : Z;
  ni_ext : ext;
  attr_list : option (list Z);
}.

Definition set_count (n : Z) (i : ntfs_inode) : ntfs_inode :=
  mk_inode (mft_no i) (seq_no i) n (mrec_lock i) (page i) (page_ofs i) (extent_lock i) (nr_extents i) (ni_ext i) (attr_list i).
Definition set_mrec_lock (b : bool) (i : ntfs_inode) : ntfs_inode :=
  mk_inode (mft_no i) (seq_no i) (count i) b (page i) (page_ofs i) (extent_lock i) (nr_extents i) (ni_ext i) (attr_list i).
Definition set_page (p : option Z) (ofs : Z) (i : ntfs_inode) : ntfs_inode :=
  mk_inode (mft_no i) (seq_no i) (count i) (mrec_lock i) p ofs (extent_lock i) (nr_extents i) (ni_ext i) (attr_list i).
Definition set_extent_lock (b : bool) (i : ntfs_inode) : ntfs_inode :=
  mk_inode (mft_no i) (seq_no i) (count i) (mrec_lock i) (page i) (page_ofs i) b (nr_extents i) (ni_ext i) (attr_list i).
Definition set_ext (n : Z) (e : ext) (i : ntfs_inode) : ntfs_inode :=
  mk_inode (mft_no i) (seq_no i) (count i) (mrec_lock i) (page i) (page_ofs i) (extent_lock i) n e (attr_list i).
Definition set_seq_no (n : Z) (i : ntfs_inode) : ntfs_inode :=
  mk_inode (mft_no i) n (count i) (mrec_lock i) (page i) (page_ofs i) (extent_lock i) (nr_extents i) (ni_ext i) (attr_list i).

(** The inodes in memory, the pages of $MFT that are pinned (one entry for each
    time), the errors flag of the volume, and which of the next allocations
    succeed (all of them when the list is used up). *)
Record world := mk_world {
  inodes : gmap ptr ntfs_inode;
  pinned : list Z;
  vol_errors : bool;
  allocs : list bool;
}.

(** State transformers. *)
Definition M (A : Type) : Type := world -> outcome (world * A).
#[export] Instance M_ret : MRet M := fun A a w => Ret (w, a).
#[export] Instance M_bind : MBind M := fun A B f m w => '(w, a) ← m w; f a w.

Definition lift {A} (o : outcome A) : M A := fun w => a ← o; Ret (w, a).
Definition assert_not (b : bool) : M unit := lift (BUG_ON b).

Definition get (p : ptr) : M ntfs_inode := fun w =>
  match inodes w !! p with Some i => Ret (w, i) | None => Fault end.
Definition modify (p : ptr) (f : ntfs_inode -> ntfs_inode) : M unit := fun w =>
  match inodes w !! p with
  | Some i => Ret (mk_world (<[p := f i]> (inodes w)) (pinned w) (vol_errors w) (allocs w), tt)
  | None => Fault
  end.
Definition alloc_ok : M bool := fun w =>
  match allocs w with
  | [] => Ret (w, true)
  | b :: l => Ret (mk_world (inodes w) (pinned w) (vol_errors w) l, b)
  end.

Definition atomic_inc (p : ptr) : M unit := modify p (fun i => set_count (count i + 1) i).
Definition atomic_dec (p : ptr) : M unit := modify p (fun i => set_count (count i - 1) i).

(** The function does not return, reads outside an object, stops in [BUG()]. *)
Definition hang {A} : M A := fun _ => Diverge.
Definition crash {A} : M A := fun _ => Fault.
Definition bug {A} : M A := fun _ => Bug.

Definition update (f : world -> world) : M unit := fun w => Ret (f w, tt).
Definition set_inodes (f : gmap ptr ntfs_inode -> gmap ptr ntfs_inode) : M unit :=
  update (fun w => mk_world (f (inodes w)) (pinned w) (vol_errors w) (allocs w)).
Definition set_pinned (f : list Z -> list Z) : M unit :=
  update (fun w => mk_world (inodes w) (f (pinned w)) (vol_errors w) (allocs w)).

Definition NVolSetErrors : M unit := update (fun w => mk_world (inodes w) (pinned w) true (allocs w)).

Definition lock_mrec (p : ptr) : M unit :=
  i ← get p; if mrec_lock i then hang else modify p (set_mrec_lock true).
Definition unlock_mrec (p : ptr) : M unit := modify p (set_mrec_lock false).
Definition lock_extent (p : ptr) : M unit :=
  i ← get p; if extent_lock i then hang else modify p (set_extent_lock true).
Definition unlock_extent (p : ptr) : M unit := modify p (set_extent_lock false).

(** ** Extent inodes (inode.c) *)

Definition ntfs_alloc_extent_inode : M (option ptr) :=
  fun w => '(w, ok) ← alloc_ok w; Ret (w, if (ok : bool) then Some (fresh (dom (inodes w))) else None).

(** [__ntfs_init_inode] and the fields its caller sets *)
Definition init_inode (no : Z) : ntfs_inode := mk_inode no 0 1 false None 0 false 0 (Extents []) None.

Definition ntfs_new_extent_inode (no : Z) : M (option ptr) :=
  ni ← ntfs_alloc_extent_inode;
  match ni with
  | None => mret None
  | Some p => set_inodes <[p := init_inode no]>;; mret (Some p)
  end.

Definition ntfs_destroy_extent_inode (p : ptr) : M unit :=
  i ← get p;
  assert_not (bool_decide (is_Some (page i)));;
  atomic_dec p;;
  i ← get p;
  assert_not (negb (count i =? 0));;
  set_inodes (delete p).

(** The inode of an extent record owns no runlist, attribute list or name. *)
Definition ntfs_clear_extent_inode (p : ptr) : M unit :=
  i ← get p;
  assert_not (negb (nr_extents i =? -1));;
  ntfs_destroy_extent_inode p.

(** ** Mapping (mft.c) *)

Section Map.
(** What [read_mapping_page] returns for a page of $MFT: an errno, or the bytes
    of the page and whether it is marked in error; the size of $MFT in bytes; the
    size of its records and of pages. *)
Context (read_mapping_page : Z -> Z + (list Z * bool)) (i_size mft_record_size_bits PAGE_CACHE_SHIFT : Z).

Definition page_size : Z := 2 ^ PAGE_CACHE_SHIFT.
Definition mft_record_size : Z := 2 ^ mft_record_size_bits.

(** [ntfs_map_page] on the mapping of $MFT, and [ntfs_unmap_page] *)
Fixpoint unpin (n : Z) (l : list Z) : list Z :=
  match l with [] => [] | x :: l => if x =? n then l else x :: unpin n l end.

Definition ntfs_unmap_page (index : Z) : M unit := set_pinned (unpin index).

Definition ntfs_map_page (index : Z) : M (Z + list Z) :=
  match read_mapping_page index with
  | inl err => mret (inl err)
  | inr (data, PageError) =>
      set_pinned (cons index);;
      if (PageError : bool) then ntfs_unmap_page index;; mret (inl (- EIO)) else mret (inr data)
  end.

(** The record at an offset of a page. *)
Definition record_at (data : list Z) (ofs : Z) : list Z := take (Z.to_nat mft_record_size) (drop (Z.to_nat ofs) data).

Definition map_mft_record_page (p : ptr) : M (Z + list Z) :=
  i ← get p;
  assert_not (bool_decide (is_Some (page i)));;
  let index := Z.shiftr (u64 (Z.shiftl (mft_no i) mft_record_size_bits)) PAGE_CACHE_SHIFT in
  let ofs := u32 (Z.land (u64 (Z.shiftl (mft_no i) mft_record_size_bits)) (page_size - 1)) in
  let end_index := Z.shiftr i_size PAGE_CACHE_SHIFT in
  let err_out e := modify p (set_page None 0);; mret (inl e) in
  if (index >=? end_index)
     && ((index >? end_index) || (Z.land i_size (page_size - 1) <? u32 (ofs + mft_record_size)))
  then err_out (- ENOENT)
  else
    pg ← ntfs_map_page index;
    match pg with
    | inl e => err_out e
    | inr data =>
        ok ← lift (ntfs_is_mft_recordp data ofs);
        if (ok : bool) then
          modify p (set_page (Some index) ofs);;
          mret (inr (record_at data ofs))
        else
          ntfs_unmap_page index;;
          NVolSetErrors;;
          err_out (- EIO)
    end.

Definition map_mft_record (p : ptr) : M (Z + list Z) :=
  atomic_inc p;;
  lock_mrec p;;
  m ← map_mft_record_page p;
  match m with
  | inr m => mret (inr m)
  | inl e => unlock_mrec p;; atomic_dec p;; mret (inl e)
  end.

Definition unmap_mft_record_page (p : ptr) : M unit :=
  i ← get p;
  match page i with
  | None => bug
  | Some index => ntfs_unmap_page index;; modify p (set_page None 0)
  end.

Definition unmap_mft_record (p : ptr) : M unit :=
  i ← get p;
  assert_not (negb (bool_decide (is_Some (page i))));;
  unmap_mft_record_page p;;
  unlock_mrec p;;
  atomic_dec p.

Definition unmap_extent_mft_record (p : ptr) : M unit := unmap_mft_record p.

(** ** Extent records *)

(** The search among the extents already attached. *)
Fixpoint find_extent (n : nat) (no : Z) (inos : list (option ptr)) (i : Z) : M (option ptr) :=
  match n with
  | O => mret None
  | S n =>
      e ← lift (rd inos i);
      match e with
      | None => crash
      | Some p =>
          ni ← get p;
          if negb (mft_no ni =? no) then find_extent n no inos (i + 1)
          else atomic_inc p;; mret (Some p)
      end
  end.

(** The extent inode array, grown by four slots when it is full. *)
Definition grow_extents (base : ntfs_inode) : M (option (list (option ptr))) :=
  match ni_ext base with
  | Base _ => crash
  | Extents inos =>
      if Z.land (nr_extents base) 3 =? 0 then
        ok ← alloc_ok;
        if (ok : bool) then
          inos ← lift (blit (repeat None (Z.to_nat (nr_extents base + 4))) 0 inos 0 (nr_extents base));
          mret (Some inos)
        else mret None
      else mret (Some inos)
  end.

(** The extent is attached already: map it and check its sequence number. *)
Definition map_known_extent (ni : ptr) (seq : Z) : M (Z + (list Z * ptr)) :=
  m ← map_mft_record ni;
  atomic_dec ni;;
  match m with
  | inr m =>
      sequence_number ← lift (rd_le16 m MFT_sequence_number);
      if sequence_number =? seq then mret (inr (m, ni))
      else unmap_mft_record ni;; mret (inl (- EIO))
  | inl e => mret (inl e)
  end.

(** The label [unm_err_out], with [destroy_ni] set *)
Definition unm_err_out (base_ni ni : ptr) (e : Z) : M (Z + (list Z * ptr)) :=
  unmap_mft_record ni;; unlock_extent base_ni;; atomic_dec base_ni;; ntfs_clear_extent_inode ni;; mret (inl e).

(** Attaches the new extent inode [ni], whose record [m] is mapped. *)
Definition attach_extent (base_ni ni : ptr) (seq : Z) (m : list Z) : M (Z + (list Z * ptr)) :=
  sequence_number ← lift (rd_le16 m MFT_sequence_number);
  if negb (seq =? 0) && negb (sequence_number =? seq) then unm_err_out base_ni ni (- EIO)
  else
    base ← get base_ni;
    inos ← grow_extents base;
    match inos with
    | None => unm_err_out base_ni ni (- ENOMEM)
    | Some inos =>
        inos ← lift (wr inos (nr_extents base) (Some ni));
        modify base_ni (fun i => set_ext (nr_extents i + 1) (Extents inos) i);;
        unlock_extent base_ni;;
        atomic_dec base_ni;;
        mret (inr (m, ni))
    end.

(** The extent is not attached: make an inode for it and map its record. *)
Definition map_new_extent (base_ni : ptr) (no seq : Z) : M (Z + (list Z * ptr)) :=
  new ← ntfs_new_extent_inode no;
  match new with
  | None => unlock_extent base_ni;; atomic_dec base_ni;; mret (inl (- ENOMEM))
  | Some ni =>
      modify ni (fun i => set_ext (-1) (Base base_ni) (set_seq_no seq i));;
      m ← map_mft_record ni;
      match m with
      | inl e => unlock_extent base_ni;; atomic_dec base_ni;; ntfs_clear_extent_inode ni;; mret (inl e)
      | inr m => attach_extent base_ni ni seq m
      end
  end.

Definition map_extent_mft_record (base_ni : ptr) (mref : Z) : M (Z + (list Z * ptr)) :=
  atomic_inc base_ni;;
  lock_extent base_ni;;
  base ← get base_ni;
  found ← match ni_ext base with
          | Extents inos =>
              if nr_extents base >? 0 then find_extent (Z.to_nat (nr_extents base)) (MREF mref) inos 0 else mret None
          | Base _ => if nr_extents base >? 0 then crash else mret None
          end;
  match found with
  | Some ni => unlock_extent base_ni;; atomic_dec base_ni;; map_known_extent ni (MSEQNO mref)
  | None => map_new_extent base_ni (MREF mref) (MSEQNO mref)
  end.
End Map.
