(* ===== verification/MftMapSpec.v ===== *)
(** * Mapping mft records: specification and proofs

    Mapping and unmapping a record are inverse on the store of inodes; what
    [map_extent_mft_record] guarantees on success and on each error. *)

From Stdlib Require Import ZArith Lia Bool.
From stdpp Require Import base list numbers option gmap.
From S2P Require Import Prelude Endian MftMap.

(** ** Steps of a state transformer *)

Lemma M_step {A B} (m : M A) (f : A -> M B) w w' a r : m w = Ret (w', a) -> f a w' = r -> (m ≫= f) w = r.
Proof. intros E <-. unfold mbind, M_bind. by rewrite E. Qed.

Lemma M_run {A B} (m : M A) (f : A -> M B) w w' a : m w = Ret (w', a) -> (m ≫= f) w = f a w'.
Proof. intros E. by eapply M_step. Qed.

(** The store with the inode at [p] replaced. *)
Definition upd (w : world) (p : ptr) (i : ntfs_inode) : world :=
  mk_world (<[p := i]> (inodes w)) (pinned w) (vol_errors w) (allocs w).
Definition with_pinned (w : world) (l : list Z) : world := mk_world (inodes w) l (vol_errors w) (allocs w).
Definition with_errors (w : world) : world := mk_world (inodes w) (pinned w) true (allocs w).

Lemma upd_lookup w p i : inodes (upd w p i) !! p = Some i.
Proof. apply lookup_insert_eq. Qed.
Lemma upd_lookup_ne w p q i : p <> q -> inodes (upd w p i) !! q = inodes w !! q.
Proof. intros. by apply lookup_insert_ne. Qed.
Lemma upd_upd w p i j : upd (upd w p i) p j = upd w p j.
Proof. unfold upd. cbn. by rewrite insert_insert_eq. Qed.
Lemma upd_same w p i : inodes w !! p = Some i -> upd w p i = w.
Proof. intros. unfold upd. rewrite insert_id by done. by destruct w. Qed.
Lemma upd_comm w p q i j : p <> q -> upd (upd w p i) q j = upd (upd w q j) p i.
Proof. intros. unfold upd. cbn. by rewrite insert_insert_ne. Qed.

Lemma get_eq w p i : inodes w !! p = Some i -> get p w = Ret (w, i).
Proof. intros E. unfold get. by rewrite E. Qed.
Lemma modify_eq w p i f : inodes w !! p = Some i -> modify p f w = Ret (upd w p (f i), tt).
Proof. intros E. unfold modify. by rewrite E. Qed.
Lemma assert_not_eq w b : b = false -> assert_not b w = Ret (w, tt).
Proof. by intros ->. Qed.
Lemma lift_eq {A} w (o : outcome A) a : o = Ret a -> lift o w = Ret (w, a).
Proof. by intros ->. Qed.
Lemma lock_mrec_eq w p i : inodes w !! p = Some i -> mrec_lock i = false -> lock_mrec p w = Ret (upd w p (set_mrec_lock true i), tt).
Proof. intros E H. unfold lock_mrec. eapply M_step; [by apply get_eq|]. rewrite H. by apply modify_eq. Qed.
Lemma lock_extent_eq w p i : inodes w !! p = Some i -> extent_lock i = false -> lock_extent p w = Ret (upd w p (set_extent_lock true i), tt).
Proof. intros E H. unfold lock_extent. eapply M_step; [by apply get_eq|]. rewrite H. by apply modify_eq. Qed.

Create HintDb mft.
#[export] Hint Rewrite upd_lookup upd_upd : mft.

(** Runs the next operation of a sequence; the side condition is where the inode
    it uses is found. *)
Ltac inode_lookup := first [eassumption | apply upd_lookup | rewrite upd_lookup_ne; [eassumption|congruence] | rewrite upd_lookup_ne; [apply upd_lookup|congruence]].
Ltac mstep := eapply M_step;
  [first [ apply get_eq; inode_lookup | apply modify_eq; inode_lookup | by apply assert_not_eq
         | apply lock_mrec_eq; [inode_lookup|done] | apply lock_extent_eq; [inode_lookup|done] | reflexivity ]
  | cbv beta; rewrite ?upd_upd ].

(** ** One record *)

Section Map.
Context (read_mapping_page : Z -> Z + (list Z * bool)) (i_size mft_record_size_bits PAGE_CACHE_SHIFT : Z).
Hypothesis Hbits : 8 <= mft_record_size_bits <= PAGE_CACHE_SHIFT.
Hypothesis Hshift : PAGE_CACHE_SHIFT < 31.
Hypothesis Hpages : forall n data err, read_mapping_page n = inr (data, err) -> zlen data = page_size PAGE_CACHE_SHIFT.

Local Abbreviation map_mft_record := (map_mft_record read_mapping_page i_size mft_record_size_bits PAGE_CACHE_SHIFT).
Local Abbreviation map_mft_record_page := (map_mft_record_page read_mapping_page i_size mft_record_size_bits PAGE_CACHE_SHIFT).

(** Where record [no] lies: its page and its offset in the page. *)
Definition rec_page (no : Z) : Z := Z.shiftr (u64 (Z.shiftl no mft_record_size_bits)) PAGE_CACHE_SHIFT.
Definition rec_ofs (no : Z) : Z := u32 (Z.land (u64 (Z.shiftl no mft_record_size_bits)) (page_size PAGE_CACHE_SHIFT - 1)).

(** Record [no] exists, its page can be read, and its bytes are [m]. *)
Definition record_is (no : Z) (m : list Z) : Prop :=
  (rec_page no < Z.shiftr i_size PAGE_CACHE_SHIFT \/
   rec_page no = Z.shiftr i_size PAGE_CACHE_SHIFT /\
   u32 (rec_ofs no + mft_record_size mft_record_size_bits) <= Z.land i_size (page_size PAGE_CACHE_SHIFT - 1)) /\
  exists data, read_mapping_page (rec_page no) = inr (data, false) /\
    ntfs_is_mft_recordp data (rec_ofs no) = Ret true /\ m = record_at mft_record_size_bits data (rec_ofs no).

(** The inode with its record mapped. *)
Definition mapped (i : ntfs_inode) : ntfs_inode :=
  set_page (Some (rec_page (mft_no i))) (rec_ofs (mft_no i)) (set_mrec_lock true (set_count (count i + 1) i)).

(** An inode nobody has the record of mapped. *)
Definition idle (i : ntfs_inode) : Prop := page i = None /\ page_ofs i = 0 /\ mrec_lock i = false.

Lemma idle_set_page i : idle i -> set_page None 0 i = i.
Proof. destruct i. unfold idle. cbn. naive_solver. Qed.

Lemma rec_ofs_eq no : rec_ofs no = no mod 2 ^ (PAGE_CACHE_SHIFT - mft_record_size_bits) * 2 ^ mft_record_size_bits.
Proof.
  unfold rec_ofs, page_size.
  replace (2 ^ PAGE_CACHE_SHIFT - 1) with (Z.ones PAGE_CACHE_SHIFT) by (rewrite Z.ones_equiv; lia).
  rewrite Z.land_ones, Z.shiftl_mul_pow2 by lia. unfold u64. change 0x10000000000000000 with (2 ^ 64).
  replace (2 ^ 64) with (2 ^ PAGE_CACHE_SHIFT * 2 ^ (64 - PAGE_CACHE_SHIFT)) by (rewrite <- Z.pow_add_r by lia; f_equal; lia).
  assert (0 < 2 ^ PAGE_CACHE_SHIFT) by (apply Z.pow_pos_nonneg; lia).
  assert (0 < 2 ^ (64 - PAGE_CACHE_SHIFT)) by (apply Z.pow_pos_nonneg; lia).
  rewrite <- Znumtheory.Zmod_div_mod; [|lia|lia|by eexists; rewrite Z.mul_comm].
  replace (2 ^ PAGE_CACHE_SHIFT) with (2 ^ (PAGE_CACHE_SHIFT - mft_record_size_bits) * 2 ^ mft_record_size_bits) at 1
    by (rewrite <- Z.pow_add_r by lia; f_equal; lia).
  rewrite Z.mul_mod_distr_r by (apply Z.pow_nonzero; lia).
  apply u32_id.
  assert (0 <= no mod 2 ^ (PAGE_CACHE_SHIFT - mft_record_size_bits) < 2 ^ (PAGE_CACHE_SHIFT - mft_record_size_bits))
    by (apply Z.mod_pos_bound, Z.pow_pos_nonneg; lia).
  assert (0 < 2 ^ mft_record_size_bits) by (apply Z.pow_pos_nonneg; lia).
  pose proof (Z.pow_lt_mono_r 2 PAGE_CACHE_SHIFT 31 ltac:(lia) ltac:(lia) ltac:(lia)).
  replace (2 ^ PAGE_CACHE_SHIFT) with (2 ^ (PAGE_CACHE_SHIFT - mft_record_size_bits) * 2 ^ mft_record_size_bits) in *
    by (rewrite <- Z.pow_add_r by lia; f_equal; lia).
  change 0x100000000 with (2 * 2 ^ 31). nia.
Qed.

Lemma record_size_min : 0x100 <= mft_record_size mft_record_size_bits.
Proof. unfold mft_record_size. change 0x100 with (2 ^ 8). apply Z.pow_le_mono_r; lia. Qed.

Lemma rec_ofs_bound no : 0 <= rec_ofs no /\ rec_ofs no + mft_record_size mft_record_size_bits <= page_size PAGE_CACHE_SHIFT.
Proof.
  rewrite rec_ofs_eq. unfold page_size, mft_record_size.
  assert (0 <= no mod 2 ^ (PAGE_CACHE_SHIFT - mft_record_size_bits) < 2 ^ (PAGE_CACHE_SHIFT - mft_record_size_bits))
    by (apply Z.mod_pos_bound, Z.pow_pos_nonneg; lia).
  assert (0 < 2 ^ mft_record_size_bits) by (apply Z.pow_pos_nonneg; lia).
  replace (2 ^ PAGE_CACHE_SHIFT) with (2 ^ (PAGE_CACHE_SHIFT - mft_record_size_bits) * 2 ^ mft_record_size_bits)
    by (rewrite <- Z.pow_add_r by lia; f_equal; lia). nia.
Qed.

(** Whether the record is there. *)
Inductive page_result (no : Z) : Z + list Z -> bool -> Prop :=
| Page_ok m : record_is no m -> zlen m = mft_record_size mft_record_size_bits -> page_result no (inr m) false
| Page_err e errs : (forall m, ~ record_is no m) -> page_result no (inl e) errs.

(** The world with the record of [p], so far idle, mapped or not. *)
Definition after_map (w : world) (p : ptr) (i : ntfs_inode) (r : Z + list Z) (errs : bool) : world :=
  match r with
  | inr _ => with_pinned (upd w p (mapped i)) (rec_page (mft_no i) :: pinned w)
  | inl _ => if errs then with_errors w else w
  end.

Lemma magicp_ret data ofs magic : 0 <= ofs -> ofs + 4 <= zlen data -> exists b, ntfs_is_magicp data ofs magic = Ret b.
Proof.
  intros H1 H2. unfold ntfs_is_magicp, rd_le32, rd_bytes.
  rewrite (proj2 (Z.leb_le 0 ofs)), (proj2 (Z.leb_le (ofs + Z.of_nat 4) (zlen data))) by lia. cbn [andb]. rewrite !bind_Ret. eauto.
Qed.

Lemma unpin_cons n l : unpin n (n :: l) = l.
Proof. cbn. by rewrite Z.eqb_refl. Qed.

Lemma map_page_spec w p i :
  inodes w !! p = Some i -> page i = None -> page_ofs i = 0 ->
  exists r errs, page_result (mft_no i) r errs /\
    map_mft_record_page p w =
      Ret (match r with
           | inr _ => with_pinned (upd w p (set_page (Some (rec_page (mft_no i))) (rec_ofs (mft_no i)) i)) (rec_page (mft_no i) :: pinned w)
           | inl _ => if errs then with_errors w else w
           end, r).
Proof.
  intros Hi Hpg Hofs. assert (Hsp : set_page None 0 i = i) by (destruct i; cbn in Hpg, Hofs; by subst).
  unfold MftMap.map_mft_record_page. set (no := mft_no i). pose proof (rec_ofs_bound no) as [Ho1 Ho2].
  pose proof record_size_min as Hrs.
  assert (Herr : forall w e, inodes w !! p = Some i -> (modify p (set_page None 0);; mret (inl e)) w = Ret (w, (inl e : Z + list Z))).
  { intros w0 e Hw. eapply M_step; [by apply modify_eq|]. by rewrite Hsp, upd_same. }
  rewrite (M_run _ _ w w i) by (by apply get_eq). rewrite Hpg, (M_run _ _ w w tt) by done.
  fold no. fold (rec_page no). fold (rec_ofs no). cbv zeta.
  match goal with |- context [if ?c then _ else _] => destruct c eqn:Ec end.
  { exists (inl (- ENOENT)), false. split; [|by apply Herr]. constructor. intros m [Hin _].
    apply andb_true_iff in Ec as [E1%Z.geb_le E2]. apply orb_true_iff in E2 as [E2%Z.gtb_lt|E2%Z.ltb_lt]; lia. }
  assert (Hin : rec_page no < Z.shiftr i_size PAGE_CACHE_SHIFT \/ rec_page no = Z.shiftr i_size PAGE_CACHE_SHIFT /\
    u32 (rec_ofs no + mft_record_size mft_record_size_bits) <= Z.land i_size (page_size PAGE_CACHE_SHIFT - 1)).
  { apply andb_false_iff in Ec as [E1|E2].
    - left. destruct (Z.geb_spec (rec_page no) (Z.shiftr i_size PAGE_CACHE_SHIFT)); [done|lia].
    - apply orb_false_iff in E2 as [E2 E3]. apply Z.ltb_ge in E3.
      destruct (Z.gtb_spec (rec_page no) (Z.shiftr i_size PAGE_CACHE_SHIFT)); [done|lia]. }
  destruct (read_mapping_page (rec_page no)) as [e|[data [|]]] eqn:Er.
  - rewrite (M_run _ _ w w (inl e)) by (unfold ntfs_map_page; by rewrite Er).
    exists (inl e), false. split; [|by apply Herr]. constructor. intros m [_ (d & Hd & _)]. congruence.
  - rewrite (M_run _ _ w w (inl (- EIO))).
    2:{ unfold ntfs_map_page. rewrite Er. do 2 (eapply M_step; [reflexivity|]). cbn -[unpin].
        rewrite unpin_cons. by destruct w. }
    exists (inl (- EIO)), false. split; [|by apply Herr]. constructor. intros m [_ (d & Hd & _)]. congruence.
  - set (w1 := with_pinned w (rec_page no :: pinned w)).
    rewrite (M_run _ _ w w1 (inr data)) by (unfold ntfs_map_page; rewrite Er; by eapply M_step).
    destruct (magicp_ret data (rec_ofs no) magic_FILE) as [b Hb]; [lia|rewrite (Hpages _ _ _ Er); lia|].
    rewrite (M_run _ _ w1 w1 b) by (by apply lift_eq). destruct b.
    + exists (inr (record_at mft_record_size_bits data (rec_ofs no))), false. split.
      * constructor; [split; [done|]; by exists data|]. unfold record_at, zlen. pose proof (Hpages _ _ _ Er) as Hz.
        unfold zlen in Hz. rewrite length_take, length_drop. lia.
      * by eapply M_step; [apply modify_eq|].
    + exists (inl (- EIO)), true. split; [constructor; intros m [_ (d & Hd & Hm & _)]; unfold ntfs_is_mft_recordp in Hm; congruence|].
      do 2 (eapply M_step; [reflexivity|]). cbn -[unpin]. rewrite unpin_cons. by apply Herr.
Qed.

(** Mapping a record that is not mapped: the record comes back, with the inode
    locked and referenced and the page pinned, or an error and no change but the
    volume's errors flag. *)
Lemma map_record_spec w p i :
  inodes w !! p = Some i -> idle i ->
  exists r errs, page_result (mft_no i) r errs /\ map_mft_record p w = Ret (after_map w p i r errs, r).
Proof.
  intros Hi (Hpg & Hofs & Hl). set (i1 := set_mrec_lock true (set_count (count i + 1) i)).
  destruct (map_page_spec (upd w p i1) p i1) as (r & errs & Hr & E); [apply upd_lookup|done|done|].
  exists r, errs. split; [done|]. unfold MftMap.map_mft_record. do 2 mstep. eapply M_step; [exact E|].
  destruct r as [e|m]; cbn -[upd]; [|by rewrite upd_upd].
  assert (Hback : set_count (count i + 1 - 1) (set_mrec_lock false i1) = i).
  { destruct i; cbn in *; subst. unfold i1, set_count, set_mrec_lock. cbn. f_equal. lia. }
  destruct errs; do 2 mstep; cbn [count set_mrec_lock i1 set_count] in *; rewrite Hback;
    unfold mret, M_ret, with_errors, upd; cbn; rewrite ?insert_insert_eq, insert_id by done; by destruct w.
Qed.

(** Unmapping undoes it. *)
Lemma unmap_record_spec w p i :
  inodes w !! p = Some (mapped i) -> idle i ->
  unmap_mft_record p w = Ret (with_pinned (upd w p i) (unpin (rec_page (mft_no i)) (pinned w)), tt).
Proof.
  intros Hi (Hpg & Hofs & Hl). unfold unmap_mft_record, unmap_mft_record_page.
  do 2 mstep. eapply M_step.
  { eapply M_step; [by apply get_eq|]. cbn [page mapped set_page]. eapply M_step; [reflexivity|]. by apply modify_eq. }
  cbv beta. unfold unlock_mrec, atomic_dec. mstep. erewrite modify_eq by apply upd_lookup. rewrite upd_upd.
  f_equal. f_equal. unfold upd, with_pinned. cbn. do 2 f_equal. destruct i; cbn in *; subst.
  unfold set_count, set_mrec_lock, set_page. cbn. f_equal. lia.
Qed.

Lemma map_unmap_id w p i m :
  inodes w !! p = Some i -> idle i -> map_mft_record p w = Ret (after_map w p i (inr m) false, inr m) ->
  unmap_mft_record p (after_map w p i (inr m) false) = Ret (w, tt).
Proof.
  intros Hi Hid _. cbn [after_map]. erewrite unmap_record_spec; [|cbn; apply lookup_insert_eq|done].
  cbn -[unpin]. rewrite unpin_cons. unfold upd, with_pinned. cbn. rewrite insert_insert_eq, insert_id by done. by destruct w.
Qed.

(** ** Extent records *)

(** The extents attached to a base inode. *)
Record base_ok (w : world) (base_ni : ptr) (b : ntfs_inode) (inos : list ptr) : Prop := {
  bo_base : inodes w !! base_ni = Some b;
  bo_lock : extent_lock b = false;
  bo_nr : nr_extents b = zlen inos;
  bo_ext : exists k, ni_ext b = Extents ((Some <$> inos) ++ repeat None k) /\ (k < 4)%nat /\ (zlen inos + Z.of_nat k) mod 4 = 0;
  bo_each : forall p, p ∈ inos -> p <> base_ni /\ exists i, inodes w !! p = Some i;
}.

(** The first extent with record number [no]. *)
Fixpoint find_ino (w : world) (no : Z) (inos : list ptr) : option (ptr * ntfs_inode) :=
  match inos with
  | [] => None
  | p :: inos =>
      match inodes w !! p with
      | Some i => if mft_no i =? no then Some (p, i) else find_ino w no inos
      | None => None
      end
  end.

Lemma find_ino_some w no inos p i : find_ino w no inos = Some (p, i) -> p ∈ inos /\ inodes w !! p = Some i /\ mft_no i = no.
Proof.
  induction inos as [|q inos IH]; cbn; [done|]. destruct (inodes w !! q) as [j|] eqn:Eq; [|done].
  destruct (Z.eqb_spec (mft_no j) no).
  - intros [= <- <-]. split; [left|done].
  - intros H. destruct (IH H) as (? & ? & ?). split; [by right|done].
Qed.

Lemma find_extent_spec w no inos : forall pre tail,
  (forall p, p ∈ inos -> exists i, inodes w !! p = Some i) ->
  find_extent (length inos) no (pre ++ (Some <$> inos) ++ tail) (zlen pre) w =
    Ret (match find_ino w no inos with Some (p, i) => (upd w p (set_count (count i + 1) i), Some p) | None => (w, None) end).
Proof.
  induction inos as [|p inos IH]; intros pre tail Hin; [done|]. cbn [length find_extent find_ino].
  eapply M_step; [apply lift_eq; by apply rd_mid|]. cbv beta iota.
  destruct (Hin p) as [i Hi]; [left|]. rewrite Hi. eapply M_step; [by apply get_eq|].
  destruct (Z.eqb_spec (mft_no i) no); cbn [negb].
  - eapply M_step; [by apply modify_eq|]. done.
  - specialize (IH (pre ++ [Some p]) tail). rewrite zlen_app, <- app_assoc in IH. cbn [app] in IH. apply IH.
    intros q Hq. apply Hin. by right.
Qed.

Local Abbreviation map_extent_mft_record := (map_extent_mft_record read_mapping_page i_size mft_record_size_bits PAGE_CACHE_SHIFT).

(** What mapping an extent record leads to. *)
Inductive extent_result (w : world) (base_ni : ptr) (b : ntfs_inode) (inos : list ptr) (mref : Z) : world -> Z + (list Z * ptr) -> Prop :=
| Extent_error w' e : inodes w' = inodes w -> pinned w' = pinned w -> extent_result w base_ni b inos mref w' (inl e)
| Extent_known w' m ni i :
    ni ∈ inos -> inodes w !! ni = Some i -> mft_no i = MREF mref -> record_is (mft_no i) m ->
    rd_le16 m MFT_sequence_number = Ret (MSEQNO mref) ->
    inodes w' = <[ni := mapped i]> (inodes w) -> pinned w' = rec_page (mft_no i) :: pinned w ->
    extent_result w base_ni b inos mref w' (inr (m, ni))
| Extent_new w' m ni i b' :
    inodes w !! ni = None -> mft_no i = MREF mref -> seq_no i = MSEQNO mref -> idle i -> count i = 1 ->
    nr_extents i = -1 -> ni_ext i = Base base_ni -> record_is (mft_no i) m ->
    (MSEQNO mref = 0 \/ rd_le16 m MFT_sequence_number = Ret (MSEQNO mref)) ->
    inodes w' = <[ni := mapped i]> (<[base_ni := b']> (inodes w)) -> pinned w' = rec_page (mft_no i) :: pinned w ->
    (exists e, b' = set_ext (zlen inos + 1) e b) -> base_ok w' base_ni b' (inos ++ [ni]) ->
    extent_result w base_ni b inos mref w' (inr (m, ni)).

Lemma record_seq m : zlen m = mft_record_size mft_record_size_bits -> exists s, rd_le16 m MFT_sequence_number = Ret s.
Proof.
  intros Hm. pose proof record_size_min. unfold rd_le16, rd_bytes, MFT_sequence_number.
  rewrite (proj2 (Z.leb_le 0 16)), (proj2 (Z.leb_le (16 + Z.of_nat 2) (zlen m))) by lia. cbn [andb]. rewrite bind_Ret. eauto.
Qed.

(** An extent that is already attached, found with a reference taken. *)
Lemma map_known w base_ni b inos mref ni i :
  ni ∈ inos -> ni <> base_ni -> inodes w !! ni = Some i -> mft_no i = MREF mref -> idle i ->
  exists w' r, map_known_extent read_mapping_page i_size mft_record_size_bits PAGE_CACHE_SHIFT ni (MSEQNO mref)
      (upd w ni (set_count (count i + 1) i)) = Ret (w', r) /\ extent_result w base_ni b inos mref w' r.
Proof.
  intros Hin Hne Hi Hno Hid. set (i1 := set_count (count i + 1) i).
  destruct (map_record_spec (upd w ni i1) ni i1) as (r & errs & Hr & E); [apply upd_lookup|done|].
  unfold map_known_extent. rewrite (M_run _ _ _ _ _ E). clear E.
  destruct r as [e|m].
  - set (w1 := after_map _ _ _ _ _).
    assert (Hw1 : inodes w1 !! ni = Some i1) by (unfold w1, after_map; destruct errs; apply upd_lookup).
    unfold atomic_dec at 1. erewrite M_run by (by apply modify_eq). eexists _, _. split; [reflexivity|].
    assert (Hb : set_count (count i1 - 1) i1 = i) by (destruct i; unfold i1, set_count; cbn; f_equal; lia).
    rewrite Hb. constructor; unfold w1, after_map; destruct errs; cbn; rewrite ?insert_insert_eq, ?insert_id; done.
  - inversion Hr as [? Hrec Hzm|]; subst. destruct (record_seq m Hzm) as [sq Hsq].
    assert (Hb : set_count (count (mapped i1) - 1) (mapped i1) = mapped i).
    { destruct i; unfold i1, mapped, set_page, set_mrec_lock, set_count; cbn; f_equal; lia. }
    cbn [after_map]. unfold atomic_dec at 1. erewrite M_run by (apply (modify_eq _ _ (mapped i1)), lookup_insert_eq). cbv beta. rewrite Hb.
    erewrite M_run by (by apply lift_eq). cbv beta.
    destruct (Z.eqb_spec sq (MSEQNO mref)) as [->|Hsn].
    + eexists _, _. split; [reflexivity|]. eapply Extent_known; try done. cbn. by rewrite !insert_insert_eq.
    + erewrite M_run by (apply (unmap_record_spec _ _ i); [apply upd_lookup|done]). eexists _, _. split; [reflexivity|].
      constructor; cbn -[unpin]; [by rewrite !insert_insert_eq, insert_id|]. change (mft_no i1) with (mft_no i). by rewrite unpin_cons.
Qed.

(** The base inode while its extents are looked at. *)
Definition busy (b : ntfs_inode) : ntfs_inode := set_extent_lock true (set_count (count b + 1) b).

Lemma release_base {A} w base_ni b (k : M A) :
  inodes w !! base_ni = Some (busy b) -> extent_lock b = false ->
  (unlock_extent base_ni;; atomic_dec base_ni;; k) w = k (upd w base_ni b).
Proof.
  intros Hb Hl. erewrite M_run by (by apply modify_eq). erewrite M_run by (apply modify_eq, upd_lookup).
  rewrite upd_upd. f_equal. f_equal. destruct b; cbn in *; subst. unfold set_count, set_extent_lock. cbn. f_equal. lia.
Qed.

Lemma clear_extent_spec w p i :
  inodes w !! p = Some i -> idle i -> count i = 1 -> nr_extents i = -1 ->
  ntfs_clear_extent_inode p w = Ret (mk_world (delete p (inodes w)) (pinned w) (vol_errors w) (allocs w), tt).
Proof.
  intros Hi (Hpg & _ & _) Hc Hn. unfold ntfs_clear_extent_inode, ntfs_destroy_extent_inode.
  erewrite M_run by (by apply get_eq). rewrite Hn. erewrite M_run by done.
  erewrite M_run by (by apply get_eq). rewrite Hpg. erewrite M_run by done.
  unfold atomic_dec. erewrite M_run by (by apply modify_eq). erewrite M_run by (apply get_eq, upd_lookup).
  cbn [count set_count]. rewrite Hc. erewrite M_run by done. unfold set_inodes, update. cbn. by rewrite delete_insert_eq.
Qed.

(** The error exits drop the new inode and release the base inode. *)
Lemma discard_new {A} w w1 base_ni b ni i (e : Z) :
  inodes w1 = <[ni := i]> (<[base_ni := busy b]> (inodes w)) -> ni <> base_ni -> inodes w !! ni = None ->
  inodes w !! base_ni = Some b -> extent_lock b = false -> idle i -> count i = 1 -> nr_extents i = -1 ->
  exists w', (unlock_extent base_ni;; atomic_dec base_ni;; ntfs_clear_extent_inode ni;; mret (inl e)) w1 = Ret (w', (inl e : Z + A)) /\
    inodes w' = inodes w /\ pinned w' = pinned w1.
Proof.
  intros Hw1 Hne Hnone Hb Hl Hid Hc Hn.
  rewrite (release_base _ _ b); [|by rewrite Hw1, lookup_insert_ne, lookup_insert_eq by done|done].
  erewrite M_run.
  2:{ apply (clear_extent_spec _ _ i); [|done..]. by rewrite upd_lookup_ne, Hw1, lookup_insert_eq by done. }
  eexists. split; [reflexivity|]. split; [|done]. cbn. rewrite Hw1.
  apply map_eq. intros q. destruct (decide (q = ni)) as [->|]; [by rewrite lookup_delete_eq|].
  destruct (decide (q = base_ni)) as [->|]; by simplify_map_eq.
Qed.

(** The extent array takes one more inode. *)
Lemma grow_extents_spec w b inos ni k :
  nr_extents b = zlen inos -> ni_ext b = Extents ((Some <$> inos) ++ repeat None k) -> (k < 4)%nat ->
  (zlen inos + Z.of_nat k) mod 4 = 0 ->
  exists w' r, grow_extents b w = Ret (w', r) /\ inodes w' = inodes w /\ pinned w' = pinned w /\
    match r with
    | None => True
    | Some arr => exists k', wr arr (zlen inos) (Some ni) = Ret ((Some <$> (inos ++ [ni])) ++ repeat None k') /\
        (k' < 4)%nat /\ (zlen (inos ++ [ni]) + Z.of_nat k') mod 4 = 0
    end.
Proof.
  intros Hn He Hk Hm. unfold grow_extents. rewrite He, Hn.
  assert (Hland : Z.land (zlen inos) 3 = zlen inos mod 4) by (by rewrite (Z.land_ones _ 2)).
  rewrite Hland. pose proof (Z.mod_pos_bound (zlen inos) 4 ltac:(lia)).
  destruct (Z.eqb_spec (zlen inos mod 4) 0) as [E0|E0].
  - assert (k = 0%nat) as ->.
    { rewrite <- Zplus_mod_idemp_l, E0, Z.mod_small in Hm by lia. lia. }
    assert (exists w1 ok, alloc_ok w = Ret (w1, ok) /\ inodes w1 = inodes w /\ pinned w1 = pinned w) as (w1 & ok & Ea & H1 & H2).
    { unfold alloc_ok. destruct (allocs w); eauto. }
    rewrite (M_run _ _ _ _ _ Ea). destruct ok; [|exists w1, None; done].
    set (n := length inos).
    assert (Eb : blit (repeat None (Z.to_nat (zlen inos + 4))) 0 ((Some <$> inos) ++ repeat None 0) 0 (zlen inos) =
      Ret ((Some <$> inos) ++ repeat None 4)).
    { apply (blit_eq _ _ _ _ _ [] (repeat None n) (repeat None 4) [] (Some <$> inos) (repeat None 0)); try done.
      - rewrite <- repeat_app. cbn [app]. f_equal. unfold n, zlen. lia.
      - unfold zlen. by rewrite repeat_length.
      - unfold zlen. by rewrite length_fmap. }
    rewrite (M_run _ _ w1 w1 _) by (apply lift_eq, Eb). eexists _, _. split; [reflexivity|]. split_and!; [done..|].
    exists 3%nat. rewrite fmap_app, <- app_assoc. split; [|split; [lia|]].
    + apply (wr_at _ (Some <$> inos) (repeat None 3) None); [done|]. unfold zlen. by rewrite length_fmap.
    + rewrite zlen_app. change (zlen [ni]) with 1. replace (zlen inos + 1 + Z.of_nat 3) with (zlen inos + 1 * 4) by lia.
      by rewrite Z.mod_add.
  - eexists _, _. split; [reflexivity|]. split_and!; [done..|].
    destruct k as [|k]; [rewrite Z.add_0_r in Hm; lia|]. exists k. rewrite fmap_app, <- app_assoc. split; [|split; [lia|]].
    + apply (wr_at _ (Some <$> inos) (repeat None k) None); [done|]. unfold zlen. by rewrite length_fmap.
    + rewrite zlen_app. change (zlen [ni]) with 1. rewrite <- Hm. f_equal. lia.
Qed.

(** The inode made for an extent record, before the record is mapped. *)
Definition new_extent (base_ni : ptr) (mref : Z) : ntfs_inode :=
  set_ext (-1) (Base base_ni) (set_seq_no (MSEQNO mref) (init_inode (MREF mref))).

(** Attaching a record that was read. *)
Lemma attach_new w w1 base_ni b inos mref ni m :
  base_ok w base_ni b inos -> inodes w !! ni = None ->
  let i := new_extent base_ni mref in
  record_is (mft_no i) m -> zlen m = mft_record_size mft_record_size_bits ->
  inodes w1 = <[ni := mapped i]> (<[base_ni := busy b]> (inodes w)) -> pinned w1 = rec_page (mft_no i) :: pinned w ->
  exists w' r, attach_extent base_ni ni (MSEQNO mref) m w1 = Ret (w', r) /\ extent_result w base_ni b inos mref w' r.
Proof.
  intros Hok Hnone i Hrec Hzm Hw1 Hp1. unfold attach_extent. destruct Hok as [Hb Hl Hnr (k & He & Hk & Hkm) Heach].
  assert (Hne : ni <> base_ni) by congruence.
  assert (Hid : idle i) by done.
  assert (Hunm : forall w2 e, inodes w2 = inodes w1 -> pinned w2 = pinned w1 ->
    exists w' r, unm_err_out base_ni ni e w2 = Ret (w', r) /\ extent_result w base_ni b inos mref w' r).
  { intros w2 e H2 H3. unfold unm_err_out. erewrite M_run.
    2:{ apply (unmap_record_spec _ _ i); [by rewrite H2, Hw1, lookup_insert_eq|done]. }
    destruct (discard_new (A := list Z * ptr) w (with_pinned (upd w2 ni i) (unpin (rec_page (mft_no i)) (pinned w2))) base_ni b ni i e) as (w' & E & E1 & E2);
      try done; [cbn; by rewrite H2, Hw1, insert_insert_eq|].
    exists w', (inl e). split; [exact E|]. constructor; [done|]. rewrite E2. cbn -[unpin]. by rewrite H3, Hp1, unpin_cons. }
  destruct (record_seq m Hzm) as [sq Hsq]. erewrite M_run by (by apply lift_eq). cbv beta.
  destruct (negb (MSEQNO mref =? 0) && negb (sq =? MSEQNO mref)) eqn:Es; [by apply Hunm|].
  assert (Hseq : MSEQNO mref = 0 \/ rd_le16 m MFT_sequence_number = Ret (MSEQNO mref)).
  { destruct (Z.eqb_spec (MSEQNO mref) 0); [by left|]. destruct (Z.eqb_spec sq (MSEQNO mref)); [right; congruence|done]. }
  rewrite (M_run _ _ w1 w1 (busy b)) by (apply get_eq; by rewrite Hw1, lookup_insert_ne, lookup_insert_eq by done).
  destruct (grow_extents_spec w1 (busy b) inos ni k) as (w2 & r & Eg & G1 & G2 & Hr); try done.
  rewrite (M_run _ _ _ _ _ Eg). destruct r as [arr|]; [|by apply Hunm].
  destruct Hr as (k' & Ew & Hk' & Hm'). change (nr_extents (busy b)) with (nr_extents b). rewrite Hnr.
  erewrite M_run by (by apply lift_eq).
  erewrite M_run by (apply (modify_eq _ _ (busy b)); by rewrite G1, Hw1, lookup_insert_ne, lookup_insert_eq by done).
  set (arr' := (Some <$> (inos ++ [ni])) ++ repeat None k').
  set (b' := set_ext (zlen inos + 1) (Extents arr') b).
  assert (Eb : set_ext (nr_extents (busy b) + 1) (Extents arr') (busy b) = busy b') by (unfold b'; by rewrite <- Hnr).
  cbv beta. fold arr'. rewrite Eb, (release_base _ _ b') by (apply upd_lookup || done). eexists _, _. split; [reflexivity|].
  assert (Hst : <[base_ni := b']> (<[base_ni := busy b']> (inodes w2)) = <[ni := mapped i]> (<[base_ni := b']> (inodes w))).
  { rewrite G1, Hw1. rewrite insert_insert_eq, insert_insert_ne, insert_insert_eq by done. done. }
  eapply (Extent_new _ _ _ _ _ _ _ _ i b'); try done.
  - cbn. by rewrite G2, Hp1.
  - eexists. reflexivity.
  - constructor; try done.
    + unfold upd. cbn [inodes]. rewrite Hst, lookup_insert_ne, lookup_insert_eq; done.
    + unfold b'. rewrite zlen_app. done.
    + by exists k'.
    + intros p [Hp|Hp]%elem_of_app.
      * destruct (Heach p Hp) as [? [j Hj]]. split; [done|]. exists j. unfold upd. cbn [inodes]. rewrite Hst.
        rewrite lookup_insert_ne, lookup_insert_ne by congruence. done.
      * apply elem_of_cons in Hp as [->|Hp%elem_of_nil]; [|done]. split; [done|]. exists (mapped i). unfold upd. cbn [inodes]. rewrite Hst. apply lookup_insert_eq.
Qed.

(** The extent is not attached yet. *)
Lemma map_new w base_ni b inos mref :
  base_ok w base_ni b inos ->
  exists w' r, map_new_extent read_mapping_page i_size mft_record_size_bits PAGE_CACHE_SHIFT base_ni (MREF mref) (MSEQNO mref)
    (upd w base_ni (busy b)) = Ret (w', r) /\ extent_result w base_ni b inos mref w' r.
Proof.
  intros Hok. pose proof Hok as [Hb Hl _ _ _]. unfold map_new_extent. set (w1 := upd w base_ni (busy b)).
    assert (Ha : exists w2 ok, ntfs_alloc_extent_inode w1 = Ret (w2, if (ok : bool) then Some (fresh (dom (inodes w2))) else None) /\
    inodes w2 = inodes w1 /\ pinned w2 = pinned w1).
  { unfold ntfs_alloc_extent_inode, alloc_ok. destruct (allocs w1); eexists _, _; (split; [reflexivity|done]). }
  destruct Ha as (w2 & ok & Ea & H2 & H3).
  assert (Hb2 : inodes w2 !! base_ni = Some (busy b)) by (rewrite H2; apply upd_lookup).
  unfold ntfs_new_extent_inode. destruct ok.
  2:{ rewrite (M_run _ _ w1 w2 None) by (eapply M_step; [exact Ea|done]). rewrite (release_base _ _ b) by done.
      eexists _, _. split; [reflexivity|]. constructor; [|done]. cbn. rewrite H2. cbn. by rewrite insert_insert_eq, insert_id. }
  set (ni := fresh (dom (inodes w2))) in *.
  assert (Hfresh : inodes w2 !! ni = None) by (apply not_elem_of_dom, is_fresh).
  assert (Hne : ni <> base_ni) by congruence.
  assert (Hnone : inodes w !! ni = None) by (rewrite H2 in Hfresh; unfold w1 in Hfresh; by rewrite upd_lookup_ne in Hfresh by done).
  set (w3 := upd w2 ni (init_inode (MREF mref))).
  rewrite (M_run _ _ w1 w3 (Some ni)) by (eapply M_step; [exact Ea|]; by eapply M_step).
  erewrite M_run by (apply modify_eq, upd_lookup). cbv beta. fold (new_extent base_ni mref). unfold w3. rewrite upd_upd.
  set (i := new_extent base_ni mref). set (w4 := upd w2 ni i).
  destruct (map_record_spec w4 ni i) as (r & errs & Hr & E); [apply upd_lookup|done|].
  rewrite (M_run _ _ _ _ _ E). inversion Hr as [m Hrec Hzm|e]; subst.
  + apply (attach_new w); try done; cbn; by rewrite ?insert_insert_eq, ?H2, ?H3.
  + destruct (discard_new (A := list Z * ptr) w (after_map w4 ni i (inl e) errs) base_ni b ni i e) as (w' & E' & E1 & E2); try done.
    * unfold after_map. destruct errs; cbn; by rewrite H2.
    * exists w', (inl e). split; [exact E'|]. constructor; [done|]. rewrite E2. unfold after_map. destruct errs; cbn; by rewrite H3.
Qed.
(** Every outcome of mapping an extent record. *)
Lemma map_extent_spec w base_ni b inos mref :
  base_ok w base_ni b inos ->
  (forall p i, p ∈ inos -> inodes w !! p = Some i -> mft_no i = MREF mref -> idle i) ->
  exists w' r, map_extent_mft_record base_ni mref w = Ret (w', r) /\ extent_result w base_ni b inos mref w' r.
Proof.
  intros Hok Hidle. pose proof Hok as [Hb Hl Hnr (k & He & Hk & Hkm) Heach]. unfold MftMap.map_extent_mft_record.
  unfold atomic_inc at 1. erewrite M_run by (by apply modify_eq).
  erewrite M_run by (apply lock_extent_eq; [apply upd_lookup|done]). rewrite upd_upd. fold (busy b).
  erewrite M_run by (apply get_eq, upd_lookup). change (ni_ext (busy b)) with (ni_ext b). change (nr_extents (busy b)) with (nr_extents b).
  rewrite He, Hnr. set (w1 := upd w base_ni (busy b)).
  assert (Hl1 : forall p, p ∈ inos -> inodes w1 !! p = inodes w !! p).
  { intros p Hp. apply upd_lookup_ne. destruct (Heach p Hp). congruence. }
  assert (Hf : find_ino w1 (MREF mref) inos = find_ino w (MREF mref) inos).
  { clear -Hl1. induction inos as [|p inos IH]; cbn; [done|]. rewrite Hl1 by left. rewrite IH; [done|]. intros q Hq. apply Hl1. by right. }
  erewrite M_run with (a := option_map fst (find_ino w (MREF mref) inos))
    (w' := match find_ino w (MREF mref) inos with Some (p, i) => upd w1 p (set_count (count i + 1) i) | None => w1 end).
  2:{ pose proof (find_extent_spec w1 (MREF mref) inos [] (repeat None k)) as Hfe. cbn [app] in Hfe. rewrite Hf in Hfe.
      destruct (Z.gtb_spec (zlen inos) 0).
      - unfold zlen at 1. rewrite Nat2Z.id. change 0 with (zlen (@nil (option ptr))). rewrite Hfe.
        + by destruct (find_ino w (MREF mref) inos) as [[p i]|].
        + intros p Hp. rewrite Hl1 by done. by apply Heach.
      - destruct inos; [done|]. rewrite zlen_cons in *. pose proof (zlen_nonneg inos). lia. }
  destruct (find_ino w (MREF mref) inos) as [[p i]|] eqn:Ef; cbn [option_map fst].
  - apply find_ino_some in Ef as (Hp & Hi & Hno). destruct (Heach p Hp) as [Hne _].
    rewrite (release_base _ _ b); [|rewrite upd_lookup_ne by done; apply upd_lookup|done].
    unfold w1. rewrite (upd_comm w base_ni p) by done. rewrite upd_upd, (upd_comm w p base_ni), (upd_same w base_ni) by done.
    apply map_known; try done. by apply (Hidle p).
  - by apply map_new.
Qed.
End Map.
