(* ===== verification/AttrLookup.v ===== *)
(** * Attribute lookup

    Models, of [src/ntfs/attrib.c], the attribute search contexts and
    [ntfs_attr_lookup] with both of its ways: [ntfs_attr_find] in one mft record
    and [ntfs_external_attr_find] through an attribute list, which maps the
    extent mft records the attributes are in (MftMap). *)

From Stdlib Require Import ZArith Lia Bool.
From stdpp Require Import base list numbers option gmap.
From S2P Require Import Prelude Endian Unistr Collate Attrib MftMap.

(** [ntfs_attr_search_ctx] (attrib.h).  A mapped mft record is its bytes, a
    pointer into it an offset; @al_entry is an offset in the attribute list.  An error
    pointer in @mrec is not a record: where the code leaves one in a context that is
    given back (a failed [ntfs_map_runlist_nolock]), the model pairs the context with
    the error ([ctxp] of MapRunlist), and where it is replaced before anything reads it
    (in [ntfs_external_attr_find]) @mrec keeps its value meanwhile.  So the
    BUG_ON(IS_ERR(ctx->mrec)) of [ntfs_attr_lookup] is a check the type of @mrec makes:
    only a context without an error can be passed to it. *)
Record ntfs_attr_search_ctx := mk_ctx {
  mrec : list Z;
  attr : Z;
  is_first : bool;
  ntfs_ino : ptr;
  al_entry : option Z;
  base_ntfs_ino : option ptr;
  base_mrec : option (list Z);
  base_attr : option Z;
}.

Definition ctx_set_attr (a : Z) (c : ntfs_attr_search_ctx) : ntfs_attr_search_ctx :=
  mk_ctx (mrec c) a (is_first c) (ntfs_ino c) (al_entry c) (base_ntfs_ino c) (base_mrec c) (base_attr c).
Definition ctx_set_first (b : bool) (c : ntfs_attr_search_ctx) : ntfs_attr_search_ctx :=
  mk_ctx (mrec c) (attr c) b (ntfs_ino c) (al_entry c) (base_ntfs_ino c) (base_mrec c) (base_attr c).
Definition ctx_set_ino (m : list Z) (ni : ptr) (c : ntfs_attr_search_ctx) : ntfs_attr_search_ctx :=
  mk_ctx m (attr c) (is_first c) ni (al_entry c) (base_ntfs_ino c) (base_mrec c) (base_attr c).
Definition ctx_set_al_entry (e : option Z) (c : ntfs_attr_search_ctx) : ntfs_attr_search_ctx :=
  mk_ctx (mrec c) (attr c) (is_first c) (ntfs_ino c) e (base_ntfs_ino c) (base_mrec c) (base_attr c).
Definition ctx_set_base (ni : option ptr) (m : option (list Z)) (c : ntfs_attr_search_ctx) : ntfs_attr_search_ctx :=
  mk_ctx (mrec c) (attr c) (is_first c) (ntfs_ino c) (al_entry c) ni m (base_attr c).
Definition ctx_set_base_attr (a : option Z) (c : ntfs_attr_search_ctx) : ntfs_attr_search_ctx :=
  mk_ctx (mrec c) (attr c) (is_first c) (ntfs_ino c) (al_entry c) (base_ntfs_ino c) (base_mrec c) a.

(** [ATTR_LIST_ENTRY] (layout.h) *)
Definition AL_type : Z := 0.
Definition AL_length : Z := 4.
Definition AL_name_length : Z := 6.
Definition AL_name_offset : Z := 7.
Definition AL_lowest_vcn : Z := 8.
Definition AL_mft_reference : Z := 16.
Definition AL_instance : Z := 24.

(** ** Search contexts *)

Definition first_attr (m : list Z) : outcome Z := rd_le16 m MFT_attrs_offset.

Definition ntfs_attr_init_search_ctx (ni : ptr) (m : list Z) : outcome ntfs_attr_search_ctx :=
  a ← first_attr m; Ret (mk_ctx m a true ni None None None None).

Definition ntfs_attr_get_search_ctx (ni : ptr) (m : list Z) : M (option ntfs_attr_search_ctx) :=
  ok ← alloc_ok;
  if (ok : bool) then ctx ← lift (ntfs_attr_init_search_ctx ni m); mret (Some ctx) else mret None.

Definition ntfs_attr_reinit_search_ctx (ctx : ntfs_attr_search_ctx) : M ntfs_attr_search_ctx :=
  match base_ntfs_ino ctx with
  | None => a ← lift (first_attr (mrec ctx)); mret (ctx_set_al_entry None (ctx_set_attr a (ctx_set_first true ctx)))
  | Some base_ni =>
      (if bool_decide (ntfs_ino ctx = base_ni) then mret tt else unmap_extent_mft_record (ntfs_ino ctx));;
      match base_mrec ctx with
      | Some m => lift (ntfs_attr_init_search_ctx base_ni m)
      | None => crash
      end
  end.

Definition ntfs_attr_put_search_ctx (ctx : ntfs_attr_search_ctx) : M unit :=
  match base_ntfs_ino ctx with
  | None => mret tt
  | Some base_ni => if bool_decide (ntfs_ino ctx = base_ni) then mret tt else unmap_extent_mft_record (ntfs_ino ctx)
  end.

(** ** Lookup *)

(** What is searched for. *)
Record search := mk_search {
  s_type : Z;
  s_name : option (list Z);
  s_name_len : Z;
  s_ic : IGNORE_CASE_BOOL;
  s_lowest_vcn : Z;
  s_val : option (list Z);
  s_val_len : Z;
}.

Section Lookup.
Context (upcase : list Z) (upcase_len : Z).
Context (read_mapping_page : Z -> Z + (list Z * bool)) (i_size mft_record_size_bits PAGE_CACHE_SHIFT : Z).

(** [ntfs_attr_find] on a context *)
Definition attr_find (s : search) (ctx : ntfs_attr_search_ctx) : M (ntfs_attr_search_ctx * Z) := fun w =>
  '(c, err) ← ntfs_attr_find upcase upcase_len (s_type s) (s_name s) (s_name_len s) (s_ic s) (s_val s) (s_val_len s)
                (mk_find_ctx (mrec ctx) (attr ctx) (is_first ctx) (vol_errors w));
  Ret (mk_world (inodes w) (pinned w) (ctx_vol_errors c) (allocs w),
       (ctx_set_attr (ctx_attr c) (ctx_set_first (ctx_is_first c) ctx), err)).

(** The name comparison of an attribute list entry. *)
Definition al_name_verdict (s : search) (al_name : list Z) (al_name_len : Z) : outcome verdict :=
  match s_name s with
  | None => Ret (if negb (al_name_len =? 0) then NotThere else Match)
  | Some name =>
      equal ← ntfs_are_names_equal al_name al_name_len name (s_name_len s) (s_ic s) upcase upcase_len;
      if (equal : bool) then Ret Match
      else
        rc ← ntfs_collate_names name (s_name_len s) al_name al_name_len 1 IGNORE_CASE upcase upcase_len;
        if rc =? -1 then Ret NotThere
        else if negb (rc =? 0) then Ret Continue
        else
          rc ← ntfs_collate_names name (s_name_len s) al_name al_name_len 1 CASE_SENSITIVE upcase upcase_len;
          Ret (if rc =? -1 then NotThere else if negb (rc =? 0) then Continue else Match)
  end.

(** Does the next entry of the list still fit @lowest_vcn? *)
Definition next_fits (s : search) (al : list Z) (type : Z) (al_name : list Z) (al_name_len next : Z) : outcome bool :=
  if (s_lowest_vcn s =? 0) || negb (0 <=? next) || negb (next + 6 <? zlen al) then Ret false
  else
    next_length ← rd_le16 al (next + AL_length);
    if negb (next + next_length <=? zlen al) then Ret false
    else
      lowest ← rd_sle64 al (next + AL_lowest_vcn);
      if negb (lowest <=? s_lowest_vcn s) then Ret false
      else
        next_type ← rd_le32 al (next + AL_type);
        if negb (next_type =? type) then Ret false
        else
          next_name_length ← rd_u8 al (next + AL_name_length);
          if negb (next_name_length =? al_name_len) then Ret false
          else
            next_name_offset ← rd_u8 al (next + AL_name_offset);
            ntfs_are_names_equal (ntfschars_at al (next + next_name_offset)) next_name_length al_name al_name_len
              CASE_SENSITIVE upcase upcase_len.

(** Gets hold of the mft record an entry refers to: the context, the inode in
    use afterwards (NULL when none is), and the error if it failed. *)
Definition al_locate (base_ni ni : ptr) (mref : Z) (ctx : ntfs_attr_search_ctx)
    : M (ntfs_attr_search_ctx * option ptr * option Z) :=
  i ← get ni;
  if MREF mref =? mft_no i then
    mret (ctx, Some ni, if negb (MSEQNO mref =? seq_no i) then Some (- EIO) else None)
  else
    (if bool_decide (ni = base_ni) then mret tt else unmap_extent_mft_record ni);;
    base ← get base_ni;
    if MREF mref =? mft_no base then
      match base_mrec ctx with
      | None => crash
      | Some m => a ← lift (first_attr m); mret (ctx_set_attr a (ctx_set_ino m base_ni ctx), Some base_ni, None)
      end
    else
      r ← map_extent_mft_record read_mapping_page i_size mft_record_size_bits PAGE_CACHE_SHIFT base_ni mref;
      match r with
      | inl e => mret (ctx, None, Some (if e =? - ENOENT then - EIO else e))
      | inr (m, ni) => a ← lift (first_attr m); mret (ctx_set_attr a (ctx_set_ino m ni ctx), Some ni, None)
      end.

(** Is the value the one searched for? *)
Definition al_value_matches (s : search) (m : list Z) (a : Z) : outcome bool :=
  match s_val s with
  | None => Ret true
  | Some val =>
      non_resident ← rd_u8 m (a + A_non_resident);
      if negb (non_resident =? 0) then Ret false
      else
        value_length ← rd_le32 m (a + A_value_length);
        if negb (value_length =? s_val_len s) then Ret false
        else
          value_offset ← rd_le16 m (a + A_value_offset);
          rc ← memcmp (Z.to_nat (s_val_len s)) (drop (Z.to_nat (a + value_offset)) m) val 0;
          Ret (rc =? 0)
  end.

(** The loop [do_next_attr_loop] over the attributes of the record; [false]: it
    was left with break. *)
Fixpoint al_attr_loop (fuel : nat) (s : search) (type instance : Z) (al_name : list Z) (al_name_len : Z)
    (ctx : ntfs_attr_search_ctx) (a : Z) : outcome (ntfs_attr_search_ctx * bool) :=
  match fuel with
  | O => Diverge
  | S fuel =>
      let m := mrec ctx in
      bytes_allocated ← rd_le32 m MFT_bytes_allocated;
      if (a <? 0) || (a >? bytes_allocated) then Ret (ctx, false)
      else
        a_type ← rd_le32 m (a + A_type);
        if a_type =? AT_END then Ret (ctx, false)
        else
          a_length ← rd_le32 m (a + A_length);
          if a_length =? 0 then Ret (ctx, false)
          else
            a_instance ← rd_le16 m (a + A_instance);
            if negb (instance =? a_instance)
            then al_attr_loop fuel s type instance al_name al_name_len ctx (a + a_length)
            else if negb (type =? a_type) then Ret (ctx, false)
            else
              name_offset ← rd_le16 m (a + A_name_offset);
              name_length ← rd_u8 m (a + A_name_length);
              equal ← ntfs_are_names_equal (ntfschars_at m (a + name_offset)) name_length al_name al_name_len
                        CASE_SENSITIVE upcase upcase_len;
              if negb (equal : bool) then Ret (ctx, false)
              else
                let ctx := ctx_set_attr a ctx in
                ok ← al_value_matches s m a;
                if (ok : bool) then Ret (ctx, true)
                else al_attr_loop fuel s type instance al_name al_name_len ctx (a + a_length)
  end.

(** How the loop over the attribute list is left: [return 0], [goto not_found],
    or [break] with @err; with the inode in use then. *)
Inductive al_exit := AlFound | AlNotFound | AlBreak (err : Z).

Fixpoint al_loop (fuel : nat) (s : search) (base_ni : ptr) (al : list Z) (ni : ptr) (ctx : ntfs_attr_search_ctx) (entry : Z)
    : M (ntfs_attr_search_ctx * option ptr * al_exit) :=
  match fuel with
  | O => hang
  | S fuel =>
      let al_end := zlen al in
      if (entry <? 0) || (entry >? al_end) then mret (ctx, Some ni, AlBreak 0)
      else
        let ctx := ctx_set_al_entry (Some entry) ctx in
        if entry =? al_end then mret (ctx, Some ni, AlNotFound)
        else
          length ← lift (rd_le16 al (entry + AL_length));
          if length =? 0 then mret (ctx, Some ni, AlBreak 0)
          else if (entry + 6 >? al_end) || (entry + length >? al_end) then mret (ctx, Some ni, AlBreak 0)
          else
            let next := entry + length in
            type ← lift (rd_le32 al (entry + AL_type));
            if type >? s_type s then mret (ctx, Some ni, AlNotFound)
            else if negb (s_type s =? type) then al_loop fuel s base_ni al ni ctx next
            else
              al_name_len ← lift (rd_u8 al (entry + AL_name_length));
              name_offset ← lift (rd_u8 al (entry + AL_name_offset));
              let al_name := ntfschars_at al (entry + name_offset) in
              v ← lift (al_name_verdict s al_name al_name_len);
              match v with
              | NotThere => mret (ctx, Some ni, AlNotFound)
              | Continue => al_loop fuel s base_ni al ni ctx next
              | Match =>
                  fits ← lift (next_fits s al type al_name al_name_len next);
                  if (fits : bool) then al_loop fuel s base_ni al ni ctx next
                  else
                    mref ← lift (rd_le64 al (entry + AL_mft_reference));
                    r ← al_locate base_ni ni mref ctx;
                    let '(ctx, ni', e) := r in
                    match e with
                    | Some err => mret (ctx, ni', AlBreak err)
                    | None =>
                        instance ← lift (rd_le16 al (entry + AL_instance));
                        bytes_allocated ← lift (rd_le32 (mrec ctx) MFT_bytes_allocated);
                        f ← lift (al_attr_loop (find_fuel bytes_allocated) s type instance al_name al_name_len ctx (attr ctx));
                        let '(ctx, found) := f in
                        mret (ctx, ni', if (found : bool) then AlFound else AlBreak 0)
                    end
              end
  end.

(** [do err = ntfs_attr_find(...) while (!err)] *)
Fixpoint find_all (fuel : nat) (s : search) (ctx : ntfs_attr_search_ctx) : M (ntfs_attr_search_ctx * Z) :=
  match fuel with
  | O => hang
  | S fuel =>
      r ← attr_find s ctx;
      let '(ctx, err) := r in
      if err =? 0 then find_all fuel s ctx else mret (ctx, err)
  end.

(** The label [not_found] *)
Definition external_not_found (s : search) (base_ni ni : ptr) (ctx : ntfs_attr_search_ctx) : M (ntfs_attr_search_ctx * Z) :=
  if s_type s =? AT_END then
    ctx ← ntfs_attr_reinit_search_ctx ctx;
    attr_find s ctx
  else
    (if bool_decide (ni = base_ni) then mret tt else unmap_extent_mft_record ni);;
    match base_mrec ctx with
    | None => crash
    | Some m =>
        a ← lift (first_attr m);
        bytes_allocated ← lift (rd_le32 m MFT_bytes_allocated);
        find_all (find_fuel bytes_allocated) s (mk_ctx m a true base_ni (al_entry ctx) None None None)
    end.

Definition ntfs_external_attr_find (s : search) (ctx : ntfs_attr_search_ctx) : M (ntfs_attr_search_ctx * Z) :=
  let ni := ntfs_ino ctx in
  let '(base_ni, ctx) :=
    match base_ntfs_ino ctx with
    | None => (ni, ctx_set_base (Some ni) (Some (mrec ctx)) ctx)
    | Some b => (b, ctx)
    end in
  let ctx := if bool_decide (ni = base_ni) then ctx_set_base_attr (Some (attr ctx)) ctx else ctx in
  if s_type s =? AT_END then external_not_found s base_ni ni ctx
  else
    base ← get base_ni;
    match attr_list base with
    | None => crash
    | Some al =>
        let start := default 0 (al_entry ctx) in
        let ctx := ctx_set_al_entry (Some start) ctx in
        e ← (if is_first ctx then mret (start, ctx_set_first false ctx)
             else length ← lift (rd_le16 al (start + AL_length)); mret (start + length, ctx));
        let '(entry, ctx) := e in
        r ← al_loop (S (S (length al))) s base_ni al ni ctx entry;
        let '(ctx, ni', x) := r in
        match x with
        | AlFound => mret (ctx, 0)
        | AlNotFound => match ni' with Some ni => external_not_found s base_ni ni ctx | None => crash end
        | AlBreak err =>
            let err := if err =? 0 then - EIO else err in
            ctx ← (if bool_decide (ni' = Some base_ni) then mret ctx
                   else
                     match ni' with Some ni => unmap_extent_mft_record ni | None => mret tt end;;
                     match base_mrec ctx, base_attr ctx with
                     | Some m, Some a => mret (ctx_set_attr a (ctx_set_ino m base_ni ctx))
                     | _, _ => crash
                     end);
            (if err =? - ENOMEM then mret tt else NVolSetErrors);;
            mret (ctx, err)
        end
    end.

Definition ntfs_attr_lookup (s : search) (ctx : ntfs_attr_search_ctx) : M (ntfs_attr_search_ctx * Z) :=
  let base_ni := default (ntfs_ino ctx) (base_ntfs_ino ctx) in
  base ← get base_ni;
  if bool_decide (attr_list base = None) || (s_type s =? AT_ATTRIBUTE_LIST) then attr_find s ctx
  else ntfs_external_attr_find s ctx.
End Lookup.
