(* ===== verification/AttrLookupProof.v ===== *)
(** * Attribute lookup: proofs

    Every operation on a search context ends, and the extent mft record a context
    has mapped is exactly the one it stands in. *)

From Stdlib Require Import ZArith Lia Bool.
From stdpp Require Import base list numbers option gmap.
From S2P Require Import Prelude Endian Unistr Collate Attrib MftMap MftMapSpec AttrLookup.

(** ** Functions that end

    The function returns a value or reads outside an object; it neither stops in
    a [BUG_ON] nor runs forever. *)
Class Ends {A} (o : outcome A) : Prop := ends : match o with Ret _ | Fault => True | _ => False end.

#[export] Instance ends_Ret {A} (a : A) : Ends (Ret a).
Proof. exact I. Qed.
#[export] Instance ends_Fault {A} : Ends (@Fault A).
Proof. exact I. Qed.
#[export] Instance ends_bind {A B} (m : outcome A) (f : A -> outcome B) : Ends m -> (forall a, Ends (f a)) -> Ends (m ≫= f).
Proof. intros Hm Hf. destruct m; try done. apply Hf. Qed.
#[export] Hint Extern 2 (Ends (match ?x with _ => _ end)) => destruct x : typeclass_instances.

#[export] Instance ends_rd {A} (b : list A) i : Ends (rd b i).
Proof. unfold rd. apply _. Qed.
#[export] Instance ends_rd_bytes n b i : Ends (rd_bytes n b i).
Proof. unfold rd_bytes. apply _. Qed.
#[export] Instance ends_rd_u8 b i : Ends (rd_u8 b i).
Proof. unfold rd_u8. apply _. Qed.
#[export] Instance ends_rd_le16 b i : Ends (rd_le16 b i).
Proof. unfold rd_le16. apply _. Qed.
#[export] Instance ends_rd_le32 b i : Ends (rd_le32 b i).
Proof. unfold rd_le32. apply _. Qed.
#[export] Instance ends_rd_le64 b i : Ends (rd_le64 b i).
Proof. unfold rd_le64. apply _. Qed.
#[export] Instance ends_rd_sle64 b i : Ends (rd_sle64 b i).
Proof. unfold rd_sle64. apply _. Qed.
#[export] Instance ends_memcmp n a b i : Ends (memcmp n a b i).
Proof. revert i. induction n; intros; cbn [memcmp]; apply _. Qed.
#[export] Instance ends_collate_loop n a b i e ic u l : Ends (collate_loop n a b i e ic u l).
Proof. revert i. induction n; intros; cbn [collate_loop]; unfold upcase_char, illegal_char; apply _. Qed.
#[export] Instance ends_collate_names a la b lb e ic u l : Ends (ntfs_collate_names a la b lb e ic u l).
Proof. unfold ntfs_collate_names, illegal_char. apply _. Qed.
#[export] Instance ends_ucsncmp n a b i : Ends (ucsncmp_loop n a b i).
Proof. revert i. induction n; intros; cbn [ucsncmp_loop]; apply _. Qed.
#[export] Instance ends_ucsncasecmp n a b i u l : Ends (ucsncasecmp_loop n a b i u l).
Proof. revert i. induction n; intros; cbn [ucsncasecmp_loop]; unfold upcase_char; apply _. Qed.
#[export] Instance ends_names_equal a la b lb ic u l : Ends (ntfs_are_names_equal a la b lb ic u l).
Proof. unfold ntfs_are_names_equal, ntfs_ucsncmp, ntfs_ucsncasecmp. apply _. Qed.
#[export] Instance ends_find_name u l n nl ic m a : Ends (find_name u l n nl ic m a).
Proof. unfold find_name. apply _. Qed.
#[export] Instance ends_find_val v vl m a : Ends (find_val v vl m a).
Proof. unfold find_val. apply _. Qed.
#[export] Instance ends_al_name u l s n nl : Ends (al_name_verdict u l s n nl).
Proof. unfold al_name_verdict. apply _. Qed.
#[export] Instance ends_next_fits u l s al t n nl k : Ends (next_fits u l s al t n nl k).
Proof. unfold next_fits. apply _. Qed.
#[export] Instance ends_al_value s m a : Ends (al_value_matches s m a).
Proof. unfold al_value_matches. apply _. Qed.
#[export] Instance ends_first_attr m : Ends (first_attr m).
Proof. unfold first_attr. apply _. Qed.

(** A number read from bytes is not negative. *)
Lemma rd_bytes_nonneg n m i l : Forall byte_ok m -> rd_bytes n m i = Ret l -> 0 <= le_combine l.
Proof.
  intros Hm. unfold rd_bytes. destruct (_ && _); [|done]. intros [= <-].
  apply le_combine_bound. by apply Forall_take, Forall_drop.
Qed.
Lemma rd_le16_nonneg m i x : Forall byte_ok m -> rd_le16 m i = Ret x -> 0 <= x.
Proof. intros Hm (l & El & [= <-])%bind_Ret_inv. by eapply rd_bytes_nonneg. Qed.
Lemma rd_le32_nonneg m i x : Forall byte_ok m -> rd_le32 m i = Ret x -> 0 <= x.
Proof. intros Hm (l & El & [= <-])%bind_Ret_inv. by eapply rd_bytes_nonneg. Qed.

(** ** Postconditions

    [owp o Q]: [o] ends, and when it returns, with a value in [Q]; [wp] is the
    same for a state transformer. *)
Definition owp {A} (o : outcome A) (Q : A -> Prop) : Prop := match o with Ret a => Q a | Fault => True | _ => False end.
Definition wp {A} (m : M A) (w : world) (Q : world -> A -> Prop) : Prop := owp (m w) (fun r => Q (fst r) (snd r)).

Lemma owp_bind {A B} (m : outcome A) (f : A -> outcome B) Q : owp m (fun a => owp (f a) Q) -> owp (m ≫= f) Q.
Proof. by destruct m. Qed.
Lemma owp_ends {A} (o : outcome A) (Q : A -> Prop) : Ends o -> (forall a, o = Ret a -> Q a) -> owp o Q.
Proof. destruct o; cbn; auto. Qed.
Lemma owp_mono {A} (o : outcome A) (P Q : A -> Prop) : owp o P -> (forall a, P a -> Q a) -> owp o Q.
Proof. destruct o; cbn; auto. Qed.

Lemma wp_bind {A B} (m : M A) (f : A -> M B) w Q : wp m w (fun w' a => wp (f a) w' Q) -> wp (m ≫= f) w Q.
Proof. unfold wp, mbind, M_bind. intros H. apply owp_bind. eapply owp_mono; [exact H|]. by intros [w' a]. Qed.
Lemma wp_ret {A} (a : A) w (Q : world -> A -> Prop) : Q w a -> wp (mret a) w Q.
Proof. done. Qed.
Lemma wp_lift {A} (o : outcome A) w (Q : world -> A -> Prop) : owp o (fun a => Q w a) -> wp (lift o) w Q.
Proof. unfold wp, lift. intros H. apply owp_bind. eapply owp_mono; [exact H|]. done. Qed.
Lemma wp_lift_ends {A} (o : outcome A) w (Q : world -> A -> Prop) : Ends o -> (forall a, o = Ret a -> Q w a) -> wp (lift o) w Q.
Proof. intros He H. by apply wp_lift, owp_ends. Qed.
Lemma wp_run {A} (m : M A) w w' a (Q : world -> A -> Prop) : m w = Ret (w', a) -> Q w' a -> wp m w Q.
Proof. unfold wp. by intros ->. Qed.
Lemma wp_mono {A} (m : M A) w (P Q : world -> A -> Prop) : wp m w P -> (forall w' a, P w' a -> Q w' a) -> wp m w Q.
Proof. intros H HQ. eapply owp_mono; [exact H|]. intros [w' a]. apply HQ. Qed.
Lemma wp_crash {A} w (Q : world -> A -> Prop) : wp crash w Q.
Proof. exact I. Qed.

(** Runs a read that ends: what it returned is kept under a name. *)
Tactic Notation "rdstep" simple_intropattern(x) simple_intropattern(H) :=
  lazymatch goal with
  | |- wp _ _ _ => apply wp_bind; apply wp_lift_ends; [apply _ | intros x H]
  | |- owp _ _ => apply owp_bind; apply owp_ends; [apply _ | intros x H]
  end.

(** ** Searching one record *)

Section Find.
Context (upcase : list Z) (upcase_len : Z).

(** An attribute of the record whose length is not zero. *)
Definition nonempty_attr (m : list Z) (a : Z) : Prop := exists len, rd_le32 m (a + A_length) = Ret len /\ 0 < len.

Lemma attr_find_loop_ends fuel : forall type name nl ic val vl ctx a ba,
  Forall byte_ok (ctx_mrec ctx) -> 0 <= a -> rd_le32 (ctx_mrec ctx) MFT_bytes_allocated = Ret ba ->
  ba - a + 1 < Z.of_nat fuel -> 0 < Z.of_nat fuel ->
  owp (attr_find_loop upcase upcase_len fuel type name nl ic val vl ctx a) (fun r =>
    ctx_mrec (fst r) = ctx_mrec ctx /\ ctx_is_first (fst r) = ctx_is_first ctx /\
    (snd r = 0 -> a <= ctx_attr (fst r) <= ba /\ nonempty_attr (ctx_mrec ctx) (ctx_attr (fst r))) /\
    (ctx_attr (fst r) = ctx_attr ctx \/ 0 <= ctx_attr (fst r))).
Proof.
  induction fuel as [|fuel IH]; intros type name nl ic val vl ctx a ba Hm Ha Hba Hf Hf0; [lia|].
  cbn [attr_find_loop]. rewrite Hba, bind_Ret.
  destruct ((a <? 0) || (a >? ba)) eqn:Eb; [cbn; unfold EIO; split_and!; auto; lia|].
  apply orb_false_iff in Eb as [_ Eb]. destruct (Z.gtb_spec a ba); [done|].
  rdstep t Et. destruct (_ || _); [cbn; unfold ENOENT; split_and!; auto; lia|].
  rdstep len El. destruct (Z.eqb_spec len 0); [cbn; unfold EIO; split_and!; auto; lia|].
  apply owp_bind, owp_ends; [apply _|]. intros v _.
  pose proof (rd_le32_nonneg _ _ _ Hm El). destruct v.
  - cbn. split_and!; auto. intros _. split; [lia|]. exists len. split; [done|lia].
  - eapply owp_mono; [apply (IH _ _ _ _ _ _ (set_attr a ctx) (a + len) ba); try done; lia|].
    cbn. intros [c e] (H1 & H2 & H3 & H4). cbn in *. split_and!; auto; [intros Hz; destruct (H3 Hz); split; [lia|done]|].
    destruct H4 as [->|]; auto.
  - cbn. unfold ENOENT. split_and!; auto; lia.
Qed.

(** [ntfs_attr_find] ends; a match lies behind the attribute the search went on
    from. *)
Lemma attr_find_ends s ctx w :
  Forall byte_ok (mrec ctx) -> 0 <= attr ctx ->
  wp (attr_find upcase upcase_len s ctx) w (fun w' r =>
    inodes w' = inodes w /\ pinned w' = pinned w /\ allocs w' = allocs w /\
    exists a, fst r = ctx_set_attr a (ctx_set_first false ctx) /\ 0 <= a /\
      (snd r = 0 -> attr ctx <= a /\ (is_first ctx = false -> nonempty_attr (mrec ctx) (attr ctx) -> attr ctx < a) /\
         nonempty_attr (mrec ctx) a /\ exists ba, rd_le32 (mrec ctx) MFT_bytes_allocated = Ret ba /\ a <= ba)).
Proof.
  intros Hm Ha. unfold wp, attr_find, ntfs_attr_find. cbn [ctx_is_first ctx_attr ctx_mrec]. set (w0 := w).
  apply owp_bind, owp_bind. destruct (is_first ctx) eqn:Ef; [cbn [owp]|rdstep len El; cbn [owp]].
  - rdstep ba Eb. eapply owp_mono; [eapply (attr_find_loop_ends _ _ _ _ _ _ _ _ _ ba); cbn; try done; unfold find_fuel; lia|].
    intros [c e] (H1 & H2 & H3 & H4). cbn in *. split_and!; try done. exists (ctx_attr c).
    split; [by rewrite H2|]. split; [lia|]. intros Hz. destruct (H3 Hz). split_and!; auto; [lia|done|]. exists ba. split; [done|lia].
  - pose proof (rd_le32_nonneg _ _ _ Hm El).
    rdstep ba Eb. eapply owp_mono; [eapply (attr_find_loop_ends _ _ _ _ _ _ _ _ _ ba); cbn; try done; unfold find_fuel; lia|].
    intros [c e] (H1 & H2 & H3 & H4). cbn in *. split_and!; try done. exists (ctx_attr c).
    split; [by rewrite H2|]. split; [lia|]. intros Hz. destruct (H3 Hz). split_and!; auto; [lia| |].
    + intros _ (len' & E' & Hl'). rewrite El in E'. injection E' as <-. lia.
    + exists ba. split; [done|lia].
Qed.

(** The enumeration to the end of the base record ends. *)
Lemma find_all_ends fuel : forall s ctx w ba,
  Forall byte_ok (mrec ctx) -> 0 <= attr ctx -> (is_first ctx = false -> nonempty_attr (mrec ctx) (attr ctx)) ->
  rd_le32 (mrec ctx) MFT_bytes_allocated = Ret ba ->
  ba - attr ctx + (if is_first ctx then 2 else 1) <= Z.of_nat fuel -> 0 < Z.of_nat fuel ->
  wp (find_all upcase upcase_len fuel s ctx) w (fun w' r =>
    inodes w' = inodes w /\ pinned w' = pinned w /\ allocs w' = allocs w /\ snd r <> 0 /\
    exists a, fst r = ctx_set_attr a (ctx_set_first false ctx) /\ 0 <= a).
Proof.
  induction fuel as [|fuel IH]; intros s ctx w ba Hm Ha Hne Hba Hf Hf0; [lia|]. cbn [find_all]. apply wp_bind.
  eapply wp_mono; [by apply attr_find_ends|]. intros w' [c e] (H1 & H2 & H3 & a & Hc & Ha' & Hz). cbn [fst snd] in *. subst c.
  destruct (Z.eqb_spec e 0) as [->|He].
  2:{ apply wp_ret. split_and!; try done. by exists a. }
  destruct (Hz eq_refl) as (Hz1 & Hz2 & Hz3 & ba' & Hba' & Hle). rewrite Hba in Hba'. injection Hba' as <-.
  assert (Hlt : is_first ctx = false -> attr ctx < a) by (intros; auto).
  eapply wp_mono; [apply (IH _ _ _ ba); cbn; try done; [destruct (is_first ctx); [|specialize (Hlt eq_refl)]; lia..]|].
  cbn. intros w2 [c e] (G1 & G2 & G3 & G4 & a' & G5 & G6). cbn in *. subst c. split_and!; try congruence. by exists a'.
Qed.

(** The attribute an attribute list entry stands for. *)
Definition al_attr_match (s : search) (type instance : Z) (al_name : list Z) (al_name_len : Z) (m : list Z) (a : Z) : Prop :=
  rd_le32 m (a + A_type) = Ret type /\ rd_le16 m (a + A_instance) = Ret instance /\
  (exists name_offset name_length, rd_le16 m (a + A_name_offset) = Ret name_offset /\ rd_u8 m (a + A_name_length) = Ret name_length /\
    ntfs_are_names_equal (ntfschars_at m (a + name_offset)) name_length al_name al_name_len CASE_SENSITIVE upcase upcase_len = Ret true) /\
  al_value_matches s m a = Ret true.

Lemma al_attr_loop_ends fuel : forall s type instance n nl ctx a ba,
  Forall byte_ok (mrec ctx) -> 0 <= a -> rd_le32 (mrec ctx) MFT_bytes_allocated = Ret ba ->
  ba - a + 1 < Z.of_nat fuel -> 0 < Z.of_nat fuel ->
  owp (al_attr_loop upcase upcase_len fuel s type instance n nl ctx a) (fun r =>
    (fst r = ctx \/ exists a', fst r = ctx_set_attr a' ctx /\ 0 <= a') /\
    (snd r = true -> al_attr_match s type instance n nl (mrec ctx) (attr (fst r)))).
Proof.
  induction fuel as [|fuel IH]; intros s type instance n nl ctx a ba Hm Ha Hba Hf Hf0; [lia|].
  cbn [al_attr_loop]. rewrite Hba, bind_Ret.
  destruct ((a <? 0) || (a >? ba)) eqn:Eb; [by split; [left|]|].
  apply orb_false_iff in Eb as [_ Eb]. destruct (Z.gtb_spec a ba); [done|].
  rdstep t Et. destruct (t =? AT_END); [by split; [left|]|].
  rdstep len El. destruct (Z.eqb_spec len 0); [by split; [left|]|]. pose proof (rd_le32_nonneg _ _ _ Hm El).
  rdstep inst Ei. destruct (Z.eqb_spec instance inst) as [<-|]; cbn [negb].
  2:{ apply IH with (ba := ba); try done; lia. }
  destruct (Z.eqb_spec type t) as [<-|]; cbn [negb]; [|by split; [left|]].
  rdstep no Eno. rdstep nlen Enl. rdstep eq Eeq. destruct eq; cbn [negb]; [|by split; [left|]].
  rdstep ok Eok. destruct ok.
  - cbn. split; [eauto|]. intros _. split_and!; eauto 6.
  - eapply owp_mono; [apply (IH s type instance n nl (ctx_set_attr a ctx) (a + len) ba); try done; lia|].
    intros [c f] [H1 H2]. cbn [fst snd mrec ctx_set_attr] in *. split; [|done]. right. destruct H1 as [->|(a' & -> & Ha')]; eauto.
Qed.
End Find.
