(* ===== verification/AttrLookupInv.v ===== *)
(** * Attribute lookup: the state of a search

    The invariant that ties a search context to the mft records that are mapped,
    and its preservation by every operation. *)

From Stdlib Require Import ZArith Lia Bool.
From stdpp Require Import base list numbers option gmap.
From S2P Require Import Prelude Endian Unistr Collate Attrib MftMap MftMapSpec AttrLookup AttrLookupProof.

Section Inv.
Context (upcase : list Z) (upcase_len : Z).
Context (read_mapping_page : Z -> Z + (list Z * bool)) (i_size mft_record_size_bits PAGE_CACHE_SHIFT : Z).
Hypothesis Hbits : 8 <= mft_record_size_bits <= PAGE_CACHE_SHIFT.
Hypothesis Hshift : PAGE_CACHE_SHIFT < 31.
Hypothesis Hpages : forall n data err, read_mapping_page n = inr (data, err) ->
  zlen data = page_size PAGE_CACHE_SHIFT /\ Forall byte_ok data.

(** The caller's world, in which the base record is mapped: its inode, its bytes
    and the attribute list. *)
Context (w0 : world) (base : ptr) (b0 : ntfs_inode) (m0 : list Z).
Hypothesis Hb0 : inodes w0 !! base = Some b0.
Hypothesis Hm0 : Forall byte_ok m0.
Hypothesis Hal : forall al, attr_list b0 = Some al -> Forall byte_ok al.

Local Abbreviation mapped := (mapped mft_record_size_bits PAGE_CACHE_SHIFT).
Local Abbreviation rec_page := (rec_page mft_record_size_bits PAGE_CACHE_SHIFT).
Local Abbreviation record_is := (record_is read_mapping_page i_size mft_record_size_bits PAGE_CACHE_SHIFT).

(** The inodes while no extent record is mapped: those of the caller, with more
    extents attached to the base inode. *)
Record settled (inodes_i : gmap ptr ntfs_inode) (inos : list ptr) : Prop := {
  se_base : exists b n e, base_ok (mk_world inodes_i [] false []) base b inos /\ b = set_ext n e b0;
  se_idle : forall p i, p ∈ inos -> inodes_i !! p = Some i -> idle i;
  se_old : forall p i, p <> base -> inodes w0 !! p = Some i -> inodes_i !! p = Some i;
  se_new : forall p i, inodes w0 !! p = None -> inodes_i !! p = Some i -> idle i /\ count i = 1;
}.

(** [cur]: the extent whose record is mapped. *)
Definition extent_state (w : world) (cur : option ptr) (inodes_i : gmap ptr ntfs_inode) (inos : list ptr) : Prop :=
  settled inodes_i inos /\
  match cur with
  | None => inodes w = inodes_i /\ pinned w = pinned w0
  | Some p => p <> base /\ exists i, inodes_i !! p = Some i /\ idle i /\
      inodes w = <[p := mapped i]> inodes_i /\ pinned w = rec_page (mft_no i) :: pinned w0
  end.

Definition State (w : world) (cur : option ptr) : Prop := exists ii inos, extent_state w cur ii inos.

(** The invariant depends on the inodes and the pins only. *)
Lemma State_same w w' cur : inodes w' = inodes w -> pinned w' = pinned w -> State w cur -> State w' cur.
Proof.
  intros H1 H2 (ii & inos & Hs & Hc). exists ii, inos. split; [done|]. rewrite H1, H2. exact Hc.
Qed.

Lemma base_ok_same w w' b inos : inodes w = inodes w' -> base_ok w base b inos -> base_ok w' base b inos.
Proof. intros E [H1 H2 H3 H4 H5]. split; try done; by rewrite <- E. Qed.

Lemma State_base w cur : State w cur -> exists n e, inodes w !! base = Some (set_ext n e b0).
Proof.
  intros (ii & inos & [(b & n & e & [Hb _ _ _ He] & ->) _ _ _] & Hc). exists n, e. cbn in Hb.
  destruct cur as [p|]; [|by destruct Hc as [-> _]]. destruct Hc as (Hp & i & _ & _ & -> & _).
  by rewrite lookup_insert_ne.
Qed.

(** Unmapping the extent. *)
Lemma unmap_extent_returns w p : State w (Some p) -> exists w', unmap_extent_mft_record p w = Ret (w', tt) /\ State w' None.
Proof.
  intros (ii & inos & Hs & Hp & i & Hi & Hid & Hw & Hpin). eexists. split.
  - apply (unmap_record_spec mft_record_size_bits PAGE_CACHE_SHIFT w p i); [|done]. by rewrite Hw, lookup_insert_eq.
  - exists ii, inos. split; [done|]. cbn -[unpin]. rewrite Hw, Hpin, insert_insert_eq, insert_id, unpin_cons by done. done.
Qed.

Lemma unmap_extent_state w p : State w (Some p) -> wp (unmap_extent_mft_record p) w (fun w' _ => State w' None).
Proof.
  intros Hs. destruct (unmap_extent_returns w p Hs) as (w' & E & Hs'). by eapply wp_run.
Qed.

(** Leaving the inode in use, whatever it is. *)
Lemma leave_state w cur ni :
  State w cur -> ni = default base cur -> cur <> Some base ->
  wp (if bool_decide (ni = base) then mret tt else unmap_extent_mft_record ni) w (fun w' _ => State w' None).
Proof.
  intros Hs -> Hc. destruct cur as [p|]; cbn.
  - rewrite bool_decide_eq_false_2 by congruence. by apply unmap_extent_state.
  - by rewrite bool_decide_eq_true_2.
Qed.

Lemma State_cur w p : State w (Some p) -> p <> base.
Proof.
  by intros (ii & inos & _ & Hp & _).
Qed.

(** Mapping an extent. *)
Lemma map_extent_state w mref :
  State w None ->
  wp (map_extent_mft_record read_mapping_page i_size mft_record_size_bits PAGE_CACHE_SHIFT base mref) w (fun w' r =>
    match r with
    | inl _ => State w' None
    | inr (m, ni) => State w' (Some ni) /\ record_is (MREF mref) m /\ Forall byte_ok m /\
        exists i, inodes w' !! ni = Some i /\ mft_no i = MREF mref
    end).
Proof.
  intros (ii & inos & Hs & Hw & Hpin). pose proof Hs as [(b & n & e & Hok & Eb) Hidle Hold Hnew].
  assert (Hokw : base_ok w base b inos) by (by apply (base_ok_same (mk_world ii [] false []))).
  assert (Hmem : forall no m, record_is no m -> Forall byte_ok m).
  { intros no m (_ & data & Hd & _ & ->). unfold record_at. apply Forall_take, Forall_drop. by eapply Hpages. }
  destruct (map_extent_spec read_mapping_page i_size mft_record_size_bits PAGE_CACHE_SHIFT Hbits Hshift
    ltac:(intros; by eapply Hpages) w base b inos mref Hokw) as (w' & r & E & Hr).
  { intros p i Hp Hi _. rewrite Hw in Hi. by eapply Hidle. }
  eapply wp_run; [exact E|]. destruct Hr as [w' e' H1 H2|w' m ni i Hin Hi Hno Hrec _ H1 H2|w' m ni i b' Hnone Hno _ Hid Hc _ _ Hrec _ H1 H2 Hb' Hok'].
  - apply (State_same w); [done..|]. by exists ii, inos.
  - rewrite Hw in Hi, H1. rewrite Hpin in H2. rewrite <- Hno. split; [|split_and!; [by eauto..|exists (mapped i); by rewrite H1, lookup_insert_eq]]. exists ii, inos. split; [done|].
    destruct (bo_each _ _ _ _ Hok ni Hin) as [Hne _]. split; [done|]. exists i. split_and!; try done. by eapply Hidle.
  - rewrite <- Hno. split; [|split_and!; [by eauto..|exists (mapped i); by rewrite H1, lookup_insert_eq]]. rewrite Hw in *. rewrite Hpin in H2. destruct Hb' as [e' ->].
    assert (Hne : ni <> base) by (destruct Hokw as [Hb _ _ _ _]; rewrite Hw in Hb; congruence).
    exists (<[ni := i]> (<[base := set_ext (zlen inos + 1) e' b]> ii)), (inos ++ [ni]).
    assert (Hnotin : ni ∉ inos). { intros Hin. destruct (bo_each _ _ _ _ Hok ni Hin) as [_ [j Hj]]. cbn in Hj. congruence. }
    split; [split|].
    + exists (set_ext (zlen inos + 1) e' b), (zlen inos + 1), e'. split; [|by rewrite Eb].
      destruct Hok' as [_ G2 G3 G4 G5]. split; try done; cbn.
      * by rewrite lookup_insert_ne, lookup_insert_eq.
      * intros p Hp. destruct (G5 p Hp) as [Gp [j Gj]]. split; [done|]. rewrite H1 in Gj.
        destruct (decide (p = ni)) as [->|]; [rewrite lookup_insert_eq; eauto|].
        rewrite lookup_insert_ne in Gj |- * by done. eauto.
    + intros p j [Hp|Hp]%elem_of_app Hj.
      * rewrite !lookup_insert_ne in Hj by (destruct (bo_each _ _ _ _ Hok p Hp); congruence). by eapply Hidle.
      * apply list_elem_of_singleton in Hp as ->. rewrite lookup_insert_eq in Hj. congruence.
    + intros p j Hp Hj. specialize (Hold p j Hp Hj). rewrite !lookup_insert_ne by congruence. done.
    + intros p j Hp Hj. destruct (decide (p = ni)) as [->|].
      * rewrite lookup_insert_eq in Hj. injection Hj as <-. done.
      * rewrite lookup_insert_ne in Hj by done. destruct (decide (p = base)) as [->|]; [congruence|].
        rewrite lookup_insert_ne in Hj by done. by apply (Hnew p j).
    + split; [done|]. exists i. rewrite lookup_insert_eq.
      split_and!; try done. by rewrite H1, !insert_insert_eq.
Qed.

(** ** The context *)

(** The record a context stands in: the base record, or that of the extent that
    is mapped. *)
Definition ctx_in (ctx : ntfs_attr_search_ctx) (cur : option ptr) : Prop :=
  ntfs_ino ctx = default base cur /\ Forall byte_ok (mrec ctx) /\ 0 <= attr ctx /\ 0 <= default 0 (al_entry ctx) /\
  (cur = None -> mrec ctx = m0).

(** While an attribute list is searched. *)
Definition ctx_ext (ctx : ntfs_attr_search_ctx) (cur : option ptr) : Prop :=
  ctx_in ctx cur /\ base_ntfs_ino ctx = Some base /\ base_mrec ctx = Some m0 /\ exists a, base_attr ctx = Some a /\ 0 <= a.

(** Between operations. *)
Definition Inv (w : world) (ctx : ntfs_attr_search_ctx) : Prop :=
  exists cur, State w cur /\ ((ctx_in ctx cur /\ base_ntfs_ino ctx = None /\ cur = None) \/ ctx_ext ctx cur).

(** A context in an extent has the bytes of the record of that extent. *)
Definition rec_in (w : world) (ctx : ntfs_attr_search_ctx) : Prop :=
  ntfs_ino ctx <> base -> forall i, inodes w !! ntfs_ino ctx = Some i -> record_is (mft_no i) (mrec ctx).

Lemma rec_in_same w w' ctx ctx' : inodes w' = inodes w -> ntfs_ino ctx' = ntfs_ino ctx -> mrec ctx' = mrec ctx -> rec_in w ctx -> rec_in w' ctx'.
Proof. unfold rec_in. by intros -> -> ->. Qed.
Lemma rec_in_base w ctx : ntfs_ino ctx = base -> rec_in w ctx.
Proof. by intros E H. Qed.

Lemma first_attr_nonneg m a : Forall byte_ok m -> first_attr m = Ret a -> 0 <= a.
Proof. intros Hm. apply rd_le16_nonneg, Hm. Qed.

(** The context at the first attribute of another record. *)
Lemma ctx_ext_move ctx cur cur' m ni a :
  ctx_ext ctx cur -> Forall byte_ok m -> first_attr m = Ret a -> ni = default base cur' -> (cur' = None -> m = m0) ->
  ctx_ext (ctx_set_attr a (ctx_set_ino m ni ctx)) cur'.
Proof.
  intros ((_ & _ & _ & Hale & _) & Hbn & Hbm & Hba) Hm Ha Hni Hc. split; [|done]. split_and!; try done.
  by eapply first_attr_nonneg.
Qed.

(** The record of an entry. *)
Lemma al_locate_state w cur ni mref ctx :
  State w cur -> ctx_ext ctx cur -> ni = ntfs_ino ctx ->
  wp (al_locate read_mapping_page i_size mft_record_size_bits PAGE_CACHE_SHIFT base ni mref ctx) w (fun w' r =>
    let '(ctx', ni', e) := r in
    match e, ni' with
    | None, Some ni' => exists cur', State w' cur' /\ ctx_ext ctx' cur' /\ ni' = ntfs_ino ctx' /\ al_entry ctx' = al_entry ctx /\
        (exists i, inodes w' !! ni' = Some i /\ mft_no i = MREF mref) /\ (rec_in w ctx -> rec_in w' ctx')
    | Some e, Some ni' => State w' cur /\ ctx' = ctx /\ ni' = ntfs_ino ctx /\ e <> 0 /\ w' = w
    | Some e, None => State w' None /\ ctx' = ctx
    | None, None => False
    end).
Proof.
  intros Hs Hx ->. pose proof Hx as ((Hino & Hbytes & Hattr & Hale & Hm) & Hbn & Hbm & Hba). unfold al_locate. apply wp_bind.
  unfold wp at 1, get. destruct (inodes w !! ntfs_ino ctx) as [i|] eqn:Ei; [|exact I]. cbn [owp fst snd].
  destruct (Z.eqb_spec (MREF mref) (mft_no i)) as [E|E].
  { apply wp_ret. destruct (MSEQNO mref =? seq_no i); cbn [negb]; [|by unfold EIO].
    exists cur. split_and!; auto. by exists i. }
  apply wp_bind. assert (Hcb : cur <> Some base) by (intros ->; by apply State_cur in Hs).
  eapply wp_mono; [by apply (leave_state w cur)|]. intros w1 [] Hs1.
  destruct (State_base _ _ Hs1) as (n & e & Hb1). apply wp_bind. eapply wp_run; [by apply get_eq|].
  change (mft_no (set_ext n e b0)) with (mft_no b0). destruct (Z.eqb_spec (MREF mref) (mft_no b0)) as [Eb|Eb].
  - rewrite Hbm. rdstep a Ea. apply wp_ret. exists None. split_and!; try done; [by eapply ctx_ext_move|].
    exists (set_ext n e b0). by rewrite <- Hb1.
  - apply wp_bind. eapply wp_mono; [by apply map_extent_state|]. intros w2 [e2|[m ni2]]; [by intros|].
    intros (Hs2 & Hrec & Hmb & Hi2). rdstep a Ea. apply wp_ret. exists (Some ni2).
    split_and!; try done; [by eapply ctx_ext_move|]. intros _ _ i2 Hi. cbn [ntfs_ino mrec ctx_set_attr ctx_set_ino] in *. destruct Hi2 as (j & Hj & Hn). rewrite Hj in Hi. injection Hi as <-. by rewrite Hn.
Qed.

(** The attribute found through the entry the context points to: of the type and
    name searched for, with the instance number and in the record the entry gives: the
    base record the caller has mapped, or the extent record of that number. *)
Definition found_through (al : list Z) (s : search) (w : world) (ctx : ntfs_attr_search_ctx) : Prop :=
  exists entry name_len name_offset mref instance,
    al_entry ctx = Some entry /\ rd_le32 al (entry + AL_type) = Ret (s_type s) /\
    rd_u8 al (entry + AL_name_length) = Ret name_len /\ rd_u8 al (entry + AL_name_offset) = Ret name_offset /\
    al_name_verdict upcase upcase_len s (ntfschars_at al (entry + name_offset)) name_len = Ret Match /\
    rd_le64 al (entry + AL_mft_reference) = Ret mref /\ rd_le16 al (entry + AL_instance) = Ret instance /\
    (exists i, inodes w !! ntfs_ino ctx = Some i /\ mft_no i = MREF mref) /\
    (if bool_decide (ntfs_ino ctx = base) then mrec ctx = m0 else record_is (MREF mref) (mrec ctx)) /\
    al_attr_match upcase upcase_len s (s_type s) instance (ntfschars_at al (entry + name_offset)) name_len (mrec ctx) (attr ctx).

Lemma ctx_ext_entry ctx cur e : 0 <= e -> ctx_ext ctx cur -> ctx_ext (ctx_set_al_entry (Some e) ctx) cur.
Proof. intros He ((? & ? & ? & _ & ?) & ? & ? & ?). by repeat split. Qed.
Lemma ctx_ext_attr ctx cur a : 0 <= a -> ctx_ext ctx cur -> ctx_ext (ctx_set_attr a ctx) cur.
Proof. intros He ((? & ? & _ & ? & ?) & ? & ? & ?). by repeat split. Qed.

(** How the loop over the attribute list is left. *)
Definition al_post (w : world) (ctx : ntfs_attr_search_ctx) (al : list Z) (s : search) (w' : world) (r : ntfs_attr_search_ctx * option ptr * al_exit) : Prop :=
  let '(ctx', ni', x) := r in
  exists cur', ctx_ext ctx' cur' /\
  match x with
  | AlFound => State w' cur' /\ (rec_in w ctx -> rec_in w' ctx' /\ found_through al s w' ctx')
  | AlNotFound => State w' cur' /\ ni' = Some (ntfs_ino ctx')
  | AlBreak e => State w' cur' /\ ni' = Some (ntfs_ino ctx') /\ (rec_in w ctx -> rec_in w' ctx') \/ State w' None /\ ni' = None
  end.

Lemma al_loop_state al s : Forall byte_ok al -> forall fuel ni ctx entry w cur,
  State w cur -> ctx_ext ctx cur -> ni = ntfs_ino ctx -> 0 <= entry -> zlen al - entry + 1 < Z.of_nat fuel -> 0 < Z.of_nat fuel ->
  wp (al_loop upcase upcase_len read_mapping_page i_size mft_record_size_bits PAGE_CACHE_SHIFT fuel s base al ni ctx entry) w (al_post w ctx al s).
Proof.
  intros Halb. induction fuel as [|fuel IH]; intros ni ctx entry w cur Hs Hx -> He Hf Hf0; [lia|]. cbn [al_loop].
  assert (Hsame : forall e, rec_in w ctx -> rec_in w (ctx_set_al_entry e ctx)) by (intros e; by apply rec_in_same).
  apply (wp_mono _ _ (al_post w (ctx_set_al_entry (Some entry) ctx) al s)); [|intros w' [[c n] x] (cur' & H1 & H2); exists cur'; split; [done|]; by destruct x; naive_solver].
  destruct ((entry <? 0) || (entry >? zlen al)) eqn:Eb; [apply wp_ret; exists cur; split; [done|]; left; split_and!; try done; by apply rec_in_same|]. clear Hsame.
  apply orb_false_iff in Eb as [_ Eb]. destruct (Z.gtb_spec entry (zlen al)); [done|].
  apply (ctx_ext_entry _ _ entry He) in Hx. set (ctx1 := ctx_set_al_entry (Some entry) ctx) in *.
  change (ntfs_ino ctx) with (ntfs_ino ctx1). assert (Hae : al_entry ctx1 = Some entry) by done. clearbody ctx1. clear ctx. rename ctx1 into ctx.
  destruct (entry =? zlen al); [apply wp_ret; exists cur; auto|].
  rdstep len El. pose proof (rd_le16_nonneg _ _ _ Halb El).
  destruct (Z.eqb_spec len 0); [apply wp_ret; exists cur; auto|].
  destruct (_ || _); [apply wp_ret; exists cur; auto|].
  assert (Hnext : wp (al_loop upcase upcase_len read_mapping_page i_size mft_record_size_bits PAGE_CACHE_SHIFT fuel s base al
    (ntfs_ino ctx) ctx (entry + len)) w (al_post w ctx al s)) by (eapply IH; try done; lia).
  rdstep type Et. destruct (type >? s_type s); [apply wp_ret; exists cur; auto|].
  destruct (Z.eqb_spec (s_type s) type) as [<-|]; cbn [negb]; [|exact Hnext].
  rdstep nlen Enl. rdstep noff Eno. rdstep v Ev. destruct v; [|exact Hnext|apply wp_ret; exists cur; auto].
  rdstep fits Efi. destruct fits; [exact Hnext|]. clear Hnext. rdstep mref Em.
  apply wp_bind. eapply wp_mono; [by apply al_locate_state|]. intros w' [[ctx' ni'] e] Hl.
  destruct e as [e|].
  { apply wp_ret. destruct ni' as [ni'|].
    - destruct Hl as (Hs' & -> & -> & _ & ->). exists cur. auto 6.
    - destruct Hl as (Hs' & ->). exists cur. auto. }
  destruct ni' as [ni'|]; [|done]. destruct Hl as (cur' & Hs' & Hx' & -> & Hae' & Hi' & Hrec').
  rdstep inst Ei. rdstep ba Eba. apply wp_bind, wp_lift. pose proof Hx' as ((_ & Hmb & Hat & _ & _) & _).
  eapply owp_mono; [eapply (al_attr_loop_ends _ _ _ _ _ _ _ _ _ _ ba); try done; unfold find_fuel; lia|].
  intros [c f] [Hc Hmatch]. cbn [fst snd] in *. apply wp_ret. exists cur'.
  assert (Hxc : ctx_ext c cur' /\ ntfs_ino c = ntfs_ino ctx' /\ mrec c = mrec ctx' /\ al_entry c = al_entry ctx').
  { destruct Hc as [->|(a' & -> & Ha')]; [done|]. split; [by apply ctx_ext_attr|done]. }
  destruct Hxc as (Hxc & Hc1 & Hc2 & Hc3). assert (Hrc : rec_in w ctx -> rec_in w' c) by (intros H'; by apply (rec_in_same w' w' ctx'); auto). split; [done|]. rewrite Hc1. destruct f; [|auto 6].
  split; [done|]. intros Hrec. split; [auto|]. exists entry, nlen, noff, mref, inst. rewrite Hc1, Hc2, Hc3, Hae', Hae. split_and!; auto.
  case_bool_decide as Ebs; [|destruct Hi' as (i & Hi & <-); by apply (Hrec' Hrec)].
  destruct Hx' as ((Hino & _ & _ & _ & Hm) & _). apply Hm. destruct cur' as [p'|]; [|done]. cbn in Hino. rewrite Hino in Ebs. subst p'. by apply State_cur in Hs'.
Qed.

(** ** The operations *)

Lemma init_ctx_inv w ctx : State w None -> ntfs_attr_init_search_ctx base m0 = Ret ctx -> Inv w ctx.
Proof.
  intros Hs (a & Ha & [= <-])%bind_Ret_inv. exists None. split; [done|]. left. unfold ctx_in. cbn. split_and!; try done.
  by eapply first_attr_nonneg.
Qed.

#[local] Instance ends_init_ctx ni m : Ends (ntfs_attr_init_search_ctx ni m).
Proof. unfold ntfs_attr_init_search_ctx. apply _. Qed.

(** [ntfs_attr_reinit_search_ctx]: no extent is mapped afterwards, and the search
    starts over at the first attribute of the base record. *)
Lemma reinit_inv w ctx : Inv w ctx ->
  wp (ntfs_attr_reinit_search_ctx ctx) w (fun w' ctx' =>
    State w' None /\ first_attr m0 = Ret (attr ctx') /\ ctx' = mk_ctx m0 (attr ctx') true base None None (base_mrec ctx') (base_attr ctx')).
Proof.
  intros (cur & Hs & [((Hino & Hmb & Hat & Hale & Hm) & Hbn & ->)|Hx]); unfold ntfs_attr_reinit_search_ctx.
  - rewrite Hbn. rdstep a Ea. apply wp_ret. split; [done|]. rewrite Hm in Ea by done. split; [done|]. cbn in Hino. rewrite <- Hino.
    unfold ctx_set_al_entry, ctx_set_attr, ctx_set_first. cbn. by rewrite Hbn, Hm.
  - destruct Hx as ((Hino & _) & Hbn & Hbm & _). rewrite Hbn, Hbm. apply wp_bind.
    eapply wp_mono; [apply (leave_state w cur); [done|exact Hino|]; intros ->; by apply State_cur in Hs|].
    intros w' [] Hs'. apply wp_lift_ends; [apply _|]. intros c (a & Ha & [= <-])%bind_Ret_inv. done.
Qed.

(** [ntfs_attr_put_search_ctx]: nothing stays mapped. *)
Lemma put_returns w ctx : Inv w ctx -> exists w', ntfs_attr_put_search_ctx ctx w = Ret (w', tt) /\ State w' None.
Proof.
  intros (cur & Hs & [(_ & Hbn & ->)|((Hino & _) & Hbn & _)]); unfold ntfs_attr_put_search_ctx; rewrite Hbn; [by exists w|].
  rewrite Hino. destruct cur as [p|]; cbn; [|rewrite bool_decide_eq_true_2 by done; by exists w].
  pose proof (State_cur _ _ Hs). rewrite bool_decide_eq_false_2 by done.
  by apply unmap_extent_returns.
Qed.

(** A search in the record the context stands in. *)
Lemma attr_find_inv s w ctx : Inv w ctx -> wp (attr_find upcase upcase_len s ctx) w (fun w' r => Inv w' (fst r) /\ (rec_in w ctx -> rec_in w' (fst r))).
Proof.
  intros (cur & Hs & Hx).
  assert (Hin : ctx_in ctx cur) by (destruct Hx as [(H & _)|(H & _)]; exact H). pose proof Hin as (Hi1 & Hmb & Hat & Hi2 & Hi3).
  eapply wp_mono; [by apply attr_find_ends|]. intros w' [c e] (H1 & H2 & _ & a & -> & Ha & _). cbn [fst].
  split; [|by apply rec_in_same]. exists cur. split; [by apply (State_same w)|]. assert (Hin' : ctx_in (ctx_set_attr a (ctx_set_first false ctx)) cur) by done.
  destruct Hx as [(_ & Hb & Hc)|(_ & Hx)]; [by left|by right].
Qed.

Lemma not_found_inv s w ctx cur :
  State w cur -> ctx_ext ctx cur ->
  wp (external_not_found upcase upcase_len s base (ntfs_ino ctx) ctx) w (fun w' r =>
    Inv w' (fst r) /\ rec_in w' (fst r) /\ (s_type s <> AT_END -> snd r <> 0)).
Proof.
  intros Hs Hx. unfold external_not_found. destruct (Z.eqb_spec (s_type s) AT_END) as [|Hend].
  - apply wp_bind. eapply wp_mono; [apply reinit_inv; exists cur; auto|]. intros w' ctx' (Hs' & Ha & Hc).
    assert (Hinv : Inv w' ctx').
    { exists None. split; [done|]. left. rewrite Hc. unfold ctx_in. cbn. split_and!; try done. by eapply first_attr_nonneg. }
    eapply wp_mono; [by apply attr_find_inv|]. cbn. intros w2 r [H2 H3]. split; [done|]. split; [|done]. apply H3, rec_in_base. by rewrite Hc.
  - destruct Hx as ((Hino & _ & _ & Hale & _) & _ & Hbm & _). apply wp_bind.
    eapply wp_mono; [apply (leave_state w cur); [done|exact Hino|]; intros ->; by apply State_cur in Hs|].
    intros w' [] Hs'. rewrite Hbm. rdstep a Ea. rdstep ba Eba. pose proof (first_attr_nonneg _ _ Hm0 Ea).
    eapply wp_mono; [apply (find_all_ends _ _ _ _ _ _ ba); cbn; try done; unfold find_fuel; lia|].
    intros w2 [c e] (H1 & H2 & _ & He & a' & -> & Ha'). cbn [fst snd]. split; [|split; [by apply rec_in_base|done]].
    exists None. split; [by apply (State_same w')|]. left. by repeat split.
Qed.

(** A search through the attribute list. *)
Lemma external_find_inv al s w ctx :
  Inv w ctx -> attr_list b0 = Some al ->
  wp (ntfs_external_attr_find upcase upcase_len read_mapping_page i_size mft_record_size_bits PAGE_CACHE_SHIFT s ctx) w (fun w' r =>
    Inv w' (fst r) /\ (rec_in w ctx -> rec_in w' (fst r) /\ (snd r = 0 -> s_type s <> AT_END -> found_through al s w' (fst r)))).
Proof.
  intros (cur & Hs & Hx) Hatl. unfold ntfs_external_attr_find.
  set (bc := match base_ntfs_ino ctx with None => _ | Some b => _ end).
  assert (Hbc : exists c, bc = (base, c) /\ (ntfs_ino c = ntfs_ino ctx /\ mrec c = mrec ctx) /\ ctx_in c cur /\ is_first c = is_first ctx /\
    base_ntfs_ino c = Some base /\ base_mrec c = Some m0 /\ (ntfs_ino c = base \/ exists a, base_attr c = Some a /\ 0 <= a)).
  { unfold bc. destruct Hx as [(Hin & -> & ->)|(Hin & Hbn & Hbm & Hba)].
    - pose proof Hin as (Hino & ? & ? & ? & Hm). cbn in Hino. rewrite Hino, Hm by done. eexists. split; [reflexivity|]. split_and!; try done; [cbn; by rewrite Hm|by left].
    - exists ctx. rewrite Hbn. split_and!; auto. }
  destruct Hbc as (c & -> & [Hc1 Hcm] & Hin & Hc2 & Hbn & Hbm & Hba). clear Hx. rewrite <- Hc1.
  set (c' := if bool_decide (ntfs_ino c = base) then ctx_set_base_attr (Some (attr c)) c else c).
  assert (Hrc : rec_in w ctx -> rec_in w c') by (apply rec_in_same; [done|by unfold c'; case_bool_decide|by unfold c'; case_bool_decide]).
  assert (Hc' : ctx_ext c' cur /\ ntfs_ino c' = ntfs_ino c).
  { unfold c'. pose proof Hin as (? & ? & ? & ? & ?). case_bool_decide; [split; [|done]; repeat split; eauto|].
    split; [|done]. split_and!; try done. destruct Hba as [Hba|Hba]; done. }
  destruct Hc' as [Hx' Hc3]. rewrite <- Hc3. clearbody c'. clear c Hc1 Hcm Hin Hc2 Hbn Hbm Hba Hc3.
  destruct (Z.eqb_spec (s_type s) AT_END) as [Ee|Ee].
  { eapply wp_mono; [by apply (not_found_inv s w c' cur)|]. cbn. intros w2 r (H2 & H3 & _). done. }
  destruct (State_base _ _ Hs) as (n & e & Hb). apply wp_bind. eapply wp_run; [by apply get_eq|].
  change (attr_list (set_ext n e b0)) with (attr_list b0). rewrite Hatl. pose proof (Hal _ Hatl) as Halb.
  assert (Hst : 0 <= default 0 (al_entry c')) by (by destruct Hx' as ((_ & _ & _ & ? & _) & _)).
  set (start := default 0 (al_entry c')) in *. set (c2 := ctx_set_al_entry (Some start) c').
  assert (Hx2 : ctx_ext c2 cur) by (by apply ctx_ext_entry).
  assert (Hloop : forall entry c3, 0 <= entry -> ctx_ext c3 cur -> ntfs_ino c3 = ntfs_ino c' ->
    wp (al_loop upcase upcase_len read_mapping_page i_size mft_record_size_bits PAGE_CACHE_SHIFT (S (S (length al))) s base al (ntfs_ino c') c3 entry)
      w (al_post w c3 al s)).
  { intros entry c3 Hen Hx3 Hc3. apply (al_loop_state al s Halb) with (cur := cur); try done; unfold zlen; lia. }
  apply wp_bind. apply (wp_mono _ _ (fun w' e => w' = w /\ 0 <= fst e /\ ctx_ext (snd e) cur /\ ntfs_ino (snd e) = ntfs_ino c' /\ mrec (snd e) = mrec c')).
  { destruct (is_first c2).
    - by apply wp_ret.
    - rdstep len El. pose proof (rd_le16_nonneg _ _ _ Halb El). apply wp_ret. split_and!; try done. cbn. lia. }
  intros w' [entry c3] (-> & Hen & Hx3 & Hc3 & Hc3m). cbn [fst snd] in *. assert (Hr3 : rec_in w ctx -> rec_in w c3) by (intros H'; by apply (rec_in_same w w c'); auto). apply wp_bind. eapply wp_mono; [by apply Hloop|]. clear Hloop.
  intros w' [[c4 ni'] x] (cur' & Hx4 & Hr). destruct x as [| |err].
  - destruct Hr as [Hs' Hfound]. apply wp_ret. split; [exists cur'; auto|]. intros H'. destruct (Hfound (Hr3 H')). auto.
  - destruct Hr as [Hs' ->]. eapply wp_mono; [by apply (not_found_inv s w' c4 cur')|]. cbn. intros w2 r (H2 & H2' & H3). split; [done|]. intros _. split; [done|]. intros Hz. by apply H3 in Ee.
  - set (err' := if err =? 0 then - EIO else err).
    assert (Herr : err' <> 0) by (unfold err', EIO; destruct (Z.eqb_spec err 0); lia).
    apply wp_bind. apply (wp_mono _ _ (fun w2 c => Inv w2 c /\ (rec_in w ctx -> rec_in w2 c))).
    + pose proof Hx4 as ((Hino & Hmb & Hat & Hale & Hm4) & Hbn & Hbm & a & Hba & Ha0).
      assert (Hback : forall w2, State w2 None -> Inv w2 (ctx_set_attr a (ctx_set_ino m0 base c4))).
      { intros w2 Hs2. exists None. split; [done|]. right. by repeat split; eauto. }
      destruct Hr as [(Hs' & -> & Hr4)|[Hs' ->]].
      * case_bool_decide as Eb; [apply wp_ret; split; [exists cur'; auto|auto]|]. rewrite Hbm, Hba. apply wp_bind. destruct cur' as [p'|]; [|by rewrite Hino in Eb].
        cbn in Hino. rewrite Hino. eapply wp_mono; [by apply unmap_extent_state|]. intros w2 [] Hs2. apply wp_ret. split; [by apply Hback|intros _; by apply rec_in_base].
      * rewrite Hbm, Hba. apply wp_bind, wp_ret, wp_ret. split; [by apply Hback|intros _; by apply rec_in_base].
    + intros w2 c [Hinv Hrec2]. apply wp_bind.
      apply (wp_mono _ _ (fun w3 _ => inodes w3 = inodes w2 /\ pinned w3 = pinned w2)); [destruct (err' =? - ENOMEM); [by apply wp_ret|by eapply wp_run]|].
      intros w3 [] [H1 H2]. apply wp_ret. cbn. split; [|intros H'; split; [|done]; apply (rec_in_same w2 w3 c); auto]. destruct Hinv as (cur2 & Hs2 & Hx2'). exists cur2.
      split; [by apply (State_same w2)|done].
Qed.

(** [ntfs_attr_lookup] keeps the invariant, and what it finds through an attribute
    list is what the list describes. *)
Lemma lookup_inv s w ctx :
  Inv w ctx ->
  wp (ntfs_attr_lookup upcase upcase_len read_mapping_page i_size mft_record_size_bits PAGE_CACHE_SHIFT s ctx) w (fun w' r =>
    Inv w' (fst r) /\ (rec_in w ctx -> rec_in w' (fst r) /\
    (forall al, attr_list b0 = Some al -> s_type s <> AT_ATTRIBUTE_LIST -> s_type s <> AT_END -> snd r = 0 -> found_through al s w' (fst r)))).
Proof.
  intros Hinv. unfold ntfs_attr_lookup.
  assert (Hbase : default (ntfs_ino ctx) (base_ntfs_ino ctx) = base).
  { destruct Hinv as (cur & _ & [((Hino & _) & -> & ->)|(_ & -> & _)]); [exact Hino|done]. }
  rewrite Hbase. pose proof Hinv as (cur & Hs & _). destruct (State_base _ _ Hs) as (n & e & Hb).
  apply wp_bind. eapply wp_run; [by apply get_eq|]. change (attr_list (set_ext n e b0)) with (attr_list b0).
  case_eq (attr_list b0); [intros al Eal|intros Eal].
  - rewrite bool_decide_eq_false_2 by done. cbn [orb]. destruct (Z.eqb_spec (s_type s) AT_ATTRIBUTE_LIST).
    + eapply wp_mono; [by apply attr_find_inv|]. cbn. intros w' r [Hr Hr']. split; [done|]. intros H'. split; [auto|done].
    + eapply wp_mono; [by apply (external_find_inv al)|]. cbn. intros w' r [Hr Hf]. split; [done|]. intros H'. destruct (Hf H') as [H1 H2]. split; [done|]. intros al' [= <-]. auto.
  - rewrite bool_decide_eq_true_2 by done. cbn [orb]. eapply wp_mono; [by apply attr_find_inv|]. cbn. intros w' r [Hr Hr']. split; [done|]. intros H'. split; [auto|done].
Qed.
End Inv.
