(* ===== verification/AttrLookupTheorems.v ===== *)
(** * Attribute lookup: theorems

    Mapping extent records, and searches over an inode whose attributes are spread
    over several mft records. *)

From Stdlib Require Import ZArith Lia Bool.
From stdpp Require Import base list numbers option gmap relations.
From S2P Require Import Prelude Endian Unistr Collate Attrib MftMap MftMapSpec AttrLookup AttrLookupProof AttrLookupInv.

(** ** A volume to run on

    Mft records of 256 bytes; record 5 is an extent with one attribute of type
    0x80, instance 3. *)
Definition demo_attr : list Z := le_split 4 0x80 ++ le_split 4 24 ++ [0; 0] ++ le_split 2 24 ++ le_split 2 0 ++ le_split 2 3 ++ repeat 0 8.
Definition demo_extent : list Z :=
  le_split 4 magic_FILE ++ repeat 0 12 ++ le_split 2 7 ++ repeat 0 2 ++ le_split 2 56 ++ repeat 0 2 ++ le_split 4 88
  ++ le_split 4 256 ++ repeat 0 24 ++ demo_attr ++ le_split 4 AT_END ++ repeat 0 172.
Definition demo_base : list Z :=
  le_split 4 magic_FILE ++ repeat 0 16 ++ le_split 2 56 ++ repeat 0 2 ++ le_split 4 64
  ++ le_split 4 256 ++ repeat 0 24 ++ le_split 4 AT_END ++ repeat 0 196.
Definition demo_page : list Z := repeat 0 (5 * 256) ++ demo_extent ++ repeat 0 (10 * 256).
Definition demo_read (n : Z) : Z + (list Z * bool) := if n =? 0 then inr (demo_page, false) else inl (- EIO).
(** The attribute list, with its one entry, and the base inode. *)
Definition demo_list (seq : Z) : list Z :=
  le_split 4 0x80 ++ le_split 2 32 ++ [0; 26] ++ repeat 0 8 ++ le_split 8 (MK_MREF 5 seq) ++ le_split 2 3 ++ repeat 0 6.
Definition demo_ino (seq : Z) : ntfs_inode := mk_inode 2 1 2 true (Some 0) 512 false 0 (Extents []) (Some (demo_list seq)).
Definition demo_world (seq : Z) : world := mk_world {[1%positive := demo_ino seq]} [0] false [].

Lemma demo_pages n data err : demo_read n = inr (data, err) -> zlen data = page_size 12 /\ Forall byte_ok data.
Proof.
  unfold demo_read. destruct (n =? 0); [|done]. intros [= <- _]. split; [by vm_compute|].
  apply (bool_decide_unpack _). by vm_compute.
Qed.

(** ** Extent records *)

(** C11: [map_extent_mft_record] returns, whatever the page cache and the
    allocator do.  When it fails no inode, reference count, lock or pinned page
    has changed.  When it succeeds the record it returns is the record of that
    number, with the sequence number of the reference (a new extent is also
    accepted when the reference has none); the extent inode, which was attached
    before or is attached now, holds the one page pinned in addition, its lock
    and one more reference; the base inode has the extent in its array and its
    count and lock are as before. *)
Theorem map_extent_record_correct read_mapping_page i_size bits shift w base_ni b inos mref :
  8 <= bits <= shift -> shift < 31 ->
  (forall n data err, read_mapping_page n = inr (data, err) -> zlen data = page_size shift) ->
  base_ok w base_ni b inos ->
  (forall p i, p ∈ inos -> inodes w !! p = Some i -> mft_no i = MREF mref -> idle i) ->
  exists w' r, map_extent_mft_record read_mapping_page i_size bits shift base_ni mref w = Ret (w', r) /\
    extent_result read_mapping_page i_size bits shift w base_ni b inos mref w' r.
Proof. intros H1 H2 H3 H4 H5. by apply map_extent_spec. Qed.

Lemma demo_base_ok seq : base_ok (demo_world seq) 1%positive (demo_ino seq) [].
Proof. constructor; try done; [exists 0%nat; split_and!; [done|lia|done]|]. intros p Hp. by apply elem_of_nil in Hp. Qed.

Lemma map_extent_record_correct_witness :
  exists w' m ni, map_extent_mft_record demo_read 4096 8 12 1%positive (MK_MREF 5 7) (demo_world 7) = Ret (w', inr (m, ni)) /\
    m = demo_extent /\ pinned w' = [0; 0] /\ count <$> inodes w' !! ni = Some 2.
Proof.
  destruct (map_extent_record_correct demo_read 4096 8 12 (demo_world 7) 1%positive (demo_ino 7) [] (MK_MREF 5 7)) as (w' & r & E & _).
  - lia.
  - lia.
  - intros n data err H. by destruct (demo_pages n data err H).
  - apply demo_base_ok.
  - intros p i Hp. by apply elem_of_nil in Hp.
  - assert (Hc : match map_extent_mft_record demo_read 4096 8 12 1%positive (MK_MREF 5 7) (demo_world 7) with
      | Ret (w', inr (m, ni)) => m = demo_extent /\ pinned w' = [0; 0] /\ count <$> inodes w' !! ni = Some 2
      | _ => False end) by (vm_compute; auto).
    rewrite E in Hc. destruct r as [e|[m ni]]; [done|]. exists w', m, ni. auto.
Defined.

(** A reference without a sequence number maps the extent the first time, and
    is refused as stale when the extent is attached already. *)
Example zero_sequence_second_time :
  match map_extent_mft_record demo_read 4096 8 12 1%positive (MK_MREF 5 0) (demo_world 0) with
  | Ret (w1, inr (_, ni)) =>
      ('(w2, _) ← unmap_extent_mft_record ni w1;
       '(_, r) ← map_extent_mft_record demo_read 4096 8 12 1%positive (MK_MREF 5 0) w2; Ret r) = Ret (inl (- EIO))
  | _ => False
  end.
Proof. vm_compute. reflexivity. Qed.

(** ** Searches *)

Section Search.
Context (upcase : list Z) (upcase_len : Z).
Context (read_mapping_page : Z -> Z + (list Z * bool)) (i_size bits shift : Z).

Local Abbreviation lookup := (ntfs_attr_lookup upcase upcase_len read_mapping_page i_size bits shift).

(** What a caller does with a search context between getting and putting it. *)
Inductive ctx_step : world * ntfs_attr_search_ctx -> world * ntfs_attr_search_ctx -> Prop :=
| Step_lookup s w ctx w' ctx' err : lookup s ctx w = Ret (w', (ctx', err)) -> ctx_step (w, ctx) (w', ctx')
| Step_reinit w ctx w' ctx' : ntfs_attr_reinit_search_ctx ctx w = Ret (w', ctx') -> ctx_step (w, ctx) (w', ctx').

(** The caller holds the record of the base inode [base], and no extent record. *)
Record caller_ok (w0 : world) (base : ptr) (b0 : ntfs_inode) (m0 : list Z) : Prop := {
  ca_base : exists inos, base_ok w0 base b0 inos /\ forall p i, p ∈ inos -> inodes w0 !! p = Some i -> idle i;
  ca_bytes : Forall byte_ok m0;
  ca_list : forall al, attr_list b0 = Some al -> Forall byte_ok al;
}.

(** The world as the caller left it, but for extents attached to the base inode,
    which nobody uses. *)
Definition released (w0 : world) (base : ptr) (b0 : ntfs_inode) (w : world) : Prop :=
  pinned w = pinned w0 /\
  (forall p i, p <> base -> inodes w0 !! p = Some i -> inodes w !! p = Some i) /\
  (exists n e, inodes w !! base = Some (set_ext n e b0)) /\
  (forall p i, inodes w0 !! p = None -> inodes w !! p = Some i -> idle i /\ count i = 1).

Hypothesis Hbits : 8 <= bits <= shift.
Hypothesis Hshift : shift < 31.
Hypothesis Hpages : forall n data err, read_mapping_page n = inr (data, err) -> zlen data = page_size shift /\ Forall byte_ok data.
Context (w0 : world) (base : ptr) (b0 : ntfs_inode) (m0 : list Z) (Hcall : caller_ok w0 base b0 m0).

Local Abbreviation Inv := (Inv bits shift w0 base b0 m0).

Lemma caller_base : inodes w0 !! base = Some b0.
Proof. destruct Hcall as [(inos & [Hb _ _ _ _] & _) _ _]. exact Hb. Qed.

Lemma start_inv ctx : ntfs_attr_init_search_ctx base m0 = Ret ctx -> Inv w0 ctx.
Proof.
  intros E. destruct Hcall as [(inos & Hok & Hidle) Hm Hal]. eapply init_ctx_inv; [done| |exact E].
  exists (inodes w0), inos. split; [|done]. split; try done.
  - exists b0, (nr_extents b0), (ni_ext b0). split; [by apply (base_ok_same base w0)|]. by destruct b0.
  - intros p i Hn Hi. congruence.
Qed.

Lemma step_inv w ctx w' ctx' : Inv w ctx -> ctx_step (w, ctx) (w', ctx') -> Inv w' ctx'.
Proof.
  intros Hinv Hstep. destruct Hcall as [_ Hm Hal]. inversion Hstep as [s ???? err E|???? E]; subst.
  - pose proof (lookup_inv upcase upcase_len read_mapping_page i_size bits shift Hbits Hshift Hpages w0 base b0 m0 caller_base Hm Hal s w ctx Hinv) as H.
    unfold wp in H. rewrite E in H. apply H.
  - pose proof (reinit_inv bits shift w0 base b0 m0 w ctx Hinv) as H.
    unfold wp in H. rewrite E in H. destruct H as (Hs & Ha & Hc). cbn in *. exists None. split; [done|]. left. rewrite Hc.
    unfold ctx_in. cbn. split_and!; try done. by eapply first_attr_nonneg.
Qed.

Lemma reach_inv ctx0 w ctx : ntfs_attr_init_search_ctx base m0 = Ret ctx0 -> rtc ctx_step (w0, ctx0) (w, ctx) -> Inv w ctx.
Proof.
  intros E Hr. remember (w0, ctx0) as c0 eqn:E0. remember (w, ctx) as c eqn:Ec.
  assert (Hi : Inv (fst c0) (snd c0)) by (rewrite E0; by apply start_inv). clear E0.
  induction Hr as [c|[w1 c1] [w2 c2] c3 Hs Hr IH]; [by subst|]. apply IH; [done|]. by eapply step_inv.
Qed.

(** Along the way the context has the bytes of the record it stands in. *)
Lemma step_rec w ctx w' ctx' : Inv w ctx -> rec_in read_mapping_page i_size bits shift base w ctx -> ctx_step (w, ctx) (w', ctx') -> rec_in read_mapping_page i_size bits shift base w' ctx'.
Proof.
  intros Hinv Hrec Hstep. destruct Hcall as [_ Hm Hal]. inversion Hstep as [s ???? err E|???? E]; subst.
  - pose proof (lookup_inv upcase upcase_len read_mapping_page i_size bits shift Hbits Hshift Hpages w0 base b0 m0 caller_base Hm Hal s w ctx Hinv) as H.
    unfold wp in H. rewrite E in H. by apply H.
  - pose proof (reinit_inv bits shift w0 base b0 m0 w ctx Hinv) as H. unfold wp in H. rewrite E in H. destruct H as (_ & _ & Hc). cbn in Hc. apply rec_in_base. by rewrite Hc.
Qed.

Lemma reach_rec ctx0 w ctx : ntfs_attr_init_search_ctx base m0 = Ret ctx0 -> rtc ctx_step (w0, ctx0) (w, ctx) -> rec_in read_mapping_page i_size bits shift base w ctx.
Proof.
  intros E Hr. remember (w0, ctx0) as c0 eqn:E0. remember (w, ctx) as c eqn:Ec.
  assert (Hi : Inv (fst c0) (snd c0) /\ rec_in read_mapping_page i_size bits shift base (fst c0) (snd c0)).
  { rewrite E0. split; [by apply start_inv|]. apply rec_in_base. apply bind_Ret_inv in E as (a & _ & [= <-]). done. } clear E0.
  induction Hr as [c|[w1 c1] [w2 c2] c3 Hs Hr IH]; [by subst; destruct Hi|]. apply IH; [done|]. destruct Hi as [H1 H2]. split; [by eapply step_inv|by eapply step_rec].
Qed.

Lemma State_released w : State bits shift w0 base b0 w None -> released w0 base b0 w.
Proof.
  unfold released. intros (ii & inos & [(b & n & e & [Hb _ _ _ _] & ->) Hidle Hold Hnew] & -> & Hp). split_and!; [done|done|eauto|].
  done.
Qed.
End Search.

(** C4: Over every sequence of lookups and reinitialisations of a search context,
    on any contents of the mft records and of the attribute list: each operation
    ends without reaching a [BUG_ON] and without taking a lock it holds, and
    putting the context returns and leaves nothing behind: the pinned pages, and
    the locks, reference counts and mapped records of all inodes, are those the
    caller had, and the extent inodes attached meanwhile are not in use. *)
Theorem search_ctx_invariant upcase upcase_len read_mapping_page i_size bits shift w0 base b0 m0 ctx0 w ctx :
  8 <= bits <= shift -> shift < 31 ->
  (forall n data err, read_mapping_page n = inr (data, err) -> zlen data = page_size shift /\ Forall byte_ok data) ->
  caller_ok w0 base b0 m0 -> ntfs_attr_init_search_ctx base m0 = Ret ctx0 ->
  rtc (ctx_step upcase upcase_len read_mapping_page i_size bits shift) (w0, ctx0) (w, ctx) ->
  (forall s, Ends (ntfs_attr_lookup upcase upcase_len read_mapping_page i_size bits shift s ctx w)) /\
  Ends (ntfs_attr_reinit_search_ctx ctx w) /\
  exists w', ntfs_attr_put_search_ctx ctx w = Ret (w', tt) /\ released w0 base b0 w'.
Proof.
  intros Hbits Hshift Hpages Hcall E0 Hr.
  pose proof (reach_inv _ _ _ _ _ _ Hbits Hshift Hpages _ _ _ _ Hcall _ _ _ E0 Hr) as Hinv.
  pose proof (caller_base _ _ _ _ Hcall) as Hb0. destruct (Hcall) as [_ Hm Hal]. split_and!.
  - intros s. pose proof (lookup_inv upcase upcase_len read_mapping_page i_size bits shift Hbits Hshift Hpages w0 base b0 m0 Hb0 Hm Hal s w ctx Hinv) as H.
    unfold wp, owp in H. unfold Ends. by destruct (ntfs_attr_lookup _ _ _ _ _ _ s ctx w).
  - pose proof (reinit_inv bits shift w0 base b0 m0 w ctx Hinv) as H. unfold wp, owp in H. unfold Ends.
    by destruct (ntfs_attr_reinit_search_ctx ctx w).
  - destruct (put_returns _ _ _ _ _ _ _ _ Hinv) as (w' & E & Hs). exists w'. split; [done|]. by eapply State_released.
Qed.

Definition demo_search (val : option (list Z)) : search := mk_search 0x80 None 0 CASE_SENSITIVE 0 val (zlen (default [] val)).
Definition demo_ctx : ntfs_attr_search_ctx := mk_ctx demo_base 56 true 1%positive None None None None.

Lemma demo_caller : caller_ok (demo_world 7) 1%positive (demo_ino 7) demo_base.
Proof.
  constructor.
  - exists []. split; [apply demo_base_ok|]. intros p i Hp. by apply elem_of_nil in Hp.
  - apply (bool_decide_unpack _). by vm_compute.
  - intros al [= <-]. apply (bool_decide_unpack _). by vm_compute.
Qed.

Lemma search_ctx_invariant_witness :
  match ntfs_attr_lookup [] 0 demo_read 4096 8 12 (demo_search None) demo_ctx (demo_world 7) with
  | Ret (w, (ctx, err)) => err = 0 /\ pinned w = [0; 0] /\
      exists w', ntfs_attr_put_search_ctx ctx w = Ret (w', tt) /\ released (demo_world 7) 1%positive (demo_ino 7) w'
  | _ => False
  end.
Proof.
  destruct (ntfs_attr_lookup [] 0 demo_read 4096 8 12 (demo_search None) demo_ctx (demo_world 7)) as [[w [ctx err]] | | | |] eqn:E;
    try (vm_compute in E; discriminate).
  assert (err = 0 /\ pinned w = [0; 0]) as [-> Hp] by (vm_compute in E; injection E as <- <- <-; auto).
  split; [reflexivity|]. split; [exact Hp|].
  destruct (search_ctx_invariant [] 0 demo_read 4096 8 12 (demo_world 7) 1%positive (demo_ino 7) demo_base demo_ctx w ctx)
    as (_ & _ & H); [lia|lia|exact demo_pages|exact demo_caller|reflexivity| |exact H].
  eapply rtc_once. by eapply Step_lookup.
Defined.

(** C12: When a lookup in an inode with an attribute list succeeds, in a context that was
    used in any way before, the context points to an entry of the list of the type and
    name searched for, and to the attribute that entry describes: @ntfs_ino is the inode
    of the mft record the entry refers to and @mrec are the bytes of that record, those
    of the base record the caller has mapped or those of the extent record of that
    number as the page cache has it; and the attribute is in it with the entry's
    instance number, the same type and name, and the value searched for if there was
    one. *)
Theorem attr_lookup_found upcase upcase_len read_mapping_page i_size bits shift w0 base b0 m0 ctx0 w ctx al s w' ctx' :
  8 <= bits <= shift -> shift < 31 ->
  (forall n data err, read_mapping_page n = inr (data, err) -> zlen data = page_size shift /\ Forall byte_ok data) ->
  caller_ok w0 base b0 m0 -> ntfs_attr_init_search_ctx base m0 = Ret ctx0 ->
  rtc (ctx_step upcase upcase_len read_mapping_page i_size bits shift) (w0, ctx0) (w, ctx) ->
  attr_list b0 = Some al -> s_type s <> AT_ATTRIBUTE_LIST -> s_type s <> AT_END ->
  ntfs_attr_lookup upcase upcase_len read_mapping_page i_size bits shift s ctx w = Ret (w', (ctx', 0)) ->
  found_through upcase upcase_len read_mapping_page i_size bits shift base m0 al s w' ctx'.
Proof.
  intros Hbits Hshift Hpages Hcall E0 Hr Hal Hs1 Hs2 E.
  pose proof (reach_inv _ _ _ _ _ _ Hbits Hshift Hpages _ _ _ _ Hcall _ _ _ E0 Hr) as Hinv.
  pose proof (caller_base _ _ _ _ Hcall) as Hb0. destruct (Hcall) as [_ Hm Halb].
  pose proof (lookup_inv upcase upcase_len read_mapping_page i_size bits shift Hbits Hshift Hpages w0 base b0 m0 Hb0 Hm Halb s w ctx Hinv) as H.
  pose proof (reach_rec _ _ _ _ _ _ Hbits Hshift Hpages _ _ _ _ Hcall _ _ _ E0 Hr) as Hrec.
  unfold wp in H. rewrite E in H. destruct H as [_ H]. by apply (H Hrec).
Qed.

Lemma attr_lookup_found_witness :
  match ntfs_attr_lookup [] 0 demo_read 4096 8 12 (demo_search None) demo_ctx (demo_world 7) with
  | Ret (w, (ctx, err)) => mrec ctx = demo_extent /\ attr ctx = 56 /\ found_through [] 0 demo_read 4096 8 12 1%positive demo_base (demo_list 7) (demo_search None) w ctx
  | _ => False
  end.
Proof.
  destruct (ntfs_attr_lookup [] 0 demo_read 4096 8 12 (demo_search None) demo_ctx (demo_world 7)) as [[w [ctx err]] | | | |] eqn:E;
    try (vm_compute in E; discriminate).
  assert (err = 0 /\ mrec ctx = demo_extent /\ attr ctx = 56) as (-> & H1 & H2) by (vm_compute in E; injection E as <- <- <-; auto).
  split; [exact H1|]. split; [exact H2|].
  apply (attr_lookup_found [] 0 demo_read 4096 8 12 (demo_world 7) 1%positive (demo_ino 7) demo_base demo_ctx (demo_world 7) demo_ctx);
    [lia|lia|exact demo_pages|exact demo_caller|reflexivity|apply rtc_refl|reflexivity|discriminate|discriminate|exact E].
Defined.

(** A search by value that finds the attribute with another value is taken for
    corruption: -EIO, and the volume is marked as having errors. *)
Example value_mismatch_is_corruption :
  match ntfs_attr_lookup [] 0 demo_read 4096 8 12 (demo_search (Some [1])) demo_ctx (demo_world 7) with
  | Ret (w, (_, err)) => err = - EIO /\ vol_errors w = true
  | _ => False
  end.
Proof. vm_compute. auto. Qed.
