(* ===== verification/AttrSession.v ===== *)
(** * Sessions of attribute searches

    What the callers of the attribute lookup do: they map the base mft record, get
    a search context, search, put the context and unmap the record.  The state in
    between, and that nothing stays behind. *)

From Stdlib Require Import ZArith Lia Bool.
From stdpp Require Import base list numbers option gmap relations.
From S2P Require Import Prelude Endian Unistr UnistrTheorems Collate Attrib AttribSpec AttribTheorems MftMap MftMapSpec AttrLookup AttrLookupProof AttrLookupInv AttrLookupTheorems.

Section Session.
Context (upcase : list Z) (upcase_len : Z).
Context (read_mapping_page : Z -> Z + (list Z * bool)) (i_size bits shift : Z).
Hypothesis Hbits : 8 <= bits <= shift.
Hypothesis Hshift : shift < 31.
Hypothesis Hpages : forall n data err, read_mapping_page n = inr (data, err) -> zlen data = page_size shift /\ Forall byte_ok data.

(** The caller: nobody has a record of the inode or of its extents mapped. *)
Record session_caller (w : world) (base : ptr) (i : ntfs_inode) : Prop := {
  sc_idle : idle i;
  sc_base : exists inos, base_ok w base i inos /\ forall p j, p ∈ inos -> inodes w !! p = Some j -> idle j;
  sc_list : forall al, attr_list i = Some al -> Forall byte_ok al;
}.

Lemma session_caller_lookup w base i : session_caller w base i -> inodes w !! base = Some i.
Proof. intros [_ (inos & [Hb _ _ _ _] & _) _]. exact Hb. Qed.

(** Once its record is mapped, the caller of the attribute search. *)
Lemma mapped_caller w base i m : session_caller w base i -> Forall byte_ok m ->
  caller_ok (after_map bits shift w base i (inr m) false) base (mapped bits shift i) m.
Proof.
  intros [Hid (inos & [Hb Hl Hn He Hp] & Hidle) Hal] Hm. constructor; [|done|exact Hal]. exists inos.
  assert (Hne : forall p, p ∈ inos -> inodes (after_map bits shift w base i (inr m) false) !! p = inodes w !! p).
  { intros p Hin. destruct (Hp p Hin). cbn. by apply lookup_insert_ne. }
  split.
  - split; try done; [cbn; apply lookup_insert_eq|]. intros p Hin. rewrite Hne by done. by apply Hp.
  - intros p j Hin Hj. rewrite Hne in Hj by done. by eapply Hidle.
Qed.

(** Putting the search context and unmapping the record gives back everything. *)
Lemma put_unmap w base i m actx w3 : session_caller w base i ->
  Inv bits shift (after_map bits shift w base i (inr m) false) base (mapped bits shift i) m w3 actx ->
  exists w4 w5, ntfs_attr_put_search_ctx actx w3 = Ret (w4, tt) /\ unmap_mft_record base w4 = Ret (w5, tt) /\ released w base i w5.
Proof.
  intros Hc Hinv. destruct (put_returns _ _ _ _ _ _ _ _ Hinv) as (w4 & E4 & Hs4).
  destruct (State_released _ _ _ _ _ _ Hs4) as (Hpin & Hold & (n & e & Hbase) & Hnew).
  exists w4. eexists. split; [done|].
  assert (Hid : idle (set_ext n e i)) by (destruct Hc as [Hid _ _]; exact Hid).
  split; [apply (unmap_record_spec bits shift w4 base (set_ext n e i)); [by rewrite Hbase|done]|].
  pose proof (session_caller_lookup _ _ _ Hc) as Hb. split_and!; cbn -[unpin].
  - rewrite Hpin. cbn -[unpin]. by rewrite unpin_cons.
  - intros p j Hp Hj. rewrite lookup_insert_ne by done. apply Hold; [done|]. cbn. by rewrite lookup_insert_ne.
  - exists n, e. by rewrite lookup_insert_eq.
  - intros p j Hp Hj. assert (p <> base) by congruence. rewrite lookup_insert_ne in Hj by done. apply (Hnew p j); [|done].
    cbn. by rewrite lookup_insert_ne.
Qed.

(** The first steps of a session: map the record and get a context. *)
Lemma session_start w base i w1 m w2 actx :
  session_caller w base i ->
  map_mft_record read_mapping_page i_size bits shift base w = Ret (w1, inr m) ->
  ntfs_attr_get_search_ctx base m w1 = Ret (w2, Some actx) ->
  caller_ok (after_map bits shift w base i (inr m) false) base (mapped bits shift i) m /\
  Inv bits shift (after_map bits shift w base i (inr m) false) base (mapped bits shift i) m w2 actx /\ base_ntfs_ino actx = None.
Proof.
  intros Hc E1 E2. pose proof (session_caller_lookup _ _ _ Hc) as Hb.
  destruct (map_record_spec read_mapping_page i_size bits shift Hbits Hshift ltac:(intros; by eapply Hpages) w base i Hb (sc_idle _ _ _ Hc))
    as (r & errs & Hr & E). rewrite E1 in E. injection E as -> <-. inversion Hr as [? Hrec Hz|]; subst.
  assert (Hm : Forall byte_ok m).
  { destruct Hrec as (_ & data & Hd & _ & ->). unfold record_at. apply Forall_take, Forall_drop. by eapply Hpages. }
  pose proof (mapped_caller w base i m Hc Hm) as Hcall. split; [done|].
  set (w1 := after_map bits shift w base i (inr m) false) in *.
  assert (E0 : ntfs_attr_init_search_ctx base m = Ret actx /\ inodes w2 = inodes w1 /\ pinned w2 = pinned w1).
  { unfold ntfs_attr_get_search_ctx, alloc_ok, mbind, M_bind in E2.
    destruct (allocs w1) as [|[|] l]; rewrite bind_Ret in E2; [..|done];
      (unfold lift in E2; destruct (ntfs_attr_init_search_ctx base m); try done; by injection E2 as <- <-). }
  destruct E0 as (E0 & H1 & H2).
  split; [|by apply bind_Ret_inv in E0 as (a & _ & [= <-])].
  destruct (start_inv bits shift w1 base _ m Hcall actx E0) as (cur & Hs & Hx). exists cur. split; [by apply (State_same _ _ _ _ _ w1)|done].
Qed.

(** No memory for the context: the record is unmapped again. *)
Lemma session_no_memory w base i m w2 :
  session_caller w base i -> ntfs_attr_get_search_ctx base m (after_map bits shift w base i (inr m) false) = Ret (w2, None) ->
  exists w3, unmap_mft_record base w2 = Ret (w3, tt) /\ released w base i w3.
Proof.
  intros Hc E. pose proof (session_caller_lookup _ _ _ Hc) as Hb. set (w1 := after_map bits shift w base i (inr m) false) in *.
  assert (H2 : inodes w2 = inodes w1 /\ pinned w2 = pinned w1).
  { unfold ntfs_attr_get_search_ctx, alloc_ok, mbind, M_bind in E.
    destruct (allocs w1) as [|[|] l]; rewrite bind_Ret in E; [..|by injection E as <-];
      (unfold lift in E; by destruct (ntfs_attr_init_search_ctx base m)). }
  destruct H2 as [H1 H2]. eexists. split; [apply (unmap_record_spec bits shift w2 base i); [rewrite H1; cbn; apply lookup_insert_eq|by destruct Hc]|].
  cbn in H1. split_and!; cbn -[unpin]; rewrite ?H1, ?H2, ?insert_insert_eq, ?insert_id by done.
  - cbn -[unpin]. apply unpin_cons.
  - done.
  - exists (nr_extents i), (ni_ext i). rewrite Hb. by destruct i.
  - intros p j H3 H4. congruence.
Qed.

(** They are followed by a lookup. *)
Lemma lookup_prefix w base i w1 m w2 actx0 s w3 actx err :
  session_caller w base i ->
  map_mft_record read_mapping_page i_size bits shift base w = Ret (w1, inr m) ->
  ntfs_attr_get_search_ctx base m w1 = Ret (w2, Some actx0) ->
  ntfs_attr_lookup upcase upcase_len read_mapping_page i_size bits shift s actx0 w2 = Ret (w3, (actx, err)) ->
  Inv bits shift (after_map bits shift w base i (inr m) false) base (mapped bits shift i) m w3 actx.
Proof.
  intros Hc E1 E2 E3. destruct (session_start _ _ _ _ _ _ _ Hc E1 E2) as (Hcall & Hi0 & _).
  eapply step_inv; [exact Hbits|exact Hshift|exact Hpages|exact Hcall|exact Hi0|by eapply Step_lookup].
Qed.
End Session.

(** ** Records without attribute list

    The lookup of an unnamed attribute in a base mft record whose attributes are in
    order: the search through a context finds the first one. *)

(** The first unnamed attribute of type [t] among those from [off] on is at [o]. *)
Definition first_at (l : list AttribSpec.attr) (t off o : Z) : Prop :=
  exists p a r, l = p ++ a :: r /\ at_type a = t /\ at_name a = [] /\ (forall b, b ∈ p -> ~ (at_type b = t /\ at_name b = [])) /\ o = off + total p.

Section Find.
Context (upcase : list Z) (upcase_len : Z).
Hypothesis Htab : table_ok upcase upcase_len.
Context (m : list Z) (ba off : Z) (l : list AttribSpec.attr).
Hypothesis Hba : rd_le32 m MFT_bytes_allocated = Ret ba.
Hypothesis Hat : attrs_at m ba off l.
Hypothesis Hsorted : attrs_sorted upcase upcase_len l.

Lemma unnamed_cmp t a : key_cmp upcase upcase_len CASE_SENSITIVE (mk_key t [] None) a = Eq <-> at_type a = t /\ at_name a = [].
Proof using Type.
  unfold key_cmp, name_cmp, val_cmp. cbn [k_type k_name k_val]. destruct (Z.compare_spec t (at_type a)) as [->|H|H]; cbn [then_]; [|split; [done|lia]..].
  destruct (at_name a); cbn; split; try done. by intros [_ ?].
Qed.

Lemma find_run t errs : 0 <= t -> t <> AT_END -> exists o err,
  ntfs_attr_find upcase upcase_len t None 0 CASE_SENSITIVE None 0 (mk_find_ctx m off true errs) = Ret (mk_find_ctx m o false errs, err) /\
  (forall o', first_at l t off o' -> o = o' /\ err = 0) /\ ((forall a, a ∈ l -> at_type a <> t) -> err = - ENOENT).
Proof using Htab Hba Hat Hsorted.
  intros Ht Hte. pose proof (attr_find_spec upcase upcase_len CASE_SENSITIVE t None None m ba off l errs Htab Hba Hat Hsorted Ht Hte) as H. cbv zeta in H.
  destruct H as (p & r & err & El & Hp & Hr & E & Herr); [done| |by left|]; [apply list.Forall_forall; done|].
  exists (off + total p), err. split; [exact E|]. cbn [default] in *. set (cmp := key_cmp upcase upcase_len CASE_SENSITIVE (mk_key t [] None)) in *. split.
  - intros o' (p' & a & r' & El' & Ha1 & Ha2 & Hnone & ->). assert (Ha : cmp a = Eq) by (by apply unnamed_cmp).
    destruct Herr as [[-> (b & r'' & -> & Hb)]|[_ Hno]]; [|destruct (Hno a); [rewrite El'; set_solver|done]]. split; [|done]. do 2 f_equal.
    rewrite El in El'. clear El. destruct (decide (length p = length p')) as [Hl|Hl]; [by apply app_inj_1 in El' as [-> _]|exfalso].
    destruct (decide (length p < length p')%nat) as [Hlt|Hge].
    + assert (Hx : p' !! length p = Some b). { assert (Hg : (p ++ b :: r'') !! length p = Some b) by (by rewrite list_lookup_middle). rewrite El', lookup_app_l in Hg by done. done. }
      apply list_elem_of_lookup_2 in Hx. apply (Hnone b Hx). by apply unnamed_cmp.
    + assert (Hx : p !! length p' = Some a). { assert (Hg : (p' ++ a :: r') !! length p' = Some a) by (by rewrite list_lookup_middle). rewrite <- El', lookup_app_l in Hg by lia. done. }
      apply list_elem_of_lookup_2 in Hx. rewrite list.Forall_forall in Hp. specialize (Hp a Hx). congruence.
  - intros Hno. destruct Herr as [[-> (b & r'' & -> & Hb)]|[-> _]]; [|done]. exfalso. apply unnamed_cmp in Hb as [Hb _]. apply (Hno b); [rewrite El; set_solver|done].
Qed.

(** The same as a lookup through a search context at the base inode, whose record has
    no attribute list. *)
Lemma base_lookup_run read_mapping_page mft_size bits shift t w base i : 0 <= t -> t <> AT_END -> inodes w !! base = Some i -> attr_list i = None -> exists o err,
  ntfs_attr_lookup upcase upcase_len read_mapping_page mft_size bits shift (mk_search t None 0 CASE_SENSITIVE 0 None 0) (mk_ctx m off true base None None None None) w =
    Ret (w, (mk_ctx m o false base None None None None, err)) /\
  (forall o', first_at l t off o' -> o = o' /\ err = 0) /\ ((forall a, a ∈ l -> at_type a <> t) -> err = - ENOENT).
Proof using Htab Hba Hat Hsorted.
  intros Ht Hte Hi Hal. destruct (find_run t (vol_errors w) Ht Hte) as (o & err & E & H1 & H2). exists o, err. split; [|done].
  unfold ntfs_attr_lookup. cbn [base_ntfs_ino default ntfs_ino].
  rewrite (M_run _ _ w w i) by (unfold get; by rewrite Hi). rewrite Hal, bool_decide_true by done. cbn [orb]. unfold attr_find. cbn [s_type s_name s_name_len s_ic s_val s_val_len mrec attr is_first].
  rewrite E, !bind_Ret. cbn. by destruct w.
Qed.
End Find.

(** A search context at the first attribute of the record, or no memory for it. *)
Lemma get_ctx_any w base m off : first_attr m = Ret off -> exists w', inodes w' = inodes w /\ pinned w' = pinned w /\ vol_errors w' = vol_errors w /\
  (ntfs_attr_get_search_ctx base m w = Ret (w', Some (mk_ctx m off true base None None None None)) \/ allocs w <> [] /\ ntfs_attr_get_search_ctx base m w = Ret (w', None)).
Proof.
  intros Ho. assert (E : forall w', lift (ntfs_attr_init_search_ctx base m) w' = Ret (w', mk_ctx m off true base None None None None)).
  { intros w'. apply lift_eq. unfold ntfs_attr_init_search_ctx. by rewrite Ho. }
  unfold ntfs_attr_get_search_ctx. destruct w as [ino pin ve [|[|] al]]; eexists; (split_and!; [..|first [left; eapply M_step; [reflexivity|]; eapply M_step; [apply E|reflexivity]|right; split; [done|reflexivity]]]); reflexivity.
Qed.

Lemma get_ctx_run w base m off : allocs w = [] -> first_attr m = Ret off -> ntfs_attr_get_search_ctx base m w = Ret (w, Some (mk_ctx m off true base None None None None)).
Proof.
  intros Ha Ho. unfold ntfs_attr_get_search_ctx. rewrite (M_run _ _ w w true) by (unfold alloc_ok; by rewrite Ha).
  rewrite (M_run _ _ w w (mk_ctx m off true base None None None None)); [done|]. apply lift_eq. unfold ntfs_attr_init_search_ctx. by rewrite Ho.
Qed.

