(* ===== verification/Index.v ===== *)
(** * Index lookup

    Models [src/ntfs/index.c]: [ntfs_index_ctx_get], [ntfs_index_ctx_put] and
    [ntfs_index_lookup], the search of a key in the B+tree an index is kept in.
    The root of the tree is the value of the index root attribute, in an mft
    record (AttrLookup finds it); the other nodes are the index blocks of the index
    allocation attribute, which are read through the page cache. *)

From Stdlib Require Import ZArith Lia Bool.
From stdpp Require Import base list numbers option gmap.
From S2P Require Import Prelude Endian Unistr Collate Attrib MftMap AttrLookup.

Definition EOPNOTSUPP : Z := 95.
Definition AT_INDEX_ROOT : Z := 0x90.

(** ** Layout (layout.h) *)

(** [INDEX_HEADER] *)
Definition IH_entries_offset : Z := 0.
Definition IH_index_length : Z := 4.
Definition IH_allocated_size : Z := 8.
Definition IH_flags : Z := 12.
Definition NODE_MASK : Z := 1.
Definition LEAF_NODE : Z := 0.

(** [INDEX_ROOT] and [INDEX_BLOCK] *)
Definition IR_index : Z := 16.
Definition IA_magic : Z := 0.
Definition IA_index_block_vcn : Z := 16.
Definition IA_index : Z := 24.
Definition magic_INDX : Z := 0x58444e49.
Definition ntfs_is_indx_record (x : Z) : bool := x =? magic_INDX.

(** [INDEX_ENTRY] *)
Definition IE_data_offset : Z := 0.
Definition IE_data_length : Z := 2.
Definition IE_length : Z := 8.
Definition IE_key_length : Z := 10.
Definition IE_flags : Z := 12.
Definition IE_key : Z := 16.
Definition IE_HEADER_SIZE : Z := 16.
Definition INDEX_ENTRY_NODE : Z := 1.
Definition INDEX_ENTRY_END : Z := 2.

(** ** The index inode and the context *)

(** The members of the index inode that are used. *)
Record index_inode := mk_index_inode {
  idx_name : option (list Z);
  idx_name_len : Z;
  collation_rule : Z;
  block_size : Z;
  vcn_size_bits : Z;
  index_alloc_present : bool;
  idx_base_ni : ptr;
}.

(** [ntfs_index_context] (index.h).  @entry, @data, @ir and @ia are offsets in
    the mft record or in the page. *)
Record ntfs_index_context := mk_ictx {
  ix_entry : option Z;
  ix_data : Z;
  ix_data_len : Z;
  ix_is_in_root : bool;
  ix_ir : option Z;
  ix_actx : option ntfs_attr_search_ctx;
  ix_base_ni : option ptr;
  ix_ia : option Z;
  ix_page : option Z;
}.

(** [*ictx = (ntfs_index_context){ .idx_ni = idx_ni }] *)
Definition empty_ictx : ntfs_index_context := mk_ictx None 0 0 false None None None None None.

Definition ntfs_index_ctx_get : M (option ntfs_index_context) :=
  ok ← alloc_ok; mret (if (ok : bool) then Some empty_ictx else None).

(** ** The entries of a node *)

(** How the loop over the entries of a node is left: an entry out of bounds, the
    entry with the key, or the entry before which the search goes on. *)
Inductive walk_exit := WCorrupt | WFound (ie : Z) | WStop (ie : Z).

Fixpoint index_walk (fuel : nat) (mem : list Z) (lower index_end cr : Z) (key : list Z) (key_len ie : Z) : outcome walk_exit :=
  match fuel with
  | O => Diverge
  | S fuel =>
      if (ie <? lower) || (ie + IE_HEADER_SIZE >? index_end) then Ret WCorrupt
      else
        length ← rd_le16 mem (ie + IE_length);
        if ie + length >? index_end then Ret WCorrupt
        else
          flags ← rd_le16 mem (ie + IE_flags);
          if negb (Z.land flags INDEX_ENTRY_END =? 0) then Ret (WStop ie)
          else
            key_length ← rd_le16 mem (ie + IE_key_length);
            data_offset ← rd_le16 mem (ie + IE_data_offset);
            data_length ← rd_le16 mem (ie + IE_data_length);
            if (IE_HEADER_SIZE + key_length >? data_offset) || (data_offset + data_length >? length) then Ret WCorrupt
            else
              let ie_key := drop (Z.to_nat (ie + IE_key)) mem in
              same ← (if key_len =? key_length then d ← memcmp (Z.to_nat key_len) key ie_key 0; Ret (d =? 0) else Ret false);
              if (same : bool) then Ret (WFound ie)
              else
                rc ← ntfs_collate cr key key_len ie_key key_length;
                if rc =? -1 then Ret (WStop ie)
                else if rc =? 0 then Ret (WFound ie)
                else index_walk fuel mem lower index_end cr key key_len (ie + length)
  end.

(** An entry that is passed has at least 16 bytes. *)
Definition walk_fuel (index_end : Z) : nat := S (Z.to_nat index_end).

(** The child node of an entry. *)
Definition child_vcn (mem : list Z) (ie : Z) : outcome Z := length ← rd_le16 mem (ie + IE_length); rd_sle64 mem (ie + length - 8).

(** The label [done] *)
Definition ictx_done (mem : list Z) (ie : Z) (ictx : ntfs_index_context) : outcome ntfs_index_context :=
  data_offset ← rd_le16 mem (ie + IE_data_offset);
  data_length ← rd_le16 mem (ie + IE_data_length);
  Ret (mk_ictx (Some ie) (ie + data_offset) data_length (ix_is_in_root ictx) (ix_ir ictx) (ix_actx ictx) (ix_base_ni ictx)
         (ix_ia ictx) (ix_page ictx)).

Section Index.
(** The page cache of the index allocation, the cluster size and the page size. *)
Context (read_ia_page : Z -> Z + (list Z * bool)) (cluster_size_bits PAGE_CACHE_SHIFT : Z).

(** [ntfs_map_page] on the mapping of the index allocation. *)
Definition map_ia_page (index : Z) : Z + list Z :=
  match read_ia_page index with
  | inl e => inl e
  | inr (data, PageError) => if (PageError : bool) then inl (- EIO) else inr data
  end.

(** [vcn << vcn_size_bits >> PAGE_CACHE_SHIFT], as a page index *)
Definition vcn_page (bits vcn : Z) : Z := u64 (Z.shiftr (s64 (Z.shiftl vcn bits)) PAGE_CACHE_SHIFT).

(** [(vcn << vcn_size_bits) & ~PAGE_CACHE_MASK] *)
Definition vcn_ofs (bits vcn : Z) : Z := Z.land (s64 (Z.shiftl vcn bits)) (page_size PAGE_CACHE_SHIFT - 1).

(** The checks of an index block at offset [ia] of a page: the end of its index,
    or [None] when it is corrupt. *)
Definition check_index_block (block_size vcn : Z) (kaddr : list Z) (ia : Z) : outcome (option Z) :=
  if (ia <? 0) || (ia >? page_size PAGE_CACHE_SHIFT) then Ret None
  else
    magic ← rd_le32 kaddr (ia + IA_magic);
    if negb (ntfs_is_indx_record magic) then Ret None
    else
      block_vcn ← rd_sle64 kaddr (ia + IA_index_block_vcn);
      if negb (block_vcn =? vcn) then Ret None
      else
        allocated_size ← rd_le32 kaddr (ia + IA_index + IH_allocated_size);
        if negb (u32 (allocated_size + 0x18) =? block_size) then Ret None
        else if ia + block_size >? page_size PAGE_CACHE_SHIFT then Ret None
        else
          index_length ← rd_le32 kaddr (ia + IA_index + IH_index_length);
          if ia + IA_index + index_length >? ia + block_size then Ret None
          else Ret (Some (ia + IA_index + index_length)).

(** From the label [fast_descend_into_child_node] on, with page [pg] mapped and
    locked: the context, the error, and the page that is left so.  Every child
    node takes one unit of fuel. *)
Fixpoint descend (fuel : nat) (idx_ni : index_inode) (key : list Z) (key_len : Z) (pg : Z) (kaddr : list Z) (vcn : Z)
    (ictx : ntfs_index_context) : outcome (ntfs_index_context * Z * option Z) :=
  match fuel with
  | O => Diverge
  | S fuel =>
      let ia := vcn_ofs (vcn_size_bits idx_ni) vcn in
      index_end ← check_index_block (block_size idx_ni) vcn kaddr ia;
      match index_end with
      | None => Ret (ictx, - EIO, None)
      | Some index_end =>
          entries_offset ← rd_le32 kaddr (ia + IA_index + IH_entries_offset);
          x ← index_walk (walk_fuel index_end) kaddr ia index_end (collation_rule idx_ni) key key_len (ia + IA_index + entries_offset);
          let ia_done ie err :=
            ictx' ← ictx_done kaddr ie (mk_ictx (ix_entry ictx) (ix_data ictx) (ix_data_len ictx) false (ix_ir ictx) None None (Some ia) (Some pg));
            Ret (ictx', err, Some pg) in
          match x with
          | WCorrupt => Ret (ictx, - EIO, None)
          | WFound ie => ia_done ie 0
          | WStop ie =>
              flags ← rd_le16 kaddr (ie + IE_flags);
              if Z.land flags INDEX_ENTRY_NODE =? 0 then ia_done ie (- ENOENT)
              else
                node_flags ← rd_u8 kaddr (ia + IA_index + IH_flags);
                if Z.land node_flags NODE_MASK =? LEAF_NODE then Ret (ictx, - EIO, None)
                else
                  vcn' ← child_vcn kaddr ie;
                  if vcn' >=? 0 then
                    if Z.shiftr (s64 (Z.shiftl vcn cluster_size_bits)) PAGE_CACHE_SHIFT
                       =? Z.shiftr (s64 (Z.shiftl vcn' cluster_size_bits)) PAGE_CACHE_SHIFT
                    then descend fuel idx_ni key key_len pg kaddr vcn' ictx
                    else
                      let pg' := vcn_page (vcn_size_bits idx_ni) vcn' in
                      match map_ia_page pg' with
                      | inl e => Ret (ictx, e, None)
                      | inr kaddr' => descend fuel idx_ni key key_len pg' kaddr' vcn' ictx
                      end
                  else Ret (ictx, - EIO, None)
          end
      end
  end.

(** ** ntfs_index_lookup *)

Context (upcase : list Z) (upcase_len : Z).
Context (read_mapping_page : Z -> Z + (list Z * bool)) (i_size mft_record_size_bits : Z).

(** The label [err_out], with the mft record mapped. *)
Definition index_err_out (base_ni : ptr) (actx : option ntfs_attr_search_ctx) (ictx : ntfs_index_context) (err : Z)
    : M (ntfs_index_context * Z * option Z) :=
  match actx with Some actx => ntfs_attr_put_search_ctx actx | None => mret tt end;;
  unmap_mft_record base_ni;;
  mret (ictx, if err =? 0 then - EIO else err, None).

(** What follows the walk over the entries of the index root [ir]. *)
Definition root_after_walk (fuel : nat) (idx_ni : index_inode) (key : list Z) (key_len : Z) (ictx : ntfs_index_context)
    (actx : ntfs_attr_search_ctx) (ir : Z) (x : walk_exit) : M (ntfs_index_context * Z * option Z) :=
  let base_ni := idx_base_ni idx_ni in
  let mem := mrec actx in
  let ir_done ie err :=
    ictx' ← lift (ictx_done mem ie (mk_ictx (ix_entry ictx) (ix_data ictx) (ix_data_len ictx) true (Some ir) (Some actx)
                                      (Some base_ni) None None));
    mret (ictx', err, None) in
  match x with
  | WCorrupt => index_err_out base_ni (Some actx) ictx 0
  | WFound ie => ir_done ie 0
  | WStop ie =>
      flags ← lift (rd_le16 mem (ie + IE_flags));
      if Z.land flags INDEX_ENTRY_NODE =? 0 then ir_done ie (- ENOENT)
      else if negb (index_alloc_present idx_ni) then index_err_out base_ni (Some actx) ictx 0
      else
        vcn ← lift (child_vcn mem ie);
        ntfs_attr_put_search_ctx actx;;
        unmap_mft_record base_ni;;
        let pg := vcn_page (vcn_size_bits idx_ni) vcn in
        match map_ia_page pg with
        | inl e => mret (ictx, e, None)
        | inr kaddr => lift (descend fuel idx_ni key key_len pg kaddr vcn ictx)
        end
  end.

(** The search from the index root on, whose attribute is in [actx]. *)
Definition index_from_root (fuel : nat) (idx_ni : index_inode) (key : list Z) (key_len : Z) (ictx : ntfs_index_context)
    (actx : ntfs_attr_search_ctx) : M (ntfs_index_context * Z * option Z) :=
  let mem := mrec actx in
  value_offset ← lift (rd_le16 mem (attr actx + A_value_offset));
  let ir := attr actx + value_offset in
  index_length ← lift (rd_le32 mem (ir + IR_index + IH_index_length));
  entries_offset ← lift (rd_le32 mem (ir + IR_index + IH_entries_offset));
  let index_end := ir + IR_index + index_length in
  x ← lift (index_walk (walk_fuel index_end) mem 0 index_end (collation_rule idx_ni) key key_len (ir + IR_index + entries_offset));
  root_after_walk fuel idx_ni key key_len ictx actx ir x.

(** The context, the return value, and the page of the index allocation that is
    left mapped and locked. *)
Definition ntfs_index_lookup (fuel : nat) (idx_ni : index_inode) (key : list Z) (key_len : Z) (ictx : ntfs_index_context)
    : M (ntfs_index_context * Z * option Z) :=
  let base_ni := idx_base_ni idx_ni in
  assert_not (key_len <=? 0);;
  if negb (ntfs_is_collation_rule_supported (collation_rule idx_ni)) then mret (ictx, - EOPNOTSUPP, None)
  else
    m ← map_mft_record read_mapping_page i_size mft_record_size_bits PAGE_CACHE_SHIFT base_ni;
    match m with
    | inl e => mret (ictx, e, None)
    | inr m =>
        actx ← ntfs_attr_get_search_ctx base_ni m;
        match actx with
        | None => index_err_out base_ni None ictx (- ENOMEM)
        | Some actx =>
            r ← ntfs_attr_lookup upcase upcase_len read_mapping_page i_size mft_record_size_bits PAGE_CACHE_SHIFT
                  (mk_search AT_INDEX_ROOT (idx_name idx_ni) (idx_name_len idx_ni) CASE_SENSITIVE 0 None 0) actx;
            let '(actx, err) := r in
            if negb (err =? 0) then index_err_out base_ni (Some actx) ictx (if err =? - ENOENT then - EIO else err)
            else index_from_root fuel idx_ni key key_len ictx actx
        end
    end.

(** [ntfs_index_ctx_put]: the page that stays mapped and locked. *)
Definition ntfs_index_ctx_put (ictx : ntfs_index_context) (held : option Z) : M (option Z) :=
  match ix_entry ictx with
  | None => mret held
  | Some _ =>
      if ix_is_in_root ictx then
        match ix_actx ictx with Some actx => ntfs_attr_put_search_ctx actx | None => mret tt end;;
        match ix_base_ni ictx with Some base_ni => unmap_mft_record base_ni | None => mret tt end;;
        mret held
      else
        match ix_page ictx with
        | Some pg => assert_not (negb (bool_decide (held = Some pg)));; mret None
        | None => mret held
        end
  end.
End Index.
