(* ===== verification/IndexSpec.v ===== *)
(** * Index lookup: the B+tree

    The entries of an index as a tree of nodes, what its bytes must be, and the
    refinement of the walk over the bytes to a search in the tree.  Keys are
    unsigned 32-bit numbers, the collation rule COLLATION_NTOFS_ULONG. *)

From Stdlib Require Import ZArith Lia Bool.
From stdpp Require Import base list numbers option gmap.
From S2P Require Import Prelude Endian Unistr UnistrTheorems Collate Attrib MftMap AttrLookup Index.

(** ** Nodes *)

(** An entry: its offset, its key ([None] for the last entry of a node) and the
    index block of its child node. *)
Record ent := mk_ent { en_off : Z; en_key : option Z; en_child : option Z }.

(** Where an entry is: the index block, or the index root, and the offset. *)
Abbreviation loc := (option Z * Z)%type.

(** What the walk over a node comes to. *)
Inductive stop := Found (off : Z) | Before (e : ent).

Fixpoint node_search (k : Z) (es : list ent) : option stop :=
  match es with
  | [] => None
  | e :: es =>
      match en_key e with
      | None => Some (Before e)
      | Some k' => if k =? k' then Some (Found (en_off e)) else if k <? k' then Some (Before e) else node_search k es
      end
  end.

(** ** The tree

    [block v es]: index block [v] is a node with entries [es].  [content n es c]:
    [c] lists the entries of node [n] and of the nodes below it in order, with their
    keys ([None] for the last entry of a node) and their places; a derivation is a
    finite tree. *)
Section Tree.
Context (block : Z -> list ent -> Prop).

Inductive content : option Z -> list ent -> list (option Z * loc) -> Prop :=
| content_last n e c : en_key e = None -> child_content (en_child e) c -> content n [e] (c ++ [(None, (n, en_off e))])
| content_entry n e k c es c' : en_key e = Some k -> child_content (en_child e) c -> content n es c' ->
    content n (e :: es) (c ++ (Some k, (n, en_off e)) :: c')
with child_content : option Z -> list (option Z * loc) -> Prop :=
| child_none : child_content None []
| child_some v es c : block v es -> content (Some v) es c -> child_content (Some v) c.

Scheme content_mut := Minimality for content Sort Prop
with child_content_mut := Minimality for child_content Sort Prop.

(** All keys of the list are below or above [k]. *)
Definition keys_below (k : Z) (c : list (option Z * loc)) : Prop := forall k' l, (Some k', l) ∈ c -> k' < k.
Definition keys_above (k : Z) (c : list (option Z * loc)) : Prop := forall k' l, (Some k', l) ∈ c -> k < k'.

(** The keys are in order. *)
Definition increasing (c : list (option Z * loc)) : Prop :=
  forall c1 k l c2, c = c1 ++ (Some k, l) :: c2 -> keys_below k c1 /\ keys_above k c2.

(** The search in the tree: the place of the key, or of the entry of the node
    without child before which it belongs. *)
Inductive tree_search (k : Z) : option Z -> list ent -> loc -> bool -> Prop :=
| ts_found n es off : node_search k es = Some (Found off) -> tree_search k n es (n, off) true
| ts_leaf n es e : node_search k es = Some (Before e) -> en_child e = None -> tree_search k n es (n, en_off e) false
| ts_child n es e v es' l b : node_search k es = Some (Before e) -> en_child e = Some v -> block v es' ->
    tree_search k (Some v) es' l b -> tree_search k n es l b.

Lemma increasing_app c1 c2 : increasing (c1 ++ c2) -> increasing c1 /\ increasing c2.
Proof.
  intros H. split; intros a k l b ->.
  - destruct (H a k l (b ++ c2)) as [H1 H2]; [by rewrite <- app_assoc|]. split; [done|]. intros k' l' Hin. apply (H2 k' l'). apply elem_of_app. by left.
  - destruct (H (c1 ++ a) k l b) as [H1 H2]; [by rewrite <- app_assoc|]. split; [|done]. intros k' l' Hin. apply (H1 k' l'). apply elem_of_app. by right.
Qed.

(** The outcome of a search for [k] is right for the entries [c]: the place of the key,
    or, when the key is not there, the place where it belongs: the keys in front of the
    entry are below [k], those from it on are above [k], and it is the first such entry
    (the one in front of it has a key). *)
Definition right_result (k : Z) (c : list (option Z * loc)) (l : loc) (b : bool) : Prop :=
  if b then (Some k, l) ∈ c
  else exists c1 x c2, c = c1 ++ (x, l) :: c2 /\ keys_below k c1 /\ keys_above k ((x, l) :: c2) /\ (c1 = [] \/ exists c0 k' l', c1 = c0 ++ [(Some k', l')]).

(** More entries behind, and more in front of, those that were searched. *)
Lemma right_behind k c l b c' : keys_above k c' -> right_result k c l b -> right_result k (c ++ c') l b.
Proof.
  intros Ha. destruct b; cbn; [intros H; apply elem_of_app; by left|]. intros (c1 & x & c2 & -> & H1 & H2 & H3). exists c1, x, (c2 ++ c'). split; [by rewrite <- app_assoc|].
  split; [done|]. split; [|done]. intros k' l' Hin. rewrite app_comm_cons in Hin. apply elem_of_app in Hin as [Hin|Hin]; [by eapply H2|by eapply Ha].
Qed.
Lemma right_front k c l b c' k' l' : keys_below k (c' ++ [(Some k', l')]) -> right_result k c l b -> right_result k (c' ++ (Some k', l') :: c) l b.
Proof.
  intros Hb. destruct b; cbn; [intros H; apply elem_of_app; right; by right|]. intros (c1 & x & c2 & -> & H1 & H2 & H3). exists (c' ++ (Some k', l') :: c1), x, c2. split; [by rewrite <- app_assoc|].
  split; [|split; [done|]].
  - intros k0 l0 Hin. replace (c' ++ (Some k', l') :: c1) with ((c' ++ [(Some k', l')]) ++ c1) in Hin by (by rewrite <- app_assoc). apply elem_of_app in Hin as [Hin|Hin]; [by eapply Hb|by eapply H1].
  - right. destruct H3 as [->|(c0 & k0 & l0 & ->)]; [by exists c', k', l'|]. exists (c' ++ (Some k', l') :: c0), k0, l0. by rewrite <- app_assoc.
Qed.

Lemma tree_search_step k n e es l b :
  node_search k (e :: es) = node_search k es -> tree_search k n es l b -> tree_search k n (e :: es) l b.
Proof. intros E H. inversion H; subst; econstructor; try done; by rewrite E. Qed.

(** In a tree whose keys are in order the search finds a key exactly when it is
    there. *)
Lemma tree_search_right k n es c : content n es c -> increasing c -> exists l b, tree_search k n es l b /\ right_result k c l b.
Proof.
  intros Hc. revert n es c Hc.
  apply (content_mut (fun n es c => increasing c -> exists l b, tree_search k n es l b /\ right_result k c l b)
    (fun ch c => increasing c -> match ch with
       | None => c = []
       | Some v => exists es l b, block v es /\ tree_search k (Some v) es l b /\ right_result k c l b
       end)).
  - intros n e c Hk _ IH Hi. apply increasing_app in Hi as [Hi _]. specialize (IH Hi).
    assert (Hend : keys_above k [(None, (n, en_off e))]) by (intros k' l' [[=]|[]%elem_of_nil]%elem_of_cons).
    destruct (en_child e) as [v|] eqn:Ech.
    + destruct IH as (es' & l & b & Hb & Ht & Hr). exists l, b. split; [|by apply right_behind].
      eapply ts_child; [|exact Ech|exact Hb|exact Ht]. cbn. by rewrite Hk.
    + subst c. exists (n, en_off e), false. split; [apply ts_leaf; [cbn; by rewrite Hk|done]|]. exists [], None, []. split; [done|]. split; [intros k' l' []%elem_of_nil|]. split; [done|by left].
  - intros n e k' c es c' Hk _ IHc _ IHes Hi. destruct (Hi c k' (n, en_off e) c' eq_refl) as [Hbelow Habove]. apply increasing_app in Hi as [Hi1 Hi2].
    apply (increasing_app [_]) in Hi2 as [_ Hi2]. destruct (Z.eqb_spec k k') as [->|Hne].
    { exists (n, en_off e), true. split; [apply ts_found; cbn; by rewrite Hk, Z.eqb_refl|]. apply elem_of_app. right. left. }
    destruct (Z.ltb_spec k k') as [Hkl|Hkl].
    + assert (Hns : node_search k (e :: es) = Some (Before e)).
      { cbn. rewrite Hk. destruct (Z.eqb_spec k k'); [done|]. by rewrite (proj2 (Z.ltb_lt k k')). }
      assert (Ha : keys_above k ((Some k', (n, en_off e)) :: c')).
      { intros k0 l0 [[= -> ->]|Hin]%elem_of_cons; [done|]. specialize (Habove k0 l0 Hin). lia. }
      specialize (IHc Hi1). destruct (en_child e) as [v|] eqn:Ech.
      * destruct IHc as (es' & l & b & Hb & Ht & Hr). exists l, b. split; [by eapply ts_child|by apply right_behind].
      * subst c. exists (n, en_off e), false. split; [by apply ts_leaf|]. exists [], (Some k'), c'. split; [done|]. split; [intros k0 l0 []%elem_of_nil|]. split; [done|by left].
    + destruct (IHes Hi2) as (l & b & Ht & Hr). exists l, b. split.
      * apply tree_search_step; [|done]. cbn. rewrite Hk. destruct (Z.eqb_spec k k'); [done|]. by rewrite (proj2 (Z.ltb_ge k k')).
      * apply right_front; [|done]. intros k0 l0 [Hin|[[= -> ->]|[]%elem_of_nil]%elem_of_cons]%elem_of_app; [specialize (Hbelow k0 l0 Hin)|]; lia.
  - done.
  - intros v es c Hb _ IH Hi. destruct (IH Hi) as (l & b & Ht & Hr). eauto 6.
Qed.
End Tree.

(** ** Nodes in memory *)

(** The child of the entry at [off], of length [len]. *)
Definition child_at (mem : list Z) (off len flags : Z) (child : option Z) : Prop :=
  match child with
  | None => Z.land flags INDEX_ENTRY_NODE = 0
  | Some v => Z.land flags INDEX_ENTRY_NODE <> 0 /\ rd_sle64 mem (off + len - 8) = Ret v
  end.

(** The fixed part of the entry at [off] of an index that ends at [iend]. *)
Definition header_at (mem : list Z) (iend off len flags : Z) (child : option Z) : Prop :=
  off + IE_HEADER_SIZE <= iend /\ off + len <= iend /\ rd_le16 mem (off + IE_length) = Ret len /\
  rd_le16 mem (off + IE_flags) = Ret flags /\ child_at mem off len flags child.

(** The bytes of a 32-bit key. *)
Definition key_bytes (k : Z) : list Z := le_split 4 k.

Inductive entries_at (mem : list Z) (iend : Z) : Z -> list ent -> Prop :=
| ea_last off len flags child :
    header_at mem iend off len flags child -> Z.land flags INDEX_ENTRY_END <> 0 ->
    entries_at mem iend off [mk_ent off None child]
| ea_entry off len flags child k doff dlen es :
    header_at mem iend off len flags child -> Z.land flags INDEX_ENTRY_END = 0 ->
    rd_le16 mem (off + IE_key_length) = Ret 4 -> rd_le16 mem (off + IE_data_offset) = Ret doff ->
    rd_le16 mem (off + IE_data_length) = Ret dlen -> IE_HEADER_SIZE + 4 <= doff -> 0 <= dlen -> doff + dlen <= len ->
    0 <= k < 0x100000000 -> (exists post, drop (Z.to_nat (off + IE_key)) mem = key_bytes k ++ post) ->
    entries_at mem iend (off + len) es ->
    entries_at mem iend off (mk_ent off (Some k) child :: es).

Lemma key_bytes_value k : 0 <= k < 0x100000000 -> le_combine (key_bytes k) = k.
Proof. intros. unfold key_bytes. rewrite le_combine_split. apply Z.mod_small. lia. Qed.

Lemma key_bytes_inj j k : 0 <= j < 0x100000000 -> 0 <= k < 0x100000000 -> key_bytes j = key_bytes k -> j = k.
Proof. intros Hj Hk E. rewrite <- (key_bytes_value j), <- (key_bytes_value k) by done. by rewrite E. Qed.

Lemma rd_key k post : 0 <= k < 0x100000000 -> rd_le32 (key_bytes k ++ post) 0 = Ret k.
Proof.
  intros Hk. unfold rd_le32. rewrite (rd_bytes_at 4 _ [] (key_bytes k) post); [|done..]. rewrite bind_Ret. f_equal. by apply key_bytes_value.
Qed.

Lemma collate_keys j k post : 0 <= j < 0x100000000 -> 0 <= k < 0x100000000 ->
  ntfs_collate COLLATION_NTOFS_ULONG (key_bytes j) 4 (key_bytes k ++ post) 4 = Ret (if j <? k then -1 else if j =? k then 0 else 1).
Proof.
  intros Hj Hk. transitivity (ntfs_collate_ntofs_ulong (key_bytes j) 4 (key_bytes k ++ post) 4); [done|].
  unfold ntfs_collate_ntofs_ulong, BUG_ON. change (negb (4 =? 4)) with false. cbv iota. rewrite !bind_Ret.
  pose proof (rd_key j [] Hj) as Ej. rewrite app_nil_r in Ej. by rewrite Ej, bind_Ret, rd_key, bind_Ret.
Qed.

Lemma memcmp_keys j k post : 0 <= j < 0x100000000 -> 0 <= k < 0x100000000 ->
  exists d, memcmp (Z.to_nat 4) (key_bytes j) (key_bytes k ++ post) 0 = Ret d /\ (d =? 0) = (j =? k).
Proof.
  intros Hj Hk. destruct (memcmp_spec (key_bytes j) (key_bytes k) [] [] [] post 0) as (d & E & Hd); try done.
  cbn [app] in E. rewrite app_nil_r in E. exists d. split; [exact E|].
  destruct (Z.eqb_spec j k) as [->|Hne].
  - rewrite (proj2 (lex_eq _ _) eq_refl) in Hd. cbn in Hd. apply Z.eqb_eq. lia.
  - apply Z.eqb_neq. intros ->. apply Hne, key_bytes_inj; try done. apply lex_eq. by destruct (lex _ _).
Qed.

(** The walk over the bytes of a node is the search in its entries. *)
Lemma walk_spec mem iend off es k lower : 0 <= k < 0x100000000 -> entries_at mem iend off es ->
  forall fuel, lower <= off -> iend - off < Z.of_nat fuel ->
  index_walk fuel mem lower iend COLLATION_NTOFS_ULONG (key_bytes k) 4 off =
    Ret (match node_search k es with Some (Found o) => WFound o | Some (Before e) => WStop (en_off e) | None => WCorrupt end).
Proof.
  intros Hk. induction 1 as [off len flags child (H1 & H2 & H3 & H4 & H5) Hend
    |off len flags child k' doff dlen es (H1 & H2 & H3 & H4 & H5) Hend Hkl Hdo Hdl Hd1 Hd2 Hd3 Hk' (post & Hkey) _ IH];
    intros fuel Hlow Hf; (destruct fuel as [|fuel]; [unfold IE_HEADER_SIZE in *; lia|]); cbn [index_walk];
    (destruct (Z.ltb_spec off lower); [lia|]); (destruct (Z.gtb_spec (off + IE_HEADER_SIZE) iend); [lia|]); cbn [orb];
    rewrite H3, bind_Ret; (destruct (Z.gtb_spec (off + len) iend); [lia|]); rewrite H4, bind_Ret.
  { rewrite (proj2 (Z.eqb_neq _ 0)) by done. done. }
  rewrite Hend. cbn [negb Z.eqb]. rewrite Hkl, bind_Ret, Hdo, bind_Ret, Hdl, bind_Ret.
  destruct (Z.gtb_spec (IE_HEADER_SIZE + 4) doff); [lia|]. destruct (Z.gtb_spec (doff + dlen) len); [lia|]. cbn [orb].
  rewrite Hkey. change (4 =? 4) with true. cbv iota.
  destruct (memcmp_keys k k' post Hk Hk') as (d & Ed & Hd). rewrite Ed, !bind_Ret, Hd. cbn [node_search en_key en_off].
  destruct (Z.eqb_spec k k'); [done|]. rewrite collate_keys, bind_Ret by done.
  destruct (Z.ltb_spec k k'); [done|]. destruct (Z.eqb_spec k k'); [done|]. cbn [Z.eqb].
  apply IH; unfold IE_HEADER_SIZE in *; lia.
Qed.

(** What can be read of the entry a walk stops at. *)
Lemma stop_reads mem iend off es k e : entries_at mem iend off es -> node_search k es = Some (Before e) ->
  exists len flags, header_at mem iend (en_off e) len flags (en_child e) /\ off <= en_off e.
Proof.
  induction 1 as [off len flags child Hh Hend|off len flags child k' doff dlen es Hh Hend _ _ _ Hd1 Hd2 Hd3 _ _ _ IH]; cbn.
  - intros [= <-]. exists len, flags. split; [done|]. cbn. lia.
  - destruct (k =? k'); [done|]. destruct (k <? k').
    + intros [= <-]. exists len, flags. split; [done|]. cbn. lia.
    + intros E. destruct (IH E) as (l & f & Hh' & Ho). exists l, f. split; [done|]. unfold IE_HEADER_SIZE in *. lia.
Qed.

Lemma found_reads mem iend off es k o : entries_at mem iend off es -> node_search k es = Some (Found o) ->
  off <= o /\ o + IE_HEADER_SIZE <= iend.
Proof.
  induction 1 as [off len flags child Hh Hend|off len flags child k' doff dlen es (Hh & _) Hend _ _ _ Hd1 Hd2 Hd3 _ _ _ IH]; cbn; [done|].
  destruct (k =? k'); [intros [= <-]; lia|]. destruct (k <? k'); [done|]. intros E. destruct (IH E). unfold IE_HEADER_SIZE in *. lia.
Qed.

(** ** Index blocks *)

(** The context that describes the entry at [ie]. *)
Lemma ictx_done_ret mem ie ictx : 0 <= ie -> ie + IE_HEADER_SIZE <= zlen mem ->
  exists d n, ictx_done mem ie ictx = Ret (mk_ictx (Some ie) d n (ix_is_in_root ictx) (ix_ir ictx) (ix_actx ictx) (ix_base_ni ictx) (ix_ia ictx) (ix_page ictx)) /\
    rd_le16 mem (ie + IE_data_offset) = Ret (d - ie) /\ rd_le16 mem (ie + IE_data_length) = Ret n.
Proof.
  intros H1 H2. unfold IE_HEADER_SIZE in H2. unfold ictx_done, IE_data_offset, IE_data_length, rd_le16, rd_bytes.
  rewrite (proj2 (Z.leb_le 0 (ie + 0))), (proj2 (Z.leb_le 0 (ie + 2))), (proj2 (Z.leb_le (ie + 0 + Z.of_nat 2) (zlen mem))),
    (proj2 (Z.leb_le (ie + 2 + Z.of_nat 2) (zlen mem))) by lia. cbn [andb]. rewrite !bind_Ret. eexists _, _. split; [reflexivity|].
  split; [f_equal; lia|done].
Qed.

Section Blocks.
Context (read_ia_page : Z -> Z + (list Z * bool)) (cluster_size_bits PAGE_CACHE_SHIFT : Z) (idx : index_inode).
Hypothesis Hbits : 0 <= vcn_size_bits idx <= cluster_size_bits.
Hypothesis Hshift : 0 <= PAGE_CACHE_SHIFT.
Hypothesis Hrule : collation_rule idx = COLLATION_NTOFS_ULONG.

Local Abbreviation pg_of v := (vcn_page PAGE_CACHE_SHIFT (vcn_size_bits idx) v).
Local Abbreviation ofs_of v := (vcn_ofs PAGE_CACHE_SHIFT (vcn_size_bits idx) v).

(** Index block [v] is sound and has the entries [es]. *)
Record block_ok (v : Z) (es : list ent) : Prop := {
  bl_range : 0 <= v /\ v * 2 ^ cluster_size_bits <= S64_MAX;
  bl_node : exists kaddr iend eo nf, map_ia_page read_ia_page (pg_of v) = inr kaddr /\
    check_index_block PAGE_CACHE_SHIFT (block_size idx) v kaddr (ofs_of v) = Ret (Some iend) /\ iend <= zlen kaddr /\
    rd_le32 kaddr (ofs_of v + IA_index + IH_entries_offset) = Ret eo /\ 0 <= eo /\
    entries_at kaddr iend (ofs_of v + IA_index + eo) es /\
    rd_u8 kaddr (ofs_of v + IA_index + IH_flags) = Ret nf /\
    (forall e, e ∈ es -> is_Some (en_child e) -> Z.land nf NODE_MASK <> LEAF_NODE);
}.

Lemma ofs_nonneg v : 0 <= ofs_of v.
Proof.
  unfold vcn_ofs. apply Z.land_nonneg. right. unfold page_size. pose proof (Z.pow_pos_nonneg 2 PAGE_CACHE_SHIFT ltac:(lia) Hshift). lia.
Qed.

(** Child nodes that share the page by the cluster size share it by the size of
    the vcns. *)
Lemma same_page v v' :
  0 <= v /\ v * 2 ^ cluster_size_bits <= S64_MAX -> 0 <= v' /\ v' * 2 ^ cluster_size_bits <= S64_MAX ->
  Z.shiftr (s64 (Z.shiftl v cluster_size_bits)) PAGE_CACHE_SHIFT = Z.shiftr (s64 (Z.shiftl v' cluster_size_bits)) PAGE_CACHE_SHIFT ->
  pg_of v = pg_of v'.
Proof.
  assert (Hp : 0 < 2 ^ PAGE_CACHE_SHIFT) by (apply Z.pow_pos_nonneg; lia).
  assert (Hd : 0 < 2 ^ (cluster_size_bits - vcn_size_bits idx)) by (apply Z.pow_pos_nonneg; lia).
  assert (Hv : 0 < 2 ^ vcn_size_bits idx) by (apply Z.pow_pos_nonneg; lia).
  assert (Ec : 2 ^ cluster_size_bits = 2 ^ vcn_size_bits idx * 2 ^ (cluster_size_bits - vcn_size_bits idx))
    by (rewrite <- Z.pow_add_r by lia; f_equal; lia).
  assert (Hq : forall u, 0 <= u /\ u * 2 ^ cluster_size_bits <= S64_MAX ->
    Z.shiftr (s64 (Z.shiftl u (vcn_size_bits idx))) PAGE_CACHE_SHIFT =
    Z.shiftr (s64 (Z.shiftl u cluster_size_bits)) PAGE_CACHE_SHIFT / 2 ^ (cluster_size_bits - vcn_size_bits idx)).
  { intros u [Hu1 Hu2]. rewrite !Z.shiftl_mul_pow2, !Z.shiftr_div_pow2 by lia. rewrite Ec in *. unfold S64_MAX in *.
    rewrite !s64_id by (unfold S64_MIN, S64_MAX; nia). rewrite Z.div_div, Z.mul_assoc, Z.div_mul_cancel_r by lia. done. }
  intros H1 H2 E. unfold vcn_page. rewrite (Hq v H1), (Hq v' H2), E. done.
Qed.

Lemma search_in k es e : node_search k es = Some (Before e) -> e ∈ es.
Proof.
  induction es as [|x es IH]; cbn; [done|]. destruct (en_key x) as [k'|]; [|intros [= <-]; left].
  destruct (k =? k'); [done|]. destruct (k <? k'); [intros [= <-]; left|]. intros E. right. by apply IH.
Qed.

(** The entry, its data and the block it is in. *)
Definition describes (ictx0 : ntfs_index_context) (v off : Z) (ictx : ntfs_index_context) : Prop :=
  exists kaddr d n, map_ia_page read_ia_page (pg_of v) = inr kaddr /\
    rd_le16 kaddr (off + IE_data_offset) = Ret (d - off) /\ rd_le16 kaddr (off + IE_data_length) = Ret n /\
    ictx = mk_ictx (Some off) d n false (ix_ir ictx0) None None (Some (ofs_of v)) (Some (pg_of v)).

(** Going down the tree. *)
Lemma descend_spec k n es l b : 0 <= k < 0x100000000 -> tree_search block_ok k n es l b ->
  forall v ictx kaddr, n = Some v -> block_ok v es -> map_ia_page read_ia_page (pg_of v) = inr kaddr ->
  exists h, forall fuel, (h <= fuel)%nat -> exists lv off ictx', l = (Some lv, off) /\
    descend read_ia_page cluster_size_bits PAGE_CACHE_SHIFT fuel idx (key_bytes k) 4 (pg_of v) kaddr v ictx =
      Ret (ictx', if b then 0 else - ENOENT, Some (pg_of lv)) /\ describes ictx lv off ictx'.
Proof.
  intros Hk. induction 1 as [n es off Hs|n es e Hs Hc|n es e v' es' l b Hs Hc Hb' Ht IH]; intros v ictx kaddr -> Hb Hm;
    pose proof Hb as [Hvr (kaddr' & iend & eo & nf & Hm' & Hchk & Hie & Heo & Heo2 & Hent & Hnf & Hnode)];
    rewrite Hm in Hm'; injection Hm' as <-; pose proof (ofs_nonneg v) as Hofs.
  1, 2: exists 1%nat; intros [|fuel] Hf; [lia|]; cbn [descend]; rewrite Hchk, bind_Ret, Heo, bind_Ret, Hrule,
    (walk_spec kaddr iend _ es k) by (try done; unfold walk_fuel, IA_index; lia); rewrite bind_Ret, Hs.
  - destruct (found_reads _ _ _ _ _ _ Hent Hs) as [Ho1 Ho2].
    edestruct (ictx_done_ret kaddr off) as (d & m & E & Ed & Em); [unfold IA_index in *; lia|lia|].
    rewrite E, bind_Ret. exists v, off. eexists. split; [done|]. split; [reflexivity|]. exists kaddr, d, m. by rewrite Hm.
  - destruct (stop_reads _ _ _ _ _ _ Hent Hs) as (len & flags & (Ho1 & Ho2 & Hlen & Hfl & Hch) & Ho3).
    rewrite Hfl, bind_Ret. rewrite Hc in Hch. cbn in Hch. rewrite Hch. cbn [Z.eqb].
    edestruct (ictx_done_ret kaddr (en_off e)) as (d & m & E & Ed & Em); [unfold IA_index in *; lia|lia|].
    rewrite E, bind_Ret. exists v, (en_off e). eexists. split; [done|]. split; [reflexivity|]. exists kaddr, d, m. by rewrite Hm.
  - destruct (stop_reads _ _ _ _ _ _ Hent Hs) as (len & flags & (Ho1 & Ho2 & Hlen & Hfl & Hch) & Ho3).
    rewrite Hc in Hch. destruct Hch as [Hnd Hvcn]. pose proof (search_in _ _ _ Hs) as Hin.
    pose proof Hb' as [Hvr' (kaddr' & _ & _ & _ & Hm' & _)].
    destruct (IH v' ictx kaddr' eq_refl Hb' Hm') as (h & Hh). exists (S h). intros [|fuel] Hf; [lia|].
    destruct (Hh fuel ltac:(lia)) as (lv & off & ictx' & El & Ed & Hdes). exists lv, off, ictx'. split; [done|]. split; [|done].
    cbn [descend]. rewrite Hchk, bind_Ret, Heo, bind_Ret, Hrule, (walk_spec kaddr iend _ es k) by (try done; unfold walk_fuel, IA_index; lia).
    rewrite bind_Ret, Hs, Hfl, bind_Ret, (proj2 (Z.eqb_neq _ 0)) by done. rewrite Hnf, bind_Ret.
    rewrite (proj2 (Z.eqb_neq _ LEAF_NODE)) by (apply (Hnode e); [done|rewrite Hc; eauto]).
    unfold child_vcn. rewrite Hlen, bind_Ret, Hvcn, bind_Ret. destruct (Z.geb_spec v' 0); [|lia].
    match goal with |- context [Z.eqb ?x ?y] => destruct (Z.eqb_spec x y) as [Ep|Ep] end.
    + pose proof (same_page v v' Hvr Hvr' Ep) as Epg. rewrite Epg. rewrite <- Epg, Hm in Hm'. injection Hm' as <-. exact Ed.
    + rewrite Hm'. exact Ed.
Qed.
End Blocks.
