(* ===== verification/IndexTheorems.v ===== *)
(** * Index lookup: theorems

    [ntfs_index_lookup] finds a key exactly when the B+tree holds it, and what it
    leaves mapped and locked is what [ntfs_index_ctx_put] releases. *)

From Stdlib Require Import ZArith Lia Bool.
From stdpp Require Import base list numbers option gmap relations.
From S2P Require Import Prelude Endian Unistr Collate Attrib MftMap MftMapSpec AttrLookup AttrLookupProof AttrLookupInv AttrLookupTheorems AttrSession Index IndexSpec.

Section Lookup.
Context (upcase : list Z) (upcase_len : Z).
Context (read_mapping_page : Z -> Z + (list Z * bool)) (i_size bits shift : Z).
Context (read_ia_page : Z -> Z + (list Z * bool)) (cluster_size_bits : Z).
Hypothesis Hbits : 8 <= bits <= shift.
Hypothesis Hshift : shift < 31.
Hypothesis Hpages : forall n data err, read_mapping_page n = inr (data, err) -> zlen data = page_size shift /\ Forall byte_ok data.

(** The index root at the attribute of [actx] is a node with entries [es]. *)
Record root_ok (idx : index_inode) (actx : ntfs_attr_search_ctx) (ir : Z) (es : list ent) : Prop := {
  ro_ir : 0 <= ir /\ rd_le16 (mrec actx) (attr actx + A_value_offset) = Ret (ir - attr actx);
  ro_node : exists ilen eo, rd_le32 (mrec actx) (ir + IR_index + IH_index_length) = Ret ilen /\
    rd_le32 (mrec actx) (ir + IR_index + IH_entries_offset) = Ret eo /\ 0 <= eo /\ ir + IR_index + ilen <= zlen (mrec actx) /\
    entries_at (mrec actx) (ir + IR_index + ilen) (ir + IR_index + eo) es;
  ro_alloc : forall e, e ∈ es -> is_Some (en_child e) -> index_alloc_present idx = true;
}.

(** What a lookup leaves behind: an entry of the index root, with the mft record
    and the search context, or an entry of an index block, with its page. *)
Definition lookup_result (w : world) (i : ntfs_inode) (idx : index_inode) (actx : ntfs_attr_search_ctx) (w3 : world) (ir : Z)
    (ictx : ntfs_index_context) (l : loc) (w' : world) (ictx' : ntfs_index_context) (held : option Z) : Prop :=
  match fst l with
  | None => w' = w3 /\ held = None /\ exists d n,
      rd_le16 (mrec actx) (snd l + IE_data_offset) = Ret (d - snd l) /\ rd_le16 (mrec actx) (snd l + IE_data_length) = Ret n /\
      ictx' = mk_ictx (Some (snd l)) d n true (Some ir) (Some actx) (Some (idx_base_ni idx)) None None
  | Some v => released w (idx_base_ni idx) i w' /\ held = Some (vcn_page shift (vcn_size_bits idx) v) /\
      describes read_ia_page shift idx ictx v (snd l) ictx'
  end.

Local Abbreviation index_lookup := (ntfs_index_lookup read_ia_page cluster_size_bits shift upcase upcase_len read_mapping_page i_size bits).
Local Abbreviation root_search idx := (mk_search AT_INDEX_ROOT (idx_name idx) (idx_name_len idx) CASE_SENSITIVE 0 None 0).

(** The index root attribute is found: the steps up to it. *)
Record reaches_root (w : world) (i : ntfs_inode) (idx : index_inode) (m : list Z) (w3 : world) (actx : ntfs_attr_search_ctx) : Prop := {
  rr_caller : session_caller w (idx_base_ni idx) i;
  rr_steps : exists w1 w2 actx0,
    map_mft_record read_mapping_page i_size bits shift (idx_base_ni idx) w = Ret (w1, inr m) /\
    ntfs_attr_get_search_ctx (idx_base_ni idx) m w1 = Ret (w2, Some actx0) /\
    ntfs_attr_lookup upcase upcase_len read_mapping_page i_size bits shift (root_search idx) actx0 w2 = Ret (w3, (actx, 0));
}.

Lemma reaches_root_run w i idx m w3 actx fuel key key_len ictx :
  reaches_root w i idx m w3 actx -> 0 < key_len -> ntfs_is_collation_rule_supported (collation_rule idx) = true ->
  index_lookup fuel idx key key_len ictx w = index_from_root read_ia_page cluster_size_bits shift fuel idx key key_len ictx actx w3.
Proof.
  intros [_ (w1 & w2 & actx0 & E1 & E2 & E3)] Hk Hr. unfold ntfs_index_lookup.
  rewrite (M_run _ _ w w tt) by (apply assert_not_eq; by apply Z.leb_gt). rewrite Hr. cbn [negb].
  by rewrite (M_run _ _ _ _ _ E1), (M_run _ _ _ _ _ E2), (M_run _ _ _ _ _ E3).
Qed.

Lemma index_from_root_spec w i m w3 actx idx ir es k l b ictx :
  0 <= vcn_size_bits idx <= cluster_size_bits -> collation_rule idx = COLLATION_NTOFS_ULONG ->
  reaches_root w i idx m w3 actx -> root_ok idx actx ir es -> 0 <= k < 0x100000000 ->
  tree_search (block_ok read_ia_page cluster_size_bits shift idx) k None es l b ->
  exists h, forall fuel, (h <= fuel)%nat -> exists w' ictx' held,
    index_from_root read_ia_page cluster_size_bits shift fuel idx (key_bytes k) 4 ictx actx w3
      = Ret (w', (ictx', if b then 0 else - ENOENT, held)) /\
    lookup_result w i idx actx w3 ir ictx l w' ictx' held.
Proof.
  intros Hvb Hrule [Hc (w1 & w2 & actx0 & E1 & E2 & E3)] [[Hir Hvo] (ilen & eo & Hil & Heo & Heo2 & Hie & Hent) Halloc] Hk Ht.
  pose proof (lookup_prefix _ _ _ _ _ _ Hbits Hshift Hpages _ _ _ _ _ _ _ _ _ _ _ Hc E1 E2 E3) as Hinv.
  set (iend := ir + IR_index + ilen) in *. set (off0 := ir + IR_index + eo) in *.
  assert (Hoff : 0 <= off0) by (unfold off0, IR_index; lia).
  pose proof (walk_spec (mrec actx) iend off0 es k 0 Hk Hent (walk_fuel iend) ltac:(lia) ltac:(unfold walk_fuel; lia)) as Hwalk.
  (* the steps up to the end of the walk over the root *)
  assert (Hrun : forall fuel x, match node_search k es with Some (Found o) => WFound o | Some (Before e) => WStop (en_off e) | None => WCorrupt end = x ->
    index_from_root read_ia_page cluster_size_bits shift fuel idx (key_bytes k) 4 ictx actx w3 =
    root_after_walk read_ia_page cluster_size_bits shift fuel idx (key_bytes k) 4 ictx actx ir x w3).
  { intros fuel x <-. unfold index_from_root. rewrite Hrule. cbv zeta.
    rewrite (M_run _ _ w3 w3 _ (lift_eq _ _ _ Hvo)). replace (attr actx + (ir - attr actx)) with ir by lia.
    by rewrite (M_run _ _ w3 w3 _ (lift_eq _ _ _ Hil)), (M_run _ _ w3 w3 _ (lift_eq _ _ _ Heo)), (M_run _ _ w3 w3 _ (lift_eq _ _ _ Hwalk)). }
  inversion Ht as [? ? off Hs|? ? e Hs Hch|? ? e v es' l' b' Hs Hch Hblk Ht']; subst; rewrite Hs in Hrun.
  - exists 0%nat. intros fuel _. rewrite (Hrun fuel _ eq_refl). unfold root_after_walk. cbv zeta. destruct (found_reads _ _ _ _ _ _ Hent Hs) as [Ho1 Ho2].
    edestruct (ictx_done_ret (mrec actx) off) as (d & n & E & Ed & En); [lia|lia|]. rewrite (M_run _ _ w3 w3 _ (lift_eq _ _ _ E)).
    eexists _, _, _. split; [reflexivity|]. split_and!; try done. by exists d, n.
  - exists 0%nat. intros fuel _. rewrite (Hrun fuel _ eq_refl). unfold root_after_walk. cbv zeta.
    destruct (stop_reads _ _ _ _ _ _ Hent Hs) as (len & flags & (Ho1 & Ho2 & Hlen & Hfl & Hc') & Ho3).
    rewrite (M_run _ _ w3 w3 _ (lift_eq _ _ _ Hfl)). rewrite Hch in Hc'. cbn in Hc'. rewrite Hc'. cbn [Z.eqb].
    edestruct (ictx_done_ret (mrec actx) (en_off e)) as (d & n & E & Ed & En); [lia|lia|]. rewrite (M_run _ _ w3 w3 _ (lift_eq _ _ _ E)).
    eexists _, _, _. split; [reflexivity|]. split_and!; try done. by exists d, n.
  - destruct (stop_reads _ _ _ _ _ _ Hent Hs) as (len & flags & (Ho1 & Ho2 & Hlen & Hfl & Hc') & Ho3).
    rewrite Hch in Hc'. destruct Hc' as [Hnd Hvcn]. pose proof (search_in _ _ _ Hs) as Hin.
    pose proof Hblk as [_ (kaddr & _ & _ & _ & Hm & _)].
    destruct (descend_spec read_ia_page cluster_size_bits shift idx Hvb ltac:(lia) Hrule k _ _ _ _ Hk Ht' v ictx kaddr eq_refl Hblk Hm) as (h & Hh).
    destruct (put_unmap _ _ _ _ _ _ _ _ Hc Hinv) as (w4 & w5 & E4 & E5 & Hrel).
    exists h. intros fuel Hf. destruct (Hh fuel Hf) as (lv & off & ictx' & -> & Ed & Hdes). rewrite (Hrun fuel _ eq_refl). unfold root_after_walk. cbv zeta.
    rewrite (M_run _ _ w3 w3 _ (lift_eq _ _ _ Hfl)), (proj2 (Z.eqb_neq _ 0)) by done.
    rewrite (Halloc e) by (try done; rewrite Hch; eauto). cbn [negb].
    rewrite (M_run _ _ w3 w3 v) by (apply lift_eq; unfold child_vcn; by rewrite Hlen, bind_Ret).
    rewrite (M_run _ _ _ _ _ E4), (M_run _ _ _ _ _ E5), Hm. exists w5, ictx', (Some (vcn_page shift (vcn_size_bits idx) lv)).
    split; [by apply lift_eq|]. done.
Qed.
End Lookup.

(** C8: [ntfs_index_lookup] on an index of 32-bit keys whose nodes are sound and
    whose keys are in order: with fuel for the height of the tree it returns, and
    it returns 0 exactly when the key is in the index, with the context set up to
    describe that entry and its data, and -ENOENT otherwise, with the context at
    the entry before which the key belongs: in the order of the tree the keys in front
    of it are smaller, its own and those behind it are larger, and it is the first such
    entry.  For an entry in the index root the mft
    record stays mapped; for one in an index block only the page of the block
    stays mapped and locked, and everything else is as before the call. *)
Theorem index_lookup_correct upcase upcase_len read_mapping_page i_size bits shift read_ia_page cluster_size_bits w i m w3 actx idx ir es c k ictx :
  8 <= bits <= shift -> shift < 31 ->
  (forall n data err, read_mapping_page n = inr (data, err) -> zlen data = page_size shift /\ Forall byte_ok data) ->
  0 <= vcn_size_bits idx <= cluster_size_bits -> collation_rule idx = COLLATION_NTOFS_ULONG ->
  reaches_root upcase upcase_len read_mapping_page i_size bits shift w i idx m w3 actx -> root_ok idx actx ir es ->
  content (block_ok read_ia_page cluster_size_bits shift idx) None es c -> increasing c -> 0 <= k < 0x100000000 ->
  exists l b, right_result k c l b /\ exists h, forall fuel, (h <= fuel)%nat -> exists w' ictx' held,
    ntfs_index_lookup read_ia_page cluster_size_bits shift upcase upcase_len read_mapping_page i_size bits fuel idx (key_bytes k) 4 ictx w
      = Ret (w', (ictx', if b then 0 else - ENOENT, held)) /\
    lookup_result shift read_ia_page w i idx actx w3 ir ictx l w' ictx' held.
Proof.
  intros Hbits Hshift Hpages Hvb Hrule Hreach Hroot Hcon Hinc Hk.
  destruct (tree_search_right _ k _ _ _ Hcon Hinc) as (l & b & Ht & Hr). exists l, b. split; [done|].
  destruct (index_from_root_spec _ _ _ _ _ _ _ _ Hbits Hshift Hpages _ _ _ _ _ _ _ _ _ _ _ ictx Hvb Hrule Hreach Hroot Hk Ht) as (h & Hh).
  exists h. intros fuel Hf. destruct (Hh fuel Hf) as (w' & ictx' & held & E & Hres). exists w', ictx', held. split; [|done].
  erewrite reaches_root_run; [exact E|exact Hreach|lia|by rewrite Hrule].
Qed.

(** ** An index to run on

    The keys 3, 10 and 20: 10 in the index root, 3 and 20 in two index blocks of
    512 bytes in one page. *)
Definition demo_entry (k flags len : Z) (tail : list Z) : list Z :=
  le_split 2 20 ++ le_split 2 4 ++ repeat 0 4 ++ le_split 2 len ++ le_split 2 4 ++ le_split 2 flags ++ [0; 0]
  ++ key_bytes k ++ [1; 2; 3; 4] ++ tail.
Definition demo_last (flags len : Z) (tail : list Z) : list Z :=
  repeat 0 8 ++ le_split 2 len ++ [0; 0] ++ le_split 2 flags ++ [0; 0] ++ tail.
Definition demo_header (len alloc flags : Z) : list Z := le_split 4 16 ++ le_split 4 len ++ le_split 4 alloc ++ [flags; 0; 0; 0].
Definition demo_block (v k : Z) : list Z :=
  le_split 4 magic_INDX ++ repeat 0 12 ++ le_split 8 v ++ demo_header 56 488 0 ++ demo_entry k 0 24 [] ++ demo_last 2 16 [] ++ repeat 0 432.
Definition demo_root : list Z :=
  repeat 0 16 ++ demo_header 72 72 1 ++ demo_entry 10 1 32 (le_split 8 0) ++ demo_last 3 24 (le_split 8 1).
Definition demo_dir : list Z :=
  le_split 4 magic_FILE ++ repeat 0 16 ++ le_split 2 56 ++ repeat 0 2 ++ le_split 4 176 ++ le_split 4 256 ++ repeat 0 24
  ++ le_split 4 AT_INDEX_ROOT ++ le_split 4 112 ++ [0; 0] ++ le_split 2 24 ++ repeat 0 4 ++ le_split 4 88 ++ le_split 2 24 ++ [0; 0]
  ++ demo_root ++ le_split 4 AT_END ++ repeat 0 84.
Definition demo_mft_page : list Z := repeat 0 512 ++ demo_dir ++ repeat 0 (13 * 256).
Definition demo_ia_page : list Z := demo_block 0 3 ++ demo_block 1 20 ++ repeat 0 3072.
Definition demo_pages_of (data : list Z) (n : Z) : Z + (list Z * bool) := if n =? 0 then inr (data, false) else inl (- EIO).
Definition demo_index : index_inode := mk_index_inode None 0 COLLATION_NTOFS_ULONG 512 9 true 1%positive.
Definition demo_dir_ino : ntfs_inode := mk_inode 2 1 1 false None 0 false 0 (Extents []) None.
Definition demo_dir_world : world := mk_world {[1%positive := demo_dir_ino]} [] false [].

Example demo_index_lookups :
  (fun k => '(_, (_, err, held)) ← ntfs_index_lookup (demo_pages_of demo_ia_page) 12 12 [] 0 (demo_pages_of demo_mft_page) 4096 8 5
     demo_index (key_bytes k) 4 empty_ictx demo_dir_world; Ret (err, held)) <$> [3; 4; 10; 20; 21] =
  [Ret (0, Some 0); Ret (-2, Some 0); Ret (0, None); Ret (0, Some 0); Ret (-2, Some 0)].
Proof. vm_compute. reflexivity. Qed.

Definition demo_to_root : outcome (world * (ntfs_attr_search_ctx * Z)) :=
  (r ← map_mft_record (demo_pages_of demo_mft_page) 4096 8 12 1;
   match r with
   | inl _ => crash
   | inr m => c ← ntfs_attr_get_search_ctx 1 m;
       match c with
       | None => crash
       | Some c => ntfs_attr_lookup [] 0 (demo_pages_of demo_mft_page) 4096 8 12
                     (mk_search AT_INDEX_ROOT None 0 CASE_SENSITIVE 0 None 0) c
       end
   end) demo_dir_world.
Definition demo_root_world : world := match demo_to_root with Ret (w, _) => w | _ => demo_dir_world end.
Definition demo_actx : ntfs_attr_search_ctx :=
  match demo_to_root with Ret (_, (c, _)) => c | _ => mk_ctx [] 0 false 1 None None None None end.
Definition demo_root_entries : list ent := [mk_ent 112 (Some 10) (Some 0); mk_ent 144 None (Some 1)].
Definition demo_block_entries (o k : Z) : list ent := [mk_ent o (Some k) None; mk_ent (o + 24) None None].
Definition demo_leaf_content (v o k : Z) : list (option Z * loc) := [(Some k, (Some v, o)); (None, (Some v, o + 24))].
Definition demo_content : list (option Z * loc) := demo_leaf_content 0 40 3 ++ (Some 10, (None, 112)) :: demo_leaf_content 1 552 20 ++ [(None, (None, 144))].

Lemma demo_content_increasing : increasing demo_content.
Proof.
  assert (Hs : forall k c, forallb (fun x : option Z * loc => match x.1 with Some k' => k' <? k | None => true end) c = true -> keys_below k c).
  { intros k c H k' l Hin%list_elem_of_In. rewrite forallb_forall in H. by apply Z.ltb_lt, (H _ Hin). }
  assert (Hg : forall k c, forallb (fun x : option Z * loc => match x.1 with Some k' => k <? k' | None => true end) c = true -> keys_above k c).
  { intros k c H k' l Hin%list_elem_of_In. rewrite forallb_forall in H. by apply Z.ltb_lt, (H _ Hin). }
  intros c1 k l c2 E. unfold demo_content, demo_leaf_content in E. cbn in E.
  destruct c1 as [|? [|? [|? [|? [|? [|? c1]]]]]]; simplify_eq/=; try (by destruct c1); split; first [apply Hs|apply Hg]; vm_compute; reflexivity.
Qed.

Lemma demo_mft_pages n data err : demo_pages_of demo_mft_page n = inr (data, err) -> zlen data = page_size 12 /\ Forall byte_ok data.
Proof.
  unfold demo_pages_of. destruct (n =? 0); [|done]. intros [= <- <-]. split; [by vm_compute|]. apply (bool_decide_unpack _). by vm_compute.
Qed.

Lemma demo_reaches : reaches_root [] 0 (demo_pages_of demo_mft_page) 4096 8 12 demo_dir_world demo_dir_ino demo_index demo_dir demo_root_world demo_actx.
Proof.
  split.
  - constructor; [done| |done]. exists []. split; [|by intros p j Hp%elem_of_nil].
    constructor; try done; [exists 0%nat; split_and!; [done|lia|done]|]. by intros p Hp%elem_of_nil.
  - eexists _, _, _. split; [vm_compute; reflexivity|]. split; [vm_compute; reflexivity|]. vm_compute. reflexivity.
Qed.

Lemma demo_root_ok : root_ok demo_index demo_actx 80 demo_root_entries.
Proof.
  split; [by vm_compute| |done]. exists 72, 16. split_and!; [by vm_compute..|].
  apply (ea_entry _ _ _ 32 1 (Some 0) 10 20 4 [mk_ent 144 None (Some 1)]); try (by vm_compute).
  - eexists. vm_compute. reflexivity.
  - by apply (ea_last _ _ _ 24 3 (Some 1)); vm_compute.
Qed.

Lemma demo_block_ok v o k : (v, o, k) ∈ [(0, 40, 3); (1, 552, 20)] ->
  block_ok (demo_pages_of demo_ia_page) 12 12 demo_index v (demo_block_entries o k).
Proof.
  intros [[= -> -> ->]|[[= -> -> ->]|[]%elem_of_nil]%elem_of_cons]%elem_of_cons; (split; [by vm_compute|]);
    [exists demo_ia_page, 80, 16, 0|exists demo_ia_page, 592, 16, 0]; (split_and!; [by vm_compute..| |by vm_compute|]).
  2,4: intros e [->|[->|[]%elem_of_nil]%elem_of_cons]%elem_of_cons [? [=]].
  all: eapply (ea_entry _ _ _ 24 0 None _ 20 4); try (by vm_compute).
  1,3: eexists; vm_compute; reflexivity.
  all: by apply (ea_last _ _ _ 16 2 None); vm_compute.
Qed.

Lemma demo_leaf v o k : (v, o, k) ∈ [(0, 40, 3); (1, 552, 20)] ->
  child_content (block_ok (demo_pages_of demo_ia_page) 12 12 demo_index) (Some v) (demo_leaf_content v o k).
Proof.
  intros Hin. eapply child_some; [by apply demo_block_ok|].
  apply (content_entry _ (Some v) (mk_ent o (Some k) None) k [] [mk_ent (o + 24) None None] [(None, (Some v, o + 24))]); [done|constructor|].
  apply (content_last _ (Some v) (mk_ent (o + 24) None None) []); [done|constructor].
Qed.

Lemma demo_tree : content (block_ok (demo_pages_of demo_ia_page) 12 12 demo_index) None demo_root_entries demo_content.
Proof.
  apply (content_entry _ None (mk_ent 112 (Some 10) (Some 0)) 10 (demo_leaf_content 0 40 3) _ (demo_leaf_content 1 552 20 ++ [(None, (None, 144))])); [done| |].
  - apply demo_leaf. by left.
  - apply (content_last _ None (mk_ent 144 None (Some 1))); [done|]. apply (demo_leaf 1 552 20). right. by left.
Qed.

(** Where the search of key 20 must end. *)
Lemma demo_right_20 l b : right_result 20 demo_content l b -> l = (Some 1, 552) /\ b = true.
Proof.
  destruct b; cbn [right_result].
  - unfold demo_content, demo_leaf_content. cbn [app]. rewrite !elem_of_cons, elem_of_nil. intros H. split; [|done]. naive_solver.
  - intros (c1 & x & c2 & E & Hb & Ha & _). assert (Hin : (Some 20, (Some 1, 552)) ∈ demo_content) by (do 3 right; left). rewrite E in Hin.
    apply elem_of_app in Hin as [Hin|Hin]; [specialize (Hb _ _ Hin)|specialize (Ha _ _ Hin)]; lia.
Qed.

Lemma index_lookup_correct_witness :
  exists h, forall fuel, (h <= fuel)%nat -> exists w' ictx',
    ntfs_index_lookup (demo_pages_of demo_ia_page) 12 12 [] 0 (demo_pages_of demo_mft_page) 4096 8 fuel demo_index (key_bytes 20) 4 empty_ictx demo_dir_world
      = Ret (w', (ictx', 0, Some 0)) /\ ix_entry ictx' = Some 552 /\ ix_data_len ictx' = 4.
Proof.
  destruct (index_lookup_correct [] 0 (demo_pages_of demo_mft_page) 4096 8 12 (demo_pages_of demo_ia_page) 12 demo_dir_world demo_dir_ino demo_dir
    demo_root_world demo_actx demo_index 80 demo_root_entries demo_content 20 empty_ictx) as (l & b & Hr & h & H);
    [lia|lia|exact demo_mft_pages|cbn; lia|reflexivity|exact demo_reaches|exact demo_root_ok|exact demo_tree|exact demo_content_increasing|lia|].
  apply demo_right_20 in Hr as [-> ->].
  exists h. intros fuel Hf. destruct (H fuel Hf) as (w' & ictx' & held & E & _ & Hh & kaddr & d & n & Hm & _ & Hn & ->).
  vm_compute in Hh. subst held. vm_compute in Hm. injection Hm as <-. vm_compute in Hn. injection Hn as <-. eexists _, _. split; [exact E|]. split; reflexivity.
Defined.

(** With COLLATION_BINARY the comparison gives what memcmp gives: a key before an
    entry is passed over unless the difference is -1, and the key 3, which is in
    the index, is not found. *)
Example binary_key_missed :
  (fun rule => '(_, (_, err, _)) ← ntfs_index_lookup (demo_pages_of demo_ia_page) 12 12 [] 0 (demo_pages_of demo_mft_page) 4096 8 5
     (mk_index_inode None 0 rule 512 9 true 1%positive) (key_bytes 3) 4 empty_ictx demo_dir_world; Ret err)
  <$> [COLLATION_NTOFS_ULONG; COLLATION_BINARY] = [Ret 0; Ret (- ENOENT)].
Proof. vm_compute. reflexivity. Qed.

(** A node that is its own child. *)
Definition demo_loop_page : list Z :=
  le_split 4 magic_INDX ++ repeat 0 20 ++ demo_header 40 488 1 ++ demo_last 3 24 (le_split 8 0) ++ repeat 0 4032.

(** Nothing bounds the descent: on a cycle of child nodes the lookup goes round
    for as long as it has fuel. *)
Example child_cycle_never_returns fuel :
  descend (demo_pages_of demo_loop_page) 12 12 fuel demo_index (key_bytes 3) 4 0 demo_loop_page 0 empty_ictx = Diverge.
Proof.
  induction fuel as [|fuel IH]; [reflexivity|]. cbn [descend]. set (p := demo_loop_page) in *. cbv zeta.
  assert (check_index_block 12 (block_size demo_index) 0 p (vcn_ofs 12 (vcn_size_bits demo_index) 0) = Ret (Some 64)) as -> by (by vm_compute).
  rewrite bind_Ret.
  assert (rd_le32 p (vcn_ofs 12 (vcn_size_bits demo_index) 0 + IA_index + IH_entries_offset) = Ret 16) as -> by (by vm_compute).
  rewrite bind_Ret.
  assert (index_walk (walk_fuel 64) p (vcn_ofs 12 (vcn_size_bits demo_index) 0) 64 (collation_rule demo_index) (key_bytes 3) 4
    (vcn_ofs 12 (vcn_size_bits demo_index) 0 + IA_index + 16) = Ret (WStop 40)) as -> by (by vm_compute).
  rewrite bind_Ret. assert (rd_le16 p (40 + IE_flags) = Ret 3) as -> by (by vm_compute). rewrite bind_Ret. cbn [Z.land INDEX_ENTRY_NODE Pos.land Z.eqb].
  assert (rd_u8 p (vcn_ofs 12 (vcn_size_bits demo_index) 0 + IA_index + IH_flags) = Ret 1) as -> by (by vm_compute). rewrite bind_Ret.
  assert (child_vcn p 40 = Ret 0) as -> by (by vm_compute). rewrite bind_Ret. exact IH.
Qed.
