(* ===== verification/MapRunlist.v ===== *)
(** * Mapping runlists of inodes

    Models [ntfs_map_runlist_nolock], [ntfs_map_runlist],
    [ntfs_attr_vcn_to_lcn_nolock] and [ntfs_attr_find_vcn_nolock] of
    [src/ntfs/attrib.c]: how the runlist of an attribute is read in piece by piece,
    by looking up the attribute extent that has a VCN and merging its mapping pairs
    into the runlist.

    The runlist of an inode has a lock, which these functions drop and take again;
    what others do to the runlist meanwhile is a list of functions, one for each time
    the lock is taken. *)

From Stdlib Require Import ZArith Lia Bool.
From stdpp Require Import base list numbers option gmap.
From S2P Require Import Prelude Endian Runlist RunlistMerge MappingPairs Unistr Collate Attrib MftMap AttrLookup.

(** ** The inode of an attribute *)

(** How this thread holds [runlist.lock]. *)
Inductive rwsem := Unlocked | Reading | Writing.

(** The members of [ntfs_inode] (inode.h) that describe an attribute; [ai_base] is
    the inode itself, or the base inode when [NInoAttr] holds. *)
Record attr_inode := mk_attr_inode {
  ai_base : ptr;
  ai_type : Z;
  ai_name : option (list Z);
  ai_name_len : Z;
  ai_non_resident : bool;
  ai_allocated_size : Z;
  ai_rl : option rl_buf;
  ai_lock : rwsem;
}.

Definition set_rl (rl : option rl_buf) (ni : attr_inode) : attr_inode :=
  mk_attr_inode (ai_base ni) (ai_type ni) (ai_name ni) (ai_name_len ni) (ai_non_resident ni) (ai_allocated_size ni) rl (ai_lock ni).
Definition set_lock (l : rwsem) (ni : attr_inode) : attr_inode :=
  mk_attr_inode (ai_base ni) (ai_type ni) (ai_name ni) (ai_name_len ni) (ai_non_resident ni) (ai_allocated_size ni) (ai_rl ni) l.

(** What the other holders of the lock do to the runlist. *)
Abbreviation others := (list (option rl_buf -> option rl_buf)).

(** Takes the lock, after whatever the others did; [up_read]/[down_write] and
    [up_write]/[down_read] in sequence. *)
Definition relock (l : rwsem) (ni : attr_inode) (o : others) : attr_inode * others :=
  match o with
  | [] => (set_lock l ni, [])
  | f :: o => (set_lock l (set_rl (f (ai_rl ni)) ni), o)
  end.

(** A search context of the caller: NULL, or the context with the error that its
    @mrec has become, if it has. *)
Abbreviation ctxp := (option (ntfs_attr_search_ctx * option Z)).

(** [ERR_PTR] results as values. *)
Definition catch {A} (o : outcome A) : outcome (Z + A) :=
  match o with
  | Ret a => Ret (inr a)
  | Errno e => Ret (inl (- e))
  | Bug => Bug
  | Fault => Fault
  | Diverge => Diverge
  end.

(** The bytes of a name. *)
Definition name_bytes (name : option (list Z)) : list Z := concat (le_split 2 <$> default [] name).

Section MapRunlist.
Context `{KA : KernelAlloc} (vol : ntfs_volume).
Context (upcase : list Z) (upcase_len : Z).
Context (read_mapping_page : Z -> Z + (list Z * bool)) (i_size mft_record_size_bits PAGE_CACHE_SHIFT : Z).

(** ** ntfs_map_runlist_nolock *)

(** Is @vcn out of bounds, or in the attribute extent the context is at? *)
Definition extent_in_ctx (ni : attr_inode) (vcn : Z) (m : list Z) (a : Z) : outcome bool :=
  highest_vcn ← rd_sle64 m (a + ATTR_highest_vcn);
  lowest_vcn ← rd_sle64 m (a + ATTR_lowest_vcn);
  let allocated_size_vcn := Z.shiftr (ai_allocated_size ni) (vol_cluster_size_bits vol) in
  let end_vcn := if (lowest_vcn =? 0) && (highest_vcn <=? 0) then allocated_size_vcn - 1 else highest_vcn in
  if vcn >=? allocated_size_vcn then Ret true
  else
    type ← rd_le32 m (a + A_type);
    if negb (type =? ai_type ni) then Ret false
    else
      name_length ← rd_u8 m (a + A_name_length);
      if negb (name_length =? ai_name_len ni) then Ret false
      else
        name_offset ← rd_le16 m (a + A_name_offset);
        rc ← memcmp (Z.to_nat (ai_name_len ni)) (drop (Z.to_nat (a + name_offset)) m) (name_bytes (ai_name ni)) 0;
        Ret ((rc =? 0) && (lowest_vcn <=? vcn) && (end_vcn >=? vcn)).

(** The lookup of the attribute extent with @vcn. *)
Definition lookup_extent (ni : attr_inode) (vcn : Z) (ctx : ntfs_attr_search_ctx) : M (ntfs_attr_search_ctx * Z) :=
  r ← ntfs_attr_lookup upcase upcase_len read_mapping_page i_size mft_record_size_bits PAGE_CACHE_SHIFT
        (mk_search (ai_type ni) (ai_name ni) (ai_name_len ni) CASE_SENSITIVE vcn None 0) ctx;
  let '(ctx, err) := r in
  if negb (err =? 0) then mret (ctx, if err =? - ENOENT then - EIO else err)
  else
    non_resident ← lift (rd_u8 (mrec ctx) (attr ctx + A_non_resident));
    assert_not (non_resident =? 0);;
    mret (ctx, 0).

(** Decompresses the attribute extent the context is at, if it has @vcn. *)
Definition map_extent_rl (ni : attr_inode) (vcn : Z) (ctx : ntfs_attr_search_ctx) : outcome (attr_inode * Z) :=
  highest_vcn ← rd_sle64 (mrec ctx) (attr ctx + ATTR_highest_vcn);
  let end_vcn := s64 (highest_vcn + 1) in
  if negb (vcn =? 0) && (vcn >=? end_vcn) then Ret (ni, - ENOENT)
  else
    r ← catch (ntfs_mapping_pairs_decompress vol (drop (Z.to_nat (attr ctx)) (mrec ctx)) (ai_rl ni));
    match r with
    | inl err => Ret (ni, err)
    | inr rl => Ret (set_rl rl ni, 0)
    end.

(** Both, as @ctx_needs_reset says. *)
Definition find_and_map (ni : attr_inode) (vcn : Z) (ctx : ntfs_attr_search_ctx) : M (attr_inode * ntfs_attr_search_ctx * Z) :=
  r ← lookup_extent ni vcn ctx;
  let '(ctx, err) := r in
  if negb (err =? 0) then mret (ni, ctx, err)
  else r ← lift (map_extent_rl ni vcn ctx); mret (fst r, ctx, snd r).

(** Without a context: a temporary one. *)
Definition map_runlist_temporary (ni : attr_inode) (vcn : Z) : M (attr_inode * Z) :=
  let base_ni := ai_base ni in
  m ← map_mft_record read_mapping_page i_size mft_record_size_bits PAGE_CACHE_SHIFT base_ni;
  match m with
  | inl err => mret (ni, err)
  | inr m =>
      ctx ← ntfs_attr_get_search_ctx base_ni m;
      match ctx with
      | None => unmap_mft_record base_ni;; mret (ni, - ENOMEM)
      | Some ctx =>
          r ← find_and_map ni vcn ctx;
          let '(ni, ctx, err) := r in
          ntfs_attr_put_search_ctx ctx;;
          unmap_mft_record base_ni;;
          mret (ni, err)
      end
  end.

(** The extent inode a context has mapped. *)
Definition ctx_extent (ctx : ntfs_attr_search_ctx) : option ptr :=
  match base_ntfs_ino ctx with
  | Some b => if bool_decide (ntfs_ino ctx = b) then None else Some (ntfs_ino ctx)
  | None => None
  end.

(** [retry_map]: the record of the extent the context stood in is mapped again.
    The page cache is a function, so a page that cannot be read for want of memory
    is retried forever. *)
Definition retry_map (ni : ptr) : M (Z + list Z) :=
  m ← map_mft_record read_mapping_page i_size mft_record_size_bits PAGE_CACHE_SHIFT ni;
  match m with
  | inl err => if err =? - ENOMEM then hang else mret (inl err)
  | inr m => mret (inr m)
  end.

(** Restores the context [old] after a search that ended in [ctx].  Records are
    bytes here, so the pointers into a record that moved are offsets that stay. *)
Definition restore_ctx (base_ni : ptr) (ctx old : ntfs_attr_search_ctx) : M (ntfs_attr_search_ctx * option Z) :=
  base ← get base_ni;
  if bool_decide (attr_list base = None) then mret (old, None)
  else if bool_decide (ntfs_ino ctx = ntfs_ino old) then mret (ctx_set_ino (mrec ctx) (ntfs_ino old) old, None)
  else
    m ← match ctx_extent ctx with
        | Some ni => unmap_extent_mft_record ni;; match base_mrec ctx with Some m => mret m | None => bug end
        | None => mret (mrec ctx)
        end;
    match ctx_extent old with
    | None => mret (ctx_set_ino m (ntfs_ino old) old, None)
    | Some ni =>
        m' ← retry_map ni;
        match m' with
        | inr m' => mret (ctx_set_ino m' ni old, None)
        | inl err => mret (ctx_set_ino (mrec old) (default ni (base_ntfs_ino old)) old, Some err)
        end
    end.

(** With the context of the caller, which is left where it was. *)
Definition map_runlist_in_ctx (ni : attr_inode) (vcn : Z) (ctx : ntfs_attr_search_ctx)
    : M (attr_inode * (ntfs_attr_search_ctx * option Z) * Z) :=
  non_resident ← lift (rd_u8 (mrec ctx) (attr ctx + A_non_resident));
  assert_not (non_resident =? 0);;
  here ← lift (extent_in_ctx ni vcn (mrec ctx) (attr ctx));
  if (here : bool) then r ← lift (map_extent_rl ni vcn ctx); mret (fst r, (ctx, None), snd r)
  else
    let old := ctx in
    put_this_page ← match ctx_extent old with
                    | None => mret None
                    | Some p =>
                        i ← get p;
                        match page i with
                        | None => crash
                        | Some pg => set_pinned (cons pg);; mret (Some pg)
                        end
                    end;
    ctx ← ntfs_attr_reinit_search_ctx ctx;
    r ← find_and_map ni vcn ctx;
    let '(ni, ctx, err) := r in
    restored ← restore_ctx (ai_base ni) ctx old;
    match put_this_page with Some pg => ntfs_unmap_page pg | None => mret tt end;;
    mret (ni, restored, err).

Definition ntfs_map_runlist_nolock (ni : attr_inode) (vcn : Z) (ctx : ctxp) : M (attr_inode * ctxp * Z) :=
  match ctx with
  | None => r ← map_runlist_temporary ni vcn; mret (fst r, None, snd r)
  | Some (ctx, e) =>
      assert_not (bool_decide (is_Some e));;
      r ← map_runlist_in_ctx ni vcn ctx;
      let '(ni, c, err) := r in mret (ni, Some c, err)
  end.

(** ** ntfs_map_runlist *)

Definition ntfs_map_runlist (ni : attr_inode) (o : others) (vcn : Z) : M (attr_inode * Z) :=
  match ai_lock ni with
  | Unlocked =>
      let '(ni, o) := relock Writing ni o in
      lcn ← lift (ntfs_rl_vcn_to_lcn (ai_rl ni) vcn);
      if lcn <=? LCN_RL_NOT_MAPPED then
        r ← ntfs_map_runlist_nolock ni vcn None;
        let '(ni, _, err) := r in mret (set_lock Unlocked ni, err)
      else mret (set_lock Unlocked ni, 0)
  | _ => hang
  end.

(** ** ntfs_attr_vcn_to_lcn_nolock *)

(** The error of a lookup as a special LCN. *)
Definition err_to_lcn (err : Z) : Z :=
  if err =? - ENOENT then LCN_ENOENT else if err =? - ENOMEM then LCN_ENOMEM else LCN_EIO.

(** From the label [retry_remap] on. *)
Fixpoint retry_remap (fuel : nat) (ni : attr_inode) (o : others) (vcn : Z) (write_locked is_retry : bool) : M (attr_inode * Z) :=
  match fuel with
  | O => hang
  | S fuel =>
      lcn ← lift (ntfs_rl_vcn_to_lcn (ai_rl ni) vcn);
      if lcn >=? LCN_HOLE then mret (ni, lcn)
      else if negb (lcn =? LCN_RL_NOT_MAPPED) then mret (ni, if lcn =? LCN_ENOENT then lcn else LCN_EIO)
      else if is_retry then mret (ni, lcn)
      else
        let '(ni, o) := if write_locked then (ni, o) else relock Writing ni o in
        done ← (if write_locked then mret false
                else lcn ← lift (ntfs_rl_vcn_to_lcn (ai_rl ni) vcn); mret (negb (lcn =? LCN_RL_NOT_MAPPED)));
        if (done : bool) then
          let '(ni, o) := relock Reading ni o in
          retry_remap fuel ni o vcn write_locked false
        else
          r ← ntfs_map_runlist_nolock ni vcn None;
          let '(ni, _, err) := r in
          let '(ni, o) := if write_locked then (ni, o) else relock Reading ni o in
          if err =? 0 then retry_remap fuel ni o vcn write_locked true
          else mret (ni, err_to_lcn err)
  end.

(** The lock is dropped at most twice in a round that is repeated, and only what
    the others do can make a round be repeated. *)
Definition remap_fuel (o : others) : nat := length o + 3.

Definition ntfs_attr_vcn_to_lcn_nolock (ni : attr_inode) (o : others) (vcn : Z) (write_locked : bool) : M (attr_inode * Z) :=
  assert_not (negb (ai_non_resident ni));;
  assert_not (vcn <? 0);;
  if bool_decide (ai_rl ni = None) && (ai_allocated_size ni =? 0) then mret (ni, LCN_ENOENT)
  else retry_remap (remap_fuel o) ni o vcn write_locked false.

(** ** ntfs_attr_find_vcn_nolock *)

(** The loop over the runlist: the element it ends at, and whether that is
    returned. *)
Fixpoint find_vcn_scan (n : nat) (rl : rl_buf) (i vcn : Z) : outcome (Z * bool) :=
  match n with
  | O => Fault
  | S n =>
      r ← rd rl i;
      if rl_length r =? 0 then Ret (i, false)
      else
        r1 ← rd rl (i + 1);
        if vcn <? rl_vcn r1 then Ret (i, rl_lcn r >=? LCN_HOLE)
        else find_vcn_scan n rl (i + 1) vcn
  end.

(** The element with @vcn, or the error, 0 when it is not mapped. *)
Definition find_vcn_mapped (rl : option rl_buf) (vcn : Z) : outcome (Z + Z) :=
  match rl with
  | None => Ret (inl 0)
  | Some rl =>
      r0 ← rd rl 0;
      if negb (vcn >=? rl_vcn r0) then Ret (inl 0)
      else
        '(i, found) ← find_vcn_scan (length rl) rl 0 vcn;
        if (found : bool) then Ret (inr i)
        else
          r ← rd rl i;
          Ret (inl (if rl_lcn r =? LCN_RL_NOT_MAPPED then 0 else if rl_lcn r =? LCN_ENOENT then - ENOENT else - EIO))
  end.

(** An [ERR_PTR], or the index of the element. *)
Definition ntfs_attr_find_vcn_nolock (ni : attr_inode) (vcn : Z) (ctx : ctxp) : M (attr_inode * ctxp * (Z + Z)) :=
  assert_not (negb (ai_non_resident ni));;
  assert_not (vcn <? 0);;
  if bool_decide (ai_rl ni = None) && (ai_allocated_size ni =? 0) then mret (ni, ctx, inl (- ENOENT))
  else
    r ← lift (find_vcn_mapped (ai_rl ni) vcn);
    match r with
    | inr i => mret (ni, ctx, inr i)
    | inl err =>
        if negb (err =? 0) then mret (ni, ctx, inl err)
        else
          match ctx with
          | None => crash
          | Some (c, Some e) => mret (ni, ctx, inl (if e =? - EINVAL then - EIO else e))
          | Some (c, None) =>
              r ← ntfs_map_runlist_nolock ni vcn ctx;
              let '(ni, ctx, err) := r in
              if negb (err =? 0) then mret (ni, ctx, inl (if err =? - EINVAL then - EIO else err))
              else
                r ← lift (find_vcn_mapped (ai_rl ni) vcn);
                mret (ni, ctx, match r with
                               | inr i => inr i
                               | inl err => inl (if err =? 0 then - EIO else err)
                               end)
          end
    end.
End MapRunlist.
