(* ===== verification/MapRunlistSpec.v ===== *)
(** * Mapping runlists of inodes: what is on disk and what is in memory

    One attribute extent of the disk, the runlists into which it can be merged or
    is merged already, and the step from the ones to the others. *)

From Stdlib Require Import ZArith Lia Bool.
From stdpp Require Import base list numbers option gmap relations.
From S2P Require Import Prelude Endian Runlist RunlistSpec RunlistBuf RunlistMerge RunlistMergeSpec RunlistMergeProof MappingPairs MappingPairsSpec MappingPairsDecode MappingPairsTheorems.
From S2P Require Import Unistr Collate Attrib MftMap MftMapSpec AttrLookup AttrLookupProof AttrLookupInv AttrLookupTheorems AttrSession MapRunlist.

(** ** Reading behind an offset *)

Lemma rd_bytes_drop n (m : list Z) k i : 0 <= k <= zlen m -> 0 <= i -> rd_bytes n (drop (Z.to_nat k) m) i = rd_bytes n m (k + i).
Proof.
  intros Hk Hi. unfold rd_bytes. rewrite (proj2 (Z.leb_le 0 i)), (proj2 (Z.leb_le 0 (k + i))) by lia. cbn [andb].
  assert (Hz : zlen (drop (Z.to_nat k) m) = zlen m - k) by (unfold zlen in *; rewrite length_drop; lia).
  rewrite Hz, drop_drop. replace (Z.to_nat k + Z.to_nat i)%nat with (Z.to_nat (k + i)) by lia.
  destruct (Z.leb_spec (i + Z.of_nat n) (zlen m - k)), (Z.leb_spec (k + i + Z.of_nat n) (zlen m)); lia || done.
Qed.

Lemma rd_sle64_drop (m : list Z) k i : 0 <= k <= zlen m -> 0 <= i -> rd_sle64 (drop (Z.to_nat k) m) i = rd_sle64 m (k + i).
Proof. intros. unfold rd_sle64, rd_le64. by rewrite rd_bytes_drop. Qed.

(** ** One extent *)

Section Extent.
Context `{KA : KernelAlloc} (vol : ntfs_volume).

(** The attribute record at [mem]: the mapping pairs of the runs [l], which cover
    the VCNs from [lowest] below [w]. *)
Record extent_at (mem : list Z) (lowest w : Z) (l : list runlist_element) : Prop := {
  ex_record : exists highest alloc ver post, nonresident mem lowest highest alloc (mapping_pairs ver l) post /\
    highest = w - 1 /\ extent_ok vol lowest highest alloc w l /\ geometry_ok vol alloc;
}.

Lemma extent_chain mem lowest w l : extent_at mem lowest w l -> 0 <= lowest /\ chain lowest l w /\ forallb MappingPairsSpec.mapped l = true.
Proof. intros [(h & a & v & post & _ & _ & (Hl & Hc & Hm & _) & _)]. done. Qed.

(** The LCN of a VCN of the extent. *)
Definition extent_vcn (l : list runlist_element) (vcn : Z) : Z := default LCN_ENOENT (look l vcn).

Lemma look_mapped lowest l w x y : chain lowest l w -> forallb MappingPairsSpec.mapped l = true -> lowest <= x -> look l x = Some y -> LCN_HOLE <= y.
Proof.
  revert lowest. induction l as [|r l IH]; intros v; cbn [look chain forallb]; [done|].
  intros (Hv & Hr & Hc) [Hm Hms]%andb_true_iff Hx. destruct (Z.ltb_spec x (rl_vcn r + rl_length r)).
  - intros [= <-]. apply Z.leb_le in Hm. unfold run_lcn, LCN_HOLE in *. destruct (Z.geb_spec (rl_lcn r) 0); lia.
  - intros E. apply (IH (v + rl_length r) Hc Hms); [lia|done].
Qed.

Lemma extent_vcn_mapped mem lowest w l vcn : extent_at mem lowest w l -> lowest <= vcn < w -> LCN_HOLE <= extent_vcn l vcn.
Proof.
  intros (Hl & Hc & Hm)%extent_chain Hv. unfold extent_vcn. destruct (look_Some lowest l w vcn Hc Hv) as [y Ey]. rewrite Ey.
  apply (look_mapped lowest l w vcn); [done..|lia|done].
Qed.

(** ** The runlist in memory *)

(** [vcn] is mapped, and right. *)
Definition knows (l : list runlist_element) (vcn : Z) (rl : option rl_buf) : Prop :=
  ntfs_rl_vcn_to_lcn rl vcn = Ret (extent_vcn l vcn).

(** The extent is not mapped yet.  Either there is no runlist, or there is a
    well-formed one and the extent is a further one ([0 < lowest]), not the first:
    its VCNs lie inside one element of the runlist, or behind its end, with the
    spare element [mergeable_at] asks for behind a gap. *)
Definition lacks (lowest w : Z) (l : list runlist_element) (vcn : Z) (rl : option rl_buf) : Prop :=
  match rl with
  | None => True
  | Some b => 0 < lowest /\ exists D td sl, b = D ++ td :: sl /\ runlist_wf 0 D td /\ room b (zlen D + 1) /\
      zlen D + zlen l + 3 <= RL_MAX /\ mergeable_at D td l lowest w /\ denote D td vcn = LCN_RL_NOT_MAPPED
  end.

Lemma lacks_not_mapped lowest w l vcn rl : 0 <= vcn <= S64_MAX -> lacks lowest w l vcn rl -> ntfs_rl_vcn_to_lcn rl vcn = Ret LCN_RL_NOT_MAPPED.
Proof.
  intros Hv. destruct rl as [b|]; cbn [lacks].
  - intros (_ & D & td & sl & -> & Hwf & _ & _ & _ & Hd). rewrite (vcn_to_lcn_denote _ D td 0) by (done || lia || by eexists).
    destruct (Z.ltb_spec vcn 0); [lia|]. by rewrite Hd.
  - intros _. unfold ntfs_rl_vcn_to_lcn, BUG_ON. destruct (Z.ltb_spec vcn 0); [lia|done].
Qed.

(** Decompressing the extent makes it known. *)
Lemma decompress_knows mem lowest w l vcn rl :
  extent_at mem lowest w l -> lowest <= vcn < w -> vcn <= S64_MAX -> lacks lowest w l vcn rl ->
  ntfs_mapping_pairs_decompress vol mem rl = Errno ENOMEM \/
  exists b, ntfs_mapping_pairs_decompress vol mem rl = Ret (Some b) /\ knows l vcn (Some b).
Proof.
  intros Hex Hv Hmax Hl. pose proof (extent_chain _ _ _ _ Hex) as (Hlow & Hch & _). destruct (look_Some lowest l w vcn Hch Hv) as [y Ey].
  destruct Hex as [(highest & alloc & ver & post & Hnr & Hh & Hok & Hgeo)]. destruct rl as [b|]; cbn [lacks] in Hl.
  - destruct Hl as (Hpos & D & td & sl & -> & Hwf & Hroom & Hrl & Hat & _).
    destruct (decompress_merges vol mem lowest highest alloc ver l w post D td sl Hnr Hok Hpos Hwf Hroom Hrl Hat) as [|(b & L & t & E & _ & _ & Hx)]; [by left|].
    right. exists b. split; [done|]. unfold knows, extent_vcn. rewrite Hx by lia. unfold overlay.
    rewrite (proj2 (Z.leb_le lowest vcn)), (proj2 (Z.ltb_lt vcn w)) by lia. cbn [andb]. by rewrite Ey.
  - destruct (decompress_denotes vol mem lowest highest alloc ver l w post Hnr Hok Hgeo) as [|(b & L & t & E & _ & _ & Hx)]; [by left|].
    right. exists b. split; [done|]. unfold knows, extent_vcn. rewrite Hx by lia. unfold extent_lcn.
    destruct (Z.ltb_spec vcn lowest); [lia|]. destruct (Z.ltb_spec vcn w); [|lia]. by rewrite Ey.
Qed.
End Extent.

(** ** What is held

    [ntfs_map_runlist_nolock] leaves the search context of its caller where it was, and
    without one keeps nothing: the state of a search through the steps that save and
    restore the context. *)

(** A sequence that returned. *)
Lemma M_bind_inv {A B} (m : M A) (f : A -> M B) w r : (m ≫= f) w = Ret r -> exists w' a, m w = Ret (w', a) /\ f a w' = Ret r.
Proof. unfold mbind, M_bind. intros ([w' a] & E & H)%bind_Ret_inv. eauto. Qed.

Lemma lift_inv {A} (o : outcome A) w w' a : lift o w = Ret (w', a) -> w' = w /\ o = Ret a.
Proof. unfold lift. intros (x & E & [= <- <-])%bind_Ret_inv. auto. Qed.

Lemma assert_not_inv b w w' u : assert_not b w = Ret (w', u) -> w' = w /\ b = false.
Proof. intros [-> H]%lift_inv. split; [done|]. by destruct b. Qed.

Lemma wp_inv {A} (m : M A) w Q w' a : wp m w Q -> m w = Ret (w', a) -> Q w' a.
Proof. unfold wp. intros H E. by rewrite E in H. Qed.

(** Takes a sequence apart that returned. *)
Tactic Notation "munbind" ident(H) "as" simple_intropattern(w) simple_intropattern(a) simple_intropattern(E) :=
  apply M_bind_inv in H as (w & a & E & H).

Section Compose.
Context (bits shift : Z) (base : ptr).
Local Abbreviation State := (State bits shift).
Local Abbreviation rec_page := (rec_page bits shift).

(** A search that starts where another one left off. *)
Lemma State_trans w0 b0 w1 b1 w2 cur : inodes w0 !! base = Some b0 ->
  State w0 base b0 w1 None -> inodes w1 !! base = Some b1 -> State w1 base b1 w2 cur -> State w0 base b0 w2 cur.
Proof.
  intros Hb0 (ii1 & inos1 & [(b & n & e & [Hb _ _ _ _] & Eb) Hidle1 Hold1 Hnew1] & Hw1 & Hp1) Hb1
    (ii & inos & [(b' & n' & e' & Hok & ->) Hidle Hold Hnew] & Hc). subst ii1. cbn in Hb. rewrite Hb in Hb1. injection Hb1 as <-. subst b.
  exists ii, inos. split; [|rewrite <- Hp1; exact Hc]. split; [by exists (set_ext n' e' b0), n', e'|done|auto|].
  intros p j Hp Hj. destruct (inodes w1 !! p) as [k|] eqn:Ek; [|by apply (Hnew p j)].
  assert (Hne : p <> base) by congruence. rewrite (Hold p k Hne Ek) in Hj. injection Hj as <-. by apply (Hnew1 p k).
Qed.

Lemma State_start w0 b0 w1 b1 : State w0 base b0 w1 None -> inodes w1 !! base = Some b1 -> State w1 base b1 w1 None.
Proof.
  intros (ii & inos & [(b & n & e & Hok & Eb) Hidle Hold Hnew] & Hw & Hp) Hb1. subst ii. exists (inodes w1), inos. split; [|done].
  pose proof Hok as [Hb _ _ _ _]. cbn in Hb. rewrite Hb in Hb1. injection Hb1 as <-. split; try done.
  - exists b, (nr_extents b), (ni_ext b). split; [done|]. by destruct b.
  - intros p j H1 H2. congruence.
Qed.

(** The page of the record that is mapped, pinned once more, and released. *)
Lemma State_pin w0 b0 w p i pg : State w0 base b0 w (Some p) -> inodes w !! p = Some i -> page i = Some pg ->
  State (with_pinned w0 (pg :: pinned w0)) base b0 (with_pinned w (pg :: pinned w)) (Some p).
Proof.
  intros (ii & inos & Hs & Hp & j & Hj & Hid & Hw & Hpin) Hi Hpg. rewrite Hw, lookup_insert_eq in Hi. injection Hi as <-. cbn in Hpg. injection Hpg as <-.
  exists ii, inos. split; [by destruct Hs; split|]. split; [done|]. exists j. split_and!; try done. cbn. by rewrite Hpin.
Qed.

Lemma State_unpin w0 b0 w cur pg : State (with_pinned w0 (pg :: pinned w0)) base b0 w cur ->
  State w0 base b0 (with_pinned w (unpin pg (pinned w))) cur.
Proof.
  intros (ii & inos & Hs & Hc). exists ii, inos. split; [by destruct Hs; split|]. destruct cur as [p|].
  - destruct Hc as (Hp & j & Hj & Hid & Hw & Hpin). split; [done|]. exists j. split_and!; try done. cbn -[unpin]. rewrite Hpin. cbn.
    destruct (Z.eqb_spec (rec_page (mft_no j)) pg) as [->|]; [done|]. by rewrite Z.eqb_refl.
  - destruct Hc as [Hw Hpin]. split; [done|]. cbn -[unpin]. rewrite Hpin. apply unpin_cons.
Qed.
End Compose.

Section Hold.
Context `{KA : KernelAlloc} (vol : ntfs_volume).
Context (upcase : list Z) (upcase_len : Z).
Context (read_mapping_page : Z -> Z + (list Z * bool)) (i_size bits shift : Z).
Hypothesis Hbits : 8 <= bits <= shift.
Hypothesis Hshift : shift < 31.
Hypothesis Hpages : forall n data err, read_mapping_page n = inr (data, err) -> zlen data = page_size shift /\ Forall byte_ok data.
Context (base : ptr) (m0 : list Z).

Local Abbreviation lookup := (ntfs_attr_lookup upcase upcase_len read_mapping_page i_size bits shift).
Local Abbreviation find_map := (find_and_map vol upcase upcase_len read_mapping_page i_size bits shift).
Local Abbreviation State w0 b0 := (State bits shift w0 base b0).
Local Abbreviation Inv w0 b0 := (Inv bits shift w0 base b0 m0).

(** Without an attribute list the context never leaves the base record. *)
Definition listless (b0 : ntfs_inode) (ctx : ntfs_attr_search_ctx) : Prop := attr_list b0 = None -> base_ntfs_ino ctx = None.

Lemma map_extent_rl_inv ni vcn ctx ni' err : map_extent_rl vol ni vcn ctx = Ret (ni', err) -> ai_base ni' = ai_base ni /\ (err <> 0 -> ni' = ni).
Proof.
  unfold map_extent_rl. intros (h & _ & E)%bind_Ret_inv. destruct (_ && _); [by injection E as <- <-|].
  apply bind_Ret_inv in E as ([e|rl] & _ & E); by injection E as <- <-.
Qed.

Section Search.
Context (w0 : world) (b0 : ntfs_inode) (Hcall : caller_ok w0 base b0 m0).

Lemma lookup_listless s w ctx w' r : Inv w0 b0 w ctx -> listless b0 ctx -> lookup s ctx w = Ret (w', r) -> listless b0 (fst r).
Proof.
  intros Hinv Hl E Hn. specialize (Hl Hn). pose proof Hinv as (cur & Hs & [((Hino & Hmb & Hat & _) & _ & ->)|(_ & Hb & _)]); [|congruence].
  destruct (State_base _ _ _ _ _ _ _ Hs) as (n & e & Hb). unfold ntfs_attr_lookup in E. rewrite Hl in E. cbn [default] in E. cbn in Hino. rewrite Hino in E.
  rewrite (M_run _ _ w w _ (get_eq _ _ _ Hb)) in E. change (attr_list (set_ext n e b0)) with (attr_list b0) in E. rewrite Hn in E.
  rewrite bool_decide_eq_true_2 in E by done. cbn [orb] in E.
  destruct (wp_inv _ _ _ _ _ (attr_find_ends upcase upcase_len s ctx w Hmb Hat) E) as (_ & _ & _ & a & -> & _). exact Hl.
Qed.

Lemma find_map_inv ni vcn w ctx w' ni' ctx' err :
  Inv w0 b0 w ctx -> listless b0 ctx -> find_map ni vcn ctx w = Ret (w', (ni', ctx', err)) ->
  Inv w0 b0 w' ctx' /\ listless b0 ctx' /\ ai_base ni' = ai_base ni /\ (err <> 0 -> ni' = ni).
Proof.
  intros Hinv Hl E. munbind E as w1 [c1 e1] E1. munbind E1 as w2 [c2 e2] E2.
  assert (Hi2 : Inv w0 b0 w2 c2) by (eapply step_inv; [done..|by eapply Step_lookup]).
  pose proof (lookup_listless _ _ _ _ _ Hinv Hl E2) as Hl2. cbn [fst] in Hl2.
  destruct (Z.eqb_spec e2 0) as [->|He2]; cbn [negb] in E1.
  - munbind E1 as w3 nr [-> Enr]%lift_inv. munbind E1 as w3 u [-> Hnr]%assert_not_inv. injection E1 as <- <- <-. cbn [Z.eqb negb] in E.
    munbind E as w3 [ni1 e3] [-> Em]%lift_inv. injection E as <- <- <- <-. apply map_extent_rl_inv in Em as [H1 H2]. done.
  - injection E1 as <- <- <-. destruct (Z.eqb_spec (if e2 =? - ENOENT then - EIO else e2) 0) as [Hz|Hz].
    + exfalso. revert Hz. destruct (Z.eqb_spec e2 (- ENOENT)); unfold EIO; lia.
    + cbn [negb] in E. injection E as <- <- <- <-. done.
Qed.

(** Where a context stands: in the record of [cur]. *)
Definition ctx_at (ctx : ntfs_attr_search_ctx) (cur : option ptr) : Prop :=
  (ctx_in base m0 ctx cur /\ base_ntfs_ino ctx = None /\ cur = None) \/ ctx_ext base m0 ctx cur.

Lemma ctx_at_extent ctx cur : cur <> Some base -> ctx_at ctx cur -> ctx_extent ctx = cur /\ ntfs_ino ctx = default base cur.
Proof.
  intros Hne [((Hino & _) & Hbn & ->)|((Hino & _) & Hbn & _)]; unfold ctx_extent; rewrite Hbn, Hino; [done|].
  destruct cur as [p|]; cbn; [rewrite bool_decide_eq_false_2 by congruence|rewrite bool_decide_eq_true_2 by done]; done.
Qed.

Lemma State_not_base w cur : State w0 b0 w cur -> cur <> Some base.
Proof. intros Hs ->. by apply State_cur in Hs. Qed.

(** The saved context with the record that is mapped now. *)
Lemma ctx_at_record old cur m : ctx_at old cur -> Forall byte_ok m -> (cur = None -> m = m0) -> ctx_at (ctx_set_ino m (ntfs_ino old) old) cur.
Proof.
  intros [((Hino & _ & Hat & Hale & _) & Hbn & ->)|((Hino & _ & Hat & Hale & _) & Hbn & Hbm & Hba)] Hm Hc; [left|right]; by repeat split.
Qed.

(** Mapping again the record of an extent that is attached. *)
Lemma retry_map_state w p j w' r : State w0 b0 w None -> p <> base -> inodes w0 !! p = Some j -> idle j ->
  retry_map read_mapping_page i_size bits shift p w = Ret (w', r) ->
  match r with inl _ => State w0 b0 w' None | inr m => State w0 b0 w' (Some p) /\ Forall byte_ok m end.
Proof.
  intros Hs Hp Hj Hid E. pose proof Hs as (ii & inos & Hse & Hw & Hpin).
  assert (Hj' : inodes w !! p = Some j) by (rewrite Hw; by apply (se_old _ _ _ _ _ Hse)).
  destruct (map_record_spec read_mapping_page i_size bits shift Hbits Hshift ltac:(intros; by eapply Hpages) w p j Hj' Hid) as (r' & errs & Hr & Em).
  unfold retry_map in E. rewrite (M_run _ _ _ _ _ Em) in E. destruct r' as [e|m].
  - destruct (e =? - ENOMEM); [done|]. injection E as <- <-. cbn [after_map]. apply (State_same _ _ _ _ _ w); [by destruct errs..|done].
  - injection E as <- <-. inversion Hr as [? (_ & data & Hd & _ & ->) _|]; subst. split.
    + exists (inodes w), inos. split; [done|]. split; [done|]. exists j. split_and!; try done. cbn. by rewrite Hpin.
    + unfold record_at. apply Forall_take, Forall_drop. by eapply Hpages.
Qed.

Lemma restore_inv w ctx old cur w' old' e :
  Inv w0 b0 w ctx -> listless b0 ctx -> listless b0 old -> cur <> Some base -> ctx_at old cur ->
  (forall p, cur = Some p -> exists j, inodes w0 !! p = Some j /\ idle j) ->
  restore_ctx read_mapping_page i_size bits shift base ctx old w = Ret (w', (old', e)) ->
  match e with
  | None => State w0 b0 w' cur /\ ctx_at old' cur /\ old' = ctx_set_ino (mrec old') (ntfs_ino old) old
  | Some _ => State w0 b0 w' None /\ ntfs_ino old' = base /\ base_ntfs_ino old' = Some base
  end.
Proof.
  intros (cur2 & Hs & Hx) Hl Hlo Hcb Hold Hp E. pose proof (State_not_base _ _ Hs) as Hcb2.
  destruct (ctx_at_extent old cur Hcb Hold) as [Hoe Hoi]. destruct (ctx_at_extent ctx cur2 Hcb2 Hx) as [Hce Hci].
  destruct (State_base _ _ _ _ _ _ _ Hs) as (n & ex & Hb). unfold restore_ctx in E. rewrite (M_run _ _ w w _ (get_eq _ _ _ Hb)) in E.
  change (attr_list (set_ext n ex b0)) with (attr_list b0) in E. case_bool_decide as Hn.
  { injection E as <- <- <-. specialize (Hl Hn). specialize (Hlo Hn).
    destruct Hx as [(_ & _ & ->)|(_ & Hbn & _)]; [|congruence]. destruct Hold as [(Hin & Hbn & ->)|(_ & Hbn & _)]; [|congruence].
    split_and!; [done|by left|by destruct old]. }
  assert (Hmb : Forall byte_ok (mrec ctx) /\ (cur2 = None -> mrec ctx = m0)) by (destruct Hx as [((_ & H1 & _ & _ & H2) & _)|((_ & H1 & _ & _ & H2) & _)]; done).
  destruct Hmb as [Hmb Hm2]. case_bool_decide as Hsame.
  { injection E as <- <- <-. rewrite Hoi, Hci in Hsame. assert (cur2 = cur) as -> by (destruct cur, cur2; cbn in Hsame; congruence).
    split_and!; [done|by apply ctx_at_record|done]. }
  munbind E as w2 m Em.
  assert (Hs2 : State w0 b0 w2 None /\ m = m0).
  { rewrite Hce in Em. destruct cur2 as [p|]; [|injection Em as <- <-; auto]. munbind Em as w3 u Eu.
    destruct (unmap_extent_returns _ _ _ _ _ _ _ Hs) as (w4 & E4 & Hs4). rewrite E4 in Eu. injection Eu as <- <-.
    destruct Hx as [(_ & _ & [=])|(_ & _ & Hbm & _)]. rewrite Hbm in Em. by injection Em as <- <-. }
  destruct Hs2 as [Hs2 ->]. rewrite Hoe in E. destruct cur as [p|].
  - destruct (Hp p eq_refl) as (j & Hj & Hid). munbind E as w3 r Er. apply (retry_map_state w2 p j w3 r Hs2) in Er; [|congruence|done..].
    destruct r as [e'|m']; injection E as <- <- <-.
    + destruct Hold as [(_ & _ & [=])|(_ & Hbn & _)]. rewrite Hbn. done.
    + destruct Er as [Hs3 Hm']. cbn in Hoi. split_and!; [done| |by rewrite Hoi]. pose proof (ctx_at_record old (Some p) m' Hold Hm' ltac:(done)) as H. by rewrite Hoi in H.
  - injection E as <- <- <-. split_and!; [done| |done]. apply ctx_at_record; [done| |done]. by destruct Hcall.
Qed.
End Search.

(** Starting over: the extent that was mapped stays attached. *)
Lemma reinit_keeps w0 b0 w ctx cur w' ctx' : Forall byte_ok m0 ->
  State w0 b0 w cur -> ctx_at ctx cur -> ntfs_attr_reinit_search_ctx ctx w = Ret (w', ctx') ->
  State w0 b0 w' None /\ ctx_at ctx' None /\ base_ntfs_ino ctx' = None /\ forall p, cur = Some p -> exists j, inodes w' !! p = Some j /\ idle j.
Proof.
  intros Hm Hs Hx E. assert (Hinv : Inv w0 b0 w ctx) by (by exists cur).
  destruct (wp_inv _ _ _ _ _ (reinit_inv _ _ _ _ _ _ _ _ Hinv) E) as (Hs' & Ha & Hc'). split; [done|]. split; [|split; [by rewrite Hc'|]].
  - left. rewrite Hc'. pose proof (first_attr_nonneg _ _ Hm Ha). by repeat split.
  - intros p ->. destruct Hx as [(_ & _ & [=])|((Hino & _) & Hbn & Hbm & _)]. cbn in Hino.
    pose proof Hs as (ii & inos & _ & Hpb & j & Hj & Hid & Hw & _).
    unfold ntfs_attr_reinit_search_ctx in E. rewrite Hbn, Hbm, Hino in E. rewrite bool_decide_eq_false_2 in E by done. munbind E as w3 u Eu.
    unfold unmap_extent_mft_record in Eu. rewrite (unmap_record_spec bits shift w p j) in Eu; [|by rewrite Hw, lookup_insert_eq|done].
    injection Eu as <- <-. apply lift_inv in E as [-> _]. exists j. split; [|done]. cbn. by rewrite lookup_insert_eq.
Qed.

(** The caller of the search that follows. *)
Lemma settled_caller w0 b0 w : caller_ok w0 base b0 m0 -> State w0 b0 w None ->
  exists b, inodes w !! base = Some b /\ attr_list b = attr_list b0 /\ caller_ok w base b m0.
Proof.
  intros [_ Hm Hal] (ii & inos & [(b & n & e & Hok & ->) Hidle _ _] & Hw & _). subst ii. exists (set_ext n e b0).
  pose proof Hok as [Hb _ _ _ _]. split_and!; try done. constructor; [|done..]. exists inos. split; [|done]. by apply (base_ok_same base (mk_world (inodes w) [] false [])).
Qed.

(** The page of the record the context is in, pinned once more. *)
Definition pinned_more (w : world) (pg : option Z) : world := match pg with Some pg => with_pinned w (pg :: pinned w) | None => w end.

Lemma pin_state w0 b0 w ctx cur w' pg : State w0 b0 w cur -> ctx_extent ctx = cur ->
  match ctx_extent ctx with
  | None => mret None
  | Some p => i ← get p; match page i with None => crash | Some pg => set_pinned (cons pg);; mret (Some pg) end
  end w = Ret (w', pg) ->
  State (pinned_more w0 pg) b0 w' cur.
Proof.
  intros Hs ->. destruct cur as [p|]; [|by intros [= <- <-]]. intros E. munbind E as w2 i Ei.
  unfold get in Ei. destruct (inodes w !! p) as [i'|] eqn:Ei'; [|done]. injection Ei as <- <-.
  destruct (page i') as [pg'|] eqn:Epage; [|done]. munbind E as w2 u Eu. injection Eu as <- <-. injection E as <- <-. by eapply State_pin.
Qed.

Lemma unpin_state w0 b0 w cur pg w' u : State (pinned_more w0 pg) b0 w cur ->
  match pg with Some pg => ntfs_unmap_page pg | None => mret tt end w = Ret (w', u) -> State w0 b0 w' cur.
Proof. destruct pg as [pg|]; cbn [pinned_more]; intros Hs [= <- <-]; [by apply State_unpin|done]. Qed.

(** The whole function with a context. *)
Lemma in_ctx_inv w0 b0 ni vcn w ctx w' ni' ctx' e err :
  caller_ok w0 base b0 m0 -> Inv w0 b0 w ctx -> listless b0 ctx -> ai_base ni = base ->
  map_runlist_in_ctx vol upcase upcase_len read_mapping_page i_size bits shift ni vcn ctx w = Ret (w', (ni', (ctx', e), err)) ->
  (err <> 0 -> ni' = ni) /\
  match e with
  | None => Inv w0 b0 w' ctx' /\ ctx' = ctx_set_ino (mrec ctx') (ntfs_ino ctx) ctx
  | Some _ => State w0 b0 w' None /\ ntfs_ino ctx' = base /\ base_ntfs_ino ctx' = Some base
  end.
Proof.
  intros Hcall Hinv Hl Hb E. unfold map_runlist_in_ctx in E.
  munbind E as w1 nr [-> _]%lift_inv. munbind E as w1 u [-> _]%assert_not_inv. munbind E as w1 here [-> _]%lift_inv. destruct here.
  { munbind E as w1 [n1 e1] [-> Em]%lift_inv. injection E as <- <- <- <- <-. apply map_extent_rl_inv in Em as [_ H]. split_and!; try done. by destruct ctx. }
  pose proof Hinv as (cur & Hs & Hx). pose proof (State_not_base _ _ _ _ Hs) as Hcb. destruct (ctx_at_extent ctx cur Hcb Hx) as [Hce Hci].
  munbind E as w1 pg Epg. pose proof (pin_state _ _ _ _ _ _ _ Hs Hce Epg) as Hs1. set (w0p := pinned_more w0 pg) in *.
  assert (Hcallp : caller_ok w0p base b0 m0) by (unfold w0p, pinned_more; destruct pg; [|done]; by destruct Hcall as [(inos & [] & ?) ? ?]; split; [exists inos|..]).
  munbind E as w2 c2 E2. destruct (reinit_keeps _ _ _ _ _ _ _ (ca_bytes _ _ _ _ Hcall) Hs1 Hx E2) as (Hs2 & Hx2 & Hbn2 & Hcur).
  destruct (settled_caller _ _ _ Hcallp Hs2) as (b2 & Hb2 & Hal2 & Hcall2).
  munbind E as w3 [[n3 c3] e3] E3.
  destruct (find_map_inv w2 b2 Hcall2 ni vcn w2 c2 w3 n3 c3 e3) as (Hi3 & Hl3 & Hb3 & Hn3); [|by intros _|done|].
  { exists None. split; [by eapply State_start|done]. }
  munbind E as w4 [old' e'] E4. rewrite Hb3, Hb in E4.
  pose proof (restore_inv w2 b2 Hcall2 w3 c3 ctx cur w4 old' e' Hi3 Hl3 ltac:(unfold listless; by rewrite Hal2) Hcb Hx Hcur E4) as Hr.
  munbind E as w5 u' E5. injection E as <- <- <- <- <-. split; [done|].
  assert (Hb0p : inodes w0p !! base = Some b0) by (by apply caller_base in Hcallp).
  destruct e' as [e'|].
  - destruct Hr as (Hs4 & H1 & H2). split_and!; try done. eapply unpin_state; [|exact E5]. by eapply State_trans.
  - destruct Hr as (Hs4 & Hx4 & H1). split; [|done]. exists cur. split; [|done]. eapply unpin_state; [|exact E5]. by eapply State_trans.
Qed.

End Hold.

Section Theorems.
Context `{KA : KernelAlloc} (vol : ntfs_volume).
Context (upcase : list Z) (upcase_len : Z).
Context (read_mapping_page : Z -> Z + (list Z * bool)) (i_size bits shift : Z).
Hypothesis Hbits : 8 <= bits <= shift.
Hypothesis Hshift : shift < 31.
Hypothesis Hpages : forall n data err, read_mapping_page n = inr (data, err) -> zlen data = page_size shift /\ Forall byte_ok data.

Lemma released_errors w base i (b : bool) : inodes w !! base = Some i -> released w base i (if b then with_errors w else w).
Proof.
  intros Hb. split_and!; [by destruct b| |exists (nr_extents i), (ni_ext i); destruct b; by destruct i|].
  - intros p j _ Hj. by destruct b.
  - intros p j H1 H2. destruct b; cbn in H2; congruence.
Qed.

(** Without a context nothing is kept. *)
Lemma temporary_inv w i ni vcn w' ni' err : session_caller w (ai_base ni) i ->
  map_runlist_temporary vol upcase upcase_len read_mapping_page i_size bits shift ni vcn w = Ret (w', (ni', err)) ->
  released w (ai_base ni) i w' /\ (err <> 0 -> ni' = ni).
Proof.
  intros Hc E. pose proof (session_caller_lookup _ _ _ Hc) as Hb. unfold map_runlist_temporary in E. munbind E as w1 r E1.
  destruct (map_record_spec read_mapping_page i_size bits shift Hbits Hshift ltac:(intros; by eapply Hpages) w _ i Hb (sc_idle _ _ _ Hc))
    as (r' & errs & Hr & E1'). rewrite E1' in E1. injection E1 as <- ->. destruct r as [e|m].
  { injection E as <- <- <-. split; [by apply released_errors|done]. }
  inversion Hr; subst. munbind E as w2 [ctx|] E2.
  - destruct (session_start _ _ _ _ Hbits Hshift Hpages _ _ _ _ _ _ _ Hc E1' E2) as (Hcall & Hinv & Hbn).
    munbind E as w3 [[n3 c3] e3] E3.
    destruct (find_map_inv vol upcase upcase_len read_mapping_page i_size bits shift Hbits Hshift Hpages _ _ _ _ Hcall ni vcn w2 ctx w3 n3 c3 e3 Hinv (fun _ => Hbn) E3) as (Hi3 & _ & _ & Hn3).
    destruct (put_unmap _ _ _ _ _ _ _ _ Hc Hi3) as (w4 & w5 & E4 & E5 & Hrel).
    rewrite (M_run _ _ _ _ _ E4), (M_run _ _ _ _ _ E5) in E. by injection E as <- <- <-.
  - destruct (session_no_memory _ _ _ _ _ _ _ Hc E2) as (w3 & E3 & Hrel). rewrite (M_run _ _ _ _ _ E3) in E. by injection E as <- <- <-.
Qed.

(** A context that a caller has from its searches. *)
Lemma reach_listless w0 base b0 m0 ctx0 w ctx : caller_ok w0 base b0 m0 -> ntfs_attr_init_search_ctx base m0 = Ret ctx0 ->
  rtc (ctx_step upcase upcase_len read_mapping_page i_size bits shift) (w0, ctx0) (w, ctx) ->
  Inv bits shift w0 base b0 m0 w ctx /\ listless b0 ctx.
Proof.
  intros Hcall E0 Hr. remember (w0, ctx0) as c0 eqn:Ec0. remember (w, ctx) as c eqn:Ec.
  assert (H0 : Inv bits shift w0 base b0 m0 (fst c0) (snd c0) /\ listless b0 (snd c0)).
  { rewrite Ec0. split; [by apply start_inv|]. by apply bind_Ret_inv in E0 as (a & _ & [= <-]). }
  clear Ec0. induction Hr as [c|[w1 c1] [w2 c2] c3 Hs Hr IH]; [by subst|]. apply IH; [done|]. destruct H0 as [Hi Hl]. cbn [fst snd] in *.
  assert (Hi2 : Inv bits shift w0 base b0 m0 w2 c2) by (by eapply step_inv). split; [done|].
  inversion Hs as [s ???? err E|???? E]; subst.
  - by apply (lookup_listless upcase upcase_len read_mapping_page i_size bits shift base m0 w0 b0 _ _ _ _ _ Hi Hl E).
  - intros _. destruct (wp_inv _ _ _ _ _ (reinit_inv _ _ _ _ _ _ _ _ Hi) E) as (_ & _ & Hc). by rewrite Hc.
Qed.
End Theorems.
