(* ===== verification/MapRunlistTheorems.v ===== *)
(** * Mapping runlists of inodes: theorems

    [ntfs_attr_vcn_to_lcn_nolock] gives the LCN the mapping pairs on disk give,
    whatever others do to the runlist while its lock is dropped, as long as they only
    map more of it; and [ntfs_map_runlist_nolock] gives back everything it takes. *)

From Stdlib Require Import ZArith Lia Bool.
From stdpp Require Import base list numbers option gmap relations.
From S2P Require Import Prelude Endian Runlist RunlistSpec RunlistTheorems MappingPairs MappingPairsSpec MappingPairsDecode MappingPairsTheorems.
From S2P Require Import Unistr Collate Attrib MftMap MftMapSpec AttrLookup AttrLookupProof AttrLookupInv AttrLookupTheorems AttrSession MapRunlist MapRunlistSpec.

Section Vcn.
Context `{KA : KernelAlloc} (vol : ntfs_volume).
Context (upcase : list Z) (upcase_len : Z).
Context (read_mapping_page : Z -> Z + (list Z * bool)) (i_size bits shift : Z).
Hypothesis Hbits : 8 <= bits <= shift.
Hypothesis Hshift : shift < 31.
Hypothesis Hpages : forall n data err, read_mapping_page n = inr (data, err) -> zlen data = page_size shift /\ Forall byte_ok data.

Local Abbreviation lookup := (ntfs_attr_lookup upcase upcase_len read_mapping_page i_size bits shift).
Local Abbreviation map_temporary := (map_runlist_temporary vol upcase upcase_len read_mapping_page i_size bits shift).
Local Abbreviation remap := (retry_remap vol upcase upcase_len read_mapping_page i_size bits shift).

(** What [lookup_extent] searches for. *)
Definition extent_search (ni : attr_inode) (vcn : Z) : search := mk_search (ai_type ni) (ai_name ni) (ai_name_len ni) CASE_SENSITIVE vcn None 0.

(** The lookup of the extent with [vcn] from the world [w] on finds the extent of
    the runs [l]. *)
Record reaches_extent (w : world) (i : ntfs_inode) (base : ptr) (s : search) (lowest we : Z) (l : list runlist_element) : Prop := {
  re_caller : session_caller w base i;
  re_steps : exists w1 w2 w3 m ctx0 ctx nr,
    map_mft_record read_mapping_page i_size bits shift base w = Ret (w1, inr m) /\
    ntfs_attr_get_search_ctx base m w1 = Ret (w2, Some ctx0) /\ lookup s ctx0 w2 = Ret (w3, (ctx, 0)) /\
    0 <= attr ctx <= zlen (mrec ctx) /\ rd_u8 (mrec ctx) (attr ctx + A_non_resident) = Ret nr /\ nr <> 0 /\
    extent_at vol (drop (Z.to_nat (attr ctx)) (mrec ctx)) lowest we l;
}.

Context (w : world) (i : ntfs_inode) (base : ptr) (lowest we vcn : Z) (l : list runlist_element).
Hypothesis Hv : lowest <= vcn < we.
Hypothesis Hmax : vcn <= S64_MAX.

Local Abbreviation knows := (knows l vcn).
Local Abbreviation lacks := (lacks lowest we l vcn).

Lemma released_refl : inodes w !! base = Some i -> released w base i w.
Proof.
  intros Hb. split_and!; try done; [exists (nr_extents i), (ni_ext i); by destruct i|]. intros p j H1 H2. congruence.
Qed.

(** Mapping the extent with a temporary context. *)
Lemma map_temporary_spec ni :
  ai_base ni = base -> reaches_extent w i base (extent_search ni vcn) lowest we l -> lacks (ai_rl ni) ->
  exists w' ni' err, map_temporary ni vcn w = Ret (w', (ni', err)) /\ released w base i w' /\
    ((err = - ENOMEM /\ ni' = ni) \/ (err = 0 /\ exists b, ni' = set_rl (Some b) ni /\ knows (Some b))).
Proof.
  intros Hb [Hc (w1 & w2 & w3 & m & ctx0 & ctx & nr & E1 & E2 & E3 & Ha & Hnr & Hnz & Hex)] Hl. subst base.
  pose proof (lookup_prefix _ _ _ _ _ _ Hbits Hshift Hpages _ _ _ _ _ _ _ _ _ _ _ Hc E1 E2 E3) as Hinv.
  destruct (put_unmap _ _ _ _ _ _ _ _ Hc Hinv) as (w4 & w5 & E4 & E5 & Hrel).
  assert (Hh : rd_sle64 (mrec ctx) (attr ctx + ATTR_highest_vcn) = Ret (we - 1)).
  { destruct Hex as [(h & al & v & post & [_ _ Hh _] & -> & _)]. rewrite <- Hh. by rewrite rd_sle64_drop. }
  assert (Hw : 0 <= lowest /\ we <= S64_MAX).
  { pose proof (extent_chain _ _ _ _ _ Hex) as (H1 & Hch & _). split; [done|]. apply chain_max in Hch; lia. }
  assert (Hmap : exists ni' err, map_extent_rl vol ni vcn ctx = Ret (ni', err) /\
    ((err = - ENOMEM /\ ni' = ni) \/ (err = 0 /\ exists b, ni' = set_rl (Some b) ni /\ knows (Some b)))).
  { unfold map_extent_rl. rewrite Hh, bind_Ret. cbv zeta. replace (we - 1 + 1) with we by lia. rewrite s64_id by (unfold S64_MIN, S64_MAX in *; lia).
    destruct (Z.geb_spec vcn we); [lia|]. rewrite andb_false_r.
    destruct (decompress_knows vol _ _ _ _ vcn (ai_rl ni) Hex Hv Hmax Hl) as [E|(b & E & Hk)]; rewrite E; cbn [catch]; rewrite bind_Ret; eauto 10. }
  destruct Hmap as (ni' & err & Em & Hr). exists w5, ni', err. split; [|done].
  unfold map_runlist_temporary. rewrite (M_run _ _ _ _ _ E1), (M_run _ _ _ _ _ E2).
  rewrite (M_run _ _ w2 w3 (ni', ctx, err)); [by rewrite (M_run _ _ _ _ _ E4), (M_run _ _ _ _ _ E5)|].
  unfold find_and_map. rewrite (M_run _ _ w2 w3 (ctx, 0)).
  - cbn [Z.eqb negb]. by rewrite (M_run _ _ w3 w3 _ (lift_eq _ _ _ Em)).
  - unfold lookup_extent. rewrite (M_run _ _ _ _ _ E3). cbn [Z.eqb negb]. rewrite (M_run _ _ w3 w3 _ (lift_eq _ _ _ Hnr)).
    by rewrite (M_run _ _ w3 w3 tt) by (by apply assert_not_eq, Z.eqb_neq).
Qed.

(** What the others may do: only map more of the runlist. *)
Definition only_maps (f : option rl_buf -> option rl_buf) : Prop :=
  forall rl, (knows rl -> knows (f rl)) /\ (lacks rl -> lacks (f rl) \/ knows (f rl)).

Lemma relock_spec k ni o : Forall only_maps o -> knows (ai_rl ni) \/ lacks (ai_rl ni) ->
  exists rl o', relock k ni o = (set_lock k (set_rl rl ni), o') /\ Forall only_maps o' /\
    (knows (ai_rl ni) -> knows rl) /\ (knows rl \/ lacks rl) /\ (length o' <= length o)%nat /\ (rl = ai_rl ni \/ (length o' < length o)%nat).
Proof.
  intros Ho Hr. destruct o as [|f o]; cbn [relock].
  - exists (ai_rl ni), []. split; [by destruct ni|]. split_and!; auto.
  - apply list.Forall_cons in Ho as [Hf Ho]. destruct (Hf (ai_rl ni)) as [Hk Hl]. exists (f (ai_rl ni)), o. split; [done|].
    split_and!; auto; naive_solver.
Qed.

(** A round that finds the VCN mapped. *)
Lemma remap_known fuel ni o wl r w0 : LCN_HOLE <= extent_vcn l vcn -> knows (ai_rl ni) ->
  remap (S fuel) ni o vcn wl r w0 = Ret (w0, (ni, extent_vcn l vcn)).
Proof.
  intros HT Hk. cbn [retry_remap]. rewrite (M_run _ _ w0 w0 _ (lift_eq _ _ _ Hk)). by rewrite (proj2 (Z.geb_le _ _)).
Qed.

(** What every round comes to. *)
Definition remap_result (ni : attr_inode) (lock : rwsem) (res : outcome (world * (attr_inode * Z))) : Prop :=
  exists w' rl lcn, res = Ret (w', (set_lock lock (set_rl rl ni), lcn)) /\ released w base i w' /\
    (lcn = extent_vcn l vcn /\ knows rl \/ lcn = LCN_ENOMEM) /\ (knows rl \/ lacks rl).

(** The extent is mapped, and the lock taken as it was before. *)
Lemma remap_map fuel ni o (wl : bool) :
  LCN_HOLE <= extent_vcn l vcn -> ai_base ni = base -> reaches_extent w i base (extent_search ni vcn) lowest we l ->
  lacks (ai_rl ni) -> Forall only_maps o ->
  remap_result ni (if wl then ai_lock ni else Reading)
    (M_bind _ _ (fun r : attr_inode * ctxp * Z =>
       let '(ni, _, err) := r in
       let '(ni, o) := if wl then (ni, o) else relock Reading ni o in
       if err =? 0 then remap (S fuel) ni o vcn wl true else mret (ni, err_to_lcn err))
     (ntfs_map_runlist_nolock vol upcase upcase_len read_mapping_page i_size bits shift ni vcn None) w).
Proof.
  intros HT Hb Hre Hl Ho. destruct (map_temporary_spec ni Hb Hre Hl) as (w' & ni' & err & E & Hrel & Hr).
  erewrite (M_run _ _ w w' (ni', None, err)) by (unfold ntfs_map_runlist_nolock; by rewrite (M_run _ _ _ _ _ E)).
  assert (Hni : exists rl, ni' = set_rl rl ni /\ (err = - ENOMEM /\ lacks rl \/ err = 0 /\ knows rl)).
  { destruct Hr as [(-> & ->)|(-> & b & -> & Hk)]; [exists (ai_rl ni)|exists (Some b)]; split; auto; by destruct ni. }
  destruct Hni as (rl & -> & Hk).
  assert (Hlk : exists rl' o', (if wl then (set_rl rl ni, o) else relock Reading (set_rl rl ni) o)
      = (set_lock (if wl then ai_lock ni else Reading) (set_rl rl' ni), o') /\ (knows rl -> knows rl') /\ (knows rl' \/ lacks rl')).
  { destruct wl; [exists rl, o; split_and!; [by destruct ni|done|naive_solver]|].
    destruct (relock_spec Reading (set_rl rl ni) o Ho) as (rl' & o' & -> & _ & H1 & H2 & _); [naive_solver|]. exists rl', o'. by destruct ni. }
  destruct Hlk as (rl' & o' & -> & H1 & H2). exists w', rl'. destruct Hk as [(-> & _)|(-> & Hk)].
  - exists LCN_ENOMEM. split_and!; auto.
  - exists (extent_vcn l vcn). cbn [Z.eqb]. rewrite remap_known; auto. split_and!; auto.
Qed.

Lemma knows_not_lacks rl : LCN_HOLE <= extent_vcn l vcn -> 0 <= vcn -> knows rl -> lacks rl -> False.
Proof.
  intros HT Hv0 Hk Hl%lacks_not_mapped; [|lia]. unfold MapRunlistSpec.knows in Hk. rewrite Hl in Hk. injection Hk as Hk.
  rewrite <- Hk in HT. unfold LCN_HOLE, LCN_RL_NOT_MAPPED in HT. lia.
Qed.

(** The lock as the caller holds it. *)
Definition held_as (wl : bool) : rwsem := if wl then Writing else Reading.

Lemma remap_spec fuel : forall ni o wl,
  LCN_HOLE <= extent_vcn l vcn -> 0 <= vcn -> ai_base ni = base -> reaches_extent w i base (extent_search ni vcn) lowest we l ->
  ai_lock ni = held_as wl -> knows (ai_rl ni) \/ lacks (ai_rl ni) -> Forall only_maps o -> (length o + 2 <= fuel)%nat ->
  remap_result ni (held_as wl) (remap fuel ni o vcn wl false w).
Proof.
  induction fuel as [|fuel IH]; intros ni o wl HT Hv0 Hb Hre Hlk Hr Ho Hf; [lia|].
  assert (Hbase : inodes w !! base = Some i) by (destruct Hre as [Hc _]; by apply session_caller_lookup in Hc).
  destruct Hr as [Hk|Hl].
  { rewrite remap_known by done. exists w, (ai_rl ni), (extent_vcn l vcn). split_and!; auto; [|by apply released_refl].
    by destruct ni; cbn in Hlk; subst. }
  cbn [retry_remap]. rewrite (M_run _ _ w w _ (lift_eq _ _ _ (lacks_not_mapped lowest we l vcn _ ltac:(lia) Hl))).
  change (LCN_RL_NOT_MAPPED >=? LCN_HOLE) with false. change (negb (LCN_RL_NOT_MAPPED =? LCN_RL_NOT_MAPPED)) with false. cbv iota. destruct fuel as [|fuel]; [lia|]. destruct wl.
  { rewrite (M_run _ _ w w false) by done. rewrite <- Hlk. by apply (remap_map fuel ni o true). }
  destruct (relock_spec Writing ni o Ho (or_intror Hl)) as (rl & o' & -> & Ho' & _ & Hr & Hlen & Hsame).
  set (ni1 := set_lock Writing (set_rl rl ni)). destruct Hr as [Hk|Hl1].
  - rewrite (M_run _ _ w w true).
    2:{ rewrite (M_run _ _ w w _ (lift_eq _ _ _ Hk)). cbv beta. replace (extent_vcn l vcn =? LCN_RL_NOT_MAPPED) with false; [done|].
        symmetry. apply Z.eqb_neq. unfold LCN_RL_NOT_MAPPED, LCN_HOLE in *. lia. }
    destruct Hsame as [->|Hlt]; [by destruct (knows_not_lacks (ai_rl ni))|].
    destruct (relock_spec Reading ni1 o' Ho' (or_introl Hk)) as (rl2 & o2 & -> & Ho2 & _ & Hr2 & Hlen2 & _).
    destruct (IH (set_lock Reading (set_rl rl2 ni1)) o2 false HT Hv0 Hb Hre eq_refl Hr2 Ho2 ltac:(lia)) as (w' & rl' & lcn & E & H).
    exists w', rl', lcn. split; [exact E|exact H].
  - rewrite (M_run _ _ w w false).
    2:{ by rewrite (M_run _ _ w w _ (lift_eq _ _ _ (lacks_not_mapped lowest we l vcn rl ltac:(lia) Hl1))). }
    destruct (remap_map fuel ni1 o' false HT Hb Hre Hl1 Ho') as (w' & rl' & lcn & E & H). exists w', rl', lcn. split; [exact E|exact H].
Qed.
End Vcn.

(** C6: [ntfs_attr_vcn_to_lcn_nolock] for a VCN whose attribute extent the lookup
    finds, with the runlist held for reading or writing.  Either the runlist gives the
    VCN its LCN already, or it does not map the extent ([lacks]): then there is no
    runlist yet, or the extent is not the first one, starts behind VCN 0, and the
    existing runlist has it in one element that is not mapped, or ends before it, with
    one element of the buffer to spare when there is a gap ([mergeable_at], as in the
    merge of runlists).  Whatever the other holders
    of the lock do to the runlist while it is dropped, as long as they only map more
    of it, the function returns, with the LCN the mapping pairs on disk give to the
    VCN and a runlist that gives it too, or with LCN_ENOMEM; the lock is held as
    before and no mft record, lock or reference is kept. *)
Theorem attr_vcn_to_lcn_correct {KA : KernelAlloc} vol upcase upcase_len read_mapping_page i_size bits shift w i ni o wl lowest we vcn l :
  8 <= bits <= shift -> shift < 31 ->
  (forall n data err, read_mapping_page n = inr (data, err) -> zlen data = page_size shift /\ Forall byte_ok data) ->
  0 <= vcn <= S64_MAX -> lowest <= vcn < we ->
  reaches_extent vol upcase upcase_len read_mapping_page i_size bits shift w i (ai_base ni) (extent_search ni vcn) lowest we l ->
  ai_non_resident ni = true -> (ai_rl ni = None -> ai_allocated_size ni <> 0) -> ai_lock ni = held_as wl ->
  knows l vcn (ai_rl ni) \/ lacks lowest we l vcn (ai_rl ni) -> Forall (only_maps lowest we vcn l) o ->
  exists w' rl lcn,
    ntfs_attr_vcn_to_lcn_nolock vol upcase upcase_len read_mapping_page i_size bits shift ni o vcn wl w = Ret (w', (set_rl rl ni, lcn)) /\
    released w (ai_base ni) i w' /\ (lcn = extent_vcn l vcn /\ knows l vcn rl \/ lcn = LCN_ENOMEM).
Proof.
  intros Hbits Hshift Hpages Hv0 Hv Hre Hnr Hsz Hlk Hr Ho.
  assert (HT : LCN_HOLE <= extent_vcn l vcn).
  { destruct Hre as [_ (w1 & w2 & w3 & m & c0 & c & nr & _ & _ & _ & _ & _ & _ & Hex)]. by eapply extent_vcn_mapped. }
  destruct (remap_spec vol upcase upcase_len read_mapping_page i_size bits shift Hbits Hshift Hpages w i (ai_base ni) lowest we vcn l Hv (proj2 Hv0)
    (remap_fuel o) ni o wl HT (proj1 Hv0) eq_refl Hre Hlk Hr Ho) as (w' & rl & lcn & E & Hrel & Hlcn & _); [unfold remap_fuel; lia|].
  exists w', rl, lcn. split_and!; try done. unfold ntfs_attr_vcn_to_lcn_nolock.
  rewrite (M_run _ _ w w tt) by (by rewrite Hnr). rewrite (M_run _ _ w w tt) by (apply assert_not_eq, Z.ltb_ge; lia).
  replace (bool_decide (ai_rl ni = None) && (ai_allocated_size ni =? 0)) with false.
  - rewrite E. do 3 f_equal. destruct ni; cbn in Hlk; by subst.
  - case_bool_decide as Hn; [|done]. symmetry. by apply Z.eqb_neq, Hsz.
Qed.


(** An inode with the runs [demo_runs]. *)
Definition demo_data : list Z :=
  le_split 4 0x80 ++ le_split 4 80 ++ [1; 0] ++ le_split 2 64 ++ repeat 0 4 ++ le_split 8 0 ++ le_split 8 6 ++
  le_split 2 64 ++ repeat 0 6 ++ le_split 8 28672 ++ repeat 0 16 ++ demo_mp ++ repeat 0 7.
Definition demo_file : list Z :=
  le_split 4 magic_FILE ++ repeat 0 16 ++ le_split 2 56 ++ repeat 0 2 ++ le_split 4 144 ++ le_split 4 256 ++ repeat 0 24 ++
  demo_data ++ le_split 4 AT_END ++ repeat 0 116.
Definition demo_file_page (n : Z) : Z + (list Z * bool) :=
  if n =? 0 then inr (repeat 0 512 ++ demo_file ++ repeat 0 (13 * 256), false) else inl (- EIO).
Definition demo_file_ino : ntfs_inode := mk_inode 2 1 1 false None 0 false 0 (Extents []) None.
Definition demo_file_world : world := mk_world {[1%positive := demo_file_ino]} [] false [].
Definition demo_attr_inode (lock : rwsem) : attr_inode := mk_attr_inode 1%positive 0x80 None 0 true 28672 None lock.

Lemma demo_file_pages n data err : demo_file_page n = inr (data, err) -> zlen data = page_size 12 /\ Forall byte_ok data.
Proof.
  unfold demo_file_page. destruct (n =? 0); [|done]. intros [= <- <-]. split; [by vm_compute|]. apply (bool_decide_unpack _). by vm_compute.
Qed.

Lemma demo_extent_at : extent_at demo_vol (drop 56 demo_file) 0 7 demo_runs.
Proof.
  split. exists 6, 28672, 3, (drop (56 + 64 + 9) demo_file). split_and!; [|done|by apply MappingPairsTheorems.demo_extent|exact demo_geometry].
  split; [exists (take 64 demo_data), 80; split_and!; by vm_compute|by vm_compute..].
Qed.

Lemma demo_reaches_extent lock vcn : 0 <= vcn ->
  reaches_extent demo_vol [] 0 demo_file_page 4096 8 12 demo_file_world demo_file_ino 1%positive (extent_search (demo_attr_inode lock) vcn) 0 7 demo_runs.
Proof.
  intros Hvcn. split.
  - constructor; [done| |done]. exists []. split; [|by intros p j Hp%elem_of_nil].
    constructor; try done; [exists 0%nat; split_and!; [done|lia|done]|]. by intros p Hp%elem_of_nil.
  - assert (E : exists w3 ctx, attr ctx = 56 /\ mrec ctx = demo_file /\ forall s, s_type s = 0x80 -> s_name s = None -> s_val s = None ->
      match map_mft_record demo_file_page 4096 8 12 1%positive demo_file_world with
      | Ret (w1, inr m) =>
          match ntfs_attr_get_search_ctx 1%positive m w1 with
          | Ret (w2, Some c) => ntfs_attr_lookup [] 0 demo_file_page 4096 8 12 s c w2 = Ret (w3, (ctx, 0))
          | _ => False
          end
      | _ => False
      end).
    { eexists _, _. split; [|split]; [| |intros [t n nl ic lv v vl]; cbn [s_type s_name s_val]; intros -> -> ->; vm_compute; reflexivity];
        [|]; [vm_compute; reflexivity..]. }
    destruct E as (w3 & ctx & Ha & Hm & E). specialize (E (extent_search (demo_attr_inode lock) vcn) eq_refl eq_refl eq_refl).
    destruct (map_mft_record _ _ _ _ _ _) as [[w1 [?|m]]| | | |] eqn:E1; try done.
    destruct (ntfs_attr_get_search_ctx _ _ _) as [[w2 [c|]]| | | |] eqn:E2; try done.
    exists w1, w2, w3, m, c, ctx, 1. rewrite Ha, Hm. split_and!; try done. exact demo_extent_at.
Qed.

(** Another thread maps the runlist while the lock is dropped for the first time. *)
Definition demo_mapped : option rl_buf := Some (RunlistTheorems.demo_page (demo_runs ++ [demo_end])).
Definition demo_others : others := [fun _ => demo_mapped; fun rl => rl].

Lemma demo_only_maps : Forall (only_maps 0 7 6 demo_runs) demo_others.
Proof.
  assert (Hk : knows demo_runs 6 demo_mapped) by (by vm_compute).
  apply list.Forall_cons. split; [intros rl; split; auto|]. apply list.Forall_cons. split; [intros rl; split; auto|]. done.
Qed.

Lemma attr_vcn_to_lcn_correct_witness :
  exists w' rl lcn,
    @ntfs_attr_vcn_to_lcn_nolock demo_alloc demo_vol [] 0 demo_file_page 4096 8 12 (demo_attr_inode Reading) demo_others 6 false demo_file_world
      = Ret (w', (set_rl rl (demo_attr_inode Reading), lcn)) /\
    released demo_file_world 1%positive demo_file_ino w' /\ (lcn = 50 \/ lcn = LCN_ENOMEM).
Proof.
  destruct (@attr_vcn_to_lcn_correct demo_alloc demo_vol [] 0 demo_file_page 4096 8 12 demo_file_world demo_file_ino (demo_attr_inode Reading)
    demo_others false 0 7 6 demo_runs) as (w' & rl & lcn & E & Hrel & Hl);
    [lia|lia|exact demo_file_pages|unfold S64_MAX; lia|lia|apply demo_reaches_extent; lia|reflexivity|discriminate|reflexivity|right; exact I|exact demo_only_maps|].
  exists w', rl, lcn. split; [exact E|]. split; [exact Hrel|]. destruct Hl as [[-> _]| ->]; [left; reflexivity|right; reflexivity].
Defined.

(** With nobody else at the runlist it is mapped by the function itself. *)
Example demo_vcns :
  (fun vcn => '(_, (_, lcn)) ← @ntfs_attr_vcn_to_lcn_nolock demo_alloc demo_vol [] 0 demo_file_page 4096 8 12 (demo_attr_inode Writing) [] vcn true demo_file_world;
     Ret lcn) <$> [0; 3; 4; 6; 7] = [Ret 100; Ret 103; Ret LCN_HOLE; Ret 50; Ret LCN_ENOENT].
Proof. vm_compute. reflexivity. Qed.

(** The documentation lets the context be NULL; when the VCN is not mapped yet the
    code reads @mrec of the NULL context. *)
Example find_vcn_null_context :
  @ntfs_attr_find_vcn_nolock demo_alloc demo_vol [] 0 demo_file_page 4096 8 12 (demo_attr_inode Writing) 6 None demo_file_world = Fault.
Proof. vm_compute. reflexivity. Qed.

(** The name of the attribute a context is at is compared by its length in
    characters, but in bytes: "ab" is taken for "ac". *)
Definition demo_named (c : Z) : list Z :=
  le_split 4 0x80 ++ le_split 4 88 ++ [1; 2] ++ le_split 2 64 ++ repeat 0 4 ++ le_split 8 0 ++ le_split 8 6 ++
  le_split 2 72 ++ repeat 0 6 ++ le_split 8 28672 ++ repeat 0 16 ++ [97; 0; c; 0] ++ repeat 0 4 ++ demo_mp ++ repeat 0 7.
Example half_of_name_compared :
  extent_in_ctx demo_vol (mk_attr_inode 1%positive 0x80 (Some [97; 98]) 2 true 28672 None Writing) 6 (demo_named 99) 0 = Ret true.
Proof. vm_compute. reflexivity. Qed.


