(* ===== verification/AttrList.v ===== *)
(** * Loading a non-resident attribute list

    Models [load_attribute_list] of [src/ntfs/attrib.c], which reads the clusters
    of an attribute list into a buffer, block by block, and proves that the buffer
    then holds the bytes of the disk.  The buffer cache ([sb_bread]) is a parameter. *)

From Stdlib Require Import ZArith Lia Bool.
From stdpp Require Import base list numbers option.
From S2P Require Import Prelude Endian Runlist RunlistSpec.

(** [memset(buf + off, 0, n)] *)
Definition memset0 (buf : list Z) (off n : Z) : outcome (list Z) := blit buf off (repeat 0 (Z.to_nat n)) 0 n.

Section Load.
(** [sb_bread]: the bytes of a block, or NULL; the geometry of the volume. *)
Context (sb_bread : Z -> option (list Z)) (block_size_bits cluster_size_bits : Z).

Definition block_size : Z := 2 ^ block_size_bits.

(** How the loops are left: at the end of the run, or for good with an error. *)
Inductive load_exit := EndOfRun | Left (err : Z).

(** Reads the blocks of a run from [block] on. *)
Fixpoint read_blocks (fuel : nat) (block max_block : Z) (buf : list Z) (al al_end : Z) : outcome (list Z * Z * load_exit) :=
  match fuel with
  | O => Diverge
  | S fuel =>
      match sb_bread block with
      | None => Ret (buf, al, Left (- EIO))
      | Some data =>
          if al + block_size >=? al_end then
            if al <? al_end then buf ← blit buf al data 0 (al_end - al); Ret (buf, al, Left 0)
            else Ret (buf, al, Left (- EIO))
          else
            buf ← blit buf al data 0 block_size;
            let block := u64 (block + 1) in
            if block <? max_block then read_blocks fuel block max_block buf (al + block_size) al_end
            else Ret (buf, al + block_size, EndOfRun)
      end
  end.

(** Every block but the last one moves on in the buffer. *)
Definition blocks_fuel (al_end : Z) : nat := S (Z.to_nat al_end).

(** Reads the runs from element [i] of the runlist on. *)
Fixpoint read_runs (n : nat) (rl : rl_buf) (i : Z) (buf : list Z) (al al_end : Z) : outcome (list Z * Z) :=
  match n with
  | O => Fault
  | S n =>
      r ← rd rl i;
      if rl_length r =? 0 then Ret (buf, 0)
      else
        lcn ← ntfs_rl_vcn_to_lcn (Some (drop (Z.to_nat i) rl)) (rl_vcn r);
        if lcn <? 0 then Ret (buf, - EIO)
        else
          let block := u64 (Z.shiftr (s64 (Z.shiftl lcn cluster_size_bits)) block_size_bits) in
          let max_block := u64 (block + Z.shiftr (s64 (Z.shiftl (rl_length r) cluster_size_bits)) block_size_bits) in
          x ← read_blocks (blocks_fuel al_end) block max_block buf al al_end;
          let '(buf, al, exit) := x in
          match exit with
          | EndOfRun => read_runs n rl (i + 1) buf al al_end
          | Left err => Ret (buf, err)
          end
  end.

(** The buffer afterwards and the return value. *)
Definition load_attribute_list (rl : option rl_buf) (al_start : list Z) (size initialized_size : Z) : outcome (list Z * Z) :=
  if (size <=? 0) || (initialized_size <? 0) || (initialized_size >? size) then Ret (al_start, - EINVAL)
  else if initialized_size =? 0 then buf ← memset0 al_start 0 size; Ret (buf, 0)
  else
    match rl with
    | None => Ret (al_start, - EIO)
    | Some rl =>
        x ← read_runs (length rl) rl 0 al_start 0 initialized_size;
        let '(buf, err) := x in
        if negb (err =? 0) then Ret (buf, err)
        else if initialized_size <? size then buf ← memset0 buf initialized_size (size - initialized_size); Ret (buf, 0)
        else Ret (buf, 0)
    end.

(** ** The blocks in order *)

(** The loops, over the list of the blocks of all runs. *)
Fixpoint read_list (bs : list Z) (buf : list Z) (al al_end : Z) : outcome (list Z * Z * load_exit) :=
  match bs with
  | [] => Ret (buf, al, EndOfRun)
  | b :: bs =>
      match sb_bread b with
      | None => Ret (buf, al, Left (- EIO))
      | Some data =>
          if al + block_size >=? al_end then buf ← blit buf al data 0 (al_end - al); Ret (buf, al, Left 0)
          else buf ← blit buf al data 0 block_size; read_list bs buf (al + block_size) al_end
      end
  end.

Lemma read_list_app bs1 bs2 buf al al_end :
  read_list (bs1 ++ bs2) buf al al_end =
    (x ← read_list bs1 buf al al_end;
     let '(buf, al, exit) := x in
     match exit with EndOfRun => read_list bs2 buf al al_end | Left err => Ret (buf, al, Left err) end).
Proof.
  revert buf al. induction bs1 as [|b bs1 IH]; intros buf al; cbn [app read_list]; [done|].
  destruct (sb_bread b); [|done]. destruct (_ >=? _); rewrite bind_assoc; destruct (blit _ _ _ _ _); try done. cbn [mbind outcome_bind]. apply IH.
Qed.

Hypothesis Hbits : 0 <= block_size_bits <= cluster_size_bits.

Lemma block_size_pos : 0 < block_size.
Proof. apply Z.pow_pos_nonneg; lia. Qed.

(** The blocks of a run. *)
Definition run_blocks (r : runlist_element) : list Z :=
  seqZ (rl_lcn r * 2 ^ (cluster_size_bits - block_size_bits)) (rl_length r * 2 ^ (cluster_size_bits - block_size_bits)).

Lemma read_blocks_list fuel : forall n block buf al al_end, 0 <= block -> block + Z.of_nat n < 2 ^ 63 -> (0 < n)%nat -> al < al_end ->
  al_end - al < Z.of_nat fuel ->
  read_blocks fuel block (block + Z.of_nat n) buf al al_end = read_list (seqZ block (Z.of_nat n)) buf al al_end.
Proof.
  pose proof block_size_pos as Hbs.
  induction fuel as [|fuel IH]; intros n block buf al al_end Hb Hm Hn Hal Hf; [lia|].
  rewrite seqZ_cons by lia. cbn [read_blocks read_list]. destruct (sb_bread block) as [data|]; [|done].
  rewrite (proj2 (Z.ltb_lt al al_end)) by done. destruct (Z.geb_spec (al + block_size) al_end); [done|].
  destruct (blit buf al data 0 block_size) as [buf'| | | |]; try done. rewrite !bind_Ret. rewrite u64_id by lia.
  destruct (Z.ltb_spec (block + 1) (block + Z.of_nat n)).
  - replace (block + Z.of_nat n) with (Z.succ block + Z.of_nat (n - 1)) by lia. rewrite Z.add_1_r, IH by lia.
    f_equal. f_equal. lia.
  - replace (Z.pred (Z.of_nat n)) with 0 by lia. done.
Qed.

(** Going on to the next run leaves room in the buffer. *)
Lemma read_list_end bs : forall buf al al_end buf' al', al < al_end -> read_list bs buf al al_end = Ret (buf', al', EndOfRun) -> al <= al' < al_end.
Proof.
  pose proof block_size_pos as Hbs.
  induction bs as [|b bs IH]; intros buf al al_end buf' al' Hal; cbn [read_list]; [intros [= _ <-]; lia|].
  destruct (sb_bread b) as [data|]; [|done]. destruct (Z.geb_spec (al + block_size) al_end).
  - by intros (? & _ & ?)%bind_Ret_inv.
  - intros (? & _ & E)%bind_Ret_inv. apply IH in E; lia.
Qed.

(** A run that can be read: allocated, and its bytes can be counted. *)
Definition run_readable (r : runlist_element) : Prop := 0 <= rl_lcn r /\ (rl_lcn r + rl_length r) * 2 ^ cluster_size_bits <= S64_MAX.

Lemma cluster_blocks n : 0 <= n -> n * 2 ^ cluster_size_bits <= S64_MAX ->
  Z.shiftr (s64 (Z.shiftl n cluster_size_bits)) block_size_bits = n * 2 ^ (cluster_size_bits - block_size_bits).
Proof.
  intros H1 H2. pose proof (Z.pow_pos_nonneg 2 cluster_size_bits ltac:(lia) ltac:(lia)).
  rewrite Z.shiftl_mul_pow2, s64_id, Z.shiftr_div_pow2 by (unfold S64_MIN; nia || lia).
  replace (2 ^ cluster_size_bits) with (2 ^ (cluster_size_bits - block_size_bits) * 2 ^ block_size_bits) by (rewrite <- Z.pow_add_r by lia; f_equal; lia).
  rewrite Z.mul_assoc. apply Z.div_mul. pose proof block_size_pos. unfold block_size in *. lia.
Qed.

Lemma run_blocks_bound r : run_ok r -> run_readable r ->
  let s := 2 ^ (cluster_size_bits - block_size_bits) in
  0 < s /\ 0 <= rl_lcn r * s /\ 0 < rl_length r * s /\ rl_lcn r * s + rl_length r * s <= S64_MAX /\
  rl_lcn r * 2 ^ cluster_size_bits <= S64_MAX /\ rl_length r * 2 ^ cluster_size_bits <= S64_MAX.
Proof.
  intros (_ & Hl & _) [Hlcn Hm]. cbv zeta. pose proof (Z.pow_pos_nonneg 2 (cluster_size_bits - block_size_bits) ltac:(lia) ltac:(lia)) as Hs.
  pose proof (Z.pow_le_mono_r 2 (cluster_size_bits - block_size_bits) cluster_size_bits ltac:(lia) ltac:(lia)). nia.
Qed.

Lemma read_runs_list L : forall n rl i buf al al_end pre v t sl,
  rl = pre ++ L ++ t :: sl -> i = zlen pre -> runlist_wf v L t -> 0 <= v -> Forall run_readable L -> (length L < n)%nat -> 0 <= al < al_end ->
  read_runs n rl i buf al al_end =
    (x ← read_list (concat (run_blocks <$> L)) buf al al_end;
     let '(buf, _, exit) := x in Ret (buf, match exit with EndOfRun => 0 | Left err => err end)).
Proof.
  induction L as [|r L IH]; intros [|n] rl i buf al al_end pre v t sl -> -> [Hc Ht] Hv HL Hn Hal; try (cbn in Hn; lia); cbn [read_runs fmap list_fmap concat].
  - rewrite (rd_at _ pre sl t) by done. rewrite bind_Ret. destruct Ht as [-> _]. done.
  - apply list.Forall_cons in HL as [Hr HL]. pose proof Hc as (Hrv & Hok & Hc').
    destruct (run_blocks_bound r Hok Hr) as (Hs & H1 & H2 & H3 & H4 & H5).
    rewrite (rd_at _ pre (L ++ t :: sl) r) by done. rewrite bind_Ret. pose proof (run_ok_nonzero r Hok) as Hnz. apply negb_true_iff in Hnz. rewrite Hnz.
    replace (drop (Z.to_nat (zlen pre)) (pre ++ (r :: L) ++ t :: sl)) with ((r :: L) ++ t :: sl) by (unfold zlen; by rewrite Nat2Z.id, drop_app_length).
    rewrite (vcn_to_lcn_denote _ (r :: L) t v (rl_vcn r)); [|done|by eexists|done|destruct Hok; lia].
    destruct (Z.ltb_spec (rl_vcn r) v); [lia|]. rewrite bind_Ret. unfold denote. cbn [look].
    destruct (Z.ltb_spec (rl_vcn r) (rl_vcn r + rl_length r)); [|destruct Hok; lia]. cbn [from_option]. unfold id. destruct Hr as [Hlcn Hrb].
    replace (run_lcn r (rl_vcn r)) with (rl_lcn r) by (unfold run_lcn; destruct (Z.geb_spec (rl_lcn r) 0); lia).
    rewrite (proj2 (Z.ltb_ge (rl_lcn r) 0)) by done.
    rewrite !cluster_blocks by (try done; destruct Hok; lia). cbv zeta.
    set (b := rl_lcn r * 2 ^ (cluster_size_bits - block_size_bits)) in *. set (k := rl_length r * 2 ^ (cluster_size_bits - block_size_bits)) in *.
    rewrite (u64_id b), (u64_id (b + k)) by (unfold S64_MAX in *; lia).
    replace (b + k) with (b + Z.of_nat (Z.to_nat k)) by lia. rewrite read_blocks_list by (unfold S64_MAX, blocks_fuel in *; lia).
    rewrite read_list_app, bind_assoc. unfold run_blocks. fold b k. rewrite (Z2Nat.id k) by lia.
    destruct (read_list (seqZ b k) buf al al_end) as [[[buf' al'] [|err]]| | | |] eqn:El; try done. rewrite !bind_Ret.
    apply (IH n _ _ _ _ _ (pre ++ [r]) (v + rl_length r) t sl); try done; [by rewrite <- app_assoc|by rewrite zlen_app|destruct Hok; lia|cbn in Hn; lia|].
    apply read_list_end in El; lia.
Qed.

(** ** What the buffer holds *)

(** How many blocks [n] bytes need. *)
Definition blocks_for (n : Z) : nat := Z.to_nat ((n + block_size - 1) / block_size).

Hypothesis Hsize : forall b data, sb_bread b = Some data -> zlen data = block_size.

Lemma blocks_for_one n : 0 < n <= block_size -> blocks_for n = 1%nat.
Proof.
  intros Hn. unfold blocks_for. replace (n + block_size - 1) with (1 * block_size + (n - 1)) by lia.
  rewrite Z.div_add_l, Z.div_small by lia. done.
Qed.

Lemma blocks_for_more n : block_size < n -> blocks_for n = S (blocks_for (n - block_size)).
Proof.
  intros Hn. pose proof block_size_pos. unfold blocks_for. replace (n + block_size - 1) with (1 * block_size + (n - block_size + block_size - 1)) by lia.
  rewrite Z.div_add_l by lia. rewrite <- Z2Nat.inj_succ by (apply Z.div_pos; lia). f_equal. lia.
Qed.

Lemma blit_prefix (pre rest data : list Z) n : 0 <= n <= zlen rest -> n <= zlen data ->
  blit (pre ++ rest) (zlen pre) data 0 n = Ret (pre ++ take (Z.to_nat n) data ++ drop (Z.to_nat n) rest).
Proof.
  intros Hr Hd. apply (blit_eq _ _ _ _ _ pre (take (Z.to_nat n) rest) (drop (Z.to_nat n) rest) [] (take (Z.to_nat n) data) (drop (Z.to_nat n) data));
    unfold zlen in *; rewrite ?take_drop, ?length_take; try done; lia.
Qed.

Lemma read_list_bytes bs : forall pre rest al_end,
  zlen pre < al_end <= zlen (pre ++ rest) -> (blocks_for (al_end - zlen pre) <= length bs)%nat ->
  let n := al_end - zlen pre in
  match mapM sb_bread (take (blocks_for n) bs) with
  | Some ds => exists al, read_list bs (pre ++ rest) (zlen pre) al_end =
      Ret (pre ++ take (Z.to_nat n) (concat ds) ++ drop (Z.to_nat n) rest, al, Left 0)
  | None => exists buf al, read_list bs (pre ++ rest) (zlen pre) al_end = Ret (buf, al, Left (- EIO))
  end.
Proof.
  pose proof block_size_pos as Hbs.
  induction bs as [|b bs IH]; intros pre rest al_end Hal Hlen n; rewrite zlen_app in Hal.
  { exfalso. destruct (Z.le_gt_cases (al_end - zlen pre) block_size); [rewrite blocks_for_one in Hlen by lia|rewrite blocks_for_more in Hlen by lia]; cbn in Hlen; lia. }
  cbn [read_list]. destruct (Z.le_gt_cases n block_size) as [Hn|Hn].
  - rewrite blocks_for_one by (unfold n in *; lia). cbn [take mapM]. rewrite take_0. cbn [mapM].
    destruct (sb_bread b) as [data|] eqn:Eb; cbn [mbind option_bind]; [|eauto].
    rewrite (proj2 (Z.geb_le _ _)) by (unfold n in *; lia). rewrite blit_prefix by (rewrite ?(Hsize _ _ Eb); unfold n in *; lia).
    rewrite bind_Ret. eexists. cbn [concat]. by rewrite app_nil_r.
  - rewrite blocks_for_more by done. cbn [take mapM]. destruct (sb_bread b) as [data|] eqn:Eb; cbn [mbind option_bind]; [|eauto].
    destruct (Z.geb_spec (zlen pre + block_size) al_end); [unfold n in *; lia|].
    pose proof (Hsize _ _ Eb) as Hd. rewrite blit_prefix, bind_Ret by (unfold n in *; lia).
    replace (take (Z.to_nat block_size) data) with data by (symmetry; apply take_ge; unfold zlen in Hd; lia).
    specialize (IH (pre ++ data) (drop (Z.to_nat block_size) rest) al_end). rewrite !zlen_app, Hd in IH.
    replace (al_end - (zlen pre + block_size)) with (n - block_size) in IH by (unfold n; lia).
    rewrite <- app_assoc in IH.
    assert (Hrest : zlen (drop (Z.to_nat block_size) rest) = zlen rest - block_size) by (unfold zlen in *; rewrite length_drop; unfold n in *; lia).
    specialize (IH ltac:(unfold n in *; lia)). fold n in Hlen. rewrite blocks_for_more in Hlen by done. cbn [length] in Hlen. specialize (IH ltac:(lia)). cbv zeta in IH.
    destruct (mapM sb_bread (take (blocks_for (n - block_size)) bs)) as [ds|]; cbn [mbind option_bind]; [|exact IH].
    destruct IH as [al IH]. exists al. rewrite IH. do 3 f_equal. cbn [concat]. rewrite drop_drop, <- app_assoc.
    rewrite take_app_ge by (unfold zlen in Hd; lia).
    replace (length data) with (Z.to_nat block_size) by (unfold zlen in Hd; lia).
    rewrite <- Z2Nat.inj_sub by lia. rewrite <- app_assoc. do 3 f_equal. f_equal. lia.
Qed.

Lemma mapM_bytes l : forall ds, mapM sb_bread l = Some ds -> zlen (concat ds) = block_size * Z.of_nat (length l).
Proof.
  induction l as [|b l IH]; intros ds; cbn [mapM]; [intros [= <-]; cbn; by rewrite zlen_nil, Z.mul_0_r|].
  destruct (sb_bread b) as [data|] eqn:Eb; [|done]. cbn [mbind option_bind]. destruct (mapM sb_bread l) as [ds'|]; [|done].
  intros [= <-]. cbn [concat length]. rewrite zlen_app, (Hsize _ _ Eb), (IH ds') by done. lia.
Qed.

Lemma blocks_for_enough n : 0 < n -> n <= block_size * Z.of_nat (blocks_for n).
Proof.
  intros Hn. pose proof block_size_pos. unfold blocks_for. rewrite Z2Nat.id by (apply Z.div_pos; lia).
  pose proof (Z.div_mod (n + block_size - 1) block_size ltac:(lia)). pose proof (Z.mod_pos_bound (n + block_size - 1) block_size). lia.
Qed.

(** The blocks of a runlist, in order. *)
Definition rl_blocks (L : list runlist_element) : list Z := concat (run_blocks <$> L).
End Load.

(** C32: [load_attribute_list] on a runlist whose runs are allocated and hold at
    least @initialized_size bytes: it reads exactly the blocks these bytes need, in
    the order of the runs; if all of them can be read it returns 0 and the buffer
    holds those bytes, then zeroes up to @size, and what was behind; if one cannot be
    read it returns -EIO. *)
Theorem load_attribute_list_correct sb_bread block_size_bits cluster_size_bits L t sl al_start size initialized_size :
  0 <= block_size_bits <= cluster_size_bits ->
  (forall b data, sb_bread b = Some data -> zlen data = block_size block_size_bits) ->
  runlist_wf 0 L t -> Forall (run_readable cluster_size_bits) L ->
  0 < initialized_size <= size -> size <= zlen al_start ->
  (blocks_for block_size_bits initialized_size <= length (rl_blocks block_size_bits cluster_size_bits L))%nat ->
  match mapM sb_bread (take (blocks_for block_size_bits initialized_size) (rl_blocks block_size_bits cluster_size_bits L)) with
  | Some ds => load_attribute_list sb_bread block_size_bits cluster_size_bits (Some (L ++ t :: sl)) al_start size initialized_size =
      Ret (take (Z.to_nat initialized_size) (concat ds) ++ repeat 0 (Z.to_nat (size - initialized_size)) ++ drop (Z.to_nat size) al_start, 0)
  | None => exists buf, load_attribute_list sb_bread block_size_bits cluster_size_bits (Some (L ++ t :: sl)) al_start size initialized_size = Ret (buf, - EIO)
  end.
Proof.
  intros Hbits Hsize Hwf HL Hi Hs Hn. unfold load_attribute_list.
  rewrite (proj2 (Z.leb_gt _ _)), (proj2 (Z.ltb_ge _ 0)), Z.gtb_ltb, (proj2 (Z.ltb_ge size _)), (proj2 (Z.eqb_neq _ 0)) by lia. cbn [orb].
  rewrite (read_runs_list sb_bread block_size_bits cluster_size_bits Hbits L _ _ _ _ _ _ [] 0 t sl)
    by (done || lia || (rewrite length_app; cbn; lia)).
  pose proof (read_list_bytes sb_bread block_size_bits cluster_size_bits Hbits Hsize (rl_blocks block_size_bits cluster_size_bits L) [] al_start initialized_size) as H.
  cbn [app] in H. rewrite zlen_nil, Z.sub_0_r in H. specialize (H ltac:(lia) Hn). cbv zeta in H. unfold rl_blocks in *.
  destruct (mapM _ _) as [ds|] eqn:Eds.
  - destruct H as [al ->]. rewrite !bind_Ret. cbn [Z.eqb negb].
    assert (Hds : initialized_size <= zlen (concat ds)).
    { rewrite (mapM_bytes sb_bread block_size_bits Hsize _ _ Eds), length_take.
      pose proof (blocks_for_enough block_size_bits cluster_size_bits Hbits initialized_size ltac:(lia)). rewrite Nat.min_l by done. lia. }
    set (bytes := take (Z.to_nat initialized_size) (concat ds)).
    assert (Hb : zlen bytes = initialized_size) by (unfold bytes, zlen in *; rewrite length_take; lia).
    destruct (Z.ltb_spec initialized_size size) as [Hlt|Hge].
    + assert (H1 : size - initialized_size <= zlen (drop (Z.to_nat initialized_size) al_start)) by (unfold zlen in *; rewrite length_drop; lia).
      assert (H2 : size - initialized_size <= zlen (repeat 0 (Z.to_nat (size - initialized_size)))) by (unfold zlen; rewrite repeat_length; lia).
      pose proof (blit_prefix bytes _ _ _ (conj (ltac:(lia) : 0 <= size - initialized_size) H1) H2) as Hbl.
      rewrite Hb in Hbl. unfold memset0. rewrite Hbl.
      rewrite bind_Ret, drop_drop, take_ge by (rewrite repeat_length; lia). do 4 f_equal. f_equal. lia.
    + replace size with initialized_size by lia. by rewrite Z.sub_diag.
  - destruct H as (buf & al & ->). rewrite bind_Ret. by exists buf.
Qed.

(** Two runs of one cluster of four blocks; ten bytes of a buffer of sixteen. *)
Definition demo_disk (b : Z) : option (list Z) := if (20 <=? b) && (b <? 40) then Some [b; b + 100] else None.
Definition demo_list_runs : rl_buf := [mk_rle 0 5 1; mk_rle 1 8 1].

Lemma load_attribute_list_correct_witness :
  load_attribute_list demo_disk 1 3 (Some (demo_list_runs ++ [mk_rle 2 LCN_ENOENT 0])) (repeat 7 16) 14 9 =
    Ret ([20; 120; 21; 121; 22; 122; 23; 123; 32; 0; 0; 0; 0; 0; 7; 7], 0).
Proof.
  refine (load_attribute_list_correct demo_disk 1 3 demo_list_runs (mk_rle 2 LCN_ENOENT 0) [] (repeat 7 16) 14 9 _ _ _ _ _ _ _);
    [lia| | | |lia|by vm_compute|by vm_compute; lia].
  - intros b data. unfold demo_disk. destruct (_ && _); [|discriminate]. intros [= <-]. reflexivity.
  - unfold runlist_wf, term_ok, LCN_ENOENT. cbn. unfold run_ok, S64_MAX, LCN_RL_NOT_MAPPED. cbn. lia.
  - repeat constructor; cbn; unfold S64_MAX; lia.
Defined.

(** When the runs end before @initialized_size bytes are read the function
    succeeds all the same, and the rest of the buffer is what it was. *)
Example load_short_runlist :
  load_attribute_list demo_disk 1 3 (Some [mk_rle 0 5 1; mk_rle 1 LCN_ENOENT 0]) (repeat 7 16) 12 12 =
    Ret ([20; 120; 21; 121; 22; 122; 23; 123; 7; 7; 7; 7; 7; 7; 7; 7], 0).
Proof. vm_compute. reflexivity. Qed.
