(* ===== verification/Dir.v ===== *)
(** * Looking up a name in a directory

    Models [ntfs_lookup_inode_by_name] of [src/ntfs/dir.c]: the search of a file
    name in the B+tree of a directory, which on a case insensitive mount keeps the
    one name on its way that is equal up to case. *)

From Stdlib Require Import ZArith Lia Bool.
From stdpp Require Import base list numbers option gmap.
From S2P Require Import Prelude Endian Unistr Collate Attrib MftMap AttrLookup Index.

(** ** Layout (layout.h) *)

Definition FILE_NAME_POSIX : Z := 0.
Definition FILE_NAME_WIN32 : Z := 1.
Definition FILE_NAME_DOS : Z := 2.
Definition FILE_NAME_WIN32_AND_DOS : Z := 3.

(** [INDEX_ENTRY] of a directory: @indexed_file, and the [FILE_NAME_ATTR] that is
    its key. *)
Definition IE_indexed_file : Z := 0.
Definition FN_length : Z := 64.
Definition FN_type : Z := 65.
Definition FN_name : Z := 66.

(** The name of the index of file names (dir.c). *)
Definition I30 : list Z := [0x24; 0x49; 0x33; 0x30; 0].

(** [ntfs_name] (dir.h): the @len characters of @name. *)
Record ntfs_name := mk_name { nm_mref : Z; nm_type : Z; nm_len : Z; nm_name : list Z }.

(** ** The entries of a node *)

(** How the loop over the entries is left: corruption or no memory, the entry
    with the name, the entry before which the search goes on. *)
Inductive dir_exit := DErr (err : Z) | DFound (ie : Z) | DStop (ie : Z).

Section Dir.
(** The page cache of the index allocation and of $MFT, the geometry of the volume,
    its upcase table and whether the mount is case sensitive. *)
Context (read_ia_page : Z -> Z + (list Z * bool)) (cluster_size_bits PAGE_CACHE_SHIFT : Z).
Context (upcase : list Z) (upcase_len : Z).
Context (read_mapping_page : Z -> Z + (list Z * bool)) (i_size mft_record_size_bits : Z).
Context (case_sensitive : bool).

(** Keeps the name of the entry at [ie] as the one match up to case. *)
Definition cache_name (mem : list Z) (ie type len : Z) (fname : list Z) (name : option ntfs_name) : M (Z + ntfs_name) :=
  match name with
  | Some _ => mret (inl (- EIO))
  | None =>
      ok ← alloc_ok;
      if (ok : bool) then
        mref ← lift (rd_le64 mem (ie + IE_indexed_file));
        mret (inr (if negb (type =? FILE_NAME_DOS) then mk_name mref type len (take (Z.to_nat len) fname) else mk_name mref type 0 []))
      else mret (inl (- ENOMEM))
  end.

Fixpoint dir_walk (fuel : nat) (mem : list Z) (lower index_end : Z) (uname : list Z) (uname_len : Z) (name : option ntfs_name) (ie : Z)
    : M (option ntfs_name * dir_exit) :=
  match fuel with
  | O => hang
  | S fuel =>
      if (ie <? lower) || (ie + IE_HEADER_SIZE >? index_end) then mret (name, DErr (- EIO))
      else
        key_length ← lift (rd_le16 mem (ie + IE_key_length));
        if ie + key_length >? index_end then mret (name, DErr (- EIO))
        else
          flags ← lift (rd_le16 mem (ie + IE_flags));
          if negb (Z.land flags INDEX_ENTRY_END =? 0) then mret (name, DStop ie)
          else
            len ← lift (rd_u8 mem (ie + IE_key + FN_length));
            let fname := ntfschars_at mem (ie + IE_key + FN_name) in
            equal ← lift (ntfs_are_names_equal uname uname_len fname len CASE_SENSITIVE upcase upcase_len);
            if (equal : bool) then mret (name, DFound ie)
            else
              type ← lift (rd_u8 mem (ie + IE_key + FN_type));
              same ← (if negb case_sensitive && negb (type =? 0)
                      then lift (ntfs_are_names_equal uname uname_len fname len IGNORE_CASE upcase upcase_len) else mret false);
              cached ← (if (same : bool) then r ← cache_name mem ie type len fname name; mret (match r with inl err => inl err | inr n => inr (Some n) end) else mret (inr name));
              match cached with
              | inl err => mret (name, DErr err)
              | inr name =>
                  rc ← lift (ntfs_collate_names uname uname_len fname len 1 IGNORE_CASE upcase upcase_len);
                  if rc =? -1 then mret (name, DStop ie)
                  else if negb (rc =? 0) then
                    length ← lift (rd_le16 mem (ie + IE_length));
                    dir_walk fuel mem lower index_end uname uname_len name (ie + length)
                  else
                    rc ← lift (ntfs_collate_names uname uname_len fname len 1 CASE_SENSITIVE upcase upcase_len);
                    if rc =? -1 then mret (name, DStop ie)
                    else if negb (rc =? 0) then
                      length ← lift (rd_le16 mem (ie + IE_length));
                      dir_walk fuel mem lower index_end uname uname_len name (ie + length)
                    else mret (name, DFound ie)
              end
  end.

(** *@res and the return value: an error, or an mft reference. *)
Abbreviation lookup_result := (option ntfs_name * (Z + Z))%type.

(** The labels [found_it] and [found_it2] *)
Definition found_it (mem : list Z) (ie : Z) (name : option ntfs_name) : M lookup_result :=
  type ← lift (rd_u8 mem (ie + IE_key + FN_type));
  ok ← (if (type =? FILE_NAME_DOS) && bool_decide (name = None) then alloc_ok else mret true);
  if negb (ok : bool) then mret (None, inl (- ENOMEM))
  else
    mref ← lift (rd_le64 mem (ie + IE_indexed_file));
    mret (if type =? FILE_NAME_DOS then Some (mk_name mref FILE_NAME_DOS 0 []) else None, inr mref).

(** No child node: the name kept on the way, if there is one. *)
Definition not_there (name : option ntfs_name) : lookup_result :=
  match name with Some n => (Some n, inr (nm_mref n)) | None => (None, inl (- ENOENT)) end.

(** From the label [fast_descend_into_child_node] on, with the page of the node
    mapped and locked; every way out unlocks and unmaps it. *)
Fixpoint dir_descend (fuel : nat) (wfuel : nat) (dir_ni : index_inode) (uname : list Z) (uname_len : Z) (kaddr : list Z) (vcn : Z)
    (name : option ntfs_name) : M lookup_result :=
  match fuel with
  | O => hang
  | S fuel =>
      let ia := vcn_ofs PAGE_CACHE_SHIFT (vcn_size_bits dir_ni) vcn in
      index_end ← lift (check_index_block PAGE_CACHE_SHIFT (block_size dir_ni) vcn kaddr ia);
      match index_end with
      | None => mret (None, inl (- EIO))
      | Some index_end =>
          entries_offset ← lift (rd_le32 kaddr (ia + IA_index + IH_entries_offset));
          x ← dir_walk wfuel kaddr ia index_end uname uname_len name (ia + IA_index + entries_offset);
          let '(name, exit) := x in
          match exit with
          | DErr err => mret (None, inl err)
          | DFound ie => found_it kaddr ie name
          | DStop ie =>
              flags ← lift (rd_le16 kaddr (ie + IE_flags));
              if Z.land flags INDEX_ENTRY_NODE =? 0 then mret (not_there name)
              else
                node_flags ← lift (rd_u8 kaddr (ia + IA_index + IH_flags));
                if Z.land node_flags NODE_MASK =? LEAF_NODE then mret (None, inl (- EIO))
                else
                  vcn' ← lift (child_vcn kaddr ie);
                  if vcn' >=? 0 then
                    if Z.shiftr (s64 (Z.shiftl vcn cluster_size_bits)) PAGE_CACHE_SHIFT
                       =? Z.shiftr (s64 (Z.shiftl vcn' cluster_size_bits)) PAGE_CACHE_SHIFT
                    then dir_descend fuel wfuel dir_ni uname uname_len kaddr vcn' name
                    else
                      match map_ia_page read_ia_page (vcn_page PAGE_CACHE_SHIFT (vcn_size_bits dir_ni) vcn') with
                      | inl e => mret (None, inl e)
                      | inr kaddr' => dir_descend fuel wfuel dir_ni uname uname_len kaddr' vcn' name
                      end
                  else mret (None, inl (- EIO))
          end
      end
  end.

(** Puts the context and unmaps the record of the directory. *)
Definition release_root (ctx : option ntfs_attr_search_ctx) (dir : ptr) (r : lookup_result) : M lookup_result :=
  match ctx with Some ctx => ntfs_attr_put_search_ctx ctx | None => mret tt end;;
  unmap_mft_record dir;;
  mret r.

(** What follows the walk over the entries of the index root. *)
Definition dir_root_exit (fuel wfuel : nat) (dir_ni : index_inode) (uname : list Z) (uname_len : Z) (ctx : ntfs_attr_search_ctx)
    (name : option ntfs_name) (exit : dir_exit) : M lookup_result :=
  let dir := idx_base_ni dir_ni in
  match exit with
  | DErr err => release_root (Some ctx) dir (None, inl err)
  | DFound ie => r ← found_it (mrec ctx) ie name; release_root (Some ctx) dir r
  | DStop ie =>
      flags ← lift (rd_le16 (mrec ctx) (ie + IE_flags));
      if Z.land flags INDEX_ENTRY_NODE =? 0 then release_root (Some ctx) dir (not_there name)
      else if negb (index_alloc_present dir_ni) then release_root (Some ctx) dir (None, inl (- EIO))
      else
        vcn ← lift (child_vcn (mrec ctx) ie);
        ntfs_attr_put_search_ctx ctx;;
        unmap_mft_record dir;;
        match map_ia_page read_ia_page (vcn_page PAGE_CACHE_SHIFT (vcn_size_bits dir_ni) vcn) with
        | inl e => mret (None, inl e)
        | inr kaddr => dir_descend fuel wfuel dir_ni uname uname_len kaddr vcn name
        end
  end.

(** The search from the index root on. *)
Definition dir_from_root (fuel wfuel : nat) (dir_ni : index_inode) (uname : list Z) (uname_len : Z) (ctx : ntfs_attr_search_ctx) : M lookup_result :=
  value_offset ← lift (rd_le16 (mrec ctx) (attr ctx + A_value_offset));
  let ir := attr ctx + value_offset in
  index_length ← lift (rd_le32 (mrec ctx) (ir + IR_index + IH_index_length));
  entries_offset ← lift (rd_le32 (mrec ctx) (ir + IR_index + IH_entries_offset));
  x ← dir_walk wfuel (mrec ctx) 0 (ir + IR_index + index_length) uname uname_len None (ir + IR_index + entries_offset);
  dir_root_exit fuel wfuel dir_ni uname uname_len ctx (fst x) (snd x).

(** *@res (NULL before the call) and the return value; [fuel] bounds the height of
    the tree, [wfuel] the entries of a node that are passed. *)
Definition ntfs_lookup_inode_by_name (fuel wfuel : nat) (dir_ni : index_inode) (uname : list Z) (uname_len : Z) : M lookup_result :=
  let dir := idx_base_ni dir_ni in
  m ← map_mft_record read_mapping_page i_size mft_record_size_bits PAGE_CACHE_SHIFT dir;
  match m with
  | inl err => mret (None, inl err)
  | inr m =>
      ctx ← ntfs_attr_get_search_ctx dir m;
      match ctx with
      | None => release_root None dir (None, inl (- ENOMEM))
      | Some ctx =>
          r ← ntfs_attr_lookup upcase upcase_len read_mapping_page i_size mft_record_size_bits PAGE_CACHE_SHIFT
                (mk_search AT_INDEX_ROOT (Some I30) 4 CASE_SENSITIVE 0 None 0) ctx;
          let '(ctx, err) := r in
          if negb (err =? 0) then release_root (Some ctx) dir (None, inl (if err =? - ENOENT then - EIO else err))
          else dir_from_root fuel wfuel dir_ni uname uname_len ctx
      end
  end.
End Dir.
