(* ===== verification/DirSpec.v ===== *)
(** * Directories: the tree of names

    A directory as a tree of names, ordered without regard to case and then with
    it, and the search of a name in it.  On a case insensitive mount the search
    keeps a name that is equal up to case; it meets such a name on its way unless a
    POSIX name that is equal up to case stands in between. *)

From Stdlib Require Import ZArith Lia Bool.
From stdpp Require Import base list numbers option gmap sorting.
From S2P Require Import Prelude Endian Unistr UnistrTheorems Collate Attrib MftMap AttrLookup Index IndexSpec Dir.

(** A name of the directory: its namespace, its characters and its mft reference. *)
Record dirent := mk_dirent { d_type : Z; d_name : list Z; d_mref : Z }.

(** An entry of a node: its offset, its name ([None] for the last entry of a node)
    and the index block of its child node. *)
Record dent := mk_dent { de_off : Z; de_key : option dirent; de_child : option Z }.

Section Names.
Context (upcase : list Z) (upcase_len : Z).

Definition folded (s : list Z) : list Z := map (fold_char IGNORE_CASE upcase upcase_len) s.

(** The order of the names of a directory. *)
Definition name_cmp (a b : list Z) : comparison :=
  match lex (folded a) (folded b) with Eq => lex a b | c => c end.

Lemma lex_refl a : lex a a = Eq.
Proof. by apply lex_eq. Qed.

Lemma name_cmp_eq a b : name_cmp a b = Eq <-> a = b.
Proof.
  unfold name_cmp. split; [|intros ->; by rewrite !lex_refl]. destruct (lex (folded a) (folded b)); try done. apply lex_eq.
Qed.

Lemma name_cmp_opp a b : name_cmp b a = CompOpp (name_cmp a b).
Proof. unfold name_cmp. rewrite (lex_opp (folded a) (folded b)). destruct (lex (folded a) (folded b)); cbn; [apply lex_opp|done..]. Qed.

Lemma name_cmp_trans a b c : name_cmp a b = Lt -> name_cmp b c = Lt -> name_cmp a c = Lt.
Proof.
  unfold name_cmp. intros H1 H2.
  destruct (lex (folded a) (folded b)) eqn:E1; [apply lex_eq in E1; rewrite E1|..|done].
  - destruct (lex (folded b) (folded c)); [by eapply lex_trans|done..].
  - destruct (lex (folded b) (folded c)) eqn:E2; [apply lex_eq in E2; by rewrite <- E2, E1|by rewrite (lex_trans _ _ _ E1 E2)|done].
Qed.

(** Between names that are equal up to case are only such names. *)
Lemma name_between a b c : name_cmp a b = Lt -> name_cmp b c = Lt -> folded a = folded c -> folded b = folded c.
Proof.
  unfold name_cmp. intros H1 H2 E. rewrite E in H1. rewrite lex_opp in H1. destruct (lex (folded b) (folded c)) eqn:E2; try done. by apply lex_eq.
Qed.

(** ** The search *)

Context (case_sensitive : bool) (u : list Z).

(** The name is taken for [u] on this mount when [u] itself is not there. *)
Definition matches (d : dirent) : bool :=
  negb case_sensitive && negb (d_type d =? 0) && bool_decide (folded u = folded (d_name d)).

Inductive dstop := At (e : dent) (d : dirent) | Ahead (e : dent).

(** The walk over a node, with the name [c] that was kept so far; a second one is
    an error. *)
Fixpoint dnode_search (c : option dirent) (es : list dent) : option (option dirent * dstop) :=
  match es with
  | [] => None
  | e :: es =>
      match de_key e with
      | None => Some (c, Ahead e)
      | Some d =>
          match name_cmp u (d_name d), matches d, c with
          | Eq, _, _ => Some (c, At e d)
          | _, true, Some _ => None
          | Lt, true, None => Some (Some d, Ahead e)
          | Lt, false, c => Some (c, Ahead e)
          | Gt, true, None => dnode_search (Some d) es
          | Gt, false, c => dnode_search c es
          end
      end
  end.

Context (block : Z -> list dent -> Prop).

(** [dcontent es l]: [l] lists the names of the node [es] and of the nodes below
    it in order. *)
Inductive dcontent : list dent -> list dirent -> Prop :=
| dcontent_last e l : de_key e = None -> dchild_content (de_child e) l -> dcontent [e] l
| dcontent_entry e d l es l' : de_key e = Some d -> dchild_content (de_child e) l -> dcontent es l' ->
    dcontent (e :: es) (l ++ d :: l')
with dchild_content : option Z -> list dirent -> Prop :=
| dchild_none : dchild_content None []
| dchild_some v es l : block v es -> dcontent es l -> dchild_content (Some v) l.

Scheme dcontent_mut := Minimality for dcontent Sort Prop
with dchild_content_mut := Minimality for dchild_content Sort Prop.

(** The search in the tree: the entry with the name, if there is one, and the name
    that was kept. *)
Inductive dtree_search : option dirent -> list dent -> option dirent -> option dirent -> Prop :=
| ds_found c es c' e d : dnode_search c es = Some (c', At e d) -> dtree_search c es c' (Some d)
| ds_leaf c es c' e : dnode_search c es = Some (c', Ahead e) -> de_child e = None -> dtree_search c es c' None
| ds_child c es c' e v es' c'' r : dnode_search c es = Some (c', Ahead e) -> de_child e = Some v -> block v es' ->
    dtree_search c' es' c'' r -> dtree_search c es c'' r.

(** The names are in order, and no two outside the POSIX namespace are equal up to
    case. *)
Definition dir_before (a b : dirent) : Prop :=
  name_cmp (d_name a) (d_name b) = Lt /\ (d_type a <> 0 -> d_type b <> 0 -> folded (d_name a) <> folded (d_name b)).

Definition dir_sorted (l : list dirent) : Prop := StronglySorted dir_before l.

(** What the search must come to in a tree with names [l]. *)
Definition search_right (l : list dirent) (c c' r : option dirent) : Prop :=
  match r with
  | Some d => d ∈ l /\ d_name d = u
  | None => (forall d, d ∈ l -> d_name d <> u) /\
      match c' with
      | Some d => c = Some d \/ c = None /\ d ∈ l /\ matches d = true
      | None => c = None /\ forall d, d ∈ l -> matches d = true ->
          exists p, p ∈ l /\ d_type p = 0 /\ folded (d_name p) = folded u
      end
  end.

(** Nothing in [l] matches once a name is kept. *)
Definition kept_ok (c : option dirent) (l : list dirent) : Prop := is_Some c -> forall d, d ∈ l -> matches d = false.

Lemma matches_spec d : matches d = true <-> case_sensitive = false /\ d_type d <> 0 /\ folded (d_name d) = folded u.
Proof. unfold matches. rewrite !andb_true_iff, !negb_true_iff, Z.eqb_neq, bool_decide_eq_true. naive_solver. Qed.

(** One step of the search: the name [d] is passed, the part [X] is left aside and
    the search goes on in [K]. *)
Section Pass.
Context (l X K : list dirent) (d : dirent) (c : option dirent).
Hypothesis Hl : forall x, x ∈ l <-> x ∈ X \/ x = d \/ x ∈ K.
Hypothesis Hd : d_name d <> u.
Hypothesis HX : forall x, x ∈ X -> d_name x <> u.
Hypothesis Hbetween : forall x, x ∈ X -> folded (d_name x) = folded u -> folded (d_name d) = folded u.
Hypothesis Huniq : forall x, x ∈ K -> d_type x <> 0 -> d_type d <> 0 -> folded (d_name x) <> folded (d_name d).
Hypothesis Hkept : kept_ok c l.

Definition pass : option dirent := if matches d then Some d else c.

Lemma pass_kept : kept_ok pass K.
Proof.
  intros Hs x Hx. unfold pass in Hs. destruct (matches d) eqn:E; [|apply Hkept; [done|apply Hl; by do 2 right]].
  destruct (matches x) eqn:Ex; [|done]. apply matches_spec in E as (_ & H1 & H2). apply matches_spec in Ex as (_ & H3 & H4).
  destruct (Huniq x Hx H3 H1). congruence.
Qed.

Lemma pass_none : matches d = true -> c = None.
Proof. intros E. destruct c as [x|] eqn:Ec; [|done]. rewrite (Hkept ltac:(eauto) d) in E; [done|]. apply Hl. naive_solver. Qed.

Lemma pass_right c' r : search_right K pass c' r -> search_right l c c' r.
Proof.
  unfold search_right. destruct r as [x|]; [intros [H1 H2]; split; [apply Hl; by do 2 right|done]|]. intros [H1 H2]. split.
  { intros x [Hx|[->|Hx]]%Hl; auto. }
  unfold pass in H2. destruct (matches d) eqn:E.
  - destruct c' as [m|]; [|by destruct H2]. destruct H2 as [[= <-]|[? _]]; [|done]. right. split; [by apply pass_none|]. split; [apply Hl; naive_solver|done].
  - destruct c' as [m|].
    + destruct H2 as [H2|(H2 & H3 & H4)]; [by left|]. right. split; [done|]. split; [apply Hl; naive_solver|done].
    + destruct H2 as [Hc0 H2]. split; [done|]. intros x [Hx|[->|Hx]]%Hl Hm; [|congruence|].
      * exists d. apply matches_spec in Hm as (Hcs & _ & Hf). pose proof (Hbetween x Hx Hf) as Hfd. split; [apply Hl; naive_solver|]. split; [|done].
        destruct (decide (d_type d = 0)) as [|Hn]; [done|]. by rewrite (proj2 (matches_spec d)) in E.
      * destruct (H2 x Hx Hm) as (p & Hp & Hp2). exists p. split; [apply Hl; naive_solver|done].
Qed.
End Pass.

Lemma dnode_pass c e d es : de_key e = Some d -> (matches d = true -> c = None) ->
  dnode_search c (e :: es) = match name_cmp u (d_name d) with
    | Eq => Some (c, At e d) | Lt => Some (pass d c, Ahead e) | Gt => dnode_search (pass d c) es end.
Proof.
  intros Hk Hc. cbn [dnode_search]. rewrite Hk. unfold pass. destruct (name_cmp u (d_name d)), (matches d); try done; by rewrite (Hc eq_refl).
Qed.

(** In a sorted directory the search comes to what it must. *)
Lemma dtree_search_right es l : dcontent es l -> dir_sorted l -> forall c, kept_ok c l ->
  exists c' r, dtree_search c es c' r /\ search_right l c c' r.
Proof.
  intros Hc. revert es l Hc.
  apply (dcontent_mut (fun es l => dir_sorted l -> forall c, kept_ok c l -> exists c' r, dtree_search c es c' r /\ search_right l c c' r)
    (fun ch l => dir_sorted l -> match ch with
       | None => l = []
       | Some v => exists es, block v es /\ forall c, kept_ok c l -> exists c' r, dtree_search c es c' r /\ search_right l c c' r
       end)).
  - intros e l Hk _ IH Hs c Hkept. specialize (IH Hs). destruct (de_child e) as [v|] eqn:Ech.
    + destruct IH as (es & Hb & IH). destruct (IH c Hkept) as (c' & r & Ht & Hr). exists c', r. split; [|done].
      eapply ds_child; [cbn; by rewrite Hk|done|done|done].
    + subst l. exists c, None. split; [eapply ds_leaf; [cbn; by rewrite Hk|done]|]. split; [intros d []%elem_of_nil|].
      destruct c; [by left|]. split; [done|]. intros d []%elem_of_nil.
  - intros e d l es l' Hk _ IHc _ IHes Hs c Hkept. unfold dir_sorted in Hs.
    rewrite StronglySorted_app, StronglySorted_cons, list.Forall_forall in Hs. destruct Hs as (H12 & Hs1 & Hd2 & Hs2).
    assert (Hmem : forall x, x ∈ l ++ d :: l' <-> x ∈ l \/ x = d \/ x ∈ l') by (intros x; rewrite elem_of_app, elem_of_cons; naive_solver).
    pose proof (dnode_pass c e d es Hk (pass_none _ _ _ _ _ Hmem Hkept)) as Hn.
    destruct (name_cmp u (d_name d)) eqn:Ecmp.
    + apply name_cmp_eq in Ecmp. exists c, (Some d). split; [by eapply ds_found|]. split; [apply Hmem; naive_solver|done].
    + assert (Hdu : d_name d <> u) by (intros E; by rewrite (proj2 (name_cmp_eq _ _)) in Ecmp).
      assert (HX : forall x, x ∈ l' -> name_cmp u (d_name x) = Lt) by (intros x Hx; eapply name_cmp_trans; [done|by apply Hd2]).
      assert (Hmem' : forall x, x ∈ l ++ d :: l' <-> x ∈ l' \/ x = d \/ x ∈ l) by (intros x; rewrite Hmem; naive_solver).
      assert (Hnu : forall x, x ∈ l' -> d_name x <> u) by (intros x Hx E; specialize (HX x Hx); by rewrite E, (proj2 (name_cmp_eq _ _)) in HX).
      assert (Hbt : forall x, x ∈ l' -> folded (d_name x) = folded u -> folded (d_name d) = folded u)
        by (intros x Hx E; rewrite <- E; apply (name_between u); [done|by apply Hd2|done]).
      assert (Hun : forall x, x ∈ l -> d_type x <> 0 -> d_type d <> 0 -> folded (d_name x) <> folded (d_name d))
        by (intros x Hx; apply H12; [done|left]).
      specialize (IHc Hs1). destruct (de_child e) as [v|] eqn:Ech.
      * destruct IHc as (es' & Hb & IH). destruct (IH (pass d c)) as (c' & r & Ht & Hr); [by eapply (pass_kept _ l' l)|].
        exists c', r. split; [by eapply ds_child|]. by eapply (pass_right _ l' l).
      * subst l. exists (pass d c), None. split; [by eapply ds_leaf|]. eapply (pass_right _ l' []); try done.
        split; [intros x []%elem_of_nil|]. destruct (pass d c); [by left|]. split; [done|]. intros x []%elem_of_nil.
    + assert (Hlt : name_cmp (d_name d) u = Lt) by (by rewrite name_cmp_opp, Ecmp).
      assert (Hdu : d_name d <> u) by (intros E; by rewrite (proj2 (name_cmp_eq _ _)) in Ecmp).
      assert (HX : forall x, x ∈ l -> name_cmp (d_name x) u = Lt) by (intros x Hx; eapply name_cmp_trans; [|done]; apply H12; [done|left]).
      assert (Hnu : forall x, x ∈ l -> d_name x <> u) by (intros x Hx E; specialize (HX x Hx); by rewrite E, (proj2 (name_cmp_eq _ _)) in HX).
      assert (Hbt : forall x, x ∈ l -> folded (d_name x) = folded u -> folded (d_name d) = folded u).
      { intros x Hx E. apply (name_between (d_name x)); [apply H12; [done|left]|done|done]. }
      assert (Hun : forall x, x ∈ l' -> d_type x <> 0 -> d_type d <> 0 -> folded (d_name x) <> folded (d_name d)).
      { intros x Hx H1 H2 E. by apply (proj2 (Hd2 x Hx)). }
      destruct (IHes Hs2 (pass d c)) as (c' & r & Ht & Hr); [by eapply (pass_kept _ l l')|].
      exists c', r. split; [|by eapply (pass_right _ l l')].
      inversion Ht; subst; [eapply ds_found|eapply ds_leaf|eapply ds_child]; try done; by rewrite Hn.
  - done.
  - intros v es l Hb _ IH Hs. eauto.
Qed.
End Names.
