(* ===== verification/DirTheorems.v ===== *)
(** * Directory lookup: theorems

    The walk over the bytes of a directory is the search in its tree of names, and
    [ntfs_lookup_inode_by_name] returns what the names of the directory say. *)

From Stdlib Require Import ZArith Lia Bool.
From stdpp Require Import base list numbers option gmap sorting.
From S2P Require Import Prelude Endian Unistr UnistrTheorems Collate Attrib MftMap MftMapSpec AttrLookup AttrLookupProof AttrLookupInv AttrLookupTheorems AttrSession.
From S2P Require Import Index IndexSpec IndexTheorems Dir DirSpec.

(** ** Steps that only allocate *)

Definition used (w w' : world) : Prop :=
  inodes w' = inodes w /\ pinned w' = pinned w /\ vol_errors w' = vol_errors w /\ allocs w' `suffix_of` allocs w.

Lemma used_refl w : used w w.
Proof. by split_and!. Qed.

Lemma used_trans w1 w2 w3 : used w1 w2 -> used w2 w3 -> used w1 w3.
Proof. intros (H1 & H2 & H3 & H4) (G1 & G2 & G3 & G4). split_and!; [congruence..|by etrans]. Qed.

Lemma used_fails w1 w2 : used w1 w2 -> false ∈ allocs w2 -> false ∈ allocs w1.
Proof. intros (_ & _ & _ & k & ->) H. apply elem_of_app. by right. Qed.

(** The code returns [good], or gives up as [bad] says, and then an allocation
    failed. *)
Definition yields {A} (w : world) (o : outcome (world * A)) (good : A) (bad : A -> Prop) : Prop :=
  exists w' x, o = Ret (w', x) /\ used w w' /\ (x = good \/ bad x /\ false ∈ allocs w).

(** Releasing does not allocate. *)
Definition no_alloc {A} (m : M A) : Prop := forall w w' a, m w = Ret (w', a) -> allocs w' = allocs w.

Lemma no_alloc_bind {A B} (m : M A) (f : A -> M B) : no_alloc m -> (forall a, no_alloc (f a)) -> no_alloc (m ≫= f).
Proof.
  intros Hm Hf w w' b E. unfold mbind, M_bind in E. apply bind_Ret_inv in E as ([w1 a] & E1 & E2). rewrite (Hf a _ _ _ E2). by eapply Hm.
Qed.

Lemma no_alloc_modify p f : no_alloc (modify p f).
Proof. intros w w' a. unfold modify. destruct (inodes w !! p); [|done]. by intros [= <- <-]. Qed.

Lemma no_alloc_get p : no_alloc (get p).
Proof. intros w w' a. unfold get. destruct (inodes w !! p); [|done]. by intros [= <- <-]. Qed.

Lemma no_alloc_lift {A} (o : outcome A) : no_alloc (lift o).
Proof. intros w w' a E. unfold lift in E. by apply bind_Ret_inv in E as (x & _ & [= <- <-]). Qed.

Lemma no_alloc_unmap p : no_alloc (unmap_mft_record p).
Proof.
  unfold unmap_mft_record, unmap_mft_record_page. repeat (apply no_alloc_bind; [|intros ?]); eauto using no_alloc_get, no_alloc_modify, no_alloc_lift.
  destruct (page _); [|done]. apply no_alloc_bind; [|intros ?; apply no_alloc_modify]. by intros w w' b [= <- <-].
Qed.

Lemma no_alloc_put ctx : no_alloc (ntfs_attr_put_search_ctx ctx).
Proof.
  unfold ntfs_attr_put_search_ctx. destruct (base_ntfs_ino ctx); [case_bool_decide; [|apply no_alloc_unmap]|]; by intros w w' b [= <- <-].
Qed.

Lemma yields_ret {A} w (x : A) bad : yields w (Ret (w, x)) x bad.
Proof. exists w, x. split; [done|]. split; [apply used_refl|by left]. Qed.

Lemma yields_step {A} w w1 (o : outcome (world * A)) good bad : used w w1 -> yields w1 o good bad -> yields w o good bad.
Proof.
  intros Hu (w' & x & E & Hu' & H). exists w', x. split; [done|]. split; [by eapply used_trans|].
  destruct H as [|[H1 H2]]; [by left|]. right. split; [done|]. by eapply used_fails.
Qed.

Lemma yields_bind {A B} w (m : M A) (f : A -> M B) a good (bada : A -> Prop) (bad : B -> Prop) :
  yields w (m w) a bada ->
  (forall w', used w w' -> yields w' (f a w') good bad) ->
  (forall w' x, used w w' -> bada x -> exists y, f x w' = Ret (w', y) /\ bad y) ->
  yields w ((m ≫= f) w) good bad.
Proof.
  intros (w' & x & E & Hu & [->|[Hb Hf]]) Hgood Hbad; rewrite (M_run _ _ _ _ _ E).
  - eapply yields_step; [done|by apply Hgood].
  - destruct (Hbad w' x Hu Hb) as (y & Ey & Hy). rewrite Ey. exists w', y. split; [done|]. split; [done|]. by right.
Qed.

Lemma alloc_spec w : yields w (alloc_ok w) true (fun b => b = false).
Proof.
  unfold alloc_ok. destruct (allocs w) as [|b l] eqn:E; [apply yields_ret|].
  exists (mk_world (inodes w) (pinned w) (vol_errors w) l), b. split; [done|].
  split; [split_and!; try done; rewrite E; by exists [b]|]. destruct b; [by left|]. right. split; [done|]. rewrite E. left.
Qed.

Lemma yields_alloc {A} w (f : bool -> M A) good (bad : A -> Prop) :
  (forall w', used w w' -> yields w' (f true w') good bad) ->
  (forall w', used w w' -> exists y, f false w' = Ret (w', y) /\ bad y) ->
  yields w ((alloc_ok ≫= f) w) good bad.
Proof.
  intros H1 H2. apply (yields_bind _ _ _ true _ (fun b => b = false)); [apply alloc_spec|done|intros w' x Hu ->; by apply H2].
Qed.

(** ** Names and entries in memory *)

(** What is kept of a name. *)
Definition kept_name (d : dirent) : ntfs_name :=
  if d_type d =? FILE_NAME_DOS then mk_name (d_mref d) (d_type d) 0 [] else mk_name (d_mref d) (d_type d) (zlen (d_name d)) (d_name d).

Record dirent_at (mem : list Z) (off : Z) (d : dirent) : Prop := {
  da_mref : rd_le64 mem (off + IE_indexed_file) = Ret (d_mref d);
  da_type : rd_u8 mem (off + IE_key + FN_type) = Ret (d_type d);
  da_len : rd_u8 mem (off + IE_key + FN_length) = Ret (zlen (d_name d));
  da_chars : Forall char_ok (d_name d);
  da_name : exists post, ntfschars_at mem (off + IE_key + FN_name) = d_name d ++ post;
}.

(** The fixed part of an entry. *)
Definition dheader_at (mem : list Z) (iend off len flags : Z) (child : option Z) : Prop :=
  header_at mem iend off len flags child /\ exists klen, rd_le16 mem (off + IE_key_length) = Ret klen /\ off + klen <= iend.

Inductive dentries_at (mem : list Z) (iend : Z) : Z -> list dent -> Prop :=
| dea_last off len flags child :
    dheader_at mem iend off len flags child -> Z.land flags INDEX_ENTRY_END <> 0 ->
    dentries_at mem iend off [mk_dent off None child]
| dea_entry off len flags child d es :
    dheader_at mem iend off len flags child -> Z.land flags INDEX_ENTRY_END = 0 -> 0 < len ->
    dirent_at mem off d -> dentries_at mem iend (off + len) es ->
    dentries_at mem iend off (mk_dent off (Some d) child :: es).

Abbreviation lookup_res := (option ntfs_name * (Z + Z))%type.

Section Walk.
Context (upcase : list Z) (upcase_len : Z) (case_sensitive : bool) (u ur : list Z).
Hypothesis Htab : table_ok upcase upcase_len.

(** The name that is searched: no invalid character and no NUL. *)
Definition uname_ok : Prop :=
  name_ok IGNORE_CASE upcase upcase_len u /\ Forall (fun c => c <> 0) u /\
  Forall (fun c => fold_char IGNORE_CASE upcase upcase_len c <> 0) u.
Hypothesis Hu : uname_ok.

Local Abbreviation walk := (dir_walk upcase upcase_len case_sensitive).
Local Abbreviation nsearch := (dnode_search upcase upcase_len case_sensitive u).

(** The comparisons of the walk. *)
Lemma walk_equal ic s post : Forall char_ok s ->
  ntfs_are_names_equal (u ++ ur) (zlen u) (s ++ post) (zlen s) ic upcase upcase_len =
    Ret (match ic with CASE_SENSITIVE => bool_decide (u = s) | IGNORE_CASE => bool_decide (folded upcase upcase_len u = folded upcase upcase_len s) end).
Proof.
  intros Hs. destruct Hu as ((H1 & _) & H2 & H3). rewrite names_equal_spec by (try done; by destruct ic). destruct ic; [|done].
  unfold fold_char. by rewrite !map_id.
Qed.

Lemma walk_collate ic s post : Forall char_ok s ->
  ntfs_collate_names (u ++ ur) (zlen u) (s ++ post) (zlen s) 1 ic upcase upcase_len =
    Ret (sgn (match ic with CASE_SENSITIVE => lex u s | IGNORE_CASE => lex (folded upcase upcase_len u) (folded upcase upcase_len s) end)).
Proof.
  intros Hs. destruct Hu as ((H1 & H2 & H3) & _). rewrite collate_names_spec by (try done; by destruct ic). destruct ic; [|done].
  unfold fold_char. by rewrite !map_id.
Qed.

Lemma cache_name_spec mem off d fname post w : dirent_at mem off d -> fname = d_name d ++ post ->
  yields w (cache_name mem off (d_type d) (zlen (d_name d)) fname None w) (inr (kept_name d)) (fun x => x = inl (- ENOMEM)).
Proof.
  intros Hd ->. unfold cache_name. apply yields_alloc; [|intros w' _; by eexists]. intros w' _.
  rewrite (M_run _ _ _ _ _ (lift_eq _ _ _ (da_mref _ _ _ Hd))). unfold kept_name.
  replace (take (Z.to_nat (zlen (d_name d))) (d_name d ++ post)) with (d_name d) by (unfold zlen; rewrite Nat2Z.id; by rewrite take_app_length).
  destruct (d_type d =? FILE_NAME_DOS); apply yields_ret.
Qed.

Definition stop_exit (s : dstop) : dir_exit := match s with At e _ => DFound (de_off e) | Ahead e => DStop (de_off e) end.

(** The entry is kept when it matches. *)
Lemma match_spec d post w : Forall char_ok (d_name d) ->
  (if negb case_sensitive && negb (d_type d =? 0)
   then lift (ntfs_are_names_equal (u ++ ur) (zlen u) (d_name d ++ post) (zlen (d_name d)) IGNORE_CASE upcase upcase_len) else mret false) w
  = Ret (w, matches upcase upcase_len case_sensitive u d).
Proof.
  intros Hd. unfold matches. destruct (negb case_sensitive && negb (d_type d =? 0)); [|done]. cbn [andb]. by apply lift_eq, walk_equal.
Qed.

Lemma keep_spec mem off d post c w : dirent_at mem off d -> (matches upcase upcase_len case_sensitive u d = true -> c = None) ->
  yields w ((if matches upcase upcase_len case_sensitive u d
             then r ← cache_name mem off (d_type d) (zlen (d_name d)) (d_name d ++ post) (kept_name <$> c);
               mret (match r with inl err => inl err | inr n => inr (Some n) end) else mret (inr (kept_name <$> c))) w)
    (inr (kept_name <$> pass upcase upcase_len case_sensitive u d c)) (fun x : Z + option ntfs_name => x = inl (- ENOMEM)).
Proof.
  intros Hd Hc. unfold pass. destruct (matches upcase upcase_len case_sensitive u d); [|apply yields_ret].
  rewrite (Hc eq_refl). eapply yields_bind; [by eapply cache_name_spec|intros w' _; apply yields_ret|intros w' x _ ->; by eexists].
Qed.

Lemma dir_walk_spec mem iend lower off es : dentries_at mem iend off es -> lower <= off ->
  forall fuel w c c' s, (length es <= fuel)%nat -> nsearch c es = Some (c', s) ->
  yields w (walk fuel mem lower iend (u ++ ur) (zlen u) (kept_name <$> c) off w) (kept_name <$> c', stop_exit s) (fun x => snd x = DErr (- ENOMEM)).
Proof.
  induction 1 as [off len flags child ((H1 & H2 & H3 & H4 & H5) & klen & Hkl & Hkl2) Hend
    |off len flags child d es ((H1 & H2 & H3 & H4 & H5) & klen & Hkl & Hkl2) Hend Hlen Hd _ IH];
    intros Hlow fuel w c c' s Hf Hs; (destruct fuel as [|fuel]; [cbn in Hf; lia|]); cbn [dir_walk];
    (destruct (Z.ltb_spec off lower); [lia|]); (destruct (Z.gtb_spec (off + IE_HEADER_SIZE) iend); [lia|]); cbn [orb];
    rewrite (M_run _ _ _ _ _ (lift_eq _ _ _ Hkl)); (destruct (Z.gtb_spec (off + klen) iend); [lia|]);
    rewrite (M_run _ _ _ _ _ (lift_eq _ _ _ H4)).
  { rewrite (proj2 (Z.eqb_neq _ 0)) by done. injection Hs as <- <-. apply yields_ret. }
  rewrite Hend. cbn [negb Z.eqb]. destruct Hd as [Hmref Htype Hl Hch (post & Hname)] eqn:Ed. clear Ed.
  rewrite (M_run _ _ _ _ _ (lift_eq _ _ _ Hl)), Hname. cbv zeta.
  rewrite (M_run _ _ _ _ _ (lift_eq _ _ _ (walk_equal CASE_SENSITIVE (d_name d) post Hch))).
  case_bool_decide as Heq.
  { cbn in Hs. rewrite (proj2 (name_cmp_eq _ _ _ _) Heq) in Hs. injection Hs as <- <-. apply yields_ret. }
  assert (Hne : name_cmp upcase upcase_len u (d_name d) <> Eq) by (by intros E%name_cmp_eq).
  assert (Hm : matches upcase upcase_len case_sensitive u d = true -> c = None).
  { intros E. destruct c as [x|]; [|done]. cbn [dnode_search de_key] in Hs. rewrite E in Hs. by destruct (name_cmp upcase upcase_len u (d_name d)). }
  rewrite dnode_pass with (d := d) in Hs by done.
  rewrite (M_run _ _ _ _ _ (lift_eq _ _ _ Htype)), (M_run _ _ _ _ _ (match_spec d post w Hch)).
  eapply yields_bind; [by apply keep_spec| |intros w' x _ ->; by eexists].
  intros w' _. cbn [fmap]. unfold name_cmp in *.
  rewrite (M_run _ _ _ _ _ (lift_eq _ _ _ (walk_collate IGNORE_CASE (d_name d) post Hch))).
  destruct (lex (folded upcase upcase_len u) (folded upcase upcase_len (d_name d))); cbn [sgn Z.eqb Z.opp negb].
  - rewrite (M_run _ _ _ _ _ (lift_eq _ _ _ (walk_collate CASE_SENSITIVE (d_name d) post Hch))).
    destruct (lex u (d_name d)); cbn [sgn Z.eqb Z.opp negb]; [done|injection Hs as <- <-; apply yields_ret|].
    rewrite (M_run _ _ _ _ _ (lift_eq _ _ _ H3)). apply IH; [lia|cbn in Hf; lia|done].
  - injection Hs as <- <-. apply yields_ret.
  - rewrite (M_run _ _ _ _ _ (lift_eq _ _ _ H3)). apply IH; [lia|cbn in Hf; lia|done].
Qed.

(** What can be read of the entry a walk comes to. *)
Lemma at_reads mem iend off es : dentries_at mem iend off es ->
  forall c c' e d, nsearch c es = Some (c', At e d) -> dirent_at mem (de_off e) d.
Proof.
  induction 1 as [|off len flags child d es Hh Hend Hlen Hd _ IH]; intros c c' e x Hs; cbn in Hs; [done|].
  destruct (name_cmp upcase upcase_len u (d_name d)), (matches upcase upcase_len case_sensitive u d), c; simplify_eq; eauto.
Qed.

Lemma ahead_reads mem iend off es : dentries_at mem iend off es ->
  forall c c' e, nsearch c es = Some (c', Ahead e) -> e ∈ es /\ exists len flags, header_at mem iend (de_off e) len flags (de_child e).
Proof.
  induction 1 as [off len flags child [Hh _] Hend|off len flags child d es [Hh _] Hend Hlen Hd _ IH]; intros c c' e Hs; cbn in Hs.
  - simplify_eq. split; [left|]. by exists len, flags.
  - assert (Hnext : forall c, nsearch c es = Some (c', Ahead e) ->
      e ∈ mk_dent off (Some d) child :: es /\ exists len flags, header_at mem iend (de_off e) len flags (de_child e)).
    { intros c0 Hs0. destruct (IH _ _ _ Hs0) as [Hin H']. split; [by right|done]. }
    destruct (name_cmp upcase upcase_len u (d_name d)), (matches upcase upcase_len case_sensitive u d), c; simplify_eq; eauto using list_elem_of_here.
Qed.

(** ** Results *)

Definition no_memory (x : lookup_res) : Prop := x = (None, inl (- ENOMEM)).

Definition found_result (d : dirent) : lookup_res :=
  (if d_type d =? FILE_NAME_DOS then Some (mk_name (d_mref d) FILE_NAME_DOS 0 []) else None, inr (d_mref d)).

Definition search_result (c r : option dirent) : lookup_res :=
  match r, c with
  | Some d, _ => found_result d
  | None, Some d => (Some (kept_name d), inr (d_mref d))
  | None, None => (None, inl (- ENOENT))
  end.

Lemma not_there_result c : not_there (kept_name <$> c) = search_result c None.
Proof. destruct c as [d|]; [|done]. cbn. do 2 f_equal. unfold kept_name. by destruct (d_type d =? FILE_NAME_DOS). Qed.

Lemma found_it_spec mem off d name w : dirent_at mem off d -> yields w (found_it mem off name w) (found_result d) no_memory.
Proof.
  intros [Hmref Htype _ _ _]. unfold found_it. rewrite (M_run _ _ _ _ _ (lift_eq _ _ _ Htype)).
  eapply (yields_bind _ _ _ true _ (fun ok => ok = false)); [| |intros w' x _ ->; by eexists].
  - destruct ((d_type d =? FILE_NAME_DOS) && bool_decide (name = None)); [apply alloc_spec|apply yields_ret].
  - intros w' _. cbn [negb]. rewrite (M_run _ _ _ _ _ (lift_eq _ _ _ Hmref)). apply yields_ret.
Qed.

(** ** Index blocks *)

Section Blocks.
Context (read_ia_page : Z -> Z + (list Z * bool)) (cluster_size_bits shift : Z) (dir_ni : index_inode).
Hypothesis Hbits : 0 <= vcn_size_bits dir_ni <= cluster_size_bits.
Hypothesis Hshift : 0 <= shift.

Local Abbreviation ofs_of v := (vcn_ofs shift (vcn_size_bits dir_ni) v).
Local Abbreviation page_of v := (map_ia_page read_ia_page (vcn_page shift (vcn_size_bits dir_ni) v)).

(** Index block [v] is sound and has the entries [es]. *)
Record dblock_ok (v : Z) (es : list dent) : Prop := {
  db_range : 0 <= v /\ v * 2 ^ cluster_size_bits <= S64_MAX;
  db_node : exists kaddr iend eo nf, page_of v = inr kaddr /\
    check_index_block shift (block_size dir_ni) v kaddr (ofs_of v) = Ret (Some iend) /\
    rd_le32 kaddr (ofs_of v + IA_index + IH_entries_offset) = Ret eo /\ 0 <= eo /\
    dentries_at kaddr iend (ofs_of v + IA_index + eo) es /\
    rd_u8 kaddr (ofs_of v + IA_index + IH_flags) = Ret nf /\
    (forall e, e ∈ es -> is_Some (de_child e) -> Z.land nf NODE_MASK <> LEAF_NODE);
}.

Local Abbreviation descend := (dir_descend read_ia_page cluster_size_bits shift upcase upcase_len case_sensitive).

(** Going down the tree. *)
Lemma dir_descend_spec c es c' r : dtree_search upcase upcase_len case_sensitive u dblock_ok c es c' r ->
  forall v kaddr, dblock_ok v es -> page_of v = inr kaddr ->
  exists h, forall fuel wfuel w, (h <= fuel)%nat -> (h <= wfuel)%nat ->
    yields w (descend fuel wfuel dir_ni (u ++ ur) (zlen u) kaddr v (kept_name <$> c) w) (search_result c' r) no_memory.
Proof.
  induction 1 as [c es c' e d Hs|c es c' e Hs Hc|c es c1 e v' es' c' r Hs Hc Hb' _ IH]; intros v kaddr Hb Hm;
    pose proof Hb as [Hvr (kaddr' & iend & eo & nf & Hm' & Hchk & Heo & Heo2 & Hent & Hnf & Hnode)];
    rewrite Hm in Hm'; injection Hm' as <-.
  3: pose proof Hb' as [Hvr' (kaddr' & _ & _ & _ & Hm2 & _)]; destruct (IH v' kaddr' Hb' Hm2) as (h & Hh).
  1, 2: exists (S (length es)). 3: exists (S (Nat.max h (length es))).
  all: intros fuel wfuel w Hf Hw; (destruct fuel as [|fuel]; [lia|]); cbn [dir_descend];
    rewrite (M_run _ _ _ _ _ (lift_eq _ _ _ Hchk)), (M_run _ _ _ _ _ (lift_eq _ _ _ Heo));
    (eapply yields_bind; [apply (dir_walk_spec _ _ _ _ _ Hent); [unfold IA_index; lia|lia|exact Hs]|intros w' _|intros w' [x y] _ Hx; cbn in Hx; subst y; by eexists]);
    cbv beta iota; cbn [stop_exit].
  - apply found_it_spec. by eapply at_reads.
  - destruct (ahead_reads _ _ _ _ Hent _ _ _ Hs) as (Hin & len & flags & Hhd). destruct Hhd as (Ho1 & Ho2 & Hlen & Hfl & Hch).
    rewrite (M_run _ _ _ _ _ (lift_eq _ _ _ Hfl)). rewrite Hc in Hch. cbn in Hch. rewrite Hch. cbn [Z.eqb].
    rewrite not_there_result. apply yields_ret.
  - destruct (ahead_reads _ _ _ _ Hent _ _ _ Hs) as (Hin & len & flags & Hhd). destruct Hhd as (Ho1 & Ho2 & Hlen & Hfl & Hch).
    rewrite (M_run _ _ _ _ _ (lift_eq _ _ _ Hfl)). rewrite Hc in Hch. destruct Hch as [Hnd Hvcn]. rewrite (proj2 (Z.eqb_neq _ 0)) by done.
    rewrite (M_run _ _ _ _ _ (lift_eq _ _ _ Hnf)), (proj2 (Z.eqb_neq _ LEAF_NODE)) by (apply (Hnode e); [done|rewrite Hc; eauto]).
    rewrite (M_run _ _ w' w' v') by (apply lift_eq; unfold child_vcn; by rewrite Hlen, bind_Ret).
    destruct (Z.geb_spec v' 0); [|lia].
    match goal with |- context [Z.eqb ?x ?y] => destruct (Z.eqb_spec x y) as [Ep|Ep] end.
    + pose proof (same_page _ _ _ Hbits Hshift v v' Hvr Hvr' Ep) as Epg. rewrite <- Epg, Hm in Hm2. injection Hm2 as <-.
      apply Hh; lia.
    + rewrite Hm2. apply Hh; lia.
Qed.
End Blocks.
End Walk.

(** ** The index root *)

Section Root.
Context (upcase : list Z) (upcase_len : Z) (case_sensitive : bool) (u ur : list Z).
Context (read_mapping_page : Z -> Z + (list Z * bool)) (i_size bits shift : Z).
Context (read_ia_page : Z -> Z + (list Z * bool)) (cluster_size_bits : Z).
Hypothesis Htab : table_ok upcase upcase_len.
Hypothesis Hu : uname_ok upcase upcase_len u.
Hypothesis Hbits : 8 <= bits <= shift.
Hypothesis Hshift : shift < 31.
Hypothesis Hpages : forall n data err, read_mapping_page n = inr (data, err) -> zlen data = page_size shift /\ Forall byte_ok data.

(** The index root at the attribute of [actx] is a node with entries [es]. *)
Record droot_ok (dir_ni : index_inode) (actx : ntfs_attr_search_ctx) (ir : Z) (es : list dent) : Prop := {
  dr_ir : 0 <= ir /\ rd_le16 (mrec actx) (attr actx + A_value_offset) = Ret (ir - attr actx);
  dr_node : exists ilen eo, rd_le32 (mrec actx) (ir + IR_index + IH_index_length) = Ret ilen /\
    rd_le32 (mrec actx) (ir + IR_index + IH_entries_offset) = Ret eo /\ 0 <= eo /\
    dentries_at (mrec actx) (ir + IR_index + ilen) (ir + IR_index + eo) es;
  dr_alloc : forall e, e ∈ es -> is_Some (de_child e) -> index_alloc_present dir_ni = true;
}.

Lemma used_inv w i m w3 w3' base actx :
  Inv bits shift (after_map bits shift w base i (inr m) false) base (mapped bits shift i) m w3 actx -> used w3 w3' ->
  Inv bits shift (after_map bits shift w base i (inr m) false) base (mapped bits shift i) m w3' actx.
Proof. intros (cur & Hs & Hx) (H1 & H2 & _). exists cur. split; [by apply (State_same _ _ _ _ _ w3)|done]. Qed.

Lemma used_released w base i w1 w2 : released w base i w1 -> used w1 w2 -> released w base i w2.
Proof. intros H (H1 & H2 & _). unfold released in *. by rewrite H1, H2. Qed.

(** The result, with the record of the directory released. *)
Definition done_right (w w3 : world) (base : ptr) (i : ntfs_inode) (o : outcome (world * lookup_res)) (good : lookup_res) : Prop :=
  exists w' x, o = Ret (w', x) /\ released w base i w' /\ (x = good \/ no_memory x /\ false ∈ allocs w3).

Lemma release_root_spec w i m w3 w3' base actx x good :
  session_caller w base i ->
  Inv bits shift (after_map bits shift w base i (inr m) false) base (mapped bits shift i) m w3 actx -> used w3 w3' ->
  (x = good \/ no_memory x /\ false ∈ allocs w3) ->
  done_right w w3 base i (release_root (Some actx) base x w3') good.
Proof.
  intros Hc Hinv Hus Hx. destruct (put_unmap _ _ _ _ _ _ _ _ Hc (used_inv _ _ _ _ _ _ _ Hinv Hus)) as (w4 & w5 & E4 & E5 & Hrel).
  exists w5, x. unfold release_root. by rewrite (M_run _ _ _ _ _ E4), (M_run _ _ _ _ _ E5).
Qed.

Local Abbreviation block dir_ni := (dblock_ok read_ia_page cluster_size_bits shift dir_ni).
Local Abbreviation from_root := (dir_from_root read_ia_page cluster_size_bits shift upcase upcase_len case_sensitive).

Lemma from_root_spec w i m w3 actx dir_ni ir es c' r :
  0 <= vcn_size_bits dir_ni <= cluster_size_bits ->
  reaches_root upcase upcase_len read_mapping_page i_size bits shift w i dir_ni m w3 actx -> droot_ok dir_ni actx ir es ->
  dtree_search upcase upcase_len case_sensitive u (block dir_ni) None es c' r ->
  exists h, forall fuel wfuel, (h <= fuel)%nat -> (h <= wfuel)%nat ->
    done_right w w3 (idx_base_ni dir_ni) i (from_root fuel wfuel dir_ni (u ++ ur) (zlen u) actx w3) (search_result c' r).
Proof.
  intros Hvb [Hc (w1 & w2 & actx0 & E1 & E2 & E3)] [[Hir Hvo] (ilen & eo & Hil & Heo & Heo2 & Hent) Halloc] Ht.
  pose proof (lookup_prefix _ _ _ _ _ _ Hbits Hshift Hpages _ _ _ _ _ _ _ _ _ _ _ Hc E1 E2 E3) as Hinv.
  (* the walk over the root *)
  assert (Hrun : forall fuel wfuel c1 s, (length es <= wfuel)%nat ->
    dnode_search upcase upcase_len case_sensitive u None es = Some (c1, s) ->
    (forall w', used w3 w' -> done_right w w3 (idx_base_ni dir_ni) i
       (dir_root_exit read_ia_page cluster_size_bits shift upcase upcase_len case_sensitive fuel wfuel dir_ni (u ++ ur) (zlen u) actx (kept_name <$> c1) (stop_exit s) w')
       (search_result c' r)) ->
    done_right w w3 (idx_base_ni dir_ni) i (from_root fuel wfuel dir_ni (u ++ ur) (zlen u) actx w3) (search_result c' r)).
  { intros fuel wfuel c1 s Hw Hs Hk. unfold dir_from_root. rewrite (M_run _ _ w3 w3 _ (lift_eq _ _ _ Hvo)). cbv zeta.
    replace (attr actx + (ir - attr actx)) with ir by lia.
    rewrite (M_run _ _ w3 w3 _ (lift_eq _ _ _ Hil)), (M_run _ _ w3 w3 _ (lift_eq _ _ _ Heo)).
    destruct (dir_walk_spec upcase upcase_len case_sensitive u ur Htab Hu _ _ 0 _ _ Hent ltac:(unfold IR_index; lia) wfuel w3 None c1 s Hw Hs)
      as (w' & [x y] & E & Hus & [[= -> ->]|[Hy Hf]]); cbn [fmap option_fmap option_map] in E; rewrite (M_run _ _ _ _ _ E); [by apply Hk|].
    cbn in Hy. subst y. eapply release_root_spec; try done. by right. }
  inversion Ht as [? ? ? e d Hs|? ? ? e Hs Hch|? ? c1 e v es' ? ? Hs Hch Hblk Ht']; subst.
  1, 2: exists (length es); intros fuel wfuel _ Hw; apply (Hrun fuel wfuel _ _ Hw Hs); intros w' Hus; cbn [stop_exit]; unfold dir_root_exit; cbv zeta.
  - destruct (found_it_spec _ _ _ (kept_name <$> c') w' (at_reads _ _ _ _ _ _ _ _ Hent _ _ _ _ Hs)) as (w'' & x & E & Hus' & Hx).
    rewrite (M_run _ _ _ _ _ E). eapply release_root_spec; [done|done|by eapply used_trans|].
    destruct Hx as [|[H1 H2]]; [by left|]. right. split; [done|]. by eapply used_fails.
  - destruct (ahead_reads _ _ _ _ _ _ _ _ Hent _ _ _ Hs) as (Hin & len & flags & Hhd). destruct Hhd as (Ho1 & Ho2 & Hlen & Hfl & Hc').
    rewrite (M_run _ _ _ _ _ (lift_eq _ _ _ Hfl)). rewrite Hch in Hc'. cbn in Hc'. rewrite Hc'. cbn [Z.eqb].
    rewrite not_there_result. eapply release_root_spec; try done. by left.
  - pose proof Hblk as [_ (kaddr & _ & _ & _ & Hm & _)].
    destruct (dir_descend_spec upcase upcase_len case_sensitive u ur Htab Hu read_ia_page cluster_size_bits shift dir_ni Hvb ltac:(lia) _ _ _ _ Ht' v kaddr Hblk Hm) as (h & Hh).
    exists (Nat.max h (length es)). intros fuel wfuel Hf Hw. apply (Hrun fuel wfuel _ _ ltac:(lia) Hs). intros w' Hus. cbn [stop_exit]. unfold dir_root_exit. cbv zeta.
    destruct (ahead_reads _ _ _ _ _ _ _ _ Hent _ _ _ Hs) as (Hin & len & flags & Hhd). destruct Hhd as (Ho1 & Ho2 & Hlen & Hfl & Hc').
    rewrite (M_run _ _ _ _ _ (lift_eq _ _ _ Hfl)). rewrite Hch in Hc'. destruct Hc' as [Hnd Hvcn]. rewrite (proj2 (Z.eqb_neq _ 0)) by done.
    rewrite (Halloc e) by (try done; rewrite Hch; eauto). cbn [negb].
    rewrite (M_run _ _ w' w' v) by (apply lift_eq; unfold child_vcn; by rewrite Hlen, bind_Ret).
    destruct (put_unmap _ _ _ _ _ _ _ _ Hc (used_inv _ _ _ _ _ _ _ Hinv Hus)) as (w4 & w5 & E4 & E5 & Hrel).
    rewrite (M_run _ _ _ _ _ E4), (M_run _ _ _ _ _ E5), Hm. destruct (Hh fuel wfuel w5 ltac:(lia) ltac:(lia)) as (w6 & x & E6 & Hus6 & Hx).
    exists w6, x. split; [done|]. split; [by eapply used_released|].
    destruct Hx as [|[H1 H2]]; [by left|]. right. split; [done|].
    rewrite (no_alloc_unmap _ _ _ _ E5), (no_alloc_put _ _ _ _ E4) in H2. by eapply used_fails.
Qed.
End Root.

(** ** Claims *)

(** What a lookup of [u] must return in a directory with names [l]: the reference
    of the name itself, with *@res set only for a short name; otherwise, on a case
    insensitive mount, that of a name equal up to case which is not in the POSIX
    namespace, with *@res; otherwise, and only then, -ENOENT. *)
Inductive lookup_right (upcase : list Z) (upcase_len : Z) (case_sensitive : bool) (u : list Z) (l : list dirent) : lookup_res -> Prop :=
| lr_exact d : d ∈ l -> d_name d = u -> lookup_right upcase upcase_len case_sensitive u l (found_result d)
| lr_case d : (forall e, e ∈ l -> d_name e <> u) -> d ∈ l -> matches upcase upcase_len case_sensitive u d = true ->
    lookup_right upcase upcase_len case_sensitive u l (Some (kept_name d), inr (d_mref d))
| lr_none : (forall e, e ∈ l -> d_name e <> u) ->
    (forall d, d ∈ l -> matches upcase upcase_len case_sensitive u d = false) ->
    lookup_right upcase upcase_len case_sensitive u l (None, inl (- ENOENT)).

(** On a case insensitive mount no name in the POSIX namespace differs from [u] in case
    only; such a name can hide another one from the search ([posix_name_hides]). *)
Definition no_posix_twin (upcase : list Z) (upcase_len : Z) (case_sensitive : bool) (u : list Z) (l : list dirent) : Prop :=
  case_sensitive = false -> forall p, p ∈ l -> d_type p = 0 -> d_name p <> u -> folded upcase upcase_len (d_name p) <> folded upcase upcase_len u.

Lemma search_lookup_right upcase upcase_len cs u l c r :
  no_posix_twin upcase upcase_len cs u l -> search_right upcase upcase_len cs u l None c r -> lookup_right upcase upcase_len cs u l (search_result c r).
Proof.
  intros Htwin. destruct r as [d|]; [intros [H1 H2]; by apply lr_exact|]. intros [H1 H2]. destruct c as [d|].
  - destruct H2 as [|(_ & H3 & H4)]; [done|]. by apply lr_case.
  - destruct H2 as [_ H2]. apply lr_none; [done|]. intros d Hd. destruct (matches upcase upcase_len cs u d) eqn:E; [|done]. destruct (H2 d Hd E) as (p & Hp & H0 & Hf).
    apply (matches_spec _ _ _ _ (fun _ _ => True)) in E as (Hcs & _). by destruct (Htwin Hcs p Hp H0 (H1 p Hp)).
Qed.

(** C5: [ntfs_lookup_inode_by_name] on a directory whose nodes are sound and whose
    names are in order, for a name without invalid characters, on a case sensitive mount
    or in a directory in which no POSIX name differs from the name in case only: with
    fuel for the height of the tree and the entries of a node it returns, with the mft
    record of the directory unmapped and the search context put.  What it returns is the
    reference of the name itself, with *@res set only for a short name; otherwise, on a
    case insensitive mount, that of the name equal up to case which is not in the POSIX
    namespace, with *@res; and -ENOENT exactly when there is neither.  The exception is
    -ENOMEM, and then an allocation failed. *)
Theorem lookup_inode_by_name_correct upcase upcase_len case_sensitive u ur read_mapping_page i_size bits shift read_ia_page cluster_size_bits
    w i m w3 actx dir_ni ir es l :
  table_ok upcase upcase_len -> uname_ok upcase upcase_len u -> 8 <= bits <= shift -> shift < 31 ->
  (forall n data err, read_mapping_page n = inr (data, err) -> zlen data = page_size shift /\ Forall byte_ok data) ->
  0 <= vcn_size_bits dir_ni <= cluster_size_bits -> idx_name dir_ni = Some I30 -> idx_name_len dir_ni = 4 ->
  reaches_root upcase upcase_len read_mapping_page i_size bits shift w i dir_ni m w3 actx -> droot_ok dir_ni actx ir es ->
  dcontent (dblock_ok read_ia_page cluster_size_bits shift dir_ni) es l -> dir_sorted upcase upcase_len l -> no_posix_twin upcase upcase_len case_sensitive u l ->
  exists res, lookup_right upcase upcase_len case_sensitive u l res /\
  exists h, forall fuel wfuel, (h <= fuel)%nat -> (h <= wfuel)%nat -> exists w' x,
    ntfs_lookup_inode_by_name read_ia_page cluster_size_bits shift upcase upcase_len read_mapping_page i_size bits case_sensitive
      fuel wfuel dir_ni (u ++ ur) (zlen u) w = Ret (w', x) /\
    released w (idx_base_ni dir_ni) i w' /\ (x = res \/ no_memory x /\ false ∈ allocs w3).
Proof.
  intros Htab Hu Hbits Hshift Hpages Hvb Hn Hnl Hreach Hroot Hcon Hsort Htwin.
  destruct (dtree_search_right upcase upcase_len case_sensitive u _ _ _ Hcon Hsort None) as (c & r & Ht & Hr); [by intros [? [=]]|].
  exists (search_result c r). split; [by apply search_lookup_right|].
  destruct (from_root_spec upcase upcase_len case_sensitive u ur read_mapping_page i_size bits shift read_ia_page cluster_size_bits
    Htab Hu Hbits Hshift Hpages w i m w3 actx dir_ni ir es c r Hvb Hreach Hroot Ht) as (h & Hh).
  exists h. intros fuel wfuel Hf Hw. destruct (Hh fuel wfuel Hf Hw) as (w' & x & E & Hres). exists w', x. split; [|done].
  destruct Hreach as [_ (w1 & w2 & actx0 & E1 & E2 & E3)]. rewrite Hn, Hnl in E3. unfold ntfs_lookup_inode_by_name. cbv zeta.
  by rewrite (M_run _ _ _ _ _ E1), (M_run _ _ _ _ _ E2), (M_run _ _ _ _ _ E3).
Qed.

(** ** A directory to run on

    The POSIX name "Ab" in the index root; the WIN32 name "AB" and the DOS name "C"
    in two index blocks. *)
Definition demo_upcase : list Z := map (fun c => if (97 <=? c) && (c <=? 122) then c - 32 else c) (Z.of_nat <$> seq 0 128).
Definition demo_fn (mref len flags type : Z) (name tail : list Z) : list Z :=
  le_split 8 mref ++ le_split 2 len ++ le_split 2 (66 + 2 * zlen name) ++ le_split 2 flags ++ [0; 0]
  ++ repeat 0 64 ++ [zlen name; type] ++ concat (map (le_split 2) name) ++ repeat 0 (Z.to_nat (6 - 2 * zlen name)) ++ tail.
Definition demo_dblock (v mref type : Z) (name : list Z) : list Z :=
  le_split 4 magic_INDX ++ repeat 0 12 ++ le_split 8 v ++ demo_header 120 488 0 ++ demo_fn mref 88 0 type name [] ++ demo_last 2 16 [] ++ repeat 0 368.
Definition demo_droot : list Z :=
  repeat 0 16 ++ demo_header 136 136 1 ++ demo_fn 40 96 1 FILE_NAME_POSIX [65; 98] (le_split 8 0) ++ demo_last 3 24 (le_split 8 1).
Definition demo_drecord : list Z :=
  le_split 4 magic_FILE ++ repeat 0 16 ++ le_split 2 56 ++ repeat 0 2 ++ le_split 4 244 ++ le_split 4 256 ++ repeat 0 24
  ++ le_split 4 AT_INDEX_ROOT ++ le_split 4 184 ++ [0; 4] ++ le_split 2 24 ++ repeat 0 4 ++ le_split 4 152 ++ le_split 2 32 ++ [0; 0]
  ++ concat (map (le_split 2) (take 4 I30)) ++ demo_droot ++ le_split 4 AT_END ++ repeat 0 12.
Definition demo_dmft : list Z := repeat 0 512 ++ demo_drecord ++ repeat 0 (13 * 256).
Definition demo_dpage : list Z := demo_dblock 0 41 FILE_NAME_WIN32 [65; 66] ++ demo_dblock 1 42 FILE_NAME_DOS [67] ++ repeat 0 3072.
Definition demo_dirni : index_inode := mk_index_inode (Some I30) 4 0 512 9 true 1%positive.

Definition demo_lookup (case_sensitive : bool) (name : list Z) : outcome lookup_res :=
  '(_, x) ← ntfs_lookup_inode_by_name (demo_pages_of demo_dpage) 12 12 demo_upcase 128 (demo_pages_of demo_dmft) 4096 8 case_sensitive 5 5
    demo_dirni name (zlen name) demo_dir_world; Ret x.

(** "AB" and "Ab" themselves, "C" in both cases, and "c" where case matters. *)
Example demo_names :
  (demo_lookup false <$> [[65; 66]; [65; 98]; [67]; [99]; [100]]) ++ [demo_lookup true [99]] =
  [Ret (None, inr 41); Ret (None, inr 40); Ret (Some (mk_name 42 2 0 []), inr 42); Ret (Some (mk_name 42 2 0 []), inr 42);
   Ret (None, inl (- ENOENT)); Ret (None, inl (- ENOENT))].
Proof. vm_compute. reflexivity. Qed.

(** The WIN32 name "AB" is equal to "ab" up to case, but the search of "ab" passes
    behind the POSIX name "Ab" and does not meet it. *)
Example posix_name_hides : demo_lookup false [97; 98] = Ret (None, inl (- ENOENT)).
Proof. vm_compute. reflexivity. Qed.

Definition demo_dto_root : outcome (world * (ntfs_attr_search_ctx * Z)) :=
  (r ← map_mft_record (demo_pages_of demo_dmft) 4096 8 12 1;
   match r with
   | inl _ => crash
   | inr m => c ← ntfs_attr_get_search_ctx 1 m;
       match c with
       | None => crash
       | Some c => ntfs_attr_lookup demo_upcase 128 (demo_pages_of demo_dmft) 4096 8 12
                     (mk_search AT_INDEX_ROOT (Some I30) 4 CASE_SENSITIVE 0 None 0) c
       end
   end) demo_dir_world.
Definition demo_dworld : world := match demo_dto_root with Ret (w, _) => w | _ => demo_dir_world end.
Definition demo_dactx : ntfs_attr_search_ctx :=
  match demo_dto_root with Ret (_, (c, _)) => c | _ => mk_ctx [] 0 false 1 None None None None end.
Definition demo_d (k : Z) : dirent :=
  if k =? 40 then mk_dirent FILE_NAME_POSIX [65; 98] 40 else if k =? 41 then mk_dirent FILE_NAME_WIN32 [65; 66] 41 else mk_dirent FILE_NAME_DOS [67] 42.
Definition demo_droot_entries : list dent := [mk_dent 120 (Some (demo_d 40)) (Some 0); mk_dent 216 None (Some 1)].
Definition demo_dblock_entries (o k : Z) : list dent := [mk_dent o (Some (demo_d k)) None; mk_dent (o + 88) None None].
Definition demo_dcontent : list dirent := [demo_d 41; demo_d 40; demo_d 42].

Lemma demo_dsorted : dir_sorted demo_upcase 128 demo_dcontent.
Proof. repeat constructor; (by vm_compute) || done. Qed.

Lemma demo_dreaches : reaches_root demo_upcase 128 (demo_pages_of demo_dmft) 4096 8 12 demo_dir_world demo_dir_ino demo_dirni demo_drecord demo_dworld demo_dactx.
Proof.
  split; [apply demo_reaches|]. eexists _, _, _. split; [vm_compute; reflexivity|]. split; [vm_compute; reflexivity|]. vm_compute. reflexivity.
Qed.

Lemma demo_char_ok k : Forall char_ok (d_name (demo_d k)).
Proof. unfold demo_d. destruct (k =? 40), (k =? 41); repeat constructor; cbn; lia. Qed.

Lemma demo_droot_ok : droot_ok demo_dirni demo_dactx 88 demo_droot_entries.
Proof.
  split; [by vm_compute| |done]. exists 136, 16. split_and!; [by vm_compute..|].
  eapply (dea_entry _ _ _ 96 1 (Some 0)); [|by vm_compute|lia| |].
  - split; [by vm_compute|]. eexists. by vm_compute.
  - split; [by vm_compute..|apply demo_char_ok|eexists; vm_compute; reflexivity].
  - apply (dea_last _ _ _ 24 3 (Some 1)); [|by vm_compute]. split; [by vm_compute|]. eexists. by vm_compute.
Qed.

Lemma demo_dblock_ok v o k : (v, o, k) ∈ [(0, 40, 41); (1, 552, 42)] ->
  dblock_ok (demo_pages_of demo_dpage) 12 12 demo_dirni v (demo_dblock_entries o k).
Proof.
  intros [[= -> -> ->]|[[= -> -> ->]|[]%elem_of_nil]%elem_of_cons]%elem_of_cons; (split; [by vm_compute|]);
    [exists demo_dpage, 144, 16, 0|exists demo_dpage, 656, 16, 0]; (split_and!; [by vm_compute..| |by vm_compute|]).
  2,4: intros e [->|[->|[]%elem_of_nil]%elem_of_cons]%elem_of_cons [? [=]].
  all: eapply (dea_entry _ _ _ 88 0 None); [split; [by vm_compute|eexists; by vm_compute]|done|lia| |].
  1,3: split; [by vm_compute..|apply demo_char_ok|eexists; vm_compute; reflexivity].
  all: apply (dea_last _ _ _ 16 2 None); [split; [by vm_compute|eexists; by vm_compute]|by vm_compute].
Qed.

Lemma demo_dtree : dcontent (dblock_ok (demo_pages_of demo_dpage) 12 12 demo_dirni) demo_droot_entries demo_dcontent.
Proof.
  assert (Hleaf : forall v o k, (v, o, k) ∈ [(0, 40, 41); (1, 552, 42)] ->
    dchild_content (dblock_ok (demo_pages_of demo_dpage) 12 12 demo_dirni) (Some v) [demo_d k]).
  { intros v o k Hin. eapply dchild_some; [by apply demo_dblock_ok|].
    apply (dcontent_entry _ (mk_dent o (Some (demo_d k)) None) (demo_d k) [] _ []); [done|constructor|]. apply dcontent_last; [done|constructor]. }
  apply (dcontent_entry _ (mk_dent 120 (Some (demo_d 40)) (Some 0)) (demo_d 40) [demo_d 41] _ [demo_d 42]); [done|eapply Hleaf; by left|].
  apply dcontent_last; [done|]. eapply (Hleaf 1). right. by left.
Qed.

Lemma demo_table : table_ok demo_upcase 128.
Proof. split; [by vm_compute|]. apply (bool_decide_unpack _). by vm_compute. Qed.

Lemma demo_no_twin : no_posix_twin demo_upcase 128 false [99] demo_dcontent.
Proof. intros _ p Hp H0 _ Hf. unfold demo_dcontent in Hp. rewrite !elem_of_cons, elem_of_nil in Hp. destruct Hp as [->|[->|[->|[]]]]; by vm_compute in H0, Hf. Qed.

Lemma lookup_inode_by_name_correct_witness :
  exists h, forall fuel wfuel, (h <= fuel)%nat -> (h <= wfuel)%nat -> exists w',
    ntfs_lookup_inode_by_name (demo_pages_of demo_dpage) 12 12 demo_upcase 128 (demo_pages_of demo_dmft) 4096 8 false fuel wfuel
      demo_dirni ([99] ++ []) 1 demo_dir_world = Ret (w', (Some (mk_name 42 FILE_NAME_DOS 0 []), inr 42)).
Proof.
  destruct (lookup_inode_by_name_correct demo_upcase 128 false [99] [] (demo_pages_of demo_dmft) 4096 8 12 (demo_pages_of demo_dpage) 12
    demo_dir_world demo_dir_ino demo_drecord demo_dworld demo_dactx demo_dirni 88 demo_droot_entries demo_dcontent)
    as (res & Hres & h & Hh);
    [exact demo_table|apply (bool_decide_unpack _); by vm_compute|lia|lia| |cbn; lia|done|done|exact demo_dreaches|exact demo_droot_ok|exact demo_dtree|exact demo_dsorted|exact demo_no_twin|].
  { intros n data err. unfold demo_pages_of. destruct (n =? 0); [|done]. intros [= <- <-]. split; [by vm_compute|]. apply (bool_decide_unpack _). by vm_compute. }
  assert (res = (Some (mk_name 42 FILE_NAME_DOS 0 []), inr 42)) as ->.
  { unfold demo_dcontent in Hres. inversion Hres as [d Hin Hd|d _ Hin Hm|_ Hno]; subst.
    - rewrite !elem_of_cons, elem_of_nil in Hin. destruct Hin as [->|[->|[->|[]]]]; by vm_compute in Hd.
    - rewrite !elem_of_cons, elem_of_nil in Hin. destruct Hin as [->|[->|[->|[]]]]; (by vm_compute in Hm) || done.
    - specialize (Hno (demo_d 42) ltac:(do 2 right; left)). by vm_compute in Hno. }
  exists h. intros fuel wfuel Hf Hw. destruct (Hh fuel wfuel Hf Hw) as (w' & x & E & _ & [->|[_ H]]); [by exists w'|].
  by apply elem_of_nil in H.
Defined.

(** An entry of length 0: only the length of the key is checked, and the walk stays
    at the entry for as long as it has fuel. *)
Definition demo_zero : list Z := demo_fn 40 0 0 FILE_NAME_WIN32 [65] [].

Example zero_length_entry_never_returns fuel w :
  dir_walk demo_upcase 128 false fuel demo_zero 0 (zlen demo_zero) [66] 1 None 0 w = Diverge.
Proof.
  induction fuel as [|fuel IH]; [done|].
  transitivity (dir_walk demo_upcase 128 false fuel demo_zero 0 (zlen demo_zero) [66] 1 None 0 w); [|done].
  cbn [dir_walk]. by vm_compute.
Qed.
