(* ===== verification/Statfs.v ===== *)
(** * Counting free clusters and mft records

    Models [get_nr_free_clusters], [__get_nr_free_mft_records] and [ntfs_statfs] of
    [src/ntfs/super.c]: the set bits of the cluster bitmap and of the mft bitmap are
    counted page by page; a page that cannot be read counts as full. *)

From Stdlib Require Import ZArith Lia Bool.
From stdpp Require Import base list numbers option.
From S2P Require Import Prelude Endian Unistr.

Definition NTFS_SB_MAGIC : Z := 0x5346544e.

(** [bitmap_weight] of the kernel, on whole bytes: the number of set bits. *)
Definition byte_weight (b : Z) : Z := foldr (fun j n => Z.b2z (Z.testbit b (Z.of_nat j)) + n) 0 (seq 0 8).
Definition bitmap_weight (data : list Z) : Z := foldr (fun b n => byte_weight b + n) 0 data.

(** The volume: the fields [ntfs_statfs] uses, and those of the inode of $MFT. *)
Record statfs_volume := mk_sv {
  sv_nr_clusters : Z;
  sv_cluster_size_bits : Z;
  sv_mft_record_size_bits : Z;
  sv_serial_no : Z;
  sv_mft_i_size : Z;
  sv_mft_initialized_size : Z;
}.

Record kstatfs := mk_kstatfs {
  f_type : Z; f_bsize : Z; f_blocks : Z; f_bfree : Z; f_bavail : Z; f_files : Z; f_ffree : Z;
  f_fsid : Z * Z; f_namelen : Z;
}.

Section Statfs.
(** The size of a page, and the page caches of $Bitmap and $MFT/$BITMAP: [None] is
    a page that cannot be read. *)
Context (PAGE_CACHE_SHIFT : Z) (lcnbmp mftbmp : Z -> option (list Z)).
Definition PAGE_CACHE_SIZE : Z := 2 ^ PAGE_CACHE_SHIFT.

(** The loop over the pages, from page [index] on. *)
Fixpoint count_pages (n : nat) (mapping : Z -> option (list Z)) (index nr_free : Z) : Z :=
  match n with
  | O => nr_free
  | S n =>
      count_pages n mapping (index + 1)
        (match mapping index with
         | None => s64 (nr_free - PAGE_CACHE_SIZE * 8)
         | Some page => s64 (nr_free - bitmap_weight page)
         end)
  end.

(** Bytes rounded up, then pages rounded up. *)
Definition bitmap_pages (bits : Z) : Z :=
  Z.shiftr (Z.shiftr (bits + 7) 3 + PAGE_CACHE_SIZE - 1) PAGE_CACHE_SHIFT.

Definition get_nr_free_clusters (nr_clusters : Z) : Z :=
  let nr_free := count_pages (Z.to_nat (bitmap_pages nr_clusters)) lcnbmp 0 nr_clusters in
  let nr_free := if negb (Z.land nr_clusters 63 =? 0) then s64 (nr_free + (64 - Z.land nr_clusters 63)) else nr_free in
  if nr_free <? 0 then 0 else nr_free.

Definition __get_nr_free_mft_records (nr_free max_index : Z) : Z :=
  let nr_free := count_pages (Z.to_nat max_index) mftbmp 0 nr_free in
  if nr_free <? 0 then 0 else nr_free.

Definition ntfs_statfs (vol : statfs_volume) : kstatfs :=
  let size := Z.shiftr (s64 (Z.shiftl (get_nr_free_clusters (sv_nr_clusters vol)) (sv_cluster_size_bits vol))) PAGE_CACHE_SHIFT in
  let size := if size <? 0 then 0 else size in
  let files := Z.shiftr (sv_mft_i_size vol) (sv_mft_record_size_bits vol) in
  let max_index := bitmap_pages (Z.shiftr (sv_mft_initialized_size vol) (sv_mft_record_size_bits vol)) in
  mk_kstatfs NTFS_SB_MAGIC PAGE_CACHE_SIZE
    (u64 (Z.shiftr (s64 (Z.shiftl (sv_nr_clusters vol) (sv_cluster_size_bits vol))) PAGE_CACHE_SHIFT)) size size
    files (__get_nr_free_mft_records files max_index)
    (Z.land (sv_serial_no vol) 0xffffffff, Z.land (Z.shiftr (sv_serial_no vol) 32) 0xffffffff) NTFS_MAX_NAME_LEN.
End Statfs.

(** ** The bits of a bitmap *)

(** How many of the [n] numbers from [a] on satisfy [f]. *)
Fixpoint count (f : Z -> bool) (a : Z) (n : nat) : Z :=
  match n with O => 0 | S n => Z.b2z (f a) + count f (a + 1) n end.

Lemma count_app f a m n : count f a (m + n) = count f a m + count f (a + Z.of_nat m) n.
Proof.
  revert a. induction m as [|m IH]; intros a; cbn [count Nat.add]; [replace (a + Z.of_nat 0) with a by lia; lia|]. rewrite IH.
  replace (a + 1 + Z.of_nat m) with (a + Z.of_nat (S m)) by lia. lia.
Qed.

Lemma count_ext f g a b n : (forall i, 0 <= i < Z.of_nat n -> f (a + i) = g (b + i)) -> count f a n = count g b n.
Proof.
  revert a b. induction n as [|n IH]; intros a b H; cbn; [done|]. f_equal.
  - f_equal. specialize (H 0 ltac:(lia)). by rewrite !Z.add_0_r in H.
  - apply IH. intros i Hi. rewrite <- !Z.add_assoc. apply H. lia.
Qed.

Lemma count_const f a n b : (forall i, 0 <= i < Z.of_nat n -> f (a + i) = b) -> count f a n = Z.b2z b * Z.of_nat n.
Proof.
  revert a. induction n as [|n IH]; intros a H; cbn [count]; [lia|]. rewrite IH.
  - specialize (H 0 ltac:(lia)). rewrite Z.add_0_r in H. rewrite H. lia.
  - intros i Hi. rewrite <- Z.add_assoc. apply H. lia.
Qed.

Lemma count_neg f a n : count (fun i => negb (f i)) a n = Z.of_nat n - count f a n.
Proof. revert a. induction n as [|n IH]; intros a; cbn [count]; [lia|]. rewrite IH. destruct (f a); cbn; lia. Qed.

Lemma count_bounds f a n : 0 <= count f a n <= Z.of_nat n.
Proof. revert a. induction n as [|n IH]; intros a; cbn [count]; [lia|]. specialize (IH (a + 1)). destruct (f a); cbn; lia. Qed.

(** Bit [i] of a list of bytes. *)
Definition list_bit (l : list Z) (i : Z) : bool := Z.testbit (default 0 (l !! Z.to_nat (i / 8))) (i mod 8).

Lemma byte_weight_count b : byte_weight b = count (fun i => Z.testbit b i) 0 8.
Proof. unfold byte_weight. cbn [foldr seq count Z.of_nat Z.add Pos.of_succ_nat Pos.succ Pos.add]. done. Qed.

Lemma bitmap_weight_count l : bitmap_weight l = count (list_bit l) 0 (8 * length l).
Proof.
  induction l as [|b l IH]; [done|]. cbn [bitmap_weight foldr length]. change (foldr _ 0 l) with (bitmap_weight l).
  rewrite IH, byte_weight_count. replace (8 * S (length l))%nat with (8 + 8 * length l)%nat by lia. rewrite count_app. apply (f_equal2 Z.add).
  - apply count_ext. intros i Hi. rewrite Z.add_0_l. unfold list_bit. rewrite Z.div_small, Z.mod_small by (cbn; lia). done.
  - apply count_ext. intros i Hi. unfold list_bit. replace (0 + Z.of_nat 8 + i) with (i + 1 * 8) by lia.
    rewrite Z.div_add, Z.mod_add by lia. replace (Z.to_nat (i / 8 + 1)) with (S (Z.to_nat (i / 8))); [done|].
    pose proof (Z.div_pos i 8). lia.
Qed.

(** ** Pages *)

Section Count.
Context (shift : Z) (Hshift : 3 <= shift < 31).
Context (disk : Z -> list Z) (mapping : Z -> option (list Z)).
(** [disk] is what the pages hold; reading one gives that, or fails. *)
Hypothesis Hpage : forall i, zlen (disk i) = 2 ^ shift.
Hypothesis Hread : forall i, mapping i = Some (disk i) \/ mapping i = None.

Definition disk_bit (n : Z) : bool := list_bit (disk (n / (8 * 2 ^ shift))) (n mod (8 * 2 ^ shift)).

Lemma page_bits : 0 < 8 * 2 ^ shift.
Proof. pose proof (Z.pow_pos_nonneg 2 shift). lia. Qed.

Lemma page_weight i : bitmap_weight (disk i) = count disk_bit (i * (8 * 2 ^ shift)) (Z.to_nat (8 * 2 ^ shift)).
Proof.
  pose proof page_bits as Hp. rewrite bitmap_weight_count.
  replace (8 * length (disk i))%nat with (Z.to_nat (8 * 2 ^ shift)) by (specialize (Hpage i); unfold zlen in Hpage; lia).
  apply count_ext. intros j Hj. unfold disk_bit. rewrite Z2Nat.id in Hj by lia.
  rewrite (Z.add_comm (i * _)), Z.div_add, Z.mod_add, Z.div_small, Z.mod_small by lia. done.
Qed.

(** The loop subtracts at least the set bits, and exactly these when every page is
    read. *)
Lemma count_pages_spec n : forall index nr_free,
  - 2 ^ 62 <= nr_free - Z.of_nat n * (8 * 2 ^ shift) -> nr_free <= 2 ^ 62 ->
  let w := nr_free - count disk_bit (index * (8 * 2 ^ shift)) (n * Z.to_nat (8 * 2 ^ shift)) in
  nr_free - Z.of_nat n * (8 * 2 ^ shift) <= count_pages shift n mapping index nr_free <= w /\
  ((forall i, index <= i < index + Z.of_nat n -> is_Some (mapping i)) -> count_pages shift n mapping index nr_free = w).
Proof.
  pose proof page_bits as Hp. induction n as [|n IH]; intros index nr_free H1 H2 w; cbn [count_pages].
  { unfold w. cbn [count Nat.mul]. split; [lia|]. intros _. lia. }
  assert (Ew : w = (nr_free - bitmap_weight (disk index)) - count disk_bit ((index + 1) * (8 * 2 ^ shift)) (n * Z.to_nat (8 * 2 ^ shift))).
  { unfold w. cbn [Nat.mul]. rewrite count_app, page_weight, Z2Nat.id by lia.
    replace (index * (8 * 2 ^ shift) + 8 * 2 ^ shift) with ((index + 1) * (8 * 2 ^ shift)) by lia. lia. }
  assert (Hb : 0 <= bitmap_weight (disk index) <= 8 * 2 ^ shift).
  { rewrite page_weight. pose proof (count_bounds disk_bit (index * (8 * 2 ^ shift)) (Z.to_nat (8 * 2 ^ shift))). lia. }
  unfold PAGE_CACHE_SIZE. destruct (Hread index) as [E|E]; rewrite E.
  - rewrite s64_id by (unfold S64_MIN, S64_MAX; lia).
    destruct (IH (index + 1) (nr_free - bitmap_weight (disk index)) ltac:(lia) ltac:(lia)) as [H3 H4]. split; [lia|].
    intros Hall. rewrite H4; [lia|]. intros i Hi. apply Hall. lia.
  - rewrite s64_id by (unfold S64_MIN, S64_MAX; lia).
    destruct (IH (index + 1) (nr_free - 2 ^ shift * 8) ltac:(lia) ltac:(lia)) as [H3 H4]. split; [lia|].
    intros Hall. destruct (Hall index ltac:(lia)) as [x Hx]. congruence.
Qed.

Lemma bitmap_pages_spec bits : 0 <= bits -> let K := bitmap_pages shift bits in
  0 <= K /\ bits <= K * (8 * 2 ^ shift) < bits + 7 + 8 * 2 ^ shift.
Proof.
  intros Hb K. assert (Hq : 0 < 2 ^ shift) by (apply Z.pow_pos_nonneg; lia). unfold K, bitmap_pages, PAGE_CACHE_SIZE. rewrite !Z.shiftr_div_pow2 by lia.
  change (2 ^ 3) with 8. set (q := 2 ^ shift) in *.
  pose proof (Z.div_mod (bits + 7) 8 ltac:(lia)). pose proof (Z.mod_pos_bound (bits + 7) 8 ltac:(lia)).
  set (b := (bits + 7) / 8) in *. assert (0 <= b) by (unfold b; apply Z.div_pos; lia).
  pose proof (Z.div_mod (b + q - 1) q ltac:(lia)). pose proof (Z.mod_pos_bound (b + q - 1) q ltac:(lia)).
  assert (0 <= (b + q - 1) / q) by (apply Z.div_pos; lia). nia.
Qed.
End Count.

(** ** The counts *)

Section Free.
Context (shift : Z) (Hshift : 3 <= shift < 31).
Context (disk : Z -> list Z) (mapping : Z -> option (list Z)).
Hypothesis Hpage : forall i, zlen (disk i) = 2 ^ shift.
Hypothesis Hread : forall i, mapping i = Some (disk i) \/ mapping i = None.
Local Abbreviation bit := (disk_bit shift disk).

(** The clear bits among the first [n]. *)
Definition free_bits (n : Z) : Z := count (fun i => negb (bit i)) 0 (Z.to_nat n).

(** The number of [n] rounded up to a multiple of 64. *)
Definition up64 (n : Z) : Z := n + (if Z.land n 63 =? 0 then 0 else 64 - Z.land n 63).

Lemma land63 n : Z.land n 63 = n mod 64.
Proof. change 63 with (Z.ones 6). by rewrite Z.land_ones. Qed.

Lemma up64_le n m : n <= m -> m mod 64 = 0 -> n <= up64 n <= m /\ up64 n <= n + 63.
Proof.
  unfold up64. rewrite land63. intros H1 H2. pose proof (Z.div_mod n 64 ltac:(lia)). pose proof (Z.mod_pos_bound n 64 ltac:(lia)).
  pose proof (Z.div_mod m 64 ltac:(lia)). destruct (Z.eqb_spec (n mod 64) 0); lia.
Qed.

Lemma free_bits_bounds n : 0 <= n -> 0 <= free_bits n <= n.
Proof. intros Hn. unfold free_bits. pose proof (count_bounds (fun i => negb (bit i)) 0 (Z.to_nat n)). lia. Qed.

(** The set bits of the pages of a bitmap of [n] bits, of which those from [n] to
    [m] are set and those behind are clear. *)
Lemma pages_count n m : 0 <= n -> n <= m -> let K := bitmap_pages shift n in m <= K * (8 * 2 ^ shift) ->
  (forall i, n <= i < m -> bit i = true) -> (forall i, m <= i < K * (8 * 2 ^ shift) -> bit i = false) ->
  count bit (0 * (8 * 2 ^ shift)) (Z.to_nat K * Z.to_nat (8 * 2 ^ shift)) = m - free_bits n.
Proof.
  intros Hn Hm K Hk Hset Hclear. pose proof (page_bits shift Hshift) as Hp.
  destruct (bitmap_pages_spec shift Hshift n Hn) as [HK _]. fold K in HK.
  replace (Z.to_nat K * Z.to_nat (8 * 2 ^ shift))%nat with (Z.to_nat n + (Z.to_nat (m - n) + Z.to_nat (K * (8 * 2 ^ shift) - m)))%nat by lia.
  rewrite !count_app. rewrite (count_const _ _ (Z.to_nat (m - n)) true) by (intros i Hi; apply Hset; lia).
  rewrite (count_const _ _ (Z.to_nat (_ - m)) false) by (intros i Hi; apply Hclear; lia).
  unfold free_bits. rewrite count_neg, Z.mul_0_l. cbn [Z.b2z]. rewrite Z2Nat.id by lia. lia.
Qed.

Lemma small_pages n : 0 <= n < 2 ^ 32 -> 0 <= bitmap_pages shift n * (8 * 2 ^ shift) < 2 ^ 62.
Proof.
  intros Hn. destruct (bitmap_pages_spec shift Hshift n ltac:(lia)) as [HK [HK1 HK2]].
  pose proof (Z.pow_le_mono_r 2 shift 30 ltac:(lia) ltac:(lia)). pose proof (page_bits shift Hshift). nia.
Qed.

Lemma free_clusters_spec n : 0 <= n < 2 ^ 32 ->
  (forall i, n <= i < up64 n -> bit i = true) ->
  (forall i, up64 n <= i < bitmap_pages shift n * (8 * 2 ^ shift) -> bit i = false) ->
  0 <= get_nr_free_clusters shift mapping n <= free_bits n /\
  ((forall i, 0 <= i < bitmap_pages shift n -> is_Some (mapping i)) -> get_nr_free_clusters shift mapping n = free_bits n).
Proof.
  intros Hn Hset Hclear. pose proof (page_bits shift Hshift) as Hp. pose proof (small_pages n Hn) as Hsm.
  destruct (bitmap_pages_spec shift Hshift n ltac:(lia)) as [HK [HK1 HK2]]. set (K := bitmap_pages shift n) in *.
  assert (H64 : (K * (8 * 2 ^ shift)) mod 64 = 0).
  { replace (K * (8 * 2 ^ shift)) with (K * 2 ^ (shift - 3) * 64); [apply Z.mod_mul; lia|].
    replace (2 ^ shift) with (2 ^ (shift - 3) * 2 ^ 3) by (rewrite <- Z.pow_add_r by lia; f_equal; lia). lia. }
  destruct (up64_le n _ HK1 H64) as [Hu1 Hu2].
  destruct (count_pages_spec shift Hshift disk mapping Hpage Hread (Z.to_nat K) 0 n ltac:(rewrite Z2Nat.id; lia) ltac:(lia)) as [[Hc0 Hc1] Hc2].
  pose proof (pages_count n (up64 n) ltac:(lia) ltac:(lia) ltac:(fold K; lia) Hset Hclear) as Epc. cbv zeta in Epc. fold K in Epc. rewrite Epc in Hc1, Hc2. pose proof (free_bits_bounds n ltac:(lia)) as Hf.
  rewrite Z2Nat.id in Hc0, Hc2 by lia. rewrite Z.add_0_l in Hc2. unfold get_nr_free_clusters. fold K. set (x := count_pages _ _ _ _ _) in *.
  assert (E : (if negb (Z.land n 63 =? 0) then s64 (x + (64 - Z.land n 63)) else x) = x + (up64 n - n)).
  { unfold up64 in *. destruct (Z.eqb_spec (Z.land n 63) 0); cbn [negb]; [lia|]. rewrite s64_id by (unfold S64_MIN, S64_MAX; lia). lia. }
  rewrite E. clear E. split.
  - destruct (Z.ltb_spec (x + (up64 n - n)) 0); lia.
  - intros Hall. rewrite (Hc2 Hall) in *. destruct (Z.ltb_spec (n - (up64 n - free_bits n) + (up64 n - n)) 0); lia.
Qed.

(** Of the first [files] records those from [init] on were never in use. *)
Lemma free_records_spec files init : 0 <= init <= files -> files < 2 ^ 32 ->
  (forall i, init <= i -> bit i = false) ->
  0 <= __get_nr_free_mft_records shift mapping files (bitmap_pages shift init) <= free_bits files /\
  ((forall i, 0 <= i < bitmap_pages shift init -> is_Some (mapping i)) ->
   __get_nr_free_mft_records shift mapping files (bitmap_pages shift init) = free_bits files).
Proof.
  intros Hi Hf Hclear. pose proof (page_bits shift Hshift) as Hp. pose proof (small_pages init ltac:(lia)) as Hsm.
  destruct (bitmap_pages_spec shift Hshift init ltac:(lia)) as [HK [HK1 HK2]]. set (K := bitmap_pages shift init) in *.
  destruct (count_pages_spec shift Hshift disk mapping Hpage Hread (Z.to_nat K) 0 files ltac:(rewrite Z2Nat.id; lia) ltac:(lia)) as [[Hc0 Hc1] Hc2].
  pose proof (pages_count init init ltac:(lia) ltac:(lia) ltac:(fold K; lia) ltac:(lia) ltac:(intros; apply Hclear; lia)) as Epc.
  cbv zeta in Epc. fold K in Epc. rewrite Epc in Hc1, Hc2.
  assert (E : free_bits files = files - (init - free_bits init)).
  { unfold free_bits. replace (Z.to_nat files) with (Z.to_nat init + Z.to_nat (files - init))%nat by lia. rewrite count_app.
    rewrite (count_const _ _ (Z.to_nat (files - init)) true) by (intros i ?; rewrite Hclear by lia; done). cbn [Z.b2z]. lia. }
  rewrite <- E in *. pose proof (free_bits_bounds files ltac:(lia)). rewrite Z.add_0_l, Z2Nat.id in Hc2 by lia.
  unfold __get_nr_free_mft_records. set (x := count_pages _ _ _ _ _) in *. split.
  - destruct (Z.ltb_spec x 0); lia.
  - intros Hall. rewrite (Hc2 Hall). destruct (Z.ltb_spec (free_bits files) 0); lia.
Qed.
End Free.

(** ** Claims *)

(** C33: [ntfs_statfs] never reports more free space than there is: whatever pages
    of the two bitmaps cannot be read, the free blocks are at most those of the clear
    bits of the cluster bitmap inside the volume and the free inodes at most the
    clear bits of the mft bitmap; when all pages are read both counts are exact.
    The bits of the cluster bitmap behind the end of the volume are set up to a
    multiple of 64, as the documentation says. *)
Theorem statfs_correct shift vol ldisk mdisk lcnbmp mftbmp :
  let n := sv_nr_clusters vol in
  let c := sv_cluster_size_bits vol in
  let files := Z.shiftr (sv_mft_i_size vol) (sv_mft_record_size_bits vol) in
  let init := Z.shiftr (sv_mft_initialized_size vol) (sv_mft_record_size_bits vol) in
  let s := ntfs_statfs shift lcnbmp mftbmp vol in
  3 <= shift < 31 -> 0 <= n < 2 ^ 32 -> 0 <= c <= 30 -> 0 <= init <= files -> files < 2 ^ 32 ->
  (forall i, zlen (ldisk i) = 2 ^ shift /\ zlen (mdisk i) = 2 ^ shift) ->
  (forall i, lcnbmp i = Some (ldisk i) \/ lcnbmp i = None) -> (forall i, mftbmp i = Some (mdisk i) \/ mftbmp i = None) ->
  (forall i, n <= i < up64 n -> disk_bit shift ldisk i = true) -> (forall i, up64 n <= i -> disk_bit shift ldisk i = false) ->
  (forall i, init <= i -> disk_bit shift mdisk i = false) ->
  f_bavail s = f_bfree s /\ f_bfree s <= f_blocks s /\
  0 <= f_bfree s <= free_bits shift ldisk n * 2 ^ c / 2 ^ shift /\ f_files s = files /\ 0 <= f_ffree s <= free_bits shift mdisk files /\
  ((forall i, 0 <= i < bitmap_pages shift n -> is_Some (lcnbmp i)) -> f_bfree s = free_bits shift ldisk n * 2 ^ c / 2 ^ shift) /\
  ((forall i, 0 <= i < bitmap_pages shift init -> is_Some (mftbmp i)) -> f_ffree s = free_bits shift mdisk files).
Proof.
  intros n c files init s Hs Hn Hc Hi Hf Hpages Hl Hm Hset Hclear Hmclear.
  destruct (free_clusters_spec shift Hs ldisk lcnbmp ltac:(apply Hpages) Hl n Hn Hset ltac:(intros; apply Hclear; lia)) as [[H1 H2] H3].
  destruct (free_records_spec shift Hs mdisk mftbmp ltac:(apply Hpages) Hm files init Hi Hf Hmclear) as [H4 H5].
  pose proof (free_bits_bounds shift ldisk n ltac:(lia)) as H6.
  set (x := get_nr_free_clusters shift lcnbmp n) in *.
  assert (Hpc : 0 < 2 ^ c <= 2 ^ 30) by (split; [apply Z.pow_pos_nonneg; lia|apply Z.pow_le_mono_r; lia]).
  assert (Hps : 0 < 2 ^ shift) by (apply Z.pow_pos_nonneg; lia).
  assert (E : forall y, 0 <= y < 2 ^ 32 -> Z.shiftr (s64 (Z.shiftl y c)) shift = y * 2 ^ c / 2 ^ shift).
  { intros y Hy. rewrite Z.shiftl_mul_pow2, Z.shiftr_div_pow2 by lia. rewrite s64_id by (unfold S64_MIN, S64_MAX; nia). done. }
  assert (Hmono : forall y z, 0 <= y <= z -> 0 <= y * 2 ^ c / 2 ^ shift <= z * 2 ^ c / 2 ^ shift).
  { intros y z Hy. split; [apply Z.div_pos; lia|apply Z.div_le_mono; [lia|nia]]. }
  assert (Efree : f_bfree s = x * 2 ^ c / 2 ^ shift).
  { unfold s, ntfs_statfs. cbn [f_bfree]. fold n c x. rewrite E by lia. pose proof (Hmono x n ltac:(lia)). destruct (Z.ltb_spec (x * 2 ^ c / 2 ^ shift) 0); lia. }
  assert (Eblocks : f_blocks s = n * 2 ^ c / 2 ^ shift).
  { unfold s, ntfs_statfs. cbn [f_blocks]. fold n c. rewrite E by lia. pose proof (Hmono n n ltac:(lia)). apply u64_id. split; [lia|].
    apply Z.div_lt_upper_bound; nia. }
  pose proof (Hmono x n ltac:(lia)). pose proof (Hmono x (free_bits shift ldisk n) ltac:(lia)).
  rewrite Efree, Eblocks. split_and!; [by rewrite <- Efree|lia|lia|lia|done|apply H4|apply H4| |].
  - intros Hall. by rewrite (H3 Hall).
  - intros Hall. apply (H5 Hall).
Qed.

(** 70 clusters and 12 mft records, with pages of 16 bytes: cluster 0 to 5, records
    0 to 9 in use. *)
Definition demo_lbm (i : Z) : list Z := if i =? 0 then [0x3f; 0; 0; 0; 0; 0; 0; 0; 0xc0; 255; 255; 255; 255; 255; 255; 255] else repeat 0 16.
Definition demo_mbm (i : Z) : list Z := if i =? 0 then [255; 3] ++ repeat 0 14 else repeat 0 16.
Definition demo_sv : statfs_volume := mk_sv 70 12 10 0x1122334455667788 12288 12288.


Lemma demo_clear l i m : zlen l = 16 -> m <= i -> 0 <= m ->
  forallb (fun k => negb (list_bit l (m + Z.of_nat k))) (seq 0 (Z.to_nat (128 - m))) = true ->
  disk_bit 4 (fun p => if p =? 0 then l else repeat 0 16) i = false.
Proof.
  intros Hl Hi Hm H. unfold disk_bit. change (8 * 2 ^ 4) with 128. destruct (Z.eqb_spec (i / 128) 0) as [E|E].
  - assert (i < 128) by (pose proof (Z.div_mod i 128 ltac:(lia)); pose proof (Z.mod_pos_bound i 128 ltac:(lia)); lia).
    rewrite Z.mod_small by lia. rewrite forallb_forall in H. specialize (H (Z.to_nat (i - m)) ltac:(apply in_seq; lia)).
    replace (m + Z.of_nat (Z.to_nat (i - m))) with i in H by lia. by apply negb_true_iff in H.
  - unfold list_bit. destruct (repeat 0 16 !! _) as [x|] eqn:E2; [|apply Z.testbit_0_l].
    apply list_elem_of_lookup_2, list_elem_of_In, repeat_spec in E2. subst x. apply Z.testbit_0_l.
Qed.

Lemma statfs_correct_witness :
  f_bfree (ntfs_statfs 4 (fun i => Some (demo_lbm i)) (fun i => if i =? 0 then None else Some (demo_mbm i)) demo_sv) = 64 * 256 /\
  f_ffree (ntfs_statfs 4 (fun i => Some (demo_lbm i)) (fun i => if i =? 0 then None else Some (demo_mbm i)) demo_sv) <= 2.
Proof.
  destruct (statfs_correct 4 demo_sv demo_lbm demo_mbm (fun i => Some (demo_lbm i)) (fun i => if i =? 0 then None else Some (demo_mbm i)))
    as (_ & _ & _ & _ & H1 & H2 & _); [lia|cbn; lia|cbn; lia|by vm_compute|by vm_compute| |intros i; by left| | | | |].
  - intros i. unfold demo_lbm, demo_mbm. by destruct (i =? 0).
  - intros i. destruct (i =? 0); [by right|by left].
  - intros i [Hi1 Hi2]. cbn in Hi1. change (up64 (sv_nr_clusters demo_sv)) with 128 in Hi2.
    assert (H : forallb (fun k => disk_bit 4 demo_lbm (70 + Z.of_nat k)) (seq 0 58) = true) by (by vm_compute).
    rewrite forallb_forall in H. specialize (H (Z.to_nat (i - 70)) ltac:(apply in_seq; lia)). by replace (70 + Z.of_nat (Z.to_nat (i - 70))) with i in H by lia.
  - intros i Hi. change (up64 (sv_nr_clusters demo_sv)) with 128 in Hi. by apply (demo_clear _ i 128).
  - intros i Hi. change (Z.shiftr _ _) with 12 in Hi. by apply (demo_clear _ i 12).
  - split.
    + rewrite H2; [by vm_compute|]. by eexists.
    + replace 2 with (free_bits 4 demo_mbm (Z.shiftr (sv_mft_i_size demo_sv) (sv_mft_record_size_bits demo_sv))) by (by vm_compute). apply H1.
Defined.
