(* ===== verification/MftBitmap.v ===== *)
(** * Allocating a bit of the mft bitmap

    Models [ntfs_mft_bitmap_find_and_alloc_free_rec_nolock] of [src/ntfs/mft.c]: the
    search of a clear bit from a starting position to the end of the bitmap, and
    then from record 24 to the starting position. *)

From Stdlib Require Import ZArith Lia Bool.
From stdpp Require Import base list numbers option.
From S2P Require Import Prelude Endian Statfs.

(** The first clear bit of a word, [ffz]; the words are bytes here, so one of the
    bits up to 8 is clear. *)
Fixpoint ffz_from (n : nat) (x b : Z) : Z :=
  match n with O => b | S n => if Z.testbit x b then ffz_from n x (b + 1) else b end.
Definition ffz (x : Z) : Z := ffz_from 63 x 0.

(** How the search in a page ends: no clear bit, a record number that is too high,
    or a record, with the page after its bit was set. *)
Inductive scan := Full | TooHigh | Found (page : list Z) (ll : Z).

(** The inner loop. *)
Fixpoint scan_page (n : nat) (page : list Z) (page_ofs size data_pos pass_end bit : Z) : outcome scan :=
  match n with
  | O => Diverge
  | S n =>
      if (bit <? size) && (data_pos + bit <? pass_end) then
        let byte := page_ofs + Z.shiftr bit 3 in
        let next := scan_page n page page_ofs size data_pos pass_end (Z.land bit (Z.lnot 7) + 8) in
        x ← rd page byte;
        if x =? 0xff then next
        else
          let b := ffz x in
          if (b <? 8) && (b >=? Z.land bit 7) then
            let ll := data_pos + Z.land bit (Z.lnot 7) + b in
            if ll >? Z.shiftl 1 32 then Ret TooHigh
            else page ← wr page byte (Z.lor x (Z.shiftl 1 b)); Ret (Found page ll)
          else next
      else Ret Full
  end.

(** How a pass ends: with the return value of the function and the page that was
    changed, or without a record. *)
Inductive pass_exit := Return (changed : option (Z * list Z)) (ret : Z) | EndOfPass.

Section Bitmap.
(** The page size, and what [ntfs_map_page] gives for the pages of $MFT/$BITMAP. *)
Context (PAGE_CACHE_SHIFT : Z) (map_page : Z -> Z + list Z).

(** One pass of the outer loop, from @data_pos to @pass_end.  Every page that is
    mapped is unmapped again. *)
Fixpoint search_pass (fuel : nat) (pass_end data_pos : Z) : outcome pass_exit :=
  match fuel with
  | O => Diverge
  | S fuel =>
      let ofs := Z.shiftr data_pos 3 in
      let page_ofs := Z.land ofs (2 ^ PAGE_CACHE_SHIFT - 1) in
      let size := 2 ^ PAGE_CACHE_SHIFT - page_ofs in
      let ll := Z.shiftr (pass_end + 7) 3 - ofs in
      let size := u32 (Z.shiftl (if size >? ll then u32 ll else size) 3) in
      if negb (size =? 0) then
        let index := Z.shiftr ofs PAGE_CACHE_SHIFT in
        match map_page index with
        | inl e => Ret (Return None e)
        | inr page =>
            let bit := Z.land data_pos 7 in
            let data_pos := Z.land data_pos (Z.lnot 7) in
            x ← scan_page (S (Z.to_nat size)) page page_ofs size data_pos pass_end bit;
            match x with
            | TooHigh => Ret (Return None (- ENOSPC))
            | Found page ll => Ret (Return (Some (index, page)) (s32 ll))
            | Full =>
                let data_pos := data_pos + size in
                if data_pos <? pass_end then search_pass fuel pass_end data_pos else Ret EndOfPass
            end
        end
      else Ret EndOfPass
  end.

(** A pass looks at one more byte with every unit of fuel, or ends. *)
Definition pass_fuel (pass_end : Z) : nat := S (Z.to_nat pass_end).

(** The changed page and the return value: a record number or an errno. *)
Definition last_pass (pass_end data_pos : Z) : outcome (option (Z * list Z) * Z) :=
  x ← search_pass (pass_fuel pass_end) pass_end data_pos;
  match x with Return changed ret => Ret (changed, ret) | EndOfPass => Ret (None, - ENOSPC) end.

(** @base_no is the number of @base_ni, if there is one. *)
Definition ntfs_mft_bitmap_find_and_alloc_free_rec_nolock (mft_allocated_size mftbmp_initialized_size mft_record_size_bits mft_data_pos : Z)
    (base_no : option Z) : outcome (option (Z * list Z) * Z) :=
  let pass_end := Z.shiftr mft_allocated_size mft_record_size_bits in
  let ll := s64 (Z.shiftl mftbmp_initialized_size 3) in
  let pass_end := if pass_end >? ll then ll else pass_end in
  let data_pos := match base_no with None => mft_data_pos | Some mft_no => mft_no + 1 end in
  let data_pos := if data_pos <? 24 then 24 else data_pos in
  if data_pos >=? pass_end then
    if 24 >=? pass_end then Ret (None, - ENOSPC) else last_pass pass_end 24
  else
    x ← search_pass (pass_fuel pass_end) pass_end data_pos;
    match x with
    | Return changed ret => Ret (changed, ret)
    | EndOfPass => if 24 >=? data_pos then Ret (None, - ENOSPC) else last_pass data_pos 24
    end.
End Bitmap.

(** ** One page *)

Lemma ffz_spec x : byte_ok x -> x <> 0xff -> 0 <= ffz x < 8 /\ Z.testbit x (ffz x) = false.
Proof.
  intros Hx Hne. unfold byte_ok in Hx.
  assert (H : forallb (fun k => (Z.of_nat k =? 255) || ((0 <=? ffz (Z.of_nat k)) && (ffz (Z.of_nat k) <? 8) && negb (Z.testbit (Z.of_nat k) (ffz (Z.of_nat k)))))
    (seq 0 256) = true) by (by vm_compute).
  rewrite forallb_forall in H. specialize (H (Z.to_nat x) ltac:(apply in_seq; lia)). rewrite Z2Nat.id in H by lia.
  destruct (Z.eqb_spec x 255); [done|]. cbn [orb] in H. rewrite !andb_true_iff, negb_true_iff, Z.leb_le, Z.ltb_lt in H. naive_solver.
Qed.

Lemma land7 z : Z.land z 7 = z mod 8.
Proof. change 7 with (Z.ones 3). by rewrite Z.land_ones. Qed.

Lemma landnot7 z : Z.land z (Z.lnot 7) = z / 8 * 8.
Proof.
  change 7 with (Z.ones 3). rewrite <- Z.ldiff_land, Z.ldiff_ones_r by lia. rewrite Z.shiftr_div_pow2, Z.shiftl_mul_pow2 by lia. done.
Qed.

(** What the search in a page of [sz] bytes from bit [bit] on comes to. *)
Definition scan_right (page : list Z) (page_ofs sz data_pos bit : Z) (x : scan) : Prop :=
  match x with
  | Full => forall j, bit <= 8 * j < 8 * sz -> page !! Z.to_nat (page_ofs + j) = Some 0xff
  | TooHigh => False
  | Found page' ll => exists j b x, 0 <= b < 8 /\ bit <= 8 * j + b < 8 * sz /\ 0 <= j /\ ll = data_pos + 8 * j + b /\
      page !! Z.to_nat (page_ofs + j) = Some x /\ Z.testbit x b = false /\ page' = <[Z.to_nat (page_ofs + j) := Z.lor x (2 ^ b)]> page
  end.

Lemma scan_page_spec page page_ofs sz data_pos pass_end n : forall bit,
  Forall byte_ok page -> 0 <= page_ofs -> page_ofs + sz <= zlen page -> 0 <= bit <= 8 * sz -> 8 * sz - bit < Z.of_nat n ->
  data_pos + 8 * sz <= 2 ^ 32 -> (bit < 8 * sz -> data_pos + bit < pass_end) -> data_pos + 8 * sz - 8 < pass_end ->
  exists x, scan_page n page page_ofs (8 * sz) data_pos pass_end bit = Ret x /\ scan_right page page_ofs sz data_pos bit x.
Proof.
  induction n as [|n IH]; intros bit Hb Hp Hsz Hbit Hn Hhi Hfirst Hlast; [lia|].
  cbn [scan_page]. destruct (Z.ltb_spec bit (8 * sz)) as [Hlt|Hge]; cbn [andb].
  2:{ exists Full. split; [done|]. intros j Hj. lia. }
  destruct (Z.ltb_spec (data_pos + bit) pass_end) as [_|?]; [|lia]. rewrite Z.shiftr_div_pow2, landnot7, land7 by lia. change (2 ^ 3) with 8.
  pose proof (Z.div_mod bit 8 ltac:(lia)) as Hdm. pose proof (Z.mod_pos_bound bit 8 ltac:(lia)) as Hmb. set (j := bit / 8) in *.
  assert (Hj : 0 <= j < sz) by lia.
  assert (Hnext : (forall x, page !! Z.to_nat (page_ofs + j) = Some x -> x = 0xff \/ bit mod 8 <> 0) ->
    exists x, scan_page n page page_ofs (8 * sz) data_pos pass_end (j * 8 + 8) = Ret x /\ scan_right page page_ofs sz data_pos bit x).
  { intros Hx. destruct (IH (j * 8 + 8)) as (x & E & Hr); try done; try lia. exists x. split; [done|]. destruct x as [| |page' ll]; cbn in *; [|done|].
    - intros k Hk. destruct (decide (k = j)) as [->|]; [|apply Hr; lia]. destruct (lookup_lt_is_Some_2 page (Z.to_nat (page_ofs + j))) as [y Hy];
        [unfold zlen in *; lia|]. destruct (Hx y Hy) as [->|]; [done|]. lia.
    - destruct Hr as (k & b & y & H1 & H2 & H3 & H4). exists k, b, y. split_and!; try lia; naive_solver. }
  destruct (rd_in_range page (page_ofs + j)) as [x Hx]; [lia|]. rewrite Hx, bind_Ret. apply rd_spec in Hx as [_ Hx].
  assert (Hxb : byte_ok x) by (by eapply (Forall_lookup_1 byte_ok page)).
  destruct (Z.eqb_spec x 0xff) as [->|Hne]; [apply Hnext; intros y Hy; left; congruence|].
  destruct (ffz_spec x Hxb Hne) as [Hf Ht]. set (b := ffz x) in *. destruct (Z.ltb_spec b 8); [|lia]. cbn [andb].
  destruct (Z.geb_spec b (bit mod 8)) as [Hge|Hlt2].
  - destruct (Z.gtb_spec (data_pos + j * 8 + b) (Z.shiftl 1 32)) as [?|_]; [change (Z.shiftl 1 32) with (2 ^ 32) in *; lia|].
    unfold wr. rewrite (proj2 (Z.leb_le 0 (page_ofs + j))), (proj2 (Z.ltb_lt (page_ofs + j) (zlen page))) by lia. cbn [andb]. rewrite bind_Ret.
    eexists. split; [done|]. exists j, b, x. split_and!; try done; try lia. by rewrite Z.shiftl_1_l.
  - apply Hnext. intros y Hy. right. lia.
Qed.

(** ** The bitmap *)

Section Search.
Context (shift : Z) (Hshift : 3 <= shift < 29).
Context (disk : Z -> list Z) (map_page : Z -> Z + list Z).
Hypothesis Hpage : forall i, zlen (disk i) = 2 ^ shift /\ Forall byte_ok (disk i).
Hypothesis Hmap : forall i, map_page i = inr (disk i).

Local Abbreviation bit := (disk_bit shift disk).

(** Byte [k] of the bitmap. *)
Definition bm_byte (k : Z) : Z := default 0 (disk (k / 2 ^ shift) !! Z.to_nat (k mod 2 ^ shift)).

Lemma q_pos : 0 < 2 ^ shift <= 2 ^ 28.
Proof. split; [apply Z.pow_pos_nonneg; lia|apply Z.pow_le_mono_r; lia]. Qed.

Lemma bit_byte n : 0 <= n -> bit n = Z.testbit (bm_byte (n / 8)) (n mod 8).
Proof.
  pose proof q_pos as Hq. intros Hn. unfold disk_bit, list_bit, bm_byte.
  rewrite <- Z.div_div by lia. rewrite Z.rem_mul_r by lia.
  replace (n mod 8 + 8 * ((n / 8) mod 2 ^ shift)) with (n mod 8 + (n / 8) mod 2 ^ shift * 8) by lia.
  pose proof (Z.mod_pos_bound n 8 ltac:(lia)). rewrite Z.div_add, Z.mod_add, Z.div_small, Z.mod_mod by lia. by rewrite Z.add_0_l.
Qed.

Lemma page_byte ofs j : 0 <= ofs -> 0 <= j -> ofs mod 2 ^ shift + j < 2 ^ shift ->
  (ofs + j) / 2 ^ shift = ofs / 2 ^ shift /\ (ofs + j) mod 2 ^ shift = ofs mod 2 ^ shift + j.
Proof.
  pose proof q_pos as Hq. intros Ho Hj Hlt. pose proof (Z.div_mod ofs (2 ^ shift) ltac:(lia)). pose proof (Z.mod_pos_bound ofs (2 ^ shift) ltac:(lia)).
  replace (ofs + j) with (ofs mod 2 ^ shift + j + ofs / 2 ^ shift * 2 ^ shift) by lia.
  rewrite Z.div_add, Z.mod_add, Z.div_small, Z.mod_small by lia. lia.
Qed.

(** Record [n] was free, and page [i] is changed to have its bit set. *)
Definition takes (i : Z) (page : list Z) (n : Z) : Prop :=
  bit n = false /\ i = n / 8 / 2 ^ shift /\ page = <[Z.to_nat ((n / 8) mod 2 ^ shift) := Z.lor (bm_byte (n / 8)) (2 ^ (n mod 8))]> (disk i).

Definition pass_right (lo pe : Z) (r : pass_exit) : Prop :=
  match r with
  | EndOfPass => forall k, lo <= 8 * k -> 8 * k < pe -> bm_byte k = 0xff
  | Return None _ => False
  | Return (Some (i, page)) n => takes i page n /\ lo <= n < 8 * ((pe + 7) / 8)
  end.

Lemma pass_spec fuel : forall pe dp, 0 <= dp < pe -> pe <= 2 ^ 31 - 8 -> pe - dp < Z.of_nat fuel ->
  exists r, search_pass shift map_page fuel pe dp = Ret r /\ pass_right dp pe r.
Proof.
  pose proof q_pos as Hq. induction fuel as [|fuel IH]; intros pe dp Hdp Hpe Hf; [lia|]. cbn [search_pass].
  rewrite landnot7, land7, !(Z.shiftr_div_pow2 _ 3) by lia. change (2 ^ 3) with 8. rewrite (Z.shiftr_div_pow2 _ shift) by lia.
  replace (2 ^ shift - 1) with (Z.ones shift) by (rewrite Z.ones_equiv; lia). rewrite Z.land_ones by lia.
  pose proof (Z.div_mod dp 8 ltac:(lia)) as Hd. pose proof (Z.mod_pos_bound dp 8 ltac:(lia)) as Hm. set (ofs := dp / 8) in *.
  pose proof (Z.div_mod (pe + 7) 8 ltac:(lia)) as He. pose proof (Z.mod_pos_bound (pe + 7) 8 ltac:(lia)) as He2. set (E := (pe + 7) / 8) in *.
  pose proof (Z.mod_pos_bound ofs (2 ^ shift) ltac:(lia)) as Hpo. set (po := ofs mod 2 ^ shift) in *.
  assert (Hofs : 0 <= ofs < E) by lia. set (sz := Z.min (2 ^ shift - po) (E - ofs)).
  assert (Esz : u32 (Z.shiftl (if 2 ^ shift - po >? E - ofs then u32 (E - ofs) else 2 ^ shift - po) 3) = 8 * sz).
  { rewrite Z.shiftl_mul_pow2 by lia. change (2 ^ 3) with 8. unfold sz. destruct (Z.gtb_spec (2 ^ shift - po) (E - ofs));
      rewrite ?(u32_id (E - ofs)) by lia; rewrite u32_id by lia; lia. }
  rewrite Esz. destruct (Z.eqb_spec (8 * sz) 0); [lia|]. cbn [negb]. rewrite Hmap. destruct (Hpage (ofs / 2 ^ shift)) as [Hz Hb].
  destruct (scan_page_spec (disk (ofs / 2 ^ shift)) po sz (ofs * 8) pe (S (Z.to_nat (8 * sz))) (dp mod 8)) as (x & Ex & Hx); try done; try lia.
  rewrite Ex, bind_Ret. destruct x as [| |page ll]; cbn in Hx; [|done|].
  - assert (Hfull : forall k, dp <= 8 * k -> 8 * k < 8 * (ofs + sz) -> bm_byte k = 0xff).
    { intros k Hk1 Hk2. destruct (page_byte ofs (k - ofs)) as [E1 E2]; [lia|lia|fold po; lia|]. replace (ofs + (k - ofs)) with k in * by lia.
      unfold bm_byte. rewrite E1, E2. fold po. by rewrite Hx by lia. }
    destruct (Z.ltb_spec (ofs * 8 + 8 * sz) pe) as [Hlt|Hge].
    + destruct (IH pe (ofs * 8 + 8 * sz)) as (r & Er & Hr); [lia|lia|lia|]. exists r. split; [done|].
      destruct r as [[[i page]|] n'|]; cbn in *; [|done|]; [destruct Hr; split; [done|lia]|].
      intros k Hk1 Hk2. destruct (Z.lt_ge_cases (8 * k) (ofs * 8 + 8 * sz)); [apply Hfull; lia|apply Hr; lia].
    + exists EndOfPass. split; [done|]. intros k Hk1 Hk2. apply Hfull; lia.
  - destruct Hx as (j & b & y & Hb8 & Hjb & Hj0 & -> & Hy & Ht & ->). destruct (page_byte ofs j) as [E1 E2]; [lia|lia|fold po; lia|].
    eexists. split; [done|]. rewrite s32_id by lia. cbn [pass_right].
    assert (Edm : (ofs * 8 + 8 * j + b) / 8 = ofs + j /\ (ofs * 8 + 8 * j + b) mod 8 = b).
    { replace (ofs * 8 + 8 * j + b) with (b + (ofs + j) * 8) by lia. by rewrite Z.div_add, Z.mod_add, Z.div_small, Z.mod_small by lia. }
    assert (Eby : bm_byte (ofs + j) = y) by (unfold bm_byte; rewrite E1, E2; fold po; by rewrite Hy).
    split; [|fold E; lia]. unfold takes. rewrite bit_byte by lia. destruct Edm as [-> ->]. rewrite Eby, E1, E2. done.
Qed.

(** The bitmap with page [i] replaced. *)
Definition with_page (i : Z) (page : list Z) (k : Z) : list Z := if k =? i then page else disk k.

Lemma ff_bits b : 0 <= b < 8 -> Z.testbit 0xff b = true.
Proof. intros Hb. change 0xff with (Z.ones 8). apply Z.ones_spec_low. lia. Qed.

Lemma full_bits lo pe n : (forall k, lo <= 8 * k -> 8 * k < pe -> bm_byte k = 0xff) -> 0 <= lo -> lo <= 8 * (n / 8) -> n < pe -> bit n = true.
Proof.
  intros H H0 H1 H2. pose proof (Z.mul_div_le n 8 ltac:(lia)). rewrite bit_byte by lia. rewrite H by lia. apply ff_bits, Z.mod_pos_bound. lia.
Qed.
End Search.

(** Setting the bit changes no other. *)
Lemma takes_bits shift disk i page n : 3 <= shift < 29 -> (forall i, zlen (disk i) = 2 ^ shift /\ Forall byte_ok (disk i)) ->
  0 <= n -> takes shift disk i page n ->
  zlen page = 2 ^ shift /\ forall m, 0 <= m -> disk_bit shift (with_page disk i page) m = (m =? n) || disk_bit shift disk m.
Proof.
  intros Hs Hp Hn (Hbit & -> & ->). pose proof (q_pos shift Hs) as Hq. destruct (Hp (n / 8 / 2 ^ shift)) as [Hz _].
  split; [unfold zlen in *; by rewrite length_insert|]. intros m Hm. rewrite !(bit_byte shift Hs) by lia.
  set (x := bm_byte shift disk (n / 8)) in *.
  pose proof (Z.mod_pos_bound (n / 8) (2 ^ shift) ltac:(lia)) as Hb1. pose proof (Z.mod_pos_bound (m / 8) (2 ^ shift) ltac:(lia)) as Hb2.
  pose proof (Z.mod_pos_bound n 8 ltac:(lia)) as Hb3. pose proof (Z.mod_pos_bound m 8 ltac:(lia)) as Hb4.
  pose proof (Z.div_mod n 8 ltac:(lia)) as Dn. pose proof (Z.div_mod m 8 ltac:(lia)) as Dm.
  destruct (decide (m / 8 = n / 8)) as [E|E].
  - assert (Eb : bm_byte shift (with_page disk (n / 8 / 2 ^ shift) (<[Z.to_nat ((n / 8) mod 2 ^ shift) := Z.lor x (2 ^ (n mod 8))]> (disk (n / 8 / 2 ^ shift)))) (m / 8)
      = Z.lor x (2 ^ (n mod 8))).
    { unfold bm_byte, with_page. rewrite E, Z.eqb_refl, list_lookup_insert_eq by (unfold zlen in Hz; lia). done. }
    rewrite Eb, Z.lor_spec. replace (bm_byte shift disk (m / 8)) with x by (by rewrite E). rewrite orb_comm. f_equal.
    rewrite Z.pow2_bits_eqb by lia. destruct (Z.eqb_spec (n mod 8) (m mod 8)), (Z.eqb_spec m n); try done; lia.
  - replace (m =? n) with false by (symmetry; apply Z.eqb_neq; intros ->; done). cbn [orb]. f_equal.
    unfold bm_byte, with_page. destruct (Z.eqb_spec (m / 8 / 2 ^ shift) (n / 8 / 2 ^ shift)) as [E2|E2]; [|done].
    pose proof (Z.div_mod (n / 8) (2 ^ shift) ltac:(lia)) as D1. pose proof (Z.div_mod (m / 8) (2 ^ shift) ltac:(lia)) as D2. rewrite E2 in D2.
    assert ((m / 8) mod 2 ^ shift <> (n / 8) mod 2 ^ shift) by congruence.
    rewrite list_lookup_insert_ne by lia.
    by rewrite E2.
Qed.

(** ** Claims *)

(** C13: [ntfs_mft_bitmap_find_and_alloc_free_rec_nolock] on an mft bitmap whose pages
    can all be read and of which at most 2^31 - 8 bits are searched (a record number of
    2^31 or more comes out of the int as an error, [high_record_is_an_error]): it
    returns; when it finds a record, that record is 24 or higher and at most in the
    last byte searched, its bit was clear and is now the only bit that changed; and it
    returns -ENOSPC only when every record from 24 to the end of the bitmap is in use,
    wherever the search started. *)
Theorem mft_bitmap_find_and_alloc_correct shift disk map_page alloc init bits mft_data_pos base_no :
  let f := ntfs_mft_bitmap_find_and_alloc_free_rec_nolock shift map_page alloc init bits mft_data_pos base_no in
  let pe := Z.min (Z.shiftr alloc bits) (8 * init) in
  3 <= shift < 29 -> (forall i, zlen (disk i) = 2 ^ shift /\ Forall byte_ok (disk i)) -> (forall i, map_page i = inr (disk i)) ->
  0 <= init < 2 ^ 60 -> pe <= 2 ^ 31 - 8 ->
  (exists i page n, f = Ret (Some (i, page), n) /\ 24 <= n < 8 * ((pe + 7) / 8) /\ disk_bit shift disk n = false /\ zlen page = 2 ^ shift /\
     forall m, 0 <= m -> disk_bit shift (with_page disk i page) m = (m =? n) || disk_bit shift disk m) \/
  (f = Ret (None, - ENOSPC) /\ forall n, 24 <= n < pe -> disk_bit shift disk n = true).
Proof.
  intros f pe Hs Hp Hmap Hi Hpe.
  assert (Epe : (if Z.shiftr alloc bits >? s64 (Z.shiftl init 3) then s64 (Z.shiftl init 3) else Z.shiftr alloc bits) = pe).
  { rewrite Z.shiftl_mul_pow2, s64_id by (unfold S64_MIN, S64_MAX; lia). unfold pe. destruct (Z.gtb_spec (Z.shiftr alloc bits) (init * 2 ^ 3)); lia. }
  unfold f, ntfs_mft_bitmap_find_and_alloc_free_rec_nolock. rewrite Epe. cbv zeta.
  set (dp0 := match base_no with None => mft_data_pos | Some no => no + 1 end). set (dp := if dp0 <? 24 then 24 else dp0).
  assert (Hdp : 24 <= dp) by (unfold dp; destruct (Z.ltb_spec dp0 24); lia).
  assert (Hfloor : forall n, 24 <= n -> 24 <= 8 * (n / 8)) by (intros n Hn; pose proof (Z.div_le_mono 24 n 8 ltac:(lia) Hn); change (24 / 8) with 3 in *; lia).
  (* a search that found a record *)
  assert (Hfound : forall lo hi i page n, 24 <= lo -> hi <= pe -> takes shift disk i page n /\ lo <= n < 8 * ((hi + 7) / 8) ->
    24 <= n < 8 * ((pe + 7) / 8) /\ disk_bit shift disk n = false /\ zlen page = 2 ^ shift /\
    forall m, 0 <= m -> disk_bit shift (with_page disk i page) m = (m =? n) || disk_bit shift disk m).
  { intros lo hi i page n Hlo Hhi [Ht Hn]. destruct (takes_bits shift disk i page n Hs Hp ltac:(lia) Ht) as [H1 H2].
    pose proof (Z.div_le_mono (hi + 7) (pe + 7) 8 ltac:(lia) ltac:(lia)). split; [lia|]. split; [apply Ht|done]. }
  destruct (Z.geb_spec dp pe) as [Hge|Hlt].
  - destruct (Z.geb_spec 24 pe); [right; split; [done|lia]|]. unfold last_pass.
    destruct (pass_spec shift Hs disk map_page Hp Hmap (pass_fuel pe) pe 24) as (r & -> & Hr); [lia|lia|unfold pass_fuel; lia|]. rewrite bind_Ret.
    destruct r as [[[i page]|] n|]; cbn in Hr; [|done|].
    + left. exists i, page, n. split; [done|]. apply (Hfound 24 pe); [lia|lia|done].
    + right. split; [done|]. intros n Hn. apply (full_bits shift Hs disk 24 pe); [exact Hr|lia|apply Hfloor; lia|lia].
  - destruct (pass_spec shift Hs disk map_page Hp Hmap (pass_fuel pe) pe dp) as (r & -> & Hr); [lia|lia|unfold pass_fuel; lia|]. rewrite bind_Ret.
    destruct r as [[[i page]|] n|]; cbn in Hr; [|done|].
    { left. exists i, page, n. split; [done|]. by apply (Hfound dp pe). }
    destruct (Z.geb_spec 24 dp) as [Hle|Hgt].
    { right. split; [done|]. intros n Hn. apply (full_bits shift Hs disk dp pe); [exact Hr|lia|specialize (Hfloor n ltac:(lia)); lia|lia]. }
    unfold last_pass. destruct (pass_spec shift Hs disk map_page Hp Hmap (pass_fuel dp) dp 24) as (r & -> & Hr2); [lia|lia|unfold pass_fuel; lia|]. rewrite bind_Ret.
    destruct r as [[[i page]|] n|]; cbn in Hr2; [|done|].
    { left. exists i, page, n. split; [done|]. apply (Hfound 24 dp); [lia|lia|done]. }
    right. split; [done|]. intros n Hn. apply (full_bits shift Hs disk 24 pe); [|lia|apply Hfloor; lia|lia].
    intros k Hk1 Hk2. destruct (Z.le_gt_cases dp (8 * k)); [apply Hr; lia|apply Hr2; lia].
Qed.

(** 40 records, of which 24 to 31 but for 26 are in use; the search starts at 27. *)
Definition demo_bm (i : Z) : list Z := if i =? 0 then [255; 255; 255; 0xfb; 255; 0; 0; 0] else repeat 0 8.

Lemma mft_bitmap_find_and_alloc_correct_witness :
  ntfs_mft_bitmap_find_and_alloc_free_rec_nolock 3 (fun i => inr (demo_bm i)) 40960 5 10 0 (Some 26) = Ret (Some (0, [255; 255; 255; 255; 255; 0; 0; 0]), 26).
Proof.
  destruct (mft_bitmap_find_and_alloc_correct 3 demo_bm (fun i => inr (demo_bm i)) 40960 5 10 0 (Some 26)) as [(i & page & n & E & _)|[_ H]];
    [lia| |done|lia|by vm_compute| |].
  - intros i. unfold demo_bm. destruct (i =? 0); (split; [done|]); repeat constructor; done.
  - rewrite E. vm_compute in E. by rewrite E.
  - specialize (H 26 ltac:(by vm_compute)). by vm_compute in H.
Defined.

(** The return value is an int: a record number of 2^31 comes out negative, as an
    error, after its bit was set. *)
Example high_record_is_an_error :
  search_pass 3 (fun i => inr (repeat 0 8)) 2 (2 ^ 31 + 8) (2 ^ 31) = Ret (Return (Some (2 ^ 25, [1; 0; 0; 0; 0; 0; 0; 0])) (- 2 ^ 31)).
Proof. vm_compute. reflexivity. Qed.
