(* ===== verification/MftLayout.v ===== *)
(** * Laying out an empty mft record

    Models [ntfs_mft_record_layout] and [ntfs_mft_record_format] of
    [src/ntfs/mft.c]: the bytes of a new mft record, and their place in a page of
    $MFT. *)

From Stdlib Require Import ZArith Lia Bool.
From stdpp Require Import base list numbers option.
From S2P Require Import Prelude Endian Mst Unistr Attrib MftMap AttrList.

(** The members of [MFT_RECORD] (layout.h). *)
Definition M_magic : Z := 0.
Definition M_usa_ofs : Z := 4.
Definition M_usa_count : Z := 6.
Definition M_lsn : Z := 8.
Definition M_sequence_number : Z := 16.
Definition M_link_count : Z := 18.
Definition M_flags : Z := 22.
Definition M_base_mft_record : Z := 32.
Definition M_next_attr_instance : Z := 40.
Definition M_reserved : Z := 42.
Definition M_mft_record_number : Z := 44.
Definition sizeof_MFT_RECORD_OLD : Z := 42.
Definition sizeof_MFT_RECORD : Z := 48.

(** A store of 64 bits. *)
Definition wr_le64 (mem : list Z) (off z : Z) : outcome (list Z) := wr_bytes mem off (le_split 8 z).

Section Layout.
(** The size of an mft record and the version of the volume. *)
Context (mft_record_size major_ver minor_ver : Z).

(** @m and the return value. *)
Definition ntfs_mft_record_layout (mft_no : Z) (m : list Z) : outcome (list Z * Z) :=
  if mft_no >=? Z.shiftl 1 32 then Ret (m, - ERANGE)
  else
    m ← memset0 m 0 mft_record_size;
    m ← (if (major_ver <? 3) || ((major_ver =? 3) && (minor_ver =? 0))
         then wr_le16 m M_usa_ofs (Z.land (sizeof_MFT_RECORD_OLD + 1) (Z.lnot 1))
         else
           m ← wr_le16 m M_usa_ofs (Z.land (sizeof_MFT_RECORD + 1) (Z.lnot 1));
           m ← wr_le16 m M_reserved 0;
           wr_le32 m M_mft_record_number (u32 mft_no));
    m ← wr_le32 m M_magic magic_FILE;
    m ← wr_le16 m M_usa_count (if mft_record_size >=? NTFS_BLOCK_SIZE then mft_record_size / NTFS_BLOCK_SIZE + 1 else 1);
    usa_ofs ← rd_le16 m M_usa_ofs;
    m ← wr_le16 m usa_ofs 1;
    m ← wr_le64 m M_lsn 0;
    m ← wr_le16 m M_sequence_number 1;
    m ← wr_le16 m M_link_count 0;
    usa_ofs ← rd_le16 m M_usa_ofs;
    usa_count ← rd_le16 m M_usa_count;
    m ← wr_le16 m MFT_attrs_offset (Z.land (usa_ofs + Z.shiftl usa_count 1 + 7) (Z.lnot 7));
    m ← wr_le16 m M_flags 0;
    attrs_offset ← rd_le16 m MFT_attrs_offset;
    m ← wr_le32 m MFT_bytes_in_use (attrs_offset + 8);
    m ← wr_le32 m MFT_bytes_allocated mft_record_size;
    m ← wr_le64 m M_base_mft_record 0;
    m ← wr_le16 m M_next_attr_instance 0;
    attrs_offset ← rd_le16 m MFT_attrs_offset;
    m ← wr_le32 m (attrs_offset + A_type) AT_END;
    m ← wr_le32 m (attrs_offset + A_length) 0;
    Ret (m, 0).

(** The page cache of $MFT and the size of its data. *)
Context (map_page : Z -> Z + list Z) (i_size mft_record_size_bits PAGE_CACHE_SHIFT : Z).

(** The page that was changed and marked dirty, and the return value.  The page is
    locked and not up to date while it changes, and unlocked, up to date and
    unmapped on every way out. *)
Definition ntfs_mft_record_format (mft_no : Z) : outcome (option (Z * list Z) * Z) :=
  let index := u64 (Z.shiftr (s64 (Z.shiftl mft_no mft_record_size_bits)) PAGE_CACHE_SHIFT) in
  let ofs := u32 (Z.land (s64 (Z.shiftl mft_no mft_record_size_bits)) (2 ^ PAGE_CACHE_SHIFT - 1)) in
  let end_index := Z.shiftr i_size PAGE_CACHE_SHIFT in
  if (index >=? end_index) && ((index >? end_index) || (ofs + mft_record_size >=? Z.land i_size (2 ^ PAGE_CACHE_SHIFT - 1)))
  then Ret (None, - ENOENT)
  else
    match map_page index with
    | inl e => Ret (None, e)
    | inr page =>
        '(m, err) ← ntfs_mft_record_layout mft_no (drop (Z.to_nat ofs) page);
        if negb (err =? 0) then Ret (None, err) else Ret (Some (index, take (Z.to_nat ofs) page ++ m), 0)
    end.
End Layout.

(** ** Loads after stores *)

Definition put (mem : list Z) (off : Z) (l : list Z) : list Z := take (Z.to_nat off) mem ++ l ++ drop (Z.to_nat (off + zlen l)) mem.

Lemma wr_put mem off l : 0 <= off -> off + zlen l <= zlen mem -> wr_bytes mem off l = Ret (put mem off l).
Proof.
  intros H1 H2. unfold wr_bytes, blit. pose proof (zlen_nonneg l).
  rewrite (proj2 (Z.leb_le 0 off)), (proj2 (Z.leb_le 0 (zlen l))), (proj2 (Z.leb_le (off + zlen l) _)), (proj2 (Z.leb_le (0 + zlen l) _)) by lia.
  cbn [andb Z.leb Z.compare]. f_equal. unfold put. do 2 f_equal. cbn. apply take_ge. unfold zlen. lia.
Qed.

Lemma zlen_put mem off l : 0 <= off -> off + zlen l <= zlen mem -> zlen (put mem off l) = zlen mem.
Proof. intros H1 H2. unfold put. unfold zlen in *. rewrite !length_app, length_take, length_drop. lia. Qed.

Lemma put_lookup mem off l i : 0 <= off -> off + zlen l <= zlen mem ->
  put mem off l !! i = if (Z.to_nat off <=? i)%nat && (i <? Z.to_nat off + length l)%nat then l !! (i - Z.to_nat off)%nat else mem !! i.
Proof.
  intros H1 H2. unfold put, zlen in *. assert (Ht : length (take (Z.to_nat off) mem) = Z.to_nat off) by (rewrite length_take; lia).
  destruct (Nat.leb_spec (Z.to_nat off) i) as [Hi|Hi]; cbn [andb].
  - rewrite lookup_app_r by lia. rewrite Ht. destruct (Nat.ltb_spec i (Z.to_nat off + length l)) as [Hj|Hj].
    + by rewrite lookup_app_l by lia.
    + rewrite lookup_app_r by lia. rewrite lookup_drop. f_equal. lia.
  - rewrite lookup_app_l by lia. by apply lookup_take_lt.
Qed.

Lemma rd_put_same mem off l n : 0 <= off -> off + zlen l <= zlen mem -> length l = n -> rd_bytes n (put mem off l) off = Ret l.
Proof.
  intros H1 H2 Hn. apply (rd_bytes_at _ _ (take (Z.to_nat off) mem) l (drop (Z.to_nat (off + zlen l)) mem)); try done.
  unfold zlen in *. rewrite length_take. lia.
Qed.

Lemma rd_put_other mem off l n o : 0 <= off -> off + zlen l <= zlen mem -> o + Z.of_nat n <= off \/ off + zlen l <= o ->
  rd_bytes n (put mem off l) o = rd_bytes n mem o.
Proof.
  intros H1 H2 Ho. unfold rd_bytes. rewrite zlen_put by done. destruct (Z.leb_spec 0 o); cbn [andb]; [|done].
  destruct (Z.leb_spec (o + Z.of_nat n) (zlen mem)); [|done]. f_equal. apply list_eq. intros i.
  destruct (Nat.lt_ge_cases i n) as [Hi|Hi]; [|by rewrite !lookup_take_ge].
  rewrite !lookup_take_lt, !lookup_drop by done. rewrite put_lookup by done.
  destruct (Nat.leb_spec (Z.to_nat off) (Z.to_nat o + i)), (Nat.ltb_spec (Z.to_nat o + i) (Z.to_nat off + length l)); cbn [andb]; try done.
  unfold zlen in *. lia.
Qed.

Lemma le16_put_same mem off z : 0 <= off -> off + 2 <= zlen mem -> rd_le16 (put mem off (le_split 2 z)) off = Ret (z mod 0x10000).
Proof. intros H1 H2. unfold rd_le16. by rewrite rd_put_same, bind_Ret, le_combine_split by (rewrite ?zlen_le_split; done || apply length_le_split). Qed.

Lemma le32_put_same mem off z : 0 <= off -> off + 4 <= zlen mem -> rd_le32 (put mem off (le_split 4 z)) off = Ret (z mod 0x100000000).
Proof. intros H1 H2. unfold rd_le32. by rewrite rd_put_same, bind_Ret, le_combine_split by (rewrite ?zlen_le_split; done || apply length_le_split). Qed.

Lemma le16_put_other mem off l o : 0 <= off -> off + zlen l <= zlen mem -> o + 2 <= off \/ off + zlen l <= o -> rd_le16 (put mem off l) o = rd_le16 mem o.
Proof. intros. unfold rd_le16. by rewrite rd_put_other. Qed.

Lemma le32_put_other mem off l o : 0 <= off -> off + zlen l <= zlen mem -> o + 4 <= off \/ off + zlen l <= o -> rd_le32 (put mem off l) o = rd_le32 mem o.
Proof. intros. unfold rd_le32. by rewrite rd_put_other. Qed.

Lemma drop_put mem off l n : 0 <= off -> off + zlen l <= n -> n <= zlen mem -> drop (Z.to_nat n) (put mem off l) = drop (Z.to_nat n) mem.
Proof.
  intros H1 H2 H3. apply list_eq. intros i. rewrite !lookup_drop. rewrite put_lookup by lia.
  destruct (Nat.ltb_spec (Z.to_nat n + i) (Z.to_nat off + length l)); [unfold zlen in *; lia|]. by rewrite andb_false_r.
Qed.

(** Carries out the next store of the goal as the list [x], of the same length. *)
Ltac store x :=
  match goal with
  | Hm : zlen ?m = ?z |- context [wr_bytes ?m ?o ?l] =>
      let Hr := fresh "Hr" in let E := fresh "E" in let Hx := fresh "Hz" in let y := fresh x in
      assert (Hr : 0 <= o /\ o + zlen l <= z) by (rewrite ?zlen_le_split; lia);
      rewrite (wr_put m o l) by (rewrite ?Hm; lia); rewrite ?bind_Ret;
      remember (put m o l) as y eqn:E; assert (Hx : zlen y = z) by (rewrite E, zlen_put by (rewrite ?Hm; lia); exact Hm)
  end.

(** Finds the value of a load in the stores before it. *)
Ltac load :=
  repeat match goal with
  | E : ?x = put ?m ?o (le_split 2 ?v) |- context [rd_le16 ?x ?o] =>
      replace (rd_le16 x o) with (Ret (v mod 0x10000)) by (rewrite E; symmetry; apply le16_put_same; lia)
  | E : ?x = put ?m ?o (le_split 4 ?v) |- context [rd_le32 ?x ?o] =>
      replace (rd_le32 x o) with (Ret (v mod 0x100000000)) by (rewrite E; symmetry; apply le32_put_same; lia)
  | E : ?x = put ?m ?o ?l |- context [rd_le16 ?x ?p] =>
      replace (rd_le16 x p) with (rd_le16 m p) by (rewrite E; symmetry; apply le16_put_other; rewrite ?zlen_le_split; lia)
  | E : ?x = put ?m ?o ?l |- context [rd_le32 ?x ?p] =>
      replace (rd_le32 x p) with (rd_le32 m p) by (rewrite E; symmetry; apply le32_put_other; rewrite ?zlen_le_split; lia)
  end.

(** What a laid out record of [n] sectors holds. *)
Record laid_out (m' : list Z) (n usa_ofs mft_no : Z) (new : bool) : Prop := {
  lo_magic : rd_le32 m' M_magic = Ret magic_FILE;
  lo_usa_ofs : rd_le16 m' M_usa_ofs = Ret usa_ofs;
  lo_usa_count : rd_le16 m' M_usa_count = Ret (n + 1);
  lo_usn : rd_le16 m' usa_ofs = Ret 1;
  lo_seq : rd_le16 m' M_sequence_number = Ret 1;
  lo_attrs : rd_le16 m' MFT_attrs_offset = Ret ((usa_ofs + 2 * (n + 1) + 7) / 8 * 8);
  lo_in_use : rd_le32 m' MFT_bytes_in_use = Ret ((usa_ofs + 2 * (n + 1) + 7) / 8 * 8 + 8);
  lo_alloc : rd_le32 m' MFT_bytes_allocated = Ret (512 * n);
  lo_end : rd_le32 m' ((usa_ofs + 2 * (n + 1) + 7) / 8 * 8 + A_type) = Ret AT_END;
  lo_number : new = true -> rd_le32 m' M_mft_record_number = Ret mft_no;
}.

Definition is_new (major minor : Z) : bool := negb ((major <? 3) || ((major =? 3) && (minor =? 0))).
Definition usa_of (new : bool) : Z := if new then 48 else 42.

Lemma layout_spec major minor n mft_no m : 1 <= n <= 200 -> 0 <= mft_no < 2 ^ 32 -> 512 * n <= zlen m ->
  exists m', ntfs_mft_record_layout (512 * n) major minor mft_no m = Ret (m', 0) /\ zlen m' = zlen m /\
    drop (Z.to_nat (512 * n)) m' = drop (Z.to_nat (512 * n)) m /\
    laid_out m' n (usa_of (is_new major minor)) mft_no (is_new major minor).
Proof.
  intros Hn Hno Hm. unfold ntfs_mft_record_layout. destruct (Z.geb_spec mft_no (Z.shiftl 1 32)) as [?|_]; [change (Z.shiftl 1 32) with (2 ^ 32) in *; lia|].
  unfold memset0. set (zs := repeat 0 (Z.to_nat (512 * n))). assert (Hzs : zlen zs = 512 * n) by (unfold zs, zlen; rewrite repeat_length; lia).
  replace (blit m 0 zs 0 (512 * n)) with (wr_bytes m 0 zs) by (unfold wr_bytes; by rewrite Hzs).
  remember (zlen m) as z eqn:Hz0. symmetry in Hz0. unfold wr_le16, wr_le32, wr_le64. store m.
  (* the fields that depend on the version *)
  assert (Hver : exists m1, (if (major <? 3) || ((major =? 3) && (minor =? 0))
         then wr_bytes m0 M_usa_ofs (le_split 2 (Z.land (sizeof_MFT_RECORD_OLD + 1) (Z.lnot 1)))
         else
           m ← wr_bytes m0 M_usa_ofs (le_split 2 (Z.land (sizeof_MFT_RECORD + 1) (Z.lnot 1)));
           m ← wr_bytes m M_reserved (le_split 2 0);
           wr_bytes m M_mft_record_number (le_split 4 (u32 mft_no))) = Ret m1 /\ zlen m1 = z /\
      drop (Z.to_nat (512 * n)) m1 = drop (Z.to_nat (512 * n)) m0 /\ rd_le16 m1 M_usa_ofs = Ret (usa_of (is_new major minor)) /\
      (is_new major minor = true -> rd_le32 m1 M_mft_record_number = Ret mft_no)).
  { unfold is_new, M_usa_ofs, M_reserved, M_mft_record_number. destruct ((major <? 3) || ((major =? 3) && (minor =? 0))); cbn [negb usa_of].
    - store m. eexists. split; [done|]. split; [done|]. split; [|split; [load; done|done]].
      rewrite E0, drop_put by (rewrite ?zlen_le_split; lia). done.
    - store m. store m. store m. eexists. split; [done|]. split; [done|]. split; [|split; [load; done|]].
      + rewrite E2, drop_put, E1, drop_put, E0, drop_put by (rewrite ?zlen_le_split; lia). done.
      + intros _. load. unfold u32. by rewrite Zmod_mod, Z.mod_small by lia. }
  destruct Hver as (m1 & Ever & Hz1 & Hd1 & Huo & Hnumber). rewrite Ever, bind_Ret. clear Ever.
  set (uo := usa_of (is_new major minor)) in *. assert (Huo2 : uo = 42 \/ uo = 48) by (unfold uo; destruct (is_new major minor); auto).
  replace (if 512 * n >=? NTFS_BLOCK_SIZE then 512 * n / NTFS_BLOCK_SIZE + 1 else 1) with (n + 1)
    by (unfold NTFS_BLOCK_SIZE; destruct (Z.geb_spec (512 * n) 512); [rewrite (Z.mul_comm 512), Z.div_mul by lia; done|lia]).
  set (ao := (uo + 2 * (n + 1) + 7) / 8 * 8).
  assert (Hao : uo + 2 * (n + 1) <= ao <= uo + 2 * (n + 1) + 7) by (unfold ao; pose proof (Z.div_mod (uo + 2 * (n + 1) + 7) 8 ltac:(lia)); pose proof (Z.mod_pos_bound (uo + 2 * (n + 1) + 7) 8 ltac:(lia)); lia).
  assert (Eao : Z.land (uo + Z.shiftl (n + 1) 1 + 7) (Z.lnot 7) mod 0x10000 = ao).
  { change 7 with (Z.ones 3) at 2. rewrite <- Z.ldiff_land, Z.ldiff_ones_r, Z.shiftr_div_pow2, !Z.shiftl_mul_pow2 by lia. change (2 ^ 3) with 8. change (2 ^ 1) with 2.
    replace (uo + (n + 1) * 2 + 7) with (uo + 2 * (n + 1) + 7) by lia. fold ao. apply Z.mod_small. lia. }
  assert (En : (n + 1) mod 0x10000 = n + 1) by (apply Z.mod_small; lia).
  unfold M_magic, M_usa_ofs, M_usa_count, M_lsn, M_sequence_number, M_link_count, M_flags, M_base_mft_record, M_next_attr_instance,
    MFT_attrs_offset, MFT_bytes_in_use, MFT_bytes_allocated in *.
  store m. store m. load. rewrite Huo, bind_Ret. store m. store m. store m. store m. load. rewrite Huo, !bind_Ret, En.
  store m. store m. load. rewrite Eao, bind_Ret. store m. store m. store m. store m. load. rewrite Eao, bind_Ret.
  unfold A_type, A_length. store m. store m. eexists. split; [done|]. split; [done|]. split.
  - repeat match goal with E : ?x = put ?m ?o ?l |- context [drop _ ?x] => rewrite E, drop_put by (rewrite ?Hzs, ?zlen_le_split; lia) end.
    rewrite Hd1, E, drop_put by lia. done.
  - unfold M_mft_record_number in *. split; unfold M_magic, M_usa_ofs, M_usa_count, M_sequence_number, M_mft_record_number,
      MFT_attrs_offset, MFT_bytes_in_use, MFT_bytes_allocated, A_type; fold ao; load; try done.
    + by rewrite En.
    + by rewrite Eao.
    + rewrite Z.mod_small by lia. done.
    + rewrite Z.mod_small by lia. done.
Qed.

(** ** The record as the other components see it *)

(** The 16-bit words of a record. *)
Lemma words_rd l i x : rd_le16 l (2 * Z.of_nat i) = Ret x -> words l !! i = Some x.
Proof.
  intros E. unfold rd_le16, rd_bytes in E. destruct (Z.leb_spec 0 (2 * Z.of_nat i)); [|done]. cbn [andb] in E.
  destruct (Z.leb_spec (2 * Z.of_nat i + Z.of_nat 2) (zlen l)) as [Hl|]; [|done]. rewrite bind_Ret in E. injection E as E.
  replace (Z.to_nat (2 * Z.of_nat i)) with (2 * i)%nat in E by lia. unfold zlen in Hl. revert l Hl E. induction i as [|i IH]; intros l Hl E.
  - destruct l as [|a [|b l]]; cbn in Hl; try lia. cbn in E. rewrite take_0 in E. cbn in E |- *. f_equal. lia.
  - destruct l as [|a [|b l]]; cbn [length] in Hl; try lia. cbn [words lookup list_lookup]. apply IH; [lia|lia|]. by replace (2 * S i)%nat with (S (S (2 * i))) in E by lia.
Qed.

Lemma words_zlen n : forall l, length l = (2 * n)%nat -> length (words l) = n.
Proof. induction n as [|n IH]; intros [|a [|b l]] Hl; cbn in *; try lia. f_equal. apply IH. lia. Qed.

(** It can be protected against torn writes. *)
Lemma laid_out_record_ok m n new no : 1 <= n <= 200 -> zlen m = 512 * n -> laid_out m n (usa_of new) no new -> record_ok (words m) n (usa_of new).
Proof.
  intros Hn Hm [_ Huo Huc _ _ _ _ _ _ _]. split.
  - unfold zlen in *. rewrite (words_zlen (Z.to_nat (256 * n))) by lia. unfold BLOCK_WORDS. lia.
  - lia.
  - apply (words_rd m 2 _ Huo).
  - apply (words_rd m 3 _ Huc).
  - by destruct new.
  - destruct new; cbn; lia.
Qed.

(** It has no attribute. *)
Lemma laid_out_empty m n new no upcase upcase_len type name name_len ic val val_len errs : 1 <= n <= 200 -> laid_out m n (usa_of new) no new ->
  let ao := (usa_of new + 2 * (n + 1) + 7) / 8 * 8 in
  ntfs_attr_find upcase upcase_len type name name_len ic val val_len (mk_find_ctx m ao true errs) = Ret (mk_find_ctx m ao false errs, - ENOENT).
Proof.
  intros Hn [_ _ _ _ _ _ _ Hal Hend _] ao. unfold ntfs_attr_find. cbn [ctx_is_first ctx_attr set_first ctx_mrec]. rewrite bind_Ret. cbn [ctx_mrec].
  assert (Hao : 0 <= ao <= 512 * n).
  { assert (Hu : usa_of new = 42 \/ usa_of new = 48) by (destruct new; auto).
    unfold ao. pose proof (Z.div_mod (usa_of new + 2 * (n + 1) + 7) 8 ltac:(lia)). pose proof (Z.mod_pos_bound (usa_of new + 2 * (n + 1) + 7) 8 ltac:(lia)). lia. }
  cbn [set_first ctx_mrec]. rewrite Hal, bind_Ret. unfold find_fuel. cbn [attr_find_loop set_first ctx_mrec]. rewrite Hal, bind_Ret.
  destruct (Z.ltb_spec ao 0); [lia|]. destruct (Z.gtb_spec ao (512 * n)); [lia|]. cbn [orb]. fold ao in Hend. rewrite Hend, bind_Ret.
  rewrite Z.eqb_refl, orb_true_r. done.
Qed.

Lemma rd_bytes_take k l n o : o + Z.of_nat k <= Z.of_nat n -> (n <= length l)%nat -> rd_bytes k (take n l) o = rd_bytes k l o.
Proof.
  intros H1 H2. unfold rd_bytes, zlen. rewrite length_take_le by done. destruct (Z.leb_spec 0 o); cbn [andb]; [|done].
  rewrite (proj2 (Z.leb_le (o + Z.of_nat k) (Z.of_nat n))), (proj2 (Z.leb_le (o + Z.of_nat k) (Z.of_nat (length l)))) by lia.
  f_equal. rewrite skipn_firstn_comm, take_take. f_equal. lia.
Qed.

Lemma laid_out_take m n new no : 1 <= n <= 200 -> 512 * n <= zlen m -> laid_out m n (usa_of new) no new -> laid_out (take (Z.to_nat (512 * n)) m) n (usa_of new) no new.
Proof.
  intros Hn Hm []. assert (Hu : usa_of new = 42 \/ usa_of new = 48) by (destruct new; auto).
  pose proof (Z.div_mod (usa_of new + 2 * (n + 1) + 7) 8 ltac:(lia)). pose proof (Z.mod_pos_bound (usa_of new + 2 * (n + 1) + 7) 8 ltac:(lia)).
  unfold zlen in Hm. split; try intros Hnew; unfold rd_le16, rd_le32 in *; (rewrite rd_bytes_take; [done || auto| |lia]);
    unfold M_magic, M_usa_ofs, M_usa_count, M_sequence_number, M_mft_record_number, MFT_attrs_offset, MFT_bytes_in_use, MFT_bytes_allocated, A_type; lia.
Qed.

Lemma words_magic l x : rd_le32 l M_magic = Ret x -> get_magic (words l) = Ret x.
Proof.
  unfold rd_le32, rd_bytes, M_magic. destruct ((0 <=? 0) && (0 + Z.of_nat 4 <=? zlen l)) eqn:E; [|done]. rewrite bind_Ret. intros [= <-].
  apply andb_true_iff in E as [_ E%Z.leb_le]. destruct l as [|a [|b [|c [|d l]]]]; unfold zlen in E; cbn in E; try lia.
  change (Z.to_nat 0) with 0%nat. rewrite drop_0. transitivity (Ret (a + 256 * b + 65536 * (c + 256 * d))); [done|]. f_equal. cbn. rewrite take_0. cbn. lia.
Qed.

(** It survives the protection. *)
Lemma laid_out_mst m n new no : 1 <= n <= 200 -> zlen m = 512 * n -> laid_out m n (usa_of new) no new ->
  exists b1 b2, pre_write_mst_fixup (Some (words m)) (512 * n) = Ret (Some b1, 0) /\ post_read_mst_fixup b1 (512 * n) = Ret (b2, 0) /\
    forall j, in_usa n (usa_of new) j = false -> word b2 j = word (words m) j.
Proof.
  intros Hn Hm Hl. pose proof (laid_out_record_ok _ _ _ _ Hn Hm Hl) as Hok.
  destruct (pre_write_spec (words m) n (usa_of new) magic_FILE Hok (words_magic _ _ (lo_magic _ _ _ _ _ Hl)) ltac:(done) ltac:(done))
    as (b1 & usn & Hpre & _ & Hok1 & Hu & Hp & Hr).
  destruct (post_read_intact b1 n (usa_of new) usn Hok1 Hu) as (b2 & Hread & _ & H2); [intros; by apply Hp|].
  unfold NTFS_BLOCK_SIZE in *. rewrite (Z.mul_comm n) in Hpre, Hread. exists b1, b2. split; [done|]. split; [done|].
  intros j Hj. rewrite H2. destruct (protected (Z.to_nat n) (BLOCK_WORDS - 1) j) eqn:E; [by apply Hp|by apply Hr].
Qed.

(** ** Claims *)

(** C34: [ntfs_mft_record_format] of a record that ends before the end of $MFT
    succeeds: the page changes in no byte outside the record, and the record is
    what the other parts take for an empty mft record.  It has the magic of one, its
    size and sequence number 1; a search of any attribute in it ends with -ENOENT;
    and it can be protected against torn writes, written and read back. *)
Theorem mft_record_format_correct n bits shift major minor map_page i_size mft_no page :
  let ofs := Z.to_nat (mft_no * 2 ^ bits mod 2 ^ shift) in
  let size := Z.to_nat (2 ^ bits) in
  let index := mft_no * 2 ^ bits / 2 ^ shift in
  2 ^ bits = 512 * n -> 1 <= n <= 200 -> 9 <= bits <= shift -> shift < 31 -> 0 <= mft_no < 2 ^ 32 -> (mft_no + 1) * 2 ^ bits < i_size ->
  map_page index = inr page -> zlen page = 2 ^ shift ->
  exists page', ntfs_mft_record_format (2 ^ bits) major minor map_page i_size bits shift mft_no = Ret (Some (index, page'), 0) /\
    zlen page' = 2 ^ shift /\ take ofs page' = take ofs page /\ drop (ofs + size) page' = drop (ofs + size) page /\
    let r := take size (drop ofs page') in
    ntfs_is_mft_recordp r 0 = Ret true /\ rd_le32 r MFT_bytes_allocated = Ret (2 ^ bits) /\ rd_le16 r MFT_sequence_number = Ret 1 /\
    (exists a, rd_le16 r MFT_attrs_offset = Ret a /\ forall upcase upcase_len type name name_len ic val val_len errs,
       ntfs_attr_find upcase upcase_len type name name_len ic val val_len (mk_find_ctx r a true errs) = Ret (mk_find_ctx r a false errs, - ENOENT)) /\
    exists usa_ofs b1 b2, rd_le16 r M_usa_ofs = Ret usa_ofs /\ pre_write_mst_fixup (Some (words r)) (2 ^ bits) = Ret (Some b1, 0) /\ post_read_mst_fixup b1 (2 ^ bits) = Ret (b2, 0) /\
      forall j, in_usa n usa_ofs j = false -> word b2 j = word (words r) j.
Proof.
  intros ofs size index Hsz Hn Hbits Hshift Hno Hend Hmap Hpage.
  assert (Hq : 0 < 2 ^ shift) by (apply Z.pow_pos_nonneg; lia).
  assert (Hsh : 2 ^ shift = 2 ^ (shift - bits) * 2 ^ bits) by (rewrite <- Z.pow_add_r by lia; f_equal; lia).
  assert (Hk : 0 < 2 ^ (shift - bits)) by (apply Z.pow_pos_nonneg; lia).
  set (o := mft_no * 2 ^ bits mod 2 ^ shift) in *.
  assert (Ho : 0 <= o /\ o + 2 ^ bits <= 2 ^ shift).
  { unfold o. rewrite Hsh, Z.mul_mod_distr_r by lia. pose proof (Z.mod_pos_bound mft_no (2 ^ (shift - bits)) Hk). nia. }
  pose proof (Z.div_mod (mft_no * 2 ^ bits) (2 ^ shift) ltac:(lia)) as Hdm. fold index o in Hdm.
  pose proof (Z.pow_le_mono_r 2 shift 30 ltac:(lia) ltac:(lia)) as Hq30. assert (Hidx : 0 <= index) by (apply Z.div_pos; nia).
  unfold ntfs_mft_record_format. rewrite Z.shiftl_mul_pow2 by lia. rewrite s64_id by (unfold S64_MIN, S64_MAX; nia).
  replace (2 ^ shift - 1) with (Z.ones shift) by (rewrite Z.ones_equiv; lia). rewrite !Z.land_ones, !Z.shiftr_div_pow2 by lia. fold index o.
  rewrite (u64_id index), (u32_id o) by (unfold index; nia || lia).
  pose proof (Z.div_mod i_size (2 ^ shift) ltac:(lia)) as Hdi. pose proof (Z.mod_pos_bound i_size (2 ^ shift) Hq) as Hmi.
  match goal with |- context [if ?c then _ else _] => assert (Ec : c = false) end.
  { destruct (Z.geb_spec index (i_size / 2 ^ shift)); cbn [andb]; [|done]. destruct (Z.gtb_spec index (i_size / 2 ^ shift)); cbn [orb]; [nia|].
    destruct (Z.geb_spec (o + 2 ^ bits) (i_size mod 2 ^ shift)); [nia|done]. }
  rewrite Ec, Hmap. clear Ec.
  assert (Hzd : zlen (drop ofs page) = 2 ^ shift - o) by (unfold zlen in *; rewrite length_drop; unfold ofs; lia).
  destruct (layout_spec major minor n mft_no (drop ofs page) Hn Hno ltac:(lia)) as (m' & El & Hzm & Hdrop & Hlay).
  unfold ofs in *. rewrite Hsz, El, bind_Ret. cbn [Z.eqb negb]. unfold size. rewrite Hsz.
  assert (Ht : length (take (Z.to_nat o) page) = Z.to_nat o) by (rewrite length_take; unfold zlen in Hpage; lia).
  exists (take (Z.to_nat o) page ++ m'). split; [done|].
  assert (Ed : drop (Z.to_nat o) (take (Z.to_nat o) page ++ m') = m') by (rewrite <- Ht at 1; apply drop_app_length). rewrite Ed.
  assert (Hz512 : 512 * n <= zlen m') by lia. pose proof (laid_out_take _ _ _ _ Hn Hz512 Hlay) as Hlt.
  set (r := take (Z.to_nat (512 * n)) m') in *. assert (Hzr : zlen r = 512 * n) by (unfold r, zlen in *; rewrite length_take; lia).
  split; [unfold zlen in *; rewrite length_app; lia|]. split; [rewrite <- Ht at 1; apply take_app_length|].
  split; [by rewrite <- drop_drop, Ed, Hdrop, drop_drop|]. pose proof Hlt as [Hmag Huo _ _ Hseq Hao _ Hal _ _].
  split; [unfold ntfs_is_mft_recordp, ntfs_is_magicp; unfold M_magic in Hmag; by rewrite Hmag, bind_Ret|].
  split; [done|]. split; [done|]. split.
  - eexists. split; [exact Hao|]. intros. by apply laid_out_empty with (no := mft_no).
  - destruct (laid_out_mst _ _ _ _ Hn Hzr Hlt) as (b1 & b2 & H1 & H2 & H3). by exists (usa_of (is_new major minor)), b1, b2.
Qed.

Definition demo_mft_pages2 (i : Z) : Z + list Z := if i =? 1 then inr (repeat 7 4096) else inl (- EIO).

Lemma mft_record_format_correct_witness :
  exists page', ntfs_mft_record_format (2 ^ 10) 3 1 demo_mft_pages2 100000 10 12 5 = Ret (Some (1, page'), 0) /\ take 1024 page' = repeat 7 1024.
Proof.
  destruct (mft_record_format_correct 2 10 12 3 1 demo_mft_pages2 100000 5 (repeat 7 4096)) as (page' & E & _ & Ht & _);
    [done|lia|lia|lia|lia|by vm_compute|done|by vm_compute|]. exists page'. split; [exact E|]. exact Ht.
Defined.

(** A record that ends exactly at the end of $MFT can be mapped, but not formatted. *)
Example last_record_refused : ntfs_mft_record_format 1024 3 1 demo_mft_pages2 (6 * 1024) 10 12 5 = Ret (None, - ENOENT).
Proof. vm_compute. reflexivity. Qed.
