(* ===== verification/Options.v ===== *)
(** * Mount options

    Models [parse_options] of [src/ntfs/super.c], which reads the options of a mount
    or remount into the volume, and [ntfs_show_options] of [src/ntfs/inode.c], which
    writes them for /proc/mounts.  Strings are those of the Standard Library, without
    the terminating NUL. *)

From Stdlib Require Import ZArith Lia Bool Ascii.
From stdpp Require Import base list numbers option strings.
From S2P Require Import Prelude.

Open Scope string_scope.
#[global] Open Scope Z_scope.

(** ** The string functions of the kernel *)

Definition char_code (c : ascii) : Z := Z.of_N (N_of_ascii c).

(** [strchr] and [strsep]: the part before the first [c], and the rest behind it if
    there is one. *)
Fixpoint split_at_char (c : ascii) (s : string) : string * option string :=
  match s with
  | EmptyString => (EmptyString, None)
  | String d s => if Ascii.eqb d c then (EmptyString, Some s) else let '(a, b) := split_at_char c s in (String d a, b)
  end.

(** [while ((p = strsep(&opt, ",")))] *)
Fixpoint tokens (s : string) : list string :=
  match s with
  | EmptyString => [EmptyString]
  | String d s =>
      if Ascii.eqb d "," then EmptyString :: tokens s
      else match tokens s with [] => [String d EmptyString] | t :: ts => String d t :: ts end
  end.

(** The value of a digit in a base up to 16. *)
Definition digit_value (base : Z) (c : ascii) : option Z :=
  let x := char_code c in
  let v := if (48 <=? x) && (x <=? 57) then Some (x - 48)
           else if (97 <=? x) && (x <=? 102) then Some (x - 87)
           else if (65 <=? x) && (x <=? 70) then Some (x - 55) else None in
  match v with Some d => if d <? base then Some d else None | None => None end.

Fixpoint parse_digits (base acc : Z) (s : string) : Z * string :=
  match s with
  | EmptyString => (acc, EmptyString)
  | String c s' => match digit_value base c with Some d => parse_digits base (u64 (acc * base + d)) s' | None => (acc, s) end
  end.

Definition is_x (c : ascii) : bool := Ascii.eqb c "x" || Ascii.eqb c "X".

(** The base a number in base 0 is read in: 16 after 0x, 8 after 0, otherwise 10. *)
Definition guess_base (s : string) : Z :=
  match s with
  | String "0" (String x (String d _)) => if is_x x && bool_decide (is_Some (digit_value 16 d)) then 16 else 8
  | String "0" _ => 8
  | _ => 10
  end.

(** [simple_strtoul]: the number and the rest of the string. *)
Definition simple_strtoul (s : string) (base : Z) : Z * string :=
  let base := if base =? 0 then guess_base s else base in
  let s := match s with String "0" (String x t) => if (base =? 16) && is_x x then t else s | _ => s end in
  parse_digits base 0 s.

(** The conversions [%i] and [%o] of [seq_printf]. *)
Definition digit_char (d : Z) : ascii := ascii_of_N (Z.to_N (48 + d)).
Fixpoint print_digits (fuel : nat) (base n : Z) (acc : string) : string :=
  match fuel with
  | O => acc
  | S fuel => let acc := String (digit_char (n mod base)) acc in if n / base =? 0 then acc else print_digits fuel base (n / base) acc
  end.
Definition print_uint (base n : Z) : string := print_digits 64 base n EmptyString.
Definition print_int (n : Z) : string := if s32 n <? 0 then String "-" (print_uint 10 (- s32 n)) else print_uint 10 (s32 n).

(** ** Options *)

Definition ON_ERRORS_PANIC : Z := 0x01.
Definition ON_ERRORS_REMOUNT_RO : Z := 0x02.
Definition ON_ERRORS_CONTINUE : Z := 0x04.
Definition ON_ERRORS_RECOVER : Z := 0x10.

Definition on_errors_arr : list (Z * string) :=
  [(ON_ERRORS_PANIC, "panic"); (ON_ERRORS_REMOUNT_RO, "remount-ro"); (ON_ERRORS_CONTINUE, "continue"); (ON_ERRORS_RECOVER, "recover")].

Definition INVALID_ID : Z := 0xffffffff.
Definition NO_MASK : Z := 0xffff.
Definition INT_MAX : Z := 0x7fffffff.

Definition simple_getbool (s : option string) : option bool :=
  match s with
  | None => Some true
  | Some s =>
      if bool_decide (s ∈ ["1"; "yes"; "true"]) then Some true
      else if bool_decide (s ∈ ["0"; "no"; "false"]) then Some false else None
  end.

Section Options.
(** The NLS tables of the kernel, and the user namespace of the mounting process
    and of the reader. *)
Context {nls : Type} `{EqDecision nls} (charset : nls -> string) (load_nls : string -> option nls) (load_nls_default : option nls).
Context (make_kuid make_kgid from_kuid_munged from_kgid_munged : Z -> Z).

(** The fields of [ntfs_volume] the options set. *)
Record opt_volume := mk_ov {
  ov_nls : option nls;
  ov_mft_zone_multiplier : Z;
  ov_on_errors : Z;
  ov_uid : Z;
  ov_gid : Z;
  ov_fmask : Z;
  ov_dmask : Z;
  ov_show_sys_files : bool;
  ov_case_sensitive : bool;
  ov_sparse_enabled : bool;
  ov_major_ver : Z;
}.

(** The local variables of [parse_options].  It holds a reference to [o_nls], and to
    no other table: a table is unloaded when another one takes its place. *)
Record opts := mk_opts {
  o_errors : Z; o_sloppy : Z; o_uid : Z; o_gid : Z; o_fmask : Z; o_dmask : Z;
  o_mft_zone_multiplier : Z; o_on_errors : Z; o_show_sys_files : Z; o_case_sensitive : Z; o_disable_sparse : Z;
  o_nls : option nls;
}.

Definition no_opts : opts := mk_opts 0 0 INVALID_ID INVALID_ID NO_MASK NO_MASK (-1) (-1) (-1) (-1) (-1) None.

Definition set_errors x o := let '(mk_opts _ b c d e f g h i j k l) := o in mk_opts x b c d e f g h i j k l.
Definition set_sloppy x o := let '(mk_opts a _ c d e f g h i j k l) := o in mk_opts a x c d e f g h i j k l.
Definition set_uid x o := let '(mk_opts a b _ d e f g h i j k l) := o in mk_opts a b x d e f g h i j k l.
Definition set_gid x o := let '(mk_opts a b c _ e f g h i j k l) := o in mk_opts a b c x e f g h i j k l.
Definition set_fmask x o := let '(mk_opts a b c d _ f g h i j k l) := o in mk_opts a b c d x f g h i j k l.
Definition set_dmask x o := let '(mk_opts a b c d e _ g h i j k l) := o in mk_opts a b c d e x g h i j k l.
Definition set_zone x o := let '(mk_opts a b c d e f _ h i j k l) := o in mk_opts a b c d e f x h i j k l.
Definition set_on_errors x o := let '(mk_opts a b c d e f g _ i j k l) := o in mk_opts a b c d e f g x i j k l.
Definition set_show x o := let '(mk_opts a b c d e f g h _ j k l) := o in mk_opts a b c d e f g h x j k l.
Definition set_case x o := let '(mk_opts a b c d e f g h i _ k l) := o in mk_opts a b c d e f g h i x k l.
Definition set_sparse x o := let '(mk_opts a b c d e f g h i j _ l) := o in mk_opts a b c d e f g h i j x l.
Definition set_nls x o := let '(mk_opts a b c d e f g h i j k _) := o in mk_opts a b c d e f g h i j k x.

(** [!v || !*v] *)
Definition arg (v : option string) : option string :=
  match v with Some EmptyString => None | _ => v end.

(** [None] is one of the labels [needs_arg], [needs_val] and [needs_bool]. *)
Definition getopt_number (base : Z) (v : option string) : option Z :=
  match arg v with
  | None => None
  | Some s => let '(x, rest) := simple_strtoul s base in if String.eqb rest EmptyString then Some x else None
  end.

Definition getopt_id (make : Z -> Z) (v : option string) : option Z :=
  x ← getopt_number 0 v;
  let id := make (u32 x) in
  if negb (id =? INVALID_ID) then Some id else None.

Definition getopt_bool (v : option string) : option Z := b ← simple_getbool v; Some (Z.b2z b).

Fixpoint find_error (s : string) (arr : list (Z * string)) : option Z :=
  match arr with
  | [] => None
  | (val, str) :: arr => if String.eqb str s then Some val else find_error s arr
  end.

Definition getopt_errors (v : option string) (on_errors : Z) : option Z :=
  s ← arg v;
  val ← find_error s on_errors_arr;
  Some (Z.lor (if on_errors =? -1 then 0 else on_errors) val).

(** From the label [use_utf8] on: the table is replaced, or kept if the new one is
    not found. *)
Definition use_nls (v : string) (o : opts) : option opts :=
  match load_nls v with
  | None => match o_nls o with None => None | Some _ => Some o end
  | Some t => Some (set_nls (Some t) o)
  end.

(** The body of the loop for the token [p]; [None] is [return false]. *)
Definition parse_option (tok : string) (o : opts) : option opts :=
  let '(p, v) := split_at_char "=" tok in
  let named := String.eqb p in
  if named "uid" then x ← getopt_id make_kuid v; Some (set_uid x o)
  else if named "gid" then x ← getopt_id make_kgid v; Some (set_gid x o)
  else if named "umask" then x ← getopt_number 8 v; Some (set_fmask (u16 x) (set_dmask (u16 x) o))
  else if named "fmask" then x ← getopt_number 8 v; Some (set_fmask (u16 x) o)
  else if named "dmask" then x ← getopt_number 8 v; Some (set_dmask (u16 x) o)
  else if named "mft_zone_multiplier" then x ← getopt_number 0 v; Some (set_zone (s32 x) o)
  else if named "sloppy" then
    match arg v with
    | None => Some (set_sloppy 1 o)
    | Some _ => x ← getopt_number 0 v; Some (set_sloppy (s32 x) o)
    end
  else if named "show_sys_files" then x ← getopt_bool v; Some (set_show x o)
  else if named "case_sensitive" then x ← getopt_bool v; Some (set_case x o)
  else if named "disable_sparse" then x ← getopt_bool v; Some (set_sparse x o)
  else if named "errors" then x ← getopt_errors v (o_on_errors o); Some (set_on_errors x o)
  else if named "posix" || named "show_inodes" then Some o
  else if named "nls" || named "iocharset" then s ← arg v; use_nls s o
  else if named "utf8" then
    val ← (match arg v with None => Some true | Some s => simple_getbool (Some s) end);
    if (val : bool) then use_nls "utf8" o else Some o
  else Some (if o_errors o <? INT_MAX then set_errors (o_errors o + 1) o else o).

(** The loop: the locals at its end, or at the [return false], with whether it came
    to its end. *)
Fixpoint parse_tokens (ts : list string) (o : opts) : opts * bool :=
  match ts with
  | [] => (o, true)
  | t :: ts => match parse_option t o with None => (o, false) | Some o => parse_tokens ts o end
  end.

(** The part behind [no_mount_options], which changes the volume: up to the check of
    the NLS table, the multiplier of the mft zone, and the rest, which cannot fail. *)
Definition apply_nls (vol : opt_volume) (o : opts) : option opt_volume :=
  let '(mk_ov t z e u g f d sh ca sp mv) := vol in
  match o_nls o with
  | Some n =>
      match t with
      | Some t' => if bool_decide (t' <> n) then None else Some (mk_ov (Some n) z e u g f d sh ca sp mv)
      | None => Some (mk_ov (Some n) z e u g f d sh ca sp mv)
      end
  | None =>
      match t with
      | Some _ => Some vol
      | None => n ← load_nls_default; Some (mk_ov (Some n) z e u g f d sh ca sp mv)
      end
  end.

Definition apply_zone (vol : opt_volume) (o : opts) : option opt_volume :=
  let '(mk_ov t z e u g f d sh ca sp mv) := vol in
  let x := o_mft_zone_multiplier o in
  z' ← (if negb (x =? -1) then
          if negb (z =? 0) && negb (z =? x) then None
          else Some (if (x <? 1) || (x >? 4) then 1 else x)
        else Some z);
  Some (mk_ov t (if z' =? 0 then 1 else z') e u g f d sh ca sp mv).

Definition apply_flag (x : Z) (old : bool) : bool := if negb (x =? -1) then negb (x =? 0) else old.

Definition apply_sparse (x : Z) (old : bool) (major_ver : Z) : bool :=
  if negb (x =? -1) then
    if negb (x =? 0) then false
    else if negb old && negb (major_ver =? 0) && (major_ver <? 3) then old else true
  else old.

Definition apply_rest (vol : opt_volume) (o : opts) : opt_volume :=
  let '(mk_ov t z e u g f d sh ca sp mv) := vol in
  let e := if negb (o_on_errors o =? -1) then o_on_errors o else e in
  mk_ov t z
    (if (e =? 0) || (e =? ON_ERRORS_RECOVER) then Z.lor e ON_ERRORS_CONTINUE else e)
    (if negb (o_uid o =? INVALID_ID) then o_uid o else u)
    (if negb (o_gid o =? INVALID_ID) then o_gid o else g)
    (if negb (o_fmask o =? NO_MASK) then o_fmask o else f)
    (if negb (o_dmask o =? NO_MASK) then o_dmask o else d)
    (apply_flag (o_show_sys_files o) sh)
    (apply_flag (o_case_sensitive o) ca)
    (apply_sparse (o_disable_sparse o) sp mv) mv.

(** What [parse_options] returns, the volume it leaves and the table it still holds
    a reference to, other than that of [load_nls_default]. *)
Record parsed := mk_parsed { p_ok : bool; p_vol : opt_volume; p_held : option nls }.

Definition no_mount_options (vol : opt_volume) (o : opts) : parsed :=
  if negb (o_errors o =? 0) && (o_sloppy o =? 0) then mk_parsed false vol (o_nls o)
  else if o_on_errors o =? 0 then mk_parsed false vol (o_nls o)
  else match apply_nls vol o with
       | None => mk_parsed false vol (o_nls o)
       | Some vol =>
           match apply_zone vol o with
           | None => mk_parsed false vol (o_nls o)
           | Some vol => mk_parsed true (apply_rest vol o) (o_nls o)
           end
       end.

Definition parse_options (vol : opt_volume) (opt : option string) : parsed :=
  match arg opt with
  | None => no_mount_options vol no_opts
  | Some s =>
      let '(o, ok) := parse_tokens (tokens s) no_opts in
      if ok then no_mount_options vol o else mk_parsed false vol (o_nls o)
  end.

(** The volume as [ntfs_fill_super] sets it up before it parses the options. *)
Definition new_volume : opt_volume := mk_ov None 0 0 0 0 (* 0177 *) 127 (* 0077 *) 63 false false true 0.

(** ** [ntfs_show_options]: what each call of [seq_printf] appends *)

Fixpoint show_errors (arr : list (Z * string)) (on_errors : Z) : list string :=
  match arr with
  | [] => []
  | (val, str) :: arr => (if negb (Z.land val on_errors =? 0) then [",errors=" +:+ str] else []) ++ show_errors arr on_errors
  end.

Definition shown (vol : opt_volume) (t : nls) : list string :=
  [",uid=" +:+ print_int (from_kuid_munged (ov_uid vol))]
  ++ [",gid=" +:+ print_int (from_kgid_munged (ov_gid vol))]
  ++ (if ov_fmask vol =? ov_dmask vol then [",umask=0" +:+ print_uint 8 (ov_fmask vol)]
      else [",fmask=0" +:+ print_uint 8 (ov_fmask vol); ",dmask=0" +:+ print_uint 8 (ov_dmask vol)])
  ++ [",nls=" +:+ charset t]
  ++ (if ov_case_sensitive vol then [",case_sensitive"] else [])
  ++ (if ov_show_sys_files vol then [",show_sys_files"] else [])
  ++ (if negb (ov_sparse_enabled vol) then [",disable_sparse"] else [])
  ++ show_errors on_errors_arr (ov_on_errors vol)
  ++ [",mft_zone_multiplier=" +:+ print_int (ov_mft_zone_multiplier vol)].

(** The text, or a fault where the code follows a null [nls_map]. *)
Definition ntfs_show_options (vol : opt_volume) : outcome string :=
  match ov_nls vol with
  | None => Fault
  | Some t => Ret (String.concat "" (shown vol t))
  end.
End Options.

Arguments opt_volume : clear implicits.
Arguments opts : clear implicits.
