(* ===== verification/OptionsTheorems.v ===== *)
(** * Mount options: the options shown are the options parsed

    The text [ntfs_show_options] writes for a mounted volume, read by
    [parse_options], gives back the options of the volume; and every volume
    [parse_options] accepts can be shown. *)

From Stdlib Require Import ZArith Lia Bool Ascii.
From stdpp Require Import base list numbers option strings.
From S2P Require Import Prelude Options.

Open Scope string_scope.
#[global] Open Scope Z_scope.

#[local] Arguments String.append : simpl nomatch.

(** ** Tokens *)

Fixpoint lacks (c : ascii) (s : string) : bool :=
  match s with EmptyString => true | String d s => negb (Ascii.eqb d c) && lacks c s end.

Lemma lacks_app c s t : lacks c (s +:+ t) = lacks c s && lacks c t.
Proof. induction s as [|d s IH]; cbn; [done|]. by rewrite IH, andb_assoc. Qed.

Lemma append_nil_r s : s +:+ "" = s.
Proof. induction s as [|d s IH]; cbn; [done|]. by rewrite IH. Qed.

Lemma tokens_nil s : lacks "," s = true -> tokens s = [s].
Proof.
  induction s as [|d s IH]; cbn; [done|]. rewrite andb_true_iff, negb_true_iff.
  intros [-> H]. by rewrite (IH H).
Qed.

Lemma tokens_cons t s : lacks "," t = true -> tokens (t +:+ String "," s) = t :: tokens s.
Proof.
  induction t as [|d t IH]; cbn; [done|]. rewrite andb_true_iff, negb_true_iff.
  intros [-> H]. by rewrite (IH H).
Qed.

(** Reading what was written token by token, each behind a comma. *)
Lemma tokens_concat t ts :
  Forall (fun t => lacks "," t = true) (t :: ts) ->
  tokens (t +:+ String.concat "" (map (String ",") ts)) = t :: ts.
Proof.
  revert t. induction ts as [|u ts IH]; intros t [Ht Hts]%list.Forall_cons.
  - cbn [map String.concat]. rewrite append_nil_r. by apply tokens_nil.
  - destruct ts as [|w ts].
    + change (String.concat "" (map (String ",") [u])) with (String "," u). rewrite tokens_cons by done.
      f_equal. apply tokens_nil. by inversion Hts.
    + change (String.concat "" (map (String ",") (u :: w :: ts))) with (String "," (u +:+ String.concat "" (map (String ",") (w :: ts)))).
      rewrite tokens_cons by done. f_equal. by apply IH.
Qed.

(** ** Numbers *)

Section Numbers.
Context (base : Z) (Hbase : 2 <= base <= 10).

Lemma digit_value_char d : 0 <= d < base -> digit_value base (digit_char d) = Some d.
Proof.
  intros Hd. unfold digit_value, digit_char, char_code. rewrite N_ascii_embedding by lia. rewrite Z2N.id by lia.
  replace ((48 <=? 48 + d) && (48 + d <=? 57)) with true by (symmetry; rewrite andb_true_iff; lia).
  replace (48 + d - 48) with d by lia. by replace (d <? base) with true by lia.
Qed.

Lemma parse_print_digits fuel n s :
  0 <= n < base ^ Z.of_nat fuel -> n < 2 ^ 64 ->
  parse_digits base 0 (print_digits fuel base n s) = parse_digits base n s.
Proof using Hbase.
  revert n s. induction fuel as [|fuel IH]; intros n s Hn Hb.
  - cbn. f_equal. rewrite Z.pow_0_r in Hn. lia.
  - cbn [print_digits]. pose proof (Z.mod_pos_bound n base ltac:(lia)). pose proof (Z.div_mod n base ltac:(lia)).
    assert (0 <= n / base) by (apply Z.div_pos; lia). destruct (Z.eqb_spec (n / base) 0).
    + cbn. rewrite digit_value_char by lia. f_equal. rewrite u64_id by lia. lia.
    + rewrite IH.
      * cbn. rewrite digit_value_char by lia. f_equal. rewrite u64_id by nia. lia.
      * split; [done|]. apply Z.div_lt_upper_bound; [lia|]. rewrite <- Z.pow_succ_r, <- Nat2Z.inj_succ by lia. lia.
      * nia.
Qed.

Lemma parse_print_uint n : 0 <= n < 2 ^ 64 -> parse_digits base 0 (print_uint base n) = (n, "").
Proof using Hbase.
  intros Hn. unfold print_uint. rewrite parse_print_digits; [done| |lia]. split; [lia|].
  apply Z.lt_le_trans with (2 ^ 64); [lia|]. apply Z.pow_le_mono_l. lia.
Qed.
End Numbers.

(** The first digit printed is not 0 unless the number is 0. *)
Lemma print_digits_head fuel n s :
  0 < n -> exists c r, print_digits fuel 10 n s = String c r /\ c <> "0"%char \/ fuel = O \/ 10 ^ Z.of_nat fuel <= n.
Proof.
  revert n s. induction fuel as [|fuel IH]; intros n s Hn; [by exists "0"%char, ""; right; left|].
  cbn [print_digits]. pose proof (Z.mod_pos_bound n 10 ltac:(lia)). pose proof (Z.div_mod n 10 ltac:(lia)).
  destruct (Z.eqb_spec (n / 10) 0) as [E|E].
  - exists (digit_char (n mod 10)), s. left. split; [done|]. unfold digit_char. intros Hc%(f_equal N_of_ascii).
    rewrite N_ascii_embedding in Hc by lia. cbn in Hc. lia.
  - assert (0 < n / 10) by (assert (0 <= n / 10) by (apply Z.div_pos; lia); lia).
    destruct (IH (n / 10) (String (digit_char (n mod 10)) s) ltac:(done)) as (c & r & [Hp|[->|Hp]]).
    + by exists c, r; left.
    + exists "0"%char, "". right; right. change (10 ^ Z.of_nat 1) with 10. lia.
    + exists c, r. right; right. replace (Z.of_nat (S fuel)) with (Z.succ (Z.of_nat fuel)) by lia. rewrite Z.pow_succ_r by lia. lia.
Qed.

Lemma guess_base_print n : 0 < n < 2 ^ 32 -> guess_base (print_uint 10 n) = 10.
Proof.
  intros Hn. unfold print_uint. destruct (print_digits_head 64 n "" ltac:(lia)) as (c & r & [[-> Hc]|[?|Hp]]); [|done|].
  - unfold guess_base. destruct c as [[] [] [] [] [] [] [] []]; try done.
  - assert (2 ^ 32 <= 10 ^ Z.of_nat 64) by (vm_compute; done). lia.
Qed.

Lemma strtoul_decimal n : 0 <= n < 2 ^ 32 -> simple_strtoul (print_uint 10 n) 0 = (n, "").
Proof.
  intros Hn. destruct (decide (n = 0)) as [->|]; [done|]. unfold simple_strtoul. rewrite Z.eqb_refl, guess_base_print by lia.
  rewrite <- (parse_print_uint 10 ltac:(lia) n) by lia. f_equal.
  destruct (print_uint 10 n) as [|[[] [] [] [] [] [] [] []] [|x t]]; done.
Qed.

Lemma strtoul_octal n : 0 <= n < 2 ^ 32 -> simple_strtoul ("0" +:+ print_uint 8 n) 8 = (n, "").
Proof.
  intros Hn. rewrite <- (parse_print_uint 8 ltac:(lia) n) by lia. unfold simple_strtoul.
  change (8 =? 0) with false. cbn [Z.eqb]. destruct (print_uint 8 n) as [|x t] eqn:E; done.
Qed.

Lemma lacks_print_digits base fuel n s :
  2 <= base <= 10 -> lacks "," s = true -> lacks "," (print_digits fuel base n s) = true.
Proof.
  intros Hb. revert n s. induction fuel as [|fuel IH]; intros n s Hs; [done|]. cbn [print_digits].
  assert (lacks "," (String (digit_char (n mod base)) s) = true).
  { cbn. rewrite Hs, andb_true_r, negb_true_iff, Ascii.eqb_neq. unfold digit_char. intros Hc%(f_equal N_of_ascii).
    pose proof (Z.mod_pos_bound n base ltac:(lia)). rewrite N_ascii_embedding in Hc by lia. cbn in Hc. lia. }
  by case_match; [|apply IH].
Qed.

Lemma lacks_print_uint base n : 2 <= base <= 10 -> lacks "," (print_uint base n) = true.
Proof. intros. by apply lacks_print_digits. Qed.

Lemma print_uint_nonempty base n : print_uint base n <> "".
Proof.
  unfold print_uint. cut (forall fuel n s, fuel <> O \/ s <> "" -> print_digits fuel base n s <> ""); [intros H; apply H; lia|].
  induction fuel as [|fuel IH]; intros m s [?|?]; try done; cbn [print_digits]; case_match; try done; apply IH; by right.
Qed.

Lemma print_int_nonneg n : 0 <= n < 2 ^ 31 -> print_int n = print_uint 10 n.
Proof.
  intros. unfold print_int. replace (s32 n) with n. { by replace (n <? 0) with false by lia. }
  unfold s32. rewrite Z.mod_small; lia.
Qed.

(** ** Single options *)

Section Theorems.
Context {nls : Type} `{EqDecision nls} (charset : nls -> string) (load_nls : string -> option nls) (load_nls_default : option nls).
Context (make_kuid make_kgid from_kuid_munged from_kgid_munged : Z -> Z).

Local Abbreviation parse := (parse_options load_nls load_nls_default make_kuid make_kgid).
Local Abbreviation option1 := (parse_option load_nls make_kuid make_kgid).
Local Abbreviation loop := (parse_tokens load_nls make_kuid make_kgid).
Local Abbreviation show := (ntfs_show_options charset from_kuid_munged from_kgid_munged).

Lemma getopt_number_decimal n : 0 <= n < 2 ^ 32 -> getopt_number 0 (Some (print_uint 10 n)) = Some n.
Proof.
  intros Hn. unfold getopt_number. pose proof (print_uint_nonempty 10 n).
  destruct (print_uint 10 n) eqn:E; [done|]. cbn [arg]. by rewrite <- E, strtoul_decimal.
Qed.

Lemma getopt_number_octal n : 0 <= n < 2 ^ 32 -> getopt_number 8 (Some ("0" +:+ print_uint 8 n)) = Some n.
Proof. intros Hn. unfold getopt_number. change (arg (Some ("0" +:+ print_uint 8 n))) with (Some ("0" +:+ print_uint 8 n)). cbv beta iota. by rewrite (strtoul_octal n Hn). Qed.

Lemma loop_app a b o :
  loop (a ++ b) o = let '(o', ok) := loop a o in if ok then loop b o' else (o', false).
Proof. revert o. induction a as [|t a IH]; intros o; cbn; [done|]. destruct (option1 t o); [apply IH|done]. Qed.

Lemma id_option make n (id : Z) :
  0 <= n < 2 ^ 31 -> make n = id -> id <> INVALID_ID -> getopt_id make (Some (print_int n)) = Some id.
Proof.
  intros Hn Hm Hv. unfold getopt_id. rewrite print_int_nonneg, getopt_number_decimal by lia. cbn.
  rewrite u32_id, Hm by lia. by rewrite (proj2 (Z.eqb_neq _ _) Hv).
Qed.

(** The values of [on_errors] that name an action. *)
Definition on_errors_ok (e : Z) : bool :=
  (0 <? Z.land e 7) && (0 <=? e) && (e <? 24) && negb (Z.testbit e 3).

Definition on_errors_values : list Z := [1; 2; 3; 4; 5; 6; 7; 17; 18; 19; 20; 21; 22; 23].

Lemma on_errors_ok_iff e : on_errors_ok e = true <-> e ∈ on_errors_values.
Proof.
  split.
  - unfold on_errors_ok. rewrite !andb_true_iff. intros [[[H1 H2%Z.leb_le] H3%Z.ltb_lt] H4].
    assert (H : In e (map Z.of_nat (seq 0 24))). { apply in_map_iff. exists (Z.to_nat e). rewrite in_seq. lia. }
    cbn in H. repeat destruct H as [<-|H]; try done; vm_compute in H1, H4; try done; apply (bool_decide_unpack _); done.
  - unfold on_errors_values. rewrite list_elem_of_In. intros H. cbn in H. by repeat destruct H as [<-|H].
Qed.

Definition untoken (s : string) : string := match s with String _ s => s | "" => "" end.

Lemma errors_options e o :
  on_errors_ok e = true -> o_on_errors o = -1 ->
  loop (map untoken (show_errors on_errors_arr e)) o = (set_on_errors e o, true).
Proof.
  rewrite on_errors_ok_iff. unfold on_errors_values. rewrite list_elem_of_In. intros H Ho. destruct o; cbn in Ho; subst. cbn in H.
  by repeat destruct H as [<-|H].
Qed.

(** ** The round trip *)

(** A volume whose options [ntfs_show_options] can write: its character set has a
    name that can be loaded, the ids are known in both namespaces and below 2^31
    (inode.c:2317 shows larger ones as numbers that are not parsed,
    [large_uid_not_parsed]), and the masks are below 0177777, the value that stands for
    no mask (super.c:314, [full_mask_ignored]). *)
Record showable (vol : opt_volume nls) (t : nls) : Prop := {
  sh_nls : ov_nls vol = Some t;
  sh_load : load_nls (charset t) = Some t;
  sh_name : charset t <> "" /\ lacks "," (charset t) = true;
  sh_uid : 0 <= from_kuid_munged (ov_uid vol) < 2 ^ 31 /\ make_kuid (from_kuid_munged (ov_uid vol)) = ov_uid vol /\ ov_uid vol <> INVALID_ID;
  sh_gid : 0 <= from_kgid_munged (ov_gid vol) < 2 ^ 31 /\ make_kgid (from_kgid_munged (ov_gid vol)) = ov_gid vol /\ ov_gid vol <> INVALID_ID;
  sh_masks : 0 <= ov_fmask vol < NO_MASK /\ 0 <= ov_dmask vol < NO_MASK;
  sh_zone : 1 <= ov_mft_zone_multiplier vol <= 4;
  sh_errors : on_errors_ok (ov_on_errors vol) = true;
}.

Definition given (b : bool) : Z := if b then 1 else -1.

(** The local variables of [parse_options] behind its loop. *)
Definition opts_of (vol : opt_volume nls) (t : nls) : opts nls :=
  mk_opts 0 0 (ov_uid vol) (ov_gid vol) (ov_fmask vol) (ov_dmask vol) (ov_mft_zone_multiplier vol) (ov_on_errors vol)
    (given (ov_show_sys_files vol)) (given (ov_case_sensitive vol)) (given (negb (ov_sparse_enabled vol))) (Some t).

Lemma mask_options f d o :
  0 <= f < NO_MASK -> 0 <= d < NO_MASK ->
  loop (map untoken (if f =? d then [",umask=0" +:+ print_uint 8 f] else [",fmask=0" +:+ print_uint 8 f; ",dmask=0" +:+ print_uint 8 d])) o
  = (set_fmask f (set_dmask d o), true).
Proof.
  unfold NO_MASK. intros Hf Hd. destruct o.
  pose proof (getopt_number_octal f ltac:(lia)) as Pf. pose proof (getopt_number_octal d ltac:(lia)) as Pd.
  destruct (Z.eqb_spec f d) as [<-|]; cbn in *; [rewrite Pf|rewrite Pf; cbn; rewrite Pd]; cbn; by rewrite !u16_id by lia.
Qed.

Lemma loop_app_ok a b o o' : loop a o = (o', true) -> loop (a ++ b) o = loop b o'.
Proof. intros H. by rewrite loop_app, H. Qed.

Lemma uid_options n id o :
  0 <= n < 2 ^ 31 -> make_kuid n = id -> id <> INVALID_ID ->
  loop (map untoken [",uid=" +:+ print_int n]) o = (set_uid id o, true).
Proof. intros. cbn. by rewrite (id_option make_kuid n id). Qed.

Lemma gid_options n id o :
  0 <= n < 2 ^ 31 -> make_kgid n = id -> id <> INVALID_ID ->
  loop (map untoken [",gid=" +:+ print_int n]) o = (set_gid id o, true).
Proof. intros. cbn. by rewrite (id_option make_kgid n id). Qed.

Lemma nls_options s t o :
  s <> "" -> load_nls s = Some t -> loop (map untoken [",nls=" +:+ s]) o = (set_nls (Some t) o, true).
Proof. intros Hs Hl. cbn. unfold arg. destruct s; [done|]. cbn. unfold use_nls. by rewrite Hl. Qed.

Lemma zone_options z o :
  1 <= z <= 4 -> loop (map untoken [",mft_zone_multiplier=" +:+ print_int z]) o = (set_zone z o, true).
Proof. intros Hz. cbn. rewrite print_int_nonneg, getopt_number_decimal by lia. cbn. by rewrite s32_id by lia. Qed.

Lemma case_options (b : bool) o :
  loop (map untoken (if b then [",case_sensitive"] else [])) o = (if b then set_case 1 o else o, true).
Proof. by destruct b. Qed.

Lemma show_options (b : bool) o :
  loop (map untoken (if b then [",show_sys_files"] else [])) o = (if b then set_show 1 o else o, true).
Proof. by destruct b. Qed.

Lemma sparse_options (b : bool) o :
  loop (map untoken (if b then [",disable_sparse"] else [])) o = (if b then set_sparse 1 o else o, true).
Proof. by destruct b. Qed.

Lemma loop_shown vol t :
  showable vol t -> loop (map untoken (shown charset from_kuid_munged from_kgid_munged vol t)) no_opts = (opts_of vol t, true).
Proof.
  intros [_ Hl [Hn _] (Hu & Hu' & Hu'') (Hg & Hg' & Hg'') [Hf Hd] Hz He].
  unfold shown. rewrite !map_app.
  erewrite loop_app_ok by by apply uid_options. erewrite loop_app_ok by by apply gid_options.
  erewrite loop_app_ok by by apply mask_options. erewrite loop_app_ok by by apply nls_options.
  erewrite loop_app_ok by apply case_options. erewrite loop_app_ok by apply show_options. erewrite loop_app_ok by apply sparse_options.
  erewrite loop_app_ok by (apply errors_options; [done|by repeat case_match]). rewrite zone_options by done.
  unfold opts_of. by destruct vol as [? ? ? ? ? ? ? [] [] [] ?].
Qed.

(** What is appended is a comma and a token without one. *)
Definition item (s : string) : Prop := s = String "," (untoken s) /\ lacks "," (untoken s) = true.

Lemma items_tokens l : Forall item l -> map (String ",") (map untoken l) = l /\ Forall (fun t => lacks "," t = true) (map untoken l).
Proof.
  intros H. split.
  - rewrite map_map. rewrite <- (map_id l) at 2. apply map_ext_in. intros s Hs. symmetry.
    rewrite list.Forall_forall in H. by apply (H s), list_elem_of_In.
  - apply Forall_map. by eapply Forall_impl; [exact H|intros s [_ ?]].
Qed.

Lemma errors_items arr e : Forall (fun x => lacks "," (snd x) = true) arr -> Forall item (show_errors arr e).
Proof.
  induction arr as [|[v x] arr IH]; intros H; cbn [show_errors]; [by constructor|]. apply list.Forall_cons in H as [Hx H].
  apply Forall_app; split; [|by apply IH]. case_match; repeat constructor. exact Hx.
Qed.

Lemma shown_items vol t : lacks "," (charset t) = true -> Forall item (shown charset from_kuid_munged from_kgid_munged vol t).
Proof.
  intros Hc. assert (Hp : forall n, lacks "," (print_int n) = true).
  { intros n. unfold print_int. case_match; cbn; by apply lacks_print_uint. }
  unfold shown. repeat (apply Forall_app; split); try (apply errors_items; by repeat constructor);
    try case_match; repeat (constructor; [split; [done|first [done|apply Hp|apply Hc|by apply lacks_print_uint]]|]); constructor.
Qed.
(** The volume before: nothing set that the text cannot change. *)
Record compatible (vol0 vol : opt_volume nls) : Prop := {
  co_nls : ov_nls vol0 = None \/ ov_nls vol0 = ov_nls vol;
  co_zone : ov_mft_zone_multiplier vol0 = 0 \/ ov_mft_zone_multiplier vol0 = ov_mft_zone_multiplier vol;
  co_show : ov_show_sys_files vol0 = true -> ov_show_sys_files vol = true;
  co_case : ov_case_sensitive vol0 = true -> ov_case_sensitive vol = true;
  co_sparse : ov_sparse_enabled vol = true -> ov_sparse_enabled vol0 = true;
  co_major : ov_major_ver vol0 = ov_major_ver vol;
}.

Lemma apply_flag_given (b old : bool) : (old = true -> b = true) -> apply_flag (given b) old = b.
Proof. destruct b, old; cbn; intros H; try done. by rewrite H. Qed.

Lemma apply_nls_ok vol0 vol t :
  ov_nls vol = Some t -> ov_nls vol0 = None \/ ov_nls vol0 = ov_nls vol ->
  apply_nls load_nls_default vol0 (opts_of vol t)
  = Some (mk_ov (Some t) (ov_mft_zone_multiplier vol0) (ov_on_errors vol0) (ov_uid vol0) (ov_gid vol0) (ov_fmask vol0) (ov_dmask vol0)
      (ov_show_sys_files vol0) (ov_case_sensitive vol0) (ov_sparse_enabled vol0) (ov_major_ver vol0)).
Proof.
  destruct vol0 as [t0 z0 e0 u0 g0 f0 d0 sh0 ca0 sp0 mv0]. cbn. intros -> [->|[= ->]]; [done|]. by rewrite bool_decide_eq_false_2 by auto.
Qed.

Lemma apply_zone_ok vol0 vol t :
  1 <= ov_mft_zone_multiplier vol <= 4 ->
  ov_mft_zone_multiplier vol0 = 0 \/ ov_mft_zone_multiplier vol0 = ov_mft_zone_multiplier vol ->
  apply_zone vol0 (opts_of vol t)
  = Some (mk_ov (ov_nls vol0) (ov_mft_zone_multiplier vol) (ov_on_errors vol0) (ov_uid vol0) (ov_gid vol0) (ov_fmask vol0) (ov_dmask vol0)
      (ov_show_sys_files vol0) (ov_case_sensitive vol0) (ov_sparse_enabled vol0) (ov_major_ver vol0)).
Proof.
  destruct vol0 as [t0 z0 e0 u0 g0 f0 d0 sh0 ca0 sp0 mv0]. cbn. intros Hz Hc.
  rewrite (proj2 (Z.eqb_neq (ov_mft_zone_multiplier vol) (-1))) by lia. cbn.
  replace (negb (z0 =? 0) && negb (z0 =? ov_mft_zone_multiplier vol)) with false.
  2: { symmetry. rewrite andb_false_iff, !negb_false_iff, !Z.eqb_eq. tauto. }
  replace ((ov_mft_zone_multiplier vol <? 1) || (ov_mft_zone_multiplier vol >? 4)) with false.
  2: { symmetry. rewrite orb_false_iff. lia. }
  cbn. by rewrite (proj2 (Z.eqb_neq (ov_mft_zone_multiplier vol) 0)) by lia.
Qed.

Lemma apply_opts_of vol0 vol t :
  showable vol t -> compatible vol0 vol ->
  no_mount_options load_nls_default vol0 (opts_of vol t) = mk_parsed true vol (Some t).
Proof.
  intros [Ht Hl [Hn _] (Hu & Hu' & Hu'') (Hg & Hg' & Hg'') [Hf Hd] Hz He] [Cn Cz Cs Cc Cp Cm].
  assert (Hp : apply_sparse (given (negb (ov_sparse_enabled vol))) (ov_sparse_enabled vol0) (ov_major_ver vol0) = ov_sparse_enabled vol).
  { destruct (ov_sparse_enabled vol); cbn; [by rewrite Cp|done]. }
  apply on_errors_ok_iff in He. assert (ov_on_errors vol <> 0 /\ ov_on_errors vol <> -1 /\ ov_on_errors vol <> 16) as (E0 & E1 & E16).
  { repeat split; intros E; rewrite E in He; by apply on_errors_ok_iff in He. }
  unfold no_mount_options. change (o_errors (opts_of vol t)) with 0. change (o_on_errors (opts_of vol t)) with (ov_on_errors vol).
  rewrite (proj2 (Z.eqb_neq (ov_on_errors vol) 0)) by done. cbn [Z.eqb negb andb].
  rewrite apply_nls_ok by done. rewrite apply_zone_ok by done. f_equal. unfold apply_rest. cbn [opts_of o_on_errors o_uid o_gid o_fmask o_dmask
    o_show_sys_files o_case_sensitive o_disable_sparse ov_on_errors ov_uid ov_gid ov_fmask ov_dmask ov_nls ov_mft_zone_multiplier
    ov_show_sys_files ov_case_sensitive ov_sparse_enabled ov_major_ver].
  unfold NO_MASK, ON_ERRORS_RECOVER in *. rewrite (apply_flag_given _ _ Cs), (apply_flag_given _ _ Cc), Hp, Cm.
  rewrite (proj2 (Z.eqb_neq (ov_on_errors vol) (-1))) by done. cbn [negb].
  rewrite !(proj2 (Z.eqb_neq _ _)) by (try done; lia). cbn [negb orb]. rewrite <- Ht. by destruct vol.
Qed.

(** C26: The options [ntfs_show_options] shows for a volume are options
    [parse_options] reads back, when the volume is [showable]: the user and group id
    are valid and below 2^31 in the namespace they are shown in (larger ones are
    refused, [large_uid_not_parsed]), neither mask is 0177777 (which is taken for no
    mask, [full_mask_ignored]), the character set is loaded by its name, and the
    multiplier and the error action are values an option can give.  Without their leading comma, on a mount or a
    remount of a volume [vol0] that has nothing set which options cannot change back
    (another character set, another multiplier of the mft zone, a flag that is off
    in the volume shown), they are accepted and set every field to that of the
    volume shown. *)
Theorem options_roundtrip vol0 vol t :
  showable vol t -> compatible vol0 vol ->
  exists s, show vol = Ret (String "," s) /\ parse vol0 (Some s) = mk_parsed true vol (Some t).
Proof.
  intros Hs Hc. pose proof (sh_name vol t Hs) as [_ Hn]. destruct (items_tokens _ (shown_items vol t Hn)) as [Hm Hl].
  pose proof (loop_shown vol t Hs) as Hp. unfold ntfs_show_options. rewrite (sh_nls vol t Hs), <- Hm.
  destruct (map untoken _) as [|u us] eqn:E; [done|]. exists (u +:+ String.concat "" (map (String ",") us)). split.
  - f_equal. destruct us; [by rewrite append_nil_r|done].
  - unfold parse_options, arg. destruct (u +:+ _) eqn:Eu.
    + exfalso. assert (u = "") as -> by by destruct u. by cbn in Hp.
    + rewrite <- Eu, tokens_concat by done. rewrite Hp. by apply apply_opts_of.
Qed.
End Theorems.

(** ** The volume after parsing *)

Section Configured.
Context {nls : Type} `{EqDecision nls} (load_nls : string -> option nls) (load_nls_default : option nls) (make_kuid make_kgid : Z -> Z).

Local Abbreviation parse := (parse_options load_nls load_nls_default make_kuid make_kgid).
Local Abbreviation option1 := (parse_option load_nls make_kuid make_kgid).
Local Abbreviation loop := (parse_tokens load_nls make_kuid make_kgid).

(** The ranges of the fields, before the first mount too. *)
Record in_range (vol : opt_volume nls) : Prop := {
  ir_zone : 0 <= ov_mft_zone_multiplier vol <= 4;
  ir_errors : ov_on_errors vol = 0 \/ on_errors_ok (ov_on_errors vol) = true;
  ir_ids : ov_uid vol <> INVALID_ID /\ ov_gid vol <> INVALID_ID;
  ir_masks : 0 <= ov_fmask vol <= NO_MASK /\ 0 <= ov_dmask vol <= NO_MASK;
}.

(** What the rest of the driver relies on. *)
Record configured (vol : opt_volume nls) : Prop := {
  cf_range : in_range vol;
  cf_nls : is_Some (ov_nls vol);
  cf_zone : 1 <= ov_mft_zone_multiplier vol;
  cf_errors : on_errors_ok (ov_on_errors vol) = true;
}.

(** The ranges of the local variables. *)
Record locals_ok (o : opts nls) : Prop := {
  lo_errors : o_on_errors o = -1 \/ o_on_errors o ∈ 16 :: on_errors_values;
  lo_masks : 0 <= o_fmask o <= NO_MASK /\ 0 <= o_dmask o <= NO_MASK;
}.

Lemma u16_mask x : 0 <= u16 x <= NO_MASK.
Proof. unfold u16, NO_MASK. pose proof (Z.mod_pos_bound x 0x10000). lia. Qed.

Lemma find_error_val s val : find_error s on_errors_arr = Some val -> val ∈ [1; 2; 4; 16].
Proof.
  unfold on_errors_arr. cbn [find_error]. repeat (destruct (String.eqb _ s); [intros [= <-]; apply (bool_decide_unpack _); vm_compute; exact I|]). done.
Qed.

Lemma lor_errors e val : e ∈ 0 :: 16 :: on_errors_values -> val ∈ [1; 2; 4; 16] -> Z.lor e val ∈ 16 :: on_errors_values.
Proof.
  intros He Hv. assert (H : Forall (fun e => Forall (fun v => Z.lor e v ∈ 16 :: on_errors_values) [1; 2; 4; 16]) (0 :: 16 :: on_errors_values))
    by (apply (bool_decide_unpack _); vm_compute; exact I).
  rewrite list.Forall_forall in H. specialize (H e He). rewrite list.Forall_forall in H. by apply H.
Qed.

Lemma getopt_errors_ok v e x :
  e = -1 \/ e ∈ 16 :: on_errors_values -> getopt_errors v e = Some x -> x ∈ 16 :: on_errors_values.
Proof.
  intros He. unfold getopt_errors. destruct (arg v) as [s|]; [|done]. cbn [mbind option_bind].
  destruct (find_error s on_errors_arr) as [val|] eqn:E; [|done]. intros [= <-].
  apply lor_errors; [|by eapply find_error_val]. destruct He as [->|He]; [by left|].
  rewrite (proj2 (Z.eqb_neq e (-1))); [by right|]. intros ->. apply (bool_decide_pack _) in He. by vm_compute in He.
Qed.

Lemma use_nls_ok s o o' : locals_ok o -> use_nls load_nls s o = Some o' -> locals_ok o'.
Proof. intros [He Hm]. unfold use_nls. repeat case_match; intros [= <-]; constructor; by destruct o. Qed.

Lemma parse_option_ok tok o o' : locals_ok o -> option1 tok o = Some o' -> locals_ok o'.
Proof.
  intros Hok. pose proof Hok as [He Hm]. unfold parse_option. destruct (split_at_char "=" tok) as [p v]. pose proof u16_mask.
  repeat match goal with |- (if ?b then _ else _) = _ -> _ => destruct b;
    [try (intros Ho; simplify_option_eq; constructor; destruct o; cbn in *; by auto)|] end.
  - intros Ho. simplify_option_eq. constructor; destruct o; cbn in *; [done|split; [apply H|apply Hm]].
  - intros Ho. simplify_option_eq. constructor; destruct o; cbn in *; [done|split; [apply Hm|apply H]].
  - intros [= <-]. by destruct o.
  - destruct (getopt_errors v _) as [x|] eqn:E; [|done]. intros [= <-].
    constructor; [|by destruct o]. right. apply (getopt_errors_ok _ _ _ He) in E. by destruct o.
  - by intros [= <-].
  - intros Ho. simplify_option_eq. by eapply use_nls_ok.
  - destruct (match arg v with Some _ => _ | None => _ end) as [[]|]; cbn; [by apply use_nls_ok|by intros [= <-]|done].
  - intros [= <-]. case_match; [by destruct o|done].
Qed.

Lemma parse_tokens_ok ts o : locals_ok o -> locals_ok (loop ts o).1.
Proof.
  revert o. induction ts as [|t ts IH]; intros o Ho; [done|]. cbn. destruct (option1 t o) eqn:E; [|done].
  apply IH. by eapply parse_option_ok.
Qed.

Lemma apply_nls_range vol o vol' :
  in_range vol -> apply_nls load_nls_default vol o = Some vol' -> in_range vol' /\ is_Some (ov_nls vol').
Proof.
  intros [Hz He Hi Hm]. destruct vol as [t z e u g f d sh ca sp mv]. cbn in *. intros H.
  repeat case_match; simplify_option_eq; (split; [constructor|]; cbn; done).
Qed.

Lemma apply_zone_range vol o vol' :
  in_range vol -> apply_zone vol o = Some vol' -> in_range vol' /\ 1 <= ov_mft_zone_multiplier vol' /\ ov_nls vol' = ov_nls vol.
Proof.
  intros [Hz He Hi Hm]. destruct vol as [t z e u g f d sh ca sp mv]. cbn in *. intros H.
  destruct (o_mft_zone_multiplier o =? -1); cbn in H; [|destruct (negb (z =? 0) && _); [done|cbn in H]]; simplify_eq.
  - split; [constructor|]; cbn; try done; destruct (Z.eqb_spec z 0); try split; auto; lia.
  - destruct ((o_mft_zone_multiplier o <? 1) || (o_mft_zone_multiplier o >? 4)) eqn:E; cbn.
    + split; [constructor|]; cbn; try done; lia.
    + apply orb_false_iff in E. rewrite (proj2 (Z.eqb_neq (o_mft_zone_multiplier o) 0)) by lia.
      split; [constructor|]; cbn; try done; try split; auto; lia.
Qed.

Lemma apply_rest_configured vol o :
  locals_ok o -> o_on_errors o <> 0 -> in_range vol -> is_Some (ov_nls vol) -> 1 <= ov_mft_zone_multiplier vol -> configured (apply_rest vol o).
Proof.
  intros [He Hm] H0 [Rz Re Ri Rm] Hn Hz. destruct vol as [t z e u g f d sh ca sp mv]. cbn in *. unfold apply_rest.
  set (e' := if negb (o_on_errors o =? -1) then o_on_errors o else e).
  assert (Hok : on_errors_ok (if (e' =? 0) || (e' =? ON_ERRORS_RECOVER) then Z.lor e' ON_ERRORS_CONTINUE else e') = true).
  { assert (He' : e' ∈ 0 :: 16 :: on_errors_values).
    { unfold e'. destruct (Z.eqb_spec (o_on_errors o) (-1)); cbn.
      - destruct Re as [->|Re]; [by left|]. right; right. by apply on_errors_ok_iff.
      - right. by destruct He. }
    clear -He'. rewrite !elem_of_cons in He'. destruct He' as [->|[->|He']]; [done|done|].
    apply on_errors_ok_iff in He'. destruct ((e' =? 0) || (e' =? ON_ERRORS_RECOVER)) eqn:E; [|done].
    apply orb_true_iff in E as [->%Z.eqb_eq| ->%Z.eqb_eq]; done. }
  assert (Hi : forall x y, y <> INVALID_ID -> (if negb (x =? INVALID_ID) then x else y) <> INVALID_ID).
  { intros x y Hy. by destruct (Z.eqb_spec x INVALID_ID). }
  assert (Hk : forall x y, 0 <= x <= NO_MASK -> 0 <= y <= NO_MASK -> 0 <= (if negb (x =? NO_MASK) then x else y) <= NO_MASK).
  { intros x y Hx Hy. by destruct (x =? NO_MASK). }
  constructor; cbn; [constructor; cbn|..]; try done; [by right|split; apply Hi; tauto|split; apply Hk; tauto].
Qed.

(** C36: Whatever options are given, the fields [parse_options] sets stay in their
    ranges (multiplier at most 4, a known combination of error actions, valid ids,
    masks of 16 bits), on failure too; and when it succeeds the volume is configured:
    it has a character set, a multiplier of the mft zone between 1 and 4 and an
    action on errors other than recovery alone. *)
Theorem options_configured vol opt :
  in_range vol ->
  let r := parse vol opt in in_range (p_vol r) /\ (p_ok r = true -> configured (p_vol r)).
Proof.
  intros Hv. assert (Hf : forall o, locals_ok o -> let r := no_mount_options load_nls_default vol o in
    in_range (p_vol r) /\ (p_ok r = true -> configured (p_vol r))).
  { intros o Ho. unfold no_mount_options. case_match; [done|]. destruct (Z.eqb_spec (o_on_errors o) 0); [done|].
    destruct (apply_nls _ vol o) as [vol1|] eqn:E1; [|done]. apply apply_nls_range in E1 as [R1 N1]; [|done].
    destruct (apply_zone vol1 o) as [vol2|] eqn:E2; [|done]. apply apply_zone_range in E2 as (R2 & Z2 & N2); [|done].
    rewrite <- N2 in N1. pose proof (apply_rest_configured vol2 o Ho n R2 N1 Z2) as C. split; [apply C|done]. }
  assert (Hno : locals_ok no_opts) by by repeat constructor.
  unfold parse_options. destruct (arg opt) as [s|]; [|by apply Hf].
  pose proof (parse_tokens_ok (tokens s) no_opts Hno) as Hl. destruct (loop (tokens s) no_opts) as [o []]; [by apply Hf|done].
Qed.
End Configured.

(** ** Examples *)

(** A kernel with the character sets iso8859-1 and utf8, and the identity as the
    map of ids between namespaces. *)
Definition demo_nls (s : string) : option string := if bool_decide (s ∈ ["iso8859-1"; "utf8"]) then Some s else None.
Abbreviation demo_parse := (parse_options demo_nls (Some "iso8859-1") (fun x => x) (fun x => x)).
Abbreviation demo_show := (ntfs_show_options (fun t : string => t) (fun x => x) (fun x => x)).

Definition demo_volume : opt_volume string := mk_ov (Some "utf8") 2 18 1000 100 127 63 true false false 3.

Lemma options_roundtrip_witness :
  exists s, demo_show demo_volume = Ret (String "," s)
    /\ demo_parse (mk_ov None 0 0 0 0 127 63 false false true 3) (Some s) = mk_parsed true demo_volume (Some "utf8").
Proof.
  apply (options_roundtrip (fun t => t) demo_nls (Some "iso8859-1") (fun x => x) (fun x => x) (fun x => x) (fun x => x)).
  - constructor; try done; unfold INVALID_ID, NO_MASK; cbn; lia.
  - constructor; try done; by left.
Defined.

Lemma options_configured_witness :
  let r := demo_parse new_volume (Some "utf8,errors=recover,umask=022") in
  p_vol r = mk_ov (Some "utf8") 1 20 0 0 18 18 false false true 0 /\ configured (p_vol r).
Proof.
  split; [vm_compute; reflexivity|].
  apply (options_configured demo_nls (Some "iso8859-1") (fun x => x) (fun x => x) new_volume _); [|vm_compute; reflexivity].
  constructor; try (by left); unfold INVALID_ID, NO_MASK; cbn; lia.
Defined.

(** An id of 2^31 or more is shown as a negative number, which is not read back. *)
Lemma large_uid_not_parsed :
  exists s vol, demo_show vol = Ret (String "," s) /\ ov_uid vol = 2 ^ 32 - 2 /\ p_ok (demo_parse vol (Some s)) = false.
Proof.
  exists "uid=-2,gid=0,umask=077,nls=utf8,errors=continue,mft_zone_multiplier=1", (mk_ov (Some "utf8") 1 4 (2 ^ 32 - 2) 0 63 63 false false true 3).
  split; [vm_compute; reflexivity|split; [done|vm_compute; reflexivity]].
Qed.

(** A mask of all ones is taken for no mask. *)
Lemma full_mask_ignored :
  ov_fmask (p_vol (demo_parse new_volume (Some "fmask=0177777"))) = 127.
Proof. vm_compute. reflexivity. Qed.

(** Options that are refused after a character set was loaded keep a reference to it
    that nothing will drop, and so does a remount that names the character set in
    use. *)
Lemma nls_reference_kept :
  let r := demo_parse new_volume (Some "nls=utf8,bogus") in
  p_ok r = false /\ ov_nls (p_vol r) = None /\ p_held r = Some "utf8".
Proof. vm_compute. repeat split. Qed.
