(* ===== verification/Readdir.v ===== *)
(** * Reading a directory

    Models [ntfs_filldir] and [ntfs_readdir] of [src/ntfs/dir.c]: the entries of the
    index root and of the index blocks in use are passed to the callback of the VFS
    until it refuses one; the position is kept for the next call. *)

From Stdlib Require Import ZArith Lia Bool.
From stdpp Require Import base list numbers option gmap.
From S2P Require Import Prelude Endian Unistr UnistrNls Collate Attrib MftMap AttrLookup Index Dir.

(** ** Layout (layout.h) *)

Definition FILE_root : Z := 5.
Definition FILE_first_user : Z := 16.
Definition FN_file_attributes : Z := 56.
Definition FILE_ATTR_DUP_FILE_NAME_INDEX_PRESENT : Z := 0x10000000.
Definition DT_DIR : Z := 4.
Definition DT_REG : Z := 8.

(** ** State *)

(** What a call has taken and not given back: buffers of [kmalloc], references to
    the inode of the index bitmap, mapped pages of the bitmap and of the index
    allocation, and locked pages of the latter. *)
Record held := mk_held { h_bufs : Z; h_bmp_vi : Z; h_bmp : list Z; h_ia : list Z; h_locked : list Z }.

Definition no_held : held := mk_held 0 0 [] [] [].

Section Readdir.
(** The callback: its state, and what it does with a name, a position, an inode
    number and a type; a value other than 0 refuses the entry. *)
Context {D : Type} (filldir : D -> list Z -> Z -> Z -> Z -> D * Z).
(** The NLS table; the page caches of $MFT, of the index allocation and of the index
    bitmap; what [ntfs_attr_iget] returns for the bitmap, an errno or its size. *)
Context {nls : nls_table} {NA : NameAlloc}.
Context (read_mapping_page : Z -> Z + (list Z * bool)) (mft_size mft_record_size_bits PAGE_CACHE_SHIFT : Z).
Context (upcase : list Z) (upcase_len : Z).
Context (read_ia_page read_bmp_page : Z -> Z + (list Z * bool)) (bmp_iget : Z + Z).
(** The directory: its index inode, log2 of the size of its index blocks, its size,
    its inode number and that of its parent; the mount option show_sys_files. *)
Context (ndir : index_inode) (block_size_bits i_size i_ino parent_ino : Z) (show_sys_files : bool).

Record rstate := mk_rs { rs_world : world; rs_cb : D; rs_held : held }.

Definition RM (A : Type) : Type := rstate -> outcome (rstate * A).
#[export] Instance RM_ret : MRet RM := fun A a s => Ret (s, a).
#[export] Instance RM_bind : MBind RM := fun A B f m s => '(s, a) ← m s; f a s.

Definition rlift {A} (o : outcome A) : RM A := fun s => a ← o; Ret (s, a).
(** An operation on the inodes and records. *)
Definition on_world {A} (m : M A) : RM A := fun s =>
  '(w, a) ← m (rs_world s); Ret (mk_rs w (rs_cb s) (rs_held s), a).
Definition call_filldir (name : list Z) (pos ino type : Z) : RM Z := fun s =>
  let '(d, rc) := filldir (rs_cb s) name pos ino type in Ret (mk_rs (rs_world s) d (rs_held s), rc).
Definition upd (f : held -> outcome held) : RM unit := fun s =>
  h ← f (rs_held s); Ret (mk_rs (rs_world s) (rs_cb s) h, tt).

(** [kmalloc] and [kfree] *)
Definition kmalloc_buf : RM bool :=
  ok ← on_world alloc_ok;
  if (ok : bool) then upd (fun h => Ret (mk_held (h_bufs h + 1) (h_bmp_vi h) (h_bmp h) (h_ia h) (h_locked h)));; mret true else mret false.
Definition kfree : RM unit := upd (fun h =>
  if h_bufs h <=? 0 then Bug else Ret (mk_held (h_bufs h - 1) (h_bmp_vi h) (h_bmp h) (h_ia h) (h_locked h))).

(** [ntfs_attr_iget] and [iput] of the bitmap inode *)
Definition iget_bmp : RM (Z + Z) :=
  match bmp_iget with
  | inl e => mret (inl e)
  | inr n => upd (fun h => Ret (mk_held (h_bufs h) (h_bmp_vi h + 1) (h_bmp h) (h_ia h) (h_locked h)));; mret (inr n)
  end.
Definition iput_bmp : RM unit := upd (fun h =>
  if h_bmp_vi h <=? 0 then Bug else Ret (mk_held (h_bufs h) (h_bmp_vi h - 1) (h_bmp h) (h_ia h) (h_locked h))).

(** Pages of the bitmap and of the index allocation *)
Definition map_bmp_page (index : Z) : RM (Z + list Z) :=
  match map_ia_page read_bmp_page index with
  | inl e => mret (inl e)
  | inr data => upd (fun h => Ret (mk_held (h_bufs h) (h_bmp_vi h) (index :: h_bmp h) (h_ia h) (h_locked h)));; mret (inr data)
  end.
Definition unmap_bmp_page (index : Z) : RM unit := upd (fun h =>
  if bool_decide (index ∈ h_bmp h) then Ret (mk_held (h_bufs h) (h_bmp_vi h) (unpin index (h_bmp h)) (h_ia h) (h_locked h)) else Bug).
Definition map_index_page (index : Z) : RM (Z + list Z) :=
  match map_ia_page read_ia_page index with
  | inl e => mret (inl e)
  | inr data => upd (fun h => Ret (mk_held (h_bufs h) (h_bmp_vi h) (h_bmp h) (index :: h_ia h) (h_locked h)));; mret (inr data)
  end.
Definition unmap_index_page (index : Z) : RM unit := upd (fun h =>
  if bool_decide (index ∈ h_ia h) then Ret (mk_held (h_bufs h) (h_bmp_vi h) (h_bmp h) (unpin index (h_ia h)) (h_locked h)) else Bug).
Definition lock_page (index : Z) : RM unit := upd (fun h =>
  if bool_decide (index ∈ h_locked h) then Diverge else Ret (mk_held (h_bufs h) (h_bmp_vi h) (h_bmp h) (h_ia h) (index :: h_locked h))).
Definition unlock_page (index : Z) : RM unit := upd (fun h =>
  if bool_decide (index ∈ h_locked h) then Ret (mk_held (h_bufs h) (h_bmp_vi h) (h_bmp h) (h_ia h) (unpin index (h_locked h))) else Bug).

(** ** One entry *)

Definition NAME_BUF_LEN : Z := NTFS_MAX_NAME_LEN * NLS_MAX_CHARSET_SIZE + 1.

(** The name of the entry at [ie] in the character set of the mount; [None] when it
    cannot be represented.  [name] is the buffer it is written to. *)
Definition convert_name (mem : list Z) (ie : Z) (name : list Z) : outcome (option (list Z)) :=
  len ← rd_u8 mem (ie + IE_key + FN_length);
  match ntfs_ucstonls 256 (Some (ntfschars_at mem (ie + IE_key + FN_name))) len (Some name) NAME_BUF_LEN with
  | Ret (ns, name_len) => Ret (if name_len <=? 0 then None else Some (take (Z.to_nat name_len) ns))
  | Errno _ => Ret None
  | Bug => Bug
  | Fault => Fault
  | Diverge => Diverge
  end.

Definition ntfs_filldir (fpos : Z) (ia_page : option Z) (mem : list Z) (ie : Z) (name : list Z) : RM Z :=
  name_type ← rlift (rd_u8 mem (ie + IE_key + FN_type));
  if name_type =? FILE_NAME_DOS then mret 0
  else
    indexed_file ← rlift (rd_le64 mem (ie + IE_indexed_file));
    if MREF indexed_file =? FILE_root then mret 0
    else if (MREF indexed_file <? FILE_first_user) && negb show_sys_files then mret 0
    else
      converted ← rlift (convert_name mem ie name);
      match converted with
      | None => mret 0
      | Some s =>
          attributes ← rlift (rd_le32 mem (ie + IE_key + FN_file_attributes));
          let dt_type := if negb (Z.land attributes FILE_ATTR_DUP_FILE_NAME_INDEX_PRESENT =? 0) then DT_DIR else DT_REG in
          match ia_page with Some p => unlock_page p | None => mret tt end;;
          rc ← call_filldir s fpos (MREF indexed_file) dt_type;
          match ia_page with Some p => if rc =? 0 then lock_page p else mret tt | None => mret tt end;;
          mret rc
      end.

(** ** The entries of a node *)

(** How the loop over the entries is left: an entry out of bounds, the last entry,
    a refusal of the callback. *)
Inductive fill_exit := FErr | FEnd | FStop.

(** The entries of the node at [base] whose index ends at [index_end], from [ie] on;
    those in front of the offset [from] are passed; [fpos_base] is the position of
    the node in the directory. *)
Fixpoint fill_loop (fuel : nat) (mem : list Z) (base index_end from fpos_base : Z) (ia_page : option Z) (name : list Z) (fpos ie : Z)
    : RM (Z * fill_exit) :=
  match fuel with
  | O => rlift Diverge
  | S fuel =>
      if (ie <? base) || (ie + IE_HEADER_SIZE >? index_end) then mret (fpos, FErr)
      else
        key_length ← rlift (rd_le16 mem (ie + IE_key_length));
        if ie + key_length >? index_end then mret (fpos, FErr)
        else
          flags ← rlift (rd_le16 mem (ie + IE_flags));
          if negb (Z.land flags INDEX_ENTRY_END =? 0) then mret (fpos, FEnd)
          else if from >? ie - base then
            length ← rlift (rd_le16 mem (ie + IE_length));
            fill_loop fuel mem base index_end from fpos_base ia_page name fpos (ie + length)
          else
            let fpos := ie - base + fpos_base in
            rc ← ntfs_filldir fpos ia_page mem ie name;
            if negb (rc =? 0) then mret (fpos, FStop)
            else
              length ← rlift (rd_le16 mem (ie + IE_length));
              fill_loop fuel mem base index_end from fpos_base ia_page name fpos (ie + length)
  end.

(** ** The index root *)

(** A copy of the value of the index root, with the mft record released again; or an
    errno. *)
Definition copy_index_root : RM (Z + list Z) :=
  let dir := idx_base_ni ndir in
  m ← on_world (map_mft_record read_mapping_page mft_size mft_record_size_bits PAGE_CACHE_SHIFT dir);
  match m with
  | inl e => mret (inl e)
  | inr m =>
      ctx ← on_world (ntfs_attr_get_search_ctx dir m);
      match ctx with
      | None => on_world (unmap_mft_record dir);; mret (inl (- ENOMEM))
      | Some ctx =>
          r ← on_world (ntfs_attr_lookup upcase upcase_len read_mapping_page mft_size mft_record_size_bits PAGE_CACHE_SHIFT
                (mk_search AT_INDEX_ROOT (Some I30) 4 CASE_SENSITIVE 0 None 0) ctx);
          let '(ctx, err) := r in
          if negb (err =? 0) then on_world (ntfs_attr_put_search_ctx ctx);; on_world (unmap_mft_record dir);; mret (inl err)
          else
            value_length ← rlift (rd_le32 (mrec ctx) (attr ctx + A_value_length));
            let rc := s32 value_length in
            ok ← (if rc <? 0 then mret false else kmalloc_buf);
            if negb (ok : bool) then on_world (ntfs_attr_put_search_ctx ctx);; on_world (unmap_mft_record dir);; mret (inl (- ENOMEM))
            else
              value_offset ← rlift (rd_le16 (mrec ctx) (attr ctx + A_value_offset));
              ir ← rlift (rd_bytes (Z.to_nat rc) (mrec ctx) (attr ctx + value_offset));
              on_world (ntfs_attr_put_search_ctx ctx);;
              on_world (unmap_mft_record dir);;
              mret (inr ir)
      end
  end.

(** ** The index bitmap *)

Definition bmp_index (bmp_pos : Z) : Z := u64 (Z.shiftr bmp_pos (3 + PAGE_CACHE_SHIFT)).

(** The next index block in use: an error of the bitmap, the end, or the position
    in the bitmap and in the index allocation with the page of the bitmap. *)
Inductive next_buffer := NErr (err : Z) | NEnd (bmp_pos : Z) | NBuf (bmp_pos cur_bmp_pos ia_pos : Z) (bmp : list Z).

(** The loop behind [get_next_bmp_page]; [next] is the jump to
    [find_next_index_buffer]. *)
Fixpoint find_buffer (fuel : nat) (next : bool) (bmp_pos cur_bmp_pos ia_pos : Z) (bmp : list Z) : RM next_buffer :=
  match fuel with
  | O => rlift Diverge
  | S fuel =>
      used ← (if next then mret false
              else b ← rlift (rd_u8 bmp (Z.shiftr cur_bmp_pos 3));
                   mret (negb (Z.land b (Z.shiftl 1 (Z.land cur_bmp_pos 7)) =? 0)));
      if (used : bool) then mret (NBuf bmp_pos cur_bmp_pos ia_pos bmp)
      else
        let cur_bmp_pos := cur_bmp_pos + 1 in
        if Z.shiftr cur_bmp_pos 3 >=? page_size PAGE_CACHE_SHIFT then
          unmap_bmp_page (bmp_index bmp_pos);;
          let bmp_pos := bmp_pos + page_size PAGE_CACHE_SHIFT * 8 in
          page ← map_bmp_page (bmp_index bmp_pos);
          match page with
          | inl e => mret (NErr e)
          | inr bmp => find_buffer fuel false bmp_pos 0 ia_pos bmp
          end
        else if Z.shiftr (bmp_pos + cur_bmp_pos) 3 >=? i_size then mret (NEnd bmp_pos)
        else find_buffer fuel false bmp_pos cur_bmp_pos (s64 (Z.shiftl (bmp_pos + cur_bmp_pos) block_size_bits)) bmp
  end.

(** ** The index blocks *)

Definition page_of_pos (pos : Z) : Z := Z.land pos (Z.lnot (page_size PAGE_CACHE_SHIFT - 1)).

(** The page that holds the block at [ia_pos], which is kept if it is the one
    mapped before. *)
Definition map_buffer (prev_ia_pos ia_pos : Z) (ia_page : option (Z * list Z)) : RM (Z + (Z * (Z * list Z))) :=
  if negb (page_of_pos prev_ia_pos =? page_of_pos ia_pos) then
    match ia_page with Some (p, _) => unlock_page p;; unmap_index_page p | None => mret tt end;;
    let index := u64 (Z.shiftr ia_pos PAGE_CACHE_SHIFT) in
    page ← map_index_page index;
    match page with
    | inl e => mret (inl e)
    | inr data => lock_page index;; mret (inr (ia_pos, (index, data)))
    end
  else match ia_page with Some p => mret (inr (prev_ia_pos, p)) | None => rlift Fault end.

(** The offset of the block in its page, its position, the end of its index and the
    VCN it holds; [None] for a block that is refused. *)
Definition check_buffer (kaddr : list Z) (ia_pos : Z) : outcome (option (Z * Z * Z * Z)) :=
  let bs := block_size ndir in
  let ia := Z.land (Z.land ia_pos (page_size PAGE_CACHE_SHIFT - 1)) (Z.lnot (bs - 1)) in
  if (ia <? 0) || (ia >? page_size PAGE_CACHE_SHIFT) then Ret None
  else
    magic ← rd_le32 kaddr (ia + IA_magic);
    if negb (ntfs_is_indx_record magic) then Ret None
    else
      vcn ← rd_sle64 kaddr (ia + IA_index_block_vcn);
      let ia_start := Z.land ia_pos (Z.lnot (bs - 1)) in
      if negb (vcn =? Z.shiftr ia_start (vcn_size_bits ndir)) then Ret None
      else
        allocated_size ← rd_le32 kaddr (ia + IA_index + IH_allocated_size);
        if negb (u32 (allocated_size + 0x18) =? bs) then Ret None
        else if ia + bs >? page_size PAGE_CACHE_SHIFT then Ret None
        else
          index_length ← rd_le32 kaddr (ia + IA_index + IH_index_length);
          let index_end := ia + IA_index + index_length in
          if index_end >? ia + bs then Ret None else Ret (Some (ia, ia_start, index_end, vcn)).

Definition release_ia (ia_page : option (Z * list Z)) : RM unit :=
  match ia_page with Some (p, _) => unlock_page p;; unmap_index_page p | None => mret tt end.

(** The label [err_out] with the pages mapped; [bmp] is the page of the bitmap, if
    it is mapped. *)
Definition ia_err_out (bmp : option Z) (ia_page : option (Z * list Z)) (err fpos : Z) : RM (Z * Z) :=
  match bmp with Some b => unmap_bmp_page b | None => mret tt end;;
  iput_bmp;;
  release_ia ia_page;;
  kfree;;
  mret (if err =? 0 then - EIO else err, fpos).

(** From [get_next_bmp_page], or with [next] from [find_next_index_buffer], on; the
    value returned and the position. *)
Fixpoint ia_loop (fuel : nat) (next : bool) (name : list Z) (fpos prev_ia_pos : Z) (ia_page : option (Z * list Z))
    (bmp_pos cur_bmp_pos ia_pos : Z) (bmp : list Z) : RM (Z * Z) :=
  match fuel with
  | O => rlift Diverge
  | S fuel =>
      buffer ← find_buffer fuel next bmp_pos cur_bmp_pos ia_pos bmp;
      match buffer with
      | NErr e => ia_err_out None ia_page e fpos
      | NEnd bmp_pos =>
          release_ia ia_page;; unmap_bmp_page (bmp_index bmp_pos);; iput_bmp;; kfree;;
          mret (0, i_size + mft_record_size mft_record_size_bits)
      | NBuf bmp_pos cur_bmp_pos ia_pos bmp =>
          mapped ← map_buffer prev_ia_pos ia_pos ia_page;
          match mapped with
          | inl e => ia_err_out (Some (bmp_index bmp_pos)) None e fpos
          | inr (prev_ia_pos, (index, kaddr)) =>
              checked ← rlift (check_buffer kaddr ia_pos);
              match checked with
              | None => ia_err_out (Some (bmp_index bmp_pos)) (Some (index, kaddr)) 0 fpos
              | Some (ia, ia_start, index_end, vcn) =>
                  entries_offset ← rlift (rd_le32 kaddr (ia + IA_index + IH_entries_offset));
                  x ← fill_loop fuel kaddr ia index_end (ia_pos - ia_start)
                        (s64 (Z.shiftl vcn (vcn_size_bits ndir)) + mft_record_size mft_record_size_bits) (Some index) name fpos
                        (ia + IA_index + entries_offset);
                  let '(fpos, exit) := x in
                  match exit with
                  | FErr => ia_err_out (Some (bmp_index bmp_pos)) (Some (index, kaddr)) 0 fpos
                  | FStop =>
                      unmap_index_page index;; unmap_bmp_page (bmp_index bmp_pos);; iput_bmp;; kfree;; mret (0, fpos)
                  | FEnd => ia_loop fuel true name fpos prev_ia_pos (Some (index, kaddr)) bmp_pos cur_bmp_pos ia_pos bmp
                  end
              end
          end
      end
  end.

(** From the label [skip_index_root] on *)
Definition read_index_blocks (fuel : nat) (name : list Z) (fpos : Z) : RM (Z * Z) :=
  let ia_pos := fpos - mft_record_size mft_record_size_bits in
  bmp_vi ← iget_bmp;
  match bmp_vi with
  | inl e => kfree;; mret (if e =? 0 then - EIO else e, fpos)
  | inr bmp_size =>
      let bmp_pos := Z.shiftr ia_pos block_size_bits in
      if Z.shiftr bmp_pos 3 >=? bmp_size then ia_err_out None None 0 fpos
      else
        let cur_bmp_pos := Z.land bmp_pos (page_size PAGE_CACHE_SHIFT * 8 - 1) in
        let bmp_pos := Z.land bmp_pos (Z.lnot (page_size PAGE_CACHE_SHIFT * 8 - 1)) in
        page ← map_bmp_page (bmp_index bmp_pos);
        match page with
        | inl e => ia_err_out None None e fpos
        | inr bmp => ia_loop fuel false name fpos (-1) None bmp_pos cur_bmp_pos ia_pos bmp
        end
  end.

(** From the copy of the index root to the end of its entries *)
Definition read_index_root (fuel : nat) (name : list Z) (fpos : Z) : RM (Z * Z) :=
  r ← copy_index_root;
  match r with
  | inl e => kfree;; mret (if e =? 0 then - EIO else e, fpos)
  | inr ir =>
      index_length ← rlift (rd_le32 ir (IR_index + IH_index_length));
      entries_offset ← rlift (rd_le32 ir (IR_index + IH_entries_offset));
      x ← fill_loop fuel ir 0 (IR_index + index_length) fpos 0 None name fpos (IR_index + entries_offset);
      let '(fpos, exit) := x in
      match exit with
      | FErr => kfree;; kfree;; mret (- EIO, fpos)
      | FStop => kfree;; kfree;; mret (0, fpos)
      | FEnd =>
          kfree;;
          if negb (index_alloc_present ndir) then kfree;; mret (0, i_size + mft_record_size mft_record_size_bits)
          else read_index_blocks fuel name (mft_record_size mft_record_size_bits)
      end
  end.

(** The two entries every directory has; [true] when the callback refused one. *)
Definition fill_dots (fpos : Z) : RM (Z * bool) :=
  x ← (if fpos =? 0 then
         rc ← call_filldir [46] fpos i_ino DT_DIR;
         mret (if negb (rc =? 0) then (fpos, true) else (fpos + 1, false))
       else mret (fpos, false));
  let '(fpos, stop) := x in
  if (stop : bool) then mret (fpos, true)
  else if fpos =? 1 then
    rc ← call_filldir [46; 46] fpos parent_ino DT_DIR;
    mret (if negb (rc =? 0) then (fpos, true) else (fpos + 1, false))
  else mret (fpos, false).

(** The value returned and the new [f_pos]. *)
Definition ntfs_readdir (fuel : nat) (f_pos : Z) : RM (Z * Z) :=
  if f_pos >=? i_size + mft_record_size mft_record_size_bits then mret (0, f_pos)
  else
    x ← fill_dots f_pos;
    let '(fpos, stop) := x in
    if (stop : bool) then mret (0, fpos)
    else
      ok ← kmalloc_buf;
      if negb (ok : bool) then mret (- ENOMEM, fpos)
      else
        let name := repeat 0 (Z.to_nat NAME_BUF_LEN) in
        if fpos >=? mft_record_size mft_record_size_bits then read_index_blocks fuel name fpos
        else read_index_root fuel name fpos.
End Readdir.

Arguments rstate : clear implicits.
Arguments RM : clear implicits.
