(* ===== verification/ReaddirSpec.v ===== *)
(** * Reading a directory: the entries a reader is to see

    What the index of a directory shows under a mount, in the order of positions,
    and the refinement of the loops over one node to it. *)

From Stdlib Require Import ZArith Lia Bool.
From stdpp Require Import base list numbers option gmap sorting.
From S2P Require Import Prelude Endian Unistr UnistrNls Collate Attrib MftMap MftMapSpec AttrLookup Index IndexSpec Dir DirSpec DirTheorems Readdir.

(** ** Names in the character set of the mount *)

Section Names.
Context {nls : nls_table} {NA : NameAlloc}.

(** What [uni2char] does: a character takes between 1 and NLS_MAX_CHARSET_SIZE
    bytes, which are written if they fit. *)
Definition nls_sound : Prop := forall c space, let '(wc, out) := uni2char c space in
  if 0 <? wc then zlen out = wc /\ wc <= NLS_MAX_CHARSET_SIZE /\ wc <= space else out = [].

(** The bytes of a name in [space] bytes; a character that converts to nothing ends
    the name. *)
Fixpoint nls_bytes (space : Z) (u : list Z) : option (list Z) :=
  match u with
  | [] => Some []
  | c :: u =>
      let '(wc, out) := uni2char c space in
      if 0 <? wc then (fun s => out ++ s) <$> nls_bytes (space - wc) u
      else if wc =? 0 then Some [] else None
  end.

Lemma ucstonls_loop_bytes u : nls_sound -> forall fuel pre post done rest ins ins_len i o ns ns_len,
  (length u < fuel)%nat -> NLS_MAX_CHARSET_SIZE * zlen u < zlen rest ->
  ins = pre ++ u ++ post -> ins_len = zlen pre + zlen u -> i = zlen pre -> o = zlen done -> ns = done ++ rest -> ns_len = zlen done + zlen rest ->
  match nls_bytes (zlen rest) u with
  | Some s => exists rest', rest' <> [] /\ ucstonls_loop fuel ins ins_len i o ns ns_len false = Ret ((done ++ s) ++ rest', zlen (done ++ s))
  | None => exists e, ucstonls_loop fuel ins ins_len i o ns ns_len false = Errno e
  end.
Proof.
  intros Hn. induction u as [|c u IH]; intros fuel pre post done rest ins ins_len i o ns ns_len Hf Hr -> -> -> -> -> ->;
    (destruct fuel as [|fuel]; [lia|]); cbn [nls_bytes ucstonls_loop].
  - exists rest. split; [destruct rest; [unfold zlen in Hr; cbn in Hr; lia|done]|].
    rewrite (proj2 (Z.ltb_ge _ _)) by (rewrite zlen_nil; lia). by rewrite app_nil_r.
  - pose proof (zlen_nonneg u) as Hu. rewrite zlen_cons in Hr |- *. rewrite (proj2 (Z.ltb_lt _ _)) by lia.
    cbn [app]. rewrite rd_mid, bind_Ret by done.
    replace (zlen done + zlen rest - zlen done) with (zlen rest) by lia.
    pose proof (Hn c (zlen rest)) as Hc. destruct (uni2char c (zlen rest)) as [wc out].
    destruct (Z.ltb_spec 0 wc) as [Hw|Hw].
    + destruct Hc as (Ho & Hm & Hs).
      set (r1 := take (Z.to_nat wc) rest). set (r2 := drop (Z.to_nat wc) rest).
      assert (Hz1 : zlen r1 = wc) by (unfold r1, zlen in *; rewrite length_take; lia).
      assert (Hz2 : zlen r2 = zlen rest - wc) by (unfold r2, zlen in *; rewrite length_drop; lia).
      rewrite (blit_eq _ _ _ _ _ done r1 r2 [] out []); try done; try lia; [|by unfold r1, r2; rewrite take_drop|by rewrite app_nil_r].
      rewrite bind_Ret, (proj2 (Z.gtb_lt wc 0)) by lia.
      specialize (IH fuel (pre ++ [c]) post (done ++ out) r2 (pre ++ c :: u ++ post) (zlen pre + (1 + zlen u)) (zlen pre + 1) (zlen done + wc)
        (done ++ out ++ r2) (zlen done + zlen rest) ltac:(cbn in Hf; lia)).
      rewrite !zlen_app, Hz2, <- !app_assoc in IH. specialize (IH ltac:(lia) eq_refl ltac:(rewrite zlen_cons, zlen_nil; lia)
        ltac:(rewrite zlen_cons, zlen_nil; lia) ltac:(lia) eq_refl ltac:(lia)).
      destruct (nls_bytes (zlen rest - wc) u) as [s|]; cbn [fmap option_fmap option_map]; by rewrite <- ?app_assoc in *.
    + subst out. rewrite (blit_eq _ _ _ _ _ done [] rest [] [] []), bind_Ret by done. cbn [app]. destruct (Z.gtb_spec wc 0); [lia|].
      destruct (Z.eqb_spec wc 0); [|rewrite andb_false_r; eauto].
      exists rest. split; [destruct rest; [rewrite zlen_nil in Hr; unfold NLS_MAX_CHARSET_SIZE in Hr; lia|done]|]. by rewrite app_nil_r.
Qed.

(** The name as it is shown: [None] when it cannot be represented, or is empty. *)
Definition shown_name (u : list Z) : option (list Z) :=
  match nls_bytes NAME_BUF_LEN u with Some [] | None => None | Some s => Some s end.

Lemma convert_name_spec mem ie u post : nls_sound ->
  rd_u8 mem (ie + IE_key + FN_length) = Ret (zlen u) -> zlen u <= NTFS_MAX_NAME_LEN ->
  ntfschars_at mem (ie + IE_key + FN_name) = u ++ post ->
  convert_name mem ie (repeat 0 (Z.to_nat NAME_BUF_LEN)) = Ret (shown_name u).
Proof.
  intros Hn Hl Hm Hp. unfold convert_name. rewrite Hl, bind_Ret, Hp. unfold ntfs_ucstonls.
  assert (Hz : zlen (repeat 0 (Z.to_nat NAME_BUF_LEN)) = NAME_BUF_LEN) by by vm_compute.
  pose proof (ucstonls_loop_bytes u Hn 256 [] post [] (repeat 0 (Z.to_nat NAME_BUF_LEN)) (u ++ post) (zlen u) 0 0
    (repeat 0 (Z.to_nat NAME_BUF_LEN)) NAME_BUF_LEN) as H.
  rewrite Hz in H. unfold NTFS_MAX_NAME_LEN in *. specialize (H ltac:(unfold zlen in Hm; lia)
    ltac:(unfold NAME_BUF_LEN, NTFS_MAX_NAME_LEN, NLS_MAX_CHARSET_SIZE; lia) eq_refl eq_refl eq_refl eq_refl eq_refl eq_refl).
  change (NAME_BUF_LEN =? 0) with false. cbv iota. unfold shown_name. destruct (nls_bytes NAME_BUF_LEN u) as [s|].
  - destruct H as (rest & Hr & ->). destruct rest as [|x rest]; [done|]. cbn [app]. rewrite bind_Ret. cbv beta iota.
    rewrite wr_mid, bind_Ret by done. destruct s as [|y s]; [done|]. pose proof (zlen_nonneg s).
    rewrite zlen_cons. destruct (Z.leb_spec (1 + zlen s) 0); [lia|]. f_equal. f_equal.
    replace (Z.to_nat (1 + zlen s)) with (length (y :: s)) by (unfold zlen; cbn; lia). by rewrite take_app_length.
  - by destruct H as (e & ->).
Qed.
End Names.

(** ** Entries *)

(** What is passed to the callback: a name, a position, an inode number, a type. *)
Record item := mk_item { it_name : list Z; it_pos : Z; it_ino : Z; it_type : Z }.

Section Node.
Context {D : Type} (filldir : D -> list Z -> Z -> Z -> Z -> D * Z).
Context {nls : nls_table} {NA : NameAlloc} (Hnls : nls_sound).
Context (show_sys_files : bool).

(** What is shown of an entry at a position: nothing for names of the DOS namespace,
    for the entry of the root directory in itself, for system files unless they are
    asked for, and for names that cannot be represented. *)
Definition entry_item (pos : Z) (d : dirent) (attributes : Z) : option item :=
  if (d_type d =? FILE_NAME_DOS) || (MREF (d_mref d) =? FILE_root) || (MREF (d_mref d) <? FILE_first_user) && negb show_sys_files then None
  else s ← shown_name (d_name d);
       Some (mk_item s pos (MREF (d_mref d)) (if negb (Z.land attributes FILE_ATTR_DUP_FILE_NAME_INDEX_PRESENT =? 0) then DT_DIR else DT_REG)).

(** The node in [mem] whose entries start at [off], up to the end [iend] of the
    index: their offsets and names, with the attributes of the files. *)
Inductive rentries_at (mem : list Z) (iend : Z) : Z -> list (Z * dirent * Z) -> Prop :=
| re_last off len flags child :
    dheader_at mem iend off len flags child -> Z.land flags INDEX_ENTRY_END <> 0 -> rentries_at mem iend off []
| re_entry off len flags child d a es :
    dheader_at mem iend off len flags child -> Z.land flags INDEX_ENTRY_END = 0 -> 0 < len ->
    dirent_at mem off d -> zlen (d_name d) <= NTFS_MAX_NAME_LEN ->
    rd_le32 mem (off + IE_key + FN_file_attributes) = Ret a ->
    rentries_at mem iend (off + len) es -> rentries_at mem iend off ((off, d, a) :: es).

(** The items of a node at [base] whose position in the directory is [fpos_base]. *)
Definition node_items (base fpos_base : Z) (es : list (Z * dirent * Z)) : list item :=
  omap (fun '(off, d, a) => entry_item (off - base + fpos_base) d a) es.

(** Passing items to the callback until it refuses one: its state, and the position
    it refused. *)
Fixpoint deliver (d : D) (l : list item) : D * option Z :=
  match l with
  | [] => (d, None)
  | x :: l =>
      let '(d, rc) := filldir d (it_name x) (it_pos x) (it_ino x) (it_type x) in
      if rc =? 0 then deliver d l else (d, Some (it_pos x))
  end.

Lemma deliver_app d l1 l2 :
  deliver d (l1 ++ l2) = match deliver d l1 with (d, None) => deliver d l2 | r => r end.
Proof. revert d. induction l1 as [|x l1 IH]; intros d; cbn; [done|]. destruct (filldir d _ _ _ _) as [d' rc]. destruct (rc =? 0); [apply IH|done]. Qed.

(** ** Running the state transformers *)

Lemma RM_run {A B} (m : RM D A) (f : A -> RM D B) s s' a : m s = Ret (s', a) -> (m ≫= f) s = f a s'.
Proof. intros E. unfold mbind, RM_bind. by rewrite E. Qed.

Lemma rlift_eq {A} (s : rstate D) (o : outcome A) a : o = Ret a -> rlift o s = Ret (s, a).
Proof. by intros ->. Qed.

(** The page of the node is locked while its entries are read. *)
Definition page_locked (ia_page : option Z) (h : held) : Prop :=
  match ia_page with None => True | Some p => h_locked h = [p] end.
Definition page_unlocked (ia_page : option Z) (h : held) : held :=
  match ia_page with None => h | Some p => mk_held (h_bufs h) (h_bmp_vi h) (h_bmp h) (h_ia h) [] end.

Local Abbreviation name_buf := (repeat 0 (Z.to_nat NAME_BUF_LEN)).
Local Abbreviation fill := (ntfs_filldir filldir show_sys_files).

Lemma unlock_spec w d h p : h_locked h = [p] -> unlock_page (D := D) p (mk_rs w d h) = Ret (mk_rs w d (page_unlocked (Some p) h), tt).
Proof.
  intros Hp. unfold unlock_page, upd. cbn [rs_held]. rewrite Hp, bool_decide_eq_true_2 by by left.
  cbn. by rewrite Z.eqb_refl.
Qed.

Lemma relock_page_spec w d h p : h_locked h = [p] -> lock_page (D := D) p (mk_rs w d (page_unlocked (Some p) h)) = Ret (mk_rs w d h, tt).
Proof. intros Hp. unfold lock_page, upd. cbn. destruct h; cbn in *. by subst. Qed.

Lemma call_eq w c h name pos ino type c' rc :
  filldir c name pos ino type = (c', rc) -> call_filldir filldir name pos ino type (mk_rs w c h) = Ret (mk_rs w c' h, rc).
Proof. intros E. unfold call_filldir. cbn. by rewrite E. Qed.

Lemma filldir_spec mem off d a pos ia_page w c h :
  dirent_at mem off d -> zlen (d_name d) <= NTFS_MAX_NAME_LEN -> rd_le32 mem (off + IE_key + FN_file_attributes) = Ret a -> page_locked ia_page h ->
  fill pos ia_page mem off name_buf (mk_rs w c h) =
    match entry_item pos d a with
    | None => Ret (mk_rs w c h, 0)
    | Some x => let '(c, rc) := filldir c (it_name x) pos (it_ino x) (it_type x) in
        Ret (mk_rs w c (if rc =? 0 then h else page_unlocked ia_page h), rc)
    end.
Proof using Hnls.
  intros [Hmref Htype Hlen Hch (post & Hname)] Hmax Ha Hl. unfold ntfs_filldir, entry_item.
  rewrite (RM_run _ _ _ _ _ (rlift_eq _ _ _ Htype)). destruct (d_type d =? FILE_NAME_DOS); [done|].
  rewrite (RM_run _ _ _ _ _ (rlift_eq _ _ _ Hmref)). destruct (MREF (d_mref d) =? FILE_root); [done|]. cbn [orb].
  destruct ((MREF (d_mref d) <? FILE_first_user) && negb show_sys_files); [done|].
  rewrite (RM_run _ _ _ _ _ (rlift_eq _ _ _ (convert_name_spec _ _ _ _ Hnls Hlen Hmax Hname))).
  destruct (shown_name (d_name d)) as [s|]; [|done]. cbn [mbind option_bind it_name it_ino it_type].
  rewrite (RM_run _ _ _ _ _ (rlift_eq _ _ _ Ha)). destruct ia_page as [p|].
  - rewrite (RM_run _ _ _ _ _ (unlock_spec _ _ _ _ Hl)). destruct (filldir c _ _ _ _) as [c' rc] eqn:E.
    rewrite (RM_run _ _ _ _ _ (call_eq _ _ _ _ _ _ _ _ _ E)).
    destruct (rc =? 0); [by rewrite (RM_run _ _ _ _ _ (relock_page_spec _ _ _ _ Hl))|done].
  - rewrite (RM_run _ _ (mk_rs w c h) (mk_rs w c h) tt) by done. destruct (filldir c _ _ _ _) as [c' rc] eqn:E.
    rewrite (RM_run _ _ _ _ _ (call_eq _ _ _ _ _ _ _ _ _ E)). cbn. by destruct (rc =? 0).
Qed.

(** ** The loop over the entries *)

Lemma rentries_order mem iend off es :
  rentries_at mem iend off es -> Forall (fun '(o, _, _) => off <= o /\ o + IE_HEADER_SIZE <= iend) es.
Proof.
  induction 1 as [|off len flags child d a es [(H1 & H2 & _) _] Hend Hlen Hd Hm Ha _ IH]; [constructor|].
  constructor; [lia|]. eapply Forall_impl; [exact IH|]. intros [[o x] y] ?. cbn in *. lia.
Qed.

(** Those at or behind an offset from the start of the node. *)
Definition entries_from (base from : Z) (es : list (Z * dirent * Z)) : list (Z * dirent * Z) :=
  base.filter (fun '(o, _, _) => from <= o - base) es.

(** On sound entries the loop passes the items at or behind [from] to the callback;
    the page of the node is unlocked at the end exactly when an item was refused. *)
Lemma fill_loop_spec mem base iend from fpos_base ia_page off es :
  rentries_at mem iend off es -> base <= off -> forall fuel w c h fpos,
  (length es < fuel)%nat -> page_locked ia_page h ->
  exists fpos', fill_loop filldir show_sys_files fuel mem base iend from fpos_base ia_page name_buf fpos off (mk_rs w c h) =
    match deliver c (node_items base fpos_base (entries_from base from es)) with
    | (c, None) => Ret (mk_rs w c h, (fpos', FEnd))
    | (c, Some p) => Ret (mk_rs w c (page_unlocked ia_page h), (p, FStop))
    end.
Proof using Hnls.
  induction 1 as [off len flags child [(H1 & H2 & H3 & H4 & H5) (klen & Hk & Hkl)] Hend
    |off len flags child d a es [(H1 & H2 & H3 & H4 & H5) (klen & Hk & Hkl)] Hend Hlen Hd Hm Ha _ IH];
    intros Hb fuel w c h fpos Hf Hl; (destruct fuel as [|fuel]; [lia|]); cbn [fill_loop];
    (destruct (Z.ltb_spec off base); [lia|]); (destruct (Z.gtb_spec (off + IE_HEADER_SIZE) iend); [lia|]); cbn [orb];
    rewrite (RM_run _ _ _ _ _ (rlift_eq _ _ _ Hk)); (destruct (Z.gtb_spec (off + klen) iend); [lia|]);
    rewrite (RM_run _ _ _ _ _ (rlift_eq _ _ _ H4)).
  { rewrite (proj2 (Z.eqb_neq _ 0)) by done. by exists fpos. }
  rewrite Hend. cbn [negb Z.eqb]. unfold entries_from. rewrite filter_cons. cbn [length] in Hf.
  destruct (Z.gtb_spec from (off - base)) as [Hlt|Hge].
  - rewrite decide_False by lia. rewrite (RM_run _ _ _ _ _ (rlift_eq _ _ _ H3)). apply IH; [lia|lia|done].
  - rewrite decide_True by lia. cbn [node_items omap list_omap].
    pose proof (filldir_spec mem off d a (off - base + fpos_base) ia_page w c h Hd Hm Ha Hl) as E. cbn zeta.
    destruct (entry_item (off - base + fpos_base) d a) as [x|] eqn:Ex.
    + assert (Hx : it_pos x = off - base + fpos_base).
      { unfold entry_item in Ex. destruct (_ || _); [done|]. by destruct (shown_name (d_name d)); [injection Ex as <-|]. }
      cbn [deliver]. rewrite Hx. destruct (filldir c (it_name x) _ (it_ino x) (it_type x)) as [c' rc]. rewrite (RM_run _ _ _ _ _ E).
      destruct (rc =? 0); cbn [negb]; [|by exists fpos].
      rewrite (RM_run _ _ _ _ _ (rlift_eq _ _ _ H3)). apply IH; [lia|lia|done].
    + rewrite (RM_run _ _ _ _ _ E). cbn [negb Z.eqb]. rewrite (RM_run _ _ _ _ _ (rlift_eq _ _ _ H3)). apply IH; [lia|lia|done].
Qed.
End Node.
