(* ===== verification/ReaddirTheorems.v ===== *)
(** * Reading a directory: the whole directory is read

    [ntfs_readdir] passes the items of the directory at or behind its position to
    the callback, in the order of their positions; so repeated calls deliver every
    item once and come to the end. *)

From Stdlib Require Import ZArith Lia Bool.
From stdpp Require Import base list numbers option gmap sorting.
From S2P Require Import Prelude Endian Unistr UnistrNls Collate Attrib MftMap MftMapSpec AttrLookup AttrLookupTheorems AttrSession Statfs MftBitmap.
From S2P Require Import Index IndexSpec IndexTheorems Dir DirSpec DirTheorems Readdir ReaddirSpec.

(** ** Masks *)

Lemma land_mask x k : 0 <= k -> Z.land x (2 ^ k - 1) = x mod 2 ^ k.
Proof. intros Hk. rewrite <- Z.land_ones by done. f_equal. rewrite Z.ones_equiv. lia. Qed.

Lemma land_lnot_mask x k : 0 <= k -> Z.land x (Z.lnot (2 ^ k - 1)) = x - x mod 2 ^ k.
Proof.
  intros Hk. replace (2 ^ k - 1) with (Z.ones k) by (rewrite Z.ones_equiv; lia).
  rewrite <- Z.ldiff_land, Z.ldiff_ones_r by done. rewrite Z.shiftl_mul_pow2, Z.shiftr_div_pow2 by done.
  pose proof (Z.div_mod x (2 ^ k) ltac:(lia)). lia.
Qed.

(** The bit that the test of a bitmap byte looks at. *)
Lemma bit_test b i : 0 <= i -> negb (Z.land b (Z.shiftl 1 (Z.land i 7)) =? 0) = Z.testbit b (i mod 8).
Proof.
  intros Hi. rewrite land7. pose proof (Z.mod_pos_bound i 8 ltac:(lia)) as Hm. set (j := i mod 8) in *. rewrite Z.shiftl_1_l.
  destruct (Z.testbit b j) eqn:E.
  - apply negb_true_iff, Z.eqb_neq. intros H. apply (f_equal (fun x => Z.testbit x j)) in H.
    rewrite Z.land_spec, E, Z.pow2_bits_true, Z.bits_0 in H by lia. done.
  - apply negb_false_iff, Z.eqb_eq. apply Z.bits_inj'. intros n Hn. rewrite Z.land_spec, Z.bits_0, Z.pow2_bits_eqb by lia.
    destruct (Z.eqb_spec j n) as [<-|]; [by rewrite E|apply andb_false_r].
Qed.

(** ** The index bitmap *)

Section Bitmap.
Context {D : Type} (shift : Z) (read_bmp_page : Z -> Z + (list Z * bool)) (block_size_bits i_size : Z).
Context (bmp : Z -> list Z).
Hypothesis Hshift : 0 <= shift < 31.
Hypothesis Hsize : 0 <= i_size < 2 ^ 60.

Local Abbreviation PAGE := (2 ^ shift).
Local Abbreviation K := (8 * 2 ^ shift).

(** The pages of the bitmap up to the offset [i_size] can be read; [bmp] is what
    they hold. *)
Definition bitmap_readable : Prop := forall n, 0 <= n -> n * PAGE <= i_size ->
  map_ia_page read_bmp_page n = inr (bmp n) /\ zlen (bmp n) = PAGE.
Hypothesis Hbmp : bitmap_readable.

(** Whether an index block is in use. *)
Definition in_use (b : Z) : bool := list_bit (bmp (b / K)) (b mod K).

Definition set_bmp (p : Z) (h : held) : held := mk_held (h_bufs h) (h_bmp_vi h) [p] (h_ia h) (h_locked h).

Local Abbreviation find := (find_buffer (D := D) shift read_bmp_page block_size_bits i_size).

Lemma bmp_index_page j : 0 <= j -> j * PAGE <= i_size -> bmp_index shift (K * j) = j.
Proof.
  intros Hj Hs. unfold bmp_index. rewrite Z.shiftr_div_pow2 by lia. rewrite Z.pow_add_r by lia. change (2 ^ 3) with 8.
  rewrite Z.mul_comm, Z.div_mul by lia. apply u64_id. nia.
Qed.

Lemma test_spec j cur : 0 <= j -> j * PAGE <= i_size -> 0 <= cur < K ->
  exists b, rd_u8 (bmp j) (Z.shiftr cur 3) = Ret b /\ negb (Z.land b (Z.shiftl 1 (Z.land cur 7)) =? 0) = in_use (K * j + cur).
Proof.
  intros Hj Hs Hc. destruct (Hbmp j Hj Hs) as [_ Hz]. rewrite Z.shiftr_div_pow2 by lia. change (2 ^ 3) with 8.
  assert (Hd : 0 <= cur / 8 < PAGE) by (split; [apply Z.div_pos; lia|apply Z.div_lt_upper_bound; lia]).
  destruct (rd_in_range (bmp j) (cur / 8)) as [b Hb]; [lia|]. exists b. split; [exact Hb|].
  rewrite bit_test by lia. unfold in_use, list_bit. rewrite (Z.mul_comm K j), Z.div_add_l, (Z.div_small cur), Z.add_0_r by lia.
  rewrite Z.add_comm, Z.mod_add, (Z.mod_small cur K) by lia. apply rd_spec in Hb as [_ ->]. done.
Qed.

Lemma next_page_spec j w c h : 0 <= j -> (j + 1) * PAGE <= i_size -> h_bmp h = [j] ->
  forall f : Z + list Z -> RM D next_buffer,
  (unmap_bmp_page (bmp_index shift (K * j));; page ← map_bmp_page read_bmp_page (bmp_index shift (K * j + page_size shift * 8)); f page) (mk_rs w c h)
  = f (inr (bmp (j + 1))) (mk_rs w c (set_bmp (j + 1) h)).
Proof.
  intros Hj Hs Hh f. replace (K * j + page_size shift * 8) with (K * (j + 1)) by (unfold page_size; lia).
  rewrite !bmp_index_page by nia.
  rewrite (RM_run _ _ _ (mk_rs w c (mk_held (h_bufs h) (h_bmp_vi h) [] (h_ia h) (h_locked h))) tt).
  2: { unfold unmap_bmp_page, upd. cbn. rewrite Hh, bool_decide_eq_true_2 by by left. cbn. by rewrite Z.eqb_refl. }
  apply RM_run. unfold map_bmp_page. destruct (Hbmp (j + 1)) as [-> _]; [lia|lia|]. done.
Qed.

(** Nothing is in use any more: the search comes to the end. *)
Lemma find_none fuel : forall next j cur ia_pos w c h,
  0 <= j -> j * PAGE <= i_size -> 0 <= cur < K -> h_bmp h = [j] ->
  K * j + cur + Z.b2z next <= 8 * i_size -> 8 * i_size + 1 - (K * j + cur) < Z.of_nat fuel ->
  (forall b, K * j + cur + Z.b2z next <= b -> in_use b = false) ->
  exists j', 0 <= j' /\ j' * PAGE <= i_size /\
    find fuel next (K * j) cur ia_pos (bmp j) (mk_rs w c h) = Ret (mk_rs w c (set_bmp j' h), NEnd (K * j')).
Proof using All.
  induction fuel as [|fuel IH]; intros next j cur ia_pos w c h Hj Hs Hc Hh Hle Hf Hno; (assert (0 <= Z.b2z next <= 1) by by destruct next); [lia|]. cbn [find_buffer].
  rewrite (RM_run _ _ _ (mk_rs w c h) false).
  2: { destruct next; [done|]. destruct (test_spec j cur Hj Hs Hc) as (b & Eb & Hb). rewrite (RM_run _ _ _ _ _ (rlift_eq _ _ _ Eb)), Hb.
       by rewrite Hno by (change (Z.b2z false) with 0; lia). }
  cbn zeta. rewrite !Z.shiftr_div_pow2 by lia. change (2 ^ 3) with 8.
  pose proof (Z.div_mod (cur + 1) 8 ltac:(lia)). pose proof (Z.mod_pos_bound (cur + 1) 8 ltac:(lia)).
  destruct (Z.geb_spec ((cur + 1) / 8) (page_size shift)) as [Hp|Hp]; unfold page_size in Hp.
  - assert (cur + 1 = K) by lia.
    assert (Hs' : (j + 1) * PAGE <= i_size).
    { assert (8 * ((j + 1) * PAGE) <= 8 * i_size + 1) by (destruct next; cbn [Z.b2z] in *; lia). lia. }
    rewrite (next_page_spec j w c h Hj Hs' Hh). unfold page_size. replace (K * j + PAGE * 8) with (K * (j + 1)) by lia.
    destruct (IH false (j + 1) 0 ia_pos w c (set_bmp (j + 1) h)) as (j' & Hj' & Hs'' & E); try done; cbn [Z.b2z]; try lia.
    { intros b Hb. apply Hno. lia. }
    by exists j'.
  - pose proof (Z.div_mod (K * j + (cur + 1)) 8 ltac:(lia)). pose proof (Z.mod_pos_bound (K * j + (cur + 1)) 8 ltac:(lia)).
    destruct (Z.geb_spec ((K * j + (cur + 1)) / 8) i_size).
    + exists j. split_and!; try done. destruct h; cbn in Hh; by subst.
    + apply IH; try done; cbn [Z.b2z]; try lia. intros b Hb. apply Hno. destruct next; cbn [Z.b2z] in *; lia.
Qed.

(** The next block in use, on the first page of the bitmap. *)
Lemma find_some fuel : forall next cur ia_pos b w c h,
  0 <= cur -> cur + Z.b2z next <= b -> b < K -> b / 8 < i_size -> b - cur + 1 < Z.of_nat fuel ->
  in_use b = true -> (forall b', cur + Z.b2z next <= b' < b -> in_use b' = false) ->
  find fuel next 0 cur ia_pos (bmp 0) (mk_rs w c h)
  = Ret (mk_rs w c h, NBuf 0 b (if negb next && (b =? cur) then ia_pos else s64 (Z.shiftl b block_size_bits)) (bmp 0)).
Proof using All.
  induction fuel as [|fuel IH]; intros next cur ia_pos b w c h Hc Hb HK Hsz Hf Hu Hno; (assert (0 <= Z.b2z next <= 1) by by destruct next); [lia|]. cbn [find_buffer].
  assert (Hst : exists u, (if next then mret false else b ← rlift (rd_u8 (bmp 0) (Z.shiftr cur 3)); mret (negb (Z.land b (Z.shiftl 1 (Z.land cur 7)) =? 0)))
    (mk_rs w c h) = Ret (mk_rs w c h, u) /\ u = negb next && (b =? cur)).
  { exists (negb next && (b =? cur)). split; [|done]. destruct next; [done|]. cbn in Hb.
    destruct (test_spec 0 cur ltac:(lia) ltac:(lia) ltac:(lia)) as (x & Ex & Hx).
    rewrite (RM_run _ _ _ _ _ (rlift_eq _ _ _ Ex)), Hx. cbn [negb andb]. replace (K * 0 + cur) with cur by lia.
    destruct (Z.eqb_spec b cur) as [->|]; [by rewrite Hu|]. by rewrite Hno by (change (Z.b2z false) with 0; lia). }
  destruct Hst as (u & Hst & ->). rewrite (RM_run _ _ _ _ _ Hst).
  destruct (negb next && (b =? cur)) eqn:E; [apply andb_true_iff in E as [_ ->%Z.eqb_eq]; done|].
  cbn zeta. rewrite !Z.shiftr_div_pow2 by lia. change (2 ^ 3) with 8. rewrite !Z.add_0_l.
  assert (Hlt : cur + 1 <= b). { destruct next; cbn [Z.b2z negb andb] in *; [lia|]. apply Z.eqb_neq in E. lia. }
  pose proof (Z.div_mod (cur + 1) 8 ltac:(lia)). pose proof (Z.mod_pos_bound (cur + 1) 8 ltac:(lia)).
  destruct (Z.geb_spec ((cur + 1) / 8) (page_size shift)) as [Hp|Hp]; unfold page_size in Hp; [lia|].
  pose proof (Z.div_le_mono (cur + 1) b 8 ltac:(lia) Hlt). destruct (Z.geb_spec ((cur + 1) / 8) i_size); [lia|].
  rewrite (IH false (cur + 1) _ b); try done; cbn [negb andb Z.b2z]; try lia.
  - destruct (Z.eqb_spec b (cur + 1)) as [->|]; done.
  - intros b' Hb'. apply Hno. destruct next; cbn [Z.b2z] in *; lia.
Qed.

(** When the search comes to another page of the bitmap whose first bit is set, the
    position in the index allocation is not brought up to date. *)
Lemma find_stale fuel j ia_pos w c h :
  0 <= j -> (j + 1) * PAGE <= i_size -> h_bmp h = [j] -> in_use (K * (j + 1)) = true -> (2 <= fuel)%nat ->
  find fuel true (K * j) (K - 1) ia_pos (bmp j) (mk_rs w c h) = Ret (mk_rs w c (set_bmp (j + 1) h), NBuf (K * (j + 1)) 0 ia_pos (bmp (j + 1))).
Proof using All.
  intros Hj Hs Hh Hu Hf. destruct fuel as [|[|fuel]]; [lia..|]. cbn [find_buffer].
  rewrite (RM_run _ _ _ (mk_rs w c h) false) by done. cbn zeta.
  replace (Z.shiftr (K - 1 + 1) 3) with (page_size shift).
  2: { rewrite Z.shiftr_div_pow2 by lia. change (2 ^ 3) with 8. replace (K - 1 + 1) with (PAGE * 8) by lia. by rewrite Z.div_mul. }
  destruct (Z.geb_spec (page_size shift) (page_size shift)); [|lia].
  rewrite (next_page_spec j w c h Hj Hs Hh). unfold page_size. replace (K * j + PAGE * 8) with (K * (j + 1)) by lia.
  rewrite (RM_run _ _ _ (mk_rs w c (set_bmp (j + 1) h)) true); [done|].
  destruct (test_spec (j + 1) 0 ltac:(lia) ltac:(lia) ltac:(lia)) as (b & Eb & Hb).
  rewrite (RM_run _ _ _ _ _ (rlift_eq _ _ _ Eb)), Hb. by rewrite Z.add_0_r, Hu.
Qed.
End Bitmap.

(** ** The items at or behind a position *)

Definition items_from (fpos : Z) (l : list item) : list item := base.filter (fun x => fpos <= it_pos x) l.

Lemma items_from_app fpos l1 l2 : items_from fpos (l1 ++ l2) = items_from fpos l1 ++ items_from fpos l2.
Proof. apply filter_app. Qed.

Lemma items_from_all fpos l : Forall (fun x => fpos <= it_pos x) l -> items_from fpos l = l.
Proof. induction 1 as [|x l Hx _ IH]; [done|]. unfold items_from in *. rewrite filter_cons, decide_True by done. by f_equal. Qed.

Lemma items_from_none fpos l : Forall (fun x => it_pos x < fpos) l -> items_from fpos l = [].
Proof. induction 1 as [|x l Hx _ IH]; [done|]. unfold items_from in *. rewrite filter_cons, decide_False by lia. done. Qed.

Section Items.
Context {nls : nls_table} (show_sys_files : bool).

Lemma entry_item_pos pos d a x : entry_item show_sys_files pos d a = Some x -> it_pos x = pos.
Proof. unfold entry_item. destruct (_ || _); [done|]. destruct (shown_name (d_name d)); [by intros [= <-]|done]. Qed.

Lemma node_items_cons base fpos_base o d a es :
  node_items show_sys_files base fpos_base ((o, d, a) :: es) =
    match entry_item show_sys_files (o - base + fpos_base) d a with
    | Some x => x :: node_items show_sys_files base fpos_base es
    | None => node_items show_sys_files base fpos_base es
    end.
Proof. done. Qed.

Lemma node_items_pos base fpos_base lo hi es :
  Forall (fun x => lo <= x.1.1 - base + fpos_base < hi) es -> Forall (fun x => lo <= it_pos x < hi) (node_items show_sys_files base fpos_base es).
Proof.
  induction 1 as [|[[o d] a] es Hx _ IH]; [constructor|]. rewrite node_items_cons. destruct (entry_item _ _ d a) as [x|] eqn:E; [|done].
  apply entry_item_pos in E. constructor; [|done]. by rewrite E.
Qed.

Lemma node_items_from fpos base fpos_base es :
  items_from fpos (node_items show_sys_files base fpos_base es) = node_items show_sys_files base fpos_base (entries_from base (fpos - fpos_base) es).
Proof.
  induction es as [|[[o d] a] es IH]; [done|]. unfold entries_from in *. rewrite filter_cons, node_items_cons.
  destruct (entry_item show_sys_files (o - base + fpos_base) d a) as [x|] eqn:E.
  - apply entry_item_pos in E as Hx. unfold items_from in *. rewrite filter_cons, Hx.
    destruct (decide (fpos - fpos_base <= o - base)).
    + rewrite decide_True by lia. rewrite node_items_cons, E. by f_equal.
    + rewrite decide_False by lia. exact IH.
  - destruct (decide (fpos - fpos_base <= o - base)); [|exact IH]. by rewrite node_items_cons, E.
Qed.

Lemma entries_from_ext base f1 f2 es :
  Forall (fun x => f1 <= x.1.1 - base <-> f2 <= x.1.1 - base) es -> entries_from base f1 es = entries_from base f2 es.
Proof.
  induction 1 as [|[[o d] a] es Hx _ IH]; [done|]. unfold entries_from in *. rewrite !filter_cons. cbn in Hx.
  destruct (decide (f1 <= o - base)).
  - rewrite decide_True by tauto. by f_equal.
  - rewrite decide_False by tauto. done.
Qed.

Lemma entries_from_none base f es : Forall (fun x => x.1.1 - base < f) es -> entries_from base f es = [].
Proof. induction 1 as [|[[o d] a] es Hx _ IH]; [done|]. unfold entries_from in *. cbn in Hx. rewrite filter_cons, decide_False by lia. done. Qed.
End Items.

(** ** The index blocks *)

(** Index blocks with their entries. *)
Abbreviation blocks_t := (list (Z * list (Z * dirent * Z))).

Section Blocks.
Context {D : Type} (filldir : D -> list Z -> Z -> Z -> Z -> D * Z).
Context {nls : nls_table} {NA : NameAlloc} (Hnls : nls_sound).
Context (shift : Z) (read_ia_page read_bmp_page : Z -> Z + (list Z * bool)).
Context (ndir : index_inode) (block_size_bits i_size rs_bits : Z) (show_sys_files : bool) (bmp : Z -> list Z).
Hypothesis Hshift : 0 <= shift < 31.
Hypothesis Hsize : 0 <= i_size < 2 ^ 60.
Hypothesis Hbmp : bitmap_readable shift read_bmp_page i_size bmp.
Hypothesis Hbs : block_size ndir = 2 ^ block_size_bits.
Hypothesis Hvs : 0 <= vcn_size_bits ndir <= block_size_bits.
Hypothesis Hbp : block_size_bits <= shift.

Local Abbreviation PAGE := (2 ^ shift).
Local Abbreviation BS := (2 ^ block_size_bits).
Local Abbreviation K := (8 * 2 ^ shift).
Local Abbreviation RS := (mft_record_size rs_bits).
Local Abbreviation check := (check_buffer shift ndir).

(** The offset of index block [b] in its page. *)
Definition block_ofs (b : Z) : Z := (b * BS) mod PAGE.

(** Index block [b] is sound and has the entries [es].  It is one of the
    8 * PAGE_CACHE_SIZE blocks the first page of the index bitmap has a bit for:
    behind that page the code loses track of the page it has mapped (dir.c:1296,
    [find_stale]). *)
Record rblock_ok (b : Z) (es : list (Z * dirent * Z)) : Prop := {
  rb_range : 0 <= b < K /\ (b + 1) * BS <= i_size;
  rb_node : exists kaddr iend eo, map_ia_page read_ia_page (b * BS / PAGE) = inr kaddr /\
    check kaddr (b * BS) = Ret (Some (block_ofs b, b * BS, iend, Z.shiftr (b * BS) (vcn_size_bits ndir))) /\
    rd_le32 kaddr (block_ofs b + IA_index + IH_entries_offset) = Ret eo /\ 0 <= eo /\
    rentries_at kaddr iend (block_ofs b + IA_index + eo) es;
}.

Lemma page_split : PAGE = 2 ^ (shift - block_size_bits) * BS.
Proof. rewrite <- Z.pow_add_r by lia. f_equal. lia. Qed.

Lemma block_page b f : 0 <= b -> 0 <= f < BS -> (b * BS + f) / PAGE = b * BS / PAGE /\ (b * BS + f) mod PAGE = block_ofs b + f.
Proof.
  intros Hb Hf. unfold block_ofs. rewrite page_split. set (q := 2 ^ (shift - block_size_bits)).
  assert (0 < q) by (apply Z.pow_pos_nonneg; lia). assert (0 < BS) by lia.
  rewrite Z.mul_mod_distr_r by lia. rewrite (Z.div_mul_cancel_r b q BS) by lia.
  pose proof (Z.mod_pos_bound b q ltac:(lia)). pose proof (Z.div_mod b q ltac:(lia)).
  split; symmetry; [eapply Z.div_unique_pos with (r := b mod q * BS + f)|eapply Z.mod_unique_pos with (q := b / q)]; nia.
Qed.

(** A position inside the block gives the same block. *)
Lemma check_inside kaddr b f : 0 <= b -> 0 <= f < BS -> check kaddr (b * BS + f) = check kaddr (b * BS).
Proof.
  intros Hb Hf. unfold check_buffer, page_size. rewrite Hbs, !land_mask, !land_lnot_mask by lia.
  destruct (block_page b f Hb Hf) as [_ ->]. destruct (block_page b 0 Hb ltac:(lia)) as [_ H0]. rewrite Z.add_0_r, Z.add_0_r in H0. rewrite H0.
  assert (Ho : block_ofs b mod BS = 0).
  { unfold block_ofs. rewrite page_split, Z.mul_mod_distr_r by (try apply Z.pow_nonzero; lia). apply Z.mod_mul. lia. }
  rewrite Z.add_mod, Ho, Z.add_0_l, Z.mod_mod, (Z.mod_small f), Z.sub_0_r by lia.
  replace (block_ofs b + f - f) with (block_ofs b) by lia.
  rewrite Z.add_comm, Z.mod_add, (Z.mod_small f), Z.mod_mul, Z.sub_0_r by lia. by replace (f + b * BS - f) with (b * BS) by lia.
Qed.

Lemma check_end kaddr pos ia st iend vcn : check kaddr pos = Ret (Some (ia, st, iend, vcn)) -> iend <= ia + BS.
Proof.
  unfold check_buffer. rewrite Hbs. intros H.
  repeat (match type of H with
    | (if ?c then _ else _) = _ => destruct c eqn:?; [done|]
    | mbind _ ?o = _ => destruct o; try done; rewrite bind_Ret in H
    end; cbv zeta beta in H).
  injection H as <- _ <- _. lia.
Qed.

(** The page mapped and locked, if there is one, is that of [prev_ia_pos]. *)
Definition cached (prev_ia_pos : Z) (ia_page : option (Z * list Z)) (h : held) : Prop :=
  match ia_page with
  | None => prev_ia_pos = -1 /\ h_ia h = [] /\ h_locked h = []
  | Some (p, data) => 0 <= prev_ia_pos /\ p = prev_ia_pos / PAGE /\ map_ia_page read_ia_page p = inr data /\ h_ia h = [p] /\ h_locked h = [p]
  end.

Definition set_ia (p : Z) (h : held) : held := mk_held (h_bufs h) (h_bmp_vi h) (h_bmp h) [p] [p].

Lemma release_ia_spec prev ia_page w c h : cached prev ia_page h ->
  release_ia (D := D) ia_page (mk_rs w c h) = Ret (mk_rs w c (mk_held (h_bufs h) (h_bmp_vi h) (h_bmp h) [] []), tt).
Proof.
  destruct ia_page as [[p data]|]; cbn.
  - intros (_ & _ & _ & Hi & Hl). rewrite (RM_run _ _ _ _ _ (unlock_spec _ _ _ _ Hl)).
    unfold unmap_index_page, upd. cbn. rewrite Hi, bool_decide_eq_true_2 by by left. cbn. by rewrite Z.eqb_refl.
  - intros (_ & Hi & Hl). by destruct h; cbn in *; subst.
Qed.

Lemma page_of_pos_eq x : page_of_pos shift x = x / PAGE * PAGE.
Proof. unfold page_of_pos, page_size. rewrite land_lnot_mask by lia. pose proof (Z.div_mod x PAGE ltac:(lia)). lia. Qed.

Lemma map_buffer_spec prev ia_page pos data w c h :
  cached prev ia_page h -> 0 <= pos < 2 ^ 60 -> map_ia_page read_ia_page (pos / PAGE) = inr data ->
  exists prev', map_buffer (D := D) shift read_ia_page prev pos ia_page (mk_rs w c h) = Ret (mk_rs w c (set_ia (pos / PAGE) h), inr (prev', (pos / PAGE, data))) /\
    cached prev' (Some (pos / PAGE, data)) (set_ia (pos / PAGE) h).
Proof.
  intros Hc Hp Hd. unfold map_buffer. rewrite !page_of_pos_eq.
  destruct (Z.eqb_spec (prev / PAGE * PAGE) (pos / PAGE * PAGE)) as [E|E]; cbn [negb].
  - apply Z.mul_reg_r in E; [|lia]. destruct ia_page as [[p dt]|]; cbn in Hc.
    + destruct Hc as (H1 & -> & H3 & H4 & H5). rewrite E in *. rewrite Hd in H3. injection H3 as <-. exists prev. split; [|by split_and!].
      destruct h; cbn in *; by subst.
    + destruct Hc as (-> & _). exfalso. assert (0 <= pos / PAGE) by (apply Z.div_pos; lia).
      assert (-1 / PAGE < 0) by (apply Z.div_lt_upper_bound; lia). lia.
  - exists pos. split; [|cbn; split_and!; try done; lia]. rewrite (RM_run _ _ _ _ _ (release_ia_spec _ _ w c h Hc)). cbv zeta.
    rewrite Z.shiftr_div_pow2 by lia. assert (0 <= pos / PAGE <= pos) by (split; [apply Z.div_pos; lia|apply Z.div_le_upper_bound; nia]).
    rewrite u64_id by lia. unfold map_index_page. rewrite Hd.
    rewrite (RM_run _ _ _ (mk_rs w c (mk_held (h_bufs h) (h_bmp_vi h) (h_bmp h) [pos / PAGE] [])) (inr data)) by done.
    unfold lock_page. done.
Qed.

(** ** Walking over the blocks *)

(** The blocks in use from [b0] on, in order. *)
Record pending_ok (b0 : Z) (bl : blocks_t) : Prop := {
  po_sorted : StronglySorted (fun x y => x.1 < y.1) bl;
  po_blocks : Forall (fun '(b, es) => b0 <= b /\ rblock_ok b es) bl;
  po_used : forall b, b0 <= b -> in_use shift bmp b = true <-> b ∈ bl.*1;
}.

(** The items of block [b] at or behind an offset in it. *)
Definition block_items (from b : Z) (es : list (Z * dirent * Z)) : list item :=
  node_items show_sys_files (block_ofs b) (b * BS + RS) (entries_from (block_ofs b) from es).

Definition first_from (next : bool) (cur ia_pos b : Z) : Z := if negb next && (b =? cur) then ia_pos - b * BS else 0.

Definition pending_items (next : bool) (cur ia_pos : Z) (bl : blocks_t) : list item :=
  concat (map (fun '(b, es) => block_items (first_from next cur ia_pos b) b es) bl).

Lemma pending_next b0 b es bl : pending_ok b0 ((b, es) :: bl) -> pending_ok (b + 1) bl.
Proof using Hshift Hsize Hvs.
  intros [Hs Hb Hu]. apply StronglySorted_inv in Hs as [Hs Hlt]. apply list.Forall_cons in Hb as [[Hb0 _] Hb]. split; [done| |].
  - apply list.Forall_forall. intros [b' es'] Hin. rewrite list.Forall_forall in Hlt, Hb. specialize (Hlt _ Hin). specialize (Hb _ Hin). cbn in *. split; [lia|tauto].
  - intros b' Hb'. rewrite Hu by lia. cbn. rewrite elem_of_cons. split; [intros [->|]; [lia|done]|by right].
Qed.

Lemma pending_items_later next cur ia_pos b es bl b0 :
  pending_ok b0 ((b, es) :: bl) -> cur <= b -> pending_items next cur ia_pos bl = pending_items true b 0 bl.
Proof.
  intros Hp Hc. apply pending_next in Hp as [_ Hb _]. unfold pending_items. f_equal. apply map_ext_in. intros [b' es'] Hin%list_elem_of_In.
  rewrite list.Forall_forall in Hb. specialize (Hb _ Hin). cbn in Hb. unfold first_from. cbn [negb andb].
  rewrite (proj2 (Z.eqb_neq b' cur)) by lia. by rewrite andb_false_r.
Qed.

Local Abbreviation name_buf := (repeat 0 (Z.to_nat NAME_BUF_LEN)).
Local Abbreviation blocks_loop := (ia_loop filldir rs_bits shift read_ia_page read_bmp_page ndir block_size_bits i_size show_sys_files).

(** In the loop the buffer of the name, the bitmap inode and one page of the bitmap
    are held. *)
Definition loop_held (j : Z) (h : held) : Prop := h_bufs h = 1 /\ h_bmp_vi h = 1 /\ h_bmp h = [j].

(** Giving everything back at the end of the loop. *)
Lemma give_back {A} j w c (x : A) : 0 <= j -> j * PAGE <= i_size ->
  (unmap_bmp_page (bmp_index shift (K * j));; iput_bmp;; kfree;; mret x) (mk_rs w c (mk_held 1 1 [j] [] [])) = Ret (mk_rs (D := D) w c no_held, x).
Proof using All.
  intros Hj Hs. rewrite (bmp_index_page shift i_size) by done. unfold unmap_bmp_page, iput_bmp, kfree, upd, mbind, RM_bind. cbn.
  rewrite bool_decide_eq_true_2 by by left. cbn. by rewrite Z.eqb_refl.
Qed.

Definition loop_result (w : world) (r : D * option Z) : outcome (rstate D * (Z * Z)) :=
  match r with
  | (c, None) => Ret (mk_rs w c no_held, (0, i_size + RS))
  | (c, Some p) => Ret (mk_rs w c no_held, (0, p))
  end.

Lemma loop_end fuel next j cur ia_pos prev ia_page fpos w c h :
  0 <= j -> j * PAGE <= i_size -> 0 <= cur < K -> loop_held j h -> cached prev ia_page h ->
  K * j + cur + Z.b2z next <= 8 * i_size -> 8 * i_size + 2 < Z.of_nat fuel ->
  pending_ok (K * j + cur + Z.b2z next) [] ->
  blocks_loop fuel next name_buf fpos prev ia_page (K * j) cur ia_pos (bmp j) (mk_rs w c h) = Ret (mk_rs w c no_held, (0, i_size + RS)).
Proof using All.
  intros Hj Hs Hc (Hb1 & Hb2 & Hb3) Hca Hle Hf [_ _ Hu]. destruct fuel as [|fuel]; [lia|]. cbn [ia_loop].
  destruct (find_none (D := D) shift read_bmp_page block_size_bits i_size bmp Hshift Hsize Hbmp fuel next j cur ia_pos w c h) as (j' & Hj' & Hs' & E); try done; try nia.
  { intros b Hb. destruct (in_use shift bmp b) eqn:E; [|done]. by apply Hu, elem_of_nil in E. }
  rewrite (RM_run _ _ _ _ _ E). assert (Hca' : cached prev ia_page (set_bmp j' h)) by exact Hca.
  rewrite (RM_run _ _ _ _ _ (release_ia_spec _ _ w c _ Hca')). cbn. rewrite Hb1, Hb2. by apply give_back.
Qed.

Lemma block_entries_ofs b es x : rblock_ok b es -> x ∈ es -> 0 <= x.1.1 - block_ofs b < BS.
Proof using Hshift Hsize Hbs Hvs Hbp.
  intros [_ (kaddr & iend & eo & _ & Hchk & _ & Heo & Hent)] Hx. apply check_end in Hchk. apply rentries_order in Hent.
  rewrite list.Forall_forall in Hent. specialize (Hent x Hx). destruct x as [[o d] a]. cbn in *. unfold IA_index, IE_HEADER_SIZE in *. lia.
Qed.

(** One block: its items are delivered, and the loop goes on behind it. *)
Lemma loop_block fuel next cur ia_pos prev ia_page fpos w c h b es :
  0 <= cur -> cur + Z.b2z next <= b -> rblock_ok b es -> in_use shift bmp b = true -> (forall b', cur + Z.b2z next <= b' < b -> in_use shift bmp b' = false) ->
  (next = false -> cur * BS <= ia_pos < (cur + 1) * BS) -> loop_held 0 h -> cached prev ia_page h ->
  (length es < fuel)%nat -> 8 * i_size + 2 < Z.of_nat fuel ->
  exists fpos' prev' data ia_pos' h', loop_held 0 h' /\ cached prev' (Some data) h' /\
  blocks_loop (S fuel) next name_buf fpos prev ia_page 0 cur ia_pos (bmp 0) (mk_rs w c h) =
    match deliver filldir c (block_items (first_from next cur ia_pos b) b es) with
    | (c, None) => blocks_loop fuel true name_buf fpos' prev' (Some data) 0 b ia_pos' (bmp 0) (mk_rs w c h')
    | (c, Some p) => Ret (mk_rs w c no_held, (0, p))
    end.
Proof using All.
  intros Hc Hb Hblk Hu Hno Hpos (Hb1 & Hb2 & Hb3) Hca Hle Hf.
  pose proof Hblk as [[Hbr Hbsz] (kaddr & iend & eo & Hm & Hchk & Heo & Heo0 & Hent)].
  set (from := first_from next cur ia_pos b). set (pos := b * BS + from).
  assert (Hfrom : 0 <= from < BS).
  { unfold from, first_from. destruct next, (Z.eqb_spec b cur) as [->|]; cbn; lia. }
  assert (Hbi : b + 1 <= i_size) by nia.
  assert (Hb8 : b / 8 < i_size) by (apply Z.div_lt_upper_bound; lia).
  assert (Hbb : 0 <= b * BS /\ b * BS + BS <= i_size) by lia.
  assert (Hposb : 0 <= pos < 2 ^ 60) by (unfold pos; lia).
  cbn [ia_loop].
  rewrite (RM_run _ _ _ _ _ (find_some shift read_bmp_page block_size_bits i_size bmp Hshift Hsize Hbmp fuel next cur ia_pos b w c h Hc Hb ltac:(lia) Hb8 ltac:(lia) Hu Hno)).
  replace (if negb next && (b =? cur) then ia_pos else s64 (Z.shiftl b block_size_bits)) with pos.
  2: { unfold pos, from, first_from. destruct (negb next && (b =? cur)); [lia|]. rewrite Z.shiftl_mul_pow2, s64_id by (unfold S64_MIN, S64_MAX; lia). lia. }
  destruct (block_page b from ltac:(lia) Hfrom) as [Hpg _]. fold pos in Hpg. rewrite <- Hpg in Hm.
  destruct (map_buffer_spec prev ia_page pos kaddr w c h Hca Hposb Hm) as (prev' & Em & Hca'). rewrite (RM_run _ _ _ _ _ Em).
  assert (Hck : check kaddr pos = Ret (Some (block_ofs b, b * BS, iend, Z.shiftr (b * BS) (vcn_size_bits ndir)))) by (unfold pos; rewrite check_inside by lia; exact Hchk).
  rewrite (RM_run _ _ _ _ _ (rlift_eq _ _ _ Hck)), (RM_run _ _ _ _ _ (rlift_eq _ _ _ Heo)).
  replace (pos - b * BS) with from by (unfold pos; lia).
  replace (s64 (Z.shiftl (Z.shiftr (b * BS) (vcn_size_bits ndir)) (vcn_size_bits ndir))) with (b * BS).
  2: { rewrite Z.shiftl_mul_pow2, Z.shiftr_div_pow2 by lia. replace BS with (2 ^ (block_size_bits - vcn_size_bits ndir) * 2 ^ vcn_size_bits ndir).
       2: { rewrite <- Z.pow_add_r by lia. f_equal. lia. }
       rewrite Z.mul_assoc, Z.div_mul by lia. rewrite <- Z.mul_assoc, <- Z.pow_add_r by lia.
       replace (block_size_bits - vcn_size_bits ndir + vcn_size_bits ndir) with block_size_bits by lia. by rewrite s64_id by (unfold S64_MIN, S64_MAX; lia). }
  destruct (fill_loop_spec filldir Hnls show_sys_files kaddr (block_ofs b) iend from (b * BS + RS) (Some (pos / PAGE)) _ es Hent
    ltac:(unfold IA_index; lia) fuel w c (set_ia (pos / PAGE) h) fpos Hle ltac:(done)) as (fpos' & Ef).
  exists fpos', prev', (pos / PAGE, kaddr), pos, (set_ia (pos / PAGE) h). split; [by split_and!|]. split; [done|].
  unfold block_items. destruct (deliver filldir c _) as [c' [p|]]; rewrite (RM_run _ _ _ _ _ Ef); [|done].
  rewrite (RM_run _ _ _ (mk_rs w c' (mk_held 1 1 [0] [] [])) tt).
  2: { unfold unmap_index_page, upd. cbn. rewrite bool_decide_eq_true_2 by by left. cbn. by rewrite Z.eqb_refl, Hb1, Hb2, Hb3. }
  pose proof (give_back 0 w c' (0, p)) as G. rewrite Z.mul_0_r in G. apply G; lia.
Qed.

(** The loop delivers the items of the blocks that are left. *)
Lemma ia_loop_spec bl N : forall fuel next j cur ia_pos prev ia_page fpos w c h,
  0 <= j -> j * PAGE <= i_size -> 0 <= cur < K -> (j = 0 \/ bl = []) -> loop_held j h -> cached prev ia_page h ->
  K * j + cur + Z.b2z next <= 8 * i_size -> 8 * i_size + 2 < Z.of_nat N -> Forall (fun x => (length x.2 <= N)%nat) bl -> (length bl + N < fuel)%nat ->
  pending_ok (K * j + cur + Z.b2z next) bl -> (next = false -> cur * BS <= ia_pos < (cur + 1) * BS \/ bl = []) ->
  blocks_loop fuel next name_buf fpos prev ia_page (K * j) cur ia_pos (bmp j) (mk_rs w c h)
  = loop_result w (deliver filldir c (pending_items next cur ia_pos bl)).
Proof using All.
  induction bl as [|[b es] bl IH]; intros fuel next j cur ia_pos prev ia_page fpos w c h Hj Hs Hc Hj0 Hh Hca Hle HN Hlen Hf Hp Hpos.
  - apply loop_end; try done. cbn in Hf. lia.
  - destruct Hj0 as [->|]; [|done]. rewrite Z.mul_0_r, Z.add_0_l in *. destruct fuel as [|fuel]; [lia|].
    pose proof Hp as [Hst Hbl Hu]. pose proof (list.Forall_cons_1 _ _ _ Hbl) as [[Hb Hblk] _].
    apply list.Forall_cons in Hlen as [Hl1 Hlen]. cbn in Hl1, Hf.
    destruct (loop_block fuel next cur ia_pos prev ia_page fpos w c h b es) as (fpos' & prev' & data & ia_pos' & h' & Hh' & Hca' & E); try done; try lia.
    { apply Hu; [lia|]. cbn. left. }
    { intros b' Hb'. destruct (in_use shift bmp b') eqn:E'; [|done]. apply Hu in E'; [|lia]. cbn in E'. apply elem_of_cons in E' as [->|E']; [lia|].
      apply list_elem_of_fmap in E' as ([b'' es''] & -> & Hin). apply StronglySorted_inv in Hst as [_ Hlt]. rewrite list.Forall_forall in Hlt. specialize (Hlt _ Hin). cbn in *. lia. }
    { intros Hn. destruct (Hpos Hn); [done|done]. }
    rewrite E. unfold pending_items. cbn [map concat]. rewrite deliver_app. fold (pending_items next cur ia_pos bl).
    destruct (deliver filldir c (block_items _ b es)) as [c' [p|]]; [done|].
    rewrite (pending_items_later _ _ _ _ _ _ _ Hp) by (destruct next; cbn in Hb; lia).
    assert (Hcb : 0 <= b < K) by (destruct Hblk as [[? _] _]; lia).
    pose proof (IH fuel true 0 b ia_pos' prev' (Some data) fpos' w c' h' ltac:(lia) ltac:(lia) Hcb ltac:(by left) Hh' Hca') as IH'.
    rewrite Z.mul_0_r, Z.add_0_l in IH'. change (Z.b2z true) with 1 in IH'. apply IH'; try done; try lia.
    + destruct Hblk as [[_ ?] _]. nia.
    + by eapply pending_next.
Qed.

(** The items of all blocks. *)
Definition blocks_items (bl : blocks_t) : list item := concat (map (fun '(b, es) => block_items 0 b es) bl).

Lemma block_items_from ia_pos b es : 0 <= ia_pos -> rblock_ok b es ->
  items_from (ia_pos + RS) (block_items 0 b es) =
    if decide (ia_pos / BS <= b) then block_items (first_from false (ia_pos / BS) ia_pos b) b es else [].
Proof using Hshift Hsize Hbs Hvs Hbp.
  intros Hp Hb. assert (Ho : Forall (fun x => 0 <= x.1.1 - block_ofs b < BS) es).
  { apply list.Forall_forall. intros x Hx. by eapply block_entries_ofs. }
  unfold block_items. rewrite (entries_from_ext _ 0 (-1)), (entries_from_ext _ (-1) 0) by (eapply Forall_impl; [exact Ho|cbn; lia]).
  assert (Hall : entries_from (block_ofs b) 0 es = es).
  { clear -Ho. induction Ho as [|[[o d] a] es Hx _ IH]; [done|]. unfold entries_from in *. cbn in Hx. rewrite filter_cons, decide_True by lia. by f_equal. }
  rewrite Hall, node_items_from. replace (ia_pos + RS - (b * BS + RS)) with (ia_pos - b * BS) by lia.
  pose proof (Z.div_mod ia_pos BS ltac:(lia)). pose proof (Z.mod_pos_bound ia_pos BS ltac:(lia)).
  destruct (decide (ia_pos / BS <= b)) as [Hle|Hgt].
  - f_equal. unfold first_from. cbn [negb andb]. destruct (Z.eqb_spec b (ia_pos / BS)); [done|].
    apply entries_from_ext. eapply Forall_impl; [exact Ho|]. cbn. intros x Hx. nia.
  - rewrite entries_from_none; [done|]. eapply Forall_impl; [exact Ho|]. cbn. intros x Hx. nia.
Qed.

Lemma blocks_items_from ia_pos bl : 0 <= ia_pos -> Forall (fun '(b, es) => rblock_ok b es) bl ->
  items_from (ia_pos + RS) (blocks_items bl) = pending_items false (ia_pos / BS) ia_pos (base.filter (fun x => ia_pos / BS <= x.1) bl).
Proof using Hshift Hsize Hbs Hvs Hbp.
  intros Hp. induction 1 as [|[b es] bl Hb _ IH]; [done|]. unfold blocks_items in *. cbn [map concat]. rewrite items_from_app, IH, filter_cons, block_items_from by done.
  cbn [fst]. by destruct (decide (ia_pos / BS <= b)).
Qed.

Lemma pending_from b0 bl : 0 <= b0 -> pending_ok 0 bl -> pending_ok b0 (base.filter (fun x => b0 <= x.1) bl).
Proof using Hshift Hsize Hvs.
  intros H0 [Hs Hb Hu]. split.
  - clear -Hs. induction Hs as [|x bl Hs IH Hlt]; [constructor|]. rewrite filter_cons. destruct (decide (b0 <= x.1)); [|done].
    constructor; [done|]. rewrite list.Forall_forall in *. intros y [_ Hy]%list_elem_of_filter. by apply Hlt.
  - apply list.Forall_forall. intros [b es] [Hle Hin]%list_elem_of_filter. rewrite list.Forall_forall in Hb. specialize (Hb _ Hin). cbn in *. tauto.
  - intros b Hle. rewrite Hu by lia. rewrite !list_elem_of_fmap. split; intros (x & -> & Hx).
    + exists x. split; [done|]. by apply list_elem_of_filter.
    + apply list_elem_of_filter in Hx as [_ Hx]. by exists x.
Qed.
End Blocks.

(** ** From the attribute search to the copy of the index root *)

Definition add_buf (h : held) : held := mk_held (h_bufs h + 1) (h_bmp_vi h) (h_bmp h) (h_ia h) (h_locked h).

(** In a session in which the index root is found in the directory, the copy is the
    value of the attribute, and the record is released. *)
Lemma copy_root_spec {D} upcase upcase_len read_mapping_page mft_size rs_bits shift w i ndir m w3 actx value_length value_offset ir :
  8 <= rs_bits <= shift -> shift < 31 ->
  (forall n data err, read_mapping_page n = inr (data, err) -> zlen data = page_size shift /\ Forall byte_ok data) ->
  idx_name ndir = Some I30 -> idx_name_len ndir = 4 ->
  reaches_root upcase upcase_len read_mapping_page mft_size rs_bits shift w i ndir m w3 actx -> allocs w3 = [] ->
  rd_le32 (mrec actx) (attr actx + A_value_length) = Ret value_length -> 0 <= value_length < 2 ^ 31 ->
  rd_le16 (mrec actx) (attr actx + A_value_offset) = Ret value_offset ->
  rd_bytes (Z.to_nat value_length) (mrec actx) (attr actx + value_offset) = Ret ir ->
  exists w4 w', ntfs_attr_put_search_ctx actx w3 = Ret (w4, tt) /\ unmap_mft_record (idx_base_ni ndir) w4 = Ret (w', tt) /\
    released w (idx_base_ni ndir) i w' /\ forall (c : D) h,
    copy_index_root read_mapping_page mft_size rs_bits shift upcase upcase_len ndir (mk_rs w c h) = Ret (mk_rs w' c (add_buf h), inr ir).
Proof.
  intros Hbits Hshift Hpages Hn Hnl [Hc (w1 & w2 & actx0 & E1 & E2 & E3)] Hal Hvl Hvlr Hvo Hir.
  pose proof (lookup_prefix _ _ _ _ _ _ Hbits Hshift Hpages _ _ _ _ _ _ _ _ _ _ _ Hc E1 E2 E3) as Hinv.
  destruct (put_unmap _ _ _ _ _ _ _ _ Hc Hinv) as (w4 & w5 & E4 & E5 & Hrel). exists w4, w5. split_and!; try done. intros c h.
  assert (Hon : forall A (x : M A) u v a k, x u = Ret (v, a) -> on_world (D := D) x (mk_rs u c k) = Ret (mk_rs v c k, a)).
  { intros A x u v a k E. unfold on_world. cbn. by rewrite E. }
  rewrite Hn, Hnl in E3. unfold copy_index_root. cbv zeta.
  rewrite (RM_run _ _ _ _ _ (Hon _ _ _ _ _ _ E1)), (RM_run _ _ _ _ _ (Hon _ _ _ _ _ _ E2)), (RM_run _ _ _ _ _ (Hon _ _ _ _ _ _ E3)). cbn [Z.eqb negb].
  rewrite (RM_run _ _ _ _ _ (rlift_eq _ _ _ Hvl)). rewrite s32_id by lia. rewrite (proj2 (Z.ltb_ge value_length 0)) by lia.
  rewrite (RM_run _ _ _ (mk_rs w3 c (add_buf h)) true).
  2: { unfold kmalloc_buf. rewrite (RM_run _ _ _ (mk_rs w3 c h) true); [done|]. apply Hon. unfold alloc_ok. by rewrite Hal. }
  cbn [negb]. rewrite (RM_run _ _ _ _ _ (rlift_eq _ _ _ Hvo)), (RM_run _ _ _ _ _ (rlift_eq _ _ _ Hir)).
  by rewrite (RM_run _ _ _ _ _ (Hon _ _ _ _ _ _ E4)), (RM_run _ _ _ _ _ (Hon _ _ _ _ _ _ E5)).
Qed.

(** ** The whole directory *)

Section Whole.
Context {D : Type} (filldir : D -> list Z -> Z -> Z -> Z -> D * Z).
Context {nls : nls_table} {NA : NameAlloc}.
Context (read_mapping_page : Z -> Z + (list Z * bool)) (mft_size rs_bits shift : Z) (upcase : list Z) (upcase_len : Z).
Context (read_ia_page read_bmp_page : Z -> Z + (list Z * bool)) (bmp_iget : Z + Z).
Context (ndir : index_inode) (block_size_bits i_size i_ino parent_ino : Z) (show_sys_files : bool).

Local Abbreviation PAGE := (2 ^ shift).
Local Abbreviation BS := (2 ^ block_size_bits).
Local Abbreviation K := (8 * 2 ^ shift).
Local Abbreviation RS := (mft_record_size rs_bits).
Local Abbreviation copy_root := (copy_index_root (D := D) read_mapping_page mft_size rs_bits shift upcase upcase_len ndir).
Local Abbreviation readdir := (ntfs_readdir filldir read_mapping_page mft_size rs_bits shift upcase upcase_len read_ia_page read_bmp_page bmp_iget
  ndir block_size_bits i_size i_ino parent_ino show_sys_files).

(** The index allocation: none, or one whose blocks in use are [bl], which the first
    page of the bitmap covers. *)
Definition allocation_ok (bl : blocks_t) : Prop :=
  if index_alloc_present ndir then
    exists bmp bmp_size, bmp_iget = inr bmp_size /\ 0 < bmp_size /\ i_size <= 8 * bmp_size * BS /\
      bitmap_readable shift read_bmp_page i_size bmp /\
      pending_ok shift read_ia_page ndir block_size_bits i_size bmp 0 bl
  else bl = [] /\ i_size = 0.

(** A directory that can be read while the inodes and records are in a state of
    [ok].  In such a state the attribute search finds the index root in the mft
    record of the directory, its value being [ir], and giving the context and the
    record back leads to such a state again; memory can be allocated.  The index root
    is a node with the entries [res], and the index allocation is sound: see
    [allocation_ok] and [rblock_ok], which bounds the number of its blocks. *)
Record dir_ok (ok : world -> Prop) (ir : list Z) (res : list (Z * dirent * Z)) (bl : blocks_t) : Prop := {
  do_geometry : 8 <= rs_bits <= shift /\ shift < 31 /\ 0 <= i_size < 2 ^ 60 /\ block_size ndir = BS /\
    0 <= vcn_size_bits ndir <= block_size_bits /\ block_size_bits <= shift;
  do_pages : forall n data err, read_mapping_page n = inr (data, err) -> zlen data = page_size shift /\ Forall byte_ok data;
  do_name : idx_name ndir = Some I30 /\ idx_name_len ndir = 4;
  do_index_root : forall w, ok w -> exists i m w3 actx value_length value_offset,
    reaches_root upcase upcase_len read_mapping_page mft_size rs_bits shift w i ndir m w3 actx /\ allocs w3 = [] /\
    rd_le32 (mrec actx) (attr actx + A_value_length) = Ret value_length /\ 0 <= value_length < 2 ^ 31 /\
    rd_le16 (mrec actx) (attr actx + A_value_offset) = Ret value_offset /\
    rd_bytes (Z.to_nat value_length) (mrec actx) (attr actx + value_offset) = Ret ir /\
    forall w4 w5, ntfs_attr_put_search_ctx actx w3 = Ret (w4, tt) -> unmap_mft_record (idx_base_ni ndir) w4 = Ret (w5, tt) -> ok w5;
  do_alloc : forall w, ok w -> allocs w = [];
  do_root : exists ilen eo, rd_le32 ir (IR_index + IH_index_length) = Ret ilen /\ rd_le32 ir (IR_index + IH_entries_offset) = Ret eo /\
    0 <= eo /\ IR_index + ilen <= RS /\ rentries_at ir (IR_index + ilen) (IR_index + eo) res;
  do_blocks : allocation_ok bl;
}.

Definition dots : list item := [mk_item [46] 0 i_ino DT_DIR; mk_item [46; 46] 1 parent_ino DT_DIR].

(** What is to be seen in the directory. *)
Definition listing (res : list (Z * dirent * Z)) (bl : blocks_t) : list item :=
  dots ++ node_items show_sys_files 0 0 res ++ blocks_items shift block_size_bits rs_bits show_sys_files bl.

(** Enough fuel for every loop. *)
Definition readdir_fuel (res : list (Z * dirent * Z)) (bl : blocks_t) : nat :=
  (Z.to_nat (8 * i_size + 3) + length res + length bl + list_max (map (fun x => length x.2) bl) + 1)%nat.

Context (Hnls : nls_sound) (ok : world -> Prop) (ir : list Z) (res : list (Z * dirent * Z)) (bl : blocks_t).
Hypothesis Hdir : dir_ok ok ir res bl.

Local Abbreviation name_buf := (repeat 0 (Z.to_nat NAME_BUF_LEN)).

Lemma dir_geometry : 0 <= shift < 31 /\ 2 <= rs_bits < 31 /\ 0 <= i_size < 2 ^ 60 /\ block_size ndir = BS /\
  0 <= vcn_size_bits ndir <= block_size_bits /\ block_size_bits <= shift.
Proof using Hdir. destruct Hdir as [(H1 & H2 & H3) _ _ _ _ _ _]. split_and!; try lia; apply H3. Qed.

(** The copy of the index root succeeds. *)
Lemma copy_ok w : ok w -> exists w', ok w' /\ forall c h, copy_root (mk_rs w c h) = Ret (mk_rs w' c (add_buf h), inr ir).
Proof using Hdir.
  intros Hw. destruct Hdir as [(Hb & Hs & _) Hp [Hn Hnl] Hr _ _ _].
  destruct (Hr w Hw) as (i & m & w3 & actx & vl & vo & Hreach & Hal & Hvl & Hvl0 & Hvo & Hir & Hok).
  destruct (copy_root_spec (D := D) upcase upcase_len read_mapping_page mft_size rs_bits shift w i ndir m w3 actx vl vo ir)
    as (w4 & w5 & E4 & E5 & _ & E); try done. exists w5. split; [by apply (Hok w4)|done].
Qed.

Lemma list_max_le_elem l n : n ∈ l -> (n <= list_max l)%nat.
Proof. intros Hin. pose proof (proj1 (list_max_le l (list_max l)) ltac:(lia)) as H. rewrite List.Forall_forall in H. by apply H, list_elem_of_In. Qed.

(** Where the items are. *)
Lemma root_positions : Forall (fun x => 16 <= it_pos x < RS) (node_items show_sys_files 0 0 res).
Proof using Hdir.
  destruct Hdir as [_ _ _ _ _ (ilen & eo & _ & _ & Heo & Hil & Hent) _]. apply rentries_order in Hent.
  apply node_items_pos. eapply Forall_impl; [exact Hent|]. intros [[o d] a]. cbn. unfold IR_index, IE_HEADER_SIZE in *. lia.
Qed.

Lemma blocks_sound : Forall (fun '(b, es) => rblock_ok shift read_ia_page ndir block_size_bits i_size b es) bl.
Proof using Hdir.
  destruct Hdir as [_ _ _ _ _ _ Ha]. unfold allocation_ok in Ha. destruct (index_alloc_present ndir); [|destruct Ha as [-> _]; constructor].
  destruct Ha as (bmp & n & _ & _ & _ & _ & [_ Hb _]). eapply Forall_impl; [exact Hb|]. by intros [b es] [_ ?].
Qed.

Lemma block_positions : Forall (fun x => RS <= it_pos x < i_size + RS) (blocks_items shift block_size_bits rs_bits show_sys_files bl).
Proof using Hdir.
  destruct dir_geometry as (Hs & Hr & Hi & Hbs & Hvs & Hbp). unfold blocks_items. apply Forall_concat, Forall_map.
  eapply Forall_impl; [exact blocks_sound|]. intros [b es] Hb. apply node_items_pos. apply list.Forall_forall. intros x [_ Hx]%list_elem_of_filter.
  assert (Ho : 0 <= x.1.1 - block_ofs shift block_size_bits b < BS) by by eapply block_entries_ofs.
  destruct Hb as [[Hb1 Hb2] _]. nia.
Qed.

Local Abbreviation final := (loop_result (D := D) i_size rs_bits).

Lemma read_blocks_spec fpos fuel w c :
  RS <= fpos -> fpos = RS \/ fpos < i_size + RS -> index_alloc_present ndir = true -> (readdir_fuel res bl < fuel)%nat ->
  read_index_blocks filldir rs_bits shift read_ia_page read_bmp_page bmp_iget ndir block_size_bits i_size show_sys_files fuel name_buf fpos
    (mk_rs w c (mk_held 1 0 [] [] []))
  = final w (deliver filldir c (items_from fpos (blocks_items shift block_size_bits rs_bits show_sys_files bl))).
Proof using Hdir Hnls.
  intros Hf1 Hf2 Hal Hfuel. pose proof blocks_sound as Hbs0. destruct dir_geometry as (Hs & Hr & Hi & Hbs & Hvs & Hbp). pose proof (do_blocks _ _ _ _ Hdir) as Ha.
  unfold allocation_ok in Ha. rewrite Hal in Ha. destruct Ha as (bmp & n & Hig & Hn0 & Hn & Hbmp & Hpend).
  set (ia_pos := fpos - RS). set (P := ia_pos / BS). assert (HP : 0 <= P) by (apply Z.div_pos; unfold ia_pos; lia).
  pose proof (Z.div_mod ia_pos BS ltac:(lia)) as Hdm. fold P in Hdm. pose proof (Z.mod_pos_bound ia_pos BS ltac:(lia)) as Hmb.
  assert (HPi : P = 0 \/ P < i_size) by (unfold ia_pos in *; destruct Hf2; [left; unfold P; by rewrite Z.div_small by lia|right; nia]).
  assert (HK : page_size shift * 8 = 2 ^ (shift + 3)) by (unfold page_size; rewrite Z.pow_add_r by lia; lia).
  assert (HK8 : 2 ^ (shift + 3) = K) by (rewrite Z.pow_add_r by lia; lia).
  set (j := P / K). set (cur := P mod K). pose proof (Z.div_mod P K ltac:(lia)) as HPK. fold j cur in HPK.
  pose proof (Z.mod_pos_bound P K ltac:(lia)) as Hcur. fold cur in Hcur. assert (Hj : 0 <= j) by (apply Z.div_pos; lia).
  assert (Hjs : j * PAGE <= i_size) by nia.
  unfold read_index_blocks. fold ia_pos. cbv zeta. rewrite (RM_run _ _ _ (mk_rs w c (mk_held 1 1 [] [] [])) (inr n)) by (unfold iget_bmp; by rewrite Hig).
  rewrite !Z.shiftr_div_pow2 by lia. fold P. change (2 ^ 3) with 8.
  destruct (Z.geb_spec (P / 8) n) as [Hge|_].
  { exfalso. assert (8 * n <= P) by (pose proof (Z.div_mod P 8 ltac:(lia)); pose proof (Z.mod_pos_bound P 8 ltac:(lia)); lia).
    assert (i_size <= ia_pos) by nia. unfold ia_pos in *. destruct HPi; lia. }
  rewrite HK, land_mask, land_lnot_mask, HK8 by lia. fold cur. replace (P - cur) with (K * j) by lia.
  rewrite (bmp_index_page shift i_size) by done. destruct (Hbmp j Hj Hjs) as [Hmj _].
  rewrite (RM_run _ _ _ (mk_rs w c (mk_held 1 1 [j] [] [])) (inr (bmp j))) by (unfold map_bmp_page; by rewrite Hmj).
  set (bl' := base.filter (fun x => P <= x.1) bl).
  assert (Hp' : pending_ok shift read_ia_page ndir block_size_bits i_size bmp P bl') by by apply pending_from.
  assert (Hj0 : j = 0 \/ bl' = []).
  { destruct bl' as [|[b es] l]; [by right|]. left. destruct Hp' as [_ Hb _]. apply list.Forall_cons in Hb as [[Hb1 [[Hb2 _] _]] _]. nia. }
  assert (Hsub : Forall (fun x => (length x.2 <= Z.to_nat (8 * i_size + 3) + list_max (map (fun x => length x.2) bl))%nat) bl').
  { apply list.Forall_forall. intros x [_ Hx]%list_elem_of_filter. enough (length x.2 <= list_max (map (fun x => length x.2) bl))%nat by lia.
    apply list_max_le_elem, list_elem_of_In, in_map_iff. exists x. split; [done|by apply list_elem_of_In]. }
  rewrite (ia_loop_spec filldir Hnls shift read_ia_page read_bmp_page ndir block_size_bits i_size rs_bits show_sys_files bmp Hs Hi Hbmp Hbs Hvs Hbp
    bl' (Z.to_nat (8 * i_size + 3) + list_max (map (fun x => length x.2) bl)) fuel false j cur ia_pos (-1) None fpos w c (mk_held 1 1 [j] [] [])); try done; cbn [Z.b2z]; try lia.
  - f_equal. f_equal. replace fpos with (ia_pos + RS) by (unfold ia_pos; lia).
    rewrite (blocks_items_from shift read_ia_page ndir block_size_bits i_size rs_bits show_sys_files Hs Hi Hbs Hvs Hbp) by (unfold ia_pos; try lia; done). fold P bl'.
    destruct Hj0 as [Hj0| ->]; [|done]. by replace cur with P by lia.
  - unfold readdir_fuel in Hfuel. assert (length bl' <= length bl)%nat by apply length_filter. lia.
  - by rewrite Z.add_0_r, <- HPK.
  - intros _. destruct Hj0 as [Hj0| ->]; [left|by right]. replace cur with P by lia. lia.
Qed.

Lemma kfree_spec n w c (f : unit -> RM D (Z * Z)) : 0 < n ->
  (kfree ≫= f) (mk_rs w c (mk_held n 0 [] [] [])) = f tt (mk_rs w c (mk_held (n - 1) 0 [] [] [])).
Proof. intros Hn. apply RM_run. unfold kfree, upd. cbn. by rewrite (proj2 (Z.leb_gt n 0)). Qed.

Lemma items_later f1 f2 l : f1 <= f2 -> Forall (fun x => f2 <= it_pos x) l -> items_from f1 l = l /\ items_from f2 l = l.
Proof. intros Hf Hl. split; apply items_from_all; [|done]. eapply Forall_impl; [exact Hl|]. cbn. lia. Qed.

(** What is left of the directory behind the two first entries. *)
Definition body : list item := node_items show_sys_files 0 0 res ++ blocks_items shift block_size_bits rs_bits show_sys_files bl.

Lemma read_root_spec fpos fuel w c : 0 <= fpos < RS -> ok w -> (readdir_fuel res bl < fuel)%nat ->
  exists w', ok w' /\
  read_index_root filldir read_mapping_page mft_size rs_bits shift upcase upcase_len read_ia_page read_bmp_page bmp_iget ndir block_size_bits i_size show_sys_files
    fuel name_buf fpos (mk_rs w c (mk_held 1 0 [] [] [])) = final w' (deliver filldir c (items_from fpos body)).
Proof using Hdir Hnls.
  intros Hf Hw Hfuel. pose proof root_positions as Hrp. pose proof block_positions as Hbp.
  pose proof (fun w c => read_blocks_spec RS fuel w c ltac:(lia) ltac:(by left)) as Hblocks.
  pose proof (do_root _ _ _ _ Hdir) as (ilen & eo & Hil & Heo & Heo0 & Hle & Hent). pose proof (do_blocks _ _ _ _ Hdir) as Ha.
  destruct (copy_ok w Hw) as (w' & Hw' & E). exists w'. split; [done|]. unfold read_index_root. rewrite (RM_run _ _ _ _ _ (E c _)). cbv iota.
  rewrite (RM_run _ _ _ _ _ (rlift_eq _ _ _ Hil)), (RM_run _ _ _ _ _ (rlift_eq _ _ _ Heo)).
  destruct (fill_loop_spec filldir Hnls show_sys_files ir 0 (IR_index + ilen) fpos 0 None _ res Hent ltac:(unfold IR_index; lia) fuel w' c
    (add_buf (mk_held 1 0 [] [] [])) fpos ltac:(unfold readdir_fuel in Hfuel; lia) I) as (fpos' & Ef).
  unfold body. rewrite items_from_app, deliver_app, node_items_from, Z.sub_0_r.
  destruct (deliver filldir c (node_items show_sys_files 0 0 (entries_from 0 fpos res))) as [c' [p|]]; rewrite (RM_run _ _ _ _ _ Ef); cbv iota; unfold add_buf; cbn [h_bufs h_bmp_vi h_bmp h_ia h_locked page_unlocked].
  - rewrite !kfree_spec by lia. done.
  - rewrite kfree_spec by lia. unfold allocation_ok in Ha.
    destruct (items_later fpos RS (blocks_items shift block_size_bits rs_bits show_sys_files bl) ltac:(lia)) as [-> Hall].
    { eapply Forall_impl; [exact Hbp|]. cbn. lia. }
    destruct (index_alloc_present ndir); cbn [negb].
    + change (1 + 1 - 1) with 1. rewrite Hblocks by done. by rewrite Hall.
    + destruct Ha as [-> _]. rewrite kfree_spec by lia. done.
Qed.

Lemma fill_dots_spec fpos w c h : 0 <= fpos ->
  fill_dots filldir i_ino parent_ino fpos (mk_rs w c h) =
    match deliver filldir c (items_from fpos dots) with
    | (c, None) => Ret (mk_rs w c h, (Z.max fpos 2, false))
    | (c, Some p) => Ret (mk_rs w c h, (p, true))
    end.
Proof.
  intros Hf. unfold fill_dots, items_from, dots. rewrite !filter_cons, filter_nil. cbn [it_pos].
  destruct (Z.eqb_spec fpos 0) as [->|H0].
  - cbn [decide]. rewrite !decide_True by lia. cbn [deliver it_name it_pos it_ino it_type].
    destruct (filldir c [46] 0 i_ino DT_DIR) as [c1 rc] eqn:E1. unfold mbind at 1, RM_bind at 1.
    rewrite (RM_run _ _ _ _ _ (call_eq _ _ _ _ _ _ _ _ _ _ E1)). destruct (rc =? 0); cbn [negb mret]; unfold mret, RM_ret; rewrite bind_Ret; [|done].
    cbv iota. change (0 + 1 =? 1) with true. cbv iota.
    destruct (filldir c1 [46; 46] 1 parent_ino DT_DIR) as [c2 rc2] eqn:E2. rewrite (RM_run _ _ _ _ _ (call_eq _ _ _ _ _ _ _ _ _ _ E2)).
    by destruct (rc2 =? 0).
  - rewrite (RM_run _ _ _ (mk_rs w c h) (fpos, false)) by done. cbv iota. rewrite decide_False by lia.
    destruct (Z.eqb_spec fpos 1) as [->|H1].
    + rewrite decide_True by lia. cbn [deliver it_name it_pos it_ino it_type].
      destruct (filldir c [46; 46] 1 parent_ino DT_DIR) as [c2 rc2] eqn:E2. rewrite (RM_run _ _ _ _ _ (call_eq _ _ _ _ _ _ _ _ _ _ E2)).
      by destruct (rc2 =? 0).
    + rewrite decide_False by lia. cbn [deliver]. replace (Z.max fpos 2) with fpos by lia. done.
Qed.

Lemma listing_end : Forall (fun x => it_pos x < i_size + RS) (listing res bl).
Proof using Hdir.
  pose proof root_positions as Hrp. pose proof block_positions as Hbp. destruct dir_geometry as (Hs & Hr & Hi & _).
  assert (4 <= RS) by (unfold mft_record_size; change 4 with (2 ^ 2); apply Z.pow_le_mono_r; lia).
  unfold listing. rewrite !Forall_app. split_and!.
  - repeat constructor; cbn; lia.
  - eapply Forall_impl; [exact Hrp|]. cbn. lia.
  - eapply Forall_impl; [exact Hbp|]. cbn. lia.
Qed.

(** One call, from any position. *)
Lemma readdir_run fpos fuel w c : 0 <= fpos -> ok w -> (readdir_fuel res bl < fuel)%nat ->
  exists w', ok w' /\ readdir fuel fpos (mk_rs w c no_held) =
    match deliver filldir c (items_from fpos (listing res bl)) with
    | (c, None) => Ret (mk_rs w' c no_held, (0, Z.max fpos (i_size + RS)))
    | (c, Some p) => Ret (mk_rs w' c no_held, (0, p))
    end.
Proof using Hdir Hnls.
  intros Hf Hw Hfuel. pose proof root_positions as Hrp. pose proof block_positions as Hbp. pose proof listing_end as Hend.
  destruct dir_geometry as (Hs & Hr & Hi & _). pose proof (do_alloc _ _ _ _ Hdir) as Halloc. pose proof (do_blocks _ _ _ _ Hdir) as Ha.
  assert (HRS : 4 <= RS) by (unfold mft_record_size; change 4 with (2 ^ 2); apply Z.pow_le_mono_r; lia).
  unfold ntfs_readdir. destruct (Z.geb_spec fpos (i_size + RS)) as [Hge|Hlt].
  { exists w. split; [done|]. rewrite items_from_none by (eapply Forall_impl; [exact Hend|]; cbn; lia). cbn [deliver]. by rewrite Z.max_l by lia. }
  rewrite Z.max_r by lia. unfold listing. rewrite items_from_app, deliver_app. pose proof (fill_dots_spec fpos w c no_held Hf) as Ed.
  destruct (deliver filldir c (items_from fpos dots)) as [c1 [p|]]; rewrite (RM_run _ _ _ _ _ Ed); [by exists w|]. cbv iota.
  rewrite (RM_run _ _ _ (mk_rs w c1 (mk_held 1 0 [] [] [])) true).
  2: { unfold kmalloc_buf. rewrite (RM_run _ _ _ (mk_rs w c1 no_held) true); [done|]. unfold on_world, alloc_ok. cbn. by rewrite (Halloc w Hw). }
  cbn [negb]. fold body. destruct (Z.geb_spec (Z.max fpos 2) RS) as [Hge2|Hlt2].
  - rewrite Z.max_l in * by lia. exists w. split; [done|].
    assert (Hal : index_alloc_present ndir = true).
    { unfold allocation_ok in Ha. destruct (index_alloc_present ndir); [done|]. destruct Ha as [_ Ha]. lia. }
    rewrite read_blocks_spec by (try done; lia). unfold body. rewrite items_from_app, (items_from_none fpos (node_items _ _ _ _)); [done|].
    eapply Forall_impl; [exact Hrp|]. cbn. lia.
  - destruct (read_root_spec (Z.max fpos 2) fuel w c1 ltac:(lia) Hw Hfuel) as (w' & Hw' & E). exists w'. split; [done|]. rewrite E.
    replace (items_from fpos body) with (items_from (Z.max fpos 2) body); [done|].
    destruct (Z.max_spec fpos 2) as [[H2 ->]|[_ ->]]; [|done].
    assert (Hb : Forall (fun x => 2 <= it_pos x) body).
    { unfold body. apply Forall_app. split; [eapply Forall_impl; [exact Hrp|]|eapply Forall_impl; [exact Hbp|]]; cbn; lia. }
    by destruct (items_later fpos 2 body ltac:(lia) Hb) as [-> ->].
Qed.
End Whole.
