(* ===== verification/ReaddirLive.v ===== *)
(** * Reading a directory: repeated calls

    The claims about [ntfs_readdir]: what one call does, and that a reader who calls
    it again and again, each time with room for at least one entry, gets every entry
    of the directory exactly once and comes to the end. *)

From Stdlib Require Import ZArith Lia Bool.
From stdpp Require Import base list numbers option gmap sorting.
From S2P Require Import Prelude Endian Unistr UnistrNls Collate Attrib MftMap MftMapSpec AttrLookup AttrLookupTheorems AttrSession Statfs MftBitmap.
From S2P Require Import Index IndexSpec IndexTheorems Dir DirSpec DirTheorems Readdir ReaddirSpec ReaddirTheorems.

(** ** Positions are in order *)

Definition by_pos (x y : item) : Prop := it_pos x < it_pos y.

Lemma items_from_split l1 x l2 : StronglySorted by_pos (l1 ++ x :: l2) -> items_from (it_pos x) (l1 ++ x :: l2) = x :: l2.
Proof.
  rewrite StronglySorted_app. intros (H12 & _ & H2). rewrite items_from_app, (items_from_none (it_pos x) l1), (items_from_all (it_pos x) (x :: l2)); [done|..].
  - apply StronglySorted_inv in H2 as [_ H2]. constructor; [lia|]. eapply Forall_impl; [exact H2|]. unfold by_pos. lia.
  - apply list.Forall_forall. intros y Hy. apply H12; [done|left].
Qed.

Lemma items_from_twice p q l : p <= q -> items_from q (items_from p l) = items_from q l.
Proof.
  intros Hpq. induction l as [|x l IH]; [done|]. unfold items_from in *. rewrite !filter_cons.
  destruct (decide (p <= it_pos x)); rewrite ?filter_cons; destruct (decide (q <= it_pos x)); try lia; by rewrite ?IH.
Qed.

Lemma items_from_sorted p l : StronglySorted by_pos l -> StronglySorted by_pos (items_from p l).
Proof.
  induction 1 as [|x l Hs IH Hx]; [constructor|]. unfold items_from in *. rewrite filter_cons. destruct (decide _); [|done].
  constructor; [done|]. rewrite list.Forall_forall in *. intros y [_ Hy]%list_elem_of_filter. by apply Hx.
Qed.

Section Sorted.
Context {nls : nls_table} (show_sys_files : bool).

Lemma rentries_sorted mem iend off es : rentries_at mem iend off es -> StronglySorted (fun x y => x.1.1 < y.1.1) es.
Proof.
  induction 1 as [|off len flags child d a es Hd Hend Hlen _ _ _ Hr IH]; [constructor|]. constructor; [done|].
  eapply Forall_impl; [exact (rentries_order _ _ _ _ Hr)|]. intros [[o x] y]. cbn. lia.
Qed.

Lemma node_items_sorted base fpos_base es :
  StronglySorted (fun x y => x.1.1 < y.1.1) es -> StronglySorted by_pos (node_items show_sys_files base fpos_base es).
Proof.
  induction 1 as [|[[o d] a] es Hs IH Hx]; [constructor|]. rewrite node_items_cons. destruct (entry_item _ _ d a) as [x|] eqn:E; [|done].
  apply entry_item_pos in E. constructor; [done|]. clear -E Hx. unfold by_pos. rewrite E.
  induction Hx as [|[[o' d'] a'] es Ho _ IH]; [constructor|]. rewrite node_items_cons. destruct (entry_item _ _ d' a') as [y|] eqn:E'; [|done].
  apply entry_item_pos in E'. constructor; [rewrite E'; cbn in Ho; lia|done].
Qed.
End Sorted.

(** ** A reader *)

(** Takes items as long as it has room. *)
Definition take_item (d : list item * nat) (name : list Z) (pos ino type : Z) : (list item * nat) * Z :=
  match d.2 with O => (d, 1) | S n => ((d.1 ++ [mk_item name pos ino type], n), 0) end.

Lemma deliver_take l : forall acc room,
  deliver take_item (acc, room) l =
    if decide (length l <= room)%nat then ((acc ++ l, room - length l)%nat, None) else ((acc ++ take room l, O), it_pos <$> l !! room).
Proof.
  induction l as [|x l IH]; intros acc room; cbn [deliver length].
  - rewrite decide_True by lia. by rewrite app_nil_r, Nat.sub_0_r.
  - unfold take_item at 1. cbn [fst snd]. destruct room as [|room]; cbn [Z.eqb].
    + rewrite decide_False by lia. cbn. by rewrite app_nil_r.
    + rewrite IH, <- !app_assoc. destruct x. cbn. destruct (decide (length l <= room)%nat); [rewrite decide_True by lia|rewrite decide_False by lia]; done.
Qed.

Section Live.
Context {nls : nls_table} {NA : NameAlloc}.
Context (read_mapping_page : Z -> Z + (list Z * bool)) (mft_size rs_bits shift : Z) (upcase : list Z) (upcase_len : Z).
Context (read_ia_page read_bmp_page : Z -> Z + (list Z * bool)) (bmp_iget : Z + Z).
Context (ndir : index_inode) (block_size_bits i_size i_ino parent_ino : Z) (show_sys_files : bool).

Local Abbreviation RS := (mft_record_size rs_bits).
Local Abbreviation readdir := (ntfs_readdir take_item read_mapping_page mft_size rs_bits shift upcase upcase_len read_ia_page read_bmp_page bmp_iget
  ndir block_size_bits i_size i_ino parent_ino show_sys_files).
Local Abbreviation listed := (listing rs_bits shift block_size_bits i_ino parent_ino show_sys_files).
Local Abbreviation dir_ok := (dir_ok read_mapping_page mft_size rs_bits shift upcase upcase_len read_ia_page read_bmp_page bmp_iget
  ndir block_size_bits i_size).

(** One call for each number in [rooms]; an error ends the reading. *)
Fixpoint read_all (fuel : nat) (rooms : list nat) (w : world) (f_pos : Z) (acc : list item) : outcome (world * Z * list item * Z) :=
  match rooms with
  | [] => Ret (w, f_pos, acc, 0)
  | room :: rooms =>
      '(s, (err, f_pos)) ← readdir fuel f_pos (mk_rs w (acc, room) no_held);
      if err =? 0 then read_all fuel rooms (rs_world s) f_pos (rs_cb s).1 else Ret (rs_world s, f_pos, (rs_cb s).1, err)
  end.

Context (ok : world -> Prop) (ir : list Z) (res : list (Z * dirent * Z)) (bl : blocks_t).

Lemma filter_sorted {A} (R : A -> A -> Prop) (P : A -> Prop) `{forall x, Decision (P x)} l : StronglySorted R l -> StronglySorted R (base.filter P l).
Proof.
  induction 1 as [|x l Hs IH Hx]; [constructor|]. rewrite filter_cons. destruct (decide _); [|done].
  constructor; [done|]. rewrite list.Forall_forall in *. intros y [_ Hy]%list_elem_of_filter. by apply Hx.
Qed.

Lemma blocks_sorted : 0 <= shift < 31 -> 0 <= i_size < 2 ^ 60 -> block_size ndir = 2 ^ block_size_bits ->
  0 <= vcn_size_bits ndir <= block_size_bits -> block_size_bits <= shift ->
  StronglySorted (fun x y => x.1 < y.1) bl -> Forall (fun '(b, es) => rblock_ok shift read_ia_page ndir block_size_bits i_size b es) bl ->
  StronglySorted by_pos (blocks_items shift block_size_bits rs_bits show_sys_files bl).
Proof.
  intros Hs Hi Hbs Hvs Hbp Hsort Hok.
  assert (Hpos : forall b es x, rblock_ok shift read_ia_page ndir block_size_bits i_size b es -> x ∈ block_items shift block_size_bits rs_bits show_sys_files 0 b es ->
    b * 2 ^ block_size_bits + RS <= it_pos x < (b + 1) * 2 ^ block_size_bits + RS).
  { intros b es x Hb. unfold block_items. revert x. apply list.Forall_forall, node_items_pos, list.Forall_forall. intros y [_ Hy]%list_elem_of_filter.
    pose proof (block_entries_ofs shift read_ia_page ndir block_size_bits i_size Hs Hi Hbs Hvs Hbp b es y Hb Hy). lia. }
  unfold blocks_items. induction Hsort as [|[b es] l Hsort IH Hlt]; [constructor|]. apply list.Forall_cons in Hok as [Hb Hok]. cbn [map concat].
  apply StronglySorted_app_2; [|unfold block_items; apply node_items_sorted, filter_sorted|by apply IH].
  - intros x y Hx Hy. apply Hpos in Hx; [|done]. apply list_elem_of_In, in_concat in Hy as (l' & Hl' & Hy). apply in_map_iff in Hl' as ([b' es'] & <- & Hin).
    apply list_elem_of_In in Hin, Hy. rewrite list.Forall_forall in Hok, Hlt. specialize (Hok _ Hin). specialize (Hlt _ Hin). cbn in Hok, Hlt.
    apply Hpos in Hy; [|done]. unfold by_pos. nia.
  - destruct Hb as [_ (kaddr & iend & eo & _ & _ & _ & _ & Hent)]. by eapply rentries_sorted.
Qed.

Lemma listing_sorted : dir_ok ok ir res bl -> StronglySorted by_pos (listed res bl).
Proof.
  intros Hdir. pose proof (root_positions _ _ _ _ _ _ _ _ _ _ _ _ show_sys_files _ _ _ _ Hdir) as Hrp.
  pose proof (blocks_sound _ _ _ _ _ _ _ _ _ _ _ _ _ _ _ _ Hdir) as Hbs.
  pose proof (block_positions _ _ _ _ _ _ _ _ _ _ _ _ show_sys_files _ _ _ _ Hdir) as Hbp.
  pose proof (dir_geometry _ _ _ _ _ _ _ _ _ _ _ _ _ _ _ _ Hdir) as (Hs & Hr & Hi & Hb & Hv & Hp).
  destruct Hdir as [_ _ _ _ _ (ilen & eo & _ & _ & _ & _ & Hent) Ha].
  assert (HRS : 4 <= RS) by (unfold mft_record_size; change 4 with (2 ^ 2); apply Z.pow_le_mono_r; lia).
  rewrite list.Forall_forall in Hrp, Hbp. unfold listing. apply StronglySorted_app_2; [| |apply StronglySorted_app_2].
  - intros x y Hx [Hy|Hy]%elem_of_app; [apply Hrp in Hy|apply Hbp in Hy]; unfold dots in Hx; rewrite !elem_of_cons, elem_of_nil in Hx; unfold by_pos;
      destruct Hx as [->|[->|[]]]; cbn; lia.
  - repeat constructor; cbn; lia.
  - intros x y Hx%Hrp Hy%Hbp. unfold by_pos. lia.
  - apply node_items_sorted. by eapply rentries_sorted.
  - apply blocks_sorted; try done. unfold allocation_ok in Ha. destruct (index_alloc_present ndir); [|destruct Ha as [-> _]; constructor].
    by destruct Ha as (? & ? & _ & _ & _ & _ & [? _ _]).
Qed.

(** Reading on from a position with [l] still to come. *)
Lemma rest_from f_pos room x : dir_ok ok ir res bl -> let l := items_from f_pos (listed res bl) in
  l !! room = Some x -> f_pos <= it_pos x < i_size + RS /\ items_from (it_pos x) (listed res bl) = drop room l.
Proof.
  intros Hdir l Hx. pose proof (listing_sorted Hdir) as Hsort.
  pose proof (listing_end _ _ _ _ _ _ _ _ _ _ _ _ i_ino parent_ino show_sys_files _ _ _ _ Hdir) as Hend.
  pose proof (list_elem_of_lookup_2 _ _ _ Hx) as [Hle Hin]%list_elem_of_filter. rewrite list.Forall_forall in Hend. specialize (Hend x Hin).
  split; [lia|]. rewrite <- (items_from_twice f_pos) by done. fold l. rewrite (drop_S _ _ _ Hx).
  rewrite <- (take_drop_middle l room x Hx) at 1. apply items_from_split. rewrite take_drop_middle by done. by apply items_from_sorted.
Qed.

Lemma read_all_spec fuel rooms : nls_sound -> dir_ok ok ir res bl -> forall w f_pos acc,
  (readdir_fuel i_size res bl < fuel)%nat -> ok w -> 0 <= f_pos <= i_size + RS -> Forall (fun n => 1 <= n)%nat rooms ->
  (length (items_from f_pos (listed res bl)) < length rooms)%nat \/ f_pos = i_size + RS ->
  exists w', ok w' /\ read_all fuel rooms w f_pos acc = Ret (w', i_size + RS, acc ++ items_from f_pos (listed res bl), 0).
Proof.
  intros Hnls Hdir. pose proof (listing_end _ _ _ _ _ _ _ _ _ _ _ _ i_ino parent_ino show_sys_files _ _ _ _ Hdir) as Hend.
  assert (Hnone : items_from (i_size + RS) (listed res bl) = []) by by apply items_from_none.
  induction rooms as [|room rooms IH]; intros w f_pos acc Hf Hw Hp Hr Hlen.
  { destruct Hlen as [Hlen| ->]; [cbn in Hlen; lia|]. exists w. by rewrite Hnone, app_nil_r. }
  apply list.Forall_cons in Hr as [Hr1 Hr]. cbn [length] in Hlen.
  destruct (readdir_run take_item read_mapping_page mft_size rs_bits shift upcase upcase_len read_ia_page read_bmp_page bmp_iget ndir block_size_bits i_size
    i_ino parent_ino show_sys_files Hnls ok ir res bl Hdir f_pos fuel w (acc, room) ltac:(lia) Hw Hf) as (w' & Hw' & E).
  pose proof (rest_from f_pos room) as Hrest. rewrite deliver_take in E. set (l := items_from f_pos (listed res bl)) in *. cbn [read_all].
  destruct (decide (length l <= room)%nat) as [Hle|Hgt]; rewrite ?Z.max_r in E by lia.
  - rewrite E, bind_Ret. cbn [Z.eqb rs_world rs_cb fst].
    destruct (IH w' (i_size + RS) (acc ++ l)) as (w2 & Hw2 & E2); try done; [lia|by right|]. exists w2. split; [done|]. by rewrite E2, Hnone, app_nil_r.
  - destruct (l !! room) as [x|] eqn:Hx; [|apply lookup_ge_None in Hx; lia]. cbn [fmap option_fmap option_map] in E. destruct (Hrest x Hdir Hx) as [Hpos Hdrop].
    rewrite E, bind_Ret. cbn [Z.eqb rs_world rs_cb fst].
    destruct (IH w' (it_pos x) (acc ++ take room l)) as (w2 & Hw2 & E2); try done; [lia| |].
    + left. rewrite Hdrop, length_drop. destruct Hlen as [Hlen| ->]; [lia|]. unfold l in Hgt. rewrite Hnone in Hgt. cbn in Hgt. lia.
    + exists w2. split; [done|]. rewrite E2, Hdrop, <- app_assoc. by rewrite take_drop.
Qed.
End Live.

(** ** Claims *)

(** C24: One call of [ntfs_readdir] on a sound directory ([dir_ok]), at any position and
    with any callback.  The directory has at most 8 * PAGE_CACHE_SIZE index blocks, so
    that the first page of its bitmap covers them (behind it the code goes wrong,
    dir.c:1296, [find_stale]); the attribute search finds its index root; its pages can be
    read; and no allocation fails.  Then, with the fuel [readdir_fuel] for its loops it returns 0; the callback
    has got the entries to be seen at or behind the position, in the order of their
    positions (the two dots, the index root, the index blocks in use), until it
    refused one; the position is then that of the entry it refused, or the end of
    the directory; and the buffers, the bitmap inode and all pages are given back
    and unlocked. *)
Theorem readdir_correct {D : Type} (filldir : D -> list Z -> Z -> Z -> Z -> D * Z) `{nls_table} `{NameAlloc}
    read_mapping_page mft_size rs_bits shift upcase upcase_len read_ia_page read_bmp_page bmp_iget ndir block_size_bits i_size i_ino parent_ino show_sys_files
    ok ir res bl fpos fuel w c :
  nls_sound ->
  dir_ok read_mapping_page mft_size rs_bits shift upcase upcase_len read_ia_page read_bmp_page bmp_iget ndir block_size_bits i_size ok ir res bl ->
  0 <= fpos -> ok w -> (readdir_fuel i_size res bl < fuel)%nat ->
  exists w' c' p, ok w' /\
    ntfs_readdir filldir read_mapping_page mft_size rs_bits shift upcase upcase_len read_ia_page read_bmp_page bmp_iget ndir block_size_bits i_size
      i_ino parent_ino show_sys_files fuel fpos (mk_rs w c no_held) = Ret (mk_rs w' c' no_held, (0, p)) /\
    match deliver filldir c (items_from fpos (listing rs_bits shift block_size_bits i_ino parent_ino show_sys_files res bl)) with
    | (d, Some refused) => c' = d /\ p = refused
    | (d, None) => c' = d /\ p = Z.max fpos (i_size + mft_record_size rs_bits)
    end.
Proof.
  intros Hnls Hdir Hf Hw Hfuel.
  destruct (readdir_run filldir read_mapping_page mft_size rs_bits shift upcase upcase_len read_ia_page read_bmp_page bmp_iget ndir block_size_bits i_size
    i_ino parent_ino show_sys_files Hnls ok ir res bl Hdir fpos fuel w c Hf Hw Hfuel) as (w' & Hw' & E).
  destruct (deliver _ _ _) as [d [p|]]; eauto 10.
Qed.

(** C23: A sound directory ([dir_ok]: at most 8 * PAGE_CACHE_SIZE index blocks, because
    behind the first page of the bitmap the code repeats one block and skips another,
    dir.c:1296, [find_stale]; the attribute search finds the index root; all pages can be
    read; no allocation fails) is read to its end: whoever calls [ntfs_readdir] from the
    position 0 on, each time with room for at least one more entry, and more often
    than the directory has entries, has got every entry to be seen exactly once, in
    the order of positions, and is at the end of the directory. *)
Theorem readdir_live `{nls_table} `{NameAlloc}
    read_mapping_page mft_size rs_bits shift upcase upcase_len read_ia_page read_bmp_page bmp_iget ndir block_size_bits i_size i_ino parent_ino show_sys_files
    ok ir res bl fuel rooms w :
  nls_sound ->
  dir_ok read_mapping_page mft_size rs_bits shift upcase upcase_len read_ia_page read_bmp_page bmp_iget ndir block_size_bits i_size ok ir res bl ->
  ok w -> (readdir_fuel i_size res bl < fuel)%nat -> Forall (fun n => 1 <= n)%nat rooms ->
  let l := listing rs_bits shift block_size_bits i_ino parent_ino show_sys_files res bl in
  (length l < length rooms)%nat ->
  StronglySorted by_pos l /\ exists w', ok w' /\
    read_all read_mapping_page mft_size rs_bits shift upcase upcase_len read_ia_page read_bmp_page bmp_iget ndir block_size_bits i_size i_ino parent_ino show_sys_files
      fuel rooms w 0 [] = Ret (w', i_size + mft_record_size rs_bits, l, 0).
Proof.
  intros Hnls Hdir Hw Hfuel Hr l Hlen. pose proof (listing_sorted _ _ _ _ _ _ _ _ _ _ _ _ i_ino parent_ino show_sys_files _ _ _ _ Hdir) as Hsort. split; [done|].
  assert (Hall : items_from 0 l = l).
  { apply items_from_all. fold l in Hsort. unfold l, listing, dots in Hsort |- *. cbn [app] in *. apply StronglySorted_inv in Hsort as [_ Hs].
    constructor; [cbn; lia|]. eapply Forall_impl; [exact Hs|]. unfold by_pos. cbn. lia. }
  assert (0 <= i_size + mft_record_size rs_bits).
  { destruct Hdir as [(_ & _ & Hi & _) _ _ _ _ _ _]. unfold mft_record_size. lia. }
  destruct (read_all_spec _ _ _ _ _ _ _ _ _ _ _ _ i_ino parent_ino show_sys_files ok ir res bl fuel rooms Hnls Hdir w 0 [] Hfuel Hw ltac:(lia) Hr) as (w' & Hw' & E);
    [left; fold l; by rewrite Hall|]. exists w'. split; [done|]. rewrite E. fold l. by rewrite Hall.
Qed.

(** ** A directory to read

    The directory of [DirTheorems]: "Ab" in the index root, "AB" in the first index
    block; "C" in the second has a name of the DOS namespace and is not shown. *)

Definition demo_bmp (n : Z) : list Z := if n =? 0 then 3 :: repeat 0 4095 else [].
Definition demo_ir : list Z := demo_droot.
Definition demo_res : list (Z * dirent * Z) := [(32, demo_d 40, 0)].
Definition demo_bl : blocks_t := [(0, [(40, demo_d 41, 0)]); (1, [(552, demo_d 42, 0)])].

Lemma latin1_sound : @nls_sound latin1.
Proof.
  intros c space. cbn. destruct (Z.ltb_spec space 1); [done|]. destruct (c <? 0x100); [|done].
  unfold NLS_MAX_CHARSET_SIZE. change (zlen [c]) with 1. cbn. lia.
Qed.

Lemma demo_in_use b : 0 <= b -> in_use 12 demo_bmp b = true <-> b = 0 \/ b = 1.
Proof.
  intros Hb. unfold in_use, list_bit, demo_bmp. change (8 * 2 ^ 12) with 32768.
  pose proof (Z.div_mod b 32768 ltac:(lia)). pose proof (Z.mod_pos_bound b 32768 ltac:(lia)). set (q := b / 32768) in *. set (r := b mod 32768) in *.
  destruct (Z.eqb_spec q 0) as [Hq|Hq]; [|rewrite lookup_nil; cbn; rewrite Z.bits_0; split; [done|lia]].
  assert (Hr : r = b) by lia. rewrite Hr. destruct (decide (b < 8)) as [Hlt|Hge].
  - rewrite Z.div_small, Z.mod_small by lia. cbn. assert (Hin : In b (map Z.of_nat (seq 0 8))).
    { apply in_map_iff. exists (Z.to_nat b). rewrite in_seq. lia. }
    cbn in Hin. repeat destruct Hin as [<-|Hin]; [..|done]; (split; [intros Ht; vm_compute in Ht; first [discriminate|lia]|intros Ht; first [vm_compute; reflexivity|lia]]).
  - assert (1 <= b / 8) by (apply Z.div_le_lower_bound; lia). rewrite lookup_cons_ne_0 by lia.
    assert (default 0 (repeat 0 4095 !! Nat.pred (Z.to_nat (b / 8))) = 0) as ->.
    { destruct (repeat 0 4095 !! _) as [x|] eqn:E; [|done]. apply list_elem_of_lookup_2, list_elem_of_In, repeat_spec in E. done. }
    rewrite Z.bits_0. split; [done|lia].
Qed.

Lemma demo_rblock b es : (b, es) ∈ demo_bl -> rblock_ok 12 (demo_pages_of demo_dpage) demo_dirni 9 1024 b es.
Proof.
  intros [[= -> ->]|[[= -> ->]|[]%elem_of_nil]%elem_of_cons]%elem_of_cons; (split; [cbn; lia|]);
    [exists demo_dpage, 144, 16|exists demo_dpage, 656, 16]; (split_and!; [by vm_compute..|]).
  all: eapply (re_entry _ _ _ 88 0 None); [split; [by vm_compute|eexists; by vm_compute]|done|lia| |by vm_compute|by vm_compute|].
  1,3: split; [by vm_compute..|apply demo_char_ok|eexists; vm_compute; reflexivity].
  all: apply (re_last _ _ _ 16 2 None); [split; [by vm_compute|eexists; by vm_compute]|by vm_compute].
Qed.

Lemma demo_dir_ok : dir_ok (demo_pages_of demo_dmft) 4096 8 12 demo_upcase 128 (demo_pages_of demo_dpage) (demo_pages_of (demo_bmp 0)) (inr 8)
  demo_dirni 9 1024 (fun w => w = demo_dir_world) demo_ir demo_res demo_bl.
Proof.
  split.
  - cbn. lia.
  - intros n data err. unfold demo_pages_of. destruct (n =? 0); [|done]. intros [= <- <-]. split; [by vm_compute|]. apply (bool_decide_unpack _). by vm_compute.
  - done.
  - intros w ->. exists demo_dir_ino, demo_drecord, demo_dworld, demo_dactx, (zlen demo_ir), 32. split_and!; try (by vm_compute).
    + exact demo_dreaches.
    + intros w4 w5 E4 E5. vm_compute in E4. injection E4 as <-. vm_compute in E5. by injection E5 as <-.
  - by intros w ->.
  - exists 136, 16. split_and!; try by vm_compute.
    eapply (re_entry _ _ _ 96 1 (Some 0)); [split; [by vm_compute|eexists; by vm_compute]|by vm_compute|lia| |by vm_compute|by vm_compute|].
    + split; [by vm_compute..|apply demo_char_ok|eexists; vm_compute; reflexivity].
    + apply (re_last _ _ _ 24 3 (Some 1)); [split; [by vm_compute|eexists; by vm_compute]|by vm_compute].
  - exists demo_bmp, 8. split_and!; try done.
    + intros n Hn Hs. assert (n = 0) as -> by (change (2 ^ 12) with 4096 in Hs; lia). by vm_compute.
    + split.
      * repeat constructor.
      * repeat constructor; try lia; apply demo_rblock; [left|right; left].
      * intros b Hb. rewrite demo_in_use by done. cbn. rewrite !elem_of_cons, elem_of_nil. lia.
Qed.

Lemma readdir_correct_witness :
  let '(c, p) := deliver take_item ([], 3%nat) (items_from 0 (listing (nls := latin1) 8 12 9 2 2 false demo_res demo_bl)) in
  c = ([mk_item [46] 0 2 DT_DIR; mk_item [46; 46] 1 2 DT_DIR; mk_item [65; 98] 32 40 DT_REG], 0%nat) /\ p = Some 296 /\
  exists w', ntfs_readdir take_item (nls := latin1) (NA := UnistrNls.demo_names) (demo_pages_of demo_dmft) 4096 8 12 demo_upcase 128 (demo_pages_of demo_dpage) (demo_pages_of (demo_bmp 0)) (inr 8)
    demo_dirni 9 1024 2 2 false 10000 0 (mk_rs demo_dir_world ([], 3%nat) no_held) = Ret (mk_rs w' c no_held, (0, 296)).
Proof.
  destruct (readdir_correct take_item (H := latin1) (H0 := UnistrNls.demo_names) (demo_pages_of demo_dmft) 4096 8 12 demo_upcase 128 (demo_pages_of demo_dpage) (demo_pages_of (demo_bmp 0)) (inr 8)
    demo_dirni 9 1024 2 2 false (fun w => w = demo_dir_world) demo_ir demo_res demo_bl 0 10000 demo_dir_world ([], 3%nat) latin1_sound demo_dir_ok ltac:(lia) eq_refl)
    as (w' & c' & p & _ & E & Hd); [apply Nat.ltb_lt; by vm_compute|].
  split; [by vm_compute|]. split; [by vm_compute|]. exists w'. rewrite E. by destruct Hd as [-> ->].
Defined.

Lemma readdir_live_witness :
  exists w', read_all (nls := latin1) (NA := UnistrNls.demo_names) (demo_pages_of demo_dmft) 4096 8 12 demo_upcase 128 (demo_pages_of demo_dpage) (demo_pages_of (demo_bmp 0)) (inr 8)
    demo_dirni 9 1024 2 2 false 10000 [1; 1; 2; 1; 1]%nat demo_dir_world 0 []
  = Ret (w', 1280, [mk_item [46] 0 2 DT_DIR; mk_item [46; 46] 1 2 DT_DIR; mk_item [65; 98] 32 40 DT_REG; mk_item [65; 66] 296 41 DT_REG], 0).
Proof.
  destruct (readdir_live (H := latin1) (H0 := UnistrNls.demo_names) (demo_pages_of demo_dmft) 4096 8 12 demo_upcase 128 (demo_pages_of demo_dpage) (demo_pages_of (demo_bmp 0)) (inr 8)
    demo_dirni 9 1024 2 2 false (fun w => w = demo_dir_world) demo_ir demo_res demo_bl 10000 [1; 1; 2; 1; 1]%nat demo_dir_world latin1_sound demo_dir_ok eq_refl)
    as (_ & w' & _ & E); [apply Nat.ltb_lt; by vm_compute|repeat constructor|apply Nat.ltb_lt; by vm_compute|].
  exists w'. exact E.
Defined.
