(* ===== verification/PageRead.v ===== *)
(** * Reading pages

    Models [ntfs_end_buffer_async_read] and [ntfs_read_block] of
    [src/ntfs/aops.c]: a page of an attribute is filled from the blocks of the
    volume through buffer heads.

    The blocks are read asynchronously: [ntfs_read_block] returns with the buffers it
    has submitted, and the completion handler runs once for each, in any order. *)

From Stdlib Require Import ZArith Lia Bool.
From stdpp Require Import base list numbers option gmap.
From S2P Require Import Prelude Endian Runlist Mst AttrList.

(** ** Pages and buffers *)

(** [struct buffer_head], as far as it is used here. *)
Record buffer_head := mk_bh {
  bh_uptodate : bool;
  bh_mapped : bool;
  bh_locked : bool;
  bh_async_read : bool;
  b_blocknr : Z;
}.

Definition empty_bh : buffer_head := mk_bh false false false false 0.

(** [struct page]: its index and bytes, its buffers if it has any, its flags. *)
Record page := mk_page {
  pg_index : Z;
  pg_data : list Z;
  pg_buffers : option (list buffer_head);
  pg_uptodate : bool;
  pg_error : bool;
  pg_locked : bool;
}.

Definition set_data (d : list Z) (p : page) : page := mk_page (pg_index p) d (pg_buffers p) (pg_uptodate p) (pg_error p) (pg_locked p).
Definition set_buffers (b : list buffer_head) (p : page) : page := mk_page (pg_index p) (pg_data p) (Some b) (pg_uptodate p) (pg_error p) (pg_locked p).
Definition SetPageUptodate (p : page) : page := mk_page (pg_index p) (pg_data p) (pg_buffers p) true (pg_error p) (pg_locked p).
Definition SetPageError (p : page) : page := mk_page (pg_index p) (pg_data p) (pg_buffers p) (pg_uptodate p) true (pg_locked p).
(** [unlock_page]; unlocking a page that is not locked is a [BUG]. *)
Definition unlock_page (p : page) : outcome page :=
  if pg_locked p then Ret (mk_page (pg_index p) (pg_data p) (pg_buffers p) (pg_uptodate p) (pg_error p) false) else Bug.

Definition get_bh (p : page) (i : Z) : outcome buffer_head :=
  match pg_buffers p with Some b => rd b i | None => Fault end.
Definition put_bh (p : page) (i : Z) (bh : buffer_head) : outcome page :=
  match pg_buffers p with Some b => b ← wr b i bh; Ret (set_buffers b p) | None => Fault end.

(** [zero_user(page, start, size)] *)
Definition zero_user (p : page) (start size : Z) : outcome page := d ← memset0 (pg_data p) start size; Ret (set_data d p).

(** ** The completion of a read *)

(** The sizes of the attribute (inode.h): @allocated_size, @initialized_size and
    [i_size]. *)
Record sizes := mk_sizes { allocated_size : Z; initialized_size : Z; i_size : Z }.

(** [init_size], capped because of the race with a truncation *)
Definition capped_size (z : sizes) : Z := if initialized_size z >? i_size z then i_size z else initialized_size z.

(** Bytes as the [le16]s that the fixups work on, and back. *)
Fixpoint words_of (b : list Z) : list Z :=
  match b with lo :: hi :: b => lo + 0x100 * hi :: words_of b | _ => [] end.
Definition bytes_of (w : list Z) : list Z := concat (map (fun x => [x mod 0x100; x / 0x100]) w).

Section Page.
Context (PAGE_CACHE_SHIFT blocksize_bits : Z).

Definition PAGE_SIZE : Z := 2 ^ PAGE_CACHE_SHIFT.
Definition blocksize : Z := 2 ^ blocksize_bits.

(** The fixups of the [recs] records of the page from record [i] on; their results
    are ignored. *)
Fixpoint mst_records (recs : nat) (rec_size i : Z) (data : list Z) : outcome (list Z) :=
  match recs with
  | O => Ret data
  | S recs =>
      let ofs := Z.to_nat (i * rec_size) in
      r ← post_read_mst_fixup (words_of (drop ofs data)) rec_size;
      mst_records recs rec_size (i + 1) (take ofs data ++ bytes_of (fst r))
  end.

(** The loop over the buffers of the page, from the one that was read around to it
    again: whether all are up to date; [None] is [still_busy]. *)
Fixpoint all_read (ring : list buffer_head) (page_uptodate : bool) : outcome (option bool) :=
  match ring with
  | [] => Ret (Some page_uptodate)
  | bh :: ring =>
      let page_uptodate := page_uptodate && bh_uptodate bh in
      if bh_async_read bh then if bh_locked bh then Ret None else Bug
      else all_read ring page_uptodate
  end.

(** No read of the page is under way any more: the fixups, the flags and the unlock. *)
Definition finish_page (mst : option Z) (page_uptodate : bool) (p : page) : outcome page :=
  p ← match mst with
      | None => Ret p
      | Some rec_size =>
          let recs := PAGE_SIZE / rec_size in
          BUG_ON (recs =? 0);;
          d ← mst_records (Z.to_nat recs) rec_size 0 (pg_data p);
          Ret (set_data d p)
      end;
  unlock_page (if page_uptodate && negb (pg_error p) then SetPageUptodate p else p).

(** [bh_offset(bh)], [file_ofs] and the part of the block behind the initialized
    size, which is zeroed. *)
Definition zero_tail (z : sizes) (i : Z) (p : page) : outcome page :=
  let file_ofs := Z.shiftl (pg_index p) PAGE_CACHE_SHIFT + i * blocksize in
  let init_size := capped_size z in
  if file_ofs + blocksize >? init_size then
    let ofs := if file_ofs <? init_size then init_size - file_ofs else 0 in
    zero_user p (i * blocksize + ofs) (blocksize - ofs)
  else Ret p.

(** [mst] is the size of the records when [NInoMstProtected], [z] the sizes at the
    time of the completion, [i] the number of the buffer in the page. *)
Definition ntfs_end_buffer_async_read (z : sizes) (mst : option Z) (i : Z) (uptodate : bool) (p : page) : outcome page :=
  bh ← get_bh p i;
  p ← (if uptodate then
         p ← put_bh p i (mk_bh true (bh_mapped bh) (bh_locked bh) (bh_async_read bh) (b_blocknr bh));
         zero_tail z i p
       else
         p ← put_bh p i (mk_bh false (bh_mapped bh) (bh_locked bh) (bh_async_read bh) (b_blocknr bh));
         Ret (SetPageError p));
  bh ← get_bh p i;
  p ← put_bh p i (mk_bh (bh_uptodate bh) (bh_mapped bh) false false (b_blocknr bh));
  let bhs := default [] (pg_buffers p) in
  done ← all_read (drop (Z.to_nat i) bhs ++ take (Z.to_nat i) bhs) true;
  match done with
  | None => Ret p
  | Some page_uptodate => finish_page mst page_uptodate p
  end.
End Page.

(** ** The runlist of the attribute *)

(** What the reading of pages needs of the runlist: the runlist there is at the
    moment, and [ntfs_map_runlist], which is called without the runlist lock and
    returns 0 or an errno. *)
Class RunlistSource (ST : Type) := {
  rl_now : ST -> option rl_buf;
  rl_map : Z -> ST -> outcome (ST * Z);
}.

(** [while (rl->length && rl[1].vcn <= vcn) rl++;]: the rest of the runlist. *)
Fixpoint seek (rl : rl_buf) (vcn : Z) : outcome rl_buf :=
  match rl with
  | [] => Fault
  | r :: rest =>
      if negb (rl_length r =? 0) then
        match rest with
        | [] => Fault
        | r1 :: _ => if rl_vcn r1 <=? vcn then seek rest vcn else Ret rl
        end
      else Ret rl
  end.

Section ReadBlock.
Context {ST : Type} {RS : RunlistSource ST}.
Context (PAGE_CACHE_SHIFT blocksize_bits cluster_size_bits : Z).

(** The attribute, whether this task holds its runlist lock, and the page. *)
Record rstate := mk_rs { r_src : ST; r_lock : bool; r_page : page }.

Definition PM (A : Type) : Type := rstate -> outcome (rstate * A).
#[export] Instance PM_ret : MRet PM := fun A a s => Ret (s, a).
#[export] Instance PM_bind : MBind PM := fun A B f m s => '(s, a) ← m s; f a s.
Definition plift {A} (o : outcome A) : PM A := fun s => a ← o; Ret (s, a).
Definition asks {A} (f : rstate -> outcome A) : PM A := fun s => a ← f s; Ret (s, a).
Definition on_page (f : page -> outcome page) : PM unit := fun s => p ← f (r_page s); Ret (mk_rs (r_src s) (r_lock s) p, tt).

(** [down_read], with the runlist read under the lock, and [up_read] *)
Definition down_read : PM (option rl_buf) := fun s =>
  if r_lock s then Diverge else Ret (mk_rs (r_src s) true (r_page s), rl_now (r_src s)).
Definition up_read : PM unit := fun s =>
  if r_lock s then Ret (mk_rs (r_src s) false (r_page s), tt) else Bug.
Definition map_runlist (vcn : Z) : PM Z := fun s =>
  if r_lock s then Diverge else '(st, err) ← rl_map vcn (r_src s); Ret (mk_rs st false (r_page s), err).

(** Where a block is: on the volume, in a hole, or unknown because of an error. *)
Inductive place := AtLcn (lcn : Z) | InHole | NoPlace (err : Z).

(** The end of the runlist is a hole, anything else an error. *)
Definition classify (lcn err : Z) : place :=
  if (err =? - ENOENT) || (lcn =? LCN_ENOENT) then InHole else NoPlace (if err =? 0 then - EIO else err).

Definition find_lcn (rl : option rl_buf) (vcn : Z) : PM (option rl_buf * Z) :=
  match rl with
  | None => mret (None, LCN_RL_NOT_MAPPED)
  | Some b => b ← plift (seek b vcn); lcn ← plift (ntfs_rl_vcn_to_lcn (Some b) vcn); mret (Some b, lcn)
  end.

(** The LCN is not known and it is not tried again: the lock is dropped if there is
    no runlist. *)
Definition no_retry (rl : option rl_buf) (lcn : Z) : PM (option rl_buf * place) :=
  match rl with None => up_read | Some _ => mret tt end;;
  mret (rl, classify lcn 0).

(** The place of [vcn].  @rl is the runlist from where the last search ended, with
    the lock held, or NULL. *)
Definition resolve (rl : option rl_buf) (vcn : Z) : PM (option rl_buf * place) :=
  rl ← match rl with None => down_read | Some b => mret (Some b) end;
  x ← find_lcn rl vcn;
  let '(rl, lcn) := x in
  if lcn >=? 0 then mret (rl, AtLcn lcn)
  else if lcn =? LCN_HOLE then mret (rl, InHole)
  else if lcn =? LCN_RL_NOT_MAPPED then
    up_read;;
    err ← map_runlist vcn;
    if err =? 0 then
      rl ← down_read;
      x ← find_lcn rl vcn;
      let '(rl, lcn) := x in
      if lcn >=? 0 then mret (rl, AtLcn lcn)
      else if lcn =? LCN_HOLE then mret (rl, InHole)
      else no_retry rl lcn
    else mret (None, classify lcn err)
  else no_retry rl lcn.

(** [-1] as a block number *)
Definition NO_BLOCK : Z := 0xffffffffffffffff.

(** The body of the loop for buffer [i], block [iblock] of the attribute; [arr] are
    the buffers to read. *)
Definition read_buffer (lblock zblock i iblock : Z) (rl : option rl_buf) (arr : list Z) : PM (option rl_buf * list Z) :=
  bh ← asks (fun s => get_bh (r_page s) i);
  if bh_uptodate bh then mret (rl, arr)
  else if bh_mapped bh then mret (rl, arr ++ [i])
  else
    let vcn := Z.shiftr (s64 (Z.shiftl iblock blocksize_bits)) cluster_size_bits in
    let vcn_ofs := Z.land (s64 (Z.shiftl iblock blocksize_bits)) (2 ^ cluster_size_bits - 1) in
    x ← (if iblock <? lblock then resolve rl vcn else mret (rl, InHole));
    let '(rl, pl) := x in
    match pl with
    | AtLcn lcn =>
        let nr := Z.shiftr (s64 (Z.shiftl lcn cluster_size_bits) + vcn_ofs) blocksize_bits in
        on_page (fun p => put_bh p i (mk_bh (bh_uptodate bh) true (bh_locked bh) (bh_async_read bh) nr));;
        if iblock <? zblock then mret (rl, arr ++ [i])
        else
          on_page (fun p => zero_user p (i * blocksize blocksize_bits) (blocksize blocksize_bits));;
          on_page (fun p => put_bh p i (mk_bh true true (bh_locked bh) (bh_async_read bh) nr));;
          mret (rl, arr)
    | InHole =>
        on_page (fun p => put_bh p i (mk_bh (bh_uptodate bh) false (bh_locked bh) (bh_async_read bh) NO_BLOCK));;
        on_page (fun p => zero_user p (i * blocksize blocksize_bits) (blocksize blocksize_bits));;
        on_page (fun p => put_bh p i (mk_bh true false (bh_locked bh) (bh_async_read bh) NO_BLOCK));;
        mret (rl, arr)
    | NoPlace _ =>
        on_page (fun p => Ret (SetPageError p));;
        on_page (fun p => put_bh p i (mk_bh (bh_uptodate bh) false (bh_locked bh) (bh_async_read bh) NO_BLOCK));;
        on_page (fun p => zero_user p (i * blocksize blocksize_bits) (blocksize blocksize_bits));;
        mret (rl, arr)
    end.

Fixpoint read_buffers (n : nat) (lblock zblock i iblock : Z) (rl : option rl_buf) (arr : list Z) : PM (option rl_buf * list Z) :=
  match n with
  | O => mret (rl, arr)
  | S n =>
      x ← read_buffer lblock zblock i iblock rl arr;
      read_buffers n lblock zblock (i + 1) (iblock + 1) (fst x) (snd x)
  end.

(** The buffers are locked and marked; a buffer that is locked already is waited
    for. *)
Fixpoint lock_buffers (arr : list Z) (p : page) : outcome page :=
  match arr with
  | [] => Ret p
  | i :: arr =>
      bh ← get_bh p i;
      if bh_locked bh then Diverge
      else p ← put_bh p i (mk_bh (bh_uptodate bh) (bh_mapped bh) true true (b_blocknr bh)); lock_buffers arr p
  end.

(** Starting the i/o: the buffers submitted; one that has become up to date is
    completed at once. *)
Fixpoint submit_buffers (z : sizes) (mst : option Z) (arr : list Z) (p : page) : outcome (page * list Z) :=
  match arr with
  | [] => Ret (p, [])
  | i :: arr =>
      bh ← get_bh p i;
      if negb (bh_uptodate bh) then x ← submit_buffers z mst arr p; Ret (fst x, i :: snd x)
      else p ← ntfs_end_buffer_async_read PAGE_CACHE_SHIFT blocksize_bits z mst i true p; submit_buffers z mst arr p
  end.

Definition submit (z : sizes) (mst : option Z) (arr : list Z) : PM (list Z) := fun s =>
  x ← submit_buffers z mst arr (r_page s); Ret (mk_rs (r_src s) (r_lock s) (fst x), snd x).

(** The value returned and the buffers submitted.  [mft_data] holds for the unnamed
    data attribute of $MFT, [create_ok] when the buffers can be created. *)
Definition ntfs_read_block (z : sizes) (mst : option Z) (mft_data create_ok : bool) : PM (Z * list Z) :=
  rl ← asks (fun s => Ret (rl_now (r_src s)));
  plift (BUG_ON (bool_decide (rl = None) && mft_data));;
  has ← asks (fun s => Ret (bool_decide (is_Some (pg_buffers (r_page s)))));
  let n := 2 ^ (PAGE_CACHE_SHIFT - blocksize_bits) in
  if negb (has : bool) && negb create_ok then on_page unlock_page;; mret (- ENOMEM, [])
  else
    (if (has : bool) then (mret tt : PM unit) else on_page (fun p => Ret (set_buffers (repeat empty_bh (Z.to_nat n)) p)));;
    index ← asks (fun s => Ret (pg_index (r_page s)));
    let iblock := Z.shiftl index (PAGE_CACHE_SHIFT - blocksize_bits) in
    let lblock := Z.shiftr (allocated_size z + blocksize blocksize_bits - 1) blocksize_bits in
    let zblock := Z.shiftr (capped_size z + blocksize blocksize_bits - 1) blocksize_bits in
    x ← read_buffers (Z.to_nat n) lblock zblock 0 iblock None [];
    let '(rl, arr) := x in
    match rl with Some _ => up_read | None => mret tt end;;
    if negb (bool_decide (arr = [])) then
      on_page (lock_buffers arr);;
      sub ← submit z mst arr;
      mret (0, sub)
    else
      err ← asks (fun s => Ret (pg_error (r_page s)));
      if (err : bool) then on_page unlock_page;; mret (- EIO, [])
      else on_page (fun p => Ret (SetPageUptodate p));; on_page unlock_page;; mret (0, []).
End ReadBlock.

Arguments rstate : clear implicits.
Arguments PM : clear implicits.
