(* ===== verification/PageReadSpec.v ===== *)
(** * Reading pages: runlists and bytes

    The search of a VCN from where the last search ended, and writes to the blocks
    of a page. *)

From Stdlib Require Import ZArith Lia Bool.
From stdpp Require Import base list numbers option.
From S2P Require Import Prelude Endian Runlist Mst AttrList PageRead.

(** ** Searching on from the last place *)

(** The search of [ntfs_rl_vcn_to_lcn], on the list of the runs. *)
Fixpoint lookup_runs (rl : rl_buf) (vcn : Z) : outcome Z :=
  match rl with
  | [] => Fault
  | r :: rest =>
      if negb (rl_length r =? 0) then
        match rest with
        | [] => Fault
        | r1 :: _ =>
            if vcn <? rl_vcn r1 then Ret (if rl_lcn r >=? 0 then s64 (rl_lcn r + s64 (vcn - rl_vcn r)) else rl_lcn r)
            else lookup_runs rest vcn
        end
      else Ret (if rl_lcn r <? 0 then rl_lcn r else LCN_ENOENT)
  end.

Lemma loop_lookup_runs rl vcn : forall fuel pre, (length rl < fuel)%nat -> rl <> [] ->
  (res ← vcn_to_lcn_loop fuel (pre ++ rl) vcn (zlen pre);
   match res with
   | inl v => Ret v
   | inr i => r ← rd (pre ++ rl) i; if rl_lcn r <? 0 then Ret (rl_lcn r) else Ret LCN_ENOENT
   end) = lookup_runs rl vcn.
Proof.
  induction rl as [|r rest IH]; intros fuel pre Hf Hne; [done|]. destruct fuel as [|fuel]; [cbn in Hf; lia|]. cbn [vcn_to_lcn_loop lookup_runs].
  rewrite (rd_mid pre r rest (zlen pre) eq_refl). rewrite bind_Ret. destruct (rl_length r =? 0); cbn [negb].
  - rewrite bind_Ret, (rd_mid pre r rest (zlen pre) eq_refl), bind_Ret. by destruct (rl_lcn r <? 0).
  - destruct rest as [|r1 rest].
    + assert (rd (pre ++ [r]) (zlen pre + 1) = Fault) as ->; [|done]. unfold rd. rewrite (proj2 (Z.ltb_ge _ _)) by (pose proof (zlen_nonneg pre); lia).
      rewrite lookup_ge_None_2; [done|]. rewrite length_app. unfold zlen. cbn. lia.
    + replace (pre ++ r :: r1 :: rest) with ((pre ++ [r]) ++ r1 :: rest) by (by rewrite <- app_assoc).
      replace (zlen pre + 1) with (zlen (pre ++ [r])) by (rewrite zlen_app; done). rewrite (rd_mid (pre ++ [r]) r1 rest _ eq_refl), bind_Ret.
      destruct (vcn <? rl_vcn r1).
      * rewrite <- app_assoc. by destruct (rl_lcn r >=? 0).
      * by apply IH; [cbn in Hf |- *; lia|].
Qed.

(** The runs start at or before a VCN. *)
Definition starts_by (rl : rl_buf) (vcn : Z) : Prop := exists r0 rest, rl = r0 :: rest /\ rl_vcn r0 <= vcn.

Lemma lookup_runs_eq rl vcn : 0 <= vcn -> starts_by rl vcn -> ntfs_rl_vcn_to_lcn (Some rl) vcn = lookup_runs rl vcn.
Proof.
  intros Hv (r0 & rest & -> & Hr). unfold ntfs_rl_vcn_to_lcn, BUG_ON. rewrite (proj2 (Z.ltb_ge vcn 0)) by done. rewrite bind_Ret.
  rewrite (rd_mid [] r0 rest), bind_Ret by done. rewrite (proj2 (Z.ltb_ge vcn _)) by done.
  rewrite <- (loop_lookup_runs (r0 :: rest) vcn (scan_fuel (r0 :: rest)) []); [done|unfold scan_fuel; cbn; lia|done].
Qed.

(** Seeking to a VCN does not change what is found from there on. *)
Lemma seek_spec rl vcn x : lookup_runs rl vcn = Ret x -> starts_by rl vcn ->
  exists rl', seek rl vcn = Ret rl' /\ starts_by rl' vcn /\ forall v, vcn <= v -> lookup_runs rl' v = lookup_runs rl v.
Proof.
  induction rl as [|r rest IH]; [done|]. cbn [lookup_runs seek]. destruct (negb (rl_length r =? 0)) eqn:E.
  2: { intros _ Hs. eexists. split; [done|]. split; [done|]. intros v _. cbn [lookup_runs]. by rewrite E. }
  destruct rest as [|r1 rest]; [done|]. intros H Hs. destruct (Z.leb_spec (rl_vcn r1) vcn) as [Hle|Hgt].
  - rewrite (proj2 (Z.ltb_ge vcn _)) in H by done. destruct (IH H) as (rl' & E' & Hs' & Hv'); [by exists r1, rest|].
    exists rl'. split_and!; [done..|]. intros v Hv. rewrite Hv' by done. by rewrite (proj2 (Z.ltb_ge v _)) by lia.
  - eexists. split; [done|]. split; [done|]. intros v Hv. cbn [lookup_runs]. by rewrite E.
Qed.

(** ** Bytes of a page *)

(** [new] written over the bytes from [o] on. *)
Definition splice (d : list Z) (o : nat) (new : list Z) : list Z := take o d ++ new ++ drop (o + length new) d.

Lemma splice_lookup d o new j : (o + length new <= length d)%nat ->
  splice d o new !! j = if decide (o <= j < o + length new)%nat then new !! (j - o)%nat else d !! j.
Proof.
  intros H. unfold splice. assert (Ht : length (take o d) = o) by (rewrite length_take; lia).
  destruct (decide (j < o)%nat).
  - rewrite lookup_app_l by lia. rewrite lookup_take_lt by lia. by rewrite decide_False by lia.
  - rewrite lookup_app_r, Ht by lia. destruct (decide (j < o + length new)%nat).
    + rewrite decide_True by lia. by rewrite lookup_app_l by lia.
    + rewrite decide_False, lookup_app_r, lookup_drop by lia. f_equal. lia.
Qed.

Lemma splice_length d o new : (o + length new <= length d)%nat -> length (splice d o new) = length d.
Proof. intros H. unfold splice. rewrite !length_app, length_take, length_drop. lia. Qed.

Lemma memset0_splice d o n : 0 <= o -> 0 <= n -> o + n <= zlen d -> memset0 d o n = Ret (splice d (Z.to_nat o) (repeat 0 (Z.to_nat n))).
Proof.
  intros Ho Hn H. unfold memset0, blit, splice, zlen in *. rewrite !repeat_length.
  rewrite !(proj2 (Z.leb_le _ _)) by lia. cbn [andb]. change (Z.to_nat 0) with 0%nat. rewrite drop_0, (take_ge (repeat 0 _)) by (rewrite repeat_length; lia).
  rewrite Z2Nat.inj_add by lia. done.
Qed.

Section Slices.
Context (bs : nat).

(** Block [k] of a page. *)
Definition slice (k : nat) (d : list Z) : list Z := take bs (drop (k * bs) d).

Lemma slice_lookup k d j : slice k d !! j = if decide (j < bs)%nat then d !! (k * bs + j)%nat else None.
Proof.
  unfold slice. destruct (decide (j < bs)%nat); [by rewrite lookup_take_lt, lookup_drop by done|].
  rewrite lookup_ge_None_2; [done|]. rewrite length_take. lia.
Qed.

Lemma slice_length k d n : length d = (n * bs)%nat -> (k < n)%nat -> length (slice k d) = bs.
Proof. intros Hd Hk. unfold slice. rewrite length_take, length_drop, Hd. nia. Qed.

(** A write inside block [k] changes this block and no other. *)
Lemma slice_splice k k' d o new n : length d = (n * bs)%nat -> (k < n)%nat -> (o + length new <= bs)%nat ->
  slice k' (splice d (k * bs + o) new) = if decide (k' = k) then splice (slice k d) o new else slice k' d.
Proof.
  intros Hd Hk Ho. assert (Hl : (k * bs + o + length new <= length d)%nat) by nia. apply list_eq. intros j. rewrite slice_lookup, splice_lookup by done.
  destruct (decide (k' = k)) as [->|Hne].
  - rewrite splice_lookup by (rewrite (slice_length k d n) by done; lia). rewrite slice_lookup.
    destruct (decide (j < bs)%nat).
    + destruct (decide (o <= j < o + length new)%nat); [rewrite decide_True by lia; f_equal; lia|by rewrite decide_False by lia].
    + by rewrite decide_False by lia.
  - rewrite slice_lookup. destruct (decide (j < bs)%nat); [|done]. rewrite decide_False; [done|]. nia.
Qed.

(** The blocks make up the page. *)
Lemma slices_concat d n (f : nat -> list Z) : length d = (n * bs)%nat -> (forall k, (k < n)%nat -> slice k d = f k) -> d = concat (map f (seq 0 n)).
Proof.
  revert d f. induction n as [|n IH]; intros d f Hd Hf; [by destruct d|].
  rewrite <- (take_drop bs d). cbn [seq map concat]. f_equal.
  - rewrite <- (Hf 0%nat) by lia. unfold slice. by rewrite Nat.mul_0_l, drop_0.
  - rewrite <- seq_shift, map_map. apply IH; [rewrite length_drop; lia|]. intros k Hk. rewrite <- Hf by lia. unfold slice. rewrite drop_drop. f_equal.
Qed.
End Slices.

(** ** The bytes of an attribute

    What a page is to hold, said by byte, and the blocks that are read, zeroed or
    partly zeroed for it. *)

Lemma repeat_lookup (n j : nat) (x : Z) : repeat x n !! j = if decide (j < n)%nat then Some x else None.
Proof. revert j. induction n as [|n IH]; intros [|j]; cbn; try done. rewrite IH. repeat case_decide; done || lia. Qed.

Section Bytes.
Context (psh bb cb : Z) (z : sizes) (lcn_of : Z -> Z) (dev : Z -> Z) (index : Z).

Hypothesis Hbits : 0 <= bb <= psh /\ bb <= cb.
Hypothesis Hsizes : 0 <= capped_size z <= allocated_size z.
Hypothesis Hindex : 0 <= index /\ (index + 1) * 2 ^ psh <= S64_MAX.
Hypothesis Hlcn : forall v, lcn_of v * 2 ^ cb <= S64_MAX.

(** Byte [pos] of the attribute: a byte of the volume ([dev]), or zero in a hole and
    behind the initialized size. *)
Definition attr_byte (pos : Z) : Z :=
  let lcn := lcn_of (pos / 2 ^ cb) in
  if (pos <? capped_size z) && (0 <=? lcn) then dev (lcn * 2 ^ cb + pos mod 2 ^ cb) else 0.

(** The sizes of a block and of a page in blocks. *)
Definition bsz : nat := Z.to_nat (2 ^ bb).
Definition nblk : nat := Z.to_nat (2 ^ (psh - bb)).
(** Where block [k] of the page is in the attribute. *)
Definition pos_of (k : nat) : Z := index * 2 ^ psh + Z.of_nat k * 2 ^ bb.
(** What block [k] of the page is to hold. *)
Definition want (k : nat) : list Z := map (fun j => attr_byte (pos_of k + Z.of_nat j)) (seq 0 bsz).
(** What the device holds in block [nr]. *)
Definition dev_block (nr : Z) : list Z := map (fun j => dev (nr * 2 ^ bb + Z.of_nat j)) (seq 0 bsz).
(** The number of the block at the place [lcn] for block [k] of the page. *)
Definition nr_of (k : nat) (lcn : Z) : Z := Z.shiftr (s64 (Z.shiftl lcn cb) + pos_of k mod 2 ^ cb) bb.

Lemma bsz_pos : (0 < bsz)%nat /\ Z.of_nat bsz = 2 ^ bb.
Proof using Hbits. clear Hlcn Hindex Hsizes. pose proof (Z.pow_pos_nonneg 2 bb). unfold bsz. lia. Qed.

Lemma page_blocks : 2 ^ psh = Z.of_nat nblk * 2 ^ bb /\ (0 < nblk)%nat /\ Z.of_nat nblk = 2 ^ (psh - bb).
Proof using Hbits.
  clear Hlcn Hindex Hsizes. pose proof (Z.pow_pos_nonneg 2 (psh - bb)). unfold nblk. rewrite Z2Nat.id by lia. rewrite <- Z.pow_add_r by lia.
  split; [f_equal; lia|lia].
Qed.

Lemma page_size_nat : Z.to_nat (2 ^ psh) = (nblk * bsz)%nat.
Proof using Hbits. destruct bsz_pos as [_ Hb]. destruct page_blocks as (Hp & _). rewrite Hp, <- Hb. lia. Qed.

Lemma pos_of_range k : (k < nblk)%nat -> 0 <= pos_of k /\ pos_of k + 2 ^ bb <= S64_MAX.
Proof using Hbits Hindex.
  clear Hlcn. destruct page_blocks as (Hp & _). destruct bsz_pos as [_ Hb]. intros Hk. unfold pos_of. split; [nia|].
  assert ((Z.of_nat k + 1) * 2 ^ bb <= 2 ^ psh) by (rewrite Hp; apply Z.mul_le_mono_nonneg_r; lia). lia.
Qed.

Lemma pos_of_block k : pos_of k = (Z.shiftl index (psh - bb) + Z.of_nat k) * 2 ^ bb.
Proof using Hbits.
  clear Hlcn. unfold pos_of. rewrite Z.shiftl_mul_pow2 by lia. destruct page_blocks as (Hp & _ & Hn). rewrite <- Hn, Hp. lia.
Qed.

Lemma cluster_in_blocks : 2 ^ cb = 2 ^ (cb - bb) * 2 ^ bb /\ 0 < 2 ^ (cb - bb).
Proof using Hbits. clear Hlcn. rewrite <- Z.pow_add_r by lia. split; [f_equal; lia|]. apply Z.pow_pos_nonneg; lia. Qed.

(** A block lies in one cluster. *)
Lemma block_in_cluster k j : 0 <= j < 2 ^ bb ->
  (pos_of k + j) / 2 ^ cb = pos_of k / 2 ^ cb /\ (pos_of k + j) mod 2 ^ cb = pos_of k mod 2 ^ cb + j.
Proof using Hbits.
  clear Hlcn. intros Hj. rewrite pos_of_block. set (i := Z.shiftl index (psh - bb) + Z.of_nat k). destruct cluster_in_blocks as [Hc Hd]. rewrite Hc. set (C := 2 ^ (cb - bb)) in *. set (B := 2 ^ bb) in *.
  assert (HB : 0 < B) by lia. pose proof (Z.mod_pos_bound i C Hd) as Hm. pose proof (Z.div_mod i C ltac:(lia)) as Hi.
  assert (E : i * B = C * B * (i / C) + (i mod C) * B) by (rewrite Hi at 1; ring).
  assert (Hb : (i mod C) * B + j < C * B) by (assert ((i mod C + 1) * B <= C * B) by (apply Z.mul_le_mono_nonneg_r; lia); lia).
  assert (H0 : 0 <= (i mod C) * B) by (apply Z.mul_nonneg_nonneg; lia).
  rewrite E. split.
  - rewrite <- (Z.div_unique (C * B * (i / C) + i mod C * B + j) (C * B) (i / C) (i mod C * B + j)) by lia.
    by rewrite <- (Z.div_unique (C * B * (i / C) + i mod C * B) (C * B) (i / C) (i mod C * B)) by lia.
  - rewrite <- (Z.mod_unique (C * B * (i / C) + i mod C * B + j) (C * B) (i / C) (i mod C * B + j)) by lia.
    by rewrite <- (Z.mod_unique (C * B * (i / C) + i mod C * B) (C * B) (i / C) (i mod C * B)) by lia.
Qed.

(** The block that is read starts at the byte of the volume that the cluster gives. *)
Lemma nr_of_block k v : 0 <= lcn_of v -> nr_of k (lcn_of v) * 2 ^ bb = lcn_of v * 2 ^ cb + pos_of k mod 2 ^ cb.
Proof using Hbits Hlcn.
  intros H0. unfold nr_of. pose proof (Hlcn v) as Hl. clear Hlcn. rewrite Z.shiftl_mul_pow2 by lia. destruct cluster_in_blocks as [Hc Hd].
  rewrite s64_id by (unfold S64_MIN, S64_MAX in *; lia). rewrite Z.shiftr_div_pow2 by lia.
  rewrite pos_of_block, Hc, Z.mul_mod_distr_r by lia. rewrite Z.mul_assoc, <- Z.mul_add_distr_r. rewrite Z.div_mul by lia. ring.
Qed.

Lemma want_lookup k j : want k !! j = if decide (j < bsz)%nat then Some (attr_byte (pos_of k + Z.of_nat j)) else None.
Proof using Type.
  unfold want. rewrite list_lookup_fmap. destruct (decide (j < bsz)%nat).
  - by rewrite lookup_seq_lt by done.
  - by rewrite lookup_seq_ge by lia.
Qed.

Lemma want_length k : length (want k) = bsz.
Proof using Type. unfold want. by rewrite length_map, length_seq. Qed.

(** Blocks to be zeroed: no place on the volume, or nothing initialized. *)
Lemma want_zero k : (k < nblk)%nat -> lcn_of (pos_of k / 2 ^ cb) < 0 \/ capped_size z <= pos_of k -> want k = repeat 0 bsz.
Proof using Hbits Hindex.
  clear Hlcn Hsizes. intros Hk Hz. destruct bsz_pos as [_ Hb]. apply list_eq. intros j. rewrite want_lookup, repeat_lookup. case_decide as Hj; [|done]. f_equal.
  unfold attr_byte. destruct (block_in_cluster k (Z.of_nat j)) as [-> _]; [lia|]. destruct Hz as [Hz|Hz].
  - rewrite (proj2 (Z.leb_gt 0 _)) by done. by rewrite andb_false_r.
  - by rewrite (proj2 (Z.ltb_ge _ (capped_size z))) by lia.
Qed.

(** A block that is read, once the bytes behind the initialized size are zeroed. *)
Lemma want_read k : (k < nblk)%nat -> 0 <= lcn_of (pos_of k / 2 ^ cb) ->
  let full := dev_block (nr_of k (lcn_of (pos_of k / 2 ^ cb))) in
  let ofs := if pos_of k <? capped_size z then capped_size z - pos_of k else 0 in
  want k = if pos_of k + 2 ^ bb >? capped_size z then splice full (Z.to_nat ofs) (repeat 0 (Z.to_nat (2 ^ bb - ofs))) else full.
Proof using Hbits Hindex Hlcn.
  intros Hk H0 full ofs. destruct bsz_pos as [Hb0 Hb].
  assert (Hfull : forall j : nat, full !! j = if decide (j < bsz)%nat then Some (dev (lcn_of (pos_of k / 2 ^ cb) * 2 ^ cb + (pos_of k + Z.of_nat j) mod 2 ^ cb)) else None).
  { intros j. unfold full, dev_block. rewrite list_lookup_fmap. case_decide as Hj; [|by rewrite lookup_seq_ge by lia]. rewrite lookup_seq_lt by done. cbn [fmap option_fmap option_map]. rewrite Nat.add_0_l. do 2 f_equal.
    rewrite nr_of_block by done. destruct (block_in_cluster k (Z.of_nat j)) as [_ ->]; [clear Hlcn; lia|]. ring. }
  assert (Hlen : length full = bsz) by (unfold full, dev_block; by rewrite length_map, length_seq).
  clear Hlcn. apply list_eq. intros j. rewrite want_lookup. unfold attr_byte.
  assert (Hcl : (j < bsz)%nat -> (pos_of k + Z.of_nat j) / 2 ^ cb = pos_of k / 2 ^ cb) by (intros; apply block_in_cluster; lia).
  destruct (Z.gtb_spec (pos_of k + 2 ^ bb) (capped_size z)) as [Hgt|Hle].
  - assert (Hofs : 0 <= ofs <= 2 ^ bb) by (unfold ofs; destruct (Z.ltb_spec (pos_of k) (capped_size z)); lia).
    rewrite splice_lookup by (rewrite Hlen, repeat_length; lia). rewrite repeat_length, repeat_lookup, Hfull.
    case_decide as Hj; [|rewrite decide_False by lia; done]. rewrite Hcl, (proj2 (Z.leb_le 0 _)), andb_true_r by done.
    unfold ofs in *. destruct (Z.ltb_spec (pos_of k) (capped_size z)); destruct (Z.ltb_spec (pos_of k + Z.of_nat j) (capped_size z)); repeat case_decide; done || lia.
  - rewrite Hfull. case_decide as Hj; [|done]. rewrite Hcl, (proj2 (Z.leb_le 0 _)), (proj2 (Z.ltb_lt _ (capped_size z))) by (done || lia). done.
Qed.

(** A block behind the last allocated one has nothing initialized; so has one that is
    not before @zblock. *)
Lemma blocks_up size k : (capped_size z <= size)%Z -> Z.shiftl index (psh - bb) + Z.of_nat k <? Z.shiftr (size + blocksize bb - 1) bb = false -> capped_size z <= pos_of k.
Proof using Hbits.
  clear Hlcn. intros Hs Hz. apply Z.ltb_ge in Hz. rewrite Z.shiftr_div_pow2 in Hz by lia. rewrite pos_of_block. unfold blocksize in Hz.
  destruct bsz_pos as [? Hb]. pose proof (Z.div_mod (size + 2 ^ bb - 1) (2 ^ bb) ltac:(lia)) as Hd. pose proof (Z.mod_pos_bound (size + 2 ^ bb - 1) (2 ^ bb) ltac:(lia)).
  assert ((size + 2 ^ bb - 1) / 2 ^ bb * 2 ^ bb <= (Z.shiftl index (psh - bb) + Z.of_nat k) * 2 ^ bb) by (apply Z.mul_le_mono_nonneg_r; lia). lia.
Qed.
End Bytes.

(** ** Searching the runlist under its lock *)

Lemma PM_run {ST A B} (m : PM ST A) (f : A -> PM ST B) s s' a : m s = Ret (s', a) -> (m ≫= f) s = f a s'.
Proof. intros E. unfold mbind, PM_bind. by rewrite E. Qed.

(** ** The source of runlists *)

Section Source.
Context {ST : Type} {RS : RunlistSource ST}.

(** What the reading of pages relies on: in the states [ok] the runlist gives a VCN
    its place [lcn_of], or does not have it yet; mapping it makes it known, or
    fails; -ENOENT comes only behind the end of the attribute. *)
Record source_ok (ok : ST -> Prop) (lcn_of : Z -> Z) : Prop := {
  so_range : forall vcn, LCN_HOLE <= lcn_of vcn \/ lcn_of vcn = LCN_ENOENT;
  so_start : forall st b, ok st -> rl_now st = Some b -> starts_by b 0;
  so_lookup : forall st vcn, ok st -> 0 <= vcn ->
    ntfs_rl_vcn_to_lcn (rl_now st) vcn = Ret (lcn_of vcn) \/ ntfs_rl_vcn_to_lcn (rl_now st) vcn = Ret LCN_RL_NOT_MAPPED;
  so_map : forall st vcn, ok st -> 0 <= vcn -> ntfs_rl_vcn_to_lcn (rl_now st) vcn = Ret LCN_RL_NOT_MAPPED ->
    exists st' err, rl_map vcn st = Ret (st', err) /\ ok st' /\
      (err = 0 -> ntfs_rl_vcn_to_lcn (rl_now st') vcn = Ret (lcn_of vcn)) /\ (err = - ENOENT -> lcn_of vcn = LCN_ENOENT);
}.

(** Mapping the runlist failed for another reason than the end of the attribute. *)
Definition map_error (err : Z) : bool := negb (err =? 0) && negb (err =? - ENOENT).

(** [failed] records in the state that a mapping has failed. *)
Definition records_failure (failed : ST -> bool) : Prop :=
  forall vcn st st' err, rl_map vcn st = Ret (st', err) -> failed st' = failed st || map_error err.

Context (ok : ST -> Prop) (lcn_of : Z -> Z) (failed : ST -> bool).
Hypothesis Hsrc : source_ok ok lcn_of.
Hypothesis Hlog : records_failure failed.

(** Where a search may go on: the lock is held exactly when there is a runlist to
    search in, which finds what the whole runlist finds from [vcn] on. *)
Definition cursor (st : ST) (lock : bool) (rl : option rl_buf) (vcn : Z) : Prop :=
  match rl with
  | None => lock = false
  | Some b => lock = true /\ starts_by b vcn /\ exists full, rl_now st = Some full /\ forall v, vcn <= v -> lookup_runs b v = lookup_runs full v
  end.

Lemma cursor_later st lock rl v1 v2 : v1 <= v2 -> cursor st lock rl v1 -> cursor st lock rl v2.
Proof.
  intros Hv. destruct rl as [b|]; [|done]. intros (Hl & (r0 & rest & -> & Hr) & full & Hf & Hb). split; [done|]. split; [exists r0, rest; split; [done|lia]|].
  exists full. split; [done|]. intros v ?. apply Hb. lia.
Qed.

Lemma starts_by_later b v1 v2 : v1 <= v2 -> starts_by b v1 -> starts_by b v2.
Proof. intros Hv (r0 & rest & -> & Hr). exists r0, rest. split; [done|lia]. Qed.

(** One search under the lock. *)
Lemma find_lcn_spec st p rl vcn : ok st -> 0 <= vcn -> (rl = rl_now st \/ cursor st true rl vcn /\ rl <> None) ->
  exists rl' lcn, find_lcn rl vcn (mk_rs st true p) = Ret (mk_rs st true p, (rl', lcn)) /\
    ntfs_rl_vcn_to_lcn (rl_now st) vcn = Ret lcn /\ (rl' = None /\ rl_now st = None \/ rl' <> None /\ cursor st true rl' vcn).
Proof using Hsrc.
  intros Hok Hv Hrl. assert (Hcur : rl = None /\ rl_now st = None \/ exists b, rl = Some b /\ cursor st true rl vcn).
  { destruct Hrl as [->|[Hc Hn]]; [|destruct rl as [b|]; [right; by exists b|done]]. destruct (rl_now st) as [b|] eqn:E; [right|by left]. exists b. split; [done|].
    split; [done|]. split; [apply (starts_by_later b 0); [done|by apply (so_start _ _ Hsrc st)]|]. by exists b. }
  clear Hrl. destruct Hcur as [[-> Hn]|(b & -> & _ & Hs & full & Hf & Hb)].
  - exists None, LCN_RL_NOT_MAPPED. split; [done|]. rewrite Hn. split; [|by left]. unfold ntfs_rl_vcn_to_lcn, BUG_ON. by rewrite (proj2 (Z.ltb_ge vcn 0)).
  - assert (Hsf : starts_by full vcn) by (apply (starts_by_later full 0); [done|by apply (so_start _ _ Hsrc st)]).
    assert (exists x, ntfs_rl_vcn_to_lcn (rl_now st) vcn = Ret x) as (x & Hx) by (destruct (so_lookup _ _ Hsrc st vcn Hok Hv); eauto).
    pose proof Hx as Hx'. rewrite Hf, lookup_runs_eq in Hx' by done. rewrite <- Hb in Hx' by lia.
    destruct (seek_spec b vcn x Hx' Hs) as (b' & Es & Hs' & Hb'). exists (Some b'), x. split_and!; [|done|].
    + unfold find_lcn. rewrite (PM_run _ _ _ (mk_rs st true p) b') by (unfold plift; by rewrite Es).
      rewrite (PM_run _ _ _ (mk_rs st true p) x); [done|]. unfold plift. rewrite lookup_runs_eq by done. by rewrite Hb', Hx' by lia.
    + right. split; [done|]. split; [done|]. split; [done|]. exists full. split; [done|]. intros v Hv'. rewrite Hb' by done. by apply Hb.
Qed.

Definition place_of (lcn : Z) : place := if lcn >=? 0 then AtLcn lcn else InHole.

(** What a search under the lock comes to when the VCN is known. *)
Lemma settle_spec st p rl vcn lcn k : lcn = lcn_of vcn -> lcn <> LCN_RL_NOT_MAPPED -> ntfs_rl_vcn_to_lcn (rl_now st) vcn = Ret lcn ->
  (rl = None /\ rl_now st = None \/ rl <> None /\ cursor st true rl vcn) -> 0 <= vcn -> k = no_retry rl lcn \/ lcn = LCN_HOLE \/ 0 <= lcn ->
  cursor st true rl vcn /\
  (if lcn >=? 0 then mret (rl, AtLcn lcn) else if lcn =? LCN_HOLE then mret (rl, InHole) else k) (mk_rs st true p) = Ret (mk_rs st true p, (rl, place_of (lcn_of vcn))).
Proof using Hsrc.
  intros -> Hne Hl Hc Hv Hk. pose proof (so_range _ _ Hsrc vcn) as Hr. destruct Hc as [[-> Hn]|[Hn Hc]].
  { exfalso. apply Hne. rewrite Hn in Hl. unfold ntfs_rl_vcn_to_lcn, BUG_ON in Hl. destruct (vcn <? 0); [done|]. by injection Hl. }
  split; [done|]. unfold place_of, LCN_HOLE, LCN_ENOENT in *. destruct (Z.geb_spec (lcn_of vcn) 0); [done|]. destruct (Z.eqb_spec (lcn_of vcn) (-1)); [done|].
  destruct Hk as [->|Hk]; [|lia]. destruct rl as [b|]; [|done]. unfold no_retry. rewrite (PM_run _ _ _ (mk_rs st true p) tt) by done.
  unfold classify, LCN_ENOENT. by replace (lcn_of vcn =? -3) with true by lia.
Qed.

Lemma resolve_spec st lock p rl vcn : ok st -> 0 <= vcn -> cursor st lock rl vcn ->
  exists st' lock' rl' pl, resolve rl vcn (mk_rs st lock p) = Ret (mk_rs st' lock' p, (rl', pl)) /\ ok st' /\ cursor st' lock' rl' vcn /\
    (pl = place_of (lcn_of vcn) /\ failed st' = failed st \/ (exists err, pl = NoPlace err) /\ failed st' = true).
Proof using Hsrc Hlog.
  intros Hok Hv Hc. pose proof (so_range _ _ Hsrc vcn) as Hr. unfold resolve.
  assert (Hstart : exists rl0, (match rl with None => down_read | Some b => mret (Some b) end) (mk_rs st lock p) = Ret (mk_rs st true p, rl0) /\
    (rl0 = rl_now st \/ cursor st true rl0 vcn /\ rl0 <> None)).
  { destruct rl as [b|]; cbn in Hc; [destruct Hc as (-> & Hc); exists (Some b); split; [done|right; split; [by split|done]]|].
    subst lock. exists (rl_now st). split; [done|by left]. }
  destruct Hstart as (rl0 & E0 & H0). rewrite (PM_run _ _ _ _ _ E0). destruct (find_lcn_spec st p rl0 vcn Hok Hv H0) as (rl1 & lcn & E1 & Hl & Hc1).
  rewrite (PM_run _ _ _ _ _ E1). cbv iota.
  destruct (decide (lcn = LCN_RL_NOT_MAPPED)) as [->|Hne].
  - change (LCN_RL_NOT_MAPPED >=? 0) with false. change (LCN_RL_NOT_MAPPED =? LCN_HOLE) with false. rewrite Z.eqb_refl.
    rewrite (PM_run _ _ _ (mk_rs st false p) tt) by done.
    destruct (so_map _ _ Hsrc st vcn Hok Hv Hl) as (st' & err & Em & Hok' & H0' & Hen). pose proof (Hlog _ _ _ _ Em) as Hf. unfold map_error in Hf. rewrite (PM_run _ _ _ (mk_rs st' false p) err) by (unfold map_runlist; cbn; by rewrite Em).
    destruct (Z.eqb_spec err 0) as [->|He].
    + specialize (H0' eq_refl). rewrite (PM_run _ _ _ (mk_rs st' true p) (rl_now st')) by done.
      destruct (find_lcn_spec st' p (rl_now st') vcn Hok' Hv ltac:(by left)) as (rl2 & lcn2 & E2 & Hl2 & Hc2). rewrite (PM_run _ _ _ _ _ E2). cbv iota.
      rewrite H0' in Hl2. injection Hl2 as <-.
      destruct (settle_spec st' p rl2 vcn (lcn_of vcn) (no_retry rl2 (lcn_of vcn)) eq_refl) as [Hcu E]; [unfold LCN_HOLE, LCN_ENOENT, LCN_RL_NOT_MAPPED in *; lia|done|done|done|by left|].
      rewrite E. eexists _, _, _, _. split; [done|]. split_and!; [done|done|left]. split; [done|]. rewrite Hf. cbn. by rewrite orb_false_r.
    + eexists st', false, None, _. split; [done|]. split_and!; [done|done|].
      unfold classify. change (LCN_RL_NOT_MAPPED =? LCN_ENOENT) with false. rewrite orb_false_r.
      destruct (Z.eqb_spec err (- ENOENT)) as [->|He2].
      * left. unfold place_of. rewrite (Hen eq_refl), Hf. cbn. by rewrite orb_false_r.
      * right. split; [by eexists|]. rewrite Hf. destruct (Z.eqb_spec err 0), (Z.eqb_spec err (- ENOENT)); try done. apply orb_true_r.
  - assert (lcn = lcn_of vcn) as ->.
    { destruct (so_lookup _ _ Hsrc st vcn Hok Hv) as [E|E]; rewrite E in Hl; injection Hl; auto. by intros <-. }
    rewrite (proj2 (Z.eqb_neq (lcn_of vcn) LCN_RL_NOT_MAPPED)) by done.
    destruct (settle_spec st p rl1 vcn (lcn_of vcn) (no_retry rl1 (lcn_of vcn)) eq_refl) as [Hcu E]; [done|done|done|done|by left|].
    rewrite E. eexists _, _, _, _. split; [done|]. split_and!; [done|done|by left].
Qed.
End Source.

(** A source with a record of whether a mapping has failed since the record was made. *)
Definition logged {ST} (RS : RunlistSource ST) : RunlistSource (ST * bool) := {|
  rl_now := fun st => rl_now (fst st);
  rl_map := fun vcn st => '(st', err) ← rl_map vcn (fst st); Ret ((st', snd st || map_error err), err);
|}.

Lemma logged_ok {ST} (RS : RunlistSource ST) ok lcn_of : source_ok (RS := RS) ok lcn_of -> source_ok (RS := logged RS) (fun st => ok (fst st)) lcn_of.
Proof.
  intros [H1 H2 H3 H4]. split; [done|intros [st b]; apply H2|intros [st b]; apply H3|]. intros [st b] vcn Hok Hv Hl. destruct (H4 st vcn Hok Hv Hl) as (st' & err & E & Hr). cbn [rl_map logged fst snd]. rewrite E, bind_Ret. by eexists (_, _), err.
Qed.
Lemma logged_failure {ST} (RS : RunlistSource ST) : records_failure (RS := logged RS) snd.
Proof. intros vcn [st b] st' err. cbn [rl_map logged fst snd]. intros ([st1 e] & _ & [= <- <-])%bind_Ret_inv. done. Qed.
