(* ===== verification/PageReadBlock.v ===== *)
(** * Reading pages: the loop over the buffers

    Each buffer of the page is either to be read, from the right block, or holds
    what it is to hold, or is marked by the error of the page. *)

From Stdlib Require Import ZArith Lia Bool.
From stdpp Require Import base list numbers option sets.
From S2P Require Import Prelude Endian Runlist Mst AttrList PageRead PageReadSpec.

(** ** Changes of a page *)

Section Touch.
Context (psh bb index : Z).
Hypothesis Hbits : 0 <= bb <= psh.
Notation nblk := (nblk psh bb).
Notation bsz := (bsz bb).
Notation slice := (slice bsz).

(** A locked page of the right size with these buffers. *)
Definition pview (p : page) (bhs : list buffer_head) : Prop :=
  pg_index p = index /\ pg_buffers p = Some bhs /\ length bhs = nblk /\ length (pg_data p) = (nblk * bsz)%nat /\
  pg_locked p = true /\ pg_uptodate p = false.

(** Every buffer of the page satisfies [Q], which gets the error flag of the page, the
    number of the buffer, the buffer and the bytes of its block. *)
Definition binv (Q : bool -> nat -> buffer_head -> list Z -> Prop) (p : page) : Prop :=
  exists bhs, pview p bhs /\ forall k bh, bhs !! k = Some bh -> Q (pg_error p) k bh (slice k (pg_data p)).

(** Buffer [k] becomes [bh], its bytes [blk], the error flag [e]; nothing else changes. *)
Definition touches (k : nat) (p p' : page) (bh : buffer_head) (blk : list Z) (e : bool) : Prop :=
  exists bhs, pview p bhs /\ pview p' (<[k := bh]> bhs) /\ (k < nblk)%nat /\ pg_error p' = e /\
    slice k (pg_data p') = blk /\ forall k', k' <> k -> slice k' (pg_data p') = slice k' (pg_data p).

Lemma touches_trans k p1 p2 p3 bh bh' blk blk' e e' : touches k p1 p2 bh blk e -> touches k p2 p3 bh' blk' e' -> touches k p1 p3 bh' blk' e'.
Proof using Type.
  intros (bhs & V1 & V2 & Hk & He & Hs & Ho) (bhs2 & V2' & V3 & _ & He' & Hs' & Ho').
  assert (bhs2 = <[k := bh]> bhs) as -> by (destruct V2 as (_ & E & _), V2' as (_ & E' & _); congruence). rewrite list_insert_insert_eq in V3.
  exists bhs. split_and!; try done. intros k' Hne. by rewrite Ho', Ho.
Qed.

Lemma binv_touch Q Q' k p p' bh blk e : binv Q p -> touches k p p' bh blk e -> Q' e k bh blk ->
  (forall k' bh' c, k' <> k -> Q (pg_error p) k' bh' c -> Q' e k' bh' c) -> binv Q' p'.
Proof using Type.
  intros (bhs & V & HQ) (bhs' & V1 & V2 & Hk & <- & <- & Ho) Hq Hother.
  assert (bhs' = bhs) as -> by (destruct V as (_ & E & _), V1 as (_ & E' & _); congruence).
  eexists. split; [done|]. intros k' bh' Hl. destruct (decide (k' = k)) as [->|Hne].
  - rewrite list_lookup_insert_eq in Hl by (destruct V as (_ & _ & -> & _); done). by injection Hl as <-.
  - rewrite list_lookup_insert_ne in Hl by done. rewrite Ho by done. by apply Hother, HQ.
Qed.

Lemma binv_get Q p k : binv Q p -> (k < nblk)%nat -> exists bh, get_bh p (Z.of_nat k) = Ret bh /\ Q (pg_error p) k bh (slice k (pg_data p)).
Proof using Type.
  intros (bhs & (_ & E & Hn & _) & HQ) Hk. destruct (lookup_lt_is_Some_2 bhs k) as [bh Hbh]; [by rewrite Hn|]. exists bh. split; [|by apply HQ].
  unfold get_bh. rewrite E. apply rd_spec. split; [lia|]. by rewrite Nat2Z.id.
Qed.

Lemma touched_get k p p' bh blk e : touches k p p' bh blk e -> get_bh p' (Z.of_nat k) = Ret bh.
Proof using Type.
  intros (bhs & (_ & _ & Hn & _) & (_ & E & _) & Hk & _). unfold get_bh. rewrite E. apply rd_spec. split; [lia|]. rewrite Nat2Z.id. by rewrite list_lookup_insert_eq by (by rewrite Hn).
Qed.

Lemma touch_put p bhs k bh : pview p bhs -> (k < nblk)%nat ->
  exists p', put_bh p (Z.of_nat k) bh = Ret p' /\ touches k p p' bh (slice k (pg_data p)) (pg_error p).
Proof using Type.
  intros V Hk. pose proof V as (Hi & E & Hn & Hd & Hl & Hu). unfold put_bh. rewrite E.
  assert (wr bhs (Z.of_nat k) bh = Ret (<[k := bh]> bhs)) as ->.
  { destruct (lookup_lt_is_Some_2 bhs k) as [b0 Hb]; [by rewrite Hn|]. apply list_elem_of_split_length in Hb as (pre & post & -> & Hlen).
    rewrite (wr_mid pre b0 post (Z.of_nat k) bh) by (unfold zlen; lia). f_equal. by rewrite insert_app_r_alt, Hlen, Nat.sub_diag by lia. }
  eexists. split; [done|]. exists bhs. split_and!; try done. split_and!; try done. by rewrite length_insert.
Qed.

Lemma touch_zero p bhs k bh o len : pview p bhs -> bhs !! k = Some bh -> 0 <= o -> 0 <= len -> o + len <= 2 ^ bb ->
  exists p', zero_user p (Z.of_nat k * 2 ^ bb + o) len = Ret p' /\
    touches k p p' bh (splice (slice k (pg_data p)) (Z.to_nat o) (repeat 0 (Z.to_nat len))) (pg_error p).
Proof using Hbits.
  intros V Hbh Ho Hlen Hfit. pose proof V as (Hi & E & Hn & Hd & Hl & Hu). assert (Hk : (k < nblk)%nat) by (rewrite <- Hn; by eapply lookup_lt_Some).
  assert (Hb : Z.of_nat bsz = 2 ^ bb) by (unfold PageReadSpec.bsz; lia).
  assert (Hkb : (k * bsz + bsz <= nblk * bsz)%nat) by nia.
  assert (Hat : Z.to_nat (Z.of_nat k * 2 ^ bb + o) = (k * bsz + Z.to_nat o)%nat) by (rewrite <- Hb; lia).
  unfold zero_user. rewrite memset0_splice by (try lia; unfold zlen; rewrite Hd, <- Hb; lia). rewrite Hat, bind_Ret.
  eexists. split; [done|]. exists bhs. rewrite list_insert_id by done.
  assert (Hfit' : (Z.to_nat o + length (repeat 0%Z (Z.to_nat len)) <= bsz)%nat) by (rewrite repeat_length; lia).
  split_and!; try done.
  - split_and!; try done. cbn [set_data pg_data]. rewrite splice_length; [done|]. rewrite Hd. lia.
  - cbn [set_data pg_data]. rewrite (slice_splice bsz k k _ _ _ nblk) by done. by rewrite decide_True.
  - intros k' Hne. cbn [set_data pg_data]. rewrite (slice_splice bsz k k' _ _ _ nblk) by done. by rewrite decide_False.
Qed.

Lemma touch_error p bhs k bh : pview p bhs -> bhs !! k = Some bh -> touches k p (SetPageError p) bh (slice k (pg_data p)) true.
Proof using Type.
  intros V Hbh. pose proof V as (Hi & E & Hn & _). exists bhs. rewrite list_insert_id by done. split_and!; try done. rewrite <- Hn. by eapply lookup_lt_Some.
Qed.

Lemma touched_view k p p' bh blk e : touches k p p' bh blk e -> exists bhs, pview p' bhs /\ bhs !! k = Some bh /\ slice k (pg_data p') = blk /\ pg_error p' = e.
Proof using Type.
  intros (bhs & (_ & _ & Hn & _) & V & Hk & He & Hs & _). exists (<[k := bh]> bhs). split_and!; try done. by rewrite list_lookup_insert_eq by (by rewrite Hn).
Qed.

Lemma splice_all (d new : list Z) : length d = length new -> splice d 0 new = new.
Proof using Type. intros H. unfold splice. rewrite Nat.add_0_l, drop_ge by lia. by rewrite app_nil_r. Qed.

(** A buffer whose whole block is zeroed. *)
Lemma touch_zero_block p bhs k bh : pview p bhs -> bhs !! k = Some bh ->
  exists p', zero_user p (Z.of_nat k * blocksize bb) (blocksize bb) = Ret p' /\ touches k p p' bh (repeat 0 bsz) (pg_error p).
Proof using Hbits.
  intros V Hbh. unfold blocksize. pose proof (Z.pow_pos_nonneg 2 bb). destruct (touch_zero p bhs k bh 0 (2 ^ bb) V Hbh) as (p' & E & T); [lia..|].
  rewrite Z.add_0_r in E. exists p'. split; [done|]. rewrite splice_all in T; [done|]. pose proof V as (_ & _ & Hn & Hd & _). rewrite repeat_length.
  apply (slice_length bsz k _ nblk); [done|]. rewrite <- Hn. by eapply lookup_lt_Some.
Qed.
End Touch.

Lemma on_page_run {ST A} (f : page -> outcome page) (k : unit -> PM ST A) st l p p' : f p = Ret p' -> (on_page f ≫= k) (mk_rs st l p) = k tt (mk_rs st l p').
Proof. intros E. apply PM_run. unfold on_page. cbn. by rewrite E. Qed.

Lemma asks_run {ST A B} (f : rstate ST -> outcome A) (k : A -> PM ST B) s a : f s = Ret a -> (asks f ≫= k) s = k a s.
Proof. intros E. apply PM_run. unfold asks. by rewrite E. Qed.

Lemma elem_snoc (k i : nat) a : k ∈ a ++ [i] <-> k ∈ a \/ k = i.
Proof. set_solver. Qed.

(** ** The buffers *)

Section Loop.
Context {ST : Type} {RS : RunlistSource ST} (ok : ST -> Prop) (failed : ST -> bool).
Context (psh bb cb : Z) (z : sizes) (lcn_of : Z -> Z) (dev : Z -> Z) (index : Z).
Hypothesis Hsrc : source_ok ok lcn_of.
Hypothesis Hlog : records_failure failed.
Hypothesis Hbits : 0 <= bb <= psh /\ bb <= cb.
Hypothesis Hsizes : 0 <= capped_size z <= allocated_size z.
Hypothesis Hindex : 0 <= index /\ (index + 1) * 2 ^ psh <= S64_MAX.
Hypothesis Hlcn : forall v, lcn_of v * 2 ^ cb <= S64_MAX.
Notation nblk := (nblk psh bb).
Notation bsz := (bsz bb).
Notation slice := (slice bsz).
Notation want := (want psh bb cb z lcn_of dev index).
Notation pos_of := (pos_of psh bb index).
Notation nr_of := (nr_of psh bb cb index).
Notation binv := (binv psh bb index).
Notation touches := (touches psh bb index).

(** The VCN of block [k]. *)
Definition vcn_of (k : nat) : Z := pos_of k / 2 ^ cb.

(** A buffer that is mapped to the block its bytes are in. *)
Definition located (k : nat) (bh : buffer_head) : Prop := 0 <= lcn_of (vcn_of k) /\ b_blocknr bh = nr_of k (lcn_of (vcn_of k)).

Definition idle (bh : buffer_head) : Prop := bh_locked bh = false /\ bh_async_read bh = false.

(** A buffer before the page is read. *)
Definition fresh (k : nat) (bh : buffer_head) (blk : list Z) : Prop :=
  idle bh /\ (bh_uptodate bh = true -> blk = want k) /\ (bh_mapped bh = true -> located k bh).

(** A buffer that is done: up to date with the right bytes, or an error. *)
Definition settled (e : bool) (k : nat) (bh : buffer_head) (blk : list Z) : Prop :=
  idle bh /\ if bh_uptodate bh then blk = want k else e = true.

Definition to_read (k : nat) (bh : buffer_head) : Prop := idle bh /\ bh_uptodate bh = false /\ located k bh.

(** Before buffer [i] is looked at, [a] being those to be read. *)
Definition Qloop (i : nat) (a : list nat) (e : bool) (k : nat) (bh : buffer_head) (blk : list Z) : Prop :=
  if decide (k < i)%nat then (if decide (k ∈ a) then to_read k bh else settled e k bh blk) else fresh k bh blk.

Lemma settled_mono e e' k bh blk : (e = true -> e' = true) -> settled e k bh blk -> settled e' k bh blk.
Proof using Type. intros He [Hi H]. split; [done|]. destruct (bh_uptodate bh); auto. Qed.

(** The step for buffer [i] when it is settled ... *)
Lemma loop_settle i a p p' bh blk e : (forall k, k ∈ a -> (k < i)%nat) -> binv (Qloop i a) p -> touches i p p' bh blk e -> (pg_error p = true -> e = true) -> settled e i bh blk ->
  binv (Qloop (S i) a) p'.
Proof using Type.
  intros Ha Hinv T He Hs. eapply binv_touch; [done|done| |].
  - unfold Qloop. rewrite decide_True by lia. rewrite decide_False; [done|]. intros Hin. apply Ha in Hin. lia.
  - intros k bh' c Hne. unfold Qloop. destruct (decide (k < i)%nat).
    + rewrite (decide_True (P := (k < S i)%nat)) by lia. case_decide; [done|]. by apply settled_mono.
    + by rewrite decide_False by lia.
Qed.

(** ... and when it is to be read. *)
Lemma loop_read i a p p' bh blk : (forall k, k ∈ a -> (k < i)%nat) -> binv (Qloop i a) p -> touches i p p' bh blk (pg_error p) -> to_read i bh ->
  binv (Qloop (S i) (a ++ [i])) p'.
Proof using Type.
  intros Ha Hinv T Hs. eapply binv_touch; [done|done| |].
  - unfold Qloop. rewrite decide_True by lia. rewrite decide_True by (apply elem_snoc; by right). done.
  - intros k bh' c Hne. unfold Qloop. destruct (decide (k < i)%nat).
    + rewrite (decide_True (P := (k < S i)%nat)) by lia. destruct (decide (k ∈ a)); [by rewrite decide_True by (apply elem_snoc; by left)|]. rewrite decide_False; [done|]. by intros [?|?]%elem_snoc.
    + by rewrite decide_False by lia.
Qed.

Lemma touch_same Q p i bh : binv Q p -> (i < nblk)%nat -> get_bh p (Z.of_nat i) = Ret bh -> touches i p p bh (slice i (pg_data p)) (pg_error p).
Proof using Type.
  intros (bhs & V & _) Hi Hg. pose proof V as (_ & E & Hn & _). unfold get_bh in Hg. rewrite E in Hg. apply rd_spec in Hg as [_ Hg]. rewrite Nat2Z.id in Hg.
  exists bhs. rewrite list_insert_id by done. by split_and!.
Qed.

(** What the loop knows after a buffer. *)
Definition step_post (i : nat) (a : list nat) (r : outcome (rstate ST * (option rl_buf * list Z))) : Prop :=
  exists st lock rl p a', r = Ret (mk_rs st lock p, (rl, map Z.of_nat a')) /\ ok st /\ cursor st lock rl (vcn_of i) /\
    binv (Qloop (S i) a') p /\ pg_error p = failed st /\ (a' = a \/ a' = a ++ [i]).

(** A block is zeroed and its buffer set up to date. *)
Lemma zero_step i a st lock rl p p1 bh blk :
  (forall k, k ∈ a -> (k < i)%nat) -> (i < nblk)%nat -> ok st -> cursor st lock rl (vcn_of i) -> binv (Qloop i a) p -> pg_error p = failed st ->
  touches i p p1 bh blk (pg_error p) -> idle bh -> want i = repeat 0 bsz ->
  step_post i a ((on_page (fun p => zero_user p (Z.of_nat i * blocksize bb) (blocksize bb));;
    on_page (fun p => put_bh p (Z.of_nat i) (mk_bh true (bh_mapped bh) (bh_locked bh) (bh_async_read bh) (b_blocknr bh)));;
    mret (rl, map Z.of_nat a)) (mk_rs st lock p1)).
Proof using Hbits.
  clear Hlcn Hindex Hsizes. intros Ha Hi Hok Hc Hinv He T Hid Hw. destruct (touched_view _ _ _ _ _ _ _ _ _ T) as (bhs & V & Hb & _ & He1).
  destruct (touch_zero_block psh bb index ltac:(lia) p1 bhs i bh V Hb) as (p2 & E2 & T2). rewrite (on_page_run _ _ _ _ _ _ E2).
  destruct (touched_view _ _ _ _ _ _ _ _ _ T2) as (bhs2 & V2 & Hb2 & Hs2 & He2).
  destruct (touch_put psh bb index p2 bhs2 i (mk_bh true (bh_mapped bh) (bh_locked bh) (bh_async_read bh) (b_blocknr bh)) V2 Hi) as (p3 & E3 & T3).
  rewrite (on_page_run _ _ _ _ _ _ E3). rewrite Hs2, He2, He1 in T3.
  pose proof (touches_trans _ _ _ _ _ _ _ _ _ _ _ _ _ (touches_trans _ _ _ _ _ _ _ _ _ _ _ _ _ T T2) T3) as T'.
  destruct (touched_view _ _ _ _ _ _ _ _ _ T') as (_ & _ & _ & _ & He3).
  eexists st, lock, rl, p3, a. split_and!; [done|done|done| | |by left].
  - eapply loop_settle; [done|done|done|done|]. split; [done|]. cbn. by rewrite Hw.
  - by rewrite He3.
Qed.

(** A block whose place is not known: the page gets the error. *)
Lemma error_step i a st lock rl p bh bh' : (forall k, k ∈ a -> (k < i)%nat) -> (i < nblk)%nat -> ok st -> cursor st lock rl (vcn_of i) -> binv (Qloop i a) p ->
  failed st = true -> get_bh p (Z.of_nat i) = Ret bh -> idle bh' -> bh_uptodate bh' = false ->
  step_post i a ((on_page (fun p => Ret (SetPageError p));; on_page (fun p => put_bh p (Z.of_nat i) bh');;
    on_page (fun p => zero_user p (Z.of_nat i * blocksize bb) (blocksize bb));; mret (rl, map Z.of_nat a)) (mk_rs st lock p)).
Proof using Hbits.
  clear Hlcn Hindex Hsizes. intros Ha Hi Hok Hc Hinv Hmf Hg Hid Hup. pose proof (touch_same _ _ _ _ Hinv Hi Hg) as T0.
  destruct (touched_view _ _ _ _ _ _ _ _ _ T0) as (bhs & V & Hb & _). rewrite (on_page_run _ _ _ _ _ (SetPageError p)) by done.
  pose proof (touch_error psh bb index p bhs i bh V Hb) as T1. destruct (touched_view _ _ _ _ _ _ _ _ _ T1) as (bhs1 & V1 & Hb1 & Hs1 & He1).
  destruct (touch_put psh bb index _ bhs1 i bh' V1 Hi) as (p2 & E2 & T2). rewrite (on_page_run _ _ _ _ _ _ E2). rewrite He1, Hs1 in T2.
  destruct (touched_view _ _ _ _ _ _ _ _ _ T2) as (bhs2 & V2 & Hb2 & _ & He2).
  destruct (touch_zero_block psh bb index ltac:(lia) p2 bhs2 i bh' V2 Hb2) as (p3 & E3 & T3). rewrite (on_page_run _ _ _ _ _ _ E3). rewrite He2 in T3.
  pose proof (touches_trans _ _ _ _ _ _ _ _ _ _ _ _ _ (touches_trans _ _ _ _ _ _ _ _ _ _ _ _ _ T1 T2) T3) as T.
  destruct (touched_view _ _ _ _ _ _ _ _ _ T) as (_ & _ & _ & _ & He3). eexists st, lock, rl, p3, a. split_and!; [done|done|done| |by rewrite He3|by left].
  eapply loop_settle; [done|done|done|done|]. split; [done|]. by rewrite Hup.
Qed.

(** The VCN and the offset that the code computes. *)
Lemma vcn_computed i : (i < nblk)%nat ->
  let pos := s64 (Z.shiftl (Z.shiftl index (psh - bb) + Z.of_nat i) bb) in Z.shiftr pos cb = vcn_of i /\ Z.land pos (2 ^ cb - 1) = pos_of i mod 2 ^ cb.
Proof using Hbits Hindex.
  clear Hlcn Hsizes. intros Hi pos. assert (pos = pos_of i) as ->.
  { unfold pos. rewrite Z.shiftl_mul_pow2 by lia. rewrite <- (pos_of_block psh bb cb index Hbits). pose proof (pos_of_range psh bb cb index Hbits Hindex i Hi). pose proof (Z.pow_pos_nonneg 2 bb). apply s64_id. unfold S64_MIN, S64_MAX in *. lia. }
  rewrite Z.shiftr_div_pow2 by lia. split; [done|]. rewrite <- Z.land_ones by lia. by rewrite Z.ones_equiv.
Qed.

Lemma vcn_of_mono i : (S i < nblk)%nat -> vcn_of i <= vcn_of (S i).
Proof using Hbits. clear Hlcn. intros Hi. apply Z.div_le_mono; [apply Z.pow_pos_nonneg; lia|]. unfold PageReadSpec.pos_of. pose proof (Z.pow_pos_nonneg 2 bb). nia. Qed.

Lemma vcn_of_nonneg i : (i < nblk)%nat -> 0 <= vcn_of i.
Proof using Hbits Hindex. clear Hlcn. intros Hi. apply Z.div_pos; [|apply Z.pow_pos_nonneg; lia]. by apply (pos_of_range psh bb cb index Hbits Hindex i). Qed.

Notation lblock := (Z.shiftr (allocated_size z + blocksize bb - 1) bb).
Notation zblock := (Z.shiftr (capped_size z + blocksize bb - 1) bb).
Notation iblock i := (Z.shiftl index (psh - bb) + Z.of_nat i).

Lemma read_buffer_spec i a st lock rl p : (forall k, k ∈ a -> (k < i)%nat) -> (i < nblk)%nat -> ok st -> cursor st lock rl (vcn_of i) -> binv (Qloop i a) p ->
  pg_error p = failed st ->
  step_post i a (read_buffer bb cb lblock zblock (Z.of_nat i) (iblock i) rl (map Z.of_nat a) (mk_rs st lock p)).
Proof using Hsrc Hlog Hbits Hsizes Hindex Hlcn.
  intros Ha Hi Hok Hc Hinv He. destruct (binv_get _ _ _ _ _ _ Hinv Hi) as (bh & Hg & HQ). unfold Qloop in HQ. rewrite decide_False in HQ by lia.
  destruct HQ as (Hid & Hup & Hmap). pose proof (touch_same _ _ _ _ Hinv Hi Hg) as T0. unfold read_buffer. rewrite (asks_run _ _ _ bh) by done.
  destruct (bh_uptodate bh) eqn:Eu.
  { eexists _, _, _, _, a. split_and!; [done..|eapply loop_settle; [done|done|done|done|]|done|by left]. split; [done|]. rewrite Eu. auto. }
  destruct (bh_mapped bh) eqn:Em.
  { eexists _, _, _, _, (a ++ [i]). split_and!; [|done|done|eapply loop_read; [done|done|done|]|done|by right]; [|by split_and!; auto]. by rewrite map_app. }
  destruct (vcn_computed i Hi) as [-> ->].
  assert (Hplace : exists st' lock' rl' pl, (if iblock i <? lblock then resolve rl (vcn_of i) else mret (rl, InHole)) (mk_rs st lock p) = Ret (mk_rs st' lock' p, (rl', pl)) /\ ok st' /\
    cursor st' lock' rl' (vcn_of i) /\ match pl with AtLcn lcn => lcn = lcn_of (vcn_of i) /\ 0 <= lcn | InHole => want i = repeat 0 bsz | NoPlace _ => failed st' = true end /\ match pl with NoPlace _ => True | _ => failed st' = failed st end).
  { destruct (iblock i <? lblock) eqn:El.
    - destruct (resolve_spec ok lcn_of failed Hsrc Hlog st lock p rl (vcn_of i) Hok (vcn_of_nonneg i Hi) Hc) as (st' & lock' & rl' & pl & E & Hok' & Hc' & Hpl). exists st', lock', rl', pl. split; [done|]. split; [done|]. split; [done|].
      destruct Hpl as [[-> Hf]|[[err ->] Hmf]]; [|done]. unfold place_of. destruct (Z.geb_spec (lcn_of (vcn_of i)) 0); [done|]. split; [|done]. apply want_zero; [done..|by left].
    - exists st, lock, rl, InHole. split_and!; [done..| |done]. apply want_zero; [done..|]. right. apply (blocks_up psh bb cb z index Hbits (allocated_size z)); [apply Hsizes|done]. }
  destruct Hplace as (st' & lock' & rl' & pl & Epl & Hok' & Hc' & Hpl & Hfs). rewrite (PM_run _ _ _ _ _ Epl). cbv iota. destruct (touched_view _ _ _ _ _ _ _ _ _ T0) as (bhs & V & _).
  destruct Hid as [Hl Has]. destruct pl as [lcn| |err].
  - destruct Hpl as [-> H0]. rewrite <- Hfs in He. cbv zeta. set (bh' := mk_bh false true (bh_locked bh) (bh_async_read bh) (nr_of i (lcn_of (vcn_of i)))). destruct (touch_put psh bb index p bhs i bh' V Hi) as (p' & E & T). erewrite on_page_run by exact E.
    assert (Hloc : located i bh') by done. destruct (iblock i <? zblock) eqn:Ez.
    + destruct (touched_view _ _ _ _ _ _ _ _ _ T) as (_ & _ & _ & _ & Hep). eexists _, _, _, p', (a ++ [i]). split_and!; [|done|done|eapply loop_read; [done|done|done|]|by rewrite Hep|by right]; [|by split_and!; auto].
      by rewrite map_app.
    + refine (zero_step i a st' lock' rl' p p' bh' _ Ha Hi Hok' Hc' Hinv He T _ _); [done|]. apply want_zero; [done..|]. right.
      by apply (blocks_up psh bb cb z index Hbits (capped_size z)).
  - rewrite <- Hfs in He. set (bh' := mk_bh false false (bh_locked bh) (bh_async_read bh) NO_BLOCK). destruct (touch_put psh bb index p bhs i bh' V Hi) as (p' & E & T). erewrite on_page_run by exact E.
    by refine (zero_step i a st' lock' rl' p p' bh' _ Ha Hi Hok' Hc' Hinv He T _ _).
  - by apply (error_step i a st' lock' rl' p bh).
Qed.
End Loop.
