(* ===== verification/PageReadDone.v ===== *)
(** * Reading pages: the completion of the reads

    The reads complete in any order; the last one unlocks the page, which then holds
    the bytes of the attribute or is marked by an error. *)

From Stdlib Require Import ZArith Lia Bool.
From stdpp Require Import base list numbers option sets.
From S2P Require Import Prelude Endian Runlist Mst AttrList PageRead PageReadSpec PageReadBlock.

(** ** The environment *)

Section Device.
Context (psh bb : Z) (z : sizes) (mst : option Z) (dev : Z -> Z).

(** A submitted read of buffer [i] ends: the block is in memory, if it could be read,
    and the handler is called. *)
Definition complete (ev : nat * bool) (p : page) : outcome page :=
  bh ← get_bh p (Z.of_nat (fst ev));
  let p := if snd ev then set_data (splice (pg_data p) (fst ev * bsz bb) (dev_block bb dev (b_blocknr bh))) p else p in
  ntfs_end_buffer_async_read psh bb z mst (Z.of_nat (fst ev)) (snd ev) p.

Fixpoint completes (evs : list (nat * bool)) (p : page) : outcome page :=
  match evs with
  | [] => Ret p
  | ev :: evs => p ← complete ev p; completes evs p
  end.
End Device.

(** ** The loop over the buffers of the handler *)

Lemma all_read_done ring u : Forall (fun bh => bh_async_read bh = false) ring -> all_read ring u = Ret (Some (u && forallb bh_uptodate ring)).
Proof.
  revert u. induction ring as [|bh ring IH]; intros u Ha; cbn; [by rewrite andb_true_r|]. apply list.Forall_cons in Ha as [-> Ha]. rewrite IH by done. by rewrite andb_assoc.
Qed.

Lemma all_read_busy ring u : Exists (fun bh => bh_async_read bh = true) ring -> Forall (fun bh => bh_async_read bh = true -> bh_locked bh = true) ring ->
  all_read ring u = Ret None.
Proof.
  revert u. induction ring as [|bh ring IH]; intros u He Ha; [by apply Exists_nil in He|]. apply list.Forall_cons in Ha as [Hl Ha]. cbn. apply Exists_cons in He as [He|He].
  - by rewrite He, Hl.
  - destruct (bh_async_read bh); [by rewrite Hl|by apply IH].
Qed.

Lemma rotate_elem {A} (n : nat) (l : list A) x : x ∈ drop n l ++ take n l <-> x ∈ l.
Proof. rewrite elem_of_app. rewrite <- (take_drop n l) at 3. rewrite elem_of_app. tauto. Qed.

Section Done.
Context {ST : Type} {RS : RunlistSource ST} (ok : ST -> Prop).
Context (psh bb cb : Z) (z : sizes) (lcn_of : Z -> Z) (dev : Z -> Z) (index : Z) (mst : option Z).
Hypothesis Hsrc : source_ok ok lcn_of.
Hypothesis Hbits : 0 <= bb <= psh /\ bb <= cb.
Hypothesis Hsizes : 0 <= capped_size z <= allocated_size z.
Hypothesis Hindex : 0 <= index /\ (index + 1) * 2 ^ psh <= S64_MAX.
Hypothesis Hlcn : forall v, lcn_of v * 2 ^ cb <= S64_MAX.
Notation nblk := (nblk psh bb).
Notation bsz := (bsz bb).
Notation slice := (slice bsz).
Notation want := (want psh bb cb z lcn_of dev index).
Notation pos_of := (pos_of psh bb index).
Notation nr_of := (nr_of psh bb cb index).
Notation binv := (binv psh bb index).
Notation touches := (touches psh bb index).
Notation located := (located psh bb cb lcn_of index).
Notation settled := (settled psh bb cb z lcn_of dev index).
Notation to_read := (to_read psh bb cb lcn_of index).
Notation Qloop := (Qloop psh bb cb z lcn_of dev index).
Notation vcn_of := (vcn_of psh bb cb index).

(** A buffer that is being read. *)
Definition busy (k : nat) (bh : buffer_head) : Prop := bh_locked bh = true /\ bh_async_read bh = true /\ bh_uptodate bh = false /\ located k bh.

(** The buffers [W] are being read, the others are settled. *)
Definition Qbusy (W : list nat) (e : bool) (k : nat) (bh : buffer_head) (blk : list Z) : Prop :=
  if decide (k ∈ W) then busy k bh else settled e k bh blk.

(** Some of those to be read are locked already. *)
Definition Qlock (L l : list nat) (e : bool) (k : nat) (bh : buffer_head) (blk : list Z) : Prop :=
  if decide (k ∈ L) then busy k bh else if decide (k ∈ l) then to_read k bh else settled e k bh blk.

Lemma binv_impl (Q Q' : bool -> nat -> buffer_head -> list Z -> Prop) p : (forall k bh blk, (k < nblk)%nat -> Q (pg_error p) k bh blk -> Q' (pg_error p) k bh blk) -> binv Q p -> binv Q' p.
Proof using Type.
  intros HQ (bhs & V & H). exists bhs. split; [done|]. intros k bh Hl. apply HQ; [|by apply H]. pose proof V as (_ & _ & <- & _). by eapply lookup_lt_Some.
Qed.

Lemma lock_buffers_spec l : forall L p, NoDup (L ++ l) -> (forall k, k ∈ l -> (k < nblk)%nat) -> binv (Qlock L l) p ->
  exists p', lock_buffers (map Z.of_nat l) p = Ret p' /\ binv (Qlock (L ++ l) []) p' /\ pg_error p' = pg_error p.
Proof using Type.
  clear Hlcn Hindex Hsizes Hbits. induction l as [|i l IH]; intros L p Hnd Hlt Hinv.
  { exists p. rewrite app_nil_r. by split_and!. }
  assert (Hi : (i < nblk)%nat) by (apply Hlt; left). destruct (binv_get _ _ _ _ _ _ Hinv Hi) as (bh & Hg & HQ).
  apply NoDup_app in Hnd as Hnd'. destruct Hnd' as (_ & Hd & [Hil _]%NoDup_cons).
  assert (HiL : i ∉ L) by (intros H; apply (Hd i H); left).
  unfold Qlock in HQ. rewrite decide_False in HQ by done. rewrite decide_True in HQ by left. destruct HQ as ((Hl & Ha) & Hu & Hloc).
  cbn [map lock_buffers]. rewrite Hg, bind_Ret, Hl. pose proof (touch_same _ _ _ _ _ _ _ Hinv Hi Hg) as T0. destruct (touched_view _ _ _ _ _ _ _ _ _ T0) as (bhs & V & _).
  destruct (touch_put psh bb index p bhs i (mk_bh (bh_uptodate bh) (bh_mapped bh) true true (b_blocknr bh)) V Hi) as (p1 & E1 & T1). rewrite E1, bind_Ret.
  destruct (touched_view _ _ _ _ _ _ _ _ _ T1) as (_ & _ & _ & _ & He1).
  destruct (IH (L ++ [i]) p1) as (p' & E' & Hinv' & He').
  - by rewrite <- app_assoc.
  - intros k Hk. apply Hlt. by right.
  - eapply binv_touch; [done|done| |].
    + unfold Qlock. rewrite decide_True by (apply elem_snoc; by right). done.
    + intros k bh' c Hne. unfold Qlock. destruct (decide (k ∈ L)) as [HkL|HkL].
      * by rewrite (decide_True (P := k ∈ L ++ [i])) by (apply elem_snoc; by left).
      * rewrite (decide_False (P := k ∈ L ++ [i])) by (by intros [?|?]%elem_snoc). destruct (decide (k ∈ i :: l)) as [Hk|Hk].
        -- rewrite decide_True; [done|]. by apply elem_of_cons in Hk as [?|?].
        -- rewrite (decide_False (P := k ∈ l)); [done|]. intros ?. apply Hk. by right.
  - exists p'. rewrite <- app_assoc in Hinv'. split_and!; [done|done|congruence].
Qed.

(** No buffer is up to date when the reads are submitted. *)
Lemma submit_spec l p W : binv (Qbusy W) p -> (forall k, k ∈ l -> k ∈ W /\ (k < nblk)%nat) ->
  submit_buffers psh bb z mst (map Z.of_nat l) p = Ret (p, map Z.of_nat l).
Proof using Type.
  clear Hlcn Hindex Hsizes Hbits. intros Hinv. induction l as [|i l IH]; intros Hl; [done|]. destruct (Hl i ltac:(left)) as [HiW Hi].
  destruct (binv_get _ _ _ _ _ _ Hinv Hi) as (bh & Hg & HQ). unfold Qbusy in HQ. rewrite decide_True in HQ by done. destruct HQ as (_ & _ & Hu & _).
  cbn [map submit_buffers]. rewrite Hg, bind_Ret, Hu. cbn [negb]. rewrite IH; [done|]. intros k Hk. apply Hl. by right.
Qed.

(** The block arrives. *)
Lemma touch_dma p bhs i bh nr : pview psh bb index p bhs -> bhs !! i = Some bh ->
  touches i p (set_data (splice (pg_data p) (i * bsz) (dev_block bb dev nr)) p) bh (dev_block bb dev nr) (pg_error p).
Proof using Hbits.
  clear Hlcn Hindex Hsizes. intros V Hb. pose proof V as (Hi & E & Hn & Hd & Hl & Hu). assert (Hk : (i < nblk)%nat) by (rewrite <- Hn; by eapply lookup_lt_Some).
  assert (Hlen : length (dev_block bb dev nr) = bsz) by (unfold dev_block; by rewrite length_map, length_seq).
  exists bhs. rewrite list_insert_id by done. cbn [set_data pg_data]. split_and!; try done.
  - split_and!; try done. cbn [set_data pg_data]. rewrite splice_length; [done|]. rewrite Hd, Hlen. clear -Hk. nia.
  - replace (i * bsz)%nat with (i * bsz + 0)%nat by lia. rewrite (slice_splice bsz i i _ _ _ nblk) by (done || lia). rewrite decide_True by done.
    apply splice_all. by rewrite (slice_length bsz i _ nblk).
  - intros k' Hne. replace (i * bsz)%nat with (i * bsz + 0)%nat by lia. rewrite (slice_splice bsz i k' _ _ _ nblk) by (done || lia). by rewrite decide_False.
Qed.

(** The part behind the initialized size is zeroed. *)
Lemma touch_tail p bhs i bh : pview psh bb index p bhs -> bhs !! i = Some bh -> (i < nblk)%nat -> 0 <= lcn_of (vcn_of i) ->
  slice i (pg_data p) = dev_block bb dev (nr_of i (lcn_of (vcn_of i))) ->
  exists p', zero_tail psh bb z (Z.of_nat i) p = Ret p' /\ touches i p p' bh (want i) (pg_error p).
Proof using Hbits Hindex Hlcn.
  intros V Hb Hi H0 Hs. pose proof (want_read psh bb cb z lcn_of dev index Hbits Hindex Hlcn i Hi H0) as Hw. cbv zeta in Hw. clear Hlcn. pose proof V as (Hx & _).
  unfold zero_tail. assert (Z.shiftl (pg_index p) psh + Z.of_nat i * blocksize bb = pos_of i) as -> by (rewrite Hx, Z.shiftl_mul_pow2 by lia; done).
  unfold blocksize. destruct (Z.gtb_spec (pos_of i + 2 ^ bb) (capped_size z)).
  - set (ofs := if pos_of i <? capped_size z then capped_size z - pos_of i else 0) in *.
    assert (Hofs : 0 <= ofs <= 2 ^ bb) by (pose proof (Z.pow_pos_nonneg 2 bb); unfold ofs; destruct (Z.ltb_spec (pos_of i) (capped_size z)); lia).
    destruct (touch_zero psh bb index ltac:(lia) p bhs i bh ofs (2 ^ bb - ofs) V Hb) as (p' & E & T); [lia..|].
    exists p'. split; [done|]. rewrite Hs in T. by rewrite Hw.
  - exists p. split; [done|]. assert (want i = slice i (pg_data p)) as -> by (by rewrite Hw, Hs). exists bhs. rewrite list_insert_id by done. by split_and!.
Qed.

(** What the handler sees of the other buffers. *)
Lemma all_read_spec W p i u : binv (Qbusy W) p -> (forall k, k ∈ W -> (k < nblk)%nat) ->
  exists r, all_read (drop i (default [] (pg_buffers p)) ++ take i (default [] (pg_buffers p))) u = Ret r /\
    match r with None => W <> [] | Some v => W = [] /\ (u = true -> pg_error p = false -> v = true) end.
Proof using Type.
  clear Hlcn Hindex Hsizes Hbits. intros (bhs & V & HQ) HW. pose proof V as (_ & -> & Hn & _). cbn [default]. destruct W as [|w W].
  - eexists. split; [apply all_read_done|].
    + apply list.Forall_forall. intros bh Hbh. apply rotate_elem, list_elem_of_lookup in Hbh as [k Hk]. apply HQ in Hk as [[_ Ha] _]. done.
    + split; [done|]. intros -> He. cbn [andb]. apply forallb_forall. intros bh Hbh. apply list_elem_of_In in Hbh. revert bh Hbh. intros bh Hbh. apply rotate_elem, list_elem_of_lookup in Hbh as [k Hk].
      apply HQ in Hk as [_ Hk]. destruct (bh_uptodate bh); [done|congruence].
  - exists None. split; [|done]. apply all_read_busy.
    + destruct (lookup_lt_is_Some_2 bhs w) as [bh Hbh]; [rewrite Hn; apply HW; left|]. apply list.Exists_exists. exists bh. split; [by apply rotate_elem, list_elem_of_lookup; exists w|].
      apply HQ in Hbh. unfold Qbusy in Hbh. rewrite decide_True in Hbh by left. apply Hbh.
    + apply list.Forall_forall. intros bh Hbh. apply rotate_elem, list_elem_of_lookup in Hbh as [k Hk]. apply HQ in Hk. unfold Qbusy in Hk.
      case_decide; [by destruct Hk|]. destruct Hk as [[_ ->] _]. done.
Qed.

(** The buffer and its block before the handler looks at the other buffers. *)
Lemma end_buffer_spec p bhs i o bh : pview psh bb index p bhs -> bhs !! i = Some bh -> busy i bh -> (i < nblk)%nat ->
  (o = true -> slice i (pg_data p) = dev_block bb dev (b_blocknr bh)) ->
  exists p1 blk, touches i p p1 (mk_bh o (bh_mapped bh) false false (b_blocknr bh)) blk (pg_error p || negb o) /\ (o = true -> blk = want i) /\
    ntfs_end_buffer_async_read psh bb z mst (Z.of_nat i) o p =
      (done ← all_read (drop i (default [] (pg_buffers p1)) ++ take i (default [] (pg_buffers p1))) true; match done with None => Ret p1 | Some u => finish_page psh mst u p1 end).
Proof using Hbits Hindex Hlcn.
  intros V Hb (Hl & Ha & Hu & [H0 Hnr]) Hi Hs.
  assert (Hgo : exists p1 blk, touches i p p1 (mk_bh o (bh_mapped bh) (bh_locked bh) (bh_async_read bh) (b_blocknr bh)) blk (pg_error p || negb o) /\ (o = true -> blk = want i) /\
    ((if o then p ← put_bh p (Z.of_nat i) (mk_bh true (bh_mapped bh) (bh_locked bh) (bh_async_read bh) (b_blocknr bh)); zero_tail psh bb z (Z.of_nat i) p
      else p ← put_bh p (Z.of_nat i) (mk_bh false (bh_mapped bh) (bh_locked bh) (bh_async_read bh) (b_blocknr bh)); Ret (SetPageError p)) = Ret p1)).
  { destruct (touch_put psh bb index p bhs i (mk_bh o (bh_mapped bh) (bh_locked bh) (bh_async_read bh) (b_blocknr bh)) V Hi) as (p1 & E1 & T1).
    destruct (touched_view _ _ _ _ _ _ _ _ _ T1) as (bhs1 & V1 & Hb1 & Hs1 & He1). destruct o.
    - rewrite E1, bind_Ret. rewrite Hs in Hs1 by done. rewrite Hnr in Hs1. destruct (touch_tail p1 bhs1 i _ V1 Hb1 Hi H0 Hs1) as (p2 & E2 & T2).
      exists p2, (want i). rewrite He1 in T2. cbn [negb]. rewrite orb_false_r. split_and!; [by eapply touches_trans|done|done].
    - rewrite E1, bind_Ret. exists (SetPageError p1), (slice i (pg_data p1)). cbn [negb]. rewrite orb_true_r. split_and!; [|done|done].
      eapply touches_trans; [done|]. by eapply touch_error. }
  clear Hlcn. destruct Hgo as (p1 & blk & T1 & Hblk & E1). unfold ntfs_end_buffer_async_read.
  assert (get_bh p (Z.of_nat i) = Ret bh) as ->. { pose proof V as (_ & E & _). unfold get_bh. rewrite E. apply rd_spec. split; [lia|]. by rewrite Nat2Z.id. }
  rewrite bind_Ret, E1, bind_Ret, (touched_get _ _ _ _ _ _ _ _ _ T1), bind_Ret. cbn [bh_uptodate bh_mapped b_blocknr].
  destruct (touched_view _ _ _ _ _ _ _ _ _ T1) as (bhs1 & V1 & Hb1 & Hs1 & He1).
  destruct (touch_put psh bb index p1 bhs1 i (mk_bh o (bh_mapped bh) false false (b_blocknr bh)) V1 Hi) as (p2 & E2 & T2). rewrite E2, bind_Ret, Nat2Z.id. rewrite Hs1, He1 in T2.
  exists p2, blk. split_and!; [by eapply touches_trans|done|done].
Qed.

Lemma complete_spec W i o p : binv (Qbusy (i :: W)) p -> i ∉ W -> (forall k, k ∈ i :: W -> (k < nblk)%nat) ->
  exists p1, binv (Qbusy W) p1 /\ pg_error p1 = pg_error p || negb o /\
    (W <> [] /\ complete psh bb z mst dev (i, o) p = Ret p1 \/
     W = [] /\ exists u, complete psh bb z mst dev (i, o) p = finish_page psh mst u p1 /\ (pg_error p1 = false -> u = true)).
Proof using Hbits Hindex Hlcn.
  intros Hinv HiW Hlt. assert (Hi : (i < nblk)%nat) by (apply Hlt; left). destruct (binv_get _ _ _ _ _ _ Hinv Hi) as (bh & Hg & HQ).
  unfold Qbusy in HQ. rewrite decide_True in HQ by left. pose proof (touch_same _ _ _ _ _ _ _ Hinv Hi Hg) as T0.
  set (pA := if o then set_data (splice (pg_data p) (i * bsz) (dev_block bb dev (b_blocknr bh))) p else p).
  assert (exists blkA, touches i p pA bh blkA (pg_error p) /\ (o = true -> blkA = dev_block bb dev (b_blocknr bh))) as (blkA & TA & HA).
  { unfold pA. destruct (touched_view _ _ _ _ _ _ _ _ _ T0) as (bhs & V & Hb & _). destruct o; [|by eexists]. eexists. split; [by eapply touch_dma|done]. }
  destruct (touched_view _ _ _ _ _ _ _ _ _ TA) as (bhsA & VA & HbA & HsA & HeA).
  destruct (end_buffer_spec pA bhsA i o bh VA HbA HQ Hi) as (p1 & blk & T1 & Hblk & E1); [by rewrite HsA|]. rewrite HeA in T1.
  pose proof (touches_trans _ _ _ _ _ _ _ _ _ _ _ _ _ TA T1) as T. destruct (touched_view _ _ _ _ _ _ _ _ _ T) as (_ & _ & _ & _ & He1). clear Hlcn.
  assert (Hinv1 : binv (Qbusy W) p1).
  { eapply binv_touch; [done|done| |].
    - unfold Qbusy. rewrite decide_False by done. split; [done|]. cbn [bh_uptodate]. destruct o; [by apply Hblk|by rewrite orb_true_r].
    - intros k bh' c Hne. unfold Qbusy. destruct (decide (k ∈ i :: W)) as [Hk|Hk].
      + rewrite decide_True; [done|]. by apply elem_of_cons in Hk as [?|?].
      + rewrite (decide_False (P := k ∈ W)) by (intros ?; apply Hk; by right). apply settled_mono. by intros ->. }
  exists p1. split_and!; [done|done|]. unfold complete. cbn [fst snd]. rewrite Hg, bind_Ret. fold pA. rewrite E1.
  destruct (all_read_spec W p1 i true Hinv1) as (r & -> & Hr); [intros k Hk; apply Hlt; by right|]. rewrite bind_Ret. destruct r as [u|]; [|by left].
  right. destruct Hr as [-> Hr]. split; [done|]. exists u. split; [done|]. by apply Hr.
Qed.

(** All the reads, in the order [evs]. *)
Lemma completes_spec evs : forall p, evs <> [] -> NoDup (map fst evs) -> binv (Qbusy (map fst evs)) p -> (forall k, k ∈ map fst evs -> (k < nblk)%nat) ->
  exists p1 u, binv (Qbusy []) p1 /\ pg_error p1 = pg_error p || negb (forallb snd evs) /\ completes psh bb z mst dev evs p = finish_page psh mst u p1 /\ (pg_error p1 = false -> u = true).
Proof using Hbits Hindex Hlcn.
  induction evs as [|[i o] evs IH]; intros p Hne Hnd Hinv Hlt; [done|]. cbn [map fst] in *. apply NoDup_cons in Hnd as [Hi Hnd].
  destruct (complete_spec _ _ o _ Hinv Hi Hlt) as (p1 & Hinv1 & He1 & H). clear Hlcn Hsizes Hindex Hbits. cbn [completes forallb snd].
  destruct H as [[Hn ->]|[Hn (u & -> & Hu)]].
  - rewrite bind_Ret. destruct (IH p1) as (p' & u & Hinv' & He' & E & Hu); [by destruct evs|done|done|intros k Hk; apply Hlt; by right|].
    exists p', u. split_and!; [done| |done|done]. rewrite He', He1, negb_andb. by rewrite orb_assoc.
  - destruct evs; [|done]. exists p1, u. split_and!; [done| | |done].
    + by rewrite He1, andb_true_r.
    + cbn [completes]. by destruct (finish_page psh mst u p1).
Qed.
End Done.

(** ** The page after all reads *)

Lemma unlock_run p : pg_locked p = true -> unlock_page p = Ret (mk_page (pg_index p) (pg_data p) (pg_buffers p) (pg_uptodate p) (pg_error p) false).
Proof. intros H. unfold unlock_page. by rewrite H. Qed.

Section Correct.
Context {ST : Type} {RS : RunlistSource ST} (ok : ST -> Prop).
Context (psh bb cb : Z) (z : sizes) (lcn_of : Z -> Z) (dev : Z -> Z).

(** The sizes of blocks, pages and clusters, the sizes of the attribute, and that
    offsets in bytes fit in 63 bits. *)
Record geometry_ok (index : Z) : Prop := {
  go_bits : 0 <= bb <= psh /\ bb <= cb;
  go_sizes : 0 <= capped_size z <= allocated_size z;
  go_index : 0 <= index /\ (index + 1) * 2 ^ psh <= S64_MAX;
  go_lcn : forall v, lcn_of v * 2 ^ cb <= S64_MAX;
}.

(** A page to be read: locked, neither up to date nor in error, and what its buffers
    say, if it has any, is right. *)
Definition readable (p : page) : Prop :=
  pg_locked p = true /\ pg_uptodate p = false /\ pg_error p = false /\ length (pg_data p) = (nblk psh bb * bsz bb)%nat /\
  match pg_buffers p with
  | None => True
  | Some bhs => length bhs = nblk psh bb /\
      forall k bh, bhs !! k = Some bh -> fresh psh bb cb z lcn_of dev (pg_index p) k bh (slice (bsz bb) k (pg_data p))
  end.

(** The bytes of the attribute in page [index]. *)
Definition page_bytes (index : Z) : list Z := map (fun j => attr_byte cb z lcn_of dev (index * 2 ^ psh + Z.of_nat j)) (seq 0 (nblk psh bb * bsz bb)).

Context (index : Z) (mst : option Z) (failed : ST -> bool).
Hypothesis Hsrc : source_ok ok lcn_of.
Hypothesis Hlog : records_failure failed.
Hypothesis Hgeo : geometry_ok index.
Notation nblk := (nblk psh bb).
Notation bsz := (bsz bb).
Notation binv := (binv psh bb index).
Notation Qloop := (Qloop psh bb cb z lcn_of dev index).
Notation Qbusy := (Qbusy psh bb cb z lcn_of dev index).
Notation vcn_of := (vcn_of psh bb cb index).
Notation lblock := (Z.shiftr (allocated_size z + blocksize bb - 1) bb).
Notation zblock := (Z.shiftr (capped_size z + blocksize bb - 1) bb).
Notation iblock i := (Z.shiftl index (psh - bb) + Z.of_nat i).

Lemma read_buffers_spec n : forall i a st lock rl p, (i + n = nblk)%nat -> NoDup a -> (forall k, k ∈ a -> (k < i)%nat) -> ok st ->
  ((0 < n)%nat -> cursor st lock rl (vcn_of i)) -> lock = bool_decide (is_Some rl) -> binv (Qloop i a) p -> pg_error p = failed st ->
  exists st' rl' p' a', read_buffers bb cb n lblock zblock (Z.of_nat i) (iblock i) rl (map Z.of_nat a) (mk_rs st lock p) =
      Ret (mk_rs st' (bool_decide (is_Some rl')) p', (rl', map Z.of_nat a')) /\ ok st' /\ NoDup a' /\ (forall k, k ∈ a' -> (k < nblk)%nat) /\
    binv (Qloop nblk a') p' /\ pg_error p' = failed st'.
Proof using Hsrc Hlog Hgeo.
  destruct Hgeo as [Hbits Hsizes Hindex Hlcn]. induction n as [|n IH]; intros i a st lock rl p Hin Hnd Ha Hok Hc Hlock Hinv He.
  { assert (i = nblk) as -> by lia. exists st, rl, p, a. rewrite Hlock. by split_and!. }
  cbn [read_buffers].
  destruct (read_buffer_spec ok failed psh bb cb z lcn_of dev index Hsrc Hlog Hbits Hsizes Hindex Hlcn i a st lock rl p Ha ltac:(lia) Hok ltac:(apply Hc; lia) Hinv He)
    as (st1 & lock1 & rl1 & p1 & a1 & E1 & Hok1 & Hc1 & Hinv1 & He1 & Ha1).
  rewrite (PM_run _ _ _ _ _ E1). cbn [fst snd].
  replace (Z.of_nat i + 1) with (Z.of_nat (S i)) by lia. replace (iblock i + 1) with (iblock (S i)) by lia. apply IH; [lia| | |done| | |done|done].
  - destruct Ha1 as [->| ->]; [done|]. apply NoDup_app. split_and!; [done| |apply NoDup_singleton]. intros k Hk Hk'. apply list_elem_of_singleton in Hk' as ->. apply Ha in Hk. lia.
  - intros k Hk. destruct Ha1 as [->| ->]; [apply Ha in Hk; lia|]. apply elem_snoc in Hk as [Hk|Hk]; [apply Ha in Hk; lia|lia].
  - intros Hn. eapply cursor_later; [|done]. apply (vcn_of_mono psh bb cb index Hbits). lia.
  - destruct rl1 as [b|]; [by destruct Hc1|done].
Qed.

Lemma first_view p : readable p -> pg_index p = index -> binv (Qloop 0 []) (match pg_buffers p with Some _ => p | None => set_buffers (repeat empty_bh nblk) p end).
Proof using Type.
  intros (Hl & Hu & He & Hd & Hb) Hi. destruct (pg_buffers p) as [bhs|] eqn:E.
  - destruct Hb as [Hn Hb]. exists bhs. split; [by split_and!|]. intros k bh Hk. rewrite <- Hi. unfold PageReadBlock.Qloop. rewrite decide_False by lia. by apply Hb.
  - exists (repeat empty_bh nblk). split; [split_and!; try done; by rewrite repeat_length|]. intros k bh Hk. unfold PageReadBlock.Qloop. rewrite decide_False by lia.
    apply list_elem_of_lookup_2, list_elem_of_In, repeat_spec in Hk as ->. by split_and!.
Qed.

(** The page afterwards: reads are under way, or it has been unlocked. *)
Definition started (p' : page) (rv : Z) (a : list nat) : Prop :=
  (a <> [] /\ rv = 0 /\ binv (Qbusy a) p') \/
  (a = [] /\ exists p1, binv (Qbusy []) p1 /\ pg_error p1 = pg_error p' /\ rv = (if pg_error p1 then - EIO else 0) /\ finish_page psh None (negb (pg_error p1)) p1 = Ret p').

(** The end of [ntfs_read_block]: the lock is given back, the reads are started. *)
Lemma start_reads (rl : option rl_buf) a st p : NoDup a -> (forall k, k ∈ a -> (k < nblk)%nat) -> binv (Qloop nblk a) p ->
  exists p' rv, (match rl with Some _ => up_read | None => mret tt end;;
    if negb (bool_decide (map Z.of_nat a = [])) then on_page (lock_buffers (map Z.of_nat a));; sub ← submit psh bb z mst (map Z.of_nat a); mret (0, sub)
    else err ← asks (fun s => Ret (pg_error (r_page s)));
      if (err : bool) then on_page unlock_page;; mret (- EIO, []) else on_page (fun p => Ret (SetPageUptodate p));; on_page unlock_page;; mret (0, []))
      (mk_rs st (bool_decide (is_Some rl)) p) = Ret (mk_rs (st : ST) false p', (rv, map Z.of_nat a)) /\
    started p' rv a /\ pg_error p' = pg_error p.
Proof using Type.
  intros Hnd Hlt Hinv. rewrite (PM_run _ _ _ (mk_rs st false p) tt) by (by destruct rl). destruct a as [|i a].
  - cbn [map]. rewrite bool_decide_true by done. cbn [negb]. rewrite (asks_run _ _ _ (pg_error p)) by done.
    assert (Hinv' : binv (Qbusy []) p). { eapply binv_impl; [|done]. intros k bh blk Hk. unfold PageReadBlock.Qloop, PageReadDone.Qbusy. by rewrite decide_True. }
    pose proof Hinv' as (bhs & (_ & _ & _ & _ & Hl & _) & _). destruct (pg_error p) eqn:Ee.
    + eexists _, _. split; [by rewrite (on_page_run _ _ _ _ _ _ (unlock_run p Hl))|]. split; [|done]. right. split; [done|]. exists p. rewrite Ee.
      split_and!; try done. unfold finish_page. cbn [negb]. rewrite bind_Ret. cbn [andb]. by rewrite unlock_run, Ee.
    + rewrite (on_page_run _ _ _ _ _ (SetPageUptodate p)) by done.
      eexists _, _. split; [by rewrite (on_page_run _ _ _ _ _ _ (unlock_run (SetPageUptodate p) Hl))|]. split; [|done]. right. split; [done|]. exists p. rewrite Ee.
      split_and!; try done. unfold finish_page. cbn [negb]. rewrite bind_Ret, Ee. cbn [andb negb]. rewrite (unlock_run (SetPageUptodate p) Hl). cbn. by rewrite Ee.
  - rewrite bool_decide_false by done. cbn [negb].
    destruct (lock_buffers_spec psh bb cb z lcn_of dev index (i :: a) [] p) as (p1 & E1 & Hinv1 & He1); [done|done| |].
    { eapply binv_impl; [|done]. intros k bh blk Hk. unfold PageReadBlock.Qloop, Qlock. rewrite decide_True by done. by rewrite (decide_False (P := k ∈ [])) by (by intros ?%elem_of_nil). }
    rewrite (on_page_run _ _ _ _ _ _ E1).
    assert (Hinv' : binv (Qbusy (i :: a)) p1).
    { eapply binv_impl; [|done]. intros k bh blk Hk. unfold Qlock, PageReadDone.Qbusy. cbn [app]. case_decide; [done|]. by rewrite decide_False by (by intros ?%elem_of_nil). }
    pose proof (submit_spec psh bb cb z lcn_of dev index mst (i :: a) p1 (i :: a) Hinv' ltac:(auto)) as Es.
    rewrite (PM_run _ _ _ (mk_rs st false p1) (map Z.of_nat (i :: a))) by (unfold submit; cbn [r_page]; by rewrite Es).
    eexists p1, _. split; [done|]. split; [by left|done].
Qed.

Lemma read_block_spec st p mft_data create_ok : ok st -> failed st = false -> readable p -> pg_index p = index -> (mft_data = true -> rl_now st <> None) -> (create_ok = true \/ is_Some (pg_buffers p)) ->
  exists st' p' rv a, ntfs_read_block psh bb cb z mst mft_data create_ok (mk_rs st false p) = Ret (mk_rs st' false p', (rv, map Z.of_nat a)) /\
    ok st' /\ NoDup a /\ (forall k, k ∈ a -> (k < nblk)%nat) /\ started p' rv a /\ pg_error p' = failed st'.
Proof using Hsrc Hlog Hgeo.
  intros Hok Hf0 Hp Hi Hm Hcr. pose proof (first_view p Hp Hi) as Hinv. set (p0 := match pg_buffers p with Some _ => p | None => set_buffers (repeat empty_bh nblk) p end) in Hinv.
  unfold ntfs_read_block. rewrite (asks_run _ _ _ (rl_now st)) by done.
  rewrite (PM_run _ _ _ (mk_rs st false p) tt); [|unfold plift, BUG_ON; destruct mft_data; [rewrite bool_decide_false by auto|rewrite andb_false_r]; done].
  rewrite (asks_run _ _ _ (bool_decide (is_Some (pg_buffers p)))) by done. cbv zeta.
  assert (negb (bool_decide (is_Some (pg_buffers p))) && negb create_ok = false) as ->.
  { destruct Hcr as [->|Hs]; [by rewrite andb_false_r|]. by rewrite bool_decide_true. }
  rewrite (PM_run _ _ _ (mk_rs st false p0) tt); [|unfold p0; destruct (pg_buffers p) eqn:Eb; done].
  rewrite (asks_run _ _ _ index); [|unfold p0; destruct (pg_buffers p); cbn; by rewrite Hi].
  destruct (read_buffers_spec nblk 0 [] st false None p0) as (st' & rl' & p' & a' & E & Hok' & Hnd & Hlt & Hinv' & He'); [lia|apply NoDup_nil_2|by intros k ?%elem_of_nil|done|done|done|done| |].
  { unfold p0. destruct Hp as (_ & _ & He & _). destruct (pg_buffers p); cbn; by rewrite He, Hf0. }
  cbn [map Z.of_nat] in E. rewrite Z.add_0_r in E. fold nblk. rewrite (PM_run _ _ _ _ _ E). cbv iota.
  destruct (start_reads rl' a' st' p' Hnd Hlt Hinv') as (p2 & rv & E2 & Hst & He2). exists st', p2, rv, a'. rewrite He2. split_and!; try done.
Qed.

Lemma settled_bytes p : binv (Qbusy []) p -> pg_error p = false -> pg_data p = page_bytes index.
Proof using Type.
  intros (bhs & (_ & _ & Hn & Hd & _) & HQ) He. apply list_eq. intros j. unfold page_bytes. rewrite list_lookup_fmap.
  destruct (decide (j < nblk * bsz)%nat) as [Hj|Hj].
  2: { rewrite lookup_seq_ge by lia. rewrite lookup_ge_None_2; [done|lia]. }
  assert (Hb : (0 < bsz)%nat) by (destruct (decide (bsz = 0%nat)) as [E|]; [rewrite E, Nat.mul_0_r in Hj|]; lia). set (k := (j / bsz)%nat). set (r := (j mod bsz)%nat).
  assert (Hjk : j = (k * bsz + r)%nat) by (unfold k, r; rewrite Nat.mul_comm; apply Nat.div_mod; lia). assert (Hr : (r < bsz)%nat) by (apply Nat.mod_upper_bound; lia).
  assert (Hk : (k < nblk)%nat) by (apply Nat.Div0.div_lt_upper_bound; lia).
  destruct (lookup_lt_is_Some_2 bhs k) as [bh Hbh]; [by rewrite Hn|]. apply HQ in Hbh as [_ Hs]. rewrite He in Hs. destruct (bh_uptodate bh); [|done].
  pose proof (slice_lookup bsz k (pg_data p) r) as E. rewrite decide_True, <- Hjk in E by done. rewrite <- E, Hs, want_lookup, decide_True by done.
  rewrite lookup_seq_lt by done. cbn. do 2 f_equal. unfold pos_of. rewrite Hjk. rewrite Nat2Z.inj_add, Nat2Z.inj_mul.
  assert (Z.of_nat bsz = 2 ^ bb) as -> by (apply Z2Nat.id, Z.pow_nonneg; done). ring.
Qed.

(** The last step for a page that is not protected by fixups. *)
Lemma finish_plain u p : pg_locked p = true -> pg_uptodate p = false -> (pg_error p = false -> u = true) ->
  exists p2, finish_page psh None u p = Ret p2 /\ pg_locked p2 = false /\ pg_uptodate p2 = negb (pg_error p) /\ pg_data p2 = pg_data p.
Proof using Type.
  intros Hl Hu Hok. unfold finish_page. rewrite bind_Ret. destruct (pg_error p) eqn:Ee; cbn [negb].
  - rewrite andb_false_r, unlock_run by done. by eexists.
  - rewrite Hok by done. cbn [andb]. rewrite (unlock_run (SetPageUptodate p) Hl). by eexists.
Qed.
End Correct.
