(* ===== verification/ReadPage.v ===== *)
(** * The readpage operation

    Models [ntfs_readpage] of [src/ntfs/aops.c] on top of [ntfs_read_block]: pages of
    encrypted, compressed, non-resident and resident attributes.  The data of a
    resident attribute are copied from the mft record. *)

From Stdlib Require Import ZArith Lia Bool.
From stdpp Require Import base list numbers option gmap.
From S2P Require Import Prelude Endian Runlist RunlistMerge MappingPairs Unistr Collate Attrib MftMap AttrLookup MapRunlist AttrList PageRead.

(** The runlist of an inode is a source of runlists: it is read under its lock, and
    mapped by [ntfs_map_runlist], the others leaving it alone. *)
Section Source.
Context `{KA : KernelAlloc} (vol : ntfs_volume).
Context (upcase : list Z) (upcase_len : Z).
Context (read_mapping_page : Z -> Z + (list Z * bool)) (i_size mft_record_size_bits PAGE_CACHE_SHIFT : Z).

#[export] Instance inode_source : RunlistSource (world * attr_inode) := {
  rl_now st := ai_rl (snd st);
  rl_map vcn st :=
    '(w, (ni, err)) ← ntfs_map_runlist vol upcase upcase_len read_mapping_page i_size mft_record_size_bits PAGE_CACHE_SHIFT (snd st) [] vcn (fst st);
    Ret ((w, ni), err);
}.
End Source.

(** The inode of the page: the attribute, the flags [NInoEncrypted],
    [NInoCompressed], the record size if [NInoMstProtected], the sizes, and whether
    it is the data of $MFT. *)
Record page_inode := mk_page_inode {
  pi_attr : attr_inode;
  pi_encrypted : bool;
  pi_compressed : bool;
  pi_mst : option Z;
  pi_sizes : sizes;
  pi_mft_data : bool;
}.

Definition with_attr (a : attr_inode) (pi : page_inode) : page_inode :=
  mk_page_inode a (pi_encrypted pi) (pi_compressed pi) (pi_mst pi) (pi_sizes pi) (pi_mft_data pi).

(** A parallel write has made the attribute non-resident. *)
Definition made_non_resident (ni : attr_inode) : attr_inode :=
  mk_attr_inode (ai_base ni) (ai_type ni) (ai_name ni) (ai_name_len ni) true (ai_allocated_size ni) (ai_rl ni) (ai_lock ni).

(** The function returns, with the reads under way, or hands the page over to
    [ntfs_read_compressed_block]. *)
Inductive readpage_result := Returns (err : Z) (reads : list Z) | ReadCompressed.

Definition EACCES : Z := 13.
Definition AT_DATA : Z := 0x80.

Section ReadPage.
Context `{KA : KernelAlloc} (vol : ntfs_volume).
Context (upcase : list Z) (upcase_len : Z).
Context (read_mapping_page : Z -> Z + (list Z * bool)) (i_size mft_record_size_bits PAGE_CACHE_SHIFT blocksize_bits : Z).
(** Whether [create_empty_buffers] succeeds. *)
Context (create_ok : bool).

(** From the label [err_out] on, and from [done] on. *)
Definition err_out (pi : page_inode) (p : page) (err : Z) : M (page_inode * page * readpage_result) :=
  p ← lift (unlock_page p); mret (pi, p, Returns err []).
Definition done_out (pi : page_inode) (p : page) (err : Z) : M (page_inode * page * readpage_result) := err_out pi (SetPageUptodate p) err.

(** [ntfs_read_block] on the runlist of the inode. *)
Definition read_block (pi : page_inode) (p : page) : M (page_inode * page * readpage_result) := fun w =>
  '(s, r) ← ntfs_read_block (RS := inode_source vol upcase upcase_len read_mapping_page i_size mft_record_size_bits PAGE_CACHE_SHIFT)
    PAGE_CACHE_SHIFT blocksize_bits (vol_cluster_size_bits vol) (pi_sizes pi) (pi_mst pi) (pi_mft_data pi) create_ok (mk_rs (w, pi_attr pi) false p);
  Ret (fst (r_src s), (with_attr (snd (r_src s)) pi, r_page s, Returns (fst r) (snd r))).

(** [attr_len], for a value of [len] bytes *)
Definition capped_len (z : sizes) (len : Z) : Z :=
  let len := if len >? initialized_size z then initialized_size z else len in
  if len >? PageRead.i_size z then PageRead.i_size z else len.

(** The value of the attribute at [a] is copied to the page, the rest is zeroed. *)
Definition copy_value (z : sizes) (m : list Z) (a : Z) (p : page) : outcome page :=
  value_length ← rd_le32 m (a + A_value_length);
  let attr_len := capped_len z value_length in
  value_offset ← rd_le16 m (a + A_value_offset);
  d ← blit (pg_data p) 0 m (a + value_offset) attr_len;
  d ← memset0 d attr_len (PAGE_SIZE PAGE_CACHE_SHIFT - attr_len);
  Ret (set_data d p).

(** The resident case, with the mft record [m] mapped. *)
Definition read_resident (pi : page_inode) (m : list Z) (p : page) : M (page_inode * page * readpage_result) :=
  let ni := pi_attr pi in
  ctx ← ntfs_attr_get_search_ctx (ai_base ni) m;
  match ctx with
  | None => unmap_mft_record (ai_base ni);; done_out pi p (- ENOMEM)
  | Some ctx =>
      r ← ntfs_attr_lookup upcase upcase_len read_mapping_page i_size mft_record_size_bits PAGE_CACHE_SHIFT
            (mk_search (ai_type ni) (ai_name ni) (ai_name_len ni) CASE_SENSITIVE 0 None 0) ctx;
      let '(ctx, err) := r in
      p ← (if err =? 0 then lift (copy_value (pi_sizes pi) (mrec ctx) (attr ctx) p) else mret p);
      ntfs_attr_put_search_ctx ctx;;
      unmap_mft_record (ai_base ni);;
      done_out pi p err
  end.

(** From the label [retry_readpage] on; [writes] says, for each time the record has
    been mapped, whether a parallel write had made the attribute non-resident, which
    happens at most once. *)
Fixpoint ntfs_readpage (writes : list bool) (pi : page_inode) (p : page) : M (page_inode * page * readpage_result) :=
  let ni := pi_attr pi in
  lift (BUG_ON (negb (pg_locked p)));;
  if pg_index p >=? Z.shiftr (PageRead.i_size (pi_sizes pi) + PAGE_SIZE PAGE_CACHE_SHIFT - 1) PAGE_CACHE_SHIFT then
    p ← lift (zero_user p 0 (PAGE_SIZE PAGE_CACHE_SHIFT)); done_out pi p 0
  else if pg_uptodate p then err_out pi p 0
  else if negb (ai_type ni =? AT_INDEX_ALLOCATION) && pi_encrypted pi then
    assert_not (negb (ai_type ni =? AT_DATA));; err_out pi p (- EACCES)
  else if negb (ai_type ni =? AT_INDEX_ALLOCATION) && (ai_non_resident ni && pi_compressed pi) then
    assert_not (negb (ai_type ni =? AT_DATA));; assert_not (negb (ai_name_len ni =? 0));; mret (pi, p, ReadCompressed)
  else if ai_non_resident ni then read_block pi p
  else if pg_index p >? 0 then p ← lift (zero_user p 0 (PAGE_SIZE PAGE_CACHE_SHIFT)); done_out pi p 0
  else
    m ← map_mft_record read_mapping_page i_size mft_record_size_bits PAGE_CACHE_SHIFT (ai_base ni);
    match m with
    | inl err => err_out pi p err
    | inr m =>
        match writes with
        | true :: writes => unmap_mft_record (ai_base ni);; ntfs_readpage writes (with_attr (made_non_resident ni) pi) p
        | _ => read_resident pi m p
        end
    end.
End ReadPage.
