(* ===== verification/ReadPageTheorems.v ===== *)
(** * The readpage operation: theorems

    The page of a resident attribute; pages that are read from the volume, with the
    runlist of the inode mapped on the way; what an error leaves behind. *)

From Stdlib Require Import ZArith Lia Bool.
From stdpp Require Import base list numbers option gmap.
From S2P Require Import Prelude Endian Runlist RunlistMerge RunlistTheorems MappingPairs MappingPairsTheorems Unistr Collate Attrib MftMap MftMapSpec AttrLookup AttrLookupProof AttrLookupInv AttrLookupTheorems AttrSession MapRunlist MapRunlistSpec MapRunlistTheorems AttrList PageRead PageReadSpec PageReadBlock PageReadDone ReadPage.

Section Resident.
Context {KA : KernelAlloc} (vol : ntfs_volume).
Context (upcase : list Z) (upcase_len : Z).
Context (read_mapping_page : Z -> Z + (list Z * bool)) (mft_size bits shift bb : Z) (create_ok : bool).
Hypothesis Hbits : 8 <= bits <= shift.
Hypothesis Hshift : shift < 31.
Hypothesis Hpages : forall n data err, read_mapping_page n = inr (data, err) -> zlen data = page_size shift /\ Forall byte_ok data.
Notation readpage := (ntfs_readpage vol upcase upcase_len read_mapping_page mft_size bits shift bb create_ok).

(** The first page of a resident attribute is to be read. *)
Record resident_page (pi : page_inode) (p : page) : Prop := {
  rp_resident : ai_non_resident (pi_attr pi) = false;
  rp_plain : pi_encrypted pi = false;
  rp_size : 0 < PageRead.i_size (pi_sizes pi);
  rp_locked : pg_locked p = true;
  rp_stale : pg_uptodate p = false;
  rp_first : pg_index p = 0;
}.

(** The search for the attribute ends with [err] at [ctx]. *)
Record attr_search_ends (w : world) (i : ntfs_inode) (ni : attr_inode) (w3 : world) (ctx : ntfs_attr_search_ctx) (err : Z) : Prop := {
  se_caller : session_caller w (ai_base ni) i;
  se_steps : exists w1 w2 m ctx0,
    map_mft_record read_mapping_page mft_size bits shift (ai_base ni) w = Ret (w1, inr m) /\
    ntfs_attr_get_search_ctx (ai_base ni) m w1 = Ret (w2, Some ctx0) /\
    ntfs_attr_lookup upcase upcase_len read_mapping_page mft_size bits shift (extent_search ni 0) ctx0 w2 = Ret (w3, (ctx, err));
}.

(** Everything up to [done] for a resident attribute, given what the copy does. *)
Lemma readpage_runs w i pi p w3 ctx err p1 : resident_page pi p -> attr_search_ends w i (pi_attr pi) w3 ctx err ->
  (if err =? 0 then copy_value shift (pi_sizes pi) (mrec ctx) (attr ctx) p = Ret p1 else p1 = p) -> pg_locked p1 = true ->
  exists w', readpage [] pi p w = Ret (w', (pi, mk_page (pg_index p1) (pg_data p1) (pg_buffers p1) true (pg_error p1) false, Returns err [])) /\
    released w (ai_base (pi_attr pi)) i w'.
Proof using Hbits Hshift Hpages.
  intros [Hnr Hen Hsz Hl Hu Hx] [Hc (w1 & w2 & m & ctx0 & E1 & E2 & E3)] Hcopy Hl1.
  pose proof (lookup_prefix _ _ _ _ _ _ Hbits Hshift Hpages _ _ _ _ _ _ _ _ _ _ _ Hc E1 E2 E3) as Hinv.
  destruct (put_unmap _ _ _ _ _ _ _ _ Hc Hinv) as (w4 & w5 & E4 & E5 & Hrel). exists w5. split; [|done].
  unfold ntfs_readpage. rewrite (M_run _ _ w w tt) by (rewrite Hl; done). rewrite Hx, Hu, Hen, Hnr, andb_false_r. cbn [andb].
  rewrite andb_false_r. rewrite Z.shiftr_div_pow2 by lia. unfold PAGE_SIZE.
  assert (1 <= (PageRead.i_size (pi_sizes pi) + 2 ^ shift - 1) / 2 ^ shift) by (apply Z.div_le_lower_bound; [apply Z.pow_pos_nonneg; lia|lia]).
  destruct (Z.geb_spec 0 ((PageRead.i_size (pi_sizes pi) + 2 ^ shift - 1) / 2 ^ shift)); [lia|]. change (0 >? 0) with false. cbv iota.
  rewrite (M_run _ _ _ _ _ E1). unfold read_resident. cbv zeta. rewrite (M_run _ _ _ _ _ E2), (M_run _ _ _ _ _ E3). cbv iota.
  rewrite (M_run _ _ w3 w3 p1). 2: { destruct (err =? 0); [by apply lift_eq|by rewrite Hcopy]. }
  rewrite (M_run _ _ _ _ _ E4), (M_run _ _ _ _ _ E5). unfold done_out, err_out.
  by rewrite (M_run _ _ _ _ _ (lift_eq _ _ _ (unlock_run (SetPageUptodate p1) Hl1))).
Qed.

(** What is copied. *)
Lemma copy_value_spec z m a p len vofs : rd_le32 m (a + A_value_length) = Ret len -> rd_le16 m (a + A_value_offset) = Ret vofs ->
  0 <= a + vofs -> 0 <= capped_len z len <= 2 ^ shift -> a + vofs + capped_len z len <= zlen m -> zlen (pg_data p) = 2 ^ shift ->
  copy_value shift z m a p =
    Ret (set_data (take (Z.to_nat (capped_len z len)) (drop (Z.to_nat (a + vofs)) m) ++ repeat 0 (Z.to_nat (2 ^ shift - capped_len z len))) p).
Proof using Type.
  clear Hbits Hshift Hpages. intros Hlen Hofs H0 Hn Hfit Hd. unfold copy_value. rewrite Hlen, bind_Ret, Hofs, bind_Ret. cbv zeta. set (n := capped_len z len) in *.
  unfold blit. rewrite (proj2 (Z.leb_le 0 (a + vofs))), (proj2 (Z.leb_le 0 n)), (proj2 (Z.leb_le (0 + n) _)), (proj2 (Z.leb_le (a + vofs + n) _)) by lia. cbn [Z.leb andb Z.compare].
  rewrite bind_Ret. change (take (Z.to_nat 0) (pg_data p)) with (@nil Z). rewrite app_nil_l, Z.add_0_l. set (v := take (Z.to_nat n) (drop (Z.to_nat (a + vofs)) m)).
  assert (Hv : length v = Z.to_nat n) by (unfold v; rewrite length_take, length_drop; unfold zlen in Hfit; lia).
  rewrite memset0_splice; [|lia|unfold PAGE_SIZE; lia|unfold PAGE_SIZE; rewrite zlen_app; unfold zlen in *; rewrite length_drop, Hv; lia].
  rewrite bind_Ret. do 2 f_equal. unfold splice, PAGE_SIZE. rewrite repeat_length, take_app_length' by done. f_equal.
  rewrite drop_ge; [by rewrite app_nil_r|]. rewrite length_app, length_drop, Hv. unfold zlen in Hd. lia.
Qed.
End Resident.

(** C25: Reading the page of a resident attribute ([ntfs_readpage]): the page holds the
    bytes of the value in the mft record, as many as are initialized and inside the
    file, followed by zeros; it is up to date and unlocked, 0 is returned, and the mft
    record and the search context are given back. *)
Theorem readpage_resident {KA : KernelAlloc} vol upcase upcase_len read_mapping_page mft_size bits shift bb create_ok w i pi p w3 ctx len vofs :
  8 <= bits <= shift -> shift < 31 -> (forall n data err, read_mapping_page n = inr (data, err) -> zlen data = page_size shift /\ Forall byte_ok data) ->
  resident_page pi p -> attr_search_ends upcase upcase_len read_mapping_page mft_size bits shift w i (pi_attr pi) w3 ctx 0 ->
  rd_le32 (mrec ctx) (attr ctx + A_value_length) = Ret len -> rd_le16 (mrec ctx) (attr ctx + A_value_offset) = Ret vofs -> 0 <= attr ctx + vofs ->
  let n := capped_len (pi_sizes pi) len in 0 <= n <= 2 ^ shift -> attr ctx + vofs + n <= zlen (mrec ctx) -> zlen (pg_data p) = 2 ^ shift ->
  exists w' p', ntfs_readpage vol upcase upcase_len read_mapping_page mft_size bits shift bb create_ok [] pi p w = Ret (w', (pi, p', Returns 0 [])) /\
    pg_data p' = take (Z.to_nat n) (drop (Z.to_nat (attr ctx + vofs)) (mrec ctx)) ++ repeat 0 (Z.to_nat (2 ^ shift - n)) /\
    pg_uptodate p' = true /\ pg_locked p' = false /\ released w (ai_base (pi_attr pi)) i w'.
Proof.
  intros Hb Hs Hpg Hrp Hse Hlen Hofs H0 n Hn Hfit Hd. pose proof (copy_value_spec shift (pi_sizes pi) _ _ p len vofs Hlen Hofs H0 Hn Hfit Hd) as Hcopy.
  destruct (readpage_runs vol upcase upcase_len _ _ _ _ bb create_ok Hb Hs Hpg w i pi p w3 ctx 0 _ Hrp Hse Hcopy) as (w' & E & Hrel); [apply Hrp|].
  exists w'. eexists. by split_and!.
Qed.

(** An error of the search for the attribute is returned, but the page, of which
    nothing has been read, is set up to date. *)
Theorem readpage_error_uptodate {KA : KernelAlloc} vol upcase upcase_len read_mapping_page mft_size bits shift bb create_ok w i pi p w3 ctx err :
  8 <= bits <= shift -> shift < 31 -> (forall n data err, read_mapping_page n = inr (data, err) -> zlen data = page_size shift /\ Forall byte_ok data) ->
  resident_page pi p -> attr_search_ends upcase upcase_len read_mapping_page mft_size bits shift w i (pi_attr pi) w3 ctx err -> err <> 0 ->
  exists w' p', ntfs_readpage vol upcase upcase_len read_mapping_page mft_size bits shift bb create_ok [] pi p w = Ret (w', (pi, p', Returns err [])) /\
    pg_uptodate p' = true /\ pg_data p' = pg_data p.
Proof.
  intros Hb Hs Hpg Hrp Hse He. destruct (readpage_runs vol upcase upcase_len _ _ _ _ bb create_ok Hb Hs Hpg w i pi p w3 ctx err p Hrp Hse) as (w' & E & _); [by rewrite (proj2 (Z.eqb_neq err 0))|apply Hrp|].
  exists w'. eexists. by split_and!.
Qed.

(** ** Reading from the volume *)

(** C14: Reading a page of a non-resident attribute that is not protected against torn
    writes ([ntfs_read_block] and [ntfs_end_buffer_async_read]), with a source of
    runlists that behaves as [ntfs_map_runlist] is documented to: a VCN has its place or
    is not mapped yet, mapping makes it known or fails, and -ENOENT comes only behind the
    end.  Whatever the runlist has already in memory, for a page with or without buffers:
    the call returns with the runlist lock given back and starts each read once; and in
    whatever order the reads complete, afterwards the page is unlocked; when it is up to
    date it holds the bytes of the attribute (from the right clusters of the volume,
    zeros in holes and behind the initialized size); and it is up to date exactly when
    no read has failed and no mapping of the runlist that this call made: the flag
    [failed], which the source sets when it fails to map a VCN ([logged]). *)
Theorem read_block_correct {ST : Type} {RS : RunlistSource ST} (ok : ST -> Prop) (psh bb cb : Z) (z : sizes) (lcn_of dev : Z -> Z) st p mft_data create_ok :
  source_ok ok lcn_of -> geometry_ok psh bb cb z lcn_of (pg_index p) -> ok st -> readable psh bb cb z lcn_of dev p ->
  (mft_data = true -> rl_now st <> None) -> (create_ok = true \/ is_Some (pg_buffers p)) ->
  exists st' failed p' rv reads,
    ntfs_read_block (RS := logged RS) psh bb cb z None mft_data create_ok (mk_rs (st, false) false p) = Ret (mk_rs (st', failed) false p', (rv, map Z.of_nat reads)) /\ ok st' /\ NoDup reads /\
    forall evs, map fst evs ≡ₚ reads -> exists p2, completes psh bb z None dev evs p' = Ret p2 /\ pg_locked p2 = false /\
      (pg_uptodate p2 = true -> pg_data p2 = page_bytes psh bb cb z lcn_of dev (pg_index p)) /\
      (pg_uptodate p2 = true <-> failed = false /\ forall i, (i, false) ∉ evs).
Proof.
  intros Hsrc Hgeo Hok Hp Hm Hcr.
  destruct (read_block_spec (RS := logged RS) (fun st => ok (fst st)) psh bb cb z lcn_of dev (pg_index p) None snd (logged_ok RS ok lcn_of Hsrc) (logged_failure RS) Hgeo (st, false) p mft_data create_ok Hok eq_refl Hp eq_refl Hm Hcr)
    as ([st' failed] & p' & rv & a & E & Hok' & Hnd & Hlt & Hst & He).
  exists st', failed, p', rv, a. split_and!; [done|done|done|]. intros evs Hevs.
  assert (Hdone : exists p1 u, binv psh bb (pg_index p) (Qbusy psh bb cb z lcn_of dev (pg_index p) []) p1 /\ pg_error p1 = pg_error p' || negb (forallb snd evs) /\
    completes psh bb z None dev evs p' = finish_page psh None u p1 /\ (pg_error p1 = false -> u = true)).
  { destruct Hst as [(Hne & _ & Hinv)|(-> & p1 & Hinv & He1 & _ & Ef)].
    - destruct Hgeo as [Hbits Hsizes Hindex Hlcn]. apply completes_spec; [done..| | | |].
      + intros ->. by apply Permutation_nil_l in Hevs.
      + by rewrite Hevs.
      + eapply binv_impl; [|done]. intros k bh blk _. unfold Qbusy. case_decide as Hk; [by rewrite decide_True by (by rewrite Hevs)|by rewrite decide_False by (by rewrite Hevs)].
      + intros k Hk. apply Hlt. by rewrite <- Hevs.
    - apply Permutation_nil_r, map_eq_nil in Hevs as ->. exists p1, (negb (pg_error p1)). cbn. rewrite orb_false_r. split_and!; [done..|]. by intros ->. }
  destruct Hdone as (p1 & u & Hinv & He1 & -> & Hu). pose proof Hinv as (bhs & (_ & _ & _ & _ & Hl & Hup) & _).
  destruct (finish_plain psh u p1 Hl Hup Hu) as (p2 & -> & Hl2 & Hu2 & Hd2). exists p2. split_and!; [done|done| |].
  - rewrite Hu2, Hd2. intros Hn%negb_true_iff. by apply (settled_bytes psh bb cb z lcn_of dev _ p1).
  - rewrite Hu2, He1, He. cbn [snd]. rewrite negb_true_iff, orb_false_iff, negb_false_iff, forallb_forall. split; intros [-> Hall]; (split; [done|]).
    + intros i Hin%list_elem_of_In. by specialize (Hall _ Hin).
    + intros [i o] Hin%list_elem_of_In. destruct o; [done|]. by destruct (Hall i).
Qed.

(** ** A resident file *)

Definition demo_text : list Z := [104; 101; 108; 108; 111; 33; 33; 33].
Definition demo_text_record : list Z :=
  le_split 4 magic_FILE ++ repeat 0 16 ++ le_split 2 56 ++ repeat 0 2 ++ le_split 4 96 ++ le_split 4 256 ++ repeat 0 24 ++
  le_split 4 0x80 ++ le_split 4 32 ++ [0; 0] ++ le_split 2 24 ++ repeat 0 4 ++ le_split 4 8 ++ le_split 2 24 ++ [0; 0] ++ demo_text ++
  le_split 4 AT_END ++ repeat 0 164.
Definition demo_text_page (n : Z) : Z + (list Z * bool) :=
  if n =? 0 then inr (repeat 0 512 ++ demo_text_record ++ repeat 0 (13 * 256), false) else inl (- EIO).
(** 5 of the 8 bytes of the value are initialized. *)
Definition demo_text_inode (type : Z) : page_inode :=
  mk_page_inode (mk_attr_inode 1%positive type None 0 false 8 None Unlocked) false false None (mk_sizes 8 5 8) false.
Definition demo_fresh_page (index : Z) : page := mk_page index (repeat 7 4096) None false false true.

Lemma demo_text_pages n data err : demo_text_page n = inr (data, err) -> zlen data = page_size 12 /\ Forall byte_ok data.
Proof.
  unfold demo_text_page. destruct (n =? 0); [|done]. intros [= <- <-]. split; [by vm_compute|]. apply (bool_decide_unpack _). by vm_compute.
Qed.

Lemma demo_session : session_caller demo_file_world 1%positive demo_file_ino.
Proof.
  constructor; [done| |done]. exists []. split; [|by intros p j Hp%elem_of_nil].
  constructor; try done; [exists 0%nat; split_and!; [done|lia|done]|]. by intros p Hp%elem_of_nil.
Qed.

Lemma demo_text_search type err : err = (if decide (type = 0x80) then 0 else - ENOENT) -> type = 0x80 \/ type = 0x40 ->
  exists w3 ctx, attr_search_ends [] 0 demo_text_page 4096 8 12 demo_file_world demo_file_ino (pi_attr (demo_text_inode type)) w3 ctx err /\
    (err = 0 -> attr ctx = 56 /\ mrec ctx = demo_text_record).
Proof.
  intros -> [-> | ->].
  - eexists _, _. split; [constructor; [apply demo_session|]|intros _; split; [cbn|cbn]]; [eexists _, _, _, _; split_and!; [vm_compute; reflexivity..|]; vm_compute; reflexivity|reflexivity..].
  - eexists _, _. split; [constructor; [apply demo_session|]|done]; eexists _, _, _, _; split_and!; [vm_compute; reflexivity..|]; vm_compute; reflexivity.
Qed.

Lemma readpage_resident_witness :
  exists w' p', @ntfs_readpage demo_alloc demo_vol [] 0 demo_text_page 4096 8 12 9 true [] (demo_text_inode 0x80) (demo_fresh_page 0) demo_file_world
      = Ret (w', (demo_text_inode 0x80, p', Returns 0 [])) /\
    pg_data p' = [104; 101; 108; 108; 111] ++ repeat 0 4091 /\ pg_uptodate p' = true.
Proof.
  destruct (demo_text_search 0x80 0 eq_refl (or_introl eq_refl)) as (w3 & ctx & Hse & Hctx). destruct (Hctx eq_refl) as [Ha Hm].
  destruct (@readpage_resident demo_alloc demo_vol [] 0 demo_text_page 4096 8 12 9 true demo_file_world demo_file_ino (demo_text_inode 0x80) (demo_fresh_page 0) w3 ctx 8 24)
    as (w' & p' & E & Hd & Hu & _);
    [lia|lia|exact demo_text_pages|split; reflexivity|exact Hse|rewrite Ha, Hm; reflexivity|rewrite Ha, Hm; reflexivity|rewrite Ha; lia|split; vm_compute; discriminate|
     rewrite Ha, Hm; vm_compute; discriminate|vm_compute; reflexivity|].
  exists w', p'. split; [exact E|]. split; [|exact Hu]. rewrite Hd, Ha, Hm. vm_compute. reflexivity.
Defined.

(** A search that fails leaves an up to date page of stale bytes. *)
Example demo_stale_page :
  exists w' p', @ntfs_readpage demo_alloc demo_vol [] 0 demo_text_page 4096 8 12 9 true [] (demo_text_inode 0x40) (demo_fresh_page 0) demo_file_world
      = Ret (w', (demo_text_inode 0x40, p', Returns (- ENOENT) [])) /\ pg_uptodate p' = true /\ pg_data p' = repeat 7 4096.
Proof. eexists _, _. split; [vm_compute; reflexivity|]. split; reflexivity. Qed.

(** ** A file on the volume *)

(** The runlist of the demo file as a source: nothing mapped, or all of it. *)
Definition demo_source : RunlistSource (world * attr_inode) := @inode_source demo_alloc demo_vol [] 0 demo_file_page 4096 8 12.
Definition demo_lcn (v : Z) : Z :=
  if (0 <=? v) && (v <? 4) then 100 + v else if (4 <=? v) && (v <? 6) then LCN_HOLE else if v =? 6 then 50 else LCN_ENOENT.
Definition demo_st (rl : option rl_buf) : world * attr_inode := (demo_file_world, set_rl rl (demo_attr_inode Unlocked)).
Definition demo_ok (st : world * attr_inode) : Prop := st = demo_st None \/ st = demo_st demo_mapped.

Lemma demo_lookup v : 0 <= v -> ntfs_rl_vcn_to_lcn demo_mapped v = Ret (demo_lcn v).
Proof.
  intros Hv. unfold demo_mapped, RunlistTheorems.demo_page. cbn [app demo_runs]. rewrite lookup_runs_eq by (done || by eexists _, _). unfold demo_lcn.
  destruct (Z.ltb_spec v 4); [|destruct (Z.ltb_spec v 6); [|destruct (Z.eqb_spec v 6)]]; cbn [lookup_runs demo_end rl_length rl_vcn rl_lcn Z.eqb negb];
    rewrite ?(proj2 (Z.leb_le _ _)), ?andb_true_r, ?andb_false_r by lia; cbn [andb].
  - rewrite (proj2 (Z.ltb_lt v 4)) by done. cbn [Z.geb Z.compare]. rewrite Z.sub_0_r, (s64_id v), s64_id by (unfold S64_MIN, S64_MAX; lia). done.
  - rewrite (proj2 (Z.ltb_ge v 4)), (proj2 (Z.ltb_lt v 6)) by lia. done.
  - subst v. done.
  - rewrite (proj2 (Z.ltb_ge v 4)), (proj2 (Z.ltb_ge v 6)), (proj2 (Z.ltb_ge v 7)) by lia. done.
Qed.

Lemma demo_not_mapped v : 0 <= v -> ntfs_rl_vcn_to_lcn None v = Ret LCN_RL_NOT_MAPPED.
Proof. intros Hv. unfold ntfs_rl_vcn_to_lcn, BUG_ON. by rewrite (proj2 (Z.ltb_ge v 0)). Qed.

(** [ntfs_map_runlist] maps all of it for a VCN in the file ... *)
Lemma demo_map_inside v : 0 <= v < 7 -> @rl_map _ demo_source v (demo_st None) = Ret (demo_st demo_mapped, 0).
Proof.
  intros Hv. assert (v = 0 \/ v = 1 \/ v = 2 \/ v = 3 \/ v = 4 \/ v = 5 \/ v = 6) as Hcases by lia.
  repeat destruct Hcases as [->|Hcases]; [vm_compute; reflexivity..|subst v; vm_compute; reflexivity].
Qed.

(** ... and returns -ENOENT for one behind it. *)
Lemma demo_map_behind v : 7 <= v -> @rl_map _ demo_source v (demo_st None) = Ret (demo_st None, - ENOENT).
Proof.
  intros Hv. cbn [rl_map demo_source inode_source demo_st fst snd]. unfold ntfs_map_runlist. cbn [ai_lock demo_attr_inode set_rl relock]. cbv iota.
  rewrite (M_run _ _ demo_file_world demo_file_world LCN_RL_NOT_MAPPED) by (apply lift_eq, demo_not_mapped; lia). cbv beta iota.
  change (LCN_RL_NOT_MAPPED <=? LCN_RL_NOT_MAPPED) with true. cbv iota.
  set (ni := set_lock Writing _). rewrite (M_run _ _ demo_file_world demo_file_world (ni, None, - ENOENT)); [done|].
  unfold ntfs_map_runlist_nolock. rewrite (M_run _ _ demo_file_world demo_file_world (ni, - ENOENT)); [done|].
  assert (E : exists w1 w2 w3 w4 m c ctx, map_mft_record demo_file_page 4096 8 12 1%positive demo_file_world = Ret (w1, inr m) /\
    ntfs_attr_get_search_ctx 1%positive m w1 = Ret (w2, Some c) /\
    (forall s, s_type s = 0x80 -> s_name s = None -> s_val s = None -> ntfs_attr_lookup [] 0 demo_file_page 4096 8 12 s c w2 = Ret (w3, (ctx, 0))) /\
    rd_u8 (mrec ctx) (attr ctx + A_non_resident) = Ret 1 /\ rd_sle64 (mrec ctx) (attr ctx + ATTR_highest_vcn) = Ret 6 /\
    ntfs_attr_put_search_ctx ctx w3 = Ret (w4, tt) /\ unmap_mft_record 1%positive w4 = Ret (demo_file_world, tt)).
  { eexists _, _, _, _, _, _, _. split; [vm_compute; reflexivity|]. split; [vm_compute; reflexivity|].
    split; [intros [t n nl ic lv x xl]; cbn [s_type s_name s_val]; intros -> -> ->; vm_compute; reflexivity|]. split_and!; vm_compute; reflexivity. }
  destruct E as (w1 & w2 & w3 & w4 & m & c & ctx & E1 & E2 & E3 & Hnr & Hh & E4 & E5).
  unfold map_runlist_temporary. rewrite (M_run _ _ _ _ _ E1), (M_run _ _ _ _ _ E2).
  rewrite (M_run _ _ w2 w3 (ni, ctx, - ENOENT)); [by rewrite (M_run _ _ _ _ _ E4), (M_run _ _ _ _ _ E5)|].
  unfold find_and_map. rewrite (M_run _ _ w2 w3 (ctx, 0)).
  - change (negb (0 =? 0)) with false. cbv iota. rewrite (M_run _ _ w3 w3 (ni, - ENOENT)); [done|]. apply lift_eq. unfold map_extent_rl. rewrite Hh, bind_Ret. cbv zeta.
    change (s64 (6 + 1)) with 7. rewrite (proj2 (Z.eqb_neq v 0)) by lia. destruct (Z.geb_spec v 7); [done|lia].
  - unfold lookup_extent. rewrite (M_run _ _ w2 w3 (ctx, 0)) by (by apply E3). change (negb (0 =? 0)) with false. cbv iota.
    rewrite (M_run _ _ w3 w3 _ (lift_eq _ _ _ Hnr)). by rewrite (M_run _ _ w3 w3 tt) by done.
Qed.

Lemma demo_source_ok : @source_ok _ demo_source demo_ok demo_lcn.
Proof.
  split.
  - intros v. unfold demo_lcn, LCN_HOLE, LCN_ENOENT. destruct ((0 <=? v) && (v <? 4)) eqn:E; [left; lia|]. destruct ((4 <=? v) && (v <? 6)); [left; lia|]. destruct (v =? 6); [left; lia|by right].
  - intros st b [-> | ->]; [done|]. intros [= <-]. by eexists _, _.
  - intros st v [-> | ->] Hv; [right; by apply demo_not_mapped|left; by apply demo_lookup].
  - intros st v [-> | ->] Hv Hl.
    + destruct (decide (v < 7)).
      * exists (demo_st demo_mapped), 0. rewrite demo_map_inside by lia. split_and!; [done|by right|intros _; by apply demo_lookup|done].
      * exists (demo_st None), (- ENOENT). rewrite demo_map_behind by lia. split_and!; [done|by left|done|]. intros _. unfold demo_lcn.
        destruct (Z.ltb_spec v 4), (Z.ltb_spec v 6), (Z.eqb_spec v 6); try lia. by rewrite !andb_false_r.
    + cbn [rl_now demo_source inode_source demo_st snd ai_rl set_rl] in Hl. rewrite demo_lookup in Hl by done. exfalso. injection Hl. unfold demo_lcn, LCN_HOLE, LCN_ENOENT, LCN_RL_NOT_MAPPED.
      destruct ((0 <=? v) && (v <? 4)) eqn:E; [lia|]. destruct ((4 <=? v) && (v <? 6)); [lia|]. destruct (v =? 6); lia.
Qed.

(** Page 3 of the file, of which the first 712 bytes are initialized; the second block
    is the last one to be read. *)
Definition demo_sizes : sizes := mk_sizes 28672 13000 20000.
Definition demo_dev (a : Z) : Z := a mod 251.

Lemma demo_logged_read st' failed p' rv reads :
  ntfs_read_block (RS := logged demo_source) 12 9 12 demo_sizes None false true (mk_rs (demo_st None, false) false (demo_fresh_page 3)) = Ret (mk_rs (st', failed) false p', (rv, map Z.of_nat reads)) ->
  failed = false /\ reads = [0%nat; 1%nat].
Proof.
  assert (E : match ntfs_read_block (RS := logged demo_source) 12 9 12 demo_sizes None false true (mk_rs (demo_st None, false) false (demo_fresh_page 3)) with
    | Ret (s, (_, l)) => bool_decide ((snd (r_src s), l) = (false, [0; 1])) = true | _ => False end) by (vm_compute; reflexivity).
  intros H. rewrite H in E. apply bool_decide_eq_true in E. cbn in E. injection E as -> E. split; [done|]. apply (inj (map Z.of_nat)). done.
Qed.

(** The runlist has to be mapped, which succeeds, and both reads succeed. *)
Lemma read_block_correct_witness :
  exists st' p' rv reads, ntfs_read_block (RS := logged demo_source) 12 9 12 demo_sizes None false true (mk_rs (demo_st None, false) false (demo_fresh_page 3)) = Ret (mk_rs (st', false) false p', (rv, map Z.of_nat reads)) /\
    exists p2, completes 12 9 demo_sizes None demo_dev [(1%nat, true); (0%nat, true)] p' = Ret p2 /\ pg_uptodate p2 = true /\ pg_data p2 = page_bytes 12 9 12 demo_sizes demo_lcn demo_dev 3.
Proof.
  destruct (@read_block_correct _ demo_source demo_ok 12 9 12 demo_sizes demo_lcn demo_dev (demo_st None) (demo_fresh_page 3) false true)
    as (st' & failed & p' & rv & reads & E & _ & _ & H);
    [exact demo_source_ok| |left; reflexivity|split_and!; reflexivity || exact I|discriminate|left; reflexivity|].
  - split; [lia|split; vm_compute; discriminate|cbn; unfold S64_MAX; lia|]. intros v. unfold demo_lcn, LCN_HOLE, LCN_ENOENT, S64_MAX.
    destruct ((0 <=? v) && (v <? 4)) eqn:Ev; [lia|]. destruct ((4 <=? v) && (v <? 6)); [lia|]. destruct (v =? 6); lia.
  - destruct (demo_logged_read _ _ _ _ _ E) as [-> Hr]. exists st', p', rv, reads. split; [exact E|].
    destruct (H [(1%nat, true); (0%nat, true)]) as (p2 & E2 & _ & Hd & Hu); [rewrite Hr; apply Permutation_swap|]. exists p2. split; [exact E2|].
    assert (Hup : pg_uptodate p2 = true) by (apply Hu; split; [reflexivity|]; intros i [[=]|[[=]|[]%elem_of_nil]%elem_of_cons]%elem_of_cons). split; [exact Hup|exact (Hd Hup)].
Defined.

Example demo_read_page :
  match @ntfs_read_block _ demo_source 12 9 12 demo_sizes None false true (mk_rs (demo_st None) false (demo_fresh_page 3)) with
  | Ret (s, r) =>
      r = (0, [0; 1]) /\
      (p ← completes 12 9 demo_sizes None demo_dev [(1%nat, true); (0%nat, true)] (r_page s);
       Ret (pg_uptodate p, pg_locked p, bool_decide (pg_data p = map (fun j => demo_dev (103 * 4096 + Z.of_nat j)) (seq 0 712) ++ repeat 0 3384)))
      = Ret (true, false, true) /\
      (p ← completes 12 9 demo_sizes None demo_dev [(1%nat, true)] (r_page s); Ret (pg_uptodate p, pg_locked p)) = Ret (false, true) /\
      (p ← completes 12 9 demo_sizes None demo_dev [(1%nat, false); (0%nat, true)] (r_page s); Ret (pg_uptodate p, pg_locked p, pg_error p)) = Ret (false, false, true)
  | _ => False
  end.
Proof. vm_compute. by split_and!. Qed.
