(* ===== verification/Inode.v ===== *)
(** * Reading inodes

    Models [ntfs_test_inode], [ntfs_init_locked_inode], [ntfs_iget],
    [ntfs_attr_iget], [ntfs_index_iget], [ntfs_is_extended_system_file] and
    [ntfs_read_locked_inode], [ntfs_read_locked_attr_inode] and
    [ntfs_read_locked_index_inode] of [src/ntfs/inode.c]: an inode is filled in from
    the attributes of its mft record.

    The functions jump to one label on every error, where they put the search context
    and unmap the record if they still hold them: they are written in a monad with
    that state and an error value. *)

From Stdlib Require Import ZArith Lia Bool.
From stdpp Require Import base list numbers option gmap.
From S2P Require Import Prelude Endian Runlist RunlistMerge MappingPairs Unistr Collate Time Boot Attrib MftMap AttrLookup Index Dir AttrList MapRunlist PageRead ReadPage.

(** ** Fields of the records (layout.h) *)

Definition MFT_link_count : Z := 18.
Definition MFT_flags : Z := 22.
Definition MFT_base_mft_record : Z := 32.
Definition MFT_RECORD_IN_USE : Z := 1.
Definition MFT_RECORD_IS_DIRECTORY : Z := 2.
Definition A_flags : Z := 12.
Definition A_resident_flags : Z := 22.
Definition ATTR_compression_unit : Z := 34.
Definition ATTR_data_size : Z := 48.
Definition ATTR_initialized_size : Z := 56.
Definition ATTR_compressed_size : Z := 64.
Definition RESIDENT_ATTR_IS_INDEXED : Z := 1.
Definition ATTR_IS_COMPRESSED : Z := 0x0001.
Definition ATTR_COMPRESSION_MASK : Z := 0x00ff.
Definition ATTR_IS_ENCRYPTED : Z := 0x4000.
Definition ATTR_IS_SPARSE : Z := 0x8000.
Definition AT_STANDARD_INFORMATION : Z := 0x10.
Definition AT_FILE_NAME : Z := 0x30.
Definition AT_BITMAP : Z := 0xb0.
Definition SI_last_data_change_time : Z := 8.
Definition SI_last_mft_change_time : Z := 16.
Definition SI_last_access_time : Z := 24.
Definition IR_type : Z := 0.
Definition IR_collation_rule : Z := 4.
Definition IR_index_block_size : Z := 8.
Definition LARGE_INDEX : Z := 1.
Definition FILE_MFT : Z := 0.
Definition FILE_Secure : Z := 9.
Definition FILE_Extend : Z := 11.

(** Modes (the kernel's stat.h). *)
Definition S_IFMT : Z := 0xf000.
Definition S_IFDIR : Z := 0x4000.
Definition S_IFREG : Z := 0x8000.
Definition S_IRWXUGO : Z := 0x1ff.
Definition S_IWUGO : Z := 0x92.
Definition S_ISDIR (mode : Z) : bool := Z.land mode S_IFMT =? S_IFDIR.
Definition S_ISREG (mode : Z) : bool := Z.land mode S_IFMT =? S_IFREG.

(** A flag of a bit set *)
Definition has (x flag : Z) : bool := negb (Z.land x flag =? 0).

(** [is_power_of_2] (the kernel's log2.h), of an [unsigned long] *)
Definition is_power_of_2 (n : Z) : bool := negb (n =? 0) && (Z.land n (n - 1) =? 0).

(** ** Inodes *)

(** The bits of [ni->state] (inode.h); [NI_IndexAllocPresent] is [NI_NonResident]. *)
Record nino_flags := mk_nf {
  nf_attr_list : bool;
  nf_attr_list_non_resident : bool;
  nf_attr : bool;
  nf_mst_protected : bool;
  nf_non_resident : bool;
  nf_compressed : bool;
  nf_encrypted : bool;
  nf_sparse : bool;
}.
Definition no_flags : nino_flags := mk_nf false false false false false false false false.

(** [itype.index] and [itype.compressed], which share their memory; an inode uses one
    of them. *)
Record itype_index := mk_ii { ii_block_size : Z; ii_vcn_size : Z; ii_collation_rule : Z; ii_block_size_bits : Z; ii_vcn_size_bits : Z }.
Record itype_compressed := mk_ic { ic_size : Z; ic_block_size : Z; ic_block_size_bits : Z; ic_block_clusters : Z }.

Inductive address_ops := NoAops | NtfsAops | NtfsMstAops.
Inductive inode_ops := NoOps | DirOps | FileOps.
Record times := mk_times { t_mtime : timespec; t_ctime : timespec; t_atime : timespec }.

(** [struct inode] and the part of its [ntfs_inode] that describes the attribute.
    [n_ptr] is the [ntfs_inode] whose mft record is used: of the inode itself, or of
    its base inode. *)
Record vinode := mk_vi {
  i_ino : Z;
  i_uid : Z;
  i_gid : Z;
  i_mode : Z;
  i_nlink : Z;
  i_generation : Z;
  i_times : times;
  i_blocks : Z;
  i_bad : bool;
  i_ops : inode_ops;
  i_aops : address_ops;
  n_ptr : ptr;
  n_type : Z;
  n_name : option (list Z);
  n_name_len : Z;
  n_sizes : sizes;
  n_flags : nino_flags;
  n_index : itype_index;
  n_compressed : itype_compressed;
  n_base : option ptr;
}.

Definition vi_set_owner (u g : Z) (v : vinode) := mk_vi (i_ino v) u g (i_mode v) (i_nlink v) (i_generation v) (i_times v) (i_blocks v) (i_bad v) (i_ops v) (i_aops v) (n_ptr v) (n_type v) (n_name v) (n_name_len v) (n_sizes v) (n_flags v) (n_index v) (n_compressed v) (n_base v).
Definition vi_set_mode (x : Z) (v : vinode) := mk_vi (i_ino v) (i_uid v) (i_gid v) x (i_nlink v) (i_generation v) (i_times v) (i_blocks v) (i_bad v) (i_ops v) (i_aops v) (n_ptr v) (n_type v) (n_name v) (n_name_len v) (n_sizes v) (n_flags v) (n_index v) (n_compressed v) (n_base v).
Definition set_nlink (x : Z) (v : vinode) := mk_vi (i_ino v) (i_uid v) (i_gid v) (i_mode v) x (i_generation v) (i_times v) (i_blocks v) (i_bad v) (i_ops v) (i_aops v) (n_ptr v) (n_type v) (n_name v) (n_name_len v) (n_sizes v) (n_flags v) (n_index v) (n_compressed v) (n_base v).
Definition vi_set_generation (x : Z) (v : vinode) := mk_vi (i_ino v) (i_uid v) (i_gid v) (i_mode v) (i_nlink v) x (i_times v) (i_blocks v) (i_bad v) (i_ops v) (i_aops v) (n_ptr v) (n_type v) (n_name v) (n_name_len v) (n_sizes v) (n_flags v) (n_index v) (n_compressed v) (n_base v).
Definition vi_set_times (x : times) (v : vinode) := mk_vi (i_ino v) (i_uid v) (i_gid v) (i_mode v) (i_nlink v) (i_generation v) x (i_blocks v) (i_bad v) (i_ops v) (i_aops v) (n_ptr v) (n_type v) (n_name v) (n_name_len v) (n_sizes v) (n_flags v) (n_index v) (n_compressed v) (n_base v).
Definition vi_set_blocks (x : Z) (v : vinode) := mk_vi (i_ino v) (i_uid v) (i_gid v) (i_mode v) (i_nlink v) (i_generation v) (i_times v) x (i_bad v) (i_ops v) (i_aops v) (n_ptr v) (n_type v) (n_name v) (n_name_len v) (n_sizes v) (n_flags v) (n_index v) (n_compressed v) (n_base v).
Definition make_bad_inode (v : vinode) := mk_vi (i_ino v) (i_uid v) (i_gid v) (i_mode v) (i_nlink v) (i_generation v) (i_times v) (i_blocks v) true (i_ops v) (i_aops v) (n_ptr v) (n_type v) (n_name v) (n_name_len v) (n_sizes v) (n_flags v) (n_index v) (n_compressed v) (n_base v).
Definition vi_set_ops (x : inode_ops) (v : vinode) := mk_vi (i_ino v) (i_uid v) (i_gid v) (i_mode v) (i_nlink v) (i_generation v) (i_times v) (i_blocks v) (i_bad v) x (i_aops v) (n_ptr v) (n_type v) (n_name v) (n_name_len v) (n_sizes v) (n_flags v) (n_index v) (n_compressed v) (n_base v).
Definition vi_set_aops (x : address_ops) (v : vinode) := mk_vi (i_ino v) (i_uid v) (i_gid v) (i_mode v) (i_nlink v) (i_generation v) (i_times v) (i_blocks v) (i_bad v) (i_ops v) x (n_ptr v) (n_type v) (n_name v) (n_name_len v) (n_sizes v) (n_flags v) (n_index v) (n_compressed v) (n_base v).
Definition vi_set_attr (t : Z) (n : option (list Z)) (l : Z) (v : vinode) := mk_vi (i_ino v) (i_uid v) (i_gid v) (i_mode v) (i_nlink v) (i_generation v) (i_times v) (i_blocks v) (i_bad v) (i_ops v) (i_aops v) (n_ptr v) t n l (n_sizes v) (n_flags v) (n_index v) (n_compressed v) (n_base v).
Definition vi_set_sizes (x : sizes) (v : vinode) := mk_vi (i_ino v) (i_uid v) (i_gid v) (i_mode v) (i_nlink v) (i_generation v) (i_times v) (i_blocks v) (i_bad v) (i_ops v) (i_aops v) (n_ptr v) (n_type v) (n_name v) (n_name_len v) x (n_flags v) (n_index v) (n_compressed v) (n_base v).
Definition vi_set_flags (f : nino_flags -> nino_flags) (v : vinode) := mk_vi (i_ino v) (i_uid v) (i_gid v) (i_mode v) (i_nlink v) (i_generation v) (i_times v) (i_blocks v) (i_bad v) (i_ops v) (i_aops v) (n_ptr v) (n_type v) (n_name v) (n_name_len v) (n_sizes v) (f (n_flags v)) (n_index v) (n_compressed v) (n_base v).
Definition vi_set_index (x : itype_index) (v : vinode) := mk_vi (i_ino v) (i_uid v) (i_gid v) (i_mode v) (i_nlink v) (i_generation v) (i_times v) (i_blocks v) (i_bad v) (i_ops v) (i_aops v) (n_ptr v) (n_type v) (n_name v) (n_name_len v) (n_sizes v) (n_flags v) x (n_compressed v) (n_base v).
Definition vi_set_compressed (x : itype_compressed) (v : vinode) := mk_vi (i_ino v) (i_uid v) (i_gid v) (i_mode v) (i_nlink v) (i_generation v) (i_times v) (i_blocks v) (i_bad v) (i_ops v) (i_aops v) (n_ptr v) (n_type v) (n_name v) (n_name_len v) (n_sizes v) (n_flags v) (n_index v) x (n_base v).
Definition vi_set_base (x : option ptr) (v : vinode) := mk_vi (i_ino v) (i_uid v) (i_gid v) (i_mode v) (i_nlink v) (i_generation v) (i_times v) (i_blocks v) (i_bad v) (i_ops v) (i_aops v) (n_ptr v) (n_type v) (n_name v) (n_name_len v) (n_sizes v) (n_flags v) (n_index v) (n_compressed v) x.

Definition NInoSetAttrList (f : nino_flags) := mk_nf true (nf_attr_list_non_resident f) (nf_attr f) (nf_mst_protected f) (nf_non_resident f) (nf_compressed f) (nf_encrypted f) (nf_sparse f).
Definition NInoSetAttrListNonResident (f : nino_flags) := mk_nf (nf_attr_list f) true (nf_attr f) (nf_mst_protected f) (nf_non_resident f) (nf_compressed f) (nf_encrypted f) (nf_sparse f).
Definition NInoSetAttr (f : nino_flags) := mk_nf (nf_attr_list f) (nf_attr_list_non_resident f) true (nf_mst_protected f) (nf_non_resident f) (nf_compressed f) (nf_encrypted f) (nf_sparse f).
Definition NInoSetMstProtected (f : nino_flags) := mk_nf (nf_attr_list f) (nf_attr_list_non_resident f) (nf_attr f) true (nf_non_resident f) (nf_compressed f) (nf_encrypted f) (nf_sparse f).
Definition NInoSetNonResident (f : nino_flags) := mk_nf (nf_attr_list f) (nf_attr_list_non_resident f) (nf_attr f) (nf_mst_protected f) true (nf_compressed f) (nf_encrypted f) (nf_sparse f).
Definition NInoSetCompressed (f : nino_flags) := mk_nf (nf_attr_list f) (nf_attr_list_non_resident f) (nf_attr f) (nf_mst_protected f) (nf_non_resident f) true (nf_encrypted f) (nf_sparse f).
Definition NInoSetEncrypted (f : nino_flags) := mk_nf (nf_attr_list f) (nf_attr_list_non_resident f) (nf_attr f) (nf_mst_protected f) (nf_non_resident f) (nf_compressed f) true (nf_sparse f).
Definition NInoSetSparse (f : nino_flags) := mk_nf (nf_attr_list f) (nf_attr_list_non_resident f) (nf_attr f) (nf_mst_protected f) (nf_non_resident f) (nf_compressed f) (nf_encrypted f) true.

(** The volume: its geometry, the mount options and whether it is mounted read-only. *)
Record inode_volume := mk_iv {
  iv_vol : MappingPairs.ntfs_volume;
  iv_sector_size : Z;
  iv_sector_size_bits : Z;
  iv_mft_record_size : Z;
  iv_uid : Z;
  iv_gid : Z;
  iv_fmask : Z;
  iv_dmask : Z;
  iv_rdonly : bool;
}.

(** [__ntfs_init_inode], the part in [vinode]; the flags, the type and the name stay. *)
Definition ntfs_init_big_inode (v : vinode) : vinode :=
  vi_set_base None (vi_set_compressed (mk_ic 0 0 0 0) (vi_set_index (mk_ii 0 0 0 0 0) (vi_set_sizes (mk_sizes 0 0 (PageRead.i_size (n_sizes v))) v))).

(** ** The inode cache *)

(** [ntfs_attr] (inode.h): what is looked for in the cache. *)
Record ntfs_attr := mk_na { na_mft_no : Z; na_type : Z; na_name : option (list Z); na_name_len : Z }.

(** [memcmp] of two names that have [n] characters *)
Definition same_name (a b : option (list Z)) (n : Z) : bool :=
  bool_decide (take (Z.to_nat n) (default [] a) = take (Z.to_nat n) (default [] b)).

Definition ntfs_test_inode (v : vinode) (na : ntfs_attr) : bool :=
  if negb (i_ino v =? na_mft_no na) then false
  else if negb (nf_attr (n_flags v)) then na_type na =? AT_UNUSED
  else if negb (n_type v =? na_type na) then false
  else if negb (n_name_len v =? na_name_len na) then false
  else if negb (na_name_len na =? 0) && negb (same_name (n_name v) (na_name na) (na_name_len na)) then false
  else true.

(** [kmalloc_ok] tells whether there is memory for a copy of the name, which gets a
    terminator; @I30 is not copied. *)
Definition ntfs_init_locked_inode (kmalloc_ok : bool) (v : vinode) (na : ntfs_attr) : outcome (vinode * Z) :=
  let v := mk_vi (na_mft_no na) (i_uid v) (i_gid v) (i_mode v) (i_nlink v) (i_generation v) (i_times v) (i_blocks v) (i_bad v) (i_ops v) (i_aops v) (n_ptr v)
             (n_type v) (n_name v) (n_name_len v) (n_sizes v) (n_flags v) (n_index v) (n_compressed v) (n_base v) in
  let v := if na_type na =? AT_INDEX_ALLOCATION then vi_set_flags NInoSetMstProtected v else v in
  let v := vi_set_attr (na_type na) (na_name na) (na_name_len na) v in
  if na_type na =? AT_UNUSED then
    BUG_ON (bool_decide (is_Some (na_name na)));; BUG_ON (negb (na_name_len na =? 0));; Ret (v, 0)
  else
    let v := vi_set_flags NInoSetAttr v in
    if negb (na_name_len na =? 0) && negb (bool_decide (na_name na = Some I30)) then
      match na_name na with
      | None => Bug
      | Some name =>
          if kmalloc_ok then Ret (vi_set_attr (na_type na) (Some (take (Z.to_nat (na_name_len na)) name ++ [0])) (na_name_len na) v, 0)
          else Ret (vi_set_attr (na_type na) None (na_name_len na) v, - ENOMEM)
      end
    else Ret (v, 0).

(** What [iget5_locked] does: no memory, an inode of the cache that
    [ntfs_test_inode] accepts, or a new one that [ntfs_init_locked_inode] sets up. *)
Inductive iget_answer := IgetNoMemory | IgetCached (v : vinode) | IgetNew.

(** A new inode for the attribute, at the inode [p]. *)
Definition blank_inode (p : ptr) : vinode :=
  mk_vi 0 0 0 0 1 0 (mk_times (mk_ts 0 0) (mk_ts 0 0) (mk_ts 0 0)) 0 false NoOps NoAops p 0 None 0 (mk_sizes 0 0 0) no_flags (mk_ii 0 0 0 0 0) (mk_ic 0 0 0 0) None.

(** ** Reading: the state and its operations *)

(** The world, the inode being read, the search context and the mft record, as long as
    they are held. *)
Record istate := mk_is { is_w : world; is_v : vinode; is_ctx : option ntfs_attr_search_ctx; is_m : option (list Z) }.

(** An error is the jump to [unm_err_out] with that value of @err. *)
Definition RI (A : Type) : Type := istate -> outcome (istate * (Z + A)).
#[export] Instance RI_ret : MRet RI := fun A a s => Ret (s, inr a).
#[export] Instance RI_bind : MBind RI := fun A B f m s =>
  '(s, r) ← m s; match r with inl err => Ret (s, inl err) | inr a => f a s end.

Definition fail {A} (err : Z) : RI A := fun s => Ret (s, inl err).
Definition refuse (b : bool) (err : Z) : RI unit := if b then fail err else mret tt.
Definition rlift {A} (o : outcome A) : RI A := fun s => a ← o; Ret (s, inr a).
Definition on_world {A} (f : M A) : RI A := fun s => '(w, a) ← f (is_w s); Ret (mk_is w (is_v s) (is_ctx s) (is_m s), inr a).
Definition getv {A} (f : vinode -> A) : RI A := fun s => Ret (s, inr (f (is_v s))).
Definition setv (f : vinode -> vinode) : RI unit := fun s => Ret (mk_is (is_w s) (f (is_v s)) (is_ctx s) (is_m s), inr tt).
Definition set_flag (f : nino_flags -> nino_flags) : RI unit := setv (vi_set_flags f).

(** The field of the attribute at [off], as the reader [rdr] reads it *)
Definition field {A} (rdr : list Z -> Z -> outcome A) (off : Z) : RI A := fun s =>
  match is_ctx s with Some c => a ← rdr (mrec c) (attr c + off); Ret (s, inr a) | None => Fault end.
Definition attr_ofs : RI Z := fun s => match is_ctx s with Some c => Ret (s, inr (attr c)) | None => Fault end.
Definition mrec_field {A} (rdr : list Z -> Z -> outcome A) (off : Z) : RI A := fun s =>
  match is_ctx s with Some c => a ← rdr (mrec c) off; Ret (s, inr a) | None => Fault end.
(** A field of the base record *)
Definition m_field {A} (rdr : list Z -> Z -> outcome A) (off : Z) : RI A := fun s =>
  match is_m s with Some m => a ← rdr m off; Ret (s, inr a) | None => Fault end.

Section Inode.
Context `{KA : KernelAlloc} (vol : inode_volume) (sb_bread : Z -> option (list Z)) (block_size_bits : Z).
Context (upcase : list Z) (upcase_len : Z).
Context (read_mapping_page : Z -> Z + (list Z * bool)) (mft_size mft_record_size_bits PAGE_CACHE_SHIFT : Z).

Definition lookup (type : Z) (name : option (list Z)) (name_len : Z) : RI Z := fun s =>
  match is_ctx s with
  | None => Fault
  | Some c =>
      '(w, (c, err)) ← ntfs_attr_lookup upcase upcase_len read_mapping_page mft_size mft_record_size_bits PAGE_CACHE_SHIFT
                         (mk_search type name name_len CASE_SENSITIVE 0 None 0) c (is_w s);
      Ret (mk_is w (is_v s) (Some c) (is_m s), inr err)
  end.

Definition reinit : RI unit := fun s =>
  match is_ctx s with
  | None => Fault
  | Some c => '(w, c) ← ntfs_attr_reinit_search_ctx c (is_w s); Ret (mk_is w (is_v s) (Some c) (is_m s), inr tt)
  end.

(** "We are done with the mft record, so we release it." *)
Definition release_record : RI unit := fun s =>
  match is_ctx s, is_m s with
  | Some c, Some _ =>
      '(w, _) ← ntfs_attr_put_search_ctx c (is_w s);
      '(w, _) ← unmap_mft_record (n_ptr (is_v s)) w;
      Ret (mk_is w (is_v s) None None, inr tt)
  | _, _ => Fault
  end.

(** The label [unm_err_out]; [quiet] are the errors that do not set the errors flag
    of the volume. *)
Definition inode_err_out (quiet : Z -> bool) (err : Z) (s : istate) : outcome (world * (vinode * Z)) :=
  let err := if err =? 0 then - EIO else err in
  '(w, _) ← match is_ctx s with Some c => ntfs_attr_put_search_ctx c (is_w s) | None => Ret (is_w s, tt) end;
  '(w, _) ← match is_m s with Some _ => unmap_mft_record (n_ptr (is_v s)) w | None => Ret (w, tt) end;
  '(w, _) ← (if quiet err then mret tt else NVolSetErrors : M unit) w;
  Ret (w, (make_bad_inode (is_v s), err)).

(** Maps the record, gets a context, does [body] and cleans up. *)
Definition read_with (quiet : Z -> bool) (v : vinode) (body : RI unit) : M (vinode * Z) := fun w =>
  '(w, m) ← map_mft_record read_mapping_page mft_size mft_record_size_bits PAGE_CACHE_SHIFT (n_ptr v) w;
  match m with
  | inl err => inode_err_out quiet err (mk_is w v None None)
  | inr m =>
      '(w, ctx) ← ntfs_attr_get_search_ctx (n_ptr v) m w;
      match ctx with
      | None => inode_err_out quiet (- ENOMEM) (mk_is w v None (Some m))
      | Some c =>
          '(s, r) ← body (mk_is w v (Some c) (Some m));
          match r with
          | inl err => inode_err_out quiet err s
          | inr _ => Ret (is_w s, (is_v s, 0))
          end
      end
  end.

(** ** ntfs_is_extended_system_file *)

(** One name: [Some] of the return value when the loop is left. *)
Definition check_file_name : RI (option Z) :=
  a ← attr_ofs;
  length ← field rd_le32 A_length;
  bytes_in_use ← mrec_field rd_le32 MFT_bytes_in_use;
  let p := a + length in
  if (p <? 0) || (p >? bytes_in_use) then mret (Some (- EIO))
  else
    non_resident ← field rd_u8 A_non_resident;
    if negb (non_resident =? 0) then mret (Some (- EIO))
    else
      flags ← field rd_le16 A_flags;
      if negb (flags =? 0) then mret (Some (- EIO))
      else
        rflags ← field rd_u8 A_resident_flags;
        if negb (has rflags RESIDENT_ATTR_IS_INDEXED) then mret (Some (- EIO))
        else
          value_offset ← field rd_le16 A_value_offset;
          value_length ← field rd_le32 A_value_length;
          let p2 := a + value_length in
          if (p2 <? a) || (p2 >? p) then mret (Some (- EIO))
          else
            parent_directory ← field rd_le64 value_offset;
            mret (if MREF parent_directory =? FILE_Extend then Some 1 else None).

(** The loop over the names, of which there are at most as many as attributes fit in
    the records. *)
Fixpoint file_names (fuel : nat) (nr_links : Z) : RI Z :=
  match fuel with
  | O => fun _ => Diverge
  | S fuel =>
      err ← lookup AT_FILE_NAME None 0;
      if negb (err =? 0) then
        mret (if negb (err =? - ENOENT) then err else if negb (nr_links =? 0) then - EIO else 0)
      else
        r ← check_file_name;
        match r with Some rv => mret rv | None => file_names fuel (nr_links - 1) end
  end.

Definition ntfs_is_extended_system_file (fuel : nat) : RI Z :=
  reinit;;
  nr_links ← mrec_field rd_le16 MFT_link_count;
  file_names fuel nr_links.

(** ** Parts of ntfs_read_locked_inode *)

(** The sequence number, the links and the mode. *)
Definition read_header : RI unit :=
  flags ← m_field rd_le16 MFT_flags;
  refuse (negb (has flags MFT_RECORD_IN_USE)) 0;;
  base_mft_record ← m_field rd_le64 MFT_base_mft_record;
  refuse (negb (base_mft_record =? 0)) 0;;
  seq ← m_field rd_le16 MFT_sequence_number;
  p ← getv n_ptr;
  on_world (modify p (set_seq_no seq));;
  setv (vi_set_generation seq);;
  link_count ← m_field rd_le16 MFT_link_count;
  let mode := Z.lor 0 S_IRWXUGO in
  let mode := if iv_rdonly vol then Z.land mode (Z.lnot S_IWUGO) else mode in
  if has flags MFT_RECORD_IS_DIRECTORY then
    setv (vi_set_mode (Z.land (Z.lor mode S_IFDIR) (Z.lnot (iv_dmask vol))));;
    setv (set_nlink (if link_count >? 1 then 1 else link_count))
  else
    setv (vi_set_mode (Z.land (Z.lor mode S_IFREG) (Z.lnot (iv_fmask vol))));;
    setv (set_nlink link_count).

(** $STANDARD_INFORMATION *)
Definition read_times : RI unit :=
  err ← lookup AT_STANDARD_INFORMATION None 0;
  refuse (negb (err =? 0)) err;;
  si ← field rd_le16 A_value_offset;
  mtime ← field rd_le64 (si + SI_last_data_change_time);
  ctime ← field rd_le64 (si + SI_last_mft_change_time);
  atime ← field rd_le64 (si + SI_last_access_time);
  setv (vi_set_times (mk_times (ntfs2utc mtime) (ntfs2utc ctime) (ntfs2utc atime))).

(** [ntfs_attr_size] (attrib.h) *)
Definition ntfs_attr_size : RI Z :=
  non_resident ← field rd_u8 A_non_resident;
  if non_resident =? 0 then field rd_le32 A_value_length else field rd_sle64 ATTR_data_size.

(** The list is made known to the lookups. *)
Definition set_attr_list (al : list Z) : RI unit :=
  p ← getv n_ptr;
  on_world (modify p (fun i => mk_inode (mft_no i) (seq_no i) (count i) (mrec_lock i) (MftMap.page i) (page_ofs i) (extent_lock i) (nr_extents i) (ni_ext i) (Some al))).

(** The value of a non-resident attribute list: its runlist and the load. *)
Definition load_non_resident_list (buf : list Z) (attr_list_size : Z) : RI (list Z) :=
  set_flag NInoSetAttrListNonResident;;
  lowest_vcn ← field rd_sle64 ATTR_lowest_vcn;
  refuse (negb (lowest_vcn =? 0)) 0;;
  a ← attr_ofs;
  m ← mrec_field (fun m _ => Ret m) 0;
  rl ← rlift (catch (ntfs_mapping_pairs_decompress (iv_vol vol) (drop (Z.to_nat a) m) None));
  match rl with
  | inl err => fail err
  | inr rl =>
      initialized_size ← field rd_sle64 ATTR_initialized_size;
      x ← rlift (load_attribute_list sb_bread block_size_bits (vol_cluster_size_bits (iv_vol vol)) rl buf attr_list_size initialized_size);
      refuse (negb (snd x =? 0)) (snd x);;
      mret (fst x)
  end.

(** $ATTRIBUTE_LIST, if there is one.  The buffer of the list is seen by nobody before
    it has been filled. *)
Definition read_attr_list : RI unit :=
  reinit;;
  err ← lookup AT_ATTRIBUTE_LIST None 0;
  if negb (err =? 0) then refuse (negb (err =? - ENOENT)) err
  else
    ino ← getv i_ino;
    if ino =? FILE_MFT then mret tt
    else
      set_flag NInoSetAttrList;;
      flags ← field rd_le16 A_flags;
      refuse (has flags ATTR_COMPRESSION_MASK) 0;;
      non_resident ← field rd_u8 A_non_resident;
      refuse ((has flags ATTR_IS_ENCRYPTED || has flags ATTR_IS_SPARSE) && negb (non_resident =? 0)) 0;;
      size ← ntfs_attr_size;
      let attr_list_size := u32 size in
      mem ← rlift (ntfs_malloc_nofs attr_list_size);
      refuse (bool_decide (mem = None)) (- ENOMEM);;
      if negb (non_resident =? 0) then
        al ← load_non_resident_list (repeat 0 (Z.to_nat attr_list_size)) attr_list_size; set_attr_list al
      else
        a ← attr_ofs;
        value_offset ← field rd_le16 A_value_offset;
        value_length ← field rd_le32 A_value_length;
        refuse (a + value_offset + value_length >? iv_mft_record_size vol) 0;;
        m ← mrec_field (fun m _ => Ret m) 0;
        al ← rlift (blit (repeat 0 (Z.to_nat attr_list_size)) 0 m (a + value_offset) value_length);
        set_attr_list al.

(** ** Indexes *)

(** "Ensure the attribute name is placed before" the value or the mapping pairs, whose
    offset is at [off]. *)
Definition name_before (off : Z) : RI unit :=
  name_length ← field rd_u8 A_name_length;
  if name_length =? 0 then mret tt
  else
    name_offset ← field rd_le16 A_name_offset;
    x ← field rd_le16 off;
    refuse (name_offset >=? x) 0.

(** The value of $INDEX_ROOT: its offset in the record, the end of it and of the index
    checked. *)
Definition index_root_value : RI Z :=
  value_offset ← field rd_le16 A_value_offset;
  value_length ← field rd_le32 A_value_length;
  a ← attr_ofs;
  let ir := a + value_offset in
  let ir_end := ir + value_length in
  refuse (ir_end >? iv_mft_record_size vol) 0;;
  index_length ← mrec_field rd_le32 (ir + IR_index + IH_index_length);
  refuse (ir + IR_index + index_length >? ir_end) 0;;
  mret ir.

(** The sizes of index blocks and of their VCNs. *)
Definition index_sizes (collation_rule block_size : Z) : RI unit :=
  refuse (block_size >? PAGE_SIZE PAGE_CACHE_SHIFT) (- EOPNOTSUPP);;
  refuse (block_size <? Mst.NTFS_BLOCK_SIZE) (- EOPNOTSUPP);;
  let cluster_size := vol_cluster_size (iv_vol vol) in
  setv (vi_set_index (if cluster_size <=? block_size
                      then mk_ii block_size cluster_size collation_rule (ffs block_size - 1) (vol_cluster_size_bits (iv_vol vol))
                      else mk_ii block_size (iv_sector_size vol) collation_rule (ffs block_size - 1) (iv_sector_size_bits vol))).

(** $INDEX_ALLOCATION: the checks and the sizes. *)
Definition read_index_allocation (name : option (list Z)) (name_len : Z) : RI unit :=
  reinit;;
  err ← lookup AT_INDEX_ALLOCATION name name_len;
  refuse (negb (err =? 0)) err;;
  non_resident ← field rd_u8 A_non_resident;
  refuse (non_resident =? 0) 0;;
  name_before ATTR_mapping_pairs_offset;;
  flags ← field rd_le16 A_flags;
  refuse (has flags ATTR_IS_ENCRYPTED) 0;;
  refuse (has flags ATTR_IS_SPARSE) 0;;
  refuse (has flags ATTR_COMPRESSION_MASK) 0;;
  lowest_vcn ← field rd_sle64 ATTR_lowest_vcn;
  refuse (negb (lowest_vcn =? 0)) 0;;
  data_size ← field rd_sle64 ATTR_data_size;
  initialized ← field rd_sle64 ATTR_initialized_size;
  allocated ← field rd_sle64 ATTR_allocated_size;
  setv (vi_set_sizes (mk_sizes allocated initialized data_size)).

(** The index bitmap is an attribute inode, and large enough. *)
Definition check_bitmap (attr_iget : M (Z + vinode)) : RI unit :=
  b ← on_world attr_iget;
  match b with
  | inl err => fail err
  | inr bvi =>
      let f := n_flags bvi in
      refuse (nf_compressed f || nf_encrypted f || nf_sparse f) 0;;
      i_size ← getv (fun v => PageRead.i_size (n_sizes v));
      bits ← getv (fun v => ii_block_size_bits (n_index v));
      refuse (s64 (Z.shiftl (PageRead.i_size (n_sizes bvi)) 3) <? Z.shiftr i_size bits) 0
  end.

(** What $INDEX_ROOT of a directory says. *)
Definition read_dir_root : RI Z :=
  reinit;;
  err ← lookup AT_INDEX_ROOT (Some I30) 4;
  refuse (negb (err =? 0)) err;;
  non_resident ← field rd_u8 A_non_resident;
  refuse (negb (non_resident =? 0)) 0;;
  name_before A_value_offset;;
  flags ← field rd_le16 A_flags;
  (if has flags ATTR_COMPRESSION_MASK then set_flag NInoSetCompressed else mret tt);;
  (if has flags ATTR_IS_ENCRYPTED then refuse (has flags ATTR_COMPRESSION_MASK) 0;; set_flag NInoSetEncrypted else mret tt);;
  (if has flags ATTR_IS_SPARSE then set_flag NInoSetSparse else mret tt);;
  ir ← index_root_value;
  type ← mrec_field rd_le32 (ir + IR_type);
  refuse (negb (type =? AT_FILE_NAME)) 0;;
  rule ← mrec_field rd_le32 (ir + IR_collation_rule);
  refuse (negb (rule =? COLLATION_FILE_NAME)) 0;;
  block_size ← mrec_field rd_le32 (ir + IR_index_block_size);
  setv (vi_set_index (mk_ii block_size 0 rule 0 0));;
  refuse (negb (Z.land block_size (u32 (block_size - 1)) =? 0)) 0;;
  index_sizes rule block_size;;
  set_flag NInoSetMstProtected;;
  setv (vi_set_attr AT_INDEX_ALLOCATION (Some I30) 4);;
  mrec_field rd_u8 (ir + IR_index + IH_flags).

(** A directory. *)
Definition read_dir (bitmap_iget : vinode -> M (Z + vinode)) : RI unit :=
  index_flags ← read_dir_root;
  (if negb (has index_flags LARGE_INDEX) then setv (vi_set_sizes (mk_sizes 0 0 0));; release_record
   else
     set_flag NInoSetNonResident;;
     read_index_allocation (Some I30) 4;;
     release_record;;
     v ← getv id;
     check_bitmap (bitmap_iget v));;
  setv (vi_set_ops DirOps).

(** ** Attributes with data *)

(** [itype.compressed] of a non-resident attribute; a shift of an [unsigned int] by 32
    or more is undefined. *)
Definition read_compression : RI unit :=
  f ← getv n_flags;
  if nf_compressed f || nf_sparse f then
    unit ← field rd_u8 ATTR_compression_unit;
    refuse (nf_compressed f && negb (unit =? 4)) (- EOPNOTSUPP);;
    let cluster_size_bits := vol_cluster_size_bits (iv_vol vol) in
    (if negb (unit =? 0) && (unit + cluster_size_bits >=? 32) then rlift Fault else mret tt);;
    size ← field rd_sle64 ATTR_compressed_size;
    setv (vi_set_compressed (if negb (unit =? 0)
                             then mk_ic size (2 ^ (unit + cluster_size_bits)) (ffs (2 ^ (unit + cluster_size_bits)) - 1) (u8 (2 ^ unit))
                             else mk_ic size 0 0 0))
  else mret tt.

(** The sizes of a non-resident attribute. *)
Definition read_non_resident_sizes : RI unit :=
  lowest_vcn ← field rd_sle64 ATTR_lowest_vcn;
  refuse (negb (lowest_vcn =? 0)) 0;;
  data_size ← field rd_sle64 ATTR_data_size;
  initialized ← field rd_sle64 ATTR_initialized_size;
  allocated ← field rd_sle64 ATTR_allocated_size;
  setv (vi_set_sizes (mk_sizes allocated initialized data_size)).

(** The sizes of a resident attribute; the allocated size is the difference of two
    unsigned numbers. *)
Definition read_resident_sizes : RI unit :=
  value_length ← field rd_le32 A_value_length;
  length ← field rd_le32 A_length;
  value_offset ← field rd_le16 A_value_offset;
  let allocated := u32 (length - value_offset) in
  setv (vi_set_sizes (mk_sizes allocated value_length value_length));;
  refuse (value_length >? allocated) 0.

(** The flags of the unnamed $DATA. *)
Definition read_data_flags : RI unit :=
  flags ← field rd_le16 A_flags;
  (if has flags (Z.lor ATTR_COMPRESSION_MASK ATTR_IS_SPARSE) then
     (if has flags ATTR_COMPRESSION_MASK then
        set_flag NInoSetCompressed;;
        refuse (vol_cluster_size (iv_vol vol) >? 4096) 0;;
        refuse (negb (Z.land flags ATTR_COMPRESSION_MASK =? ATTR_IS_COMPRESSED)) 0
      else mret tt);;
     (if has flags ATTR_IS_SPARSE then set_flag NInoSetSparse else mret tt)
   else mret tt);;
  if has flags ATTR_IS_ENCRYPTED then
    f ← getv n_flags;
    refuse (nf_compressed f) 0;;
    set_flag NInoSetEncrypted
  else mret tt.

(** A file. *)
Definition read_file (fuel : nat) : RI unit :=
  reinit;;
  setv (vi_set_attr AT_DATA None 0);;
  err ← lookup AT_DATA None 0;
  (if negb (err =? 0) then
     setv (vi_set_sizes (mk_sizes 0 0 0));;
     refuse (negb (err =? - ENOENT)) err;;
     ino ← getv i_ino;
     if ino =? FILE_Secure then mret tt
     else x ← ntfs_is_extended_system_file fuel; refuse (negb (x >? 0)) err
   else
     read_data_flags;;
     non_resident ← field rd_u8 A_non_resident;
     if negb (non_resident =? 0) then
       set_flag NInoSetNonResident;;
       read_compression;;
       read_non_resident_sizes
     else read_resident_sizes);;
  release_record;;
  setv (vi_set_ops FileOps).

(** The address space operations and the number of blocks; [compressed] selects the
    compressed size. *)
Definition finish_inode (compressed : vinode -> bool) : RI unit :=
  v ← getv id;
  setv (vi_set_aops (if nf_mst_protected (n_flags v) then NtfsMstAops else NtfsAops));;
  setv (vi_set_blocks (Z.shiftr (if (nf_compressed (n_flags v) || nf_sparse (n_flags v)) && compressed v
                                 then ic_size (n_compressed v) else allocated_size (n_sizes v)) 9)).

(** The errors that do not set the errors flag of the volume. *)
Definition quiet_errors (err : Z) : bool := (err =? - EOPNOTSUPP) || (err =? - ENOMEM).

(** From the mapped record on. *)
Definition read_inode_body (fuel : nat) (bitmap_iget : vinode -> M (Z + vinode)) : RI unit :=
  read_header;;
  read_times;;
  read_attr_list;;
  mode ← getv i_mode;
  (if S_ISDIR mode then read_dir bitmap_iget else read_file fuel);;
  finish_inode (fun v => S_ISREG (i_mode v)).

(** ** ntfs_read_locked_attr_inode *)

(** The flags of the attribute. *)
Definition read_attr_flags : RI unit :=
  flags ← field rd_le16 A_flags;
  type ← getv n_type;
  name_len ← getv n_name_len;
  mst ← getv (fun v => nf_mst_protected (n_flags v));
  (if has flags (Z.lor ATTR_COMPRESSION_MASK ATTR_IS_SPARSE) then
     (if has flags ATTR_COMPRESSION_MASK then
        set_flag NInoSetCompressed;;
        refuse (negb (type =? AT_DATA) || ((type =? AT_DATA) && negb (name_len =? 0))) 0;;
        refuse (vol_cluster_size (iv_vol vol) >? 4096) 0;;
        refuse (negb (Z.land flags ATTR_COMPRESSION_MASK =? ATTR_IS_COMPRESSED)) 0
      else mret tt);;
     refuse (mst && negb (type =? AT_INDEX_ROOT)) 0;;
     (if has flags ATTR_IS_SPARSE then set_flag NInoSetSparse else mret tt)
   else mret tt);;
  if has flags ATTR_IS_ENCRYPTED then
    f ← getv n_flags;
    refuse (nf_compressed f) 0;;
    refuse (mst && negb (type =? AT_INDEX_ROOT)) 0;;
    refuse (negb (type =? AT_DATA)) 0;;
    set_flag NInoSetEncrypted
  else mret tt.

Definition read_attr_body : RI unit :=
  v ← getv id;
  err ← lookup (n_type v) (n_name v) (n_name_len v);
  refuse (negb (err =? 0)) err;;
  read_attr_flags;;
  non_resident ← field rd_u8 A_non_resident;
  (if non_resident =? 0 then
     name_before A_value_offset;;
     mst ← getv (fun v => nf_mst_protected (n_flags v));
     refuse mst 0;;
     read_resident_sizes
   else
     set_flag NInoSetNonResident;;
     name_before ATTR_mapping_pairs_offset;;
     read_compression;;
     read_non_resident_sizes);;
  finish_inode (fun v => negb (n_type v =? AT_INDEX_ROOT));;
  setv (fun v => vi_set_base (Some (n_ptr v)) v);;
  release_record.

(** "Just mirror the values from the base inode." *)
Definition mirror_base (base_vi v : vinode) : vinode :=
  vi_set_mode (Z.land (i_mode base_vi) (Z.lnot S_IFMT))
    (vi_set_generation (i_generation base_vi) (vi_set_times (i_times base_vi) (set_nlink (i_nlink base_vi) (vi_set_owner (i_uid base_vi) (i_gid base_vi) (ntfs_init_big_inode v))))).

Definition ntfs_read_locked_attr_inode (base_vi v : vinode) : M (vinode * Z) :=
  read_with (fun err => err =? - ENOMEM) (mirror_base base_vi v) read_attr_body.

(** ** ntfs_attr_iget *)

(** The inode, or the error; a bad one is put again.  [iget5] is what the inode cache
    answers. *)
Definition iget_common (iget5 : iget_answer) (na : ntfs_attr) (p : ptr) (kmalloc_ok : bool) (read : vinode -> M (vinode * Z)) (keep_bad : Z -> bool) : M (Z + vinode) :=
  match iget5 with
  | IgetNoMemory => mret (inl (- ENOMEM))
  | IgetCached v => mret (inr v)
  | IgetNew =>
      x ← lift (ntfs_init_locked_inode kmalloc_ok (blank_inode p) na);
      if negb (snd x =? 0) then mret (inl (- ENOMEM))
      else
        r ← read (fst x);
        mret (if negb (snd r =? 0) && negb (keep_bad (snd r)) then inl (snd r) else inr (fst r))
  end.

Definition ntfs_attr_iget (iget5 : ntfs_attr -> iget_answer) (kmalloc_ok : bool) (base_vi : vinode) (type : Z) (name : option (list Z)) (name_len : Z) : M (Z + vinode) :=
  assert_not (type =? AT_INDEX_ALLOCATION);;
  let na := mk_na (i_ino base_vi) type name name_len in
  iget_common (iget5 na) na (n_ptr base_vi) kmalloc_ok (ntfs_read_locked_attr_inode base_vi) (fun _ => false).

(** ** ntfs_read_locked_inode *)

(** [ntfs_init_big_inode], the part in the store of inodes *)
Definition init_store (p : ptr) : M unit := modify p (fun i => init_inode (mft_no i)).

Definition ntfs_read_locked_inode (iget5 : ntfs_attr -> iget_answer) (kmalloc_ok : bool) (fuel : nat) (v : vinode) : M (vinode * Z) :=
  let v := vi_set_mode 0 (vi_set_owner (iv_uid vol) (iv_gid vol) v) in
  (if negb (i_ino v =? FILE_MFT) then init_store (n_ptr v) else mret tt);;
  let v := if negb (i_ino v =? FILE_MFT) then ntfs_init_big_inode v else v in
  read_with quiet_errors v (read_inode_body fuel (fun v => ntfs_attr_iget iget5 kmalloc_ok v AT_BITMAP (Some I30) 4)).

(** ** ntfs_read_locked_index_inode *)

Definition read_view_root : RI Z :=
  v ← getv id;
  err ← lookup AT_INDEX_ROOT (n_name v) (n_name_len v);
  refuse (negb (err =? 0)) err;;
  non_resident ← field rd_u8 A_non_resident;
  refuse (negb (non_resident =? 0)) 0;;
  name_before A_value_offset;;
  flags ← field rd_le16 A_flags;
  refuse (has flags (Z.lor (Z.lor ATTR_COMPRESSION_MASK ATTR_IS_ENCRYPTED) ATTR_IS_SPARSE)) 0;;
  ir ← index_root_value;
  type ← mrec_field rd_le32 (ir + IR_type);
  refuse (negb (type =? 0)) 0;;
  rule ← mrec_field rd_le32 (ir + IR_collation_rule);
  block_size ← mrec_field rd_le32 (ir + IR_index_block_size);
  setv (vi_set_index (mk_ii block_size 0 rule 0 0));;
  refuse (negb (is_power_of_2 block_size)) 0;;
  index_sizes rule block_size;;
  mrec_field rd_u8 (ir + IR_index + IH_flags).

Definition read_index_body (bitmap_iget : vinode -> M (Z + vinode)) : RI unit :=
  index_flags ← read_view_root;
  (if negb (has index_flags LARGE_INDEX) then setv (vi_set_sizes (mk_sizes 0 0 0));; release_record
   else
     set_flag NInoSetNonResident;;
     v ← getv id;
     read_index_allocation (n_name v) (n_name_len v);;
     release_record;;
     check_bitmap (bitmap_iget v));;
  setv (fun v => vi_set_ops NoOps (vi_set_aops NtfsMstAops v));;
  setv (fun v => vi_set_blocks (Z.shiftr (allocated_size (n_sizes v)) 9) v);;
  setv (fun v => vi_set_base (Some (n_ptr v)) v).

Definition ntfs_read_locked_index_inode (iget5 : ntfs_attr -> iget_answer) (kmalloc_ok : bool) (base_vi v : vinode) : M (vinode * Z) :=
  read_with quiet_errors (mirror_base base_vi v)
    (read_index_body (fun v => ntfs_attr_iget iget5 kmalloc_ok base_vi AT_BITMAP (n_name v) (n_name_len v))).

(** ** ntfs_iget and ntfs_index_iget *)

Definition ntfs_iget (iget5 : ntfs_attr -> iget_answer) (kmalloc_ok : bool) (fuel : nat) (p : ptr) (mft_no : Z) : M (Z + vinode) :=
  let na := mk_na mft_no AT_UNUSED None 0 in
  iget_common (iget5 na) na p kmalloc_ok (ntfs_read_locked_inode iget5 kmalloc_ok fuel) (fun err => negb (err =? - ENOMEM)).

Definition ntfs_index_iget (iget5 : ntfs_attr -> iget_answer) (kmalloc_ok : bool) (base_vi : vinode) (name : option (list Z)) (name_len : Z) : M (Z + vinode) :=
  let na := mk_na (i_ino base_vi) AT_INDEX_ALLOCATION name name_len in
  iget_common (iget5 na) na (n_ptr base_vi) kmalloc_ok (ntfs_read_locked_index_inode iget5 kmalloc_ok base_vi) (fun _ => false).
End Inode.
