(* ===== verification/InodeSafe.v ===== *)
(** * Reading inodes: nothing is left behind

    However the reading of an inode ends, the search context and the mft record are
    given back: triples for the operations, and for every part of the functions. *)

From Stdlib Require Import ZArith Lia Bool.
From stdpp Require Import base list numbers option gmap.
From S2P Require Import Prelude Endian Runlist RunlistMerge MappingPairs Unistr Collate Time Boot Attrib MftMap MftMapSpec AttrLookup AttrLookupProof AttrLookupInv AttrLookupTheorems AttrSession Index Dir AttrList MapRunlist PageRead ReadPage Inode.

(** ** Worlds *)

(** The members of an inode that its reading leaves as they are. *)
Definition like (i j : ntfs_inode) : Prop :=
  mft_no j = mft_no i /\ count j = count i /\ mrec_lock j = mrec_lock i /\ MftMap.page j = MftMap.page i /\ page_ofs j = page_ofs i /\ extent_lock j = extent_lock i.

(** Nothing is held in [w] that was not held in [w0]: the pages, the other inodes and
    the locks and references of [base] are as before, and inodes that are new are not
    in use. *)
Definition clean (w0 : world) (base : ptr) (w : world) : Prop :=
  exists i0 i1, inodes w0 !! base = Some i0 /\ session_caller w base i1 /\ like i0 i1 /\ pinned w = pinned w0 /\
    (forall p i, p <> base -> inodes w0 !! p = Some i -> inodes w !! p = Some i) /\
    (forall p i, inodes w0 !! p = None -> inodes w !! p = Some i -> idle i /\ count i = 1).

Lemma like_trans i j k : like i j -> like j k -> like i k.
Proof. unfold like. intros (?&?&?&?&?&?) (?&?&?&?&?&?). split_and!; congruence. Qed.

Lemma clean_refl w base i : session_caller w base i -> clean w base w.
Proof.
  intros Hc. pose proof (session_caller_lookup _ _ _ Hc) as Hb. exists i, i. split_and!; try done. intros p j H1 H2. congruence.
Qed.

Lemma clean_trans w0 w1 w2 base : clean w0 base w1 -> clean w1 base w2 -> clean w0 base w2.
Proof.
  intros (i0 & i1 & H0 & Hc1 & Hl1 & Hp1 & Ho1 & Hn1) (i1' & i2 & H1 & Hc2 & Hl2 & Hp2 & Ho2 & Hn2).
  pose proof (session_caller_lookup _ _ _ Hc1) as Hb1. assert (i1' = i1) as -> by congruence.
  exists i0, i2. split_and!; try done; [by eapply like_trans|congruence|intros p i Hp Hi; by apply Ho2, Ho1|].
  intros p i Hn Hi. destruct (inodes w1 !! p) as [j|] eqn:E; [|by apply (Hn2 p i)].
  assert (p <> base) by congruence. rewrite (Ho2 p j) in Hi by done. injection Hi as <-. by apply (Hn1 p j).
Qed.

(** The volume flags and the allocator do not matter. *)
Lemma session_caller_same w w' base i : inodes w' = inodes w -> session_caller w base i -> session_caller w' base i.
Proof.
  intros E [Hid (inos & Hok & Hidle) Hal]. constructor; [done| |done]. exists inos. split; [by apply (base_ok_same base w)|]. by rewrite E.
Qed.

Lemma clean_same w0 w w' base : inodes w' = inodes w -> pinned w' = pinned w -> clean w0 base w -> clean w0 base w'.
Proof.
  intros E1 E2 (i0 & i1 & H0 & Hc & Hl & Hp & Ho & Hn). exists i0, i1. rewrite E1, E2. split_and!; try done. by eapply session_caller_same.
Qed.

(** A change of the base inode that keeps the locks and the extents. *)
Lemma session_caller_upd w base i j : session_caller w base i -> like i j -> nr_extents j = nr_extents i -> ni_ext j = ni_ext i ->
  (forall al, attr_list j = Some al -> Forall byte_ok al) -> session_caller (upd w base j) base j /\ clean w base (upd w base j).
Proof.
  intros Hc (H1 & H2 & H3 & H4 & H5 & H6) H7 H8 Hal. pose proof (session_caller_lookup _ _ _ Hc) as Hb. destruct Hc as [Hid (inos & [_ Hl Hn He Hp] & Hidle) _].
  assert (Hc : session_caller (upd w base j) base j).
  { constructor; [unfold idle in *; by rewrite H3, H4, H5| |done]. exists inos. split.
    - split; [apply upd_lookup|by rewrite H6|by rewrite H7|by rewrite H8|]. intros p Hin. destruct (Hp p Hin) as [Hne Hex]. split; [done|]. cbn. by rewrite lookup_insert_ne.
    - intros p k Hin Hk. destruct (Hp p Hin) as [Hne _]. cbn in Hk. rewrite lookup_insert_ne in Hk by done. by eapply Hidle. }
  split; [done|]. exists i, j. split_and!; try done.
  - intros p k Hne Hk. cbn. by rewrite lookup_insert_ne.
  - intros p k Hnone Hk. assert (p <> base) by congruence. cbn in Hk. rewrite lookup_insert_ne in Hk by done. congruence.
Qed.

(** ** Bytes of attribute lists *)

Lemma blit_bytes (P : Z -> Prop) dst d src k n out : Forall P dst -> Forall P src -> blit dst d src k n = Ret out -> Forall P out.
Proof.
  intros Hd Hs. unfold blit. case_match; [|done]. intros [= <-]. repeat apply Forall_app_2; auto using Forall_take, Forall_drop.
Qed.

Lemma memset0_bytes dst off n out : Forall byte_ok dst -> memset0 dst off n = Ret out -> Forall byte_ok out.
Proof. intros Hd. apply blit_bytes; [done|]. apply list.Forall_forall. intros x Hx%list_elem_of_In%repeat_spec. subst x. unfold byte_ok. lia. Qed.

Section ListBytes.
Context (sb_bread : Z -> option (list Z)) (bb cb : Z).
Hypothesis Hdev : forall n data, sb_bread n = Some data -> Forall byte_ok data.

Lemma read_blocks_bytes fuel : forall block max_block buf al al_end buf' al' x, Forall byte_ok buf -> read_blocks sb_bread bb fuel block max_block buf al al_end = Ret (buf', al', x) -> Forall byte_ok buf'.
Proof.
  induction fuel as [|fuel IH]; intros block max_block buf al al_end buf' al' x Hb; cbn [read_blocks]; [done|]. destruct (sb_bread block) as [data|] eqn:E; [|by intros [= <- <- <-]].
  pose proof (Hdev _ _ E) as Hdat. destruct (al + AttrList.block_size bb >=? al_end).
  - destruct (al <? al_end); [|by intros [= <- <- <-]]. intros (buf1 & E1 & [= <- <- <-])%bind_Ret_inv. exact (blit_bytes _ _ _ _ _ _ _ Hb Hdat E1).
  - intros (buf1 & E1 & H)%bind_Ret_inv. pose proof (blit_bytes _ _ _ _ _ _ _ Hb Hdat E1) as Hb1. cbv zeta in H. destruct (u64 (block + 1) <? max_block); [by eapply IH|by injection H as <- <- <-].
Qed.

Lemma read_runs_bytes n : forall rl i buf al al_end buf' err, Forall byte_ok buf -> read_runs sb_bread bb cb n rl i buf al al_end = Ret (buf', err) -> Forall byte_ok buf'.
Proof.
  induction n as [|n IH]; intros rl i buf al al_end buf' err Hb; cbn [read_runs]; [done|]. intros (r & _ & H)%bind_Ret_inv. destruct (rl_length r =? 0); [by injection H as <- <-|].
  apply bind_Ret_inv in H as (lcn & _ & H). destruct (lcn <? 0); [by injection H as <- <-|]. cbv zeta in H. apply bind_Ret_inv in H as ([[buf1 al1] x] & E & H).
  pose proof (read_blocks_bytes _ _ _ _ _ _ _ _ _ Hb E) as Hb1. destruct x; [by eapply IH|by injection H as <- <-].
Qed.

Lemma load_bytes rl buf size init buf' err : Forall byte_ok buf -> load_attribute_list sb_bread bb cb rl buf size init = Ret (buf', err) -> Forall byte_ok buf'.
Proof.
  intros Hb. unfold load_attribute_list. case_match; [by intros [= <- <-]|]. case_match.
  - intros (b1 & E & [= <- <-])%bind_Ret_inv. by eapply memset0_bytes.
  - destruct rl as [rl|]; [|by intros [= <- <-]]. intros ([b1 e1] & E & G)%bind_Ret_inv. pose proof (read_runs_bytes _ _ _ _ _ _ _ _ Hb E) as Hb1.
    destruct (negb (e1 =? 0)); [by injection G as <- <-|]. case_match; [|by injection G as <- <-]. apply bind_Ret_inv in G as (b2 & E2 & [= <- <-]). by eapply memset0_bytes.
Qed.
End ListBytes.

(** ** Operations that touch the inode only *)

(** The world, the context and the record stay. *)
Definition inert {A} (m : RI A) : Prop := forall s s' r, m s = Ret (s', r) ->
  is_w s' = is_w s /\ is_ctx s' = is_ctx s /\ is_m s' = is_m s /\ n_ptr (is_v s') = n_ptr (is_v s).

Create HintDb inert.

Lemma RI_bind_inv {A B} (m : RI A) (f : A -> RI B) s s' r : (m ≫= f) s = Ret (s', r) ->
  (exists err, m s = Ret (s', inl err) /\ r = inl err) \/ exists s1 a, m s = Ret (s1, inr a) /\ f a s1 = Ret (s', r).
Proof.
  unfold mbind, RI_bind. destruct (m s) as [[s1 [err|a]]| | | |] eqn:E; cbn; try done; intros H; [left|right]; eauto. exists err. by injection H as <- <-.
Qed.

Lemma inert_bind {A B} (m : RI A) (f : A -> RI B) : inert m -> (forall a, inert (f a)) -> inert (m ≫= f).
Proof.
  intros Hm Hf s s' r [(err & E & ->)|(s1 & a & E1 & E2)]%RI_bind_inv; [by eapply Hm|]. apply Hm in E1 as (H1 & H2 & H3 & H4). apply Hf in E2 as (G1 & G2 & G3 & G4). repeat split; congruence.
Qed.
Lemma inert_ret {A} (a : A) : inert (mret a).
Proof. intros s s' r [= <- <-]. done. Qed.
Lemma inert_fail {A} err : inert (fail (A := A) err).
Proof. intros s s' r [= <- <-]. done. Qed.
Lemma inert_refuse b err : inert (refuse b err).
Proof. destruct b; [apply inert_fail|apply inert_ret]. Qed.
Lemma inert_rlift {A} (o : outcome A) : inert (rlift o).
Proof. intros s s' r H. unfold rlift in H. destruct o; try done. by injection H as <- <-. Qed.
Lemma inert_getv {A} (f : vinode -> A) : inert (getv f).
Proof. intros s s' r [= <- <-]. done. Qed.
Lemma inert_setv f : (forall v, n_ptr (f v) = n_ptr v) -> inert (setv f).
Proof. intros Hf s s' r [= <- <-]. cbn. by rewrite Hf. Qed.
Lemma inert_set_flag f : inert (set_flag f).
Proof. by apply inert_setv. Qed.
Lemma inert_field {A} (rdr : list Z -> Z -> outcome A) off : inert (field rdr off).
Proof. intros s s' r H. unfold field in H. destruct (is_ctx s) eqn:Ec; [|done]. destruct (rdr _ _); try done. by injection H as <- <-. Qed.
Lemma inert_mrec_field {A} (rdr : list Z -> Z -> outcome A) off : inert (mrec_field rdr off).
Proof. intros s s' r H. unfold mrec_field in H. destruct (is_ctx s) eqn:Ec; [|done]. destruct (rdr _ _); try done. by injection H as <- <-. Qed.
Lemma inert_m_field {A} (rdr : list Z -> Z -> outcome A) off : inert (m_field rdr off).
Proof. intros s s' r H. unfold m_field in H. destruct (is_m s) eqn:Ec; [|done]. destruct (rdr _ _); try done. by injection H as <- <-. Qed.
Lemma inert_attr_ofs : inert attr_ofs.
Proof. intros s s' r H. unfold attr_ofs in H. destruct (is_ctx s) eqn:Ec; [|done]. by injection H as <- <-. Qed.

#[export] Hint Resolve inert_ret inert_fail inert_refuse inert_rlift inert_getv inert_set_flag inert_field inert_mrec_field inert_m_field inert_attr_ofs : inert.

(** Goes through the binds and the cases. *)
Ltac inert_step :=
  lazymatch goal with
  | |- inert (mbind _ _) => apply inert_bind; [|intros ?]
  | |- inert (setv _) => apply inert_setv; intros ?; try reflexivity
  | |- inert (if ?b then _ else _) => destruct b
  | |- inert (match ?x with _ => _ end) => destruct x
  | |- inert (let _ := _ in _) => cbv zeta
  | |- _ => solve [auto with inert]
  end.
Ltac inert := repeat inert_step.

Lemma inert_check_file_name : inert check_file_name.
Proof. unfold check_file_name. inert. Qed.
Lemma inert_name_before off : inert (name_before off).
Proof. unfold name_before. inert. Qed.
Lemma inert_index_root_value vol : inert (index_root_value vol).
Proof. unfold index_root_value. inert. Qed.
Lemma inert_index_sizes vol shift r b : inert (index_sizes vol shift r b).
Proof. unfold index_sizes. inert. Qed.
Lemma inert_read_compression vol : inert (read_compression vol).
Proof. unfold read_compression. inert. Qed.
Lemma inert_non_resident_sizes : inert read_non_resident_sizes.
Proof. unfold read_non_resident_sizes. inert. Qed.
Lemma inert_resident_sizes : inert read_resident_sizes.
Proof. unfold read_resident_sizes. inert. Qed.
Lemma inert_data_flags vol : inert (read_data_flags vol).
Proof. unfold read_data_flags. inert. Qed.
Lemma inert_attr_flags vol : inert (read_attr_flags vol).
Proof. unfold read_attr_flags. inert. Qed.
Lemma inert_finish_inode f : inert (finish_inode f).
Proof. unfold finish_inode. inert. Qed.
Lemma inert_attr_size : inert ntfs_attr_size.
Proof. unfold ntfs_attr_size. inert. Qed.

#[export] Hint Resolve inert_check_file_name inert_name_before inert_index_root_value inert_index_sizes inert_read_compression inert_non_resident_sizes
  inert_resident_sizes inert_data_flags inert_attr_flags inert_finish_inode inert_attr_size : inert.

Section Safe.
Context {KA : KernelAlloc} (vol : inode_volume) (sb_bread : Z -> option (list Z)) (block_size_bits : Z).
Context (upcase : list Z) (upcase_len : Z).
Context (read_mapping_page : Z -> Z + (list Z * bool)) (mft_size bits shift : Z).
Hypothesis Hbits : 8 <= bits <= shift.
Hypothesis Hshift : shift < 31.
Hypothesis Hpages : forall n data err, read_mapping_page n = inr (data, err) -> zlen data = page_size shift /\ Forall byte_ok data.
Hypothesis Hdev : forall n data, sb_bread n = Some data -> Forall byte_ok data.
Context (w0 : world) (base : ptr).

Local Abbreviation Inv w i m := (Inv bits shift (after_map bits shift w base i (inr m) false) base (mapped bits shift i) m).

(** The context and the record are held. *)
Definition Held (s : istate) : Prop :=
  n_ptr (is_v s) = base /\ exists w1 i1 m c, clean w0 base w1 /\ session_caller w1 base i1 /\ Forall byte_ok m /\ is_m s = Some m /\ is_ctx s = Some c /\ Inv w1 i1 m (is_w s) c.

(** They are, and there is no attribute list yet. *)
Definition Early (s : istate) : Prop :=
  n_ptr (is_v s) = base /\ exists w1 i1 m c, clean w0 base w1 /\ session_caller w1 base i1 /\ attr_list i1 = None /\ Forall byte_ok m /\ is_m s = Some m /\ is_ctx s = Some c /\
    ctx_in base m c None /\ base_ntfs_ino c = None /\
    inodes (is_w s) = inodes (after_map bits shift w1 base i1 (inr m) false) /\ pinned (is_w s) = pinned (after_map bits shift w1 base i1 (inr m) false).

(** They are given back. *)
Definition Free (s : istate) : Prop := n_ptr (is_v s) = base /\ is_ctx s = None /\ is_m s = None /\ clean w0 base (is_w s).

Definition Ok (s : istate) : Prop := Held s \/ Free s.

Lemma plain_inv w1 i1 m c w : session_caller w1 base i1 -> Forall byte_ok m -> ctx_in base m c None -> base_ntfs_ino c = None ->
  inodes w = inodes (after_map bits shift w1 base i1 (inr m) false) -> pinned w = pinned (after_map bits shift w1 base i1 (inr m) false) -> Inv w1 i1 m w c.
Proof using Type.
  intros Hc Hm Hin Hbn Ei Ep. destruct (mapped_caller bits shift w1 base i1 m Hc Hm) as [(inos & Hok & Hidle) _ Hal]. exists None. split; [|by left].
  exists (inodes w), inos. split; [|done]. split.
  - exists (mapped bits shift i1), (nr_extents i1), (ni_ext i1). split; [eapply base_ok_same; [|exact Hok]; by rewrite Ei|by destruct i1].
  - rewrite Ei. exact Hidle.
  - intros p i _ Hi. by rewrite Ei.
  - intros p i Hn Hi. rewrite Ei in Hi. congruence.
Qed.

Lemma Early_Held s : Early s -> Held s.
Proof using Type.
  intros (Hp & w1 & i1 & m & c & Hcl & Hsc & _ & Hm & Em & Ec & Hin & Hbn & Ei & Epn). split; [done|]. exists w1, i1, m, c. split_and!; try done. by apply plain_inv.
Qed.

(** Giving back what is held. *)
Lemma give_back_ctx w1 i1 m w c : clean w0 base w1 -> session_caller w1 base i1 -> Inv w1 i1 m w c ->
  exists w4 w5, ntfs_attr_put_search_ctx c w = Ret (w4, tt) /\ unmap_mft_record base w4 = Ret (w5, tt) /\ clean w0 base w5.
Proof using Type.
  intros Hcl Hsc Hinv. destruct (put_returns _ _ _ _ _ _ _ _ Hinv) as (w4 & E4 & (ii & inos & [(b & n & e & Hok & ->) Hidle Hold Hnew] & Hw & Hpin)).
  exists w4. eexists. split; [done|]. pose proof (session_caller_lookup _ _ _ Hsc) as Hb1. destruct Hok as [Hb Hl Hn He Hp]. cbn [inodes] in Hb.
  assert (Hid : idle (set_ext n e i1)) by (destruct Hsc as [Hid _ _]; exact Hid).
  split; [apply (unmap_record_spec bits shift w4 base (set_ext n e i1)); [by rewrite Hw, Hb|done]|]. eapply clean_trans; [done|].
  exists i1, (set_ext n e i1). split_and!; [done| |by destruct i1| | |].
  - constructor; [done| |intros al Hal; by eapply (sc_list _ _ _ Hsc)]. exists inos. split.
    + split; [cbn; apply lookup_insert_eq|done|done|done|]. intros p Hin. destruct (Hp p Hin) as [Hne [k Hk]]. split; [done|]. exists k. cbn. rewrite lookup_insert_ne by done. by rewrite Hw.
    + intros p k Hin Hk. destruct (Hp p Hin) as [Hne _]. cbn in Hk. rewrite lookup_insert_ne in Hk by done. rewrite Hw in Hk. by eapply Hidle.
  - cbn -[unpin]. rewrite Hpin. cbn -[unpin]. by rewrite unpin_cons.
  - intros p k Hne Hk. cbn. rewrite lookup_insert_ne by done. rewrite Hw. apply Hold; [done|]. cbn. by rewrite lookup_insert_ne.
  - intros p k Hnone Hk. assert (p <> base) by congruence. cbn in Hk. rewrite lookup_insert_ne in Hk by done. rewrite Hw in Hk. apply (Hnew p k); [|done]. cbn. by rewrite lookup_insert_ne.
Qed.

(** ** Triples *)

(** From a state [P], what is returned satisfies [Q]; after an error everything held
    can still be given back. *)
Definition tri {A} (P : istate -> Prop) (m : RI A) (Q : istate -> Prop) : Prop :=
  forall s s' r, P s -> m s = Ret (s', r) -> match r with inl _ => Ok s' | inr _ => Q s' end.

(** The predicates look at nothing else of the inode than the record it is in. *)
Definition local (P : istate -> Prop) : Prop := forall s s', is_w s' = is_w s -> is_ctx s' = is_ctx s -> is_m s' = is_m s -> n_ptr (is_v s') = n_ptr (is_v s) -> P s -> P s'.

Lemma local_Held : local Held.
Proof using Type. intros s s' E1 E2 E3 E4 [Hp (w1 & i1 & m & c & H1 & H2 & H3 & H4 & H5 & H6)]. split; [congruence|]. exists w1, i1, m, c. rewrite E1, E2, E3. by split_and!. Qed.
Lemma local_Early : local Early.
Proof using Type.
  intros s s' E1 E2 E3 E4 [Hp (w1 & i1 & m & c & H)]. split; [congruence|]. exists w1, i1, m, c. by rewrite E1, E2, E3.
Qed.
Lemma local_Free : local Free.
Proof using Type. intros s s' E1 E2 E3 E4 (Hp & H1 & H2 & H3). unfold Free. rewrite E1, E2, E3. split_and!; congruence || done. Qed.

Lemma Ok_Held s : Held s -> Ok s.
Proof using Type. by left. Qed.
Lemma Ok_Free s : Free s -> Ok s.
Proof using Type. by right. Qed.
Lemma Ok_Early s : Early s -> Ok s.
Proof using Type. intros H. left. by apply Early_Held. Qed.

Lemma tri_bind {A B} P Q R (m : RI A) (f : A -> RI B) : tri P m Q -> (forall a, tri Q (f a) R) -> tri P (m ≫= f) R.
Proof using Type.
  intros Hm Hf s s' r HP [(err & E & ->)|(s1 & a & E1 & E2)]%RI_bind_inv; [exact (Hm _ _ _ HP E)|]. exact (Hf a _ _ _ (Hm _ _ _ HP E1) E2).
Qed.

Lemma tri_inert {A} P (m : RI A) : local P -> (forall s, P s -> Ok s) -> inert m -> tri P m P.
Proof using Type.
  intros Hl Hok Hi s s' r HP E. destruct (Hi _ _ _ E) as (H1 & H2 & H3 & H4). assert (P s') by (by eapply Hl). destruct r; auto.
Qed.

Lemma tri_weaken {A} P P' Q (m : RI A) : (forall s, P s -> P' s) -> tri P' m Q -> tri P m Q.
Proof using Type. intros HP Hm s s' r H E. exact (Hm _ _ _ (HP _ H) E). Qed.

Lemma tri_post {A} P Q Q' (m : RI A) : (forall s, Q s -> Q' s) -> tri P m Q -> tri P m Q'.
Proof using Type. intros HQ Hm s s' r H E. pose proof (Hm _ _ _ H E). destruct r; auto. Qed.

Local Abbreviation lookup := (lookup upcase upcase_len read_mapping_page mft_size bits shift).

Lemma held_caller w1 i1 m : session_caller w1 base i1 -> Forall byte_ok m -> caller_ok (after_map bits shift w1 base i1 (inr m) false) base (mapped bits shift i1) m.
Proof using Type. apply mapped_caller. Qed.

Lemma tri_lookup t n l : tri Held (lookup t n l) Held.
Proof using Hbits Hshift Hpages.
  intros s s' r [Hp (w1 & i1 & m & c & H1 & H2 & H3 & H4 & H5 & H6)] E. unfold Inode.lookup in E. rewrite H5 in E. apply bind_Ret_inv in E as ([w [c' err]] & E & [= <- <-]).
  split; [done|]. exists w1, i1, m, c'. split_and!; try done. cbn [is_w].
  eapply step_inv; [exact Hbits|exact Hshift|exact Hpages|by apply held_caller|exact H6|by eapply Step_lookup].
Qed.

Lemma tri_reinit : tri Held reinit Held.
Proof using Hbits Hshift Hpages upcase upcase_len mft_size.
  intros s s' r [Hp (w1 & i1 & m & c & H1 & H2 & H3 & H4 & H5 & H6)] E. unfold reinit in E. rewrite H5 in E. apply bind_Ret_inv in E as ([w c'] & E & [= <- <-]).
  split; [done|]. exists w1, i1, m, c'. split_and!; try done. cbn [is_w].
  eapply (step_inv upcase upcase_len read_mapping_page mft_size bits shift); [exact Hbits|exact Hshift|exact Hpages|by apply held_caller|exact H6|by eapply Step_reinit].
Qed.

Lemma tri_release : tri Held release_record Free.
Proof using Type.
  intros s s' r [Hp (w1 & i1 & m & c & H1 & H2 & H3 & H4 & H5 & H6)] E. unfold release_record in E. rewrite H4, H5, Hp in E.
  destruct (give_back_ctx _ _ _ _ _ H1 H2 H6) as (w4 & w5 & E4 & E5 & Hcl). rewrite E4, bind_Ret, E5, bind_Ret in E. injection E as <- <-. by split_and!.
Qed.

(** *** Before there is an attribute list *)

Lemma early_lookup t n l : tri Early (lookup t n l) Early.
Proof using Hbits Hshift Hpages.
  intros s s' r He E. pose proof (Early_Held _ He) as Hh. destruct He as [Hp (w1 & i1 & m & c & H1 & H2 & Hal & H3 & H4 & H5 & Hin & Hbn & Ei & Ep)].
  unfold Inode.lookup in E. rewrite H5 in E. apply bind_Ret_inv in E as ([w [c' err]] & E & [= <- <-]).
  assert (Hf : inodes w = inodes (is_w s) /\ pinned w = pinned (is_w s) /\ ntfs_ino c' = ntfs_ino c /\ base_ntfs_ino c' = base_ntfs_ino c /\ mrec c' = mrec c /\ al_entry c' = al_entry c).
  { unfold ntfs_attr_lookup in E. rewrite Hbn in E. cbn [default] in E. destruct Hin as (Hino & _). cbn in Hino. rewrite Hino in E.
    rewrite (M_run _ _ (is_w s) (is_w s) (mapped bits shift i1)) in E by (unfold get; rewrite Ei; cbn; by rewrite lookup_insert_eq).
    cbn [attr_list mapped set_page set_mrec_lock set_count] in E. rewrite Hal, bool_decide_true in E by done. cbn [orb] in E.
    unfold attr_find in E. apply bind_Ret_inv in E as ([fc e] & _ & [= <- <- <-]). done. }
  destruct Hf as (F1 & F2 & F3 & F4 & F5 & F6).
  assert (Hat : 0 <= attr c').
  { assert (Hi : Inv w1 i1 m w c').
    { eapply step_inv; [exact Hbits|exact Hshift|exact Hpages|by apply held_caller| |by eapply Step_lookup]. by apply plain_inv. }
    destruct Hi as (cur & _ & [((_ & _ & H & _) & _)|((_ & _ & H & _) & _)]); exact H. }
  split; [done|]. exists w1, i1, m, c'. cbn [is_w is_ctx is_m]. split_and!; try done; [|congruence..].
  destruct Hin as (G1 & G2 & G3 & G4 & G5). split_and!; [by rewrite F3|by rewrite F5|done|by rewrite F6|by rewrite F5].
Qed.

Lemma early_reinit : tri Early reinit Early.
Proof using Type.
  intros s s' r [Hp (w1 & i1 & m & c & H1 & H2 & Hal & H3 & H4 & H5 & Hin & Hbn & Ei & Ep)] E.
  unfold reinit in E. rewrite H5 in E. apply bind_Ret_inv in E as ([w c'] & E & [= <- <-]). unfold ntfs_attr_reinit_search_ctx in E. rewrite Hbn in E.
  destruct (first_attr (mrec c)) as [a| | | |] eqn:Ea; try done. injection E as <- <-. destruct Hin as (G1 & G2 & G3 & G4 & G5).
  split; [done|]. eexists w1, i1, m, _. split_and!; try done. split_and!; try done. cbn. by eapply first_attr_nonneg.
Qed.

(** A change of the base inode. *)
Lemma early_modify s (f : ntfs_inode -> ntfs_inode) s' r : Early s -> on_world (modify base f) s = Ret (s', r) ->
  (forall i, like i (f i)) -> (forall i, nr_extents (f i) = nr_extents i /\ ni_ext (f i) = ni_ext i) -> (forall i, f (mapped bits shift i) = mapped bits shift (f i)) ->
  (forall i al, attr_list i = None -> attr_list (f i) = Some al -> Forall byte_ok al) ->
  Held s' /\ ((forall i, attr_list (f i) = attr_list i) -> Early s').
Proof using Type.
  intros [Hp (w1 & i1 & m & c & H1 & H2 & Hal & H3 & H4 & H5 & Hin & Hbn & Ei & Ep)] E Hlike Hext Hmap Hbytes.
  unfold on_world, modify in E. rewrite Ei in E. cbn [inodes after_map with_pinned upd] in E. rewrite lookup_insert_eq in E. cbn in E. injection E as <- <-.
  destruct (session_caller_upd w1 base i1 (f i1) H2 (Hlike i1) (proj1 (Hext i1)) (proj2 (Hext i1)) (fun al => Hbytes i1 al Hal)) as [Hsc Hcl].
  assert (Hc : clean w0 base (upd w1 base (f i1))) by (by eapply clean_trans).
  assert (Hw : <[base := f (mapped bits shift i1)]> (<[base := mapped bits shift i1]> (inodes w1)) = inodes (after_map bits shift (upd w1 base (f i1)) base (f i1) (inr m) false)).
  { cbn. by rewrite !insert_insert_eq, Hmap. }
  assert (Hpn : pinned (is_w s) = pinned (after_map bits shift (upd w1 base (f i1)) base (f i1) (inr m) false)).
  { rewrite Ep. cbn. by rewrite (proj1 (Hlike i1)). }
  split.
  - split; [done|]. exists (upd w1 base (f i1)), (f i1), m, c. split_and!; try done. apply plain_inv; try done.
  - intros Hkeep. split; [done|]. exists (upd w1 base (f i1)), (f i1), m, c. cbn [is_w is_ctx is_m inodes pinned]. rewrite Hkeep. by split_and!.
Qed.

Lemma early_ptr s : Early s -> n_ptr (is_v s) = base.
Proof using Type. by intros [? _]. Qed.

(** The inode that is read is [base]. *)
Lemma tri_ptr {A} P Q (f : ptr -> RI A) : (forall s, P s -> n_ptr (is_v s) = base) -> tri P (f base) Q -> tri P (p ← getv n_ptr; f p) Q.
Proof using Type. intros Hp Hf s s' r HP E. apply (Hf s s' r HP). unfold mbind, RI_bind, getv in E. cbn in E. by rewrite (Hp s HP) in E. Qed.

Lemma tri_if {A} (b : bool) P Q (m n : RI A) : tri P m Q -> tri P n Q -> tri P (if b then m else n) Q.
Proof using Type. by destruct b. Qed.

Lemma tri_Held {A} (m : RI A) : inert m -> tri Held m Held.
Proof using Type. apply tri_inert; [exact local_Held|exact Ok_Held]. Qed.
Lemma tri_Early {A} (m : RI A) : inert m -> tri Early m Early.
Proof using Type. apply tri_inert; [exact local_Early|exact Ok_Early]. Qed.
Lemma tri_Free {A} (m : RI A) : inert m -> tri Free m Free.
Proof using Type. apply tri_inert; [exact local_Free|exact Ok_Free]. Qed.

(** Goes through a sequence whose steps keep [Held] (or [Early], or [Free]). *)
Ltac tri_step :=
  first
    [ apply tri_Held; solve [inert]
    | apply tri_Early; solve [inert]
    | apply tri_Free; solve [inert]
    | apply tri_lookup | apply tri_reinit | apply early_lookup | apply early_reinit
    | lazymatch goal with
      | |- tri _ (mbind _ _) _ => eapply tri_bind; [|intros ?]
      | |- tri _ (if _ then _ else _) _ => apply tri_if
      | |- tri _ (let _ := _ in _) _ => cbv zeta
      end ].
Ltac tri := repeat tri_step.

Lemma tri_header : tri Early (read_header vol) Early.
Proof using Type.
  unfold read_header. do 5 (eapply tri_bind; [tri_step|intros ?]). apply tri_ptr; [exact early_ptr|].
  eapply tri_bind with (Q := Early); [|intros ?; tri].
  intros s s' r He E. destruct (early_modify s (set_seq_no a3) s' r He E) as [_ H]; [by repeat split|done|done|intros i al G1 G2; cbn in G2; congruence|]. assert (Early s') by (by apply H).
  destruct r; [by apply Ok_Early|done].
Qed.

Lemma tri_times : tri Early (read_times upcase upcase_len read_mapping_page mft_size bits shift) Early.
Proof using Hbits Hshift Hpages. unfold read_times. tri. Qed.

Lemma tri_set_attr_list al : Forall byte_ok al -> tri Early (set_attr_list al) Held.
Proof using Type.
  intros Hal. unfold set_attr_list. apply tri_ptr; [exact early_ptr|]. intros s s' r He E.
  match type of E with on_world (modify _ ?g) _ = _ => destruct (early_modify s g s' r He E) as [H _]; [by repeat split|done|done|by intros i al' _ [= <-]|] end.
  destruct r; [by apply Ok_Held|done].
Qed.

Lemma inert_load_list buf size : inert (load_non_resident_list vol sb_bread block_size_bits buf size).
Proof using Type. unfold load_non_resident_list. inert. Qed.

(** The list that is loaded consists of bytes. *)
Lemma load_list_bytes buf size s s' al : Forall byte_ok buf -> load_non_resident_list vol sb_bread block_size_bits buf size s = Ret (s', inr al) -> Forall byte_ok al.
Proof using Hdev.
  intros Hb. unfold load_non_resident_list. do 5 (intros [(? & _ & [=])|(? & ? & _ & E)]%RI_bind_inv; revert E).
  intros [(? & _ & [=])|(s1 & rl & _ & E)]%RI_bind_inv. destruct rl as [err|rl]; [done|]. revert E.
  intros [(? & _ & [=])|(? & ? & _ & E)]%RI_bind_inv. revert E. intros [(? & _ & [=])|(s2 & lx & Ex & E)]%RI_bind_inv. revert E.
  intros [(? & _ & [=])|(? & ? & _ & E)]%RI_bind_inv. injection E as _ <-.
  unfold rlift in Ex. apply bind_Ret_inv in Ex as ([b e] & Ex & [= _ <-]). by eapply load_bytes.
Qed.

Lemma tri_bind_val {A B} P Q R (V : A -> Prop) (m : RI A) (f : A -> RI B) : tri P m Q -> (forall s s' a, P s -> m s = Ret (s', inr a) -> V a) ->
  (forall a, V a -> tri Q (f a) R) -> tri P (m ≫= f) R.
Proof using Type.
  intros Hm HV Hf s s' r HP [(err & E & ->)|(s1 & a & E1 & E2)]%RI_bind_inv; [exact (Hm _ _ _ HP E)|]. exact (Hf a (HV _ _ _ HP E1) _ _ _ (Hm _ _ _ HP E1) E2).
Qed.

Lemma zeros_bytes n : Forall byte_ok (repeat 0 n).
Proof using Type. apply list.Forall_forall. intros x Hx%list_elem_of_In%repeat_spec. subst x. unfold byte_ok. lia. Qed.

Lemma tri_early_held {A} (m : RI A) : inert m -> tri Early m Held.
Proof using Type. intros Hi. eapply tri_post; [exact Early_Held|by apply tri_Early]. Qed.

Lemma early_mrec s s' m : Early s -> mrec_field (fun m _ => Ret m) 0 s = Ret (s', inr m) -> Forall byte_ok m.
Proof using Type.
  intros [_ (w1 & i1 & m1 & c & _ & _ & _ & _ & _ & Hc & (_ & Hb & _) & _)] E. unfold mrec_field in E. rewrite Hc in E. by injection E as _ <-.
Qed.

Lemma tri_attr_list : tri Early (read_attr_list vol sb_bread block_size_bits upcase upcase_len read_mapping_page mft_size bits shift) Held.
Proof using Hbits Hshift Hpages Hdev.
  unfold read_attr_list. do 2 (eapply tri_bind; [tri_step|intros ?]). apply tri_if; [apply tri_early_held; inert|]. eapply tri_bind; [tri_step|intros ?]. apply tri_if; [apply tri_early_held; inert|].
  do 6 (eapply tri_bind; [tri_step|intros ?]). cbv zeta. do 2 (eapply tri_bind; [tri_step|intros ?]). apply tri_if.
  - eapply (tri_bind_val _ Early _ (Forall byte_ok)); [apply tri_Early, inert_load_list| |exact tri_set_attr_list].
    intros s s' al _ E. eapply load_list_bytes; [|exact E]. apply zeros_bytes.
  - do 4 (eapply tri_bind; [tri_step|intros ?]). eapply (tri_bind_val _ Early _ (Forall byte_ok)); [tri_step|exact early_mrec|intros m Hm].
    eapply (tri_bind_val _ Early _ (Forall byte_ok)); [tri_step| |exact tri_set_attr_list].
    intros s s' al _ E. unfold rlift in E. apply bind_Ret_inv in E as (x & E & [= _ <-]). exact (blit_bytes _ _ _ _ _ _ _ (zeros_bytes _) Hm E).
Qed.

Lemma tri_file_names fuel : forall nr, tri Held (file_names upcase upcase_len read_mapping_page mft_size bits shift fuel nr) Held.
Proof using Hbits Hshift Hpages.
  induction fuel as [|fuel IH]; intros nr; cbn [file_names]; [by intros s s' r _ ?|]. tri. destruct a0; [tri_step|apply IH].
Qed.

Lemma tri_extended fuel : tri Held (ntfs_is_extended_system_file upcase upcase_len read_mapping_page mft_size bits shift fuel) Held.
Proof using Hbits Hshift Hpages. unfold ntfs_is_extended_system_file. do 2 (eapply tri_bind; [tri_step|intros ?]). apply tri_file_names. Qed.

Lemma tri_file fuel : tri Held (read_file vol upcase upcase_len read_mapping_page mft_size bits shift fuel) Free.
Proof using Hbits Hshift Hpages.
  unfold read_file. do 3 (eapply tri_bind; [tri_step|intros ?]). eapply tri_bind with (Q := Held); [|intros ?; eapply tri_bind; [apply tri_release|intros ?; tri_step]].
  apply tri_if; [|tri]. do 3 (eapply tri_bind; [tri_step|intros ?]). apply tri_if; [tri_step|]. eapply tri_bind; [apply tri_extended|intros ?; tri_step].
Qed.

Lemma tri_index_allocation n l : tri Held (read_index_allocation upcase upcase_len read_mapping_page mft_size bits shift n l) Held.
Proof using Hbits Hshift Hpages. unfold read_index_allocation. tri. Qed.

Lemma tri_dir_root : tri Held (read_dir_root vol upcase upcase_len read_mapping_page mft_size bits shift) Held.
Proof using Hbits Hshift Hpages. unfold read_dir_root. tri. Qed.

Lemma tri_view_root : tri Held (read_view_root vol upcase upcase_len read_mapping_page mft_size bits shift) Held.
Proof using Hbits Hshift Hpages. unfold read_view_root. tri. Qed.

(** Getting the bitmap inode leaves nothing behind either. *)
Definition keeps_clean {A} (g : M A) : Prop := forall w w' r, clean w0 base w -> g w = Ret (w', r) -> clean w0 base w'.

Lemma tri_check_bitmap g : keeps_clean g -> tri Free (check_bitmap g) Free.
Proof using Type.
  intros Hg. unfold check_bitmap. eapply tri_bind with (Q := Free); [|intros b; destruct b; tri].
  intros s s' r (H1 & H2 & H3 & H4) E. unfold on_world in E. apply bind_Ret_inv in E as ([w b] & E & [= <- <-]). split_and!; try done. by eapply Hg.
Qed.

(** A small or a large index. *)
Lemma tri_index (b : bool) n l (g : vinode -> M (Z + vinode)) : (forall v, n_ptr v = base -> keeps_clean (g v)) ->
  tri Held (if b then setv (vi_set_sizes (mk_sizes 0 0 0));; release_record
     else set_flag NInoSetNonResident;; read_index_allocation upcase upcase_len read_mapping_page mft_size bits shift n l;; release_record;; v ← getv id; check_bitmap (g v)) Free.
Proof using Hbits Hshift Hpages.
  intros Hg. apply tri_if.
  - eapply tri_bind; [tri_step|intros ?; apply tri_release].
  - eapply tri_bind; [tri_step|intros ?]. eapply tri_bind; [apply tri_index_allocation|intros ?]. eapply tri_bind; [apply tri_release|intros ?].
    eapply (tri_bind_val _ Free _ (fun v => n_ptr v = base)); [tri_step| |intros v Hv; by apply tri_check_bitmap, Hg]. intros s s' v (Hp & _) [= _ <-]. exact Hp.
Qed.

Lemma tri_dir g : (forall v, n_ptr v = base -> keeps_clean (g v)) -> tri Held (read_dir vol upcase upcase_len read_mapping_page mft_size bits shift g) Free.
Proof using Hbits Hshift Hpages.
  intros Hg. unfold read_dir. eapply tri_bind; [apply tri_dir_root|intros fl]. eapply tri_bind; [by apply tri_index|intros ?; tri_step].
Qed.

Lemma tri_inode_body fuel g : (forall v, n_ptr v = base -> keeps_clean (g v)) ->
  tri Early (read_inode_body vol sb_bread block_size_bits upcase upcase_len read_mapping_page mft_size bits shift fuel g) Free.
Proof using Hbits Hshift Hpages Hdev.
  intros Hg. unfold read_inode_body. eapply tri_bind; [apply tri_header|intros ?]. eapply tri_bind; [apply tri_times|intros ?]. eapply tri_bind; [apply tri_attr_list|intros ?].
  eapply tri_bind; [tri_step|intros mode]. eapply tri_bind; [|intros ?; tri_step]. apply tri_if; [by apply tri_dir|apply tri_file].
Qed.

Lemma tri_attr_body : tri Held (read_attr_body vol upcase upcase_len read_mapping_page mft_size bits shift) Free.
Proof using Hbits Hshift Hpages.
  unfold read_attr_body. do 5 (eapply tri_bind; [tri_step|intros ?]). eapply tri_bind with (Q := Held); [apply tri_Held; inert|intros ?].
  do 2 (eapply tri_bind; [tri_step|intros ?]). apply tri_release.
Qed.

Lemma tri_index_body g : (forall v, n_ptr v = base -> keeps_clean (g v)) -> tri Held (read_index_body vol upcase upcase_len read_mapping_page mft_size bits shift g) Free.
Proof using Hbits Hshift Hpages.
  intros Hg. unfold read_index_body. eapply tri_bind; [apply tri_view_root|intros fl]. eapply tri_bind with (Q := Free); [|intros ?; tri].
  apply tri_if; [eapply tri_bind; [tri_step|intros ?; apply tri_release]|]. eapply tri_bind; [tri_step|intros ?].
  eapply (tri_bind_val _ Held _ (fun v => n_ptr v = base)); [tri_step| |intros v Hv]. { intros s s' v (Hp & _) [= _ <-]. exact Hp. }
  eapply tri_bind; [apply tri_index_allocation|intros ?]. eapply tri_bind; [apply tri_release|intros ?]. by apply tri_check_bitmap, Hg.
Qed.
End Safe.
