(* ===== verification/InodeDemo.v ===== *)
(** * Concrete inodes

    The records of a small file and of a small directory, on which the theorems about
    the reading of inodes are applied. *)

From Stdlib Require Import ZArith Lia Bool.
From stdpp Require Import base list numbers option gmap.
From S2P Require Import Prelude Endian RunlistTheorems MappingPairs MappingPairsTheorems Unistr Time Attrib MftMap MapRunlist MapRunlistTheorems PageRead Dir Inode.

Definition demo_iv : inode_volume := mk_iv demo_vol 512 9 256 1000 100 0x3f 0x12 false.

(** The head of a record: link count 1, sequence number 3. *)
Definition demo_head (flags used : Z) : list Z :=
  le_split 4 magic_FILE ++ repeat 0 12 ++ le_split 2 3 ++ le_split 2 1 ++ le_split 2 56 ++ le_split 2 flags ++ le_split 4 used ++ le_split 4 256 ++ repeat 0 24.
(** $STANDARD_INFORMATION with the first seconds of 1970. *)
Definition demo_si : list Z :=
  le_split 4 0x10 ++ le_split 4 72 ++ [0; 0] ++ le_split 2 24 ++ repeat 0 4 ++ le_split 4 48 ++ le_split 2 24 ++ [0; 0] ++
  le_split 8 0 ++ le_split 8 116444736000000000 ++ le_split 8 116444736010000000 ++ le_split 8 116444736020000000 ++ repeat 0 16.
(** A resident $DATA of five bytes, whose value is said to be at [vo]. *)
Definition demo_data (vo len : Z) : list Z :=
  le_split 4 0x80 ++ le_split 4 32 ++ [0; 0] ++ le_split 2 24 ++ repeat 0 4 ++ le_split 4 len ++ le_split 2 vo ++ [0; 0] ++ [1; 2; 3; 4; 5; 0; 0; 0].
Definition demo_plain_with (data : list Z) : list Z := demo_head 1 164 ++ demo_si ++ data ++ le_split 4 AT_END ++ repeat 0 92.
Definition demo_plain : list Z := demo_plain_with (demo_data 24 5).
(** An $INDEX_ROOT with the end entry only. *)
Definition demo_index_root : list Z :=
  le_split 4 0x90 ++ le_split 4 80 ++ [0; 4] ++ le_split 2 24 ++ repeat 0 4 ++ le_split 4 48 ++ le_split 2 32 ++ [0; 0] ++ concat (map (le_split 2) (take 4 I30)) ++
  le_split 4 0x30 ++ le_split 4 1 ++ le_split 4 4096 ++ [1; 0; 0; 0] ++ le_split 4 16 ++ le_split 4 32 ++ le_split 4 32 ++ [0; 0; 0; 0] ++
  repeat 0 8 ++ le_split 2 16 ++ le_split 2 0 ++ le_split 2 2 ++ [0; 0].
Definition demo_small_dir : list Z := demo_head 3 212 ++ demo_si ++ demo_index_root ++ le_split 4 AT_END ++ repeat 0 44.

(** The page of $MFT with the record as number 2. *)
Definition demo_rec_page (r : list Z) (n : Z) : Z + (list Z * bool) :=
  if n =? 0 then inr (repeat 0 512 ++ r ++ repeat 0 (13 * 256), false) else inl (- EIO).
(** The new inode number 2. *)
Definition demo_new : vinode :=
  mk_vi 2 0 0 0 1 0 (mk_times (mk_ts 0 0) (mk_ts 0 0) (mk_ts 0 0)) 0 false NoOps NoAops 1%positive 0 None 0 (mk_sizes 0 0 0) no_flags (mk_ii 0 0 0 0 0) (mk_ic 0 0 0 0) None.
Definition demo_read (iv : inode_volume) (r : list Z) : outcome (world * (vinode * Z)) :=
  @ntfs_read_locked_inode demo_alloc iv (fun _ => None) 9 [] 0 (demo_rec_page r) 4096 8 12 (fun _ => IgetNoMemory) true 5 demo_new demo_file_world.

Lemma demo_rec_pages r : length r = 256%nat -> Forall byte_ok r -> forall n data err, demo_rec_page r n = inr (data, err) -> zlen data = page_size 12 /\ Forall byte_ok data.
Proof.
  intros Hl Hb n data err. unfold demo_rec_page. destruct (n =? 0); [|done]. intros E.
  assert (data = repeat 0 512 ++ r ++ repeat 0 (13 * 256)) as -> by congruence. split.
  - change (page_size 12) with (Z.of_nat 4096). unfold zlen. f_equal. rewrite !length_app, !repeat_length, Hl. done.
  - rewrite !Forall_app. split_and!; [apply (bool_decide_unpack _); by vm_compute|done|apply (bool_decide_unpack _); by vm_compute].
Qed.

(** ** Records the checks let pass *)

(** A $FILE_NAME of 8 bytes, whose value is said to be at [vo]. *)
Definition demo_file_name (vo : Z) : list Z :=
  le_split 4 0x30 ++ le_split 4 32 ++ [0; 0] ++ le_split 2 24 ++ repeat 0 4 ++ le_split 4 8 ++ le_split 2 vo ++ [1; 0] ++ le_split 8 11.

(** A file without data attribute is one of the directory $Extend if the parent in its
    name says so. *)
Example extended_file_read :
  match demo_read demo_iv (demo_plain_with (demo_file_name 24)) with Ret (_, (v, err)) => err = 0 /\ i_ops v = FileOps | _ => False end.
Proof. vm_compute. split; reflexivity. Qed.

(** The check of the name compares the length of the value with the end of the
    attribute, but not its offset: the parent is read from outside of the record. *)
Example file_name_value_unchecked : demo_read demo_iv (demo_plain_with (demo_file_name 0x4000)) = Fault.
Proof. vm_compute. reflexivity. Qed.

(** Nor is the value of $STANDARD_INFORMATION checked. *)
Example standard_information_unchecked :
  demo_read demo_iv (demo_head 1 132 ++ take 20 demo_si ++ le_split 2 0x4000 ++ drop 22 demo_si ++ le_split 4 AT_END ++ repeat 0 124) = Fault.
Proof. vm_compute. reflexivity. Qed.

(** A value that starts after the end of its attribute makes the allocated size wrap
    around, so that any length of it is accepted. *)
Example resident_size_unchecked :
  match demo_read demo_iv (demo_plain_with (demo_data 40 0x7fffffff)) with
  | Ret (_, (v, err)) => err = 0 /\ n_sizes v = mk_sizes 0xfffffff8 0x7fffffff 0x7fffffff
  | _ => False
  end.
Proof. vm_compute. split; reflexivity. Qed.

(** A non-resident $DATA that is sparse, with the compression unit [cu]. *)
Definition demo_sparse_data (cu : Z) : list Z :=
  le_split 4 0x80 ++ le_split 4 72 ++ [1; 0] ++ le_split 2 72 ++ le_split 2 0x8000 ++ [0; 0] ++ le_split 8 0 ++ le_split 8 0 ++ le_split 2 72 ++ [cu] ++ repeat 0 5 ++
  le_split 8 512 ++ le_split 8 512 ++ le_split 8 512 ++ le_split 8 0.
(** The compression unit of a sparse attribute is not checked before the shift by it. *)
Example sparse_unit_unchecked :
  match demo_read demo_iv (demo_head 1 204 ++ demo_si ++ demo_sparse_data 4 ++ le_split 4 AT_END ++ repeat 0 52) with Ret (_, (v, err)) => err = 0 | _ => False end /\
  demo_read demo_iv (demo_head 1 204 ++ demo_si ++ demo_sparse_data 40 ++ le_split 4 AT_END ++ repeat 0 52) = Fault.
Proof. vm_compute. split; reflexivity. Qed.

(** The masks of the mount options are removed from the type of the file, too: with a
    dmask of 040000 (octal) a directory is not taken for one. *)
Example dmask_hides_directories :
  match demo_read (mk_iv demo_vol 512 9 256 1000 100 0 0x4000 false) demo_small_dir with Ret (_, (v, err)) => err = - ENOENT /\ i_bad v = true | _ => False end.
Proof. vm_compute. split; reflexivity. Qed.
