(* ===== verification/InodeTheorems.v ===== *)
(** * Reading inodes: theorems

    What the reading of an inode leaves behind, what a directory inode that was read
    satisfies, and what is read from the record of a file. *)

From Stdlib Require Import ZArith Lia Bool.
From stdpp Require Import base list numbers option gmap.
From S2P Require Import Prelude Endian Runlist RunlistMerge MappingPairs Unistr Collate Time Boot Attrib MftMap MftMapSpec AttrLookup AttrLookupProof AttrLookupInv AttrLookupTheorems AttrSession Index Dir AttrList MapRunlist PageRead ReadPage RunlistTheorems MapRunlistTheorems Inode InodeSafe InodeDemo.

Section Read.
Context {KA : KernelAlloc} (vol : inode_volume) (sb_bread : Z -> option (list Z)) (block_size_bits : Z).
Context (upcase : list Z) (upcase_len : Z).
Context (read_mapping_page : Z -> Z + (list Z * bool)) (mft_size bits shift : Z).
Hypothesis Hbits : 8 <= bits <= shift.
Hypothesis Hshift : shift < 31.
Hypothesis Hpages : forall n data err, read_mapping_page n = inr (data, err) -> zlen data = page_size shift /\ Forall byte_ok data.
Hypothesis Hdev : forall n data, sb_bread n = Some data -> Forall byte_ok data.

(** How a call ends: everything is given back, and after an error the inode is bad and
    the volume has its errors flag, but for the errors in [quiet]. *)
Definition ends_clean (quiet : Z -> bool) (w : world) (base : ptr) (w' : world) (v' : vinode) (err : Z) : Prop :=
  clean w base w' /\ (err <> 0 -> i_bad v' = true /\ (quiet err = false -> vol_errors w' = true)).

Section Base.
Context (w0 : world) (base : ptr) (i0 : ntfs_inode).
Hypothesis Hsc : session_caller w0 base i0.

(** The last steps of the label [unm_err_out]. *)
Lemma err_out_ends (quiet : Z -> bool) err w v w' v' e : clean w0 base w ->
  ('(w, _) ← (if quiet err then mret tt else NVolSetErrors : M unit) w; Ret (w, (make_bad_inode v, err))) = Ret (w', (v', e)) -> err <> 0 -> ends_clean quiet w0 base w' v' e /\ e <> 0.
Proof using Type.
  intros Hcl E He. destruct (quiet err) eqn:Eq; injection E as <- <- <-.
  - split; [|done]. split; [done|]. intros _. split; [done|]. congruence.
  - split; [|done]. split; [by apply (clean_same w0 w)|]. intros _. done.
Qed.

Lemma eio_or err : (if err =? 0 then - EIO else err) <> 0.
Proof using Type. unfold EIO. destruct (Z.eqb_spec err 0); lia. Qed.

Lemma unm_err_out_ends quiet err s w' v' e : Ok bits shift w0 base s -> inode_err_out quiet err s = Ret (w', (v', e)) -> ends_clean quiet w0 base w' v' e /\ e <> 0.
Proof using Type.
  intros Hok E. unfold inode_err_out in E. cbv zeta in E. destruct Hok as [[Hp (w1 & i1 & m & c & H1 & H2 & H3 & H4 & H5 & H6)]|(Hp & H1 & H2 & H3)].
  - rewrite H4, H5, Hp in E. destruct (give_back_ctx _ _ _ _ _ _ _ _ _ H1 H2 H6) as (w4 & w5 & E4 & E5 & Hcl). rewrite E4, bind_Ret, E5, bind_Ret in E.
    eapply err_out_ends; [exact Hcl|exact E|apply eio_or].
  - rewrite H1, H2, !bind_Ret in E. eapply err_out_ends; [exact H3|exact E|apply eio_or].
Qed.

(** A context is not needed to give back the record. *)
Lemma unmap_clean m w : Forall byte_ok m -> inodes w = inodes (after_map bits shift w0 base i0 (inr m) false) -> pinned w = pinned (after_map bits shift w0 base i0 (inr m) false) ->
  exists w5, unmap_mft_record base w = Ret (w5, tt) /\ clean w0 base w5.
Proof using Hsc.
  intros Hm Ei Ep. set (c := mk_ctx m 0 true base None None None None).
  assert (Hinv : Inv bits shift (after_map bits shift w0 base i0 (inr m) false) base (mapped bits shift i0) m w c) by (by apply plain_inv).
  destruct (give_back_ctx bits shift w0 base w0 i0 m w c (clean_refl _ _ _ Hsc) Hsc Hinv) as (w4 & w5 & E4 & E5 & Hcl). injection E4 as <-. by exists w5.
Qed.

(** A function that maps the record, gets a context, does its work and cleans up. *)
Lemma read_with_ends quiet v body w' v' err : n_ptr v = base ->
  tri bits shift w0 base (Held bits shift w0 base) body (Free w0 base) \/ attr_list i0 = None /\ tri bits shift w0 base (Early bits shift w0 base) body (Free w0 base) ->
  read_with read_mapping_page mft_size bits shift quiet v body w0 = Ret (w', (v', err)) -> ends_clean quiet w0 base w' v' err.
Proof using Hbits Hshift Hpages Hsc.
  intros Hp Hbody E. pose proof (session_caller_lookup _ _ _ Hsc) as Hb. pose proof (clean_refl _ _ _ Hsc) as Hcl. unfold read_with in E. rewrite Hp in E.
  destruct (map_record_spec read_mapping_page mft_size bits shift Hbits Hshift ltac:(intros; by eapply Hpages) w0 base i0 Hb (sc_idle _ _ _ Hsc)) as (r & errs & Hr & Em).
  rewrite Em, bind_Ret in E. destruct r as [e|m].
  { apply unm_err_out_ends in E; [apply E|]. right. split_and!; try done. cbn [is_w]. destruct errs; [by apply (clean_same w0 w0)|done]. }
  assert (Hm : Forall byte_ok m).
  { inversion Hr as [? Hrec Hz|]. destruct Hrec as (_ & data & Hd & _ & ->). unfold record_at. apply Forall_take, Forall_drop. by eapply Hpages. }
  apply bind_Ret_inv in E as ([w2 c] & E2 & E).
  assert (Hw2 : inodes w2 = inodes (after_map bits shift w0 base i0 (inr m) false) /\ pinned w2 = pinned (after_map bits shift w0 base i0 (inr m) false) /\
    match c with Some c => ntfs_attr_init_search_ctx base m = Ret c | None => True end).
  { unfold ntfs_attr_get_search_ctx, alloc_ok, mbind, M_bind in E2. destruct (allocs _) as [|[|] l]; rewrite bind_Ret in E2; [..|by injection E2 as <- <-];
      (unfold lift in E2; destruct (ntfs_attr_init_search_ctx _ m); try done; by injection E2 as <- <-). }
  destruct Hw2 as (Ei & Ep & Hc). destruct c as [c|].
  - apply bind_Ret_inv in E as ([s r] & Es & E). set (s0 := mk_is w2 v (Some c) (Some m)) in Es.
    assert (He : attr_list i0 = None -> Early bits shift w0 base s0).
    { intros Hal. split; [done|]. unfold ntfs_attr_init_search_ctx in Hc. apply bind_Ret_inv in Hc as (a & Ha & [= <-]). eexists w0, i0, m, _.
      split_and!; try done. split_and!; try done. cbn. by eapply first_attr_nonneg. }
    assert (Hh : Held bits shift w0 base s0).
    { split; [done|]. unfold ntfs_attr_init_search_ctx in Hc. apply bind_Ret_inv in Hc as (a & Ha & [= <-]). eexists w0, i0, m, _. split_and!; try done.
      apply plain_inv; try done. split_and!; try done. cbn. by eapply first_attr_nonneg. }
    assert (Hres : match r with inl _ => Ok bits shift w0 base s | inr _ => Free w0 base s end).
    { destruct Hbody as [Ht|[Hal Ht]]; [exact (Ht _ _ _ Hh Es)|exact (Ht _ _ _ (He Hal) Es)]. }
    destruct r as [e|[]]; [apply unm_err_out_ends in E; [apply E|done]|]. injection E as <- <- <-. destruct Hres as (_ & _ & _ & Hcl'). split; [done|]. by intros ?.
  - unfold inode_err_out in E. cbn [is_ctx is_m is_v is_w] in E. cbv zeta in E. rewrite bind_Ret in E. destruct (unmap_clean m w2 Hm Ei Ep) as (w5 & E5 & Hcl5).
    rewrite Hp, E5, bind_Ret in E. apply err_out_ends in E; [apply E|exact Hcl5|done].
Qed.
End Base.

(** Reading an attribute inode, in any world in which nothing of the base inode is held. *)
Lemma attr_inode_ends w base i base_vi v w' v' err : session_caller w base i -> n_ptr v = base ->
  ntfs_read_locked_attr_inode vol upcase upcase_len read_mapping_page mft_size bits shift base_vi v w = Ret (w', (v', err)) ->
  ends_clean (fun err => err =? - ENOMEM) w base w' v' err.
Proof using Hbits Hshift Hpages.
  intros Hsc Hp. apply (read_with_ends w base i Hsc); [done|]. left. by apply tri_attr_body.
Qed.

Lemma init_locked_ptr k v na v' e : ntfs_init_locked_inode k v na = Ret (v', e) -> n_ptr v' = n_ptr v.
Proof using Type.
  unfold ntfs_init_locked_inode. cbv zeta. destruct (na_type na =? AT_UNUSED).
  - intros (_ & _ & (_ & _ & [= <- <-])%bind_Ret_inv)%bind_Ret_inv. by destruct (na_type na =? AT_INDEX_ALLOCATION).
  - destruct (_ && _); [destruct (na_name na); [|done]; destruct k|]; intros [= <- <-]; by destruct (na_type na =? AT_INDEX_ALLOCATION).
Qed.

Lemma attr_iget_keeps w0 base iget5 k v t n l : n_ptr v = base ->
  keeps_clean w0 base (ntfs_attr_iget vol upcase upcase_len read_mapping_page mft_size bits shift iget5 k v t n l).
Proof using Hbits Hshift Hpages.
  intros Hv w w' r Hcl E. unfold ntfs_attr_iget in E. apply bind_Ret_inv in E as ([w1 u] & E1 & E).
  assert (w1 = w) as ->. { unfold assert_not, lift, BUG_ON in E1. destruct (t =? AT_INDEX_ALLOCATION); [done|by injection E1]. }
  cbv zeta in E. unfold iget_common in E. destruct (iget5 _) as [|v0|]; [by injection E as <- _..|].
  apply bind_Ret_inv in E as ([w1 x] & E2 & E). unfold lift in E2. apply bind_Ret_inv in E2 as ([x1 x2] & Ei & [= <- <-]). cbn [fst snd] in E. destruct (negb (x2 =? 0)); [by injection E as <- _|].
  apply bind_Ret_inv in E as ([w2 [v2 e2]] & E3 & [= <- _]). apply init_locked_ptr in Ei. destruct Hcl as (i0 & i1 & H0 & Hsc & Hrest).
  assert (Hends := attr_inode_ends w base i1 v x1 w2 v2 e2 Hsc ltac:(rewrite Ei; exact Hv) E3). eapply clean_trans; [|apply Hends]. exists i0, i1. by split.
Qed.
End Read.

(** C15: Reading an inode ([ntfs_read_locked_inode]) gives everything back however it
    ends: whatever the mft records, the attribute list and the inode cache hold, when
    it returns no page of $MFT is pinned and no lock taken that was not before, the
    inode's own record is not mapped and has one reference, the other inodes are
    untouched, and extent inodes that were attached are not in use.  After an error the
    inode is bad, and the volume has its errors flag unless memory was short or the
    format is not supported. *)
Theorem read_inode_gives_back {KA : KernelAlloc} vol sb_bread block_size_bits upcase upcase_len read_mapping_page mft_size bits shift iget5 kmalloc_ok fuel v w i w' v' err :
  8 <= bits <= shift -> shift < 31 -> (forall n data err, read_mapping_page n = inr (data, err) -> zlen data = page_size shift /\ Forall byte_ok data) ->
  (forall n data, sb_bread n = Some data -> Forall byte_ok data) -> i_ino v <> FILE_MFT -> inodes w !! n_ptr v = Some i ->
  ntfs_read_locked_inode vol sb_bread block_size_bits upcase upcase_len read_mapping_page mft_size bits shift iget5 kmalloc_ok fuel v w = Ret (w', (v', err)) ->
  pinned w' = pinned w /\ (forall p j, p <> n_ptr v -> inodes w !! p = Some j -> inodes w' !! p = Some j) /\
  (exists j, inodes w' !! n_ptr v = Some j /\ idle j /\ count j = 1 /\ extent_lock j = false /\ mft_no j = mft_no i) /\
  (forall p j, inodes w !! p = None -> inodes w' !! p = Some j -> idle j /\ count j = 1) /\
  (err <> 0 -> i_bad v' = true /\ (quiet_errors err = false -> vol_errors w' = true)).
Proof.
  intros Hbits Hshift Hpages Hdev Hino Hi E. unfold ntfs_read_locked_inode in E. cbv zeta in E.
  rewrite (proj2 (Z.eqb_neq (i_ino (vi_set_mode 0 _)) FILE_MFT)) in E by exact Hino. cbn [negb] in E.
  set (w1 := upd w (n_ptr v) (init_inode (mft_no i))). rewrite (M_run _ _ w w1 tt) in E by (unfold init_store, modify; cbn; by rewrite Hi).
  assert (Hsc : session_caller w1 (n_ptr v) (init_inode (mft_no i))).
  { constructor; [done| |done]. exists []. split; [|by intros p j Hp%elem_of_nil]. constructor; try done; [apply upd_lookup|exists 0%nat; split_and!; [done|lia|done]|]. by intros p Hp%elem_of_nil. }
  apply (read_with_ends read_mapping_page mft_size bits shift Hbits Hshift Hpages w1 (n_ptr v) _ Hsc) in E; [|done|].
  2: { right. split; [done|]. apply tri_inode_body; try done. intros v0 Hv0. by apply attr_iget_keeps. }
  destruct E as [(i0 & i1 & Hi0 & Hsc1 & (L1 & L2 & L3 & L4 & L5 & L6) & Hpin & Hold & Hnew) Herr]. cbn in Hi0. rewrite lookup_insert_eq in Hi0. injection Hi0 as <-.
  split_and!; [done| | | |exact Herr].
  - intros p j Hp Hj. apply Hold; [done|]. cbn. by rewrite lookup_insert_ne.
  - exists i1. split_and!; [by eapply session_caller_lookup|apply (sc_idle _ _ _ Hsc1)|done..].
  - intros p j Hn Hj. apply (Hnew p j); [|done]. cbn. rewrite lookup_insert_ne; [done|]. congruence.
Qed.

(** The inode of the small file is read and its record is not mapped any more. *)
Lemma read_inode_gives_back_witness :
  match demo_read demo_iv demo_plain with
  | Ret (w', (v', err)) => err = 0 /\ pinned w' = [] /\ (forall p j, inodes demo_file_world !! p = None -> inodes w' !! p = Some j -> idle j /\ count j = 1)
  | _ => False
  end.
Proof.
  destruct (demo_read demo_iv demo_plain) as [[w' [v' err]]| | | |] eqn:E; try (vm_compute in E; discriminate E).
  destruct (@read_inode_gives_back demo_alloc demo_iv (fun _ => None) 9 [] 0 (demo_rec_page demo_plain) 4096 8 12 (fun _ => IgetNoMemory) true 5 demo_new demo_file_world demo_file_ino w' v' err) as (Hp & _ & _ & Hn & _);
    [lia|lia|apply demo_rec_pages; [reflexivity|apply (bool_decide_unpack _); vm_compute; exact I]|discriminate|discriminate|reflexivity|exact E|].
  split; [vm_compute in E; injection E; intros; subst; reflexivity|]. split; [exact Hp|exact Hn].
Defined.
