(* ===== verification/InodeDir.v ===== *)
(** * Reading inodes: directories

    What the code relies on in a directory inode holds for every inode that
    [ntfs_read_locked_inode] has read as a directory. *)

From Stdlib Require Import ZArith Lia Bool.
From stdpp Require Import base list numbers option gmap.
From S2P Require Import Prelude Endian Runlist RunlistMerge MappingPairs Unistr Collate Time Mst Boot BootTheorems Attrib MftMap AttrLookup Index Dir AttrList MapRunlist PageRead ReadPage RunlistTheorems MapRunlistTheorems Inode InodeSafe InodeDemo.

(** ** Powers of two *)

Lemma land_pred_pow2 b : 0 < b -> Z.land b (b - 1) = 0 -> b = 2 ^ Z.log2 b.
Proof.
  intros Hb H. pose proof (Z.log2_spec b Hb) as [Hl Hu]. destruct (decide (b = 2 ^ Z.log2 b)) as [|Hne]; [done|exfalso].
  assert (Hp : 0 <= Z.log2 b) by apply Z.log2_nonneg. pose proof (Z.pow_pos_nonneg 2 (Z.log2 b) ltac:(lia) Hp).
  assert (Hlog : Z.log2 (b - 1) = Z.log2 b) by (apply Z.log2_unique; [done|]; rewrite Z.pow_succ_r in Hu |- * by lia; lia).
  assert (Ht : Z.testbit (Z.land b (b - 1)) (Z.log2 b) = true).
  { rewrite Z.land_spec, Z.bit_log2 by lia. rewrite <- Hlog. rewrite Z.bit_log2 by lia. done. }
  by rewrite H, Z.testbit_0_l in Ht.
Qed.

(** ** Facts about the inode *)

(** When [m] returns from an inode with [P], the inode then satisfies [Q] of the
    result. *)
Definition vtri {A} (P : vinode -> Prop) (m : RI A) (Q : A -> vinode -> Prop) : Prop := forall s s' a, P (is_v s) -> m s = Ret (s', inr a) -> Q a (is_v s').

Lemma vtri_bind {A B} P Q R (m : RI A) (f : A -> RI B) : vtri P m Q -> (forall a, vtri (Q a) (f a) R) -> vtri P (m ≫= f) R.
Proof. intros Hm Hf s s' a HP [(err & _ & [=])|(s1 & b & E1 & E2)]%RI_bind_inv. exact (Hf _ _ _ _ (Hm _ _ _ HP E1) E2). Qed.

Lemma vtri_pre {A} (P P' : vinode -> Prop) (m : RI A) Q : (forall v, P v -> P' v) -> vtri P' m Q -> vtri P m Q.
Proof. intros H Hm s s' a HP E. exact (Hm _ _ _ (H _ HP) E). Qed.

Lemma vtri_refuse P b err : vtri P (refuse b err) (fun _ v => P v /\ b = false).
Proof. intros s s' a HP E. destruct b; [done|]. injection E as <- _. done. Qed.

Lemma vtri_setv (P : vinode -> Prop) f (Q : vinode -> Prop) : (forall v, P v -> Q (f v)) -> vtri P (setv f) (fun _ => Q).
Proof. intros H s s' a HP [= <- _]. by apply H. Qed.

Lemma vtri_getv {A} P (f : vinode -> A) : vtri P (getv f) (fun a v => P v /\ a = f v).
Proof. intros s s' a HP [= <- <-]. done. Qed.

Lemma vtri_fact {A} (P : vinode -> Prop) (F : Prop) (m : RI A) Q : (F -> vtri P m Q) -> vtri (fun v => P v /\ F) m Q.
Proof. intros H s s' a [HP HF] E. exact (H HF _ _ _ HP E). Qed.

Lemma vtri_seq {A B} P R (m : RI A) (f : A -> RI B) Q : vtri P m (fun _ => R) -> (forall a, vtri R (f a) Q) -> vtri P (m ≫= f) Q.
Proof. apply vtri_bind. Qed.

(** Steps that do not change the inode at all. *)
Definition still {A} (m : RI A) : Prop := forall s s' r, m s = Ret (s', r) -> is_v s' = is_v s.

Lemma vtri_still {A} P (m : RI A) : still m -> vtri P m (fun _ => P).
Proof. intros Hm s s' a HP E. by rewrite (Hm _ _ _ E). Qed.

Create HintDb still.

Lemma still_bind {A B} (m : RI A) (f : A -> RI B) : still m -> (forall a, still (f a)) -> still (m ≫= f).
Proof. intros Hm Hf s s' r [(err & E & ->)|(s1 & a & E1 & E2)]%RI_bind_inv; [exact (Hm _ _ _ E)|]. rewrite (Hf _ _ _ _ E2). exact (Hm _ _ _ E1). Qed.
Lemma still_ret {A} (a : A) : still (mret a).
Proof. by intros s s' r [= <- <-]. Qed.
Lemma still_fail {A} err : still (fail (A := A) err).
Proof. by intros s s' r [= <- <-]. Qed.
Lemma still_refuse b err : still (refuse b err).
Proof. destruct b; [apply still_fail|apply still_ret]. Qed.
Lemma still_rlift {A} (o : outcome A) : still (rlift o).
Proof. intros s s' r H. unfold rlift in H. destruct o; try done. by injection H as <- <-. Qed.
Lemma still_on_world {A} (g : M A) : still (on_world g).
Proof. intros s s' r H. unfold on_world in H. destruct (g (is_w s)) as [[w a]| | | |]; try done. by injection H as <- <-. Qed.
Lemma still_getv {A} (f : vinode -> A) : still (getv f).
Proof. by intros s s' r [= <- <-]. Qed.
Lemma still_field {A} (rdr : list Z -> Z -> outcome A) off : still (field rdr off).
Proof. intros s s' r H. unfold field in H. destruct (is_ctx s); [|done]. destruct (rdr _ _); try done. by injection H as <- <-. Qed.
Lemma still_mrec_field {A} (rdr : list Z -> Z -> outcome A) off : still (mrec_field rdr off).
Proof. intros s s' r H. unfold mrec_field in H. destruct (is_ctx s); [|done]. destruct (rdr _ _); try done. by injection H as <- <-. Qed.
Lemma still_m_field {A} (rdr : list Z -> Z -> outcome A) off : still (m_field rdr off).
Proof. intros s s' r H. unfold m_field in H. destruct (is_m s); [|done]. destruct (rdr _ _); try done. by injection H as <- <-. Qed.
Lemma still_attr_ofs : still attr_ofs.
Proof. intros s s' r H. unfold attr_ofs in H. destruct (is_ctx s); [|done]. by injection H as <- <-. Qed.
Lemma still_reinit : still reinit.
Proof. intros s s' r H. unfold reinit in H. destruct (is_ctx s); [|done]. destruct (ntfs_attr_reinit_search_ctx _ _) as [[w c]| | | |]; try done. by injection H as <- <-. Qed.
Lemma still_release : still release_record.
Proof.
  intros s s' r H. unfold release_record in H. destruct (is_ctx s); [|done]. destruct (is_m s); [|done]. destruct (ntfs_attr_put_search_ctx _ _) as [[w c]| | | |]; try done. rewrite bind_Ret in H.
  destruct (unmap_mft_record _ _) as [[w' c']| | | |]; try done. by injection H as <- <-.
Qed.
Lemma still_lookup up ul rp ms b sh t n l : still (lookup up ul rp ms b sh t n l).
Proof. intros s s' r H. unfold lookup in H. destruct (is_ctx s); [|done]. destruct (ntfs_attr_lookup _ _ _ _ _ _ _ _ _) as [[w [c e]]| | | |]; try done. by injection H as <- <-. Qed.

#[export] Hint Resolve still_ret still_fail still_refuse still_rlift still_on_world still_getv still_field still_mrec_field still_m_field still_attr_ofs still_reinit still_release still_lookup : still.

Ltac still_step :=
  lazymatch goal with
  | |- still (mbind _ _) => apply still_bind; [|intros ?]
  | |- still (if ?b then _ else _) => destruct b
  | |- still (match ?x with _ => _ end) => destruct x
  | |- still (let _ := _ in _) => cbv zeta
  | |- _ => solve [auto with still]
  end.
Ltac still := repeat still_step.

Lemma still_check_file_name : still check_file_name.
Proof. unfold check_file_name. still. Qed.
Lemma still_name_before off : still (name_before off).
Proof. unfold name_before. still. Qed.
Lemma still_index_root_value vol : still (index_root_value vol).
Proof. unfold index_root_value. still. Qed.
Lemma still_check_bitmap g : still (check_bitmap g).
Proof. unfold check_bitmap. still. Qed.
Lemma still_attr_size : still ntfs_attr_size.
Proof. unfold ntfs_attr_size. still. Qed.
Lemma still_set_attr_list al : still (set_attr_list al).
Proof. unfold set_attr_list. still. Qed.
#[export] Hint Resolve still_check_file_name still_name_before still_index_root_value still_check_bitmap still_attr_size still_set_attr_list : still.
Lemma still_file_names up ul rp ms b sh fuel : forall nr, still (file_names up ul rp ms b sh fuel nr).
Proof. induction fuel as [|fuel IH]; intros nr; cbn [file_names]; [done|]. still. Qed.
#[export] Hint Resolve still_file_names : still.
Lemma still_extended up ul rp ms b sh fuel : still (ntfs_is_extended_system_file up ul rp ms b sh fuel).
Proof. unfold ntfs_is_extended_system_file. still. Qed.
#[export] Hint Resolve still_extended : still.

(** A predicate that all steps keep. *)
Ltac keeps :=
  repeat lazymatch goal with
  | |- vtri ?P (mbind _ _) (fun _ => ?P) => apply (vtri_seq P P); [|intros ?]
  | |- vtri _ (if ?b then _ else _) _ => destruct b
  | |- vtri _ (match ?x with _ => _ end) _ => destruct x
  | |- vtri _ (let _ := _ in _) _ => cbv zeta
  | |- vtri _ (set_flag _) _ => apply vtri_setv; let v := fresh in intros v ?; assumption || (cbn; auto; done)
  | |- vtri _ (setv _) _ => apply vtri_setv; let v := fresh in intros v ?; assumption || (cbn; auto; done)
  | |- vtri _ _ _ => apply vtri_still; solve [still]
  end.

(** The error exit never returns 0. *)
Lemma unm_err_out_fails quiet err s w v : inode_err_out quiet err s <> Ret (w, (v, 0)).
Proof.
  unfold inode_err_out. cbv zeta. intros E. apply bind_Ret_inv in E as ([w1 u1] & _ & E). apply bind_Ret_inv in E as ([w2 u2] & _ & E). apply bind_Ret_inv in E as ([w3 u3] & _ & [= _ _ E]).
  revert E. unfold EIO. destruct (Z.eqb_spec err 0); lia.
Qed.

Section Dir.
Context {KA : KernelAlloc} (vol : inode_volume) (sb_bread : Z -> option (list Z)) (block_size_bits : Z).
Context (upcase : list Z) (upcase_len : Z).
Context (read_mapping_page : Z -> Z + (list Z * bool)) (mft_size bits shift : Z).
Hypothesis Hshift : 0 <= shift < 31.

(** The index of an inode: blocks of a power of two of bytes that fit in a page, and
    the unit of their VCNs. *)
Definition index_ok (rule : Z) (v : vinode) : Prop :=
  exists k, 9 <= k <= shift /\ n_index v =
    (if vol_cluster_size (iv_vol vol) <=? 2 ^ k then mk_ii (2 ^ k) (vol_cluster_size (iv_vol vol)) rule k (vol_cluster_size_bits (iv_vol vol))
     else mk_ii (2 ^ k) (iv_sector_size vol) rule k (iv_sector_size_bits vol)).

Definition same_mode (v v' : vinode) : Prop := i_mode v' = i_mode v /\ nf_non_resident (n_flags v') = nf_non_resident (n_flags v).

(** [index_sizes] accepts exactly the powers of two that fit. *)
Lemma vtri_index_sizes (P : vinode -> Prop) rule b : (forall v i, P v -> P (vi_set_index i v)) -> Z.land b (u32 (b - 1)) = 0 ->
  vtri P (index_sizes vol shift rule b) (fun _ v => P v /\ index_ok rule v).
Proof using Hshift.
  intros HP Hp. unfold index_sizes. do 2 (eapply vtri_bind; [apply vtri_refuse|intros ?]). cbv zeta. apply vtri_setv.
  intros v ((Hv & Hmax) & Hmin). split; [by apply HP|]. unfold PAGE_SIZE, Mst.NTFS_BLOCK_SIZE in *. rewrite Z.gtb_ltb in Hmax. apply Z.ltb_ge in Hmax, Hmin.
  assert (2 ^ shift <= 0x40000000) by (change 0x40000000 with (2 ^ 30); apply Z.pow_le_mono_r; lia). rewrite u32_id in Hp by lia. 
  assert (exists k, b = 2 ^ k /\ 9 <= k <= shift) as (k & -> & Hk).
  { exists (Z.log2 b). split; [by apply land_pred_pow2; [lia|]|]. split; [apply (Z.log2_le_mono 512 b) in Hmin; exact Hmin|].
    pose proof (Z.log2_le_mono b (2 ^ shift) Hmax) as Hl. by rewrite Z.log2_pow2 in Hl by lia. }
  exists k. split; [done|]. cbn [n_index vi_set_index]. rewrite ffs_pow2, Z.add_simpl_r by lia. done.
Qed.

(** What [ntfs_read_locked_inode] makes of the index root of a directory. *)
Definition root_ok (v : vinode) : Prop :=
  n_type v = AT_INDEX_ALLOCATION /\ n_name v = Some I30 /\ n_name_len v = 4 /\ nf_mst_protected (n_flags v) = true /\ index_ok COLLATION_FILE_NAME v.

Lemma vtri_dir_root mode : vtri (fun v => i_mode v = mode /\ nf_non_resident (n_flags v) = false) (read_dir_root vol upcase upcase_len read_mapping_page mft_size bits shift)
  (fun _ v => i_mode v = mode /\ nf_non_resident (n_flags v) = false /\ root_ok v).
Proof using Hshift.
  unfold read_dir_root. set (P := fun v => i_mode v = mode /\ nf_non_resident (n_flags v) = false).
  do 7 (apply (vtri_seq _ P); [apply vtri_still; still|intros ?]).
  do 3 (apply (vtri_seq _ P); [keeps|intros ?]).
  do 4 (apply (vtri_seq _ P); [apply vtri_still; still|intros ?]).
  eapply vtri_bind; [apply vtri_refuse|intros ?]. apply vtri_fact. intros Hr%negb_false_iff%Z.eqb_eq. rewrite Hr.
  apply (vtri_seq _ P); [apply vtri_still; still|intros b]. apply (vtri_seq _ P); [apply vtri_setv; intros v Hv; exact Hv|intros ?].
  eapply vtri_bind; [apply vtri_refuse|intros ?]. apply vtri_fact. intros Hb%negb_false_iff%Z.eqb_eq.
  eapply vtri_bind; [apply vtri_index_sizes; [by intros v i|exact Hb]|intros ?].
  apply (vtri_seq _ (fun v => (P v /\ index_ok COLLATION_FILE_NAME v) /\ nf_mst_protected (n_flags v) = true)); [apply vtri_setv; intros v Hv; split; [exact Hv|done]|intros ?].
  apply (vtri_seq _ (fun v => i_mode v = mode /\ nf_non_resident (n_flags v) = false /\ root_ok v)); [|intros ?; apply vtri_still; still].
  apply vtri_setv. intros v (((Hm & Hn) & Hi) & Hmst). split_and!; try done.
Qed.

(** A directory inode that has been read. *)
Definition dir_ok (v : vinode) : Prop :=
  root_ok v /\ i_ops v = DirOps /\ i_aops v = NtfsMstAops /\ (nf_non_resident (n_flags v) = false -> n_sizes v = mk_sizes 0 0 0) /\
  i_blocks v = Z.shiftr (allocated_size (n_sizes v)) 9.

Lemma vtri_dir mode g : vtri (fun v => i_mode v = mode /\ nf_non_resident (n_flags v) = false) (read_dir vol upcase upcase_len read_mapping_page mft_size bits shift g)
  (fun _ v => i_mode v = mode /\ root_ok v /\ i_ops v = DirOps /\ (nf_non_resident (n_flags v) = false -> n_sizes v = mk_sizes 0 0 0)).
Proof using Hshift.
  unfold read_dir. eapply vtri_bind; [apply vtri_dir_root|intros fl].
  set (R := fun v => i_mode v = mode /\ root_ok v /\ (nf_non_resident (n_flags v) = false -> n_sizes v = mk_sizes 0 0 0)).
  apply (vtri_seq _ R); [|intros ?; apply vtri_setv; intros v (H1 & H2 & H3); by split_and!].
  destruct (negb (has fl LARGE_INDEX)).
  - apply (vtri_seq _ R); [apply vtri_setv; intros v (H1 & H2 & H3); by split_and!|intros ?; keeps].
  - apply (vtri_seq _ (fun v => i_mode v = mode /\ nf_non_resident (n_flags v) = true /\ root_ok v)); [apply vtri_setv; intros v (H1 & H2 & H3); by split_and!|intros ?].
    eapply (vtri_pre _ (fun v => i_mode v = mode /\ nf_non_resident (n_flags v) = true /\ root_ok v)); [done|].
    apply (vtri_seq _ (fun v => i_mode v = mode /\ nf_non_resident (n_flags v) = true /\ root_ok v)); [unfold read_index_allocation; keeps|intros ?].
    apply (vtri_seq _ R); [|intros ?; keeps]. intros s s' [] (H1 & H2 & H3) E. apply still_release in E. rewrite E. split_and!; [done|done|]. congruence.
Qed.

Lemma vtri_inode_body fuel g : vtri (fun v => nf_non_resident (n_flags v) = false)
  (read_inode_body vol sb_bread block_size_bits upcase upcase_len read_mapping_page mft_size bits shift fuel g) (fun _ v => S_ISDIR (i_mode v) = true -> dir_ok v).
Proof using Hshift.
  unfold read_inode_body. set (P := fun v => nf_non_resident (n_flags v) = false).
  apply (vtri_seq _ P); [unfold read_header; keeps|intros ?]. apply (vtri_seq _ P); [unfold read_times; keeps|intros ?].
  apply (vtri_seq _ P); [unfold read_attr_list, load_non_resident_list; keeps|intros ?]. eapply vtri_bind; [apply vtri_getv|intros mode].
  destruct (S_ISDIR mode) eqn:Ed.
  - eapply vtri_bind; [eapply vtri_pre; [|apply (vtri_dir mode)]; intros v [H ->]; done|intros ?].
    intros s s' [] (Hm & (Ht & Hn & Hl & Hmst & Hi) & Ho & Hz) [= <-] _. cbn [is_v]. rewrite Hmst, Hm.
    unfold S_ISREG. unfold S_ISDIR in Ed. apply Z.eqb_eq in Ed. rewrite Ed, andb_false_r. by split_and!.
  - apply (vtri_seq _ (fun v => S_ISDIR (i_mode v) = false)); [|intros ?; unfold finish_inode; intros s s' [] Hm [= <-]; cbn; congruence].
    apply (vtri_pre _ (fun v => S_ISDIR (i_mode v) = false)); [intros v [_ Hm]; by rewrite <- Hm|].
    unfold read_file, read_data_flags, read_compression, read_non_resident_sizes, read_resident_sizes. keeps.
Qed.
End Dir.

(** C17: Every inode that [ntfs_read_locked_inode] has read as a directory is one that the
    directory code can work with, whatever the mft record holds: the attribute is the
    index allocation of $I30, sorted by file names and protected by fixups; index blocks
    are a power of two of bytes, not smaller than a block of 512 bytes and not larger
    than a page; VCNs in the index count clusters or, when those are larger than a
    block, sectors; an index without allocation has size zero. *)
Theorem read_inode_dir_ok {KA : KernelAlloc} vol sb_bread block_size_bits upcase upcase_len read_mapping_page mft_size bits shift iget5 kmalloc_ok fuel v w w' v' :
  0 <= shift < 31 -> nf_non_resident (n_flags v) = false ->
  ntfs_read_locked_inode vol sb_bread block_size_bits upcase upcase_len read_mapping_page mft_size bits shift iget5 kmalloc_ok fuel v w = Ret (w', (v', 0)) ->
  S_ISDIR (i_mode v') = true -> dir_ok vol shift v'.
Proof.
  intros Hshift Hn E. unfold ntfs_read_locked_inode in E. cbv zeta in E. apply bind_Ret_inv in E as ([w1 []] & _ & E). cbn beta iota in E.
  set (v1 := if negb _ then ntfs_init_big_inode _ else _) in E. assert (Hn1 : nf_non_resident (n_flags v1) = false) by (unfold v1; by destruct (negb _)).
  unfold read_with in E. apply bind_Ret_inv in E as ([w2 [e|m]] & _ & E); [by apply unm_err_out_fails in E|]. apply bind_Ret_inv in E as ([w3 [c|]] & _ & E); [|by apply unm_err_out_fails in E].
  apply bind_Ret_inv in E as ([s [e|[]]] & Es & E); [by apply unm_err_out_fails in E|]. injection E as _ <-.
  by apply (vtri_inode_body vol sb_bread block_size_bits upcase upcase_len read_mapping_page mft_size bits shift Hshift fuel _ (mk_is w3 v1 (Some c) (Some m)) _ _ Hn1 Es).
Qed.

(** The small directory is read: its index blocks are pages of 4096 bytes. *)
Lemma read_inode_dir_ok_witness :
  match demo_read demo_iv demo_small_dir with
  | Ret (_, (v', err)) => err = 0 /\ dir_ok demo_iv 12 v' /\ ii_block_size (n_index v') = 4096
  | _ => False
  end.
Proof.
  destruct (demo_read demo_iv demo_small_dir) as [[w' [v' err]]| | | |] eqn:E; try (vm_compute in E; discriminate E).
  assert (err = 0) as -> by (vm_compute in E; injection E; intros; subst; reflexivity). split; [reflexivity|].
  split; [|vm_compute in E; injection E; intros; subst; reflexivity].
  apply (@read_inode_dir_ok demo_alloc demo_iv (fun _ => None) 9 [] 0 (demo_rec_page demo_small_dir) 4096 8 12 (fun _ => IgetNoMemory) true 5 demo_new demo_file_world w' v');
    [lia|reflexivity|exact E|vm_compute in E; injection E; intros; subst; reflexivity].
Defined.
