(* ===== verification/InodeFile.v ===== *)
(** * Reading inodes: files

    What [ntfs_read_locked_inode] makes of the record of a plain file: every field of
    the inode in terms of the record. *)

From Stdlib Require Import ZArith Lia Bool.
From stdpp Require Import base list numbers option gmap.
From S2P Require Import Prelude Endian Runlist RunlistMerge RunlistTheorems MappingPairs MappingPairsTheorems Unistr UnistrTheorems Collate Time Boot Attrib AttribSpec AttribTheorems MftMap MftMapSpec AttrLookup AttrLookupProof AttrLookupInv AttrLookupTheorems AttrSession Index Dir AttrList MapRunlist MapRunlistTheorems PageRead ReadPage Inode InodeSafe InodeDemo InodeTheorems InodeDir.

Lemma RI_run {A B} (m : RI A) (f : A -> RI B) s s' a : m s = Ret (s', inr a) -> (m ≫= f) s = f a s'.
Proof. intros E. unfold mbind, RI_bind. by rewrite E. Qed.

(** ** The record of a plain file *)

(** The sizes that the unnamed data attribute at [d] gives. *)
Definition data_sizes (m : list Z) (d : Z) (z : sizes) (non_resident : bool) : Prop :=
  if non_resident then
    exists nr, rd_u8 m (d + A_non_resident) = Ret nr /\ nr <> 0 /\ rd_sle64 m (d + ATTR_lowest_vcn) = Ret 0 /\ rd_sle64 m (d + ATTR_data_size) = Ret (PageRead.i_size z) /\
      rd_sle64 m (d + ATTR_initialized_size) = Ret (initialized_size z) /\ rd_sle64 m (d + ATTR_allocated_size) = Ret (allocated_size z)
  else
    exists len vo vl, rd_u8 m (d + A_non_resident) = Ret 0 /\ rd_le32 m (d + A_length) = Ret len /\ rd_le16 m (d + A_value_offset) = Ret vo /\ rd_le32 m (d + A_value_length) = Ret vl /\
      0 <= vo /\ 0 <= vl <= len - vo /\ len < 0x100000000 /\ z = mk_sizes (len - vo) vl vl.

(** What the record [m] of a file says, with $STANDARD_INFORMATION at [si] and the
    unnamed $DATA at [d], neither compressed nor sparse nor encrypted. *)
Record plain_file (m : list Z) (si d seq links : Z) (tm : times) (z : sizes) (non_resident : bool) : Prop := {
  pf_flags : exists fl, rd_le16 m MFT_flags = Ret fl /\ has fl MFT_RECORD_IN_USE = true /\ has fl MFT_RECORD_IS_DIRECTORY = false;
  pf_base : rd_le64 m MFT_base_mft_record = Ret 0;
  pf_seq : rd_le16 m MFT_sequence_number = Ret seq;
  pf_links : rd_le16 m MFT_link_count = Ret links;
  pf_times : exists so t1 t2 t3, rd_le16 m (si + A_value_offset) = Ret so /\ rd_le64 m (si + (so + SI_last_data_change_time)) = Ret t1 /\
    rd_le64 m (si + (so + SI_last_mft_change_time)) = Ret t2 /\ rd_le64 m (si + (so + SI_last_access_time)) = Ret t3 /\ tm = mk_times (ntfs2utc t1) (ntfs2utc t2) (ntfs2utc t3);
  pf_dflags : rd_le16 m (d + A_flags) = Ret 0;
  pf_data : data_sizes m d z non_resident;
}.

(** The mode of a file on the volume. *)
Definition file_mode (vol : inode_volume) : Z := Z.land (Z.lor (if iv_rdonly vol then 0x16d else 0x1ff) S_IFREG) (Z.lnot (iv_fmask vol)).

Lemma file_mode_not_dir vol : S_ISDIR (file_mode vol) = false.
Proof.
  unfold S_ISDIR, file_mode. apply Z.eqb_neq. intros E. apply (f_equal (fun x => Z.testbit x 14)) in E. rewrite !Z.land_spec, Z.lor_spec in E.
  change (Z.testbit S_IFDIR 14) with true in E. change (Z.testbit S_IFREG 14) with false in E. rewrite orb_false_r in E. by destruct (iv_rdonly vol).
Qed.

(** Runs a step that reads a field, given what it reads. *)
Ltac reads H := erewrite RI_run; [|solve [unfold field, mrec_field, m_field; cbn [is_ctx is_m]; cbn [mrec attr]; rewrite H; reflexivity]].
Ltac runs := erewrite RI_run by reflexivity.

(** Inodes are equal when their fields are. *)
Lemma vinode_eq a b : i_ino a = i_ino b -> i_uid a = i_uid b -> i_gid a = i_gid b -> i_mode a = i_mode b -> i_nlink a = i_nlink b -> i_generation a = i_generation b -> i_times a = i_times b -> i_blocks a = i_blocks b -> i_bad a = i_bad b -> i_ops a = i_ops b -> i_aops a = i_aops b -> n_ptr a = n_ptr b -> n_type a = n_type b -> n_name a = n_name b -> n_name_len a = n_name_len b -> n_sizes a = n_sizes b -> n_flags a = n_flags b -> n_index a = n_index b -> n_compressed a = n_compressed b -> n_base a = n_base b -> a = b.
Proof. destruct a, b. cbn. intros. by subst. Qed.

(** What [finish_inode] makes of an inode. *)
Definition finished (compressed : vinode -> bool) (v : vinode) : vinode :=
  vi_set_blocks (Z.shiftr (if (nf_compressed (n_flags v) || nf_sparse (n_flags v)) && compressed v then ic_size (n_compressed v) else allocated_size (n_sizes v)) 9)
    (vi_set_aops (if nf_mst_protected (n_flags v) then NtfsMstAops else NtfsAops) v).

Lemma finish_run c w v x m : finish_inode c (mk_is w v x m) = Ret (mk_is w (finished c v) x m, inr tt).
Proof. reflexivity. Qed.

Section File.
Context {KA : KernelAlloc} (vol : inode_volume) (sb_bread : Z -> option (list Z)) (block_size_bits : Z).
Context (upcase : list Z) (upcase_len : Z).
Context (read_mapping_page : Z -> Z + (list Z * bool)) (mft_size bits shift : Z).
Hypothesis Htab : table_ok upcase upcase_len.
Context (m : list Z) (ba off si d seq links : Z) (tm : times) (z : sizes) (nonres : bool) (l : list AttribSpec.attr).
Hypothesis Hba : rd_le32 m MFT_bytes_allocated = Ret ba.
Hypothesis Hoff : first_attr m = Ret off.
Hypothesis Hat : attrs_at m ba off l.
Hypothesis Hsorted : attrs_sorted upcase upcase_len l.
Hypothesis Hsi : first_at l AT_STANDARD_INFORMATION off si.
Hypothesis Hd : first_at l AT_DATA off d.
Hypothesis Hnolist : forall a, a ∈ l -> at_type a <> AT_ATTRIBUTE_LIST.
Hypothesis Hfile : plain_file m si d seq links tm z nonres.
Context (base : ptr).

Local Abbreviation cx a first := (mk_ctx m a first base None None None None).
Local Abbreviation lookup := (lookup upcase upcase_len read_mapping_page mft_size bits shift).

(** A lookup in a record without attribute list. *)
Lemma lookup_run t w i v : 0 <= t -> t <> AT_END -> inodes w !! base = Some i -> attr_list i = None -> exists o err,
  lookup t None 0 (mk_is w v (Some (cx off true)) (Some m)) = Ret (mk_is w v (Some (cx o false)) (Some m), inr err) /\
  (forall o', first_at l t off o' -> o = o' /\ err = 0) /\ ((forall a, a ∈ l -> at_type a <> t) -> err = - ENOENT).
Proof using Htab Hba Hat Hsorted.
  intros Ht Hte Hi Hal. destruct (base_lookup_run upcase upcase_len Htab m ba off l Hba Hat Hsorted read_mapping_page mft_size bits shift t w base i Ht Hte Hi Hal) as (o & err & E & H).
  exists o, err. split; [|exact H]. unfold Inode.lookup. cbn [is_ctx is_w is_v is_m]. by rewrite E.
Qed.

Lemma reinit_run w v a f : reinit (mk_is w v (Some (cx a f)) (Some m)) = Ret (mk_is w v (Some (cx off true)) (Some m), inr tt).
Proof using Hoff. unfold reinit. cbn [is_ctx is_w is_v is_m]. unfold ntfs_attr_reinit_search_ctx. cbn [base_ntfs_ino mrec]. rewrite (M_run _ _ w w off) by (by apply lift_eq). done. Qed.

Lemma header_run w i v : n_ptr v = base -> inodes w !! base = Some i ->
  read_header vol (mk_is w v (Some (cx off true)) (Some m)) =
    Ret (mk_is (upd w base (set_seq_no seq i)) (set_nlink links (vi_set_mode (file_mode vol) (vi_set_generation seq v))) (Some (cx off true)) (Some m), inr tt).
Proof using Hfile.
  intros Hp Hi. destruct Hfile as [(fl & Hfl & Hu & Hnd) Hb Hs Hlk _ _ _]. unfold read_header.
  reads Hfl. rewrite Hu. cbn [negb]. runs. reads Hb. runs. reads Hs. runs. cbn [is_v]. rewrite Hp.
  rewrite (RI_run _ _ _ (mk_is (upd w base (set_seq_no seq i)) v (Some (cx off true)) (Some m)) tt) by (unfold on_world, modify; cbn; by rewrite Hi).
  runs. reads Hlk. rewrite Hnd. runs. cbv zeta. unfold file_mode. by destruct (iv_rdonly vol).
Qed.

Lemma times_run w i v : inodes w !! base = Some i -> attr_list i = None ->
  read_times upcase upcase_len read_mapping_page mft_size bits shift (mk_is w v (Some (cx off true)) (Some m)) = Ret (mk_is w (vi_set_times tm v) (Some (cx si false)) (Some m), inr tt).
Proof using Htab Hba Hat Hsorted Hsi Hfile.
  intros Hi Hal. destruct (lookup_run AT_STANDARD_INFORMATION w i v ltac:(done) ltac:(done) Hi Hal) as (o & err & E & H & _). destruct (H si Hsi) as [-> ->].
  destruct (pf_times _ _ _ _ _ _ _ _ Hfile) as (so & t1 & t2 & t3 & Hso & H1 & H2 & H3 & ->).
  unfold read_times. rewrite (RI_run _ _ _ _ _ E). runs. reads Hso. reads H1. reads H2. reads H3. done.
Qed.

Lemma attr_list_run w i v a f : inodes w !! base = Some i -> attr_list i = None ->
  exists o, read_attr_list vol sb_bread block_size_bits upcase upcase_len read_mapping_page mft_size bits shift (mk_is w v (Some (cx a f)) (Some m)) = Ret (mk_is w v (Some (cx o false)) (Some m), inr tt).
Proof using Htab Hba Hat Hsorted Hoff Hnolist.
  intros Hi Hal. destruct (lookup_run AT_ATTRIBUTE_LIST w i v ltac:(done) ltac:(done) Hi Hal) as (o & err & E & _ & H). rewrite (H Hnolist) in E. exists o.
  unfold read_attr_list. rewrite (RI_run _ _ _ _ _ (reinit_run w v a f)), (RI_run _ _ _ _ _ E). done.
Qed.

(** The inode with the data attribute. *)
Definition with_data (v : vinode) : vinode :=
  vi_set_sizes z ((if nonres then vi_set_flags NInoSetNonResident else id) (vi_set_attr AT_DATA None 0 v)).

Lemma data_run w v : n_flags v = no_flags ->
  (read_data_flags vol;; non_resident ← field rd_u8 A_non_resident;
   if negb (non_resident =? 0) then set_flag NInoSetNonResident;; read_compression vol;; read_non_resident_sizes else read_resident_sizes)
    (mk_is w (vi_set_attr AT_DATA None 0 v) (Some (cx d false)) (Some m)) = Ret (mk_is w (with_data v) (Some (cx d false)) (Some m), inr tt).
Proof using Hfile.
  intros Hf. destruct Hfile as [_ _ _ _ _ Hdf Hdata]. unfold data_sizes in Hdata. unfold with_data.
  rewrite (RI_run _ _ _ (mk_is w (vi_set_attr AT_DATA None 0 v) (Some (cx d false)) (Some m)) tt) by (unfold read_data_flags; reads Hdf; reflexivity).
  destruct nonres.
  - destruct Hdata as (nr & Hnr & Hnz & Hlow & Hds & Hin & Hal). reads Hnr. rewrite (proj2 (Z.eqb_neq nr 0)) by done. cbn [negb]. runs.
    rewrite (RI_run _ _ _ (mk_is w (vi_set_flags NInoSetNonResident (vi_set_attr AT_DATA None 0 v)) (Some (cx d false)) (Some m)) tt).
    2: { unfold read_compression. runs. cbn [is_v n_flags vi_set_flags vi_set_attr]. by rewrite Hf. }
    unfold read_non_resident_sizes. reads Hlow. runs. reads Hds. reads Hin. reads Hal. by destruct z.
  - destruct Hdata as (len & vo & vl & Hnr & Hlen & Hvo & Hvl & H0 & Hfit & Hmax & ->). reads Hnr. change (negb (0 =? 0)) with false. cbv iota.
    unfold read_resident_sizes. reads Hvl. reads Hlen. reads Hvo. cbv zeta. rewrite u32_id by lia. runs. unfold refuse. rewrite Z.gtb_ltb, (proj2 (Z.ltb_ge _ _)) by lia. done.
Qed.

Lemma file_run fuel w i v a f : n_ptr v = base -> n_flags v = no_flags -> inodes w !! base = Some (mapped bits shift i) -> idle i -> attr_list i = None ->
  read_file vol upcase upcase_len read_mapping_page mft_size bits shift fuel (mk_is w v (Some (cx a f)) (Some m)) =
    Ret (mk_is (with_pinned (upd w base i) (unpin (rec_page bits shift (mft_no i)) (pinned w))) (vi_set_ops FileOps (with_data v)) None None, inr tt).
Proof using Htab Hba Hat Hsorted Hoff Hd Hfile.
  intros Hp Hf Hi Hid Hal. destruct (lookup_run AT_DATA w (mapped bits shift i) (vi_set_attr AT_DATA None 0 v) ltac:(done) ltac:(done) Hi Hal) as (o & err & E & H & _). destruct (H d Hd) as [-> ->].
  unfold read_file. rewrite (RI_run _ _ _ _ _ (reinit_run w v a f)). runs. cbn [is_w is_v is_ctx is_m]. rewrite (RI_run _ _ _ _ _ E). change (negb (0 =? 0)) with false. cbv iota.
  rewrite (RI_run _ _ _ _ _ (data_run w v Hf)).
  rewrite (RI_run _ _ _ (mk_is (with_pinned (upd w base i) (unpin (rec_page bits shift (mft_no i)) (pinned w))) (with_data v) None None) tt); [done|].
  unfold release_record. cbn [is_ctx is_m is_w is_v]. assert (n_ptr (with_data v) = base) as -> by (unfold with_data; by destruct nonres).
  unfold ntfs_attr_put_search_ctx. cbn [base_ntfs_ino]. change ((mret tt : M unit) w) with (Ret (w, tt)). rewrite bind_Ret, (unmap_record_spec bits shift w base i Hi Hid), bind_Ret. done.
Qed.

(** The inode of the file, from the one before the record is read. *)
Definition file_vi (v : vinode) : vinode :=
  vi_set_ops FileOps (with_data (vi_set_times tm (set_nlink links (vi_set_mode (file_mode vol) (vi_set_generation seq v))))).

Lemma body_run fuel g w i v : n_ptr v = base -> n_flags v = no_flags -> inodes w !! base = Some (mapped bits shift i) -> idle i -> attr_list i = None ->
  let i' := set_seq_no seq i in let w' := upd w base (set_seq_no seq (mapped bits shift i)) in
  read_inode_body vol sb_bread block_size_bits upcase upcase_len read_mapping_page mft_size bits shift fuel g (mk_is w v (Some (cx off true)) (Some m)) =
    Ret (mk_is (with_pinned (upd w' base i') (unpin (rec_page bits shift (mft_no i)) (pinned w))) (finished (fun v => S_ISREG (i_mode v)) (file_vi v)) None None, inr tt).
Proof using Htab Hba Hat Hsorted Hoff Hsi Hd Hnolist Hfile.
  intros Hp Hf Hi Hid Hal i' w'. unfold read_inode_body. assert (Hi' : inodes w' !! base = Some (mapped bits shift i')) by apply upd_lookup.
  rewrite (RI_run _ _ _ _ _ (header_run w _ v Hp Hi)), (RI_run _ _ _ _ _ (times_run w' _ _ Hi' Hal)).
  set (v' := vi_set_times tm _). destruct (attr_list_run w' _ v' si false Hi' Hal) as (o & E). rewrite (RI_run _ _ _ _ _ E). runs. cbn [is_v].
  replace (S_ISDIR (i_mode v')) with false by (symmetry; apply file_mode_not_dir).
  rewrite (RI_run _ _ _ _ _ (file_run fuel w' i' v' o false Hp Hf Hi' Hid Hal)). apply finish_run.
Qed.
End File.

(** Its fields. *)
Lemma file_vi_fields vol seq links tm z nonres ino u g md nl gen t b bad ops aops p ty n nlen zz :
  finished (fun v => S_ISREG (i_mode v)) (file_vi vol seq links tm z nonres (mk_vi ino u g md nl gen t b bad ops aops p ty n nlen zz no_flags (mk_ii 0 0 0 0 0) (mk_ic 0 0 0 0) None)) =
    mk_vi ino u g (file_mode vol) links seq tm (Z.shiftr (allocated_size z) 9) bad FileOps NtfsAops p AT_DATA None 0 z (mk_nf false false false false nonres false false false) (mk_ii 0 0 0 0 0) (mk_ic 0 0 0 0) None.
Proof. apply vinode_eq; destruct nonres; reflexivity. Qed.

(** C16: Reading the inode of a plain file ([ntfs_read_locked_inode]), resident or not:
    from a record whose attributes are in order, the inode gets its link count and
    sequence number, the permissions of the mount options and of a read-only mount, the
    times of $STANDARD_INFORMATION, and the type, sizes and number of blocks of the
    unnamed data attribute, wherever these attributes are in the record; 0 is returned,
    and but for the sequence number the world is as it was. *)
Theorem read_inode_file {KA : KernelAlloc} vol sb_bread block_size_bits upcase upcase_len read_mapping_page mft_size bits shift iget5 kmalloc_ok fuel v w i w2 m ba off si d seq links tm z nonres l :
  8 <= bits <= shift -> shift < 31 -> (forall n data err, read_mapping_page n = inr (data, err) -> zlen data = page_size shift /\ Forall byte_ok data) ->
  i_ino v <> FILE_MFT -> n_flags v = no_flags -> inodes w !! n_ptr v = Some i -> allocs w = [] ->
  map_mft_record read_mapping_page mft_size bits shift (n_ptr v) (upd w (n_ptr v) (init_inode (mft_no i))) = Ret (w2, inr m) ->
  table_ok upcase upcase_len -> rd_le32 m MFT_bytes_allocated = Ret ba -> first_attr m = Ret off -> attrs_at m ba off l -> attrs_sorted upcase upcase_len l ->
  first_at l AT_STANDARD_INFORMATION off si -> first_at l AT_DATA off d -> (forall a, a ∈ l -> at_type a <> AT_ATTRIBUTE_LIST) -> plain_file m si d seq links tm z nonres ->
  exists w', ntfs_read_locked_inode vol sb_bread block_size_bits upcase upcase_len read_mapping_page mft_size bits shift iget5 kmalloc_ok fuel v w = Ret (w',
    (mk_vi (i_ino v) (iv_uid vol) (iv_gid vol) (file_mode vol) links seq tm (Z.shiftr (allocated_size z) 9) (i_bad v) FileOps NtfsAops (n_ptr v)
       AT_DATA None 0 z (mk_nf false false false false nonres false false false) (mk_ii 0 0 0 0 0) (mk_ic 0 0 0 0) None, 0)) /\
    inodes w' = <[n_ptr v := set_seq_no seq (init_inode (mft_no i))]> (inodes w) /\ pinned w' = pinned w.
Proof.
  intros Hbits Hshift Hpages Hino Hf Hi Hall Em Htab Hba Hoff Hat Hsorted Hsi Hd Hnol Hfile. set (base := n_ptr v) in *. set (i1 := init_inode (mft_no i)) in *. set (w1 := upd w base i1) in *.
  assert (Ew2 : w2 = after_map bits shift w1 base i1 (inr m) false).
  { destruct (map_record_spec read_mapping_page mft_size bits shift Hbits Hshift ltac:(intros; by eapply Hpages) w1 base i1 (upd_lookup _ _ _) ltac:(done)) as (r & errs & _ & E).
    rewrite Em in E. by injection E as -> <-. }
  unfold ntfs_read_locked_inode. cbv zeta. rewrite (proj2 (Z.eqb_neq (i_ino (vi_set_mode 0 _)) FILE_MFT)) by exact Hino. cbn [negb].
  rewrite (M_run _ _ w w1 tt) by (unfold init_store, modify; cbn; fold base; by rewrite Hi). unfold read_with. set (v1 := ntfs_init_big_inode _).
  assert (Ev1 : v1 = mk_vi (i_ino v) (iv_uid vol) (iv_gid vol) 0 (i_nlink v) (i_generation v) (i_times v) (i_blocks v) (i_bad v) (i_ops v) (i_aops v) base
    (n_type v) (n_name v) (n_name_len v) (mk_sizes 0 0 (PageRead.i_size (n_sizes v))) no_flags (mk_ii 0 0 0 0 0) (mk_ic 0 0 0 0) None) by (apply vinode_eq; try reflexivity; exact Hf).
  clearbody v1. assert (Hp1 : n_ptr v1 = base) by (by rewrite Ev1). assert (Hf1 : n_flags v1 = no_flags) by (by rewrite Ev1).
  rewrite Hp1, Em, bind_Ret, (get_ctx_run w2 base m off), bind_Ret by (try done; by rewrite Ew2).
  assert (Hi2 : inodes w2 !! base = Some (mapped bits shift i1)) by (rewrite Ew2; cbn; by rewrite lookup_insert_eq).
  rewrite (body_run vol sb_bread block_size_bits upcase upcase_len read_mapping_page mft_size bits shift Htab m ba off si d seq links tm z nonres l
    Hba Hoff Hat Hsorted Hsi Hd Hnol Hfile base fuel _ w2 i1 v1 Hp1 Hf1 Hi2 ltac:(done) eq_refl), bind_Ret.
  eexists. split; [|split].
  - cbn [is_w is_v]. by rewrite Ev1, file_vi_fields.
  - rewrite Ew2. cbn. by rewrite !insert_insert_eq.
  - rewrite Ew2. cbn -[unpin]. by rewrite unpin_cons.
Qed.

Definition demo_plain_attrs : list AttribSpec.attr := [mk_attr 0x10 72 [] None; mk_attr 0x80 32 [] None].

Lemma demo_plain_at : attrs_at demo_plain 256 56 demo_plain_attrs.
Proof.
  assert (H1 : attr_at demo_plain 56 (mk_attr 0x10 72 [] None)).
  { unfold attr_at. cbn [at_type at_length at_name at_value]. do 6 (split; [try (reflexivity || constructor || (vm_compute; discriminate)); lia|]).
    split; [exists 24; eexists; split; reflexivity|exact I]. }
  assert (H2 : attr_at demo_plain (56 + 72) (mk_attr 0x80 32 [] None)).
  { unfold attr_at. cbn [at_type at_length at_name at_value]. do 6 (split; [try (reflexivity || constructor || (vm_compute; discriminate)); lia|]).
    split; [exists 24; eexists; split; reflexivity|exact I]. }
  cbn [attrs_at demo_plain_attrs at_length]. split; [lia|]. split; [exact H1|]. split; [lia|]. split; [exact H2|]. split; [lia|reflexivity].
Qed.

Lemma demo_plain_file : plain_file demo_plain 56 128 3 1 (mk_times (mk_ts 0 0) (mk_ts 1 0) (mk_ts 2 0)) (mk_sizes 8 5 5) false.
Proof.
  constructor; [exists 1; split_and!; reflexivity|reflexivity..| |reflexivity|].
  - exists 24, 116444736000000000, 116444736010000000, 116444736020000000. split_and!; reflexivity.
  - exists 32, 24, 5. split_and!; (reflexivity || lia).
Qed.

Lemma read_inode_file_witness :
  exists w' v', demo_read demo_iv demo_plain = Ret (w', (v', 0)) /\ PageRead.i_size (n_sizes v') = 5 /\ i_mode v' = 0x81c0 /\ t_atime (i_times v') = mk_ts 2 0.
Proof.
  destruct (map_mft_record (demo_rec_page demo_plain) 4096 8 12 1%positive (upd demo_file_world 1%positive (init_inode 2))) as [[w2 [e|m]]| | | |] eqn:Em; try (vm_compute in Em; discriminate Em).
  assert (m = demo_plain) as -> by (vm_compute in Em; injection Em; intros; subst; vm_compute; reflexivity).
  destruct (@read_inode_file demo_alloc demo_iv (fun _ => None) 9 [] 0 (demo_rec_page demo_plain) 4096 8 12 (fun _ => IgetNoMemory) true 5 demo_new demo_file_world demo_file_ino w2 demo_plain
    256 56 56 128 3 1 (mk_times (mk_ts 0 0) (mk_ts 1 0) (mk_ts 2 0)) (mk_sizes 8 5 5) false demo_plain_attrs) as (w' & E & _).
  - lia.
  - lia.
  - apply demo_rec_pages; [reflexivity|apply (bool_decide_unpack _); vm_compute; exact I].
  - discriminate.
  - reflexivity.
  - reflexivity.
  - reflexivity.
  - exact Em.
  - split; [vm_compute; discriminate|constructor].
  - reflexivity.
  - reflexivity.
  - exact demo_plain_at.
  - cbn [attrs_sorted demo_plain_attrs]. repeat constructor; vm_compute; discriminate.
  - exists [], (mk_attr 0x10 72 [] None), [mk_attr 0x80 32 [] None]. split_and!; try reflexivity. intros b Hb. inversion Hb.
  - exists [mk_attr 0x10 72 [] None], (mk_attr 0x80 32 [] None), []. split_and!; try reflexivity. intros b Hb [Ht _]. apply list_elem_of_singleton in Hb. subst b. discriminate Ht.
  - intros a Ha. unfold demo_plain_attrs in Ha. apply elem_of_cons in Ha as [->|Ha%list_elem_of_singleton]; [discriminate|subst a; discriminate].
  - exact demo_plain_file.
  - eexists w', _. split; [exact E|]. split_and!; reflexivity.
Defined.
