(* ===== verification/UserCopy.v ===== *)
(** * Copying what is written into pages

    Models [ntfs_copy_from_user], [__ntfs_copy_from_user_iovec_inatomic],
    [ntfs_set_next_iovec] and [ntfs_copy_from_user_iovec] of [src/ntfs/file.c]: the
    data of a write, in one buffer or in a vector of buffers of the user, is copied
    into the pages that were prepared for it.  The kernel's copies from user memory
    are parameters (class [UserCopy]): they can stop anywhere in the range because of
    a fault, more often when sleeping is not allowed. *)

From Stdlib Require Import ZArith Lia Bool.
From stdpp Require Import base list numbers option.
From S2P Require Import Prelude AttrList.

(** ** The kernel's copies *)

(** A copy into [mem] at [ofs] of [len] bytes from the address [buf] gives the new
    memory and the number of bytes that are left.  [F] is the state of the address
    space (which pages are present); [atomic] says that page faults are not served. *)
Class UserCopy (F : Type) := {
  copy_from_user_inatomic : bool -> F -> list Z -> Z -> Z -> Z -> F * list Z * Z;
  copy_from_user : F -> list Z -> Z -> Z -> Z -> F * list Z * Z;
}.

(** [struct iovec] *)
Record iovec := mk_iov { iov_base : Z; iov_len : Z }.

Section Copy.
Context {F : Type} {UC : UserCopy F} (PAGE_CACHE_SIZE : Z).

(** ** ntfs_copy_from_user *)

(** "Zero the rest of the target": the pages behind the one with the fault. *)
Fixpoint zero_rest (pages : list (list Z)) (bytes len : Z) : outcome (list (list Z)) :=
  match pages with
  | [] => Ret []
  | p :: pages =>
      let bytes := bytes - len in
      if bytes =? 0 then Ret (p :: pages)
      else
        let len := if PAGE_CACHE_SIZE >? bytes then bytes else PAGE_CACHE_SIZE in
        p ← memset0 p 0 len;
        ps ← zero_rest pages bytes len;
        Ret (p :: ps)
  end.

(** The part of a page that is copied next. *)
Definition page_len (ofs bytes : Z) : Z := let len := PAGE_CACHE_SIZE - ofs in if len >? bytes then bytes else len.

Fixpoint copy_pages (f : F) (pages : list (list Z)) (ofs buf bytes total : Z) : outcome (F * list (list Z) * Z) :=
  match pages with
  | [] => Ret (f, [], total)
  | p :: pages =>
      let len := page_len ofs bytes in
      let '(f, p, rem) := copy_from_user_inatomic true f p ofs buf len in
      let '(f, p, rem) := if rem =? 0 then (f, p, rem) else copy_from_user f p ofs buf len in
      if negb (rem =? 0) then
        ps ← zero_rest pages bytes len; Ret (f, p :: ps, total + (len - rem))
      else
        let total := total + len in
        let bytes := bytes - len in
        if bytes =? 0 then Ret (f, p :: pages, total)
        else '(f, ps, total) ← copy_pages f pages 0 (buf + len) bytes total; Ret (f, p :: ps, total)
  end.

(** The first page is used without a look at their number. *)
Definition ntfs_copy_from_user (f : F) (pages : list (list Z)) (ofs buf bytes : Z) : outcome (F * list (list Z) * Z) :=
  match pages with [] => Fault | _ => copy_pages f pages ofs buf bytes 0 end.

(** ** __ntfs_copy_from_user_iovec_inatomic *)

(** The length is an [unsigned]. *)
Definition seg_len (v : iovec) (iov_ofs bytes : Z) : Z := let len := u32 (iov_len v - iov_ofs) in if len >? bytes then bytes else len.

Fixpoint copy_segs (atomic : bool) (f : F) (p : list Z) (vaddr : Z) (iov : list iovec) (iov_ofs bytes total : Z) : outcome (F * list Z * Z) :=
  match iov with
  | [] => Fault
  | v :: iov =>
      let len := seg_len v iov_ofs bytes in
      let '(f, p, rem) := copy_from_user_inatomic atomic f p vaddr (iov_base v + iov_ofs) len in
      let total := total + len in
      let bytes := bytes - len in
      if negb (rem =? 0) then Ret (f, p, total - rem)
      else if bytes =? 0 then Ret (f, p, total)
      else copy_segs atomic f p (vaddr + len) iov 0 bytes total
  end.

Definition ntfs_copy_from_user_iovec_inatomic (atomic : bool) (f : F) (p : list Z) (vaddr : Z) (iov : list iovec) (iov_ofs bytes : Z) : outcome (F * list Z * Z) :=
  copy_segs atomic f p vaddr iov iov_ofs bytes 0.

(** ** ntfs_set_next_iovec *)

(** A segment is looked at twice at most, unless the loop does not end: what remains
    of it after a step is either nothing or a multiple of 4 GiB. *)
Definition next_fuel (iov : list iovec) : nat := S (2 * length iov).

Fixpoint next_iovec (fuel : nat) (iov : list iovec) (iov_ofs bytes : Z) : outcome (list iovec * Z) :=
  match fuel with
  | O => Diverge
  | S fuel =>
      if bytes =? 0 then Ret (iov, iov_ofs)
      else match iov with
           | [] => Fault
           | v :: rest =>
               let len := seg_len v iov_ofs bytes in
               let bytes := bytes - len in
               let iov_ofs := iov_ofs + len in
               if iov_len v =? iov_ofs then next_iovec fuel rest 0 bytes else next_iovec fuel iov iov_ofs bytes
           end
  end.

Definition ntfs_set_next_iovec (iov : list iovec) (iov_ofs bytes : Z) : outcome (list iovec * Z) := next_iovec (next_fuel iov) iov iov_ofs bytes.

(** ** ntfs_copy_from_user_iovec *)

(** The label [err_out]. *)
Definition iovec_fault (f : F) (p : list Z) (pages : list (list Z)) (ofs : Z) (iov : list iovec) (iov_ofs bytes len copied total : Z)
  : outcome (F * list (list Z) * (list iovec * Z) * Z) :=
  BUG_ON (copied >? len);;
  p ← memset0 p (ofs + copied) (len - copied);
  next ← ntfs_set_next_iovec iov iov_ofs copied;
  ps ← zero_rest pages bytes len;
  Ret (f, p :: ps, next, total + copied).

(** One page: "Do it the slow way" when the first attempt was not complete. *)
Definition copy_iovec_page (f : F) (p : list Z) (ofs : Z) (iov : list iovec) (iov_ofs len : Z) : outcome (F * list Z * Z) :=
  '(f, p, copied) ← ntfs_copy_from_user_iovec_inatomic true f p ofs iov iov_ofs len;
  if negb (copied =? len) then ntfs_copy_from_user_iovec_inatomic false f p ofs iov iov_ofs len else Ret (f, p, copied).

Fixpoint copy_iovec_pages (f : F) (pages : list (list Z)) (ofs : Z) (iov : list iovec) (iov_ofs bytes total : Z) : outcome (F * list (list Z) * (list iovec * Z) * Z) :=
  match pages with
  | [] => Ret (f, [], (iov, iov_ofs), total)
  | p :: pages =>
      let len := page_len ofs bytes in
      '(f, p, copied) ← copy_iovec_page f p ofs iov iov_ofs len;
      if negb (copied =? len) then iovec_fault f p pages ofs iov iov_ofs bytes len copied total
      else
        let total := total + len in
        '(iov, iov_ofs) ← ntfs_set_next_iovec iov iov_ofs len;
        let bytes := bytes - len in
        if bytes =? 0 then Ret (f, p :: pages, (iov, iov_ofs), total)
        else '(f, ps, next, total) ← copy_iovec_pages f pages 0 iov iov_ofs bytes total; Ret (f, p :: ps, next, total)
  end.

Definition ntfs_copy_from_user_iovec (f : F) (pages : list (list Z)) (ofs : Z) (iov : list iovec) (iov_ofs bytes : Z) : outcome (F * list (list Z) * (list iovec * Z) * Z) :=
  match pages with [] => Fault | _ => copy_iovec_pages f pages ofs iov iov_ofs bytes 0 end.
End Copy.
