(* ===== verification/UserCopyTheorems.v ===== *)
(** * Copying what is written into pages: theorems

    Both functions copy the first bytes of what the user wrote to the pages, one
    behind the other, and put zeroes in place of what they could not copy; the vector
    of buffers is advanced by what was copied. *)

From Stdlib Require Import ZArith Lia Bool.
From stdpp Require Import base list numbers option.
From S2P Require Import Prelude Endian AttrList UserCopy.

Lemma memset0_at p ofs n : 0 <= ofs -> 0 <= n -> ofs + n <= zlen p -> memset0 p ofs n = Ret (splice ofs (repeat 0 (Z.to_nat n)) p).
Proof.
  intros H1 H2 H3. assert (Hr : zlen (repeat 0 (Z.to_nat n)) = n) by (unfold zlen; rewrite repeat_length; lia).
  destruct (cut_at p ofs n H1 H2 H3) as (a & b & c & -> & <- & Hb). unfold memset0.
  rewrite (blit_eq _ _ _ _ _ a b c [] (repeat 0 (Z.to_nat n)) []); [|by rewrite ?app_nil_l, ?app_nil_r..]. by rewrite splice_parts by lia.
Qed.

(** ** User memory *)

Definition ubytes (user : Z -> Z) (buf n : Z) : list Z := user <$> seqZ buf n.

Lemma zlen_ubytes user buf n : 0 <= n -> zlen (ubytes user buf n) = n.
Proof. intros H. unfold zlen, ubytes. rewrite length_fmap, length_seqZ. lia. Qed.

Lemma ubytes_app user buf m n : 0 <= m -> 0 <= n -> ubytes user buf (m + n) = ubytes user buf m ++ ubytes user (buf + m) n.
Proof. intros Hm Hn. unfold ubytes. by rewrite seqZ_app, fmap_app by done. Qed.

Lemma take_ubytes user buf m n : 0 <= m <= n -> take (Z.to_nat m) (ubytes user buf n) = ubytes user buf m.
Proof.
  intros H. replace n with (m + (n - m)) by lia. rewrite ubytes_app by lia. rewrite <- (zlen_ubytes user buf m) at 1 by lia. unfold zlen. by rewrite Nat2Z.id, take_app_length.
Qed.

Lemma drop_ubytes user buf m n : 0 <= m <= n -> drop (Z.to_nat m) (ubytes user buf n) = ubytes user (buf + m) (n - m).
Proof.
  intros H. replace n with (m + (n - m)) at 1 by lia. rewrite ubytes_app by lia. rewrite <- (zlen_ubytes user buf m) at 1 by lia. unfold zlen. by rewrite Nat2Z.id, drop_app_length.
Qed.

Definition zeros (n : Z) : list Z := repeat 0 (Z.to_nat n).
Lemma zlen_zeros n : 0 <= n -> zlen (zeros n) = n.
Proof. intros H. unfold zlen, zeros. rewrite repeat_length. lia. Qed.

(** What the kernel promises of its copies: a first part of the range is copied, the
    number of bytes that are left is returned and nothing outside of the range is
    changed; [copy_from_user] puts zeroes in the rest; where faults are served,
    memory that is accessible is copied. *)
Class UserCopyLaws {F : Type} (UC : UserCopy F) (user : Z -> Z) (accessible : Z -> Prop) := {
  inatomic_copies atomic f mem ofs buf len : 0 <= ofs -> 0 <= len -> ofs + len <= zlen mem ->
    exists f' rem t, copy_from_user_inatomic atomic f mem ofs buf len = (f', splice ofs (ubytes user buf (len - rem) ++ t) mem, rem) /\ 0 <= rem <= len /\ zlen t = rem /\
      (atomic = false -> (forall a, buf <= a < buf + len -> accessible a) -> rem = 0);
  sleeping_copies f mem ofs buf len : 0 <= ofs -> 0 <= len -> ofs + len <= zlen mem ->
    exists f' rem, copy_from_user f mem ofs buf len = (f', splice ofs (ubytes user buf (len - rem) ++ zeros rem) mem, rem) /\ 0 <= rem <= len /\
      ((forall a, buf <= a < buf + len -> accessible a) -> rem = 0);
}.

(** The bytes of a vector of buffers from a position on. *)
Fixpoint iov_bytes (user : Z -> Z) (iov : list iovec) : list Z :=
  match iov with [] => [] | v :: iov => ubytes user (iov_base v) (iov_len v) ++ iov_bytes user iov end.
Definition stream (user : Z -> Z) (iov : list iovec) (ofs : Z) : list Z :=
  match iov with [] => [] | v :: iov => ubytes user (iov_base v + ofs) (iov_len v - ofs) ++ iov_bytes user iov end.

Lemma iov_bytes_stream user iov : iov_bytes user iov = stream user iov 0.
Proof. destruct iov as [|v iov]; [done|]. cbn. by rewrite Z.add_0_r, Z.sub_0_r. Qed.

(** Every segment is smaller than 4 GiB, because its length is kept in an unsigned
    (file.c:1362, [large_segment_never_returns]), and the position is in the first. *)
Definition iov_ok (iov : list iovec) (ofs : Z) : Prop :=
  Forall (fun v => 0 <= iov_len v < 0x100000000) iov /\ 0 <= ofs /\ match iov with [] => ofs = 0 | v :: _ => ofs <= iov_len v end.

Lemma iov_ok_next v iov ofs : iov_ok (v :: iov) ofs -> iov_ok iov 0.
Proof. intros (H & _). apply list.Forall_cons in H as [_ H]. split; [done|]. split; [lia|]. destruct iov; [done|]. apply list.Forall_cons in H as [? _]. lia. Qed.

Lemma seg_len_ok v iov ofs bytes : iov_ok (v :: iov) ofs -> 0 <= bytes -> seg_len v ofs bytes = Z.min (iov_len v - ofs) bytes.
Proof.
  intros (H & H0 & H1) Hb. apply list.Forall_cons in H as [Hv _]. unfold seg_len. rewrite u32_id, Z.gtb_ltb by lia. destruct (Z.ltb_spec bytes (iov_len v - ofs)); lia.
Qed.

(** How many bytes of each buffer can be read. *)
Definition iov_accessible (accessible : Z -> Prop) (iov : list iovec) (ofs : Z) : Prop :=
  match iov with
  | [] => True
  | v :: iov => (forall a, iov_base v + ofs <= a < iov_base v + iov_len v -> accessible a) /\ Forall (fun v => forall a, iov_base v <= a < iov_base v + iov_len v -> accessible a) iov
  end.

Lemma iov_accessible_next accessible v iov ofs : iov_accessible accessible (v :: iov) ofs -> iov_accessible accessible iov 0.
Proof. intros [_ H]. destruct iov as [|v' iov]; [done|]. apply list.Forall_cons in H as [H1 H2]. split; [|done]. by rewrite Z.add_0_r. Qed.

Lemma zlen_take {A} (l : list A) n : 0 <= n <= zlen l -> zlen (take (Z.to_nat n) l) = n.
Proof. unfold zlen. intros H. rewrite length_take. lia. Qed.
Lemma take_app_z {A} (l k : list A) n : 0 <= n -> take (Z.to_nat (zlen l + n)) (l ++ k) = l ++ take (Z.to_nat n) k.
Proof. intros H. unfold zlen. rewrite Z2Nat.inj_add, Nat2Z.id by lia. by rewrite take_app_add. Qed.
Lemma drop_app_z {A} (l k : list A) n : 0 <= n -> drop (Z.to_nat (zlen l + n)) (l ++ k) = drop (Z.to_nat n) k.
Proof. intros H. unfold zlen. rewrite Z2Nat.inj_add, Nat2Z.id by lia. by rewrite drop_app_add. Qed.

Section Copy.
Context {F : Type} {UC : UserCopy F} {user : Z -> Z} {accessible : Z -> Prop} {UL : UserCopyLaws UC user accessible}.

(** ** The copy of segments into one page *)

Lemma copy_segs_spec atomic iov : forall f p vaddr ofs bytes total, iov_ok iov ofs -> 0 < bytes -> bytes <= zlen (stream user iov ofs) -> 0 <= vaddr -> vaddr + bytes <= zlen p ->
  exists f' n t, copy_segs atomic f p vaddr iov ofs bytes total = Ret (f', splice vaddr (take (Z.to_nat n) (stream user iov ofs) ++ t) p, total + n) /\
    0 <= n <= bytes /\ zlen t = bytes - n /\ (atomic = false -> iov_accessible accessible iov ofs -> n = bytes).
Proof using UL.
  induction iov as [|v iov IH]; intros f p vaddr ofs bytes total Hok Hb Hs Hva Hp; [unfold zlen in Hs; cbn in Hs; lia|].
  cbn [copy_segs]. rewrite (seg_len_ok v iov) by (done || lia). cbv zeta. destruct Hok as (Hl & Ho & Hle). assert (Hok : iov_ok (v :: iov) ofs) by done.
  set (len := Z.min (iov_len v - ofs) bytes). destruct (inatomic_copies (UC := UC) atomic f p vaddr (iov_base v + ofs) len) as (f' & rem & t & E & Hrem & Ht & Hacc); [lia..|].
  rewrite E. assert (Htk : take (Z.to_nat (len - rem)) (stream user (v :: iov) ofs) = ubytes user (iov_base v + ofs) (len - rem)).
  { cbn [stream]. rewrite take_app_le, take_ubytes; [done|lia|]. pose proof (zlen_ubytes user (iov_base v + ofs) (iov_len v - ofs) ltac:(lia)) as Hz. unfold zlen in Hz. lia. }
  destruct (Z.eqb_spec rem 0) as [Hr|Hr]; cbn [negb].
  - rewrite Hr in *. rewrite Z.sub_0_r in *. assert (t = []) as -> by (destruct t; [done|unfold zlen in Ht; cbn in Ht; lia]). rewrite app_nil_r.
    destruct (Z.eqb_spec (bytes - len) 0) as [Hd|Hd].
    + exists f', len, []. rewrite Htk, app_nil_r. split_and!; [done|lia..|cbn; lia|lia].
    + assert (Hlen : len = iov_len v - ofs) by lia. set (s1 := ubytes user (iov_base v + ofs) len). assert (Hs1 : zlen s1 = len) by (apply zlen_ubytes; lia).
      assert (Hstr : stream user (v :: iov) ofs = s1 ++ stream user iov 0) by (cbn [stream]; by rewrite <- Hlen, iov_bytes_stream). rewrite Hstr, zlen_app, Hs1 in Hs.
      destruct (IH f' (splice vaddr s1 p) (vaddr + len) 0 (bytes - len) (total + len)) as (f2 & n & t & E2 & Hn & Ht2 & Hacc2).
      1: { by eapply iov_ok_next. } 1,2,3: lia. 1: { rewrite zlen_splice; lia. }
      exists f2, (len + n), t. rewrite E2, Hstr. replace (len + n) with (zlen s1 + n) by lia. rewrite take_app_z, <- app_assoc by lia. rewrite Hs1. split_and!; [|lia..|].
      * do 2 f_equal; [|lia]. f_equal. replace (vaddr + len) with (vaddr + zlen s1) by lia. rewrite splice_next; [done|lia|]. rewrite zlen_app, zlen_take by lia. lia.
      * intros Ha Hia. rewrite Hacc2; [lia|done|]. by eapply iov_accessible_next.
  - destruct (cut_at p (vaddr + (len - rem)) (bytes - (len - rem)) ltac:(lia) ltac:(lia) ltac:(lia)) as (a & b & c & -> & Ha & Hb').
    destruct (cut_at b 0 rem ltac:(lia) ltac:(lia) ltac:(lia)) as (e & b1 & b2 & -> & He & Hb1). destruct e; [|unfold zlen in He; cbn in He; lia]. rewrite app_nil_l in *.
    exists f', (len - rem), (t ++ b2). rewrite Htk. rewrite zlen_app in *. split_and!; [|lia..|].
    + do 2 f_equal; [|lia]. f_equal. rewrite (app_assoc (ubytes _ _ _)). symmetry.
      assert (Hub : zlen (ubytes user (iov_base v + ofs) (len - rem)) = len - rem) by (apply zlen_ubytes; lia).
      assert (Hz : zlen (ubytes user (iov_base v + ofs) (len - rem) ++ t) = len) by (rewrite zlen_app; lia).
      pose proof (zlen_nonneg c). rewrite <- splice_next by (rewrite ?Hz, ?zlen_app; lia). rewrite Hz.
      replace (a ++ (b1 ++ b2) ++ c) with ((a ++ b1) ++ b2 ++ c) by (by rewrite <- !app_assoc).
      rewrite (splice_page vaddr) by (rewrite ?Hz, ?zlen_app; lia).
      replace (vaddr + len) with (zlen (splice vaddr (ubytes user (iov_base v + ofs) (len - rem) ++ t) (a ++ b1))) by (rewrite zlen_splice; rewrite ?Hz, ?zlen_app; lia).
      by apply splice_parts.
    + intros -> [Hacc1 _]. exfalso. apply Hr. apply Hacc; [done|]. intros x Hx. apply Hacc1. lia.
Qed.

(** ** The next position in the vector *)

Lemma next_iovec_spec iov : forall fuel ofs bytes, (fuel > length iov)%nat -> iov_ok iov ofs -> 0 <= bytes -> bytes <= zlen (stream user iov ofs) ->
  exists iov' ofs', next_iovec fuel iov ofs bytes = Ret (iov', ofs') /\ iov_ok iov' ofs' /\ stream user iov' ofs' = drop (Z.to_nat bytes) (stream user iov ofs) /\
    (iov_accessible accessible iov ofs -> iov_accessible accessible iov' ofs').
Proof using Type.
  induction iov as [|v iov IH]; intros [|fuel] ofs bytes Hf Hok Hb Hs; try (cbn in Hf; lia).
  - unfold zlen in Hs. cbn in Hs. assert (bytes = 0) as -> by lia. cbn. by eexists [], ofs.
  - cbn [next_iovec]. destruct (Z.eqb_spec bytes 0) as [->|Hnz]; [exists (v :: iov), ofs; by rewrite drop_0|].
    rewrite (seg_len_ok v iov) by done. cbv zeta. assert (Hok' := Hok). destruct Hok' as (Hl & Ho & Hle). set (len := Z.min (iov_len v - ofs) bytes).
    pose proof (zlen_ubytes user (iov_base v + ofs) (iov_len v - ofs) ltac:(lia)) as Hz.
    destruct (Z.eqb_spec (iov_len v) (ofs + len)) as [Hend|Hend].
    + assert (Hlen : len = iov_len v - ofs) by lia. cbn [stream] in *. rewrite iov_bytes_stream in *. rewrite zlen_app in Hs.
      destruct (IH fuel 0 (bytes - len)) as (iov' & ofs' & E & H1 & H2 & H3); [cbn in Hf; lia|by eapply iov_ok_next|lia|lia|].
      exists iov', ofs'. rewrite E. split_and!; [done|done| |].
      * replace bytes with (zlen (ubytes user (iov_base v + ofs) (iov_len v - ofs)) + (bytes - len)) by lia. rewrite drop_app_z by lia. rewrite H2. do 2 f_equal.
      * intros Ha. apply H3. by eapply iov_accessible_next.
    + assert (Hlen : len = bytes) by lia. rewrite Hlen, Z.sub_diag. destruct fuel as [|fuel]; [cbn in Hf; lia|]. cbn [next_iovec].
      exists (v :: iov), (ofs + bytes). split_and!; [done|split_and!; [done|lia|lia]| |].
      * cbn [stream]. rewrite drop_app_le, drop_ubytes by (unfold zlen in Hz; lia). f_equal. f_equal; lia.
      * intros [H1 H2]. split; [|done]. intros a Ha. apply H1. lia.
Qed.

(** ** Pages *)

Context (PS : Z).
Definition page_ok (p : list Z) : Prop := zlen p = PS.

(** The data [d] is in the pages at [ofs], the rest of them is as it was. *)
Definition filled (pages : list (list Z)) (ofs : Z) (d : list Z) (pages' : list (list Z)) : Prop :=
  Forall page_ok pages' /\ length pages' = length pages /\ concat pages' = splice ofs d (concat pages).

Lemma filled_here p pages ofs d : page_ok p -> Forall page_ok pages -> 0 <= ofs -> ofs + zlen d <= PS -> filled (p :: pages) ofs d (splice ofs d p :: pages).
Proof using Type.
  intros Hp Hps Ho Hd. split_and!; [|done|]; [constructor; [|done]; unfold page_ok in *; rewrite zlen_splice; lia|].
  cbn [concat]. rewrite splice_page; [done|done|]. unfold page_ok in Hp. lia.
Qed.

Lemma filled_on p pages ofs d d' pages' : page_ok p -> 0 <= ofs -> ofs + zlen d = PS -> zlen d' <= zlen (concat pages) -> filled pages 0 d' pages' ->
  filled (p :: pages) ofs (d ++ d') (splice ofs d p :: pages').
Proof using Type.
  intros Hp Ho Hd Hd' (H1 & H2 & H3). unfold page_ok in Hp. split_and!; [|cbn; lia|]; [constructor; [|done]; unfold page_ok; rewrite zlen_splice; lia|].
  cbn [concat]. rewrite H3. symmetry. apply splice_pages; lia.
Qed.

Lemma zlen_pages pages : Forall page_ok pages -> zlen (concat pages) = PS * zlen pages.
Proof using Type.
  induction 1 as [|p pages Hp Hps IH]; [unfold zlen; cbn; lia|]. cbn [concat]. unfold page_ok in Hp. rewrite zlen_app, zlen_cons, Hp, IH. lia.
Qed.

Hypothesis HPS : 0 < PS.

Lemma zero_rest_spec pages : forall bytes len, Forall page_ok pages -> 0 <= bytes - len <= zlen (concat pages) ->
  exists pages', zero_rest PS pages bytes len = Ret pages' /\ filled pages 0 (zeros (bytes - len)) pages'.
Proof using HPS.
  induction pages as [|p pages IH]; intros bytes len Hok Hb.
  - exists []. split; [done|]. cbn [concat zlen length] in *. unfold zlen in Hb. cbn in Hb. assert (bytes - len = 0) as -> by lia. by split_and!.
  - apply list.Forall_cons in Hok as [Hp Hps]. assert (Hp' := Hp). unfold page_ok in Hp'. cbn [zero_rest concat]. cbv zeta. cbn [concat] in Hb. rewrite zlen_app in Hb.
    destruct (Z.eqb_spec (bytes - len) 0) as [->|Hnz].
    + exists (p :: pages). split; [done|]. split_and!; [by constructor|done|]. symmetry. apply (splice_nil 0 (concat (p :: pages))); lia.
    + rewrite Z.gtb_ltb. set (b := bytes - len) in *. set (l := if b <? PS then b else PS). assert (Hl : l = Z.min b PS) by (unfold l; destruct (Z.ltb_spec b PS); lia). clearbody l.
      pose proof (zlen_nonneg (concat pages)). rewrite memset0_at, bind_Ret by lia. destruct (IH b l Hps ltac:(lia)) as (pages' & E & Hf). rewrite E, bind_Ret. exists (splice 0 (zeros l) p :: pages'). split; [done|].
      destruct (Z.leb_spec b PS).
      * assert (l = b) as -> by lia. rewrite Z.sub_diag in Hf. destruct Hf as (H1 & H2 & H3). change (zeros 0) with (@nil Z) in H3. rewrite splice_nil in H3 by lia.
        pose proof (filled_here p pages' 0 (zeros b) Hp H1 ltac:(lia) ltac:(rewrite zlen_zeros; lia)) as (G1 & G2 & G3). split_and!; [done|cbn; lia|]. rewrite G3. cbn [concat]. by rewrite H3.
      * assert (l = PS) as -> by lia. replace (zeros b) with (zeros PS ++ zeros (b - PS)).
        2: { unfold zeros. rewrite <- repeat_app. f_equal. lia. }
        apply filled_on; [done|lia|rewrite zlen_zeros; lia|rewrite zlen_zeros; lia|done].
Qed.

Lemma page_len_eq ofs bytes : page_len PS ofs bytes = Z.min (PS - ofs) bytes.
Proof using Type. unfold page_len. cbv zeta. rewrite Z.gtb_ltb. destruct (Z.ltb_spec bytes (PS - ofs)); lia. Qed.

(** What is in the pages after [n] of the bytes of [data] could be copied. *)
Definition landed (data : list Z) (bytes n : Z) : list Z := take (Z.to_nat n) data ++ zeros (bytes - n).

Lemma zlen_landed data bytes n : 0 <= n <= bytes -> n <= zlen data -> zlen (landed data bytes n) = bytes.
Proof using Type. intros H1 H2. unfold landed. rewrite zlen_app, zlen_take, zlen_zeros; lia. Qed.

(** After a fault the rest of the page and of the other pages is zeroed. *)
Lemma landed_fault p pages ofs bytes n data len pages' : page_ok p -> Forall page_ok pages -> 0 <= ofs -> len = Z.min (PS - ofs) bytes -> 0 <= n <= len -> n <= zlen data -> bytes <= zlen (concat (p :: pages)) - ofs ->
  filled pages 0 (zeros (bytes - len)) pages' -> filled (p :: pages) ofs (landed data bytes n) (splice ofs (landed data len n) p :: pages').
Proof using Type.
  intros Hp Hps Ho Hlen Hn Hd Hb Hf. assert (Hp' := Hp). unfold page_ok in Hp'. cbn [concat] in Hb. rewrite zlen_app in Hb.
  assert (Hld : zlen (landed data len n) = len) by (apply zlen_landed; lia).
  assert (El : landed data bytes n = landed data len n ++ zeros (bytes - len)) by (unfold landed, zeros; rewrite <- app_assoc, <- repeat_app; do 2 f_equal; lia).
  destruct (Z.leb_spec bytes (PS - ofs)).
  - assert (Ez : bytes - len = 0) by lia. rewrite Ez in *. rewrite El. change (zeros 0) with (@nil Z) in *. rewrite app_nil_r. destruct Hf as (H1 & H2 & H3). rewrite splice_nil in H3 by lia.
    pose proof (filled_here p pages' ofs (landed data len n) Hp H1 Ho ltac:(lia)) as (G1 & G2 & G3). split_and!; [done|cbn; lia|]. rewrite G3. cbn [concat]. by rewrite H3.
  - rewrite El. apply filled_on; [done|done|lia|rewrite zlen_zeros; lia|done].
Qed.

Lemma landed_on data bytes n len : 0 <= len -> 0 <= n -> len + n <= bytes -> len <= zlen data ->
  landed data bytes (len + n) = take (Z.to_nat len) data ++ landed (drop (Z.to_nat len) data) (bytes - len) n.
Proof using Type.
  intros H1 H2 H3 H4. unfold landed. rewrite app_assoc. f_equal; [|f_equal; lia]. rewrite Z2Nat.inj_add by lia. by rewrite take_take_drop.
Qed.

(** ** ntfs_copy_from_user_iovec *)

Lemma copy_iovec_page_spec f p ofs iov iov_ofs len : iov_ok iov iov_ofs -> 0 <= ofs -> 0 < len -> len <= zlen (stream user iov iov_ofs) -> ofs + len <= zlen p ->
  exists f' n t, copy_iovec_page f p ofs iov iov_ofs len = Ret (f', splice ofs (take (Z.to_nat n) (stream user iov iov_ofs) ++ t) p, n) /\
    0 <= n <= len /\ zlen t = len - n /\ (iov_accessible accessible iov iov_ofs -> n = len).
Proof using UL.
  intros Hok Ho Hl Hs Hp. unfold copy_iovec_page, ntfs_copy_from_user_iovec_inatomic.
  destruct (copy_segs_spec true iov f p ofs iov_ofs len 0 Hok) as (f1 & n1 & t1 & E1 & Hn1 & Ht1 & _); [lia..|]. rewrite E1, bind_Ret, Z.add_0_l.
  destruct (Z.eqb_spec n1 len) as [->|Hf]; cbn [negb]; [exists f1, len, t1; split_and!; (done || lia)|].
  set (d1 := take (Z.to_nat n1) (stream user iov iov_ofs) ++ t1). assert (Hd1 : zlen d1 = len) by (unfold d1; rewrite zlen_app, zlen_take; lia).
  destruct (copy_segs_spec false iov f1 (splice ofs d1 p) ofs iov_ofs len 0 Hok) as (f2 & n2 & t2 & E2 & Hn2 & Ht2 & Ha); [lia..|rewrite zlen_splice; lia|].
  rewrite E2, Z.add_0_l. exists f2, n2, t2. split_and!; [|lia..|auto]. do 2 f_equal. f_equal.
  apply splice_again; rewrite ?zlen_app, ?zlen_take; lia.
Qed.

(** What the functions guarantee: [n] bytes of [data] have been copied. *)
Definition copied_to (pages : list (list Z)) (ofs : Z) (data : list Z) (bytes : Z) (pages' : list (list Z)) (n : Z) : Prop :=
  0 <= n <= bytes /\ filled pages ofs (landed data bytes n) pages'.

Lemma next_ok iov ofs n : iov_ok iov ofs -> 0 <= n -> n <= zlen (stream user iov ofs) ->
  exists iov' ofs', ntfs_set_next_iovec iov ofs n = Ret (iov', ofs') /\ iov_ok iov' ofs' /\ stream user iov' ofs' = drop (Z.to_nat n) (stream user iov ofs) /\
    (iov_accessible accessible iov ofs -> iov_accessible accessible iov' ofs').
Proof using Type. intros. apply next_iovec_spec; try done. unfold next_fuel. lia. Qed.

Lemma copied_fault p pages ofs data bytes n t : page_ok p -> Forall page_ok pages -> 0 <= ofs < PS -> 0 < bytes -> bytes <= zlen data -> ofs + bytes <= zlen (concat (p :: pages)) ->
  0 <= n <= Z.min (PS - ofs) bytes -> zlen t = Z.min (PS - ofs) bytes - n ->
  exists pages', memset0 (splice ofs (take (Z.to_nat n) data ++ t) p) (ofs + n) (Z.min (PS - ofs) bytes - n) = Ret (splice ofs (landed data (Z.min (PS - ofs) bytes) n) p) /\
    zero_rest PS pages bytes (Z.min (PS - ofs) bytes) = Ret pages' /\ copied_to (p :: pages) ofs data bytes (splice ofs (landed data (Z.min (PS - ofs) bytes) n) p :: pages') n.
Proof using HPS.
  intros Hp Hps Ho Hb Hd Hr Hn Ht. assert (Hp' := Hp). unfold page_ok in Hp'. assert (Hcat := Hr). cbn [concat] in Hcat. rewrite zlen_app in Hcat. set (len := Z.min (PS - ofs) bytes) in *.
  pose proof (zlen_nonneg (concat pages)). destruct (zero_rest_spec pages bytes len Hps ltac:(lia)) as (pages' & Ez & Hz). exists pages'.
  assert (Htk : zlen (take (Z.to_nat n) data) = n) by (apply zlen_take; lia). split_and!; [|done|].
  - rewrite memset0_at by (rewrite ?zlen_splice; rewrite ?zlen_app; lia). f_equal. replace (ofs + n) with (ofs + zlen (take (Z.to_nat n) data)) by lia.
    rewrite splice_tail; [done|lia| |lia]. rewrite Ht. symmetry. apply zlen_zeros. lia.
  - split; [lia|]. by apply landed_fault; try done; lia.
Qed.

Lemma copied_on p pages ofs data bytes n pages' : page_ok p -> 0 <= ofs < PS -> PS - ofs <= bytes -> bytes <= zlen data -> ofs + bytes <= zlen (concat (p :: pages)) ->
  copied_to pages 0 (drop (Z.to_nat (PS - ofs)) data) (bytes - (PS - ofs)) pages' n ->
  copied_to (p :: pages) ofs data bytes (splice ofs (take (Z.to_nat (PS - ofs)) data) p :: pages') (PS - ofs + n).
Proof using Type.
  intros Hp Ho Hb Hd Hr [Hn Hf]. unfold page_ok in Hp. cbn [concat] in Hr. rewrite zlen_app in Hr. split; [lia|]. rewrite landed_on by lia.
  assert (Hdr : zlen (drop (Z.to_nat (PS - ofs)) data) = zlen data - (PS - ofs)) by (unfold zlen in *; rewrite length_drop; lia).
  apply filled_on; [done|lia|rewrite zlen_take; lia| |done]. rewrite zlen_landed; lia.
Qed.

Lemma copy_iovec_spec pages : forall f ofs iov iov_ofs bytes total, Forall page_ok pages -> pages <> [] -> iov_ok iov iov_ofs -> 0 <= ofs < PS -> 0 < bytes ->
  bytes <= zlen (stream user iov iov_ofs) -> ofs + bytes <= zlen (concat pages) ->
  exists f' pages' iov' iov_ofs' n, copy_iovec_pages PS f pages ofs iov iov_ofs bytes total = Ret (f', pages', (iov', iov_ofs'), total + n) /\
    copied_to pages ofs (stream user iov iov_ofs) bytes pages' n /\ iov_ok iov' iov_ofs' /\ stream user iov' iov_ofs' = drop (Z.to_nat n) (stream user iov iov_ofs) /\
    (iov_accessible accessible iov iov_ofs -> n = bytes).
Proof using UL HPS.
  induction pages as [|p pages IH]; intros f ofs iov iov_ofs bytes total Hps Hne Hok Ho Hb Hs Hr; [done|].
  apply list.Forall_cons in Hps as [Hp Hps]. assert (Hp' := Hp). unfold page_ok in Hp'. cbn [copy_iovec_pages]. cbv zeta. rewrite page_len_eq.
  assert (Hcat := Hr). cbn [concat] in Hcat. rewrite zlen_app in Hcat. pose proof (zlen_nonneg (concat pages)).
  destruct (copy_iovec_page_spec f p ofs iov iov_ofs (Z.min (PS - ofs) bytes) Hok) as (f' & n & t & E & Hn & Ht & Hacc); [lia..|]. rewrite E, bind_Ret.
  destruct (next_ok iov iov_ofs n Hok) as (iov' & iov_ofs' & En & Hok' & Hst & Hia); [lia..|].
  destruct (Z.eqb_spec n (Z.min (PS - ofs) bytes)) as [Hall|Hfault]; cbn [negb].
  - subst n. rewrite En, bind_Ret. assert (t = []) as -> by (destruct t; [done|unfold zlen in Ht; cbn in Ht; lia]). rewrite app_nil_r.
    destruct (Z.eqb_spec (bytes - Z.min (PS - ofs) bytes) 0) as [Hd|Hd].
    + assert (Emin : Z.min (PS - ofs) bytes = bytes) by lia. rewrite Emin in *. exists f', (splice ofs (take (Z.to_nat bytes) (stream user iov iov_ofs)) p :: pages), iov', iov_ofs', bytes.
      split_and!; try done. split; [lia|]. unfold landed. rewrite Z.sub_diag. change (zeros 0) with (@nil Z). rewrite app_nil_r. apply filled_here; [done|done|lia|rewrite zlen_take; lia].
    + assert (Emin : Z.min (PS - ofs) bytes = PS - ofs) by lia. rewrite Emin in *.
      destruct (IH f' 0 iov' iov_ofs' (bytes - (PS - ofs)) (total + (PS - ofs))) as (f2 & pages2 & iov2 & ofs2 & n2 & E2 & Hc & Hok2 & Hst2 & Ha2); try done; try lia.
      { intros ->. cbn [concat] in Hcat. rewrite zlen_nil in Hcat. lia. } { rewrite Hst. unfold zlen in *. rewrite length_drop. lia. }
      rewrite E2, bind_Ret. exists f2, (splice ofs (take (Z.to_nat (PS - ofs)) (stream user iov iov_ofs)) p :: pages2), iov2, ofs2, (PS - ofs + n2).
      rewrite Hst in Hc, Hst2. split_and!; [by rewrite Z.add_assoc|by apply copied_on; try done; lia|done| |].
      * rewrite Hst2, drop_drop. f_equal. rewrite Z2Nat.inj_add; [done|lia|apply Hc].
      * intros Ha. rewrite Ha2 by auto. lia.
  - destruct (copied_fault p pages ofs (stream user iov iov_ofs) bytes n t Hp Hps Ho Hb Hs Hr Hn Ht) as (pages' & Em & Ez & Hc).
    unfold iovec_fault, BUG_ON. rewrite Z.gtb_ltb, (proj2 (Z.ltb_ge _ _)) by lia. cbv iota. rewrite bind_Ret, Em, bind_Ret, En, bind_Ret, Ez, bind_Ret.
    eexists f', _, iov', iov_ofs', n. split_and!; try done. intros Ha. exfalso. auto.
Qed.

Lemma copy_pages_spec pages : forall f ofs buf bytes total, Forall page_ok pages -> pages <> [] -> 0 <= ofs < PS -> 0 < bytes -> ofs + bytes <= zlen (concat pages) ->
  exists f' pages' n, copy_pages PS f pages ofs buf bytes total = Ret (f', pages', total + n) /\ copied_to pages ofs (ubytes user buf bytes) bytes pages' n /\
    ((forall a, buf <= a < buf + bytes -> accessible a) -> n = bytes).
Proof using UL HPS.
  induction pages as [|p pages IH]; intros f ofs buf bytes total Hps Hne Ho Hb Hr; [done|].
  apply list.Forall_cons in Hps as [Hp Hps]. assert (Hp' := Hp). unfold page_ok in Hp'. cbn [copy_pages]. cbv zeta. rewrite page_len_eq.
  assert (Hcat := Hr). cbn [concat] in Hcat. rewrite zlen_app in Hcat. pose proof (zlen_nonneg (concat pages)). pose proof (zlen_ubytes user buf bytes ltac:(lia)) as Hub.
  set (len := Z.min (PS - ofs) bytes). assert (Hlen : len = Z.min (PS - ofs) bytes) by done. clearbody len.
  (* both attempts *)
  assert (Hc : exists f' rem t, (let '(f, p, rem) := copy_from_user_inatomic true f p ofs buf len in if rem =? 0 then (f, p, rem) else copy_from_user f p ofs buf len) =
      (f', splice ofs (ubytes user buf (len - rem) ++ zeros rem ++ t) p, rem) /\ t = [] /\ 0 <= rem <= len /\ ((forall a, buf <= a < buf + bytes -> accessible a) -> rem = 0)).
  { destruct (inatomic_copies (UC := UC) true f p ofs buf len) as (f1 & rem1 & t1 & E1 & Hr1 & Ht1 & _); [lia..|]. rewrite E1. destruct (Z.eqb_spec rem1 0) as [Hz|Hz].
    - rewrite Hz in *. exists f1, 0, []. split_and!; [|done|lia..|done]. assert (t1 = []) as -> by (destruct t1; [done|unfold zlen in Ht1; cbn in Ht1; lia]). done.
    - assert (Hd1 : zlen (ubytes user buf (len - rem1) ++ t1) = len) by (rewrite zlen_app, zlen_ubytes; lia).
      destruct (sleeping_copies (UC := UC) f1 (splice ofs (ubytes user buf (len - rem1) ++ t1) p) ofs buf len) as (f2 & rem2 & E2 & Hr2 & Ha); [lia..|rewrite zlen_splice; lia|].
      rewrite E2. exists f2, rem2, []. split_and!; [|done|lia..|intros Hx; apply Ha; intros; apply Hx; lia]. rewrite app_nil_r. do 2 f_equal. apply splice_again; [lia| |lia]. rewrite Hd1, zlen_app, zlen_ubytes, zlen_zeros; lia. }
  destruct Hc as (f' & rem & t & E & -> & Hrem & Hacc). rewrite app_nil_r in E.
  destruct (copy_from_user_inatomic true f p ofs buf len) as [[f1 p1] rem1]. rewrite E. clear E.
  assert (Hlnd : landed (ubytes user buf bytes) len (len - rem) = ubytes user buf (len - rem) ++ zeros rem) by (unfold landed; rewrite take_ubytes by lia; do 2 f_equal; lia).
  destruct (Z.eqb_spec rem 0) as [Hz|Hz]; cbn [negb].
  - rewrite Hz in *. rewrite Z.sub_0_r in *. change (zeros 0) with (@nil Z) in *. rewrite app_nil_r in *.
    destruct (Z.eqb_spec (bytes - len) 0) as [Hd|Hd].
    + exists f', (splice ofs (ubytes user buf len) p :: pages), len. assert (bytes = len) as -> by lia. split_and!; [done| |done]. split; [lia|]. rewrite Hlnd. apply filled_here; [done|done|lia|rewrite zlen_ubytes; lia].
    + assert (Hl : len = PS - ofs) by lia. destruct (IH f' 0 (buf + len) (bytes - len) (total + len)) as (f2 & pages2 & n2 & E2 & Hc & Ha2); try done; try lia.
      { intros ->. cbn [concat] in Hcat. rewrite zlen_nil in Hcat. lia. }
      rewrite E2, bind_Ret. exists f2, (splice ofs (ubytes user buf len) p :: pages2), (len + n2). split_and!; [by rewrite Z.add_assoc| |].
      * rewrite <- (take_ubytes user buf len bytes), Hl by lia. apply copied_on; try done; try lia. rewrite drop_ubytes by lia. by rewrite Hl in Hc.
      * intros Ha. rewrite Ha2; [lia|]. intros a Ha'. apply Ha. lia.
  - destruct (zero_rest_spec pages bytes len Hps ltac:(lia)) as (pages' & Ez & Hf). rewrite Ez, bind_Ret. eexists f', _, (len - rem). split_and!; [done| |].
    + split; [lia|]. rewrite <- Hlnd. by apply landed_fault; try done; lia.
    + intros Ha. exfalso. auto.
Qed.
End Copy.

(** C22: Copying what the user wrote, from a vector of buffers of less than 4 GiB each,
    into the prepared pages ([ntfs_copy_from_user_iovec]; with a segment of 4 GiB or more
    the lengths overflow an unsigned and the position never advances,
    [large_segment_never_returns]): whatever the copies of the kernel do within what
    they promise, the function returns the number [n] of bytes copied; the pages then
    hold, from the offset on and across their ends, the first [n] bytes of the
    buffers one behind the other, zeroes up to [bytes] after a fault, and otherwise
    what they held; the position in the vector is [n] bytes further; and all bytes are
    copied when the buffers are accessible, also if the first attempts without page
    faults fail. *)
Theorem copy_iovec_correct {F : Type} {UC : UserCopy F} {user accessible} {UL : UserCopyLaws UC user accessible} PS f pages ofs iov iov_ofs bytes :
  0 <= ofs < PS -> 0 < bytes -> pages <> [] -> Forall (fun p => zlen p = PS) pages -> ofs + bytes <= PS * zlen pages -> iov_ok iov iov_ofs -> bytes <= zlen (stream user iov iov_ofs) ->
  exists f' pages' iov' iov_ofs' n, ntfs_copy_from_user_iovec PS f pages ofs iov iov_ofs bytes = Ret (f', pages', (iov', iov_ofs'), n) /\ 0 <= n <= bytes /\
    Forall (fun p => zlen p = PS) pages' /\ length pages' = length pages /\
    concat pages' = splice ofs (take (Z.to_nat n) (stream user iov iov_ofs) ++ zeros (bytes - n)) (concat pages) /\
    iov_ok iov' iov_ofs' /\ stream user iov' iov_ofs' = drop (Z.to_nat n) (stream user iov iov_ofs) /\ (iov_accessible accessible iov iov_ofs -> n = bytes).
Proof.
  intros Ho Hb Hne Hps Hr Hok Hs. destruct (copy_iovec_spec PS ltac:(lia) pages f ofs iov iov_ofs bytes 0) as (f' & pages' & iov' & iov_ofs' & n & E & [Hn (H1 & H2 & H3)] & Hok' & Hst & Ha); try done.
  { rewrite (zlen_pages PS) by done. lia. }
  exists f', pages', iov', iov_ofs', n. split_and!; try done; try lia. unfold ntfs_copy_from_user_iovec. by destruct pages.
Qed.

(** The function for a single buffer leaves the pages as that for vectors does. *)
Theorem copy_from_user_correct {F : Type} {UC : UserCopy F} {user accessible} {UL : UserCopyLaws UC user accessible} PS f pages ofs buf bytes :
  0 <= ofs < PS -> 0 < bytes -> pages <> [] -> Forall (fun p => zlen p = PS) pages -> ofs + bytes <= PS * zlen pages ->
  exists f' pages' n, ntfs_copy_from_user PS f pages ofs buf bytes = Ret (f', pages', n) /\ 0 <= n <= bytes /\
    Forall (fun p => zlen p = PS) pages' /\ length pages' = length pages /\
    concat pages' = splice ofs (take (Z.to_nat n) (ubytes user buf bytes) ++ zeros (bytes - n)) (concat pages) /\ ((forall a, buf <= a < buf + bytes -> accessible a) -> n = bytes).
Proof.
  intros Ho Hb Hne Hps Hr. destruct (copy_pages_spec PS ltac:(lia) pages f ofs buf bytes 0) as (f' & pages' & n & E & [Hn (H1 & H2 & H3)] & Ha); try done.
  { rewrite (zlen_pages PS) by done. lia. }
  exists f', pages', n. split_and!; try done; try lia. unfold ntfs_copy_from_user. by destruct pages.
Qed.

(** ** A user with 100 bytes of memory, of which copies that must not sleep reach two *)

Definition demo_user (a : Z) : Z := a mod 256.
Definition demo_copy (reach : Z) (mem : list Z) (ofs buf len : Z) : list Z * Z :=
  let n := Z.max 0 (Z.min len reach) in (splice ofs (ubytes demo_user buf n ++ zeros (len - n)) mem, len - n).
#[export] Instance demo_uc : UserCopy unit := {
  copy_from_user_inatomic atomic f mem ofs buf len := let '(m, r) := demo_copy (if atomic then Z.min 2 (100 - buf) else 100 - buf) mem ofs buf len in (f, m, r);
  copy_from_user f mem ofs buf len := let '(m, r) := demo_copy (100 - buf) mem ofs buf len in (f, m, r);
}.
#[export] Instance demo_ul : UserCopyLaws demo_uc demo_user (fun a => a < 100).
Proof.
  constructor.
  - intros atomic [] mem ofs buf len H1 H2 H3. set (reach := if atomic then Z.min 2 (100 - buf) else 100 - buf). set (n := Z.max 0 (Z.min len reach)).
    exists tt, (len - n), (zeros (len - n)). split_and!; [|lia..|apply zlen_zeros; lia|].
    + unfold copy_from_user_inatomic, demo_uc, demo_copy. fold reach n. cbv zeta. by replace (len - (len - n)) with n by lia.
    + intros -> Ha. destruct (Z.eqb_spec len 0); [lia|]. specialize (Ha (buf + len - 1)). unfold n, reach. lia.
  - intros [] mem ofs buf len H1 H2 H3. set (n := Z.max 0 (Z.min len (100 - buf))). exists tt, (len - n). split_and!; [|lia..|].
    + unfold copy_from_user, demo_uc, demo_copy. fold n. cbv zeta. by replace (len - (len - n)) with n by lia.
    + intros Ha. destruct (Z.eqb_spec len 0); [lia|]. specialize (Ha (buf + len - 1)). unfold n. lia.
Qed.

(** Seven bytes from two buffers into pages of four bytes; the second buffer ends
    outside of the memory. *)
Lemma copy_iovec_correct_witness :
  exists f' pages' next n, ntfs_copy_from_user_iovec 4 tt [[1; 1; 1; 1]; [1; 1; 1; 1]; [1; 1; 1; 1]] 1 [mk_iov 10 3; mk_iov 98 5] 1 7 = Ret (f', pages', next, n) /\
    n = 4 /\ concat pages' = [1; 11; 12; 98; 99; 0; 0; 0; 1; 1; 1; 1].
Proof.
  destruct (copy_iovec_correct (UC := demo_uc) 4 tt [[1; 1; 1; 1]; [1; 1; 1; 1]; [1; 1; 1; 1]] 1 [mk_iov 10 3; mk_iov 98 5] 1 7) as (f' & pages' & iov' & iov_ofs' & n & E & _ & _ & _ & Hc & _).
  - lia.
  - lia.
  - discriminate.
  - repeat constructor.
  - vm_compute. discriminate.
  - split; [repeat constructor; cbn; lia|]. cbn. lia.
  - vm_compute. discriminate.
  - exists f', pages', (iov', iov_ofs'), n. split; [exact E|]. assert (n = 4) as -> by (vm_compute in E; injection E; intros; subst; reflexivity). split; [reflexivity|]. rewrite Hc. reflexivity.
Defined.

(** The lengths are kept in an [unsigned]: with a segment of 4 GiB the position never
    advances. *)
Example large_segment_never_returns : ntfs_set_next_iovec [mk_iov 0 0x100000000] 0 10 = Diverge.
Proof. reflexivity. Qed.
