(* ===== verification/VolFlags.v ===== *)
(** * The volume flags

    Models [ntfs_write_volume_flags], [ntfs_set_volume_flags],
    [ntfs_clear_volume_flags] and [ntfs_remount] of [src/ntfs/super.c], with
    [mark_mft_record_dirty] of [mft.h] and [mft.c]: the flags of the volume are kept
    in memory and in the $VOLUME_INFORMATION attribute of $Volume; the dirty flag is
    set while the volume is mounted for writing.

    The page cache of $MFT, an argument of the other components, is state here. *)

From Stdlib Require Import ZArith Lia Bool.
From stdpp Require Import base list numbers option strings gmap.
From S2P Require Import Prelude Endian Unistr Attrib MftMap AttrLookup Options.

Definition AT_VOLUME_INFORMATION : Z := 0x70.
Definition VI_major_ver : Z := 8.
Definition VI_minor_ver : Z := 9.
Definition VI_flags : Z := 10.
Definition VOLUME_IS_DIRTY : Z := 0x0001.
Definition VOLUME_DELETE_USN_UNDERWAY : Z := 0x0010.
Definition VOLUME_MODIFIED_BY_CHKDSK : Z := 0x8000.
Definition VOLUME_FLAGS_MASK : Z := 0xc03f.
Definition VOLUME_MUST_MOUNT_RO_MASK : Z := 0xc027.
Definition EROFS : Z := 30.

(** The inodes, the pages of $MFT in the page cache, the inodes whose mft record is
    dirty ([NI_Dirty]), the VFS inodes that are dirty, and [vol->vol_flags]. *)
Record vstate := mk_vs {
  vs_w : world;
  vs_pages : Z -> Z + (list Z * bool);
  vs_dirty_recs : list ptr;
  vs_dirty_inodes : list ptr;
  vs_flags : Z;
}.

Definition V (A : Type) : Type := vstate -> outcome (vstate * A).
#[export] Instance V_ret : MRet V := fun A a s => Ret (s, a).
#[export] Instance V_bind : MBind V := fun A B f m s => '(s, a) ← m s; f a s.

Definition set_w (w : world) (s : vstate) : vstate := mk_vs w (vs_pages s) (vs_dirty_recs s) (vs_dirty_inodes s) (vs_flags s).
(** An operation on the inodes, which reads the pages there are. *)
Definition on_w {A} (f : (Z -> Z + (list Z * bool)) -> M A) : V A := fun s => '(w, a) ← f (vs_pages s) (vs_w s); Ret (set_w w s, a).
Definition vlift {A} (o : outcome A) : V A := fun s => a ← o; Ret (s, a).
Definition vget {A} (f : vstate -> A) : V A := fun s => Ret (s, f s).
Definition vset (f : vstate -> vstate) : V unit := fun s => Ret (f s, tt).

(** The bytes at an offset of a page. *)
Definition write_page (pages : Z -> Z + (list Z * bool)) (index ofs : Z) (bytes : list Z) (n : Z) : Z + (list Z * bool) :=
  if n =? index then match pages n with inr (data, err) => inr (splice ofs bytes data, err) | inl e => inl e end else pages n.

(** The mft record of the inode, which is mapped, becomes [m]. *)
Definition store_mrec (p : ptr) (m : list Z) : V unit :=
  i ← on_w (fun _ => get p);
  match page i with
  | None => vlift Fault
  | Some index => vset (fun s => mk_vs (vs_w s) (write_page (vs_pages s) index (page_ofs i) m) (vs_dirty_recs s) (vs_dirty_inodes s) (vs_flags s))
  end.

(** [ni] itself, or the base inode of an extent. *)
Definition base_of (ni : ptr) (i : ntfs_inode) : M ptr :=
  if nr_extents i >=? 0 then mret ni else match ni_ext i with Base b => mret b | Extents _ => crash end.

(** The inode that [__mark_mft_record_dirty] marks dirty. *)
Definition dirty_base (ni : ptr) : M ptr :=
  lock_extent ni;;
  i ← get ni;
  base ← base_of ni i;
  unlock_extent ni;;
  mret base.

(** The inodes of this state are base and extent inodes, never fake attribute inodes, so
    [BUG_ON(NInoAttr(ni))] does not fire; the page and the buffers of the record are
    dirty when the inode is in [vs_dirty_recs]. *)
Definition mark_mft_record_dirty (ni : ptr) : V unit :=
  dirty ← vget (fun s => bool_decide (ni ∈ vs_dirty_recs s));
  if (dirty : bool) then mret tt
  else
    vset (fun s => mk_vs (vs_w s) (vs_pages s) (ni :: vs_dirty_recs s) (vs_dirty_inodes s) (vs_flags s));;
    base ← on_w (fun _ => dirty_base ni);
    vset (fun s => mk_vs (vs_w s) (vs_pages s) (vs_dirty_recs s) (if bool_decide (base ∈ vs_dirty_inodes s) then vs_dirty_inodes s else base :: vs_dirty_inodes s) (vs_flags s)).

Section Flags.
Context (upcase : list Z) (upcase_len : Z) (mft_size mft_record_size_bits PAGE_CACHE_SHIFT : Z).
(** [NTFS_I(vol->vol_ino)] *)
Context (vol_ino : option ptr).

(** The label [put_unm_err_out]. *)
Definition put_unm_err_out (ctx : option ntfs_attr_search_ctx) (ni : ptr) (err : Z) : V Z :=
  on_w (fun _ => match ctx with Some c => ntfs_attr_put_search_ctx c | None => mret tt end);;
  on_w (fun _ => unmap_mft_record ni);;
  mret err.

(** The lookup of $VOLUME_INFORMATION. *)
Definition lookup_volume_information (c : ntfs_attr_search_ctx) : V (ntfs_attr_search_ctx * Z) :=
  on_w (fun pages => ntfs_attr_lookup upcase upcase_len pages mft_size mft_record_size_bits PAGE_CACHE_SHIFT (mk_search AT_VOLUME_INFORMATION None 0 CASE_SENSITIVE 0 None 0) c).

(** The attribute was found: the flags are replaced. *)
Definition replace_flags (c : ntfs_attr_search_ctx) (flags : Z) : V unit :=
  value_offset ← vlift (rd_le16 (mrec c) (attr c + A_value_offset));
  m ← vlift (wr_le16 (mrec c) (attr c + value_offset + VI_flags) flags);
  store_mrec (ntfs_ino c) m;;
  vset (fun s => mk_vs (vs_w s) (vs_pages s) (vs_dirty_recs s) (vs_dirty_inodes s) flags);;
  mark_mft_record_dirty (ntfs_ino c).

Definition ntfs_write_volume_flags (flags : Z) : V Z :=
  old ← vget vs_flags;
  if old =? flags then mret 0
  else
    match vol_ino with
    | None => vlift Bug
    | Some ni =>
        m ← on_w (fun pages => map_mft_record pages mft_size mft_record_size_bits PAGE_CACHE_SHIFT ni);
        match m with
        | inl err => mret err
        | inr m =>
            ctx ← on_w (fun _ => ntfs_attr_get_search_ctx ni m);
            match ctx with
            | None => put_unm_err_out None ni (- ENOMEM)
            | Some c =>
                '(c, err) ← lookup_volume_information c;
                if negb (err =? 0) then put_unm_err_out (Some c) ni err
                else
                  replace_flags c flags;;
                  on_w (fun _ => ntfs_attr_put_search_ctx c);;
                  on_w (fun _ => unmap_mft_record ni);;
                  mret 0
            end
        end
    end.

Definition ntfs_set_volume_flags (flags : Z) : V Z :=
  let flags := Z.land flags VOLUME_FLAGS_MASK in
  old ← vget vs_flags;
  ntfs_write_volume_flags (Z.lor old flags).

Definition ntfs_clear_volume_flags (flags : Z) : V Z :=
  let flags := Z.land flags VOLUME_FLAGS_MASK in
  old ← vget vs_flags;
  ntfs_write_volume_flags (Z.land old (u16 (Z.lnot flags))).

(** ** ntfs_remount *)

Context {nls : Type} `{EqDecision nls} (load_nls : string -> option nls) (load_nls_default : option nls) (make_kuid make_kgid : Z -> Z).
(** The functions of [logfile.c], [quota.c] and [usnjrnl.c], which are not in the
    repository: whether they succeed. *)
Context (ntfs_empty_logfile ntfs_mark_quotas_out_of_date ntfs_stamp_usnjrnl : vstate -> bool).

(** The superblock: the volume, whether [MS_RDONLY] is set, the options. *)
Record super := mk_super { sb_fs : vstate; sb_rdonly : bool; sb_opts : opt_volume nls }.

Definition set_errors_flag (s : vstate) : vstate := set_w (mk_world (inodes (vs_w s)) (pinned (vs_w s)) true (allocs (vs_w s))) s.

(** "Remounting read-write" *)
Definition remount_rw (s : vstate) : outcome (vstate * Z) :=
  if vol_errors (vs_w s) then Ret (s, - EROFS)
  else if negb (Z.land (vs_flags s) VOLUME_IS_DIRTY =? 0) then Ret (s, - EROFS)
  else if negb (Z.land (vs_flags s) VOLUME_MODIFIED_BY_CHKDSK =? 0) then Ret (s, - EROFS)
  else if negb (Z.land (vs_flags s) VOLUME_MUST_MOUNT_RO_MASK =? 0) then Ret (s, - EROFS)
  else
    '(s, err) ← ntfs_set_volume_flags VOLUME_IS_DIRTY s;
    if negb (err =? 0) then Ret (s, - EROFS)
    else if negb (ntfs_empty_logfile s) then Ret (set_errors_flag s, - EROFS)
    else if negb (ntfs_mark_quotas_out_of_date s) then Ret (set_errors_flag s, - EROFS)
    else if negb (ntfs_stamp_usnjrnl s) then Ret (set_errors_flag s, - EROFS)
    else Ret (s, 0).

(** "Remounting read-only" *)
Definition remount_ro (s : vstate) : outcome vstate :=
  if vol_errors (vs_w s) then Ret s
  else '(s, _) ← ntfs_clear_volume_flags VOLUME_IS_DIRTY s; Ret s.

(** [rdonly] is [MS_RDONLY] in the flags of the remount. *)
Definition ntfs_remount (rdonly : bool) (opt : option string) (sb : super) : outcome (super * Z) :=
  '(s, err) ← (if sb_rdonly sb && negb rdonly then remount_rw (sb_fs sb)
               else if negb (sb_rdonly sb) && rdonly then s ← remount_ro (sb_fs sb); Ret (s, 0)
               else Ret (sb_fs sb, 0));
  if negb (err =? 0) then Ret (mk_super s (sb_rdonly sb) (sb_opts sb), err)
  else
    let p := parse_options load_nls load_nls_default make_kuid make_kgid (sb_opts sb) opt in
    Ret (mk_super s (sb_rdonly sb) (p_vol p), if p_ok p then 0 else - EINVAL).

(** The VFS sets the flags of the superblock when the file system returns 0. *)
Definition do_remount (rdonly : bool) (opt : option string) (sb : super) : outcome (super * Z) :=
  '(sb, err) ← ntfs_remount rdonly opt sb;
  Ret (if err =? 0 then mk_super (sb_fs sb) rdonly (sb_opts sb) else sb, err).
End Flags.
