(* ===== verification/VolFlagsTheorems.v ===== *)
(** * The volume flags: theorems

    Replacing the flags changes their two bytes of the mft record of $Volume and
    nothing else, and along every sequence of remounts the dirty flag is set in the
    record while the volume is mounted for writing. *)

From Stdlib Require Import ZArith Lia Bool.
From stdpp Require Import base list numbers option strings gmap.
From S2P Require Import Prelude Endian Unistr UnistrTheorems Collate Attrib AttribSpec AttribTheorems MftMap MftMapSpec AttrLookup AttrLookupProof AttrSession Options VolFlags.

#[local] Open Scope list_scope.
#[local] Open Scope Z_scope.

(** ** Reading next to what was written *)

Section Read.
Context (mem d : list Z) (p : Z).
Hypothesis Hp : 0 <= p.
Hypothesis Hd : p + zlen d <= zlen mem.

Lemma rd_bytes_out n x : x + Z.of_nat n <= p \/ p + zlen d <= x -> rd_bytes n (splice p d mem) x = rd_bytes n mem x.
Proof using Hp Hd.
  intros Hx. unfold rd_bytes. rewrite zlen_splice by done. destruct (Z.leb_spec 0 x); [|done]. destruct (Z.leb_spec (x + Z.of_nat n) (zlen mem)); [|done]. cbn [andb]. f_equal.
  destruct (cut_at mem p (zlen d) Hp (zlen_nonneg d) Hd) as (a & b & c & -> & <- & Hb). rewrite splice_parts by done. unfold zlen in *. destruct Hx as [Hx|Hx].
  - rewrite !drop_app_le, !take_app_le by (rewrite ?length_drop; lia). done.
  - rewrite !(app_assoc a), !drop_app_ge by (rewrite length_app; lia). do 2 f_equal. rewrite !length_app. lia.
Qed.

Lemma rd_out x : x < p \/ p + zlen d <= x -> rd (splice p d mem) x = rd mem x.
Proof using Hp Hd.
  intros Hx. unfold rd. destruct (Z.ltb_spec x 0); [done|]. assert (Ex : splice p d mem !! Z.to_nat x = mem !! Z.to_nat x); [|by rewrite Ex].
  destruct (cut_at mem p (zlen d) Hp (zlen_nonneg d) Hd) as (a & b & c & -> & <- & Hb). rewrite splice_parts by done. unfold zlen in *. destruct Hx as [Hx|Hx].
  - by rewrite !lookup_app_l by lia.
  - rewrite !(app_assoc a), !lookup_app_r by (rewrite length_app; lia). f_equal. rewrite !length_app. lia.
Qed.

Lemma rd_le16_out x : x + 2 <= p \/ p + zlen d <= x -> rd_le16 (splice p d mem) x = rd_le16 mem x.
Proof using Hp Hd. intros Hx. unfold rd_le16. by rewrite rd_bytes_out by done. Qed.
Lemma rd_le32_out x : x + 4 <= p \/ p + zlen d <= x -> rd_le32 (splice p d mem) x = rd_le32 mem x.
Proof using Hp Hd. intros Hx. unfold rd_le32. by rewrite rd_bytes_out by done. Qed.

Lemma rd_bytes_in : rd_bytes (length d) (splice p d mem) p = Ret d.
Proof using Hp Hd.
  destruct (cut_at mem p (zlen d) Hp (zlen_nonneg d) Hd) as (a & b & c & -> & <- & Hb). rewrite splice_parts by done. by apply (rd_bytes_at _ _ a d c).
Qed.

Lemma wr_bytes_splice : wr_bytes mem p d = Ret (splice p d mem).
Proof using Hp Hd.
  destruct (cut_at mem p (zlen d) Hp (zlen_nonneg d) Hd) as (a & b & c & -> & <- & Hb). rewrite splice_parts by done. by apply (wr_bytes_at _ a b c).
Qed.
End Read.

(** ** The record of $Volume *)

(** Attributes without name whose header is complete. *)
Definition plain_attr (b : AttribSpec.attr) : Prop := at_name b = [] /\ at_value b = None /\ 24 <= at_length b.

(** Their headers are not touched by a write into the value of one of them. *)
Lemma attr_at_out mem p d o b : 0 <= p -> p + zlen d <= zlen mem -> plain_attr b -> 0 <= o -> o + 24 <= p \/ p + zlen d <= o -> attr_at mem o b -> attr_at (splice p d mem) o b.
Proof.
  intros Hp Hd (Hn & Hv & _) Ho Hx (H1 & H2 & H3 & H4 & H5 & H6 & (no & rest & H7 & H8) & _). unfold attr_at. rewrite Hn, Hv in *.
  unfold rd_u8 in *. rewrite !rd_le32_out, rd_out by (unfold A_type, A_length, A_name_length; lia). split_and!; try done.
  exists no, (ntfschars_at (splice p d mem) (o + no)). split; [|done]. rewrite rd_le16_out by (unfold A_name_offset; lia). done.
Qed.

Lemma attrs_at_before mem ba l : forall off p d, 0 <= p -> p + zlen d <= zlen mem -> Forall plain_attr l -> p + zlen d <= off -> attrs_at mem ba off l -> attrs_at (splice p d mem) ba off l.
Proof.
  induction l as [|b l IH]; intros off p d Hp Hd Hpl Ho; cbn [attrs_at].
  - intros [H1 H2]. split; [done|]. rewrite rd_le32_out by (unfold A_type; lia). done.
  - apply list.Forall_cons in Hpl as [Hb Hpl]. pose proof (zlen_nonneg d). intros (H1 & H2 & H3). split; [done|]. split; [apply attr_at_out; try done; lia|]. apply IH; try done. destruct Hb as (_ & _ & Hb). lia.
Qed.

Lemma attrs_at_value mem ba l1 b l2 : forall off p d, 0 <= p -> p + zlen d <= zlen mem -> Forall plain_attr (l1 ++ b :: l2) ->
  off + total l1 + 24 <= p -> p + zlen d <= off + total l1 + at_length b -> attrs_at mem ba off (l1 ++ b :: l2) -> attrs_at (splice p d mem) ba off (l1 ++ b :: l2).
Proof.
  induction l1 as [|a l1 IH]; intros off p d Hp Hd Hpl H1 H2; cbn [app attrs_at total fold_right] in *.
  - apply list.Forall_cons in Hpl as [Hb Hpl]. rewrite Z.add_0_r in *. intros (H3 & H4 & H5). split; [done|]. split; [apply attr_at_out; try done; lia|]. apply attrs_at_before; try done; lia.
  - fold (total l1) in *. apply list.Forall_cons in Hpl as [Ha Hpl]. assert (Ht : 0 <= total l1).
    { apply Forall_app in Hpl as [Hpl _]. clear -Hpl. induction Hpl as [|x l (_ & _ & Hx) _ IHl]; [done|]. cbn. fold (total l). lia. }
    intros (H3 & H4 & H5). split; [done|]. split; [apply attr_at_out; try done; destruct Ha as (_ & _ & Ha); lia|]. apply IH; try done; lia.
Qed.

Lemma V_run {A B} (m : V A) (f : A -> V B) s s' a : m s = Ret (s', a) -> (m ≫= f) s = f a s'.
Proof. unfold mbind, V_bind. by intros ->. Qed.
Lemma on_w_run {A} (f : (Z -> Z + (list Z * bool)) -> M A) s w a : f (vs_pages s) (vs_w s) = Ret (w, a) -> on_w f s = Ret (set_w w s, a).
Proof. unfold on_w. by intros ->. Qed.
Lemma vlift_run {A} (o : outcome A) s a : o = Ret a -> vlift o s = Ret (s, a).
Proof. unfold vlift. by intros ->. Qed.

(** Marking the record of a base inode dirty. *)
Lemma mark_dirty_run ni i s : inodes (vs_w s) !! ni = Some i -> extent_lock i = false -> nr_extents i >= 0 -> exists recs inos,
  mark_mft_record_dirty ni s = Ret (mk_vs (vs_w s) (vs_pages s) recs inos (vs_flags s), tt) /\ ni ∈ recs.
Proof.
  intros Hi Hl Hn. unfold mark_mft_record_dirty. rewrite (V_run _ _ s s (bool_decide (ni ∈ vs_dirty_recs s))) by done. destruct (decide (ni ∈ vs_dirty_recs s)) as [Hd|Hd].
  - rewrite bool_decide_true by done. exists (vs_dirty_recs s), (vs_dirty_inodes s). split; [by destruct s|done].
  - rewrite bool_decide_false by done. erewrite V_run by reflexivity. set (s1 := mk_vs _ _ _ _ _).
    assert (E : dirty_base ni (vs_w s1) = Ret (vs_w s1, ni)).
    { unfold dirty_base. rewrite (M_run _ _ _ (upd (vs_w s) ni (set_extent_lock true i)) tt) by (by apply lock_extent_eq). rewrite (M_run _ _ _ _ _ (get_eq _ ni _ (upd_lookup _ _ _))).
      unfold base_of. rewrite (proj2 (Z.geb_le _ _)) by (cbn; lia). erewrite M_run by reflexivity. unfold unlock_extent. erewrite M_run by (apply modify_eq, upd_lookup). rewrite upd_upd. unfold mret, M_ret. do 2 f_equal.
      cbn [vs_w s1]. rewrite <- (upd_same (vs_w s) ni i) at 2 by done. f_equal. destruct i; cbn in *; by subst. }
    rewrite (V_run _ _ s1 (set_w (vs_w s1) s1) ni) by (by apply (on_w_run _ s1)). eexists _, _. split; [reflexivity|]. cbn. set_solver.
Qed.

Section Volume.
Context (upcase : list Z) (upcase_len : Z) (mft_size bits shift : Z).
Hypothesis Htab : table_ok upcase upcase_len.
Hypothesis Hbits : 8 <= bits <= shift.
Hypothesis Hshift : shift < 31.

(** The attributes of the record, $VOLUME_INFORMATION being the one between [l1] and
    [l2], with its value at [vo]. *)
Record layout := mk_layout { ly_alloc : Z; ly_off : Z; ly_before : list AttribSpec.attr; ly_info : AttribSpec.attr; ly_after : list AttribSpec.attr; ly_vo : Z }.
Definition ly_attrs (y : layout) := ly_before y ++ ly_info y :: ly_after y.
Definition ly_pos (y : layout) := ly_off y + total (ly_before y).
Definition ly_flags (y : layout) := ly_pos y + ly_vo y + VI_flags.

Record volume_record (y : layout) (m : list Z) (flags : Z) : Prop := {
  vr_alloc : rd_le32 m MFT_bytes_allocated = Ret (ly_alloc y);
  vr_first : first_attr m = Ret (ly_off y);
  vr_head : 32 <= ly_off y;
  vr_at : attrs_at m (ly_alloc y) (ly_off y) (ly_attrs y);
  vr_sorted : attrs_sorted upcase upcase_len (ly_attrs y);
  vr_plain : Forall plain_attr (ly_attrs y);
  vr_type : at_type (ly_info y) = AT_VOLUME_INFORMATION;
  vr_only : forall b, b ∈ ly_before y -> at_type b <> AT_VOLUME_INFORMATION;
  vr_vo : rd_le16 m (ly_pos y + A_value_offset) = Ret (ly_vo y);
  vr_room : 24 <= ly_vo y /\ ly_vo y + 12 <= at_length (ly_info y);
  vr_size : ly_pos y + at_length (ly_info y) <= zlen m;
  vr_flags : rd_le16 m (ly_flags y) = Ret flags;
}.

Lemma total_nonneg l : Forall plain_attr l -> 0 <= total l.
Proof using Type. induction 1 as [|x l (_ & _ & Hx) _ IHl]; [done|]. cbn. fold (total l). lia. Qed.

Lemma volume_record_find y m flags : volume_record y m flags -> first_at (ly_attrs y) AT_VOLUME_INFORMATION (ly_off y) (ly_pos y).
Proof using Type.
  intros [_ _ _ _ _ Hpl Ht Ho _ _ _ _]. exists (ly_before y), (ly_info y), (ly_after y). split_and!; try done.
  - unfold ly_attrs in Hpl. apply Forall_app in Hpl as [_ Hpl]. apply list.Forall_cons in Hpl as [(Hn & _) _]. done.
  - intros b Hb [Hbt _]. by apply (Ho b).
Qed.

(** Other flags are written into the record. *)
Lemma volume_record_write y m flags flags' : volume_record y m flags -> 0 <= flags' < 0x10000 ->
  wr_le16 m (ly_flags y) flags' = Ret (splice (ly_flags y) (le_split 2 flags') m) /\ volume_record y (splice (ly_flags y) (le_split 2 flags') m) flags'.
Proof using Type.
  intros [H1 H2 H3 H4 H5 H6 H7 H8 H9 [H10 H11] H12 H13] Hf. pose proof (zlen_le_split 2 flags') as Hz. change (Z.of_nat 2) with 2 in Hz.
  assert (Ht : 0 <= total (ly_before y)) by (apply total_nonneg; unfold ly_attrs in H6; by apply Forall_app in H6 as [? _]).
  assert (Hp : ly_off y <= ly_pos y) by (unfold ly_pos; lia). assert (Hin : ly_flags y + 2 <= zlen m /\ ly_pos y + 24 <= ly_flags y) by (unfold ly_flags, VI_flags; lia).
  split; [apply wr_bytes_splice; lia|].
  constructor; try done; rewrite ?zlen_splice by lia; try done.
  - rewrite rd_le32_out; [done|lia|lia|]. left. unfold MFT_bytes_allocated. lia.
  - unfold first_attr. rewrite rd_le16_out; [done|lia|lia|]. left. unfold MFT_attrs_offset. lia.
  - apply attrs_at_value; try done; try lia; unfold ly_flags, ly_pos, VI_flags in *; lia.
  - rewrite rd_le16_out; [done|lia|lia|]. left. unfold A_value_offset. lia.
  - unfold rd_le16. pose proof (rd_bytes_in m (le_split 2 flags') (ly_flags y) ltac:(lia) ltac:(lia)) as E. rewrite length_le_split in E. rewrite E, bind_Ret, le_combine_split. f_equal. apply Z.mod_small. done.
Qed.

(** ** The volume *)

Definition pages_ok (pages : Z -> Z + (list Z * bool)) : Prop := forall n data err, pages n = inr (data, err) -> zlen data = page_size shift /\ Forall byte_ok data.

(** Nobody has the record of $Volume mapped, it can be read, and it holds the flags
    that are in memory. *)
Definition vol_ok (y : layout) (vi : ptr) (s : vstate) : Prop :=
  pages_ok (vs_pages s) /\ 0 <= vs_flags s < 0x10000 /\
  exists i inos m, base_ok (vs_w s) vi i inos /\ idle i /\ attr_list i = None /\ record_is (vs_pages s) mft_size bits shift (mft_no i) m /\ volume_record y m (vs_flags s).

(** A record in its page. *)
Lemma record_in_page pages no m : pages_ok pages -> record_is pages mft_size bits shift no m -> exists a c, pages (rec_page bits shift no) = inr (a ++ m ++ c, false) /\ zlen a = rec_ofs bits shift no /\
  zlen m = mft_record_size bits /\ Forall byte_ok m.
Proof using Hbits Hshift.
  intros Hok (_ & data & Hd & _ & ->). destruct (Hok _ _ _ Hd) as [Hz Hb]. pose proof (rec_ofs_bound bits shift Hbits Hshift no) as [H1 H2].
  destruct (cut_at data (rec_ofs bits shift no) (mft_record_size bits)) as (a & b & c & -> & Ha & Hm); [done|unfold mft_record_size; lia|lia|].
  assert (E : record_at bits (a ++ b ++ c) (rec_ofs bits shift no) = b).
  { unfold record_at. rewrite <- Ha, <- Hm. unfold zlen. by rewrite !Nat2Z.id, drop_app_length, take_app_length. }
  rewrite E. exists a, c. split_and!; try done. apply Forall_app in Hb as [_ Hb]. by apply Forall_app in Hb as [Hb _].
Qed.

(** Storing the record with other bytes from [p] on. *)
Lemma record_store pages no m p d : pages_ok pages -> record_is pages mft_size bits shift no m -> 4 <= p -> p + zlen d <= zlen m -> Forall byte_ok d ->
  let pages' := write_page pages (rec_page bits shift no) (rec_ofs bits shift no) (splice p d m) in
  pages_ok pages' /\ record_is pages' mft_size bits shift no (splice p d m).
Proof using Hbits Hshift.
  intros Hok Hrec Hp Hd Hbd pages'. destruct (record_in_page _ _ _ Hok Hrec) as (a & c & Hpg & Ha & Hm & Hbm). destruct Hrec as (Hin & data & Hdata & Hmagic & _).
  rewrite Hpg in Hdata. injection Hdata as <-. destruct (Hok _ _ _ Hpg) as [Hz Hb].
  assert (Enew : pages' (rec_page bits shift no) = inr (a ++ splice p d m ++ c, false)).
  { unfold pages', write_page. rewrite Z.eqb_refl, Hpg. do 2 f_equal. rewrite <- Ha. apply splice_parts. apply zlen_splice; lia. }
  assert (Hbs : Forall byte_ok (splice p d m)) by (unfold splice; rewrite !Forall_app; split_and!; [by apply Forall_take|done|by apply Forall_drop]).
  split.
  - intros n data err. destruct (Z.eqb_spec n (rec_page bits shift no)) as [->|Hn].
    + rewrite Enew. intros [= <- <-]. rewrite !zlen_app, zlen_splice by lia. rewrite !zlen_app in Hz. split; [done|]. rewrite !Forall_app in *. naive_solver.
    + unfold pages', write_page. rewrite (proj2 (Z.eqb_neq _ _)) by done. apply Hok.
  - split; [done|]. exists (a ++ splice p d m ++ c). split_and!; [done| |].
    + revert Hmagic. unfold ntfs_is_mft_recordp, ntfs_is_magicp. assert (E : a ++ splice p d m ++ c = splice (zlen a + p) d (a ++ m ++ c)).
      { destruct (cut_at m p (zlen d) ltac:(lia) (zlen_nonneg d) Hd) as (m1 & old & m2 & -> & <- & Ho). rewrite splice_parts by done. rewrite <- zlen_app. replace (a ++ (m1 ++ old ++ m2) ++ c) with ((a ++ m1) ++ old ++ (m2 ++ c)) by (by rewrite <- !app_assoc).
        rewrite splice_parts by done. by rewrite <- !app_assoc. }
      rewrite E, rd_le32_out; [done|pose proof (zlen_nonneg a); lia|rewrite !zlen_app; pose proof (zlen_nonneg c); lia|lia].
    + unfold record_at. rewrite <- Ha, <- Hm, <- (zlen_splice p d m) by lia. unfold zlen. by rewrite !Nat2Z.id, drop_app_length, take_app_length.
Qed.


(** What a call leaves: inodes, pins and errors as they were. *)
Definition kept (w w' : world) : Prop := inodes w' = inodes w /\ pinned w' = pinned w /\ vol_errors w' = vol_errors w.

(** Everything up to the unmapping; [w1] is the world with the record mapped. *)
Lemma unmap_kept w w1 vi i m : inodes w !! vi = Some i -> idle i -> kept (after_map bits shift w vi i (inr m) false) w1 ->
  exists w', unmap_mft_record vi w1 = Ret (w', tt) /\ kept w w'.
Proof using Type.
  intros Hi Hid (H1 & H2 & H3). eexists. split; [apply (unmap_record_spec bits shift w1 vi i); [rewrite H1; cbn; apply lookup_insert_eq|done]|].
  unfold kept. cbn -[unpin]. rewrite H1, H2, H3. cbn -[unpin]. rewrite unpin_cons, insert_insert_eq, insert_id by done. done.
Qed.

Lemma base_ok_kept w w' vi i inos : kept w w' -> base_ok w vi i inos -> base_ok w' vi i inos.
Proof using Type. intros (Hk & _) [H1 H2 H3 H4 H5]. constructor; rewrite ?Hk; try done. Qed.

Definition written (y : layout) (vi : ptr) (s s' : vstate) (flags err : Z) : Prop :=
  vol_ok y vi s' /\ kept (vs_w s) (vs_w s') /\
  (err = 0 /\ vs_flags s' = flags /\ (flags <> vs_flags s -> vi ∈ vs_dirty_recs s') \/ err = - ENOMEM /\ vs_flags s' = vs_flags s /\ vs_pages s' = vs_pages s).

Lemma replace_flags_run y vi s i m flags o : 0 <= flags < 0x10000 -> inodes (vs_w s) !! vi = Some (mapped bits shift i) -> extent_lock i = false -> nr_extents i >= 0 -> volume_record y m (vs_flags s) -> o = ly_pos y ->
  exists recs inos, replace_flags (mk_ctx m o false vi None None None None) flags s =
    Ret (mk_vs (vs_w s) (write_page (vs_pages s) (rec_page bits shift (mft_no i)) (rec_ofs bits shift (mft_no i)) (splice (ly_flags y) (le_split 2 flags) m)) recs inos flags, tt) /\ vi ∈ recs.
Proof using Type.
  intros Hf Hi Hl Hn Hv ->. unfold replace_flags. cbn [mrec attr ntfs_ino]. rewrite (V_run _ _ s s (ly_vo y)) by (apply vlift_run; apply Hv). fold (ly_flags y).
  destruct (volume_record_write y m (vs_flags s) flags Hv Hf) as [Ew _]. rewrite (V_run _ _ s s _ (vlift_run _ s _ Ew)).
  rewrite (V_run _ _ s (mk_vs (vs_w s) (write_page (vs_pages s) (rec_page bits shift (mft_no i)) (rec_ofs bits shift (mft_no i)) (splice (ly_flags y) (le_split 2 flags) m)) (vs_dirty_recs s) (vs_dirty_inodes s) (vs_flags s)) tt).
  2: { unfold store_mrec. rewrite (V_run _ _ s _ _ (on_w_run _ s _ _ (get_eq (vs_w s) vi _ Hi))). by destruct s. }
  erewrite V_run by reflexivity.
  eapply mark_dirty_run; [exact Hi|done|done].
Qed.

Lemma write_flags_spec y vi s flags : vol_ok y vi s -> 0 <= flags < 0x10000 -> exists s' err,
  ntfs_write_volume_flags upcase upcase_len mft_size bits shift (Some vi) flags s = Ret (s', err) /\ written y vi s s' flags err.
Proof using Htab Hbits Hshift.
  intros (Hok & Hfl & i & inos & m & Hb & Hid & Hal & Hrec & Hv) Hf. unfold ntfs_write_volume_flags. erewrite V_run by reflexivity. destruct (Z.eqb_spec (vs_flags s) flags) as [<-|Hne].
  { exists s, 0. split; [done|]. split; [by split_and!; [done|lia|lia|exists i, inos, m]|]. split; [done|]. left. by split_and!. }
  pose proof (bo_base _ _ _ _ Hb) as Hi. pose proof (bo_lock _ _ _ _ Hb) as Hl. assert (Hn : nr_extents i >= 0) by (rewrite (bo_nr _ _ _ _ Hb); pose proof (zlen_nonneg inos); lia).
  destruct (map_record_spec (vs_pages s) mft_size bits shift Hbits Hshift ltac:(intros; by eapply Hok) (vs_w s) vi i Hi Hid) as (r & errs & Hr & Em).
  destruct Hr as [m' Hrec' _|e errs Hno]; [|by destruct (Hno m)]. assert (m' = m) as ->. { destruct Hrec as (_ & d & H1 & _ & ->), Hrec' as (_ & d' & H2 & _ & ->). congruence. }
  set (w1 := after_map bits shift (vs_w s) vi i (inr m) false) in *. erewrite V_run by (apply (on_w_run _ s); exact Em). cbv beta iota.
  destruct (get_ctx_any w1 vi m (ly_off y)) as (w2 & H1 & H2 & H3 & Hc); [apply Hv|]. assert (Hk : kept w1 w2) by done.
  destruct (unmap_kept (vs_w s) w2 vi i m Hi Hid Hk) as (w' & Eu & Hk').
  destruct Hc as [Ec|[_ Ec]]; erewrite V_run by (apply (on_w_run _ (set_w w1 s)); exact Ec); cbv beta iota.
  - assert (Hi2 : inodes w2 !! vi = Some (mapped bits shift i)) by (rewrite H1; cbn; by rewrite lookup_insert_eq).
    destruct (base_lookup_run upcase upcase_len Htab m (ly_alloc y) (ly_off y) (ly_attrs y) (vr_alloc _ _ _ Hv) (vr_at _ _ _ Hv) (vr_sorted _ _ _ Hv) (vs_pages s) mft_size bits shift AT_VOLUME_INFORMATION w2 vi _ ltac:(done) ltac:(done) Hi2 Hal)
      as (o & err & El & Ho & _). destruct (Ho _ (volume_record_find _ _ _ Hv)) as [-> ->].
    erewrite V_run by (apply (on_w_run _ (set_w w2 (set_w w1 s))); exact El). cbn [Z.eqb negb].
    destruct (replace_flags_run y vi (set_w w2 (set_w w2 (set_w w1 s))) i m flags (ly_pos y) Hf Hi2 Hl Hn Hv eq_refl) as (recs & dino & Er & Hd). rewrite (V_run _ _ _ _ _ Er). cbn [vs_w set_w vs_pages].
    erewrite V_run by (apply on_w_run; reflexivity). erewrite V_run by (apply on_w_run; exact Eu). cbn [set_w vs_pages vs_dirty_recs vs_dirty_inodes vs_flags].
    eexists _, 0. split; [reflexivity|]. assert (Hz : zlen (le_split 2 flags) = 2) by apply zlen_le_split.
    destruct (volume_record_write y m (vs_flags s) flags Hv Hf) as [_ Hv'].
    destruct (record_store (vs_pages s) (mft_no i) m (ly_flags y) (le_split 2 flags) Hok Hrec) as [Hok' Hrec''].
    { destruct Hv as [_ _ Hh _ _ Hpl _ _ _ [Hr1 _] _ _]. pose proof (total_nonneg (ly_before y)). unfold ly_flags, ly_pos, VI_flags. unfold ly_attrs in Hpl. apply Forall_app in Hpl as [Hpl _]. specialize (H Hpl). lia. }
    { destruct Hv as [_ _ _ _ _ _ _ _ _ [_ Hr2] Hsz _]. rewrite Hz. unfold ly_flags, VI_flags. lia. } { apply le_split_bytes. }
    split; [|split; [exact Hk'|]]; [split_and!; [done|cbn; lia|cbn; lia|exists i, inos, (splice (ly_flags y) (le_split 2 flags) m)]; cbn [vs_w vs_pages vs_flags]; split_and!; try done; by eapply base_ok_kept|].
    left. by split_and!.
  - unfold put_unm_err_out. erewrite V_run by (apply on_w_run; reflexivity). erewrite V_run by (apply on_w_run; exact Eu). eexists _, (- ENOMEM). split; [reflexivity|]. cbn [set_w vs_w vs_pages vs_flags].
    split; [|split; [exact Hk'|right; done]]. split_and!; [done|cbn; lia|cbn; lia|]. exists i, inos, m. cbn [vs_w vs_pages vs_flags]. split_and!; try done. by eapply base_ok_kept.
Qed.
End Volume.

(** ** Remounting *)

Lemma bits16 x : 0 <= x < 0x10000 <-> Z.land x (Z.ones 16) = x.
Proof.
  rewrite Z.land_ones by lia. change (2 ^ 16) with 0x10000. split; [apply Z.mod_small|]. intros <-. apply Z.mod_pos_bound. lia.
Qed.
Lemma lor16 x y : 0 <= x < 0x10000 -> 0 <= y < 0x10000 -> 0 <= Z.lor x y < 0x10000.
Proof. rewrite !bits16. intros Hx Hy. by rewrite Z.land_lor_distr_l, Hx, Hy. Qed.
Lemma land16 x y : 0 <= x < 0x10000 -> 0 <= Z.land x y < 0x10000.
Proof. rewrite !bits16. intros Hx. by rewrite <- Z.land_assoc, (Z.land_comm y), Z.land_assoc, Hx. Qed.

Definition dirty (flags : Z) : Prop := Z.testbit flags 0 = true.

Lemma dirty_land flags : dirty flags <-> Z.land flags VOLUME_IS_DIRTY <> 0.
Proof.
  unfold dirty, VOLUME_IS_DIRTY. change 1 with (Z.ones 1). rewrite Z.land_ones by lia. change (2 ^ 1) with 2. rewrite Z.bit0_odd, Zodd_mod. destruct (Z.eqb_spec (flags mod 2) 1); pose proof (Z.mod_pos_bound flags 2); split; intros; try done; lia.
Qed.

Section Remount.
Context (upcase : list Z) (upcase_len : Z) (mft_size bits shift : Z).
Hypothesis Htab : table_ok upcase upcase_len.
Hypothesis Hbits : 8 <= bits <= shift.
Hypothesis Hshift : shift < 31.
Context (y : layout) (vi : ptr).
Context {nls : Type} `{EqDecision nls} (load_nls : string -> option nls) (load_nls_default : option nls) (make_kuid make_kgid : Z -> Z).
Context (ntfs_empty_logfile ntfs_mark_quotas_out_of_date ntfs_stamp_usnjrnl : vstate -> bool).

Local Abbreviation vol_ok := (vol_ok upcase upcase_len mft_size bits shift y vi).
Local Abbreviation do_remount := (do_remount upcase upcase_len mft_size bits shift (Some vi) load_nls load_nls_default make_kuid make_kgid
  ntfs_empty_logfile ntfs_mark_quotas_out_of_date ntfs_stamp_usnjrnl).

Lemma vol_ok_errors s : vol_ok s -> vol_ok (set_errors_flag s).
Proof using Type. intros (H1 & H2 & i & inos & m & H3 & H4). split; [done|]. split; [done|]. exists i, inos, m. split; [|done]. destruct H3 as [G1 G2 G3 G4 G5]. by constructor. Qed.

Lemma set_dirty_run s : vol_ok s -> exists s' err, ntfs_set_volume_flags upcase upcase_len mft_size bits shift (Some vi) VOLUME_IS_DIRTY s = Ret (s', err) /\ vol_ok s' /\ kept (vs_w s) (vs_w s') /\
  (err = 0 -> dirty (vs_flags s')) /\ (err <> 0 -> vs_flags s' = vs_flags s).
Proof using Htab Hbits Hshift.
  intros Hok. unfold ntfs_set_volume_flags. erewrite V_run by reflexivity.
  destruct (write_flags_spec upcase upcase_len mft_size bits shift Htab Hbits Hshift y vi s (Z.lor (vs_flags s) (Z.land VOLUME_IS_DIRTY VOLUME_FLAGS_MASK)) Hok) as (s' & err & E & Hok' & Hk & Hres).
  { apply lor16; [apply Hok|done]. }
  exists s', err. split_and!; [done..|destruct Hres as [(_ & Hf & _)|(-> & _)]; [intros _|done]|destruct Hres as [(-> & _)|(_ & Hf & _)]; done].
  unfold dirty. rewrite Hf, Z.lor_spec. apply orb_true_r.
Qed.

Lemma clear_dirty_run s : vol_ok s -> exists s' err, ntfs_clear_volume_flags upcase upcase_len mft_size bits shift (Some vi) VOLUME_IS_DIRTY s = Ret (s', err) /\ vol_ok s' /\ kept (vs_w s) (vs_w s') /\
  (err = 0 -> ~ dirty (vs_flags s')) /\ (err <> 0 -> vs_flags s' = vs_flags s).
Proof using Htab Hbits Hshift.
  intros Hok. unfold ntfs_clear_volume_flags. erewrite V_run by reflexivity.
  destruct (write_flags_spec upcase upcase_len mft_size bits shift Htab Hbits Hshift y vi s (Z.land (vs_flags s) (u16 (Z.lnot (Z.land VOLUME_IS_DIRTY VOLUME_FLAGS_MASK)))) Hok) as (s' & err & E & Hok' & Hk & Hres).
  { apply land16, Hok. }
  exists s', err. split_and!; [done..|destruct Hres as [(_ & Hf & _)|(-> & _)]; [intros _|done]|destruct Hres as [(-> & _)|(_ & Hf & _)]; done].
  unfold dirty. rewrite Hf, Z.land_spec. change (Z.testbit (u16 _) 0) with false. by rewrite andb_false_r.
Qed.

(** The superblock is consistent: the record of $Volume has the flags that are in
    memory, among them the dirty flag while the volume can be written to. *)
Definition mounted_ok (sb : super (nls := nls)) : Prop := vol_ok (sb_fs sb) /\ (sb_rdonly sb = false -> dirty (vs_flags (sb_fs sb))).

Lemma remount_rw_run s : vol_ok s -> exists s' err, remount_rw upcase upcase_len mft_size bits shift (Some vi) ntfs_empty_logfile ntfs_mark_quotas_out_of_date ntfs_stamp_usnjrnl s = Ret (s', err) /\
  vol_ok s' /\ (err = 0 -> dirty (vs_flags s')).
Proof using Htab Hbits Hshift.
  intros Hok. unfold remount_rw. do 4 (match goal with |- context [if ?c then Ret _ else _] => destruct c end; [eexists _, _; split; [done|]; by split|]).
  destruct (set_dirty_run s Hok) as (s' & err & E & Hok' & _ & Hd & _). rewrite E, bind_Ret. destruct (Z.eqb_spec err 0) as [->|He]; cbn [negb]; [|eexists _, _; split; [done|]; by split].
  pose proof (vol_ok_errors s' Hok'). do 3 (match goal with |- context [if ?c then _ else _] => destruct c end; [eexists _, _; split; [done|]; by split|]).
  eexists _, _. split; [done|]. split; [done|]. intros _. by apply Hd.
Qed.

Lemma remount_run rdonly opt sb : mounted_ok sb -> exists sb' err, do_remount rdonly opt sb = Ret (sb', err) /\ vol_ok (sb_fs sb') /\
  (p_ok (parse_options load_nls load_nls_default make_kuid make_kgid (sb_opts sb) opt) = true -> mounted_ok sb').
Proof using Htab Hbits Hshift.
  intros [Hok Hd]. unfold VolFlags.do_remount, ntfs_remount. cbv zeta. set (p := parse_options _ _ _ _ _ _).
  assert (Hfin : forall s, vol_ok s -> (p_ok p = true -> rdonly = false -> dirty (vs_flags s)) ->
    exists sb' err, ('(sb0, err) ← Ret (mk_super s (sb_rdonly sb) (p_vol p), if p_ok p then 0 else - EINVAL); Ret (if err =? 0 then mk_super (sb_fs sb0) rdonly (sb_opts sb0) else sb0, err)) = Ret (sb', err) /\
      vol_ok (sb_fs sb') /\ (p_ok p = true -> mounted_ok sb')).
  { intros s Hs Hds. destruct (p_ok p); eexists _, _; (split; [reflexivity|]); (split; [done|]); [|done]. intros _. split; [done|]. cbn. auto. }
  destruct (sb_rdonly sb) eqn:Er; destruct rdonly; cbn [andb negb].
  - rewrite bind_Ret. cbn [Z.eqb negb]. apply Hfin; [done|]. by intros _.
  - destruct (remount_rw_run (sb_fs sb) Hok) as (s' & err & E & Hok' & Hd'). rewrite E, bind_Ret. destruct (Z.eqb_spec err 0) as [->|He]; cbn [negb].
    + apply Hfin; [done|]. intros _ _. by apply Hd'.
    + rewrite bind_Ret. eexists _, _. split; [done|]. rewrite (proj2 (Z.eqb_neq _ _)) by done. split; [done|]. intros _. by split.
  - unfold remount_ro. destruct (vol_errors (vs_w (sb_fs sb))).
    + rewrite !bind_Ret. cbn [Z.eqb negb]. apply Hfin; [done|]. by intros _.
    + destruct (clear_dirty_run (sb_fs sb) Hok) as (s' & err & E & Hok' & _). rewrite E, !bind_Ret. cbn [Z.eqb negb]. apply Hfin; [done|]. by intros _.
  - rewrite bind_Ret. cbn [Z.eqb negb]. apply Hfin; [done|]. intros _ _. by apply Hd.
Qed.

(** What can happen to a mounted volume, as far as it concerns the flags: a remount
    with options that are valid, an error somewhere in the driver, memory becoming
    scarce or not. *)
Inductive mount_step : super (nls := nls) -> super (nls := nls) -> Prop :=
| Step_remount rdonly opt sb sb' err :
    p_ok (parse_options load_nls load_nls_default make_kuid make_kgid (sb_opts sb) opt) = true -> do_remount rdonly opt sb = Ret (sb', err) -> mount_step sb sb'
| Step_error sb : mount_step sb (mk_super (set_errors_flag (sb_fs sb)) (sb_rdonly sb) (sb_opts sb))
| Step_memory sb l : mount_step sb (mk_super (set_w (mk_world (inodes (vs_w (sb_fs sb))) (pinned (vs_w (sb_fs sb))) (vol_errors (vs_w (sb_fs sb))) l) (sb_fs sb)) (sb_rdonly sb) (sb_opts sb)).

Lemma mount_step_ok sb sb' : mount_step sb sb' -> mounted_ok sb -> mounted_ok sb'.
Proof using Htab Hbits Hshift.
  intros [rdonly opt s s' err Hp E|s|s l] Hm.
  - destruct (remount_run rdonly opt s Hm) as (sb1 & err1 & E1 & _ & H). rewrite E1 in E. injection E as <- <-. by apply H.
  - destruct Hm as [Hok Hd]. split; [by apply vol_ok_errors|exact Hd].
  - destruct Hm as [(H1 & H2 & i & inos & m & H3 & H4) Hd]. split; [|exact Hd]. split; [done|]. split; [done|]. exists i, inos, m. split; [|done]. destruct H3 as [G1 G2 G3 G4 G5]. by constructor.
Qed.
End Remount.

(** C21: While a volume is mounted for writing, it is marked dirty on disk: from a
    consistent superblock, along every sequence of remounts (read-only or for
    writing, with options that are valid), errors in the driver and shortages of
    memory, whenever the volume is not read-only the mft record of $Volume, which can
    be found and read as before, has the dirty flag set in its $VOLUME_INFORMATION,
    and so have the flags in memory; and every further remount returns. *)
Theorem remount_keeps_dirty upcase upcase_len mft_size bits shift y vi {nls : Type} `{EqDecision nls} load_nls (load_nls_default : option nls) make_kuid make_kgid empty_logfile mark_quotas stamp_usnjrnl sb0 sb :
  table_ok upcase upcase_len -> 8 <= bits <= shift -> shift < 31 -> mounted_ok upcase upcase_len mft_size bits shift y vi sb0 ->
  rtc (mount_step upcase upcase_len mft_size bits shift vi load_nls load_nls_default make_kuid make_kgid empty_logfile mark_quotas stamp_usnjrnl) sb0 sb ->
  (sb_rdonly sb = false -> exists i m flags, inodes (vs_w (sb_fs sb)) !! vi = Some i /\ record_is (vs_pages (sb_fs sb)) mft_size bits shift (mft_no i) m /\
     rd_le16 m (ly_flags y) = Ret flags /\ Z.land flags VOLUME_IS_DIRTY <> 0 /\ vs_flags (sb_fs sb) = flags) /\
  (forall rdonly opt, exists sb' err, do_remount upcase upcase_len mft_size bits shift (Some vi) load_nls load_nls_default make_kuid make_kgid empty_logfile mark_quotas stamp_usnjrnl rdonly opt sb = Ret (sb', err)).
Proof.
  intros Htab Hbits Hshift H0 Hs. assert (Hm : mounted_ok upcase upcase_len mft_size bits shift y vi sb).
  { induction Hs as [sb|sb1 sb2 sb3 H1 _ IH]; [done|]. apply IH. by eapply mount_step_ok. }
  split.
  - intros Hw. destruct Hm as [(_ & _ & i & inos & m & Hb & _ & _ & Hrec & Hv) Hd]. exists i, m, (vs_flags (sb_fs sb)). split_and!; [apply Hb|done|apply Hv|by apply dirty_land, Hd|done].
  - intros rdonly opt. destruct (remount_run upcase upcase_len mft_size bits shift Htab Hbits Hshift y vi load_nls load_nls_default make_kuid make_kgid empty_logfile mark_quotas stamp_usnjrnl rdonly opt sb Hm) as (sb' & err & E & _).
    by exists sb', err.
Qed.

(** ** A volume *)

Definition demo_volume_rec (flags : Z) : list Z :=
  le_split 4 magic_FILE ++ repeat 0 12 ++ le_split 2 3 ++ le_split 2 1 ++ le_split 2 56 ++ le_split 2 1 ++ le_split 4 108 ++ le_split 4 256 ++ repeat 0 24 ++
  le_split 4 0x70 ++ le_split 4 40 ++ [0; 0] ++ le_split 2 24 ++ repeat 0 4 ++ le_split 4 12 ++ le_split 2 24 ++ [0; 0] ++ repeat 0 8 ++ [3; 1] ++ le_split 2 flags ++ repeat 0 4 ++
  le_split 4 AT_END ++ repeat 0 156.
Definition demo_volume_page (flags : Z) (n : Z) : Z + (list Z * bool) :=
  if n =? 0 then inr (repeat 0 (3 * 256) ++ demo_volume_rec flags ++ repeat 0 (12 * 256), false) else inl (- EIO).
Definition demo_layout : layout := mk_layout 256 56 [] (mk_attr 0x70 40 [] None) [] 24.
Definition demo_vstate (flags : Z) : vstate := mk_vs (mk_world {[1%positive := mk_inode 3 3 1 false None 0 false 0 (Extents []) None]} [] false []) (demo_volume_page flags) [] [] flags.
Definition demo_super (rdonly : bool) : super (nls := unit) :=
  mk_super (demo_vstate (if rdonly then 0 else 1)) rdonly (mk_ov (Some tt) 1 3 0 0 127 63 false false true 3).
Definition demo_remount (rdonly : bool) (opt : string) (sb : super (nls := unit)) :=
  do_remount [] 0 4096 8 12 (Some 1%positive) (fun _ => Some tt) (Some tt) id id (fun _ => true) (fun _ => true) (fun _ => true) rdonly (Some opt) sb.

Lemma demo_mounted_ok : mounted_ok [] 0 4096 8 12 demo_layout 1%positive (demo_super true).
Proof.
  split; [|done]. split_and!; [|vm_compute; discriminate|vm_compute; reflexivity|].
  - intros n data err. cbn [demo_super sb_fs demo_vstate vs_pages]. unfold demo_volume_page. destruct (n =? 0); [|done]. intros E.
    assert (data = repeat 0 (3 * 256) ++ demo_volume_rec 0 ++ repeat 0 (12 * 256)) as -> by congruence. split; [by vm_compute|]. apply (bool_decide_unpack _). by vm_compute.
  - eexists _, [], (demo_volume_rec 0). split_and!; [constructor; try reflexivity; [exists 0%nat; split_and!; [done|lia|done]|by intros p Hp%elem_of_nil]|done|done| |].
    + split; [left; vm_compute; reflexivity|]. exists (repeat 0 (3 * 256) ++ demo_volume_rec 0 ++ repeat 0 (12 * 256)). split_and!; vm_compute; reflexivity.
    + assert (Ha : attr_at (demo_volume_rec 0) 56 (mk_attr 0x70 40 [] None)).
      { unfold attr_at. cbn [at_type at_length at_name at_value]. do 6 (split; [try (reflexivity || constructor || (vm_compute; discriminate)); lia|]). split; [exists 24; eexists; split; reflexivity|exact I]. }
      constructor; try reflexivity; try (vm_compute; discriminate).
      * split; [cbn; lia|]. split; [exact Ha|]. split; [cbn; lia|reflexivity].
      * by repeat constructor.
      * repeat constructor. cbn. lia.
      * by intros b Hb%elem_of_nil.
      * vm_compute. split; discriminate.
Qed.

(** The volume is remounted for writing. *)
Lemma remount_keeps_dirty_witness :
  match demo_remount false "" (demo_super true) with
  | Ret (sb, err) => err = 0 /\ sb_rdonly sb = false /\ exists m flags, record_is (vs_pages (sb_fs sb)) 4096 8 12 3 m /\ rd_le16 m 90 = Ret flags /\ Z.land flags VOLUME_IS_DIRTY <> 0
  | _ => False
  end.
Proof.
  destruct (demo_remount false "" (demo_super true)) as [[sb err]| | | |] eqn:E; try (vm_compute in E; discriminate E).
  assert (Herr : err = 0 /\ sb_rdonly sb = false /\ mft_no <$> (inodes (vs_w (sb_fs sb)) !! 1%positive) = Some 3) by (vm_compute in E; injection E; intros; subst; vm_compute; split_and!; reflexivity).
  destruct Herr as (-> & Hw & Hno). split; [reflexivity|]. split; [exact Hw|].
  destruct (remount_keeps_dirty [] 0 4096 8 12 demo_layout 1%positive (fun _ => Some tt) (Some tt) id id (fun _ => true) (fun _ => true) (fun _ => true) (demo_super true) sb) as [H _].
  - split; [vm_compute; discriminate|constructor].
  - lia.
  - lia.
  - exact demo_mounted_ok.
  - apply rtc_once. apply (Step_remount _ _ _ _ _ _ _ _ _ _ _ _ _ false (Some ""%string) _ _ 0); [vm_compute; reflexivity|exact E].
  - destruct (H Hw) as (i & m & flags & Hi & Hrec & Hf & Hd & _). rewrite Hi in Hno. injection Hno as Hno. rewrite Hno in Hrec. exists m, flags. split; [exact Hrec|]. split; [exact Hf|exact Hd].
Defined.

(** Options that are refused are looked at last: a volume that stays mounted for
    writing has been marked clean. *)
Example bad_options_mark_clean :
  match demo_remount true "nonsense" (demo_super false) with Ret (sb, err) => err = - EINVAL /\ sb_rdonly sb = false /\ vs_flags (sb_fs sb) = 0 | _ => False end.
Proof. vm_compute. split_and!; reflexivity. Qed.

(** And one that stays read-only has been marked dirty, so that it cannot be remounted
    for writing any more. *)
Example bad_options_mark_dirty :
  match demo_remount false "nonsense" (demo_super true) with
  | Ret (sb, err) => err = - EINVAL /\ sb_rdonly sb = true /\ vs_flags (sb_fs sb) = 1 /\ match demo_remount false "" sb with Ret (_, err) => err = - EROFS | _ => False end
  | _ => False
  end.
Proof. vm_compute. split_and!; reflexivity. Qed.
