(* ===== verification/Mount.v ===== *)
(** * Loading the system files

    Models [load_system_files] of [src/ntfs/super.c] with the functions it calls for
    each of them, [load_and_init_mft_mirror], [check_mft_mirror],
    [load_and_init_upcase], [load_and_init_attrdef], [load_and_check_logfile],
    [check_windows_hibernation_status], [load_and_init_quota] and
    [load_and_init_usnjrnl], and [ntfs_put_super], which undoes it: the inodes that
    are referenced, the pages that are mapped and the tables that are allocated are
    state.

    What the inode cache, the directories and the page cache answer is an interface,
    the class [MountEnv]; so are the functions of [logfile.c], [quota.c] and
    [usnjrnl.c], which are not in the repository. *)

From Stdlib Require Import ZArith Lia Bool.
From stdpp Require Import base list numbers option strings gmap.
From S2P Require Import Prelude Endian Runlist Unistr Attrib MftMap AttrLookup Mst Options Readdir ReadPage Inode VolFlags.
#[local] Open Scope list_scope.
#[local] Open Scope Z_scope.

Definition FILE_MFTMirr : Z := 1.
Definition FILE_LogFile : Z := 2.
Definition FILE_Volume : Z := 3.
Definition FILE_AttrDef : Z := 4.
Definition FILE_Bitmap : Z := 6.
Definition FILE_UpCase : Z := 10.
Definition NTFS_HIBERFIL_HEADER_SIZE : Z := 4096.
(** [sizeof(MFT_RECORD_OLD)], [sizeof(USN_HEADER)] and its fields *)
Definition MFT_RECORD_OLD_SIZE : Z := 42.
Definition USN_HEADER_SIZE : Z := 32.
Definition UH_maximum_size : Z := 0.
Definition UH_allocation_delta : Z := 8.
Definition UH_lowest_valid_usn : Z := 24.

(** ** State *)

(** An inode as the mount code sees it. *)
Record sysinode := mk_si { si_ptr : ptr; si_bad : bool; si_size : Z; si_non_resident : bool; si_sparse : bool; si_runlist : option rl_buf }.

(** The inodes that [ntfs_volume] points to. *)
Inductive slot := mft_ino | mftmirr_ino | mftbmp_ino | lcnbmp_ino | vol_ino | logfile_ino | root_ino | secure_ino | extend_ino | quota_ino | quota_q_ino | usnjrnl_ino | usnjrnl_max_ino | usnjrnl_j_ino.
#[export] Instance slot_eq : EqDecision slot.
Proof. solve_decision. Defined.

(** [vol->upcase]: the global default table or one of its own. *)
Inductive upcase_table := DefaultUpcase | OwnUpcase (l : list Z).

(** What unmounting asks of others: [ntfs_commit_inode], [write_inode_now], and memory
    that is given up. *)
Inductive event := Commit (p : ptr) | WriteNow (p : ptr) | FreeDefaultUpcase | FreeCompressionBuffers | UnloadNls | FreeVolume.

(** [ms_slots]: the pointers (NULL is [None]); [ms_refs]: the references that are held;
    [ms_pins]: the pages that are mapped; [ms_mem]: the number of allocated tables;
    [ms_users], [ms_default], [ms_compression_users]: the globals [ntfs_nr_upcase_users],
    [default_upcase] and [ntfs_nr_compression_users]; [ms_log]: what was done last that is
    not state here, the latest first. *)
Record mstate := mk_ms {
  ms_fs : vstate;
  ms_rdonly : bool;
  ms_slots : slot -> option sysinode;
  ms_refs : list ptr;
  ms_pins : list (ptr * Z);
  ms_mem : Z;
  ms_users : Z;
  ms_upcase : option upcase_table;
  ms_upcase_len : Z;
  ms_attrdef : option (list Z);
  ms_attrdef_size : Z;
  ms_major_ver : Z;
  ms_minor_ver : Z;
  ms_sparse_enabled : bool;
  ms_quota_out_of_date : bool;
  ms_usnjrnl_stamped : bool;
  ms_default : option (list Z);
  ms_compression_users : Z;
  ms_log : list event;
}.

Definition set_fs x s := let '(mk_ms _ x1 x2 x3 x4 x5 x6 x7 x8 x9 x10 x11 x12 x13 x14 x15 x16 x17 x18) := s in mk_ms x x1 x2 x3 x4 x5 x6 x7 x8 x9 x10 x11 x12 x13 x14 x15 x16 x17 x18.
Definition set_rdonly x s := let '(mk_ms x0 _ x2 x3 x4 x5 x6 x7 x8 x9 x10 x11 x12 x13 x14 x15 x16 x17 x18) := s in mk_ms x0 x x2 x3 x4 x5 x6 x7 x8 x9 x10 x11 x12 x13 x14 x15 x16 x17 x18.
Definition set_slots x s := let '(mk_ms x0 x1 _ x3 x4 x5 x6 x7 x8 x9 x10 x11 x12 x13 x14 x15 x16 x17 x18) := s in mk_ms x0 x1 x x3 x4 x5 x6 x7 x8 x9 x10 x11 x12 x13 x14 x15 x16 x17 x18.
Definition set_refs x s := let '(mk_ms x0 x1 x2 _ x4 x5 x6 x7 x8 x9 x10 x11 x12 x13 x14 x15 x16 x17 x18) := s in mk_ms x0 x1 x2 x x4 x5 x6 x7 x8 x9 x10 x11 x12 x13 x14 x15 x16 x17 x18.
Definition set_pins x s := let '(mk_ms x0 x1 x2 x3 _ x5 x6 x7 x8 x9 x10 x11 x12 x13 x14 x15 x16 x17 x18) := s in mk_ms x0 x1 x2 x3 x x5 x6 x7 x8 x9 x10 x11 x12 x13 x14 x15 x16 x17 x18.
Definition set_mem x s := let '(mk_ms x0 x1 x2 x3 x4 _ x6 x7 x8 x9 x10 x11 x12 x13 x14 x15 x16 x17 x18) := s in mk_ms x0 x1 x2 x3 x4 x x6 x7 x8 x9 x10 x11 x12 x13 x14 x15 x16 x17 x18.
Definition set_users x s := let '(mk_ms x0 x1 x2 x3 x4 x5 _ x7 x8 x9 x10 x11 x12 x13 x14 x15 x16 x17 x18) := s in mk_ms x0 x1 x2 x3 x4 x5 x x7 x8 x9 x10 x11 x12 x13 x14 x15 x16 x17 x18.
Definition set_upcase x y s := let '(mk_ms x0 x1 x2 x3 x4 x5 x6 _ _ x9 x10 x11 x12 x13 x14 x15 x16 x17 x18) := s in mk_ms x0 x1 x2 x3 x4 x5 x6 x y x9 x10 x11 x12 x13 x14 x15 x16 x17 x18.
Definition set_attrdef x y s := let '(mk_ms x0 x1 x2 x3 x4 x5 x6 x7 x8 _ _ x11 x12 x13 x14 x15 x16 x17 x18) := s in mk_ms x0 x1 x2 x3 x4 x5 x6 x7 x8 x y x11 x12 x13 x14 x15 x16 x17 x18.
Definition set_version x y s := let '(mk_ms x0 x1 x2 x3 x4 x5 x6 x7 x8 x9 x10 _ _ x13 x14 x15 x16 x17 x18) := s in mk_ms x0 x1 x2 x3 x4 x5 x6 x7 x8 x9 x10 x y x13 x14 x15 x16 x17 x18.
Definition clear_sparse s := let '(mk_ms x0 x1 x2 x3 x4 x5 x6 x7 x8 x9 x10 x11 x12 _ x14 x15 x16 x17 x18) := s in mk_ms x0 x1 x2 x3 x4 x5 x6 x7 x8 x9 x10 x11 x12 false x14 x15 x16 x17 x18.
Definition NVolSetQuotaOutOfDate s := let '(mk_ms x0 x1 x2 x3 x4 x5 x6 x7 x8 x9 x10 x11 x12 x13 _ x15 x16 x17 x18) := s in mk_ms x0 x1 x2 x3 x4 x5 x6 x7 x8 x9 x10 x11 x12 x13 true x15 x16 x17 x18.
Definition NVolSetUsnJrnlStamped s := let '(mk_ms x0 x1 x2 x3 x4 x5 x6 x7 x8 x9 x10 x11 x12 x13 x14 _ x16 x17 x18) := s in mk_ms x0 x1 x2 x3 x4 x5 x6 x7 x8 x9 x10 x11 x12 x13 x14 true x16 x17 x18.
Definition set_default x s := let '(mk_ms x0 x1 x2 x3 x4 x5 x6 x7 x8 x9 x10 x11 x12 x13 x14 x15 _ x17 x18) := s in mk_ms x0 x1 x2 x3 x4 x5 x6 x7 x8 x9 x10 x11 x12 x13 x14 x15 x x17 x18.
Definition set_compression_users x s := let '(mk_ms x0 x1 x2 x3 x4 x5 x6 x7 x8 x9 x10 x11 x12 x13 x14 x15 x16 _ x18) := s in mk_ms x0 x1 x2 x3 x4 x5 x6 x7 x8 x9 x10 x11 x12 x13 x14 x15 x16 x x18.
Definition set_log x s := let '(mk_ms x0 x1 x2 x3 x4 x5 x6 x7 x8 x9 x10 x11 x12 x13 x14 x15 x16 x17 _) := s in mk_ms x0 x1 x2 x3 x4 x5 x6 x7 x8 x9 x10 x11 x12 x13 x14 x15 x16 x17 x.

Definition B (A : Type) : Type := mstate -> outcome (mstate * A).
#[export] Instance B_ret : MRet B := fun A a s => Ret (s, a).
#[export] Instance B_bind : MBind B := fun A B f m s => '(s, a) ← m s; f a s.
Definition blift {A} (o : outcome A) : B A := fun s => a ← o; Ret (s, a).
Definition bget {A} (f : mstate -> A) : B A := fun s => Ret (s, f s).
Definition bset (f : mstate -> mstate) : B unit := fun s => Ret (f s, tt).
Definition on_fs {A} (f : V A) : B A := fun s => '(v, a) ← f (ms_fs s); Ret (set_fs v s, a).

(** The inode cache hands out a reference; giving back one that is not held is an error. *)
Fixpoint drop_one {A} `{EqDecision A} (x : A) (l : list A) : option (list A) :=
  match l with [] => None | y :: l => if decide (x = y) then Some l else cons y <$> drop_one x l end.
Definition iput (i : sysinode) : B unit := fun s =>
  match drop_one (si_ptr i) (ms_refs s) with Some l => Ret (set_refs l s, tt) | None => Fault end.
(** [iput] of a field of the volume; nothing is done for NULL. *)
Definition iput_slot (k : slot) : B unit :=
  i ← bget (fun s => ms_slots s k); match i with Some i => iput i | None => mret tt end.
Definition set_slot (k : slot) (i : option sysinode) : B unit := bset (fun s => set_slots (fun k' => if decide (k' = k) then i else ms_slots s k') s).
Definition iget (a : Z + sysinode) : B (Z + sysinode) :=
  match a with inl e => mret (inl e) | inr i => bset (fun s => set_refs (si_ptr i :: ms_refs s) s);; mret (inr i) end.

(** ** What is asked of the others *)

Class MountEnv := {
  env_iget : Z -> Z + sysinode;                                  (* ntfs_iget *)
  env_attr_iget : sysinode -> Z -> option (list Z) -> Z + sysinode; (* ntfs_attr_iget *)
  env_index_iget : sysinode -> list Z -> Z + sysinode;           (* ntfs_index_iget *)
  env_lookup : sysinode -> list Z -> Z + Z;                      (* ntfs_lookup_inode_by_name *)
  env_map_page : sysinode -> Z -> Z + list Z;                    (* ntfs_map_page *)
  env_check_logfile : sysinode -> bool * bool;                   (* the result, and whether @rp is set *)
  env_logfile_clean : bool;
  env_empty_logfile : bool;
  env_mark_quotas : bool;
  env_stamp_usnjrnl : bool;
}.

(** The constants of the volume. *)
Record geometry := mk_geo { geo_mft_record_size : Z; geo_cluster_size : Z; geo_nr_clusters : Z; geo_mftmirr_size : Z; geo_mftmirr_lcn : Z; geo_on_errors : Z }.

Section Mount.
Context `{KA : KernelAlloc} `{ENV : MountEnv} (geo : geometry) (PAGE_CACHE_SHIFT : Z).
Context (mft_size mft_record_size_bits : Z).

Definition PAGE_CACHE_SIZE : Z := 2 ^ PAGE_CACHE_SHIFT.

Definition map_page (i : sysinode) (index : Z) : B (Z + list Z) :=
  match env_map_page i index with
  | inl e => mret (inl e)
  | inr d => bset (fun s => set_pins ((si_ptr i, index) :: ms_pins s) s);; mret (inr d)
  end.
Definition unmap_page (i : sysinode) (index : Z) : B unit := fun s =>
  match drop_one (si_ptr i, index) (ms_pins s) with Some l => Ret (set_pins l s, tt) | None => Fault end.

(** The common start: an inode that is bad is given back. *)
Definition iget_good (no : Z) : B (Z + sysinode) :=
  r ← iget (env_iget no);
  match r with
  | inl e => mret (inl e)
  | inr i => if si_bad i then iput i;; mret (inl (- EIO)) else mret (inr i)
  end.

(** ** load_and_init_mft_mirror *)

Definition load_and_init_mft_mirror : B bool :=
  r ← iget_good FILE_MFTMirr;
  match r with inl _ => mret false | inr i => set_slot mftmirr_ino (Some i);; mret true end.

(** ** check_mft_mirror *)

Definition is_baad (d : list Z) (p : Z) : outcome bool := ntfs_is_magicp d p magic_BAAD.
(** A record that is in use and was not completely written. *)
Definition bad_record (d : list Z) (p : Z) : outcome bool :=
  flags ← rd_le16 d (p + MFT_flags);
  if has flags MFT_RECORD_IN_USE then is_baad d p else Ret false.
(** [bytes_in_use] if it is possible. *)
Definition used_bytes (d : list Z) (p : Z) : outcome (option Z) :=
  bytes ← rd_le32 d (p + MFT_bytes_in_use);
  b ← is_baad d p;
  Ret (if (bytes <? MFT_RECORD_OLD_SIZE) || (bytes >? geo_mft_record_size geo) || b then None else Some bytes).

(** One record of $MFT and its copy, at [p] of their pages: whether they agree. *)
Definition compare_records (kmft kmirr : list Z) (p : Z) : outcome bool :=
  b ← bad_record kmft p;
  if (b : bool) then Ret false
  else
    b ← bad_record kmirr p;
    if (b : bool) then Ret false
    else
      u ← used_bytes kmft p;
      u ← match u with Some n => Ret (Some n) | None => used_bytes kmirr p end;
      let bytes := default (geo_mft_record_size geo) u in
      x ← rd_bytes (Z.to_nat bytes) kmft p;
      y ← rd_bytes (Z.to_nat bytes) kmirr p;
      Ret (bool_decide (x = y)).

(** The loop over the records: [i] and [index] as in the code, with the pages of
    [index - 1] mapped. *)
Fixpoint mirror_loop (n : nat) (mft mirr : sysinode) (i index : Z) (kmft kmirr : list Z) : B bool :=
  match n with
  | O => unmap_page mft (index - 1);; unmap_page mirr (index - 1);; mret true
  | S n =>
      let mrecs_per_page := PAGE_CACHE_SIZE / geo_mft_record_size geo in
      let check kmft kmirr index :=
        ok ← blift (compare_records kmft kmirr (i mod mrecs_per_page * geo_mft_record_size geo));
        if (ok : bool) then mirror_loop n mft mirr (i + 1) index kmft kmirr
        else unmap_page mirr (index - 1);; unmap_page mft (index - 1);; mret false in
      if i mod mrecs_per_page =? 0 then
        (if negb (index =? 0) then unmap_page mft (index - 1);; unmap_page mirr (index - 1) else mret tt);;
        p ← map_page mft index;
        match p with
        | inl _ => mret false
        | inr kmft =>
            q ← map_page mirr index;
            match q with
            | inl _ => unmap_page mft index;; mret false
            | inr kmirr => check kmft kmirr (index + 1)
            end
        end
      else check kmft kmirr index
  end.

(** The runlist of the mirror must be the one of the boot sector. *)
Definition mirror_runlist : rl_buf :=
  let len := u32 (geo_mftmirr_size geo * geo_mft_record_size geo + geo_cluster_size geo - 1) / geo_cluster_size geo in
  [mk_rle 0 (geo_mftmirr_lcn geo) len; mk_rle len LCN_ENOENT 0].
Definition same_run (a b : runlist_element) : bool := (rl_vcn a =? rl_vcn b) && (rl_lcn a =? rl_lcn b) && (rl_length a =? rl_length b).
Fixpoint compare_runs (rl2 : rl_buf) (rl : rl_buf) (i : Z) : outcome bool :=
  match rl2 with
  | [] => Fault
  | a :: rl2 =>
      b ← rd rl i;
      if negb (same_run a b) then Ret false
      else if negb (rl_length a =? 0) then compare_runs rl2 rl (i + 1)
      else Ret true
  end.

Definition check_mft_mirror : B bool :=
  let mrecs_per_page := PAGE_CACHE_SIZE / geo_mft_record_size geo in
  blift (BUG_ON (mrecs_per_page =? 0));;
  blift (BUG_ON (geo_mftmirr_size geo =? 0));;
  mft ← bget (fun s => ms_slots s mft_ino);
  mirr ← bget (fun s => ms_slots s mftmirr_ino);
  match mft, mirr with
  | Some mft, Some mirr =>
      ok ← mirror_loop (Z.to_nat (geo_mftmirr_size geo)) mft mirr 0 0 [] [];
      if negb ok then mret false
      else match si_runlist mirr with None => blift Fault | Some rl => blift (compare_runs mirror_runlist rl 0) end
  | _, _ => blift Fault
  end.

(** ** load_and_init_upcase and load_and_init_attrdef *)

(** [n] pages of the table, [size] bytes of each, into the buffer. *)
Fixpoint read_table (n : nat) (i : sysinode) (index size : Z) (buf : list Z) : B (option (list Z)) :=
  match n with
  | O => mret (Some buf)
  | S n =>
      p ← map_page i index;
      match p with
      | inl _ => mret None
      | inr d =>
          buf ← blift (blit buf (Z.shiftl index PAGE_CACHE_SHIFT) d 0 size);
          unmap_page i index;;
          read_table n i (index + 1) size buf
      end
  end.

(** The whole table, "read_partial" included. *)
Definition read_whole (i : sysinode) (i_size : Z) : B (option (list Z)) :=
  let max_index := Z.shiftr i_size PAGE_CACHE_SHIFT in
  let rest := Z.land i_size (PAGE_CACHE_SIZE - 1) in
  b ← read_table (Z.to_nat max_index) i 0 PAGE_CACHE_SIZE (repeat 0 (Z.to_nat i_size));
  match b with
  | None => mret None
  | Some buf => if negb (rest =? 0) then read_table 1 i max_index rest buf else mret (Some buf)
  end.

(** [ntfs_malloc_nofs] and [ntfs_free] of a table *)
Definition alloc_table (size : Z) : B bool :=
  m ← blift (ntfs_malloc_nofs size);
  match m with None => mret false | Some _ => bset (fun s => set_mem (ms_mem s + 1) s);; mret true end.
Definition free_table : B unit := bset (fun s => set_mem (ms_mem s - 1) s).

(** The label [upcase_failed]. *)
Definition upcase_failed : B bool :=
  d ← bget ms_default;
  match d with
  | Some d => bset (fun s => set_users (ms_users s + 1) (set_upcase (Some DefaultUpcase) (zlen d) s));; mret true
  | None => mret false
  end.
(** The label [iput_upcase_failed]; [allocated] says that [vol->upcase] is not NULL. *)
Definition iput_upcase_failed (ino : sysinode) (allocated : bool) : B bool :=
  iput ino;;
  (if allocated then free_table else mret tt);;
  bset (fun s => set_upcase None (ms_upcase_len s) s);;
  upcase_failed.

Fixpoint same_prefix (n : nat) (a b : list Z) : bool :=
  match n, a, b with
  | O, _, _ => true
  | S n, x :: a, y :: b => (x =? y) && same_prefix n a b
  | _, _, _ => false
  end.

(** The table has been read. *)
Definition use_upcase (tab : list Z) : B bool :=
  d ← bget ms_default;
  match d with
  | None => bset (set_upcase (Some (OwnUpcase tab)) (zlen tab));; mret true
  | Some d =>
      let max := if zlen d >? zlen tab then zlen tab else zlen d in
      if same_prefix (Z.to_nat max) tab d then
        free_table;;
        bset (fun s => set_users (ms_users s + 1) (set_upcase (Some DefaultUpcase) max s));;
        mret true
      else bset (set_upcase (Some (OwnUpcase tab)) (zlen tab));; mret true
  end.

Definition load_and_init_upcase : B bool :=
  r ← iget_good FILE_UpCase;
  match r with
  | inl _ => upcase_failed
  | inr ino =>
      let i_size := si_size ino in
      if (i_size =? 0) || negb (Z.land i_size 1 =? 0) || (u64 i_size >? 0x20000) then iput_upcase_failed ino false
      else
        ok ← alloc_table i_size;
        if negb ok then iput_upcase_failed ino false
        else
          b ← read_whole ino i_size;
          match b with
          | None => iput_upcase_failed ino true
          | Some buf => iput ino;; use_upcase (words buf)
          end
  end.

Definition load_and_init_attrdef : B bool :=
  r ← iget_good FILE_AttrDef;
  match r with
  | inl _ => mret false
  | inr ino =>
      let i_size := si_size ino in
      if (i_size <=? 0) || (i_size >? 0x7fffffff) then iput ino;; mret false
      else
        ok ← alloc_table i_size;
        if negb ok then iput ino;; mret false
        else
          b ← read_whole ino i_size;
          match b with
          | None => free_table;; bset (fun s => set_attrdef None (ms_attrdef_size s) s);; iput ino;; mret false
          | Some buf => bset (set_attrdef (Some buf) i_size);; iput ino;; mret true
          end
  end.

(** ** load_and_check_logfile *)

(** Whether it was loaded, and whether @rp is set. *)
Definition load_and_check_logfile : B (bool * bool) :=
  r ← iget_good FILE_LogFile;
  match r with
  | inl _ => mret (false, false)
  | inr ino =>
      let '(ok, rp) := env_check_logfile ino in
      if negb ok then iput ino;; mret (false, rp)
      else set_slot logfile_ino (Some ino);; mret (true, rp)
  end.

(** ** check_windows_hibernation_status *)

Definition hiberfil : list Z := [0x68; 0x69; 0x62; 0x65; 0x72; 0x66; 0x69; 0x6c; 0x2e; 0x73; 0x79; 0x73].

(** "hibr", or a header that is not zero. *)
Definition hibernated_header (d : list Z) : outcome bool :=
  magic ← rd_le32 d 0;
  if magic =? 0x72626968 then Ret true
  else
    h ← rd_bytes (Z.to_nat NTFS_HIBERFIL_HEADER_SIZE) d 0;
    Ret (negb (forallb (fun b => b =? 0) h)).

Definition check_windows_hibernation_status : B Z :=
  root ← bget (fun s => ms_slots s root_ino);
  match root with
  | None => blift Fault
  | Some root =>
      match env_lookup root hiberfil with
      | inl e => if e =? - ENOENT then mret 0 else mret e
      | inr mref =>
          r ← iget_good (MREF mref);
          match r with
          | inl e => mret e
          | inr vi =>
              if si_size vi <? NTFS_HIBERFIL_HEADER_SIZE then iput vi;; mret 1
              else
                p ← map_page vi 0;
                match p with
                | inl e => iput vi;; mret e
                | inr d =>
                    h ← blift (hibernated_header d);
                    unmap_page vi 0;;
                    iput vi;;
                    mret (if (h : bool) then 1 else 0)
                end
          end
      end
  end.

(** ** load_and_init_quota and load_and_init_usnjrnl *)

Definition Quota : list Z := [0x24; 0x51; 0x75; 0x6f; 0x74; 0x61].
Definition Q : list Z := [0x24; 0x51].
Definition UsnJrnl : list Z := [0x24; 0x55; 0x73; 0x6e; 0x4a; 0x72; 0x6e; 0x6c].
Definition Max : list Z := [0x24; 0x4d; 0x61; 0x78].
Definition J : list Z := [0x24; 0x4a].

Definition load_and_init_quota : B bool :=
  ext ← bget (fun s => ms_slots s extend_ino);
  match ext with
  | None => blift Fault
  | Some ext =>
      match env_lookup ext Quota with
      | inl e => if e =? - ENOENT then bset NVolSetQuotaOutOfDate;; mret true else mret false
      | inr mref =>
          r ← iget_good (MREF mref);
          match r with
          | inl _ => mret false
          | inr i =>
              set_slot quota_ino (Some i);;
              q ← iget (env_index_iget i Q);
              match q with inl _ => mret false | inr q => set_slot quota_q_ino (Some q);; mret true end
          end
      end
  end.

Definition not_enabled : B bool := bset NVolSetUsnJrnlStamped;; mret true.

(** The header in $Max, whose page is mapped. *)
Definition check_usn_header (max j : sysinode) (d : list Z) : B bool :=
  delta ← blift (rd_sle64 d UH_allocation_delta);
  maxsize ← blift (rd_sle64 d UH_maximum_size);
  if delta >? maxsize then unmap_page max 0;; mret false
  else
    lowest ← blift (rd_sle64 d UH_lowest_valid_usn);
    if lowest >=? si_size j then
      if lowest =? si_size j then unmap_page max 0;; not_enabled
      else unmap_page max 0;; mret false
    else unmap_page max 0;; mret true.

(** $J is there. *)
Definition load_usn_data (max j : sysinode) : B bool :=
  set_slot usnjrnl_j_ino (Some j);;
  if negb (si_non_resident j) || negb (si_sparse j) then mret false
  else
    p ← map_page max 0;
    match p with inl _ => mret false | inr d => check_usn_header max j d end.

Definition load_and_init_usnjrnl : B bool :=
  ext ← bget (fun s => ms_slots s extend_ino);
  match ext with
  | None => blift Fault
  | Some ext =>
      match env_lookup ext UsnJrnl with
      | inl e => if e =? - ENOENT then not_enabled else mret false
      | inr mref =>
          r ← iget_good (MREF mref);
          match r with
          | inl _ => mret false
          | inr i =>
              set_slot usnjrnl_ino (Some i);;
              flags ← bget (fun s => vs_flags (ms_fs s));
              if has flags VOLUME_DELETE_USN_UNDERWAY then not_enabled
              else
                m ← iget (env_attr_iget i AT_DATA (Some Max));
                match m with
                | inl _ => mret false
                | inr m =>
                    set_slot usnjrnl_max_ino (Some m);;
                    if si_size m <? USN_HEADER_SIZE then mret false
                    else
                      j ← iget (env_attr_iget i AT_DATA (Some J));
                      match j with inl _ => mret false | inr j => load_usn_data m j end
                end
          end
      end
  end.
(** ** load_system_files: the labels *)

Definition iput_mirr_err_out : B bool := iput_slot mftmirr_ino;; mret false.
Definition iput_mftbmp_err_out : B bool := iput_slot mftbmp_ino;; iput_mirr_err_out.
(** Gives up [vol->upcase], which is compared with [default_upcase], also NULL with NULL. *)
Definition drop_upcase : B unit :=
  u ← bget ms_upcase;
  d ← bget ms_default;
  match u, d with
  | Some DefaultUpcase, _ | None, None => bset (fun s => set_users (ms_users s - 1) (set_upcase None 0 s))
  | Some (OwnUpcase _), _ => free_table;; bset (set_upcase None 0)
  | None, Some _ => bset (set_upcase None 0)
  end.
Definition iput_upcase_err_out : B bool := drop_upcase;; iput_mftbmp_err_out.
Definition drop_attrdef : B unit :=
  a ← bget ms_attrdef;
  match a with Some _ => free_table;; bset (set_attrdef None 0) | None => bset (set_attrdef None 0) end.
Definition iput_attrdef_err_out : B bool := drop_attrdef;; iput_upcase_err_out.
Definition iput_lcnbmp_err_out : B bool := iput_slot lcnbmp_ino;; iput_attrdef_err_out.
Definition iput_vol_err_out : B bool := iput_slot vol_ino;; iput_lcnbmp_err_out.
Definition iput_logfile_err_out : B bool := iput_slot logfile_ino;; iput_vol_err_out.
Definition iput_root_err_out : B bool := iput_slot root_ino;; iput_logfile_err_out.
Definition iput_sec_err_out : B bool := iput_slot secure_ino;; iput_root_err_out.
Definition iput_quota_err_out : B bool := iput_slot quota_q_ino;; iput_slot quota_ino;; iput_slot extend_ino;; iput_sec_err_out.
Definition iput_usnjrnl_err_out : B bool := iput_slot usnjrnl_j_ino;; iput_slot usnjrnl_max_ino;; iput_slot usnjrnl_ino;; iput_quota_err_out.

(** ** load_system_files: the steps, last first *)

(** A check has failed: "If a read-write mount, convert it to a read-only mount",
    unless on_errors says otherwise; [errors] prevents a read-write remount. *)
Definition demote (errors : bool) (err_out : B bool) (k : B bool) : B bool :=
  rdonly ← bget ms_rdonly;
  if negb rdonly && negb (has (geo_on_errors geo) (Z.lor ON_ERRORS_REMOUNT_RO ON_ERRORS_CONTINUE)) then err_out
  else
    bset (set_rdonly true);;
    (if errors then bset (fun s => set_fs (set_errors_flag (ms_fs s)) s) else mret tt);;
    k.
Definition require (ok errors : bool) (err_out : B bool) (k : B bool) : B bool := if ok then k else demote errors err_out k.
(** "If (still) a read-write mount" *)
Definition if_rw (f : B bool) (errors : bool) (err_out k : B bool) : B bool :=
  rdonly ← bget ms_rdonly;
  if (rdonly : bool) then k else ok ← f; require ok errors err_out k.

Definition load_extended : B bool :=
  q ← load_and_init_quota;
  require q true iput_quota_err_out
    (if_rw (mret env_mark_quotas) true iput_quota_err_out
       (u ← load_and_init_usnjrnl;
        require u true iput_usnjrnl_err_out
          (if_rw (mret env_stamp_usnjrnl) true iput_usnjrnl_err_out (mret true)))).

(** NTFS 3.0+ *)
Definition load_ntfs3 : B bool :=
  major ← bget ms_major_ver;
  if major <? 3 then mret true
  else
    sec ← iget_good FILE_Secure;
    match sec with
    | inl _ => iput_root_err_out
    | inr sec =>
        set_slot secure_ino (Some sec);;
        ext ← iget_good FILE_Extend;
        match ext with
        | inl _ => iput_sec_err_out
        | inr ext => set_slot extend_ino (Some ext);; load_extended
        end
    end.

Context (upcase : list Z) (upcase_len : Z).

Definition set_dirty : B bool :=
  vol ← bget (fun s => ms_slots s vol_ino);
  err ← on_fs (ntfs_set_volume_flags upcase upcase_len mft_size mft_record_size_bits PAGE_CACHE_SHIFT (si_ptr <$> vol) VOLUME_IS_DIRTY);
  mret (err =? 0).

Definition load_root : B bool :=
  root ← iget_good FILE_root;
  match root with
  | inl _ => iput_logfile_err_out
  | inr root =>
      set_slot root_ino (Some root);;
      err ← check_windows_hibernation_status;
      require (err =? 0) true iput_root_err_out
        (if_rw set_dirty false iput_root_err_out
           (if_rw (mret env_empty_logfile) true iput_root_err_out load_ntfs3))
  end.

(** @rp is freed. *)
Definition free_rp (rp : bool) : B unit := if rp then free_table else mret tt.

Definition load_logfile : B bool :=
  x ← load_and_check_logfile;
  let '(ok, rp) := x in
  (if rp then bset (fun s => set_mem (ms_mem s + 1) s) else mret tt);;
  let out := l ← bget (fun s => ms_slots s logfile_ino);
             (match l with Some _ => blift (BUG_ON (negb rp));; free_rp rp | None => mret tt end);; iput_logfile_err_out in
  require (ok && env_logfile_clean) true out (free_rp rp;; load_root).

(** The volume flags and version, from the context at the attribute. *)
Definition read_volume_information (c : ntfs_attr_search_ctx) : outcome (option (Z * Z * Z)) :=
  non_resident ← rd_u8 (mrec c) (attr c + A_non_resident);
  flags ← rd_le16 (mrec c) (attr c + A_flags);
  if negb (non_resident =? 0) || negb (flags =? 0) then Ret None
  else
    value_offset ← rd_le16 (mrec c) (attr c + A_value_offset);
    value_length ← rd_le32 (mrec c) (attr c + A_value_length);
    length ← rd_le32 (mrec c) (attr c + A_length);
    if value_offset + value_length >? length then Ret None
    else
      vflags ← rd_le16 (mrec c) (attr c + value_offset + VI_flags);
      major ← rd_u8 (mrec c) (attr c + value_offset + VI_major_ver);
      minor ← rd_u8 (mrec c) (attr c + value_offset + VI_minor_ver);
      Ret (Some (vflags, major, minor)).

(** $VOLUME_INFORMATION of $Volume; the record is given back either way. *)
Definition load_volume_information (ni : ptr) : V (option (Z * Z * Z)) :=
  m ← on_w (fun pages => map_mft_record pages mft_size mft_record_size_bits PAGE_CACHE_SHIFT ni);
  match m with
  | inl _ => mret None
  | inr m =>
      ctx ← on_w (fun _ => ntfs_attr_get_search_ctx ni m);
      match ctx with
      | None => on_w (fun _ => unmap_mft_record ni);; mret None
      | Some c =>
          '(c, err) ← lookup_volume_information upcase upcase_len mft_size mft_record_size_bits PAGE_CACHE_SHIFT c;
          r ← (if negb (err =? 0) then mret None else vlift (read_volume_information c));
          on_w (fun _ => ntfs_attr_put_search_ctx c);;
          on_w (fun _ => unmap_mft_record ni);;
          mret r
      end
  end.

Definition load_volume : B bool :=
  vol ← iget_good FILE_Volume;
  match vol with
  | inl _ => iput_lcnbmp_err_out
  | inr vol =>
      set_slot vol_ino (Some vol);;
      r ← on_fs (load_volume_information (si_ptr vol));
      match r with
      | None => iput_slot vol_ino;; iput_lcnbmp_err_out
      | Some (flags, major, minor) =>
          bset (fun s => set_version major minor (set_fs (mk_vs (vs_w (ms_fs s)) (vs_pages (ms_fs s)) (vs_dirty_recs (ms_fs s)) (vs_dirty_inodes (ms_fs s)) flags) s));;
          (if major <? 3 then bset clear_sparse else mret tt);;
          require (negb (has flags VOLUME_MUST_MOUNT_RO_MASK)) false iput_vol_err_out load_logfile
      end
  end.

Definition load_lcnbmp : B bool :=
  bmp ← iget_good FILE_Bitmap;
  match bmp with
  | inl _ => iput_attrdef_err_out
  | inr bmp =>
      if Z.shiftr (geo_nr_clusters geo + 7) 3 >? si_size bmp then iput bmp;; iput_attrdef_err_out
      else set_slot lcnbmp_ino (Some bmp);; load_volume
  end.

Definition load_tables : B bool :=
  u ← load_and_init_upcase;
  if negb u then iput_mftbmp_err_out
  else
    a ← load_and_init_attrdef;
    if negb a then iput_upcase_err_out else load_lcnbmp.

Definition load_mftbmp : B bool :=
  mft ← bget (fun s => ms_slots s mft_ino);
  match mft with
  | None => blift Fault
  | Some mft =>
      b ← iget (env_attr_iget mft AT_BITMAP None);
      match b with
      | inl _ => iput_mirr_err_out
      | inr b => set_slot mftbmp_ino (Some b);; load_tables
      end
  end.

Definition load_system_files : B bool :=
  m ← load_and_init_mft_mirror;
  ok ← (if (m : bool) then check_mft_mirror else mret false);
  require ok true iput_mirr_err_out load_mftbmp.

(** ** ntfs_put_super *)

Definition log (e : event) : B unit := bset (fun s => set_log (e :: ms_log s) s).
(** [ntfs_commit_inode] of a field that is not NULL, and of one that may be. *)
Definition commit (k : slot) : B unit :=
  i ← bget (fun s => ms_slots s k); match i with Some i => log (Commit (si_ptr i)) | None => blift Fault end.
Definition commit_if (k : slot) : B unit :=
  i ← bget (fun s => ms_slots s k); match i with Some i => log (Commit (si_ptr i)) | None => mret tt end.
(** [iput] and the field becomes NULL. *)
Definition release (k : slot) : B unit := iput_slot k;; set_slot k None.
Fixpoint each (f : slot -> B unit) (l : list slot) : B unit := match l with [] => mret tt | k :: l => f k;; each f l end.

(** "NTFS 3.0+ specific" *)
Definition ntfs3_slots : list slot := [usnjrnl_j_ino; usnjrnl_max_ino; usnjrnl_ino; quota_q_ino; quota_ino; extend_ino; secure_ino].
Definition if_ntfs3 (m : B unit) : B unit := major ← bget ms_major_ver; if major >=? 3 then m else mret tt.

Definition commit_all : B unit :=
  commit vol_ino;;
  if_ntfs3 (each commit_if ntfs3_slots);;
  commit root_ino;;
  commit lcnbmp_ino;;
  commit mftbmp_ino;;
  commit_if logfile_ino;;
  commit_if mftmirr_ino;;
  commit mft_ino.

(** "If a read-write mount and no volume errors have occurred, mark the volume clean." *)
Definition mark_clean : B unit :=
  rdonly ← bget ms_rdonly;
  errors ← bget (fun s => vol_errors (vs_w (ms_fs s)));
  if (rdonly : bool) || errors then mret tt
  else
    vol ← bget (fun s => ms_slots s vol_ino);
    on_fs (ntfs_clear_volume_flags upcase upcase_len mft_size mft_record_size_bits PAGE_CACHE_SHIFT (si_ptr <$> vol) VOLUME_IS_DIRTY);;
    commit vol_ino;;
    commit root_ino;;
    commit_if mftmirr_ino;;
    commit mft_ino.

Definition release_mirror : B unit :=
  i ← bget (fun s => ms_slots s mftmirr_ino);
  match i with
  | Some _ => commit mftmirr_ino;; commit mft_ino;; release mftmirr_ino
  | None => mret tt
  end.

Definition write_mft : B unit :=
  commit mft_ino;;
  i ← bget (fun s => ms_slots s mft_ino);
  match i with Some i => log (WriteNow (si_ptr i)) | None => blift Fault end.

(** The upcase tables and the compression buffers. *)
Definition drop_globals : B unit :=
  u ← bget ms_upcase;
  d ← bget ms_default;
  bset (fun s => set_upcase (ms_upcase s) 0 s);;
  match u, d with
  | Some DefaultUpcase, _ | None, None => bset (fun s => set_users (ms_users s - 1) (set_upcase None 0 s))
  | _, _ => mret tt
  end;;
  users ← bget ms_users;
  (if (users =? 0) && bool_decide (is_Some d) then log FreeDefaultUpcase;; bset (set_default None) else mret tt);;
  (if geo_cluster_size geo <=? 4096 then
     bset (fun s => set_compression_users (ms_compression_users s - 1) s);;
     c ← bget ms_compression_users;
     if c =? 0 then log FreeCompressionBuffers else mret tt
   else mret tt);;
  u ← bget ms_upcase;
  match u with Some _ => free_table;; bset (set_upcase None 0) | None => mret tt end.

Definition ntfs_put_super : B unit :=
  commit_all;;
  mark_clean;;
  release vol_ino;;
  if_ntfs3 (each release ntfs3_slots);;
  release root_ino;;
  release lcnbmp_ino;;
  release mftbmp_ino;;
  release logfile_ino;;
  release_mirror;;
  write_mft;;
  release mft_ino;;
  drop_attrdef;;
  drop_globals;;
  log UnloadNls;;
  log FreeVolume.
End Mount.
