(* ===== verification/MountSpec.v ===== *)
(** * Loading the system files: what is held

    Runs of the mount code that return, with what they leave behind: the references
    that are held are those of the fields of the volume, and the pages, tables and
    counts are accounted for. *)

From Stdlib Require Import ZArith Lia Bool.
From stdpp Require Import base list numbers option strings gmap.
From S2P Require Import Prelude Endian Runlist Unistr UnistrTheorems Attrib AttribSpec MftMap MftMapSpec AttrLookup AttrSession Mst Options Readdir ReadPage Inode VolFlags VolFlagsTheorems Mount.
#[local] Open Scope list_scope.
#[local] Open Scope Z_scope.

(** ** Runs *)

(** The operation returns, with a result and in a state that satisfy [Q]. *)
Definition runs {A} (m : B A) (s : mstate) (Q : A -> mstate -> Prop) : Prop := exists s' a, m s = Ret (s', a) /\ Q a s'.

Lemma runs_ret {A} (a : A) s (Q : A -> mstate -> Prop) : Q a s -> runs (mret a) s Q.
Proof. by exists s, a. Qed.
Lemma runs_bind {A A'} (m : B A) (f : A -> B A') s Q : runs m s (fun a s' => runs (f a) s' Q) -> runs (m ≫= f) s Q.
Proof. intros (s' & a & E & s'' & b & E' & H). exists s'', b. split; [|done]. unfold mbind, B_bind. by rewrite E, bind_Ret. Qed.
Lemma runs_mono {A} (m : B A) s (Q Q' : A -> mstate -> Prop) : runs m s Q -> (forall a s', Q a s' -> Q' a s') -> runs m s Q'.
Proof. intros (s' & a & E & H) HQ. exists s', a. auto. Qed.
(** A step followed by the rest, with what the step ensures. *)
Lemma runs_step {A A'} (m : B A) (f : A -> B A') s (P : A -> mstate -> Prop) Q : runs m s P -> (forall a s', P a s' -> runs (f a) s' Q) -> runs (m ≫= f) s Q.
Proof. intros H HQ. apply runs_bind. by eapply runs_mono. Qed.
Lemma runs_and {A} (m : B A) s (P Q : A -> mstate -> Prop) : runs m s P -> runs m s Q -> runs m s (fun a s' => P a s' /\ Q a s').
Proof. intros (s1 & a & E & HP) (s2 & a' & E' & HQ). rewrite E in E'. injection E' as -> ->. exists s2, a'. auto. Qed.
Lemma runs_get {A} (f : mstate -> A) s (Q : A -> mstate -> Prop) : Q (f s) s -> runs (bget f) s Q.
Proof. by exists s, (f s). Qed.
Lemma runs_set (f : mstate -> mstate) s (Q : unit -> mstate -> Prop) : Q tt (f s) -> runs (bset f) s Q.
Proof. by exists (f s), tt. Qed.
Lemma runs_lift {A} (o : outcome A) a s (Q : A -> mstate -> Prop) : o = Ret a -> Q a s -> runs (blift o) s Q.
Proof. intros -> H. by exists s, a. Qed.
Lemma runs_if {A} (b : bool) (m m' : B A) s Q : (b = true -> runs m s Q) -> (b = false -> runs m' s Q) -> runs (if b then m else m') s Q.
Proof. destruct b; auto. Qed.

(** Sequences of the primitive steps. *)
Ltac run1 :=
  match goal with
  | |- runs (mbind _ _) _ _ => apply runs_bind
  | |- runs (mret _) _ _ => apply runs_ret
  | |- runs (bget _) _ _ => apply runs_get; cbv beta
  | |- runs (bset _) _ _ => apply runs_set; cbv beta
  end.
Ltac run := repeat run1.

Lemma drop_one_perm {A} `{EqDecision A} (x : A) l : x ∈ l -> exists l', drop_one x l = Some l' /\ l ≡ₚ x :: l'.
Proof.
  induction l as [|y l IH]; [by intros ?%elem_of_nil|]. cbn [drop_one]. intros Hx. destruct (decide (x = y)) as [->|Hn]; [by exists l|].
  apply elem_of_cons in Hx as [->|Hx]; [done|]. destruct (IH Hx) as (l' & -> & Hp). exists (y :: l'). split; [done|]. rewrite Hp. apply Permutation_swap.
Qed.

Lemma drop_one_head {A} `{EqDecision A} (x : A) l : drop_one x (x :: l) = Some l.
Proof. cbn. by rewrite decide_True. Qed.
Lemma drop_one_second {A} `{EqDecision A} (x y : A) l : drop_one x (y :: x :: l) = Some (y :: l).
Proof. cbn. destruct (decide (x = y)) as [->|]; [done|]. by rewrite decide_True. Qed.

(** ** What does not change *)

(** Everything except the fields of the volume that point to inodes, the references,
    and flags that are only set. *)
Record rest := mk_rest {
  r_fs : vstate; r_rdonly : bool; r_pins : list (ptr * Z); r_mem : Z; r_users : Z; r_upcase : option upcase_table;
  r_attrdef : option (list Z); r_major : Z; r_default : option (list Z);
}.
Definition rest_of (s : mstate) : rest :=
  mk_rest (ms_fs s) (ms_rdonly s) (ms_pins s) (ms_mem s) (ms_users s) (ms_upcase s) (ms_attrdef s) (ms_major_ver s) (ms_default s).

Section Held.
Context `{KA : KernelAlloc} `{ENV : MountEnv} (geo : geometry) (shift : Z).

Lemma iget_run a s : runs (iget a) s (fun r s' => r = a /\ rest_of s' = rest_of s /\ ms_slots s' = ms_slots s /\ ms_refs s' = match a with inr i => si_ptr i :: ms_refs s | inl _ => ms_refs s end).
Proof. destruct a as [e|i]; unfold iget; run; by destruct s. Qed.

Lemma iput_run i s R : ms_refs s ≡ₚ si_ptr i :: R -> runs (iput i) s (fun _ s' => rest_of s' = rest_of s /\ ms_slots s' = ms_slots s /\ ms_refs s' ≡ₚ R).
Proof.
  intros Hr. destruct (drop_one_perm (si_ptr i) (ms_refs s)) as (l & E & Hp); [rewrite Hr; set_solver|]. unfold iput, runs. rewrite E. exists (set_refs l s), tt. split; [done|].
  split_and!; [by destruct s..|]. destruct s; cbn in *. rewrite Hp in Hr. by apply Permutation_cons_inv in Hr.
Qed.

(** The inode that is got is not bad, and referenced once more. *)
Lemma iget_good_run no s : runs (iget_good no) s (fun r s' => rest_of s' = rest_of s /\ ms_slots s' = ms_slots s /\
  match r with inl _ => ms_refs s' ≡ₚ ms_refs s | inr i => env_iget no = inr i /\ si_bad i = false /\ ms_refs s' ≡ₚ si_ptr i :: ms_refs s end).
Proof.
  unfold iget_good. eapply runs_step; [apply iget_run|]. intros r s1 (-> & H1 & H2 & H3). destruct (env_iget no) as [e|i]; [run; by rewrite H3|]. destruct (si_bad i) eqn:Eb.
  - eapply runs_step; [apply (iput_run _ _ (ms_refs s)); by rewrite H3|]. intros _ s2 (G1 & G2 & G3). run. rewrite G1, G2, G3. done.
  - run. by rewrite H3.
Qed.

Lemma iget_good_error no s : runs (iget_good no) s (fun r _ => forall e, r = inl e -> env_iget no = inl e \/ e = - EIO).
Proof.
  unfold iget_good. eapply runs_step; [apply iget_run|]. intros r s1 (-> & _ & _ & H3). destruct (env_iget no) as [e|i]; [run; auto|]. destruct (si_bad i); [|by run].
  eapply runs_step; [apply (iput_run _ _ (ms_refs s)); by rewrite H3|]. intros [] s2 _. run. intros e [= <-]. auto.
Qed.

Lemma map_page_run i n s : runs (map_page i n) s (fun r s' => r = env_map_page i n /\
  match r with inl _ => s' = s | inr _ => s' = set_pins ((si_ptr i, n) :: ms_pins s) s end).
Proof. unfold map_page. destruct (env_map_page i n); run; done. Qed.

Lemma unmap_page_run i n s l : drop_one (si_ptr i, n) (ms_pins s) = Some l -> runs (unmap_page i n) s (fun _ s' => s' = set_pins l s).
Proof. intros E. unfold unmap_page, runs. rewrite E. by exists (set_pins l s), tt. Qed.

Lemma set_pins_pins l s : ms_pins (set_pins l s) = l.
Proof. by destruct s. Qed.
Lemma set_pins_twice l l' s : set_pins l (set_pins l' s) = set_pins l s.
Proof. by destruct s. Qed.
Lemma set_pins_same s : set_pins (ms_pins s) s = s.
Proof. by destruct s. Qed.

(** ** Reading tables *)

Hypothesis Hpage : forall i n d, env_map_page i n = inr d -> zlen d = 2 ^ shift /\ Forall byte_ok d.
Hypothesis Hshift : 12 <= shift < 31.

Lemma read_table_run i size : 0 < size <= 2 ^ shift -> forall n index buf s, 0 <= index -> (index + Z.of_nat n - 1) * 2 ^ shift + size <= zlen buf ->
  runs (read_table shift n i index size buf) s (fun r s' => s' = s /\ match r with Some buf' => zlen buf' = zlen buf | None => True end).
Proof using Hpage Hshift.
  intros Hsz. induction n as [|n IH]; intros index buf s Hi Hlen; cbn [read_table]; [by run|].
  eapply runs_step; [apply map_page_run|]. intros r s1 [-> H1]. destruct (env_map_page i index) as [e|d] eqn:Ep; [by run|]. destruct (Hpage _ _ _ Ep) as [Hd _].
  pose proof (Z.pow_pos_nonneg 2 shift). apply runs_bind. assert (Hb : index * 2 ^ shift + size <= zlen buf) by nia.
  destruct (cut_at buf (index * 2 ^ shift) size) as (a & b & c & -> & Ha & Hb'); [lia..|]. destruct (cut_at d 0 size) as (a' & b' & c' & -> & Ha' & Hb''); [lia..|].
  rewrite Z.shiftl_mul_pow2 by lia. eapply runs_lift; [apply (blit_eq _ _ _ _ _ a b c a' b' c'); congruence|].
  eapply runs_step; [apply unmap_page_run; rewrite H1, set_pins_pins; apply drop_one_head|]. intros _ s2 ->. rewrite H1, set_pins_twice, set_pins_same.
  eapply runs_mono; [apply IH; [lia|]|].
  - rewrite !zlen_app in *. lia.
  - intros [buf'|] s'; [|done]. intros [-> Hz]. split; [done|]. rewrite Hz, !zlen_app. lia.
Qed.

Lemma read_whole_run i n s : 0 < n -> runs (read_whole shift i n) s (fun _ s' => s' = s).
Proof using Hpage Hshift.
  intros Hn. unfold read_whole, PAGE_CACHE_SIZE. rewrite Z.shiftr_div_pow2 by lia. pose proof (Z.pow_pos_nonneg 2 shift ltac:(lia) ltac:(lia)) as Hp.
  assert (Hrest : Z.land n (2 ^ shift - 1) = n mod 2 ^ shift). { replace (2 ^ shift - 1) with (Z.ones shift) by (rewrite Z.ones_equiv; lia). apply Z.land_ones. lia. }
  rewrite Hrest. pose proof (Z.div_mod n (2 ^ shift) ltac:(lia)) as Hdm. pose proof (Z.mod_pos_bound n (2 ^ shift) Hp) as Hm. assert (Hq : 0 <= n / 2 ^ shift) by (apply Z.div_pos; lia).
  assert (Hz : zlen (repeat 0 (Z.to_nat n)) = n) by (unfold zlen; rewrite repeat_length; lia).
  eapply runs_step; [apply read_table_run; [lia|lia|]|].
  - rewrite Hz, Z2Nat.id by lia. nia.
  - intros [buf|] s' [-> Hb]; [|by run]. destruct (Z.eqb_spec (n mod 2 ^ shift) 0) as [E0|E0]; cbn [negb]; [by run|].
    eapply runs_mono; [apply read_table_run; [lia|lia|]|by intros ? ? [-> _]]. rewrite Hb, Hz. nia.
Qed.

Lemma alloc_table_run n s : 0 < n -> runs (alloc_table n) s (fun ok s' => s' = if (ok : bool) then set_mem (ms_mem s + 1) s else s).
Proof using Type.
  intros Hn. assert (E : exists r, ntfs_malloc_nofs n = Ret r). { unfold ntfs_malloc_nofs, __ntfs_malloc. rewrite (proj2 (Z.eqb_neq n 0)) by lia. repeat case_match; eauto. }
  destruct E as [r E]. unfold alloc_table. apply runs_bind. eapply runs_lift; [exact E|]. destruct r; run; done.
Qed.
End Held.

(** ** Stages *)

(** Lists a permutation of which is held, up to the order. *)
Definition held (s : mstate) (K : list slot) : list ptr := omap (fun k => si_ptr <$> ms_slots s k) K.

Definition own_tables (u : option upcase_table) (a : option (list Z)) : Z :=
  (match u with Some (OwnUpcase _) => 1 | _ => 0 end) + (match a with Some _ => 1 | None => 0 end).
Definition default_users (u : option upcase_table) : Z := match u with Some DefaultUpcase => 1 | _ => 0 end.

(** The fields that point to an inode whenever the stage that loads it is passed. *)
Definition required : list slot := [mft_ino; mftbmp_ino; lcnbmp_ino; vol_ino; root_ino].

Definition with_flags (f : Z) (v : vstate) : vstate := mk_vs (vs_w v) (vs_pages v) (vs_dirty_recs v) (vs_dirty_inodes v) f.
(** The mount has become read-only, with or without the error flag. *)
Definition demoted (errors : bool) (r : rest) : rest :=
  let '(mk_rest fs _ pins mem users u a major d) := r in mk_rest (if errors then set_errors_flag fs else fs) true pins mem users u a major d.

(** Other tables. *)
Definition upd_tabs (r : rest) (mem users : Z) (u : option upcase_table) (a : option (list Z)) : rest :=
  mk_rest (r_fs r) (r_rdonly r) (r_pins r) mem users u a (r_major r) (r_default r).

Lemma rest_set_mem m s : rest_of (set_mem m s) = upd_tabs (rest_of s) m (ms_users s) (ms_upcase s) (ms_attrdef s).
Proof. by destruct s. Qed.
Lemma rest_set_users n s : rest_of (set_users n s) = upd_tabs (rest_of s) (ms_mem s) n (ms_upcase s) (ms_attrdef s).
Proof. by destruct s. Qed.
Lemma rest_set_upcase u n s : rest_of (set_upcase u n s) = upd_tabs (rest_of s) (ms_mem s) (ms_users s) u (ms_attrdef s).
Proof. by destruct s. Qed.
Lemma rest_set_attrdef a n s : rest_of (set_attrdef a n s) = upd_tabs (rest_of s) (ms_mem s) (ms_users s) (ms_upcase s) a.
Proof. by destruct s. Qed.

(** What was there before the system files were loaded. *)
Record before := mk_before { b_mft : sysinode; b_refs : list ptr; b_pins : list (ptr * Z); b_mem : Z; b_users : Z; b_default : option (list Z) }.

Section Stages.
Context `{ENV : MountEnv} (b : before) (vi : ptr) (req : list slot).

(** Where the inode in a field comes from. *)
Definition slot_src (k : slot) (i : sysinode) : Prop :=
  match k with
  | mft_ino => i = b_mft b
  | mftmirr_ino => env_iget FILE_MFTMirr = inr i
  | vol_ino => si_ptr i = vi
  | root_ino => env_iget FILE_root = inr i
  | _ => True
  end.

(** The pages, tables and users are accounted for; [tabs] says whether the tables are
    loaded. *)
Record acct (tabs : bool) (r : rest) : Prop := {
  ac_pins : r_pins r = b_pins b;
  ac_mem : r_mem r = b_mem b + own_tables (r_upcase r) (r_attrdef r);
  ac_users : r_users r = b_users b + default_users (r_upcase r);
  ac_default : r_default r = b_default b;
  ac_tabs : if tabs then r_upcase r <> None else r_upcase r = None /\ r_attrdef r = None;
}.

(** On the way forward: the stages of the fields [K] are passed, the others are NULL;
    [X] are references that are held in a local variable. *)
Record Stage (K : list slot) (X : list ptr) (tabs : bool) (G : rest -> Prop) (s : mstate) : Prop := {
  st_refs : ms_refs s ≡ₚ X ++ held s K ++ b_refs b;
  st_nodup : NoDup K;
  st_slots : forall k, match ms_slots s k with Some i => k ∈ K /\ slot_src k i | None => k ∈ K -> k ∉ req end;
  st_acct : acct tabs (rest_of s);
  st_good : G (rest_of s);
}.

(** On the way out. *)
Record Out (K : list slot) (tabs : bool) (G : rest -> Prop) (s : mstate) : Prop := {
  ou_refs : ms_refs s ≡ₚ held s K ++ b_refs b;
  ou_acct : acct tabs (rest_of s);
  ou_good : G (rest_of s);
  ou_mft : ms_slots s mft_ino = Some (b_mft b);
}.

(** [G] does not depend on the tables. *)
Definition tables_free (G : rest -> Prop) : Prop := forall r mem users u a, G r -> G (upd_tabs r mem users u a).

Lemma held_slots s s' K : ms_slots s' = ms_slots s -> held s' K = held s K.
Proof. intros E. unfold held. by rewrite E. Qed.

Lemma Stage_mono K X t (G G' : rest -> Prop) s : Stage K X t G s -> (G (rest_of s) -> G' (rest_of s)) -> Stage K X t G' s.
Proof. intros [H1 H2 H3 H4 H5] HG. constructor; auto. Qed.

(** Only the references have changed. *)
Lemma Stage_refs K X X' t G s s' : Stage K X t G s -> rest_of s' = rest_of s -> ms_slots s' = ms_slots s -> ms_refs s' ≡ₚ X' ++ held s K ++ b_refs b -> Stage K X' t G s'.
Proof. intros [H1 H2 H3 H4 H5] Hr Hs Hp. constructor; rewrite ?Hr, ?Hs; try done. by rewrite (held_slots s s'). Qed.

Lemma Stage_Out K t G s : mft_ino ∈ K -> mft_ino ∈ req -> Stage K [] t G s -> Out K t G s.
Proof.
  intros Hm Hq [H1 H2 H3 H4 H5]. constructor; try done. specialize (H3 mft_ino). destruct (ms_slots s mft_ino) as [i|]; [by destruct H3 as [_ ->]|]. by destruct (H3 Hm).
Qed.

(** A stage whose file is not there. *)
Lemma Stage_skip k K X t G s : k ∉ K -> k ∉ req -> Stage K X t G s -> Stage (k :: K) X t G s.
Proof.
  intros Hk Hr [H1 H2 H3 H4 H5]. assert (E : ms_slots s k = None). { specialize (H3 k). destruct (ms_slots s k) as [i|]; [by destruct H3|done]. }
  constructor; try done; [cbn [held omap list_omap]; by rewrite E|by constructor|]. intros k'. specialize (H3 k'). destruct (ms_slots s k') as [i|]; [split; [right|]; naive_solver|]. intros [->|Hk']%elem_of_cons; auto.
Qed.

Lemma Stage_tables K X t t' G s s' mem users u a : tables_free G -> Stage K X t G s -> ms_slots s' = ms_slots s -> ms_refs s' ≡ₚ ms_refs s -> rest_of s' = upd_tabs (rest_of s) mem users u a ->
  mem = b_mem b + own_tables u a -> users = b_users b + default_users u -> (if t' : bool then u <> None else u = None /\ a = None) -> Stage K X t' G s'.
Proof.
  intros Ht [H1 H2 H3 H4 H5] Es Ep Er Hm Hu Htab. constructor; rewrite ?Er, ?Es; try done.
  - by rewrite Ep, (held_slots s s').
  - destruct H4 as [A1 _ _ A4 _]. by constructor.
  - by apply Ht.
Qed.

(** Only the volume on disk has changed. *)
Lemma Stage_fs K X t (G G' : rest -> Prop) s v : Stage K X t G s -> G' (rest_of (set_fs v s)) -> Stage K X t G' (set_fs v s).
Proof.
  intros [H1 H2 H3 H4 H5] HG. constructor; try done; [by destruct s|by destruct s|]. destruct H4 as [A1 A2 A3 A4 A5]. destruct s. by constructor.
Qed.

(** The inode of a required field. *)
Lemma Stage_slot k K X t G s : Stage K X t G s -> k ∈ K -> k ∈ req -> exists i, ms_slots s k = Some i /\ slot_src k i.
Proof. intros H Hk Hr. pose proof (st_slots _ _ _ _ _ H k) as Hs. destruct (ms_slots s k) as [i|]; [exists i; naive_solver|]. by destruct (Hs Hk). Qed.

Lemma iget_stage a K X t G s : Stage K X t G s -> runs (iget a) s (fun r s' => r = a /\ match a with inl _ => Stage K X t G s' | inr i => Stage K (si_ptr i :: X) t G s' end).
Proof.
  intros H. eapply runs_mono; [apply iget_run|]. intros r s' (-> & H1 & H2 & H3). split; [done|]. pose proof (st_refs _ _ _ _ _ H) as Hr. destruct a; (eapply Stage_refs; [exact H|done|done|]); rewrite H3; [done|]. by rewrite Hr.
Qed.

Lemma iget_good_stage no K X t G s : Stage K X t G s ->
  runs (iget_good no) s (fun r s' => match r with inl _ => Stage K X t G s' | inr i => env_iget no = inr i /\ si_bad i = false /\ Stage K (si_ptr i :: X) t G s' end).
Proof.
  intros H. eapply runs_mono; [apply iget_good_run|]. intros r s' (H1 & H2 & H3). pose proof (st_refs _ _ _ _ _ H) as Hr.
  destruct r; [|destruct H3 as (Ha & Hb & H3); split; [done|]; split; [done|]]; (eapply Stage_refs; [exact H|done|done|]); rewrite H3, Hr; done.
Qed.

Lemma iput_stage i K X t G s : Stage K (si_ptr i :: X) t G s -> runs (iput i) s (fun _ s' => Stage K X t G s').
Proof.
  intros H. eapply runs_mono; [apply (iput_run i s (X ++ held s K ++ b_refs b)); apply H|]. intros _ s' (H1 & H2 & H3). by eapply Stage_refs.
Qed.

Lemma set_slot_stage k i K X t G s : Stage K (si_ptr i :: X) t G s -> k ∉ K -> slot_src k i -> runs (set_slot k (Some i)) s (fun _ s' => Stage (k :: K) X t G s' /\ ms_slots s' k = Some i).
Proof.
  intros [H1 H2 H3 H4 H5] Hk Hi. unfold set_slot. apply runs_set. assert (Es : ms_slots (set_slots (fun k' => if decide (k' = k) then Some i else ms_slots s k') s) = fun k' => if decide (k' = k) then Some i else ms_slots s k') by (by destruct s).
  assert (Er : rest_of (set_slots (fun k' => if decide (k' = k) then Some i else ms_slots s k') s) = rest_of s) by (by destruct s).
  assert (Eh : held (set_slots (fun k' => if decide (k' = k) then Some i else ms_slots s k') s) K = held s K).
  { unfold held. rewrite Es. clear -Hk. induction K as [|k' K IH]; [done|]. cbn. rewrite decide_False by set_solver. by rewrite IH by set_solver. }
  split; [|rewrite Es; by rewrite decide_True].
  constructor; rewrite ?Er; try done.
  - unfold held. cbn [omap list_omap]. fold (held (set_slots (fun k' => if decide (k' = k) then Some i else ms_slots s k') s) K). rewrite Eh. rewrite Es, decide_True by done. cbn [fmap option_fmap option_map].
    replace (ms_refs (set_slots _ s)) with (ms_refs s) by (by destruct s). rewrite H1. cbn [app]. apply Permutation_middle.
  - by constructor.
  - intros k'. rewrite Es. destruct (decide (k' = k)) as [->|Hn]; [split; [by left|done]|]. specialize (H3 k'). destruct (ms_slots s k') as [j|]; [split; [right|]; naive_solver|]. intros [->|Hk']%elem_of_cons; auto.
Qed.

(** ** The labels *)

Lemma iput_slot_out k K t G s : Out (k :: K) t G s -> runs (iput_slot k) s (fun _ s' => Out K t G s').
Proof.
  intros [H1 H2 H3 H4]. unfold iput_slot. run. unfold held in H1. cbn [omap list_omap] in H1. fold (held s K) in H1. destruct (ms_slots s k) as [i|] eqn:Ek; cbn [fmap option_fmap option_map] in H1.
  - eapply runs_mono; [apply (iput_run i s (held s K ++ b_refs b)); exact H1|]. intros _ s' (G1 & G2 & G3). constructor; rewrite ?G1, ?G2; try done. by rewrite (held_slots s s').
  - run. by constructor.
Qed.

Lemma drop_attrdef_out K G s : tables_free G -> Out K true G s -> runs drop_attrdef s (fun _ s' => Out K true G s' /\ ms_attrdef s' = None).
Proof.
  intros Ht [H1 H2 H3 H4]. unfold drop_attrdef. run. assert (Hfin : forall s' m, s' = set_attrdef None 0 (set_mem m s) -> m = ms_mem s - match ms_attrdef s with Some _ => 1 | None => 0 end -> Out K true G s' /\ ms_attrdef s' = None).
  { intros s' m -> ->. destruct s as [fs rd sl refs pins mem users up upl a al mj mn sp q u d c l]. cbn in *. split; [|done]. destruct H2 as [A1 A2 A3 A4 A5]. cbn in *. constructor; cbn; try done.
    - constructor; cbn; try done. unfold own_tables in *. destruct a; lia.
    - apply (Ht _ (mem - match a with Some _ => 1 | None => 0 end) users up None H3). }
  destruct (ms_attrdef s) as [a|] eqn:Ea; unfold free_table; run.
  - eapply Hfin; [reflexivity|done].
  - eapply (Hfin _ (ms_mem s)); [by destruct s|lia].
Qed.

Lemma drop_upcase_out K G s : tables_free G -> ms_attrdef s = None -> Out K true G s -> runs drop_upcase s (fun _ s' => Out K false G s').
Proof.
  intros Ht Ha [H1 H2 H3 H4]. unfold drop_upcase. run. destruct s as [fs rd sl refs pins mem users up upl a al mj mn sp q u d c l]. cbn in *. subst a. destruct H2 as [A1 A2 A3 A4 A5]. cbn in *.
  assert (Hfin : forall m n, m = b_mem b -> n = b_users b -> Out K false G (mk_ms fs rd sl refs pins m n None 0 None al mj mn sp q u d c l)).
  { intros m n -> ->. constructor; cbn; try done; [constructor; cbn; try done; unfold own_tables, default_users; lia|]. apply (Ht _ (b_mem b) (b_users b) None None H3). }
  destruct up as [[|tab]|]; [| |done]; unfold free_table, own_tables, default_users in *; run; cbn; apply Hfin; lia.
Qed.
End Stages.

(** Other fields are required. *)
Lemma Stage_req `{ENV : MountEnv} b vi req req' K X t G s : Stage b vi req K X t G s -> (forall k, k ∈ req' -> ms_slots s k = None -> k ∈ req) -> Stage b vi req' K X t G s.
Proof. intros [H1 H2 H3 H4 H5] Hr. constructor; try done. intros k. specialize (H3 k). specialize (Hr k). destruct (ms_slots s k) as [i|]; [done|]. intros Hk Hq. by apply H3; [|apply Hr]. Qed.

(** A table more, or less, in a local variable. *)
Definition b_add (n : Z) (b : before) : before := mk_before (b_mft b) (b_refs b) (b_pins b) (b_mem b + n) (b_users b) (b_default b).
Lemma Stage_mem `{ENV : MountEnv} n b b' vi req K X t (G : rest -> Prop) s : tables_free G -> b_mft b' = b_mft b -> b_refs b' = b_refs b -> b_pins b' = b_pins b -> b_mem b' = b_mem b + n -> b_users b' = b_users b -> b_default b' = b_default b ->
  Stage b vi req K X t G s -> Stage b' vi req K X t G (set_mem (ms_mem s + n) s).
Proof.
  intros Ht E1 E2 E3 E4 E5 E6 [H1 H2 H3 H4 H5]. constructor; rewrite ?rest_set_mem; try done.
  - rewrite E2. by destruct s.
  - intros k. specialize (H3 k). unfold slot_src in *. rewrite E1. by destruct s.
  - destruct H4 as [A1 A2 A3 A4 A5]. constructor; cbn in *; try congruence. lia.
  - by apply Ht.
Qed.

(** ** The volume through the stages *)

Section Labels.
Context `{ENV : MountEnv} (geo : geometry) (b : before) (vi : ptr) (req : list slot).
Context (upcase : list Z) (upcase_len mft_size bits shift : Z) (y : layout) (fl0 : Z) (ntfs3 : bool).
Local Abbreviation vol_ok := (vol_ok upcase upcase_len mft_size bits shift y vi).
Local Abbreviation Out := (Out b).
Local Abbreviation Stage := (Stage b vi req).

(** The record of $Volume can be read, and is given back. *)
Definition Disk (r : rest) : Prop := exists fl, vol_ok (with_flags fl (r_fs r)).
(** The flags in memory are those on disk, once they are loaded ([vol]); a volume with
    errors is read-only; while it is not, [F] holds; [ntfs3] says that the version is 3.0
    or later. *)
Definition Good (vol : bool) (F : rest -> Prop) (r : rest) : Prop :=
  vol_ok (if vol then r_fs r else with_flags fl0 (r_fs r)) /\ (vol_errors (vs_w (r_fs r)) = true -> r_rdonly r = true) /\ (r_rdonly r = false -> F r) /\ (ntfs3 = true -> 3 <= r_major r).

Lemma with_flags_same v : with_flags (vs_flags v) v = v.
Proof. by destruct v. Qed.
Lemma Good_Disk vol F r : Good vol F r -> Disk r.
Proof. intros [H _]. destruct vol; [exists (vs_flags (r_fs r)); by rewrite with_flags_same|by exists fl0]. Qed.
Lemma Good_mono vol (F F' : rest -> Prop) r : Good vol F r -> (F r -> F' r) -> Good vol F' r.
Proof. intros (H1 & H2 & H3 & H4) HF. split_and!; auto. Qed.
Lemma Disk_tables : tables_free Disk.
Proof. by intros []. Qed.

Lemma Good_demoted vol F F' e r : Good vol F r -> Good vol F' (demoted e r).
Proof.
  intros (H1 & H2 & H3 & H4). destruct r. cbn in *. split_and!; [|done..]. destruct e; [|done]. destruct vol; [by apply vol_ok_errors|]. by apply (vol_ok_errors _ _ _ _ _ _ _ (with_flags fl0 r_fs0)).
Qed.

Definition Failed (r : bool) (s : mstate) : Prop := r = false /\ Out [mft_ino] false Disk s.
Definition K_mirr := [mftmirr_ino; mft_ino].
Definition K_mftbmp := mftbmp_ino :: K_mirr.
Definition K_lcnbmp := lcnbmp_ino :: K_mftbmp.
Definition K_vol := vol_ino :: K_lcnbmp.
Definition K_logfile := logfile_ino :: K_vol.
Definition K_root := root_ino :: K_logfile.
Definition K_sec := secure_ino :: K_root.
Definition K_quota := quota_q_ino :: quota_ino :: extend_ino :: K_sec.
Definition all_slots := usnjrnl_j_ino :: usnjrnl_max_ino :: usnjrnl_ino :: K_quota.

Ltac put := eapply runs_step; [apply iput_slot_out; eassumption|intros [] ? ?].

Lemma mirr_out s : Out K_mirr false Disk s -> runs iput_mirr_err_out s Failed.
Proof. intros H. unfold iput_mirr_err_out. put. run. done. Qed.
Lemma mftbmp_out s : Out K_mftbmp false Disk s -> runs iput_mftbmp_err_out s Failed.
Proof. intros H. unfold iput_mftbmp_err_out. put. by apply mirr_out. Qed.
Lemma upcase_out s : ms_attrdef s = None -> Out K_mftbmp true Disk s -> runs iput_upcase_err_out s Failed.
Proof. intros Ha H. unfold iput_upcase_err_out. eapply runs_step; [by apply drop_upcase_out; [apply Disk_tables|..]|]. intros [] s' H'. by apply mftbmp_out. Qed.
Lemma attrdef_out s : Out K_mftbmp true Disk s -> runs iput_attrdef_err_out s Failed.
Proof. intros H. unfold iput_attrdef_err_out. eapply runs_step; [by apply drop_attrdef_out; [apply Disk_tables|]|]. intros [] s' [H' Ha]. by apply upcase_out. Qed.
Lemma lcnbmp_out s : Out K_lcnbmp true Disk s -> runs iput_lcnbmp_err_out s Failed.
Proof. intros H. unfold iput_lcnbmp_err_out. put. by apply attrdef_out. Qed.
Lemma vol_out s : Out K_vol true Disk s -> runs iput_vol_err_out s Failed.
Proof. intros H. unfold iput_vol_err_out. put. by apply lcnbmp_out. Qed.
Lemma logfile_out s : Out K_logfile true Disk s -> runs iput_logfile_err_out s Failed.
Proof. intros H. unfold iput_logfile_err_out. put. by apply vol_out. Qed.
Lemma root_out s : Out K_root true Disk s -> runs iput_root_err_out s Failed.
Proof. intros H. unfold iput_root_err_out. put. by apply logfile_out. Qed.
Lemma sec_out s : Out K_sec true Disk s -> runs iput_sec_err_out s Failed.
Proof. intros H. unfold iput_sec_err_out. put. by apply root_out. Qed.
Lemma quota_out s : Out K_quota true Disk s -> runs iput_quota_err_out s Failed.
Proof. intros H. unfold iput_quota_err_out. put. put. put. by apply sec_out. Qed.
Lemma usnjrnl_out s : Out all_slots true Disk s -> runs iput_usnjrnl_err_out s Failed.
Proof. intros H. unfold iput_usnjrnl_err_out. put. put. put. by apply quota_out. Qed.

(** ** Checks that make the mount read-only *)

Lemma Stage_out K t vol F s : mft_ino ∈ K -> mft_ino ∈ req -> Stage K [] t (Good vol F) s -> Out K t Disk s.
Proof. intros Hm Hq H. eapply Stage_Out; [done|done|]. eapply Stage_mono; [exact H|apply Good_Disk]. Qed.

Lemma demote_run K t vol F F' e err_out k s Q : Stage K [] t (Good vol F) s -> runs err_out s Q ->
  (forall s', Stage K [] t (Good vol F') s' -> runs k s' Q) -> runs (demote geo e err_out k) s Q.
Proof.
  intros [H1 H2 H3 H4 H5] Herr Hk. unfold demote. run. apply runs_if; [done|]. intros _. run.
  set (s1 := set_rdonly true s). assert (H : forall s', ms_refs s' = ms_refs s -> ms_slots s' = ms_slots s -> rest_of s' = demoted e (rest_of s) -> runs k s' Q).
  { intros s' E1 E2 E3. apply Hk. constructor; rewrite ?E1, ?E2, ?E3; try done.
    - by rewrite (held_slots s s').
    - destruct H4 as [A1 A2 A3 A4 A5]. destruct (rest_of s). by constructor.
    - by eapply Good_demoted. }
  destruct e; run; apply H; by destruct s.
Qed.

Lemma require_run K t vol F F' (ok e : bool) err_out k s Q : Stage K [] t (Good vol F) s -> (ok = true -> F (rest_of s) -> F' (rest_of s)) -> (ok = false -> runs err_out s Q) ->
  (forall s', Stage K [] t (Good vol F') s' -> runs k s' Q) -> runs (require geo ok e err_out k) s Q.
Proof.
  intros H HF Herr Hk. unfold require. destruct ok; [|eapply demote_run; [exact H|by apply Herr|done]]. apply Hk. eapply Stage_mono; [exact H|]. intros Hg. eapply Good_mono; [exact Hg|]. auto.
Qed.

(** A step that is done while the mount is read-write. *)
Lemma if_rw_run K t vol F F' f e err_out k s Q : Stage K [] t (Good vol F) s ->
  (ms_rdonly s = false -> runs f s (fun ok s' => Stage K [] t (Good vol F) s' /\ (ok = true -> F (rest_of s') -> F' (rest_of s')))) ->
  (forall s', Stage K [] t (Good vol F) s' -> runs err_out s' Q) -> (forall s', Stage K [] t (Good vol F') s' -> runs k s' Q) -> runs (if_rw geo f e err_out k) s Q.
Proof.
  intros H Hf Herr Hk. unfold if_rw. run. destruct (ms_rdonly s) eqn:Er.
  - apply Hk. eapply Stage_mono; [exact H|]. intros (G1 & G2 & _ & G4). split_and!; try done. cbn. by rewrite Er.
  - eapply runs_step; [by apply Hf|]. intros ok s' [H' HF]. eapply require_run; [exact H'|exact HF|intros _; by apply Herr|done].
Qed.
End Labels.
