(* ===== verification/MountTheorems.v ===== *)
(** * Loading the system files: theorems

    Loading the system files and unmounting give back what they took, and a mount that
    is read-write has passed every check. *)

From Stdlib Require Import ZArith Lia Bool.
From stdpp Require Import base list numbers option strings gmap.
From S2P Require Import Prelude Endian Runlist Unistr UnistrTheorems Attrib AttribSpec MftMap MftMapSpec AttrLookup AttrSession Mst Options Readdir PageReadSpec ReadPage Inode RunlistTheorems VolFlags VolFlagsTheorems Mount MountSpec.
#[local] Open Scope list_scope.
#[local] Open Scope Z_scope.

(** What the mount code relies on: pages have the size of a page; the mft mirror is not
    resident, so that its runlist is mapped once it was read (the code does not check
    this, see [resident_mirror_null_runlist]); sizes are [loff_t] and
    error codes not 0; the log file that is not
    valid gives no restart page, and one that is valid but not clean does. *)
Class MountLaws `{ENV : MountEnv} (shift : Z) (vi : ptr) : Prop := {
  law_page : forall i n d, env_map_page i n = inr d -> zlen d = 2 ^ shift /\ Forall byte_ok d;
  law_mirror : forall i, env_iget FILE_MFTMirr = inr i -> exists r r' l, si_runlist i = Some (r :: r' :: l);
  law_log : forall i ok rp, env_check_logfile i = (ok, rp) -> (ok = false -> rp = false) /\ (ok = true -> env_logfile_clean = false -> rp = true);
  law_error : (forall no e, env_iget no = inl e -> e <> 0) /\ (forall i n e, env_map_page i n = inl e -> e <> 0) /\ (forall i l e, env_lookup i l = inl e -> e <> 0);
  law_size : forall no i, env_iget no = inr i -> - 2 ^ 63 <= si_size i < 2 ^ 63;
  law_volume : forall i, env_iget FILE_Volume = inr i -> si_ptr i = vi;
}.

(** ** The mft mirror *)

Lemma rd_sle64_inside (d : list Z) p : 0 <= p -> p + 8 <= zlen d -> exists x, rd_sle64 d p = Ret x.
Proof. intros. unfold rd_sle64, rd_le64. rewrite rd_bytes_inside by lia. rewrite !bind_Ret. eauto. Qed.
Lemma rd_u8_inside (d : list Z) p : 0 <= p -> p + 1 <= zlen d -> exists x, rd_u8 d p = Ret x.
Proof. intros. apply rd_in_range. lia. Qed.

Lemma is_baad_inside d p : 0 <= p -> p + 4 <= zlen d -> exists x, is_baad d p = Ret x.
Proof. intros. unfold is_baad, ntfs_is_magicp. destruct (rd_le32_inside d p) as [x ->]; [lia..|]. rewrite bind_Ret. eauto. Qed.

Lemma index_of_record i per : 0 < per -> 0 <= i -> (if i mod per =? 0 then i / per else i / per + 1) = (i + per - 1) / per /\ (i + 1 + per - 1) / per = i / per + 1.
Proof.
  intros Hp Hi. pose proof (Z.div_mod i per ltac:(lia)). pose proof (Z.mod_pos_bound i per Hp). split.
  - destruct (Z.eqb_spec (i mod per) 0); [apply (Z.div_unique _ _ _ (per - 1))|apply (Z.div_unique _ _ _ (i mod per - 1))]; lia.
  - symmetry. apply (Z.div_unique _ _ _ (i mod per)); lia.
Qed.

Section Mirror.
Context `{ENV : MountEnv} (geo : geometry) (shift bits : Z) (vi : ptr) `{LAW : !MountLaws shift vi}.
Hypothesis Hshift : 12 <= shift < 31.
Hypothesis Hbits : 8 <= bits <= shift.
Hypothesis Hgeo : geo_mft_record_size geo = 2 ^ bits.

(** The bytes at [p] of the two pages agree as far as they are in use, at least in the
    header. *)
Definition records_agree (d d' : list Z) (p : Z) : Prop :=
  exists n, MFT_RECORD_OLD_SIZE <= n <= 2 ^ bits /\ take (Z.to_nat n) (drop (Z.to_nat p) d) = take (Z.to_nat n) (drop (Z.to_nat p) d') /\
    (rd_le32 d (p + MFT_bytes_in_use) = Ret n \/ rd_le32 d' (p + MFT_bytes_in_use) = Ret n \/ n = 2 ^ bits).

Lemma used_bytes_run d p : 0 <= p -> p + 2 ^ bits <= zlen d -> exists u, used_bytes geo d p = Ret u /\ forall n, u = Some n -> MFT_RECORD_OLD_SIZE <= n <= 2 ^ bits /\ rd_le32 d (p + MFT_bytes_in_use) = Ret n.
Proof using Hbits Hgeo.
  intros Hp Hd. assert (256 <= 2 ^ bits) by (change 256 with (2 ^ 8); apply Z.pow_le_mono_r; lia). unfold used_bytes. destruct (rd_le32_inside d (p + MFT_bytes_in_use)) as [x Ex]; [unfold MFT_bytes_in_use; lia..|].
  destruct (is_baad_inside d p) as [b Eb]; [lia..|]. rewrite Ex, bind_Ret, Eb, bind_Ret, Hgeo. eexists. split; [done|]. intros n. destruct (Z.ltb_spec x MFT_RECORD_OLD_SIZE); [done|]. rewrite Z.gtb_ltb. destruct (Z.ltb_spec (2 ^ bits) x); [done|]. destruct b; [done|]. intros [= <-]. done.
Qed.

Lemma bad_record_run d p : 0 <= p -> p + 2 ^ bits <= zlen d -> exists x, bad_record d p = Ret x.
Proof using Hbits.
  intros Hp Hd. assert (256 <= 2 ^ bits) by (change 256 with (2 ^ 8); apply Z.pow_le_mono_r; lia). unfold bad_record. destruct (rd_le16_inside d (p + MFT_flags)) as [x ->]; [unfold MFT_flags; lia..|]. rewrite bind_Ret. case_match; [apply is_baad_inside; lia|eauto].
Qed.

Lemma compare_records_run d d' p : 0 <= p -> p + 2 ^ bits <= zlen d -> p + 2 ^ bits <= zlen d' -> exists ok, compare_records geo d d' p = Ret ok /\ (ok = true -> records_agree d d' p).
Proof using Hbits Hgeo.
  intros Hp Hd Hd'. assert (256 <= 2 ^ bits) by (change 256 with (2 ^ 8); apply Z.pow_le_mono_r; lia). unfold compare_records.
  destruct (bad_record_run d p) as [[|] ->]; [done..|by exists false|]. rewrite bind_Ret. destruct (bad_record_run d' p) as [[|] ->]; [done..|by exists false|]. rewrite bind_Ret.
  destruct (used_bytes_run d p Hp Hd) as (u & -> & Hu). rewrite bind_Ret.
  assert (E : exists n, (u ← match u with Some n => Ret (Some n) | None => used_bytes geo d' p end; Ret (default (geo_mft_record_size geo) u)) = Ret n /\ MFT_RECORD_OLD_SIZE <= n <= 2 ^ bits /\
    (rd_le32 d (p + MFT_bytes_in_use) = Ret n \/ rd_le32 d' (p + MFT_bytes_in_use) = Ret n \/ n = 2 ^ bits)).
  { destruct u as [n|]; [exists n; split; [done|]; destruct (Hu n eq_refl); auto|]. destruct (used_bytes_run d' p Hp Hd') as (u' & -> & Hu'). rewrite bind_Ret. destruct u' as [n|]; cbn; [exists n; split; [done|]; destruct (Hu' n eq_refl); auto|].
    exists (2 ^ bits). rewrite Hgeo. split; [done|]. unfold MFT_RECORD_OLD_SIZE. split; [lia|auto]. }
  destruct E as (n & E & Hn & Hor). apply bind_Ret_inv in E as (u' & -> & [= <-]). rewrite bind_Ret. set (n := default _ u') in *. unfold MFT_RECORD_OLD_SIZE in *.
  rewrite !rd_bytes_inside by lia. rewrite !bind_Ret. eexists. split; [done|]. intros Heq%bool_decide_eq_true. exists n. split_and!; [unfold MFT_RECORD_OLD_SIZE; lia|lia|done|done].
Qed.

Definition recs_per_page : Z := 2 ^ shift / 2 ^ bits.

(** Record [j] of $MFT and its copy can be read, and agree. *)
Definition mirrored (mft mirr : sysinode) (j : Z) : Prop :=
  exists d d', env_map_page mft (j / recs_per_page) = inr d /\ env_map_page mirr (j / recs_per_page) = inr d' /\ records_agree d d' (j mod recs_per_page * 2 ^ bits).

Lemma recs_per_page_pos : 0 < recs_per_page /\ recs_per_page * 2 ^ bits = 2 ^ shift.
Proof using Hbits.
  unfold recs_per_page. rewrite <- Z.pow_sub_r by lia. rewrite <- Z.pow_add_r by lia. split; [apply Z.pow_pos_nonneg; lia|f_equal; lia].
Qed.

(** Both pages of an index are mapped. *)
Definition both (mft mirr : sysinode) (n : Z) (s : mstate) : mstate := set_pins ((si_ptr mirr, n) :: (si_ptr mft, n) :: ms_pins s) s.

Lemma unmap_both mft mirr n s : runs (unmap_page mft n;; unmap_page mirr n) (both mft mirr n s) (fun _ s' => s' = s).
Proof using Type.
  unfold both. eapply runs_step; [apply unmap_page_run; rewrite set_pins_pins; apply drop_one_second|]. intros _ s1 ->. eapply runs_mono; [apply unmap_page_run; rewrite set_pins_pins; apply drop_one_head|].
  intros _ s2 ->. by rewrite !set_pins_twice, set_pins_same.
Qed.
Lemma unmap_both_rev {A} mft mirr n s (a : A) : runs (unmap_page mirr n;; unmap_page mft n;; mret a) (both mft mirr n s) (fun r s' => r = a /\ s' = s).
Proof using Type.
  unfold both. eapply runs_step; [apply unmap_page_run; rewrite set_pins_pins; apply drop_one_head|]. intros _ s1 ->. eapply runs_step; [apply unmap_page_run; rewrite set_pins_twice, set_pins_pins; apply drop_one_head|].
  intros _ s2 ->. run. by rewrite !set_pins_twice, set_pins_same.
Qed.

(** Where the pages of the last record are mapped still. *)
Definition loop_state (mft mirr : sysinode) (s0 : mstate) (index : Z) : mstate := if index =? 0 then s0 else both mft mirr (index - 1) s0.

Lemma mirror_loop_run mft mirr s0 n : forall i index kmft kmirr, 0 <= i -> index = (i + recs_per_page - 1) / recs_per_page -> (0 < n)%nat \/ 0 < i ->
  (i mod recs_per_page <> 0 -> env_map_page mft (index - 1) = inr kmft /\ env_map_page mirr (index - 1) = inr kmirr) ->
  runs (mirror_loop geo shift n mft mirr i index kmft kmirr) (loop_state mft mirr s0 index) (fun ok s' => s' = s0 /\ (ok = true -> forall j, i <= j < i + Z.of_nat n -> mirrored mft mirr j)).
Proof using LAW Hbits Hgeo Hshift.
  pose proof recs_per_page_pos as [Hper Hmul]. induction n as [|n IH]; intros i index kmft kmirr Hi Hindex Hn Hmapped; destruct (index_of_record i recs_per_page Hper Hi) as [Ei En]; pose proof (Z.div_pos i recs_per_page Hi Hper) as Hq; cbn [mirror_loop].
  - assert (Hx : index <> 0). { rewrite Hindex, <- Ei. pose proof (Z.div_mod i recs_per_page ltac:(lia)). destruct (Z.eqb_spec (i mod recs_per_page) 0) as [E0|]; [|lia]. intros Ez. rewrite Ez in *. lia. }
    unfold loop_state. rewrite (proj2 (Z.eqb_neq _ _)) by done. apply runs_bind. eapply runs_mono; [apply unmap_page_run; unfold both; rewrite set_pins_pins; apply drop_one_second|]. intros _ s1 ->. unfold both. rewrite set_pins_twice.
    eapply runs_step; [apply unmap_page_run; rewrite set_pins_pins; apply drop_one_head|]. intros _ s2 ->. run. rewrite set_pins_twice, set_pins_same. split; [done|]. intros _ j Hj. lia.
  - assert (Hcheck : forall d d', env_map_page mft (i / recs_per_page) = inr d -> env_map_page mirr (i / recs_per_page) = inr d' ->
      runs (ok ← blift (compare_records geo d d' (i mod (PAGE_CACHE_SIZE shift / geo_mft_record_size geo) * geo_mft_record_size geo));
            if (ok : bool) then mirror_loop geo shift n mft mirr (i + 1) (i / recs_per_page + 1) d d'
            else unmap_page mirr (i / recs_per_page + 1 - 1);; unmap_page mft (i / recs_per_page + 1 - 1);; mret false)
        (both mft mirr (i / recs_per_page) s0) (fun ok s' => s' = s0 /\ (ok = true -> forall j, i <= j < i + Z.of_nat (S n) -> mirrored mft mirr j))).
    { intros d d' Ed Ed'. unfold PAGE_CACHE_SIZE. rewrite Hgeo. fold recs_per_page. pose proof (Z.mod_pos_bound i recs_per_page Hper) as Hm. destruct (law_page _ _ _ Ed) as [Hz _], (law_page _ _ _ Ed') as [Hz' _].
      pose proof (Z.pow_pos_nonneg 2 bits ltac:(lia) ltac:(lia)). destruct (compare_records_run d d' (i mod recs_per_page * 2 ^ bits)) as (ok & Eok & Hok); [nia..|].
      apply runs_bind. eapply runs_lift; [exact Eok|]. replace (i / recs_per_page + 1 - 1) with (i / recs_per_page) by lia. destruct ok; [|eapply runs_mono; [apply unmap_both_rev|]; intros ok s' [-> ->]; done].
      assert (Es : both mft mirr (i / recs_per_page) s0 = loop_state mft mirr s0 (i / recs_per_page + 1)). { unfold loop_state. rewrite (proj2 (Z.eqb_neq _ _)) by lia. f_equal. lia. }
      rewrite Es. eapply runs_mono; [apply IH; [lia|by rewrite En|lia|]|].
      - intros _. by replace (i / recs_per_page + 1 - 1) with (i / recs_per_page) by lia.
      - intros ok s' [-> Hj]. split; [done|]. intros Ht j Hij. destruct (decide (j = i)) as [->|]; [exists d, d'; auto|]. apply Hj; [done|lia]. }
    replace (PAGE_CACHE_SIZE shift / geo_mft_record_size geo) with recs_per_page in * by (unfold PAGE_CACHE_SIZE; by rewrite Hgeo). rewrite <- Ei in Hindex.
    destruct (Z.eqb_spec (i mod recs_per_page) 0) as [E0|E0].
    + subst index. eapply (runs_step _ _ _ (fun _ s' => s' = s0)).
      { unfold loop_state. destruct (Z.eqb_spec (i / recs_per_page) 0); cbn [negb]; [by run|apply unmap_both]. }
      intros _ s1 ->. eapply runs_step; [apply map_page_run|]. intros r s1 [-> Hs1]. destruct (env_map_page mft (i / recs_per_page)) as [e|d] eqn:Ed; [by run; subst s1|]. subst s1.
      eapply runs_step; [apply map_page_run|]. intros r s1 [-> Hs1]. destruct (env_map_page mirr (i / recs_per_page)) as [e|d'] eqn:Ed'.
      * subst s1. eapply runs_step; [apply unmap_page_run; rewrite set_pins_pins; apply drop_one_head|]. intros _ s2 ->. run. by rewrite set_pins_twice, set_pins_same.
      * subst s1. rewrite set_pins_pins, set_pins_twice. by apply Hcheck.
    + destruct (Hmapped E0) as [Ed Ed']. unfold loop_state. subst index. replace (i / recs_per_page + 1 - 1) with (i / recs_per_page) in * by lia. rewrite (proj2 (Z.eqb_neq _ _)) by lia. by apply Hcheck.
Qed.

Hypothesis Hsize : 0 < geo_mftmirr_size geo.
Hypothesis Hcluster : 0 < geo_cluster_size geo /\ geo_mftmirr_size geo * 2 ^ bits + geo_cluster_size geo <= 2 ^ 32.

(** The mirror has every record, and is where the boot sector says. *)
Definition mirror_ok (mft mirr : sysinode) : Prop :=
  (forall j, 0 <= j < geo_mftmirr_size geo -> mirrored mft mirr j) /\ exists l, si_runlist mirr = Some (mirror_runlist geo ++ l).

Lemma same_run_eq r r' : same_run r r' = true -> r = r'.
Proof using Type. destruct r, r'. unfold same_run. cbn. rewrite !andb_true_iff, !Z.eqb_eq. by intros [[-> ->] ->]. Qed.

Lemma compare_runs_run r r' l : exists ok, compare_runs (mirror_runlist geo) (r :: r' :: l) 0 = Ret ok /\ (ok = true -> r :: r' :: l = mirror_runlist geo ++ l).
Proof using Hbits Hgeo Hsize Hcluster.
  pose proof (Z.pow_pos_nonneg 2 bits ltac:(lia) ltac:(lia)). assert (Hlen : u32 (geo_mftmirr_size geo * geo_mft_record_size geo + geo_cluster_size geo - 1) / geo_cluster_size geo <> 0).
  { rewrite Hgeo. unfold u32. rewrite Z.mod_small by nia. assert (1 <= (geo_mftmirr_size geo * 2 ^ bits + geo_cluster_size geo - 1) / geo_cluster_size geo) by (apply Z.div_le_lower_bound; nia). lia. }
  unfold mirror_runlist. set (len := _ / _) in *. cbv zeta. cbn [compare_runs app rl_length]. change (rd (r :: r' :: l) 0) with (Ret r : outcome runlist_element). change (rd (r :: r' :: l) (0 + 1)) with (Ret r' : outcome runlist_element). rewrite !bind_Ret.
  destruct (same_run _ r) eqn:E1; cbn [negb]; [|by exists false]. rewrite (proj2 (Z.eqb_neq _ _)) by done. cbn [negb]. destruct (same_run _ r') eqn:E2; cbn; [|by exists false].
  exists true. split; [done|]. intros _. by rewrite <- (same_run_eq _ _ E1), <- (same_run_eq _ _ E2).
Qed.

Lemma check_mft_mirror_run mft mirr s : ms_slots s mft_ino = Some mft -> ms_slots s mftmirr_ino = Some mirr -> env_iget FILE_MFTMirr = inr mirr ->
  runs (check_mft_mirror geo shift) s (fun ok s' => s' = s /\ (ok = true -> mirror_ok mft mirr)).
Proof using LAW Hbits Hgeo Hshift Hsize Hcluster.
  intros Hm Hr Hi. pose proof recs_per_page_pos as [Hper _]. unfold check_mft_mirror. replace (PAGE_CACHE_SIZE shift / geo_mft_record_size geo) with recs_per_page by (unfold PAGE_CACHE_SIZE; by rewrite Hgeo).
  rewrite !(proj2 (Z.eqb_neq _ 0)) by lia. run. eapply runs_lift; [reflexivity|]. run. eapply runs_lift; [reflexivity|]. run. rewrite Hm, Hr.
  apply runs_bind. assert (H0 : (0 + recs_per_page - 1) / recs_per_page = 0) by (apply Z.div_small; lia).
  eapply runs_mono; [apply (mirror_loop_run mft mirr s _ 0 0 [] []); [done|done|lia|by rewrite Zmod_0_l]|]. intros ok s' [-> Hok]. destruct ok; cbn [negb]; [|by run].
  destruct (law_mirror _ Hi) as (r & r' & l & Erl). rewrite Erl. destruct (compare_runs_run r r' l) as (ok & E & Hrl). eapply runs_lift; [exact E|]. split; [done|]. intros ->. split.
  - intros j Hj. apply Hok; [done|lia].
  - exists l. by rewrite Erl, Hrl at 1.
Qed.
End Mirror.

(** ** The tables *)

Section Tables.
Context `{KA : KernelAlloc} `{ENV : MountEnv} (shift : Z) (vi : ptr) `{LAW : !MountLaws shift vi}.
Hypothesis Hshift : 12 <= shift < 31.

(** What loading the upcase table does to the rest: [ok] says whether there is one. *)
Definition upcase_loaded (s : mstate) (ok : bool) (s' : mstate) : Prop :=
  ms_slots s' = ms_slots s /\ ms_refs s' ≡ₚ ms_refs s /\
  if ok then exists u, rest_of s' = upd_tabs (rest_of s) (ms_mem s + own_tables (Some u) None) (ms_users s + default_users (Some u)) (Some u) (ms_attrdef s)
  else rest_of s' = rest_of s.

(** A state in which only inodes were got and put, and tables allocated and freed. *)
Definition same_but_mem (s s' : mstate) (R : list ptr) (n : Z) : Prop :=
  ms_slots s' = ms_slots s /\ ms_refs s' ≡ₚ R /\ rest_of s' = upd_tabs (rest_of s) (ms_mem s + n) (ms_users s) (ms_upcase s) (ms_attrdef s).

Lemma same_but_mem_mem s s' R n : same_but_mem s s' R n -> ms_mem s' = ms_mem s + n.
Proof using Type. intros (_ & _ & E). by injection E. Qed.

Lemma iget_same no s : runs (iget_good no) s (fun r s' => match r with inl _ => same_but_mem s s' (ms_refs s) 0 | inr i => env_iget no = inr i /\ same_but_mem s s' (si_ptr i :: ms_refs s) 0 end).
Proof using Type.
  eapply runs_mono; [apply iget_good_run|]. assert (E0 : rest_of s = upd_tabs (rest_of s) (ms_mem s + 0) (ms_users s) (ms_upcase s) (ms_attrdef s)) by (unfold upd_tabs; rewrite Z.add_0_r; done).
  intros [e|i] s' (H1 & H2 & H3); [|destruct H3 as (Hi & _ & H3); split; [done|]]; by rewrite E0 in H1.
Qed.

Lemma iput_same s s1 i R n : same_but_mem s s1 (si_ptr i :: R) n -> runs (iput i) s1 (fun _ s' => same_but_mem s s' R n).
Proof using Type. intros (H1 & H2 & H3). eapply runs_mono; [apply iput_run; exact H2|]. intros _ s' (G1 & G2 & G3). split_and!; [by rewrite G2|done|by rewrite G1]. Qed.

Lemma mem_same s s1 R n m : same_but_mem s s1 R n -> same_but_mem s (set_mem (ms_mem s1 + m) s1) R (n + m).
Proof using Type.
  intros H. pose proof (same_but_mem_mem _ _ _ _ H) as Hm. destruct H as (H1 & H2 & H3). split_and!; [by destruct s1|by destruct s1|]. rewrite rest_set_mem, H3, Hm. change (ms_users s1) with (r_users (rest_of s1)). change (ms_upcase s1) with (r_upcase (rest_of s1)). change (ms_attrdef s1) with (r_attrdef (rest_of s1)). rewrite H3. unfold upd_tabs. cbn. f_equal. lia.
Qed.

Lemma same_upcase s s1 n u len k : same_but_mem s s1 (ms_refs s) n -> n = own_tables (Some u) None -> k = default_users (Some u) ->
  upcase_loaded s true (set_users (ms_users s1 + k) (set_upcase (Some u) len s1)).
Proof using Type.
  intros (H1 & H2 & H3) -> ->. split_and!; [by destruct s1|by destruct s1|]. exists u. destruct s1; cbn in *. unfold upd_tabs in *. cbn in *. injection H3 as -> -> -> -> -> _ -> -> ->. done.
Qed.

Lemma same_failed s s1 : ms_upcase s = None -> same_but_mem s s1 (ms_refs s) 0 -> runs upcase_failed s1 (upcase_loaded s).
Proof using Type.
  intros Hu H. unfold upcase_failed. run. destruct (ms_default s1) as [d|]; run.
  - apply (same_upcase s s1 0 DefaultUpcase _ 1); auto.
  - destruct H as (H1 & H2 & H3). split_and!; try done. rewrite H3. unfold upd_tabs. rewrite Z.add_0_r. done.
Qed.

Lemma iput_upcase_failed_run s s1 i (al : bool) : ms_upcase s = None -> same_but_mem s s1 (si_ptr i :: ms_refs s) (if al then 1 else 0) -> runs (iput_upcase_failed i al) s1 (upcase_loaded s).
Proof using Type.
  intros Hu H. unfold iput_upcase_failed. eapply runs_step; [by apply iput_same|]. intros [] s2 H2. eapply (runs_step _ _ _ (fun _ s' => same_but_mem s s' (ms_refs s) 0)).
  - destruct al; unfold free_table; run; [|done]. by apply (mem_same s s2 _ 1 (-1)).
  - intros [] s3 (G1 & G2 & G3). run. apply same_failed; [done|]. split_and!; [by destruct s3|by destruct s3|]. destruct s3. cbn in *. unfold upd_tabs in *. cbn in *. rewrite Hu in *. by injection G3 as -> -> -> -> -> _ -> -> ->.
Qed.

Lemma use_upcase_run s s1 tab : same_but_mem s s1 (ms_refs s) 1 -> runs (use_upcase tab) s1 (upcase_loaded s).
Proof using Type.
  intros H. assert (Hown : upcase_loaded s true (set_upcase (Some (OwnUpcase tab)) (zlen tab) s1)).
  { replace (set_upcase _ _ s1) with (set_users (ms_users s1 + 0) (set_upcase (Some (OwnUpcase tab)) (zlen tab) s1)) by (destruct s1; cbn; by rewrite Z.add_0_r). by eapply same_upcase; auto. }
  unfold use_upcase. run. destruct (ms_default s1) as [d|]; [|by run]. destruct (same_prefix _ tab d); unfold free_table; run; [|done].
  eapply (same_upcase s (set_mem (ms_mem s1 - 1) s1) 0 DefaultUpcase _ 1); auto. apply (mem_same s s1 _ 1 (-1) H).
Qed.

Lemma load_and_init_upcase_run s : ms_upcase s = None -> runs (load_and_init_upcase shift) s (upcase_loaded s).
Proof using LAW Hshift.
  intros Hu. unfold load_and_init_upcase. eapply runs_step; [apply iget_same|]. intros [e|i] s1 H1; [by apply same_failed|]. destruct H1 as [Hi H1].
  apply runs_if; [intros _; by apply iput_upcase_failed_run|]. intros Hsz. rewrite !orb_false_iff in Hsz. destruct Hsz as [[Hz%Z.eqb_neq _] Hmax].
  assert (Hpos : 0 < si_size i). { destruct (Z.lt_trichotomy (si_size i) 0) as [Hn|[?|?]]; [|lia|lia]. exfalso. pose proof (law_size _ _ Hi). unfold u64 in Hmax. replace (si_size i mod _) with (si_size i + 0x10000000000000000) in Hmax by (apply (Z.mod_unique _ _ (-1)); lia). lia. }
  eapply runs_step; [by apply alloc_table_run|]. intros [|] s2 ->; cbn [negb]; [|by apply iput_upcase_failed_run].
  pose proof (mem_same _ _ _ _ 1 H1) as H2. eapply runs_step; [apply (read_whole_run shift law_page Hshift); done|]. intros [buf|] s3 ->; [|by apply iput_upcase_failed_run].
  eapply runs_step; [by apply iput_same|]. intros [] s4 H4. by apply use_upcase_run.
Qed.

Definition attrdef_loaded (s : mstate) (ok : bool) (s' : mstate) : Prop :=
  ms_slots s' = ms_slots s /\ ms_refs s' ≡ₚ ms_refs s /\
  if ok then exists l, rest_of s' = upd_tabs (rest_of s) (ms_mem s + 1) (ms_users s) (ms_upcase s) (Some l) else rest_of s' = rest_of s.

Lemma same_attrdef s s' : same_but_mem s s' (ms_refs s) 0 -> attrdef_loaded s false s'.
Proof using Type. intros (H1 & H2 & H3). split_and!; [done..|]. rewrite H3. unfold upd_tabs. by rewrite Z.add_0_r. Qed.

Lemma load_and_init_attrdef_run s : ms_attrdef s = None -> runs (load_and_init_attrdef shift) s (attrdef_loaded s).
Proof using LAW Hshift.
  intros Ha. unfold load_and_init_attrdef. eapply runs_step; [apply iget_same|]. intros [e|i] s1 H1; [run; by apply same_attrdef|]. destruct H1 as [_ H1].
  assert (Hput : forall s1, same_but_mem s s1 (si_ptr i :: ms_refs s) 0 -> runs (iput i;; mret false) s1 (attrdef_loaded s)).
  { intros s2 H2. eapply runs_step; [by apply iput_same|]. intros [] s3 H3. run. by apply same_attrdef. }
  apply runs_if; [intros _; by apply Hput|]. intros Hsz. rewrite orb_false_iff, Z.leb_gt in Hsz. destruct Hsz as [Hpos _].
  eapply runs_step; [by apply alloc_table_run|]. intros [|] s2 ->; cbn [negb]; [|by apply Hput].
  pose proof (mem_same _ _ _ _ 1 H1) as H2. set (s2 := set_mem _ s1) in *. eapply runs_step; [apply (read_whole_run shift law_page Hshift); done|]. intros [buf|] s3 ->.
  - run. assert (Eset : ms_slots (set_attrdef (Some buf) (si_size i) s2) = ms_slots s2 /\ ms_refs (set_attrdef (Some buf) (si_size i) s2) = ms_refs s2) by (by destruct s2). destruct Eset as [Es Er]. destruct H2 as (G1 & G2 & G3).
    eapply runs_mono; [apply (iput_run i _ (ms_refs s)); by rewrite Er|]. intros [] s4 (K1 & K2 & K3). run. split_and!; [by rewrite K2, Es|done|]. exists buf. rewrite K1, rest_set_attrdef.
    change (ms_mem s2) with (r_mem (rest_of s2)). change (ms_users s2) with (r_users (rest_of s2)). change (ms_upcase s2) with (r_upcase (rest_of s2)). by rewrite G3.
  - unfold free_table. run. apply (mem_same _ _ _ _ (-1)) in H2. set (s3 := set_mem _ s2) in *. eapply (runs_mono _ _ (fun _ s' => same_but_mem s s' (ms_refs s) 0)).
    + apply iput_same. destruct H2 as (G1 & G2 & G3). split_and!; [by destruct s3|by destruct s3|]. rewrite rest_set_attrdef. change (ms_mem s3) with (r_mem (rest_of s3)). change (ms_users s3) with (r_users (rest_of s3)). change (ms_upcase s3) with (r_upcase (rest_of s3)). by rewrite G3, Ha.
    + intros [] s4 H4. run. by apply same_attrdef.
Qed.
End Tables.

(** ** $Volume *)

Section Volume.
Context (upcase : list Z) (upcase_len mft_size bits shift : Z) (y : layout) (vi : ptr).
Hypothesis Htab : table_ok upcase upcase_len.
Hypothesis Hbits : 8 <= bits <= shift.
Hypothesis Hshift : shift < 31.
Local Abbreviation vol_ok := (vol_ok upcase upcase_len mft_size bits shift y vi).

Lemma read_volume_information_run m fl p1 p2 p3 p4 p5 p6 : volume_record upcase upcase_len y m fl ->
  exists r, read_volume_information (mk_ctx m (ly_pos y) p1 p2 p3 p4 p5 p6) = Ret r /\ forall flags major minor, r = Some (flags, major, minor) -> flags = fl.
Proof using Type.
  intros [_ _ H3 _ _ H6 _ _ H9 [H10 H11] H12 H13]. assert (Ht : 0 <= total (ly_before y)) by (apply total_nonneg; unfold ly_attrs in H6; by apply Forall_app in H6 as [? _]).
  assert (Hp : 32 <= ly_pos y) by (unfold ly_pos; lia). unfold read_volume_information. cbn [mrec attr].
  destruct (rd_u8_inside m (ly_pos y + A_non_resident)) as [nr ->]; [unfold A_non_resident; lia..|]. rewrite bind_Ret. destruct (rd_le16_inside m (ly_pos y + A_flags)) as [af ->]; [unfold A_flags; lia..|]. rewrite bind_Ret.
  case_match; [by exists None|]. rewrite H9, bind_Ret. destruct (rd_le32_inside m (ly_pos y + A_value_length)) as [vl ->]; [unfold A_value_length; lia..|]. rewrite bind_Ret.
  destruct (rd_le32_inside m (ly_pos y + A_length)) as [al ->]; [unfold A_length; lia..|]. rewrite bind_Ret. case_match; [by exists None|]. fold (ly_flags y). rewrite H13, bind_Ret.
  destruct (rd_u8_inside m (ly_pos y + ly_vo y + VI_major_ver)) as [mj ->]; [unfold VI_major_ver; lia..|]. rewrite bind_Ret. destruct (rd_u8_inside m (ly_pos y + ly_vo y + VI_minor_ver)) as [mn ->]; [unfold VI_minor_ver; lia..|]. rewrite bind_Ret.
  eexists. split; [done|]. by intros ? ? ? [= <- _ _].
Qed.

(** Nothing is left of it. *)
Definition looked_up (s s' : vstate) : Prop := exists w', s' = set_w w' s /\ kept (vs_w s) w'.

Lemma vol_ok_looked_up s s' fl : looked_up s s' -> vol_ok (with_flags fl s) -> vol_ok (with_flags fl s').
Proof using Type.
  intros (w' & -> & Hk) (H1 & H2 & i & inos & m & H3 & H4). split; [done|]. split; [done|]. exists i, inos, m. split; [by eapply base_ok_kept|done].
Qed.

Lemma load_volume_information_run s fl : vol_ok (with_flags fl s) ->
  exists s' r, load_volume_information shift mft_size bits upcase upcase_len vi s = Ret (s', r) /\ looked_up s s' /\ forall flags major minor, r = Some (flags, major, minor) -> flags = fl.
Proof using Htab Hbits Hshift.
  intros (Hok & Hfl & i & inos & m & Hb & Hid & Hal & Hrec & Hv). cbn [with_flags vs_pages vs_w vs_flags] in *. unfold load_volume_information.
  pose proof (bo_base _ _ _ _ Hb) as Hi.
  destruct (map_record_spec (vs_pages s) mft_size bits shift Hbits Hshift ltac:(intros; by eapply Hok) (vs_w s) vi i Hi Hid) as (r & errs & Hr & Em).
  destruct Hr as [m' Hrec' _|e errs Hno]; [|by destruct (Hno m)]. assert (m' = m) as ->. { destruct Hrec as (_ & d & H1 & _ & ->), Hrec' as (_ & d' & H2 & _ & ->). congruence. }
  set (w1 := after_map bits shift (vs_w s) vi i (inr m) false) in *. erewrite V_run by (apply (on_w_run _ s); exact Em). cbv beta iota.
  destruct (get_ctx_any w1 vi m (ly_off y)) as (w2 & H1 & H2 & H3 & Hc); [apply Hv|]. assert (Hk : kept w1 w2) by done.
  destruct (unmap_kept bits shift (vs_w s) w2 vi i m Hi Hid Hk) as (w' & Eu & Hk').
  destruct Hc as [Ec|[_ Ec]]; erewrite V_run by (apply (on_w_run _ (set_w w1 s)); exact Ec); cbv beta iota.
  - assert (Hi2 : inodes w2 !! vi = Some (mapped bits shift i)) by (rewrite H1; cbn; by rewrite lookup_insert_eq).
    destruct (base_lookup_run upcase upcase_len Htab m (ly_alloc y) (ly_off y) (ly_attrs y) (vr_alloc _ _ _ _ _ Hv) (vr_at _ _ _ _ _ Hv) (vr_sorted _ _ _ _ _ Hv) (vs_pages s) mft_size bits shift AT_VOLUME_INFORMATION w2 vi _ ltac:(done) ltac:(done) Hi2 Hal)
      as (o & err & El & Ho & _). destruct (Ho _ (volume_record_find _ _ _ _ _ Hv)) as [-> ->].
    erewrite V_run by (apply (on_w_run _ (set_w w2 (set_w w1 s))); exact El). cbn [Z.eqb negb].
    destruct (read_volume_information_run m fl false vi None None None None Hv) as (r & Er & Hf). erewrite V_run by (apply vlift_run; exact Er).
    erewrite V_run by (apply on_w_run; reflexivity). erewrite V_run by (apply on_w_run; exact Eu). eexists _, r. split; [reflexivity|]. split; [|exact Hf]. by exists w'.
  - erewrite V_run by (apply on_w_run; exact Eu). eexists _, None. split; [reflexivity|]. split; [by exists w'|done].
Qed.
End Volume.

(** ** The stages *)

Section Load.
Context `{KA : KernelAlloc} `{ENV : MountEnv} (geo : geometry) (shift bits mft_size : Z) (upcase : list Z) (upcase_len : Z) (y : layout) (fl0 : Z) (b : before) (vi : ptr) `{LAW : !MountLaws shift vi}.
Hypothesis Htab : table_ok upcase upcase_len.
Hypothesis Hshift : 12 <= shift < 31.
Hypothesis Hbits : 8 <= bits <= shift.
Hypothesis Hgeo : geo_mft_record_size geo = 2 ^ bits.
Hypothesis Hsize : 0 < geo_mftmirr_size geo.
Hypothesis Hcluster : 0 < geo_cluster_size geo /\ geo_mftmirr_size geo * 2 ^ bits + geo_cluster_size geo <= 2 ^ 32.

Local Abbreviation Good := (Good vi upcase upcase_len mft_size bits shift y fl0 false).
Local Abbreviation Good3 := (MountSpec.Good vi upcase upcase_len mft_size bits shift y fl0 true).
Local Abbreviation Disk := (Disk vi upcase upcase_len mft_size bits shift y).
Local Abbreviation Failed := (Failed b vi upcase upcase_len mft_size bits shift y).
Local Abbreviation Stage := (Stage b vi required).
Local Abbreviation Stage3 := (MountSpec.Stage b vi (extend_ino :: required)).
Local Abbreviation Out := (Out b).

(** hiberfil.sys is not there, or starts with 4 KiB of zeroes. *)
Definition not_hibernated : Prop :=
  exists root, env_iget FILE_root = inr root /\
  match env_lookup root hiberfil with
  | inl e => e = - ENOENT
  | inr mref => exists f d, env_iget (MREF mref) = inr f /\ NTFS_HIBERFIL_HEADER_SIZE <= si_size f /\ env_map_page f 0 = inr d /\ take (Z.to_nat NTFS_HIBERFIL_HEADER_SIZE) d = repeat 0 (Z.to_nat NTFS_HIBERFIL_HEADER_SIZE)
  end.
(** $LogFile is valid, and clean. *)
Definition log_clean : Prop := exists i rp, env_iget FILE_LogFile = inr i /\ env_check_logfile i = (true, rp) /\ env_logfile_clean = true.
Definition mirror_checked : Prop := exists mirr, env_iget FILE_MFTMirr = inr mirr /\ mirror_ok geo shift bits (b_mft b) mirr.

(** What a mount has passed while it is read-write. *)
Definition F1 (_ : rest) : Prop := mirror_checked.
Definition F2 (r : rest) : Prop := F1 r /\ Z.land fl0 VOLUME_MUST_MOUNT_RO_MASK = 0.
Definition F3 (r : rest) : Prop := F2 r /\ log_clean.
Definition F4 (r : rest) : Prop := F3 r /\ not_hibernated.
Definition F5 (r : rest) : Prop := F4 r /\ dirty (vs_flags (r_fs r)).
Definition F6 (r : rest) : Prop := F5 r /\ env_empty_logfile = true.
Definition F7 (r : rest) : Prop := F6 r /\ env_mark_quotas = true.
Definition F8 (r : rest) : Prop := F7 r /\ env_stamp_usnjrnl = true.
(** At the end: before NTFS 3.0 there are no quotas and no change journal. *)
Definition Passed (r : rest) : Prop := F6 r /\ (3 <= r_major r -> env_mark_quotas = true /\ env_stamp_usnjrnl = true).

Definition Final (ok : bool) (s : mstate) : Prop := if ok then Stage all_slots [] true (Good true Passed) s /\ (ms_major_ver s < 3 -> forall k, k ∈ ntfs3_slots -> ms_slots s k = None) else Out [mft_ino] false Disk s.

Lemma Failed_Final {m : B bool} {s} : runs m s Failed -> runs m s Final.
Proof. intros H. eapply runs_mono; [exact H|]. by intros ? ? [-> ?]. Qed.

Ltac not_in := unfold required, all_slots, K_quota, K_sec, K_root, K_logfile, K_vol, K_lcnbmp, K_mftbmp, K_mirr; intros ?; repeat match goal with H : _ ∈ _ :: _ |- _ => apply elem_of_cons in H as [H|H]; [discriminate H|] | H : _ ∈ [] |- _ => by apply elem_of_nil in H end.
Ltac has_mft := unfold required, all_slots, K_quota, K_sec, K_root, K_logfile, K_vol, K_lcnbmp, K_mftbmp, K_mirr; repeat constructor.

(** *** Quotas and the change journal *)

Lemma set_flag_stage req f K X t G s : (forall s, rest_of (f s) = rest_of s /\ ms_slots (f s) = ms_slots s /\ ms_refs (f s) = ms_refs s) -> MountSpec.Stage b vi req K X t G s -> MountSpec.Stage b vi req K X t G (f s).
Proof. intros Hf H. destruct (Hf s) as (H1 & H2 & H3). eapply Stage_refs; [exact H|done|done|]. rewrite H3. apply H. Qed.

Lemma load_and_init_quota_run t G s : Stage3 (extend_ino :: K_sec) [] t G s -> runs load_and_init_quota s (fun _ s' => Stage3 K_quota [] t G s').
Proof.
  intros H. destruct (Stage_slot _ _ _ extend_ino _ _ _ _ _ H) as (ext & He & _); [by left|by left|]. unfold load_and_init_quota. run. rewrite He.
  assert (Hnone : forall s', Stage3 (extend_ino :: K_sec) [] t G s' -> Stage3 K_quota [] t G s') by (intros s' H'; apply Stage_skip; [not_in|not_in|]; apply Stage_skip; [not_in|not_in|done]).
  destruct (env_lookup ext Quota) as [e|mref].
  { destruct (e =? - ENOENT); run; apply Hnone; [|done]. apply set_flag_stage; [by intros []|done]. }
  eapply runs_step; [by apply iget_good_stage|]. intros [e|i] s1 H1; [run; by apply Hnone|]. destruct H1 as (_ & _ & H1).
  eapply runs_step; [apply set_slot_stage; [exact H1|not_in|exact I]|]. intros [] s2 [H2 _]. eapply runs_step; [by apply iget_stage|]. intros r s3 [-> H3].
  destruct (env_index_iget i Q) as [e|q]; [run; apply Stage_skip; [not_in|not_in|done]|]. eapply runs_step; [apply set_slot_stage; [exact H3|not_in|exact I]|]. intros [] s4 [H4 _]. by run.
Qed.

Lemma check_usn_header_run m j d s : env_map_page m 0 = inr d -> runs (check_usn_header m j d) (set_pins ((si_ptr m, 0) :: ms_pins s) s) (fun _ s' => s' = s \/ s' = NVolSetUsnJrnlStamped s).
Proof.
  intros Hd. destruct (law_page _ _ _ Hd) as [Hz _]. assert (2 ^ 12 <= 2 ^ shift) by (apply Z.pow_le_mono_r; lia). assert (Hu : forall s, runs (unmap_page m 0) (set_pins ((si_ptr m, 0) :: ms_pins s) s) (fun _ s' => s' = s)).
  { intros s0. eapply runs_mono; [apply unmap_page_run; rewrite set_pins_pins; apply drop_one_head|]. intros _ s1 ->. by rewrite set_pins_twice, set_pins_same. }
  unfold check_usn_header. destruct (rd_sle64_inside d UH_allocation_delta) as [delta E1]; [unfold UH_allocation_delta; lia..|]. destruct (rd_sle64_inside d UH_maximum_size) as [maxsize E2]; [unfold UH_maximum_size; lia..|].
  destruct (rd_sle64_inside d UH_lowest_valid_usn) as [lowest E3]; [unfold UH_lowest_valid_usn; lia..|]. run. eapply runs_lift; [exact E1|]. run. eapply runs_lift; [exact E2|].
  apply runs_if; intros _; [eapply runs_step; [apply Hu|]; intros [] s1 ->; run; by left|]. run. eapply runs_lift; [exact E3|].
  apply runs_if; intros _; [apply runs_if; intros _|]; (eapply runs_step; [apply Hu|]; intros [] s1 ->); unfold not_enabled; run; auto.
Qed.

Lemma load_and_init_usnjrnl_run t G s : Stage3 K_quota [] t G s -> runs load_and_init_usnjrnl s (fun _ s' => Stage3 all_slots [] t G s').
Proof.
  intros H. destruct (Stage_slot _ _ _ extend_ino _ _ _ _ _ H) as (ext & He & _); [by do 2 right; left|by left|]. unfold load_and_init_usnjrnl. run. rewrite He.
  assert (Hst : forall K X s', Stage3 K X t G s' -> Stage3 K X t G (NVolSetUsnJrnlStamped s')) by (intros K X s'; apply set_flag_stage; by intros []).
  assert (Hskip2 : forall s', Stage3 (usnjrnl_ino :: K_quota) [] t G s' -> Stage3 all_slots [] t G s') by (intros s' H'; apply Stage_skip; [not_in|not_in|]; apply Stage_skip; [not_in|not_in|done]).
  assert (Hskip3 : forall s', Stage3 K_quota [] t G s' -> Stage3 all_slots [] t G s') by (intros s' H'; apply Hskip2, Stage_skip; [not_in|not_in|done]).
  destruct (env_lookup ext UsnJrnl) as [e|mref]; [destruct (e =? - ENOENT); unfold not_enabled; run; by auto|].
  eapply runs_step; [by apply iget_good_stage|]. intros [e|i] s1 H1; [run; by apply Hskip3|]. destruct H1 as (_ & _ & H1).
  eapply runs_step; [apply set_slot_stage; [exact H1|not_in|exact I]|]. intros [] s2 [H2 _]. run. apply runs_if; intros _; [unfold not_enabled; run; by auto|].
  eapply runs_step; [by apply iget_stage|]. intros r s3 [-> H3]. destruct (env_attr_iget i AT_DATA (Some Max)) as [e|m]; [run; by apply Hskip2|].
  eapply runs_step; [apply set_slot_stage; [exact H3|not_in|exact I]|]. intros [] s4 [H4 _]. apply runs_if; intros _; [run; apply Stage_skip; [not_in|not_in|done]|].
  eapply runs_step; [by apply iget_stage|]. intros r s5 [-> H5]. destruct (env_attr_iget i AT_DATA (Some J)) as [e|j]; [run; apply Stage_skip; [not_in|not_in|done]|].
  unfold load_usn_data. eapply runs_step; [apply set_slot_stage; [exact H5|not_in|exact I]|]. intros [] s6 [H6 _]. apply runs_if; intros _; [by run|].
  eapply runs_step; [apply map_page_run|]. intros r s7 [-> Hs7]. destruct (env_map_page m 0) as [e|d] eqn:Ed; [run; by subst s7|]. subst s7.
  eapply runs_mono; [by apply check_usn_header_run|]. intros ok s8 [->| ->]; [done|by apply Hst].
Qed.

Lemma Stage3_final s : Stage3 all_slots [] true (Good3 true F8) s -> Final true s.
Proof.
  intros H. split.
  - eapply Stage_req; [eapply Stage_mono; [exact H|]|].
    + intros (G1 & G2 & G3 & _). split_and!; [done|done| |done]. intros Hr. destruct (G3 Hr) as [[H6 H7] H8]. split; [done|]. by intros _.
    + intros k Hk _. by right.
  - intros Hlt. destruct (st_good _ _ _ _ _ _ _ _ H) as (_ & _ & _ & Hge). specialize (Hge eq_refl). cbn in Hge. lia.
Qed.

Lemma load_extended_run s : Stage3 (extend_ino :: K_sec) [] true (Good3 true F6) s -> runs (load_extended geo) s Final.
Proof.
  intros H. unfold load_extended. eapply runs_step; [by apply load_and_init_quota_run|]. intros q s1 H1.
  assert (Hout : forall F s', Stage3 K_quota [] true (Good3 true F) s' -> runs iput_quota_err_out s' Final).
  { intros F s' H'. eapply Failed_Final, quota_out, Stage_out; [has_mft|has_mft|exact H']. }
  assert (Hout2 : forall F s', Stage3 all_slots [] true (Good3 true F) s' -> runs iput_usnjrnl_err_out s' Final).
  { intros F s' H'. eapply Failed_Final, usnjrnl_out, Stage_out; [has_mft|has_mft|exact H']. }
  eapply require_run; [exact H1|intros _ HF; exact HF|intros _; exact (Hout _ _ H1)|]. intros s2 H2.
  eapply if_rw_run with (F' := F7); [exact H2|intros _; run; split; [exact H2|]; intros Ht HF; exact (conj HF Ht)|exact (Hout _)|]. intros s3 H3.
  eapply runs_step; [apply load_and_init_usnjrnl_run; exact H3|]. intros u s4 H4.
  eapply require_run; [exact H4|intros _ HF; exact HF|intros _; exact (Hout2 _ _ H4)|]. intros s5 H5.
  eapply if_rw_run with (F' := F8); [exact H5|intros _; run; split; [exact H5|]; intros Ht HF; exact (conj HF Ht)|exact (Hout2 _)|]. intros s6 H6. run. by apply Stage3_final.
Qed.

(** *** From the root directory on *)

Lemma load_ntfs3_run s : Stage K_root [] true (Good true F6) s -> runs (load_ntfs3 geo) s Final.
Proof.
  intros H. unfold load_ntfs3. run. destruct (Z.ltb_spec (ms_major_ver s) 3) as [Hlt|Hge].
  - run. assert (Hs : Stage all_slots [] true (Good true F6) s) by (do 7 (apply Stage_skip; [not_in|not_in|]); exact H).
    split; [eapply Stage_mono; [exact Hs|]; intros HG; eapply Good_mono; [exact HG|]; intros HF; split; [done|]; cbn; lia|].
    intros _ k Hk. pose proof (st_slots _ _ _ _ _ _ _ _ H k) as Hn. destruct (ms_slots s k); [|done]. destruct Hn as [Hn _]. exfalso. revert Hn. unfold ntfs3_slots in Hk. repeat (apply elem_of_cons in Hk as [->|Hk]; [not_in|]). by apply elem_of_nil in Hk.
  - assert (H' : Stage K_root [] true (Good3 true F6) s) by (eapply Stage_mono; [exact H|]; intros (G1 & G2 & G3 & _); by split_and!). clear H. rename H' into H.
    eapply runs_step; [apply iget_good_stage; exact H|]. intros [e|sec] s1 H1; [eapply Failed_Final, root_out, Stage_out; [has_mft|has_mft|exact H1]|]. destruct H1 as (_ & _ & H1).
    eapply runs_step; [apply set_slot_stage; [exact H1|not_in|exact I]|]. intros [] s2 [H2 _].
    eapply runs_step; [by apply iget_good_stage|]. intros [e|ext] s3 H3; [eapply Failed_Final, sec_out, Stage_out; [has_mft|has_mft|exact H3]|]. destruct H3 as (_ & _ & H3).
    eapply runs_step; [apply set_slot_stage; [exact H3|not_in|exact I]|]. intros [] s4 [H4 Hext]. apply load_extended_run.
    eapply Stage_req; [exact H4|]. intros k [->|Hk]%elem_of_cons Hn; [by rewrite Hext in Hn|done].
Qed.

Lemma hibernated_header_run d : zlen d = 2 ^ shift -> Forall byte_ok d -> exists h, hibernated_header d = Ret h /\ (h = false -> take (Z.to_nat NTFS_HIBERFIL_HEADER_SIZE) d = repeat 0 (Z.to_nat NTFS_HIBERFIL_HEADER_SIZE)).
Proof.
  intros Hz _. assert (2 ^ 12 <= 2 ^ shift) by (apply Z.pow_le_mono_r; lia). unfold hibernated_header. destruct (rd_le32_inside d 0) as [x ->]; [lia..|]. rewrite bind_Ret. case_match; [by exists true|].
  rewrite rd_bytes_inside by (unfold NTFS_HIBERFIL_HEADER_SIZE; lia). rewrite bind_Ret, drop_0. eexists. split; [done|]. intros Hf%negb_false_iff. rewrite forallb_forall in Hf. apply list_eq. intros j.
  assert (Hl : length (take (Z.to_nat NTFS_HIBERFIL_HEADER_SIZE) d) = Z.to_nat NTFS_HIBERFIL_HEADER_SIZE) by (rewrite length_take; unfold NTFS_HIBERFIL_HEADER_SIZE, zlen in *; lia).
  destruct (decide (j < Z.to_nat NTFS_HIBERFIL_HEADER_SIZE)%nat) as [Hj|Hj].
  - destruct (lookup_lt_is_Some_2 (take (Z.to_nat NTFS_HIBERFIL_HEADER_SIZE) d) j) as [v Hv]; [lia|]. rewrite Hv. pose proof (Hf v (proj1 (list_elem_of_In _ _) (list_elem_of_lookup_2 _ _ _ Hv))) as ->%Z.eqb_eq. symmetry. rewrite repeat_lookup. by rewrite decide_True.
  - rewrite !lookup_ge_None_2; [done|rewrite repeat_length; lia|lia].
Qed.

Lemma check_hibernation_run t G s : Stage K_root [] t G s -> runs check_windows_hibernation_status s (fun e s' => Stage K_root [] t G s' /\ (e = 0 -> not_hibernated)).
Proof.
  intros H. destruct (Stage_slot _ _ _ root_ino _ _ _ _ _ H) as (root & Hr & Hsrc); [by left|unfold required; by repeat constructor|]. destruct law_error as (Le1 & Le2 & Le3).
  unfold check_windows_hibernation_status. run. rewrite Hr. destruct (env_lookup root hiberfil) as [e|mref] eqn:El.
  { destruct (Z.eqb_spec e (- ENOENT)) as [->|Hne]; run; (split; [done|]); [|intros ->; by destruct (Le3 _ _ _ El)]. intros _. exists root. split; [done|]. by rewrite El. }
  eapply runs_step; [apply runs_and; [apply iget_good_stage; exact H|apply iget_good_error]|]. intros [e|f] s1 [H1 Herr].
  { run. split; [done|]. intros ->. destruct (Herr 0 eq_refl) as [E|E]; [by destruct (Le1 _ _ E)|done]. }
  destruct H1 as (Hf & _ & H1). destruct (Z.ltb_spec (si_size f) NTFS_HIBERFIL_HEADER_SIZE) as [Hlt|Hge]; [eapply runs_step; [apply iput_stage; exact H1|]; intros [] s2 H2; by run|].
  eapply runs_step; [apply map_page_run|]. intros r s2 [-> Hs2]. destruct (env_map_page f 0) as [e|d] eqn:Ed.
  { subst s2. eapply runs_step; [apply iput_stage; exact H1|]. intros [] s3 H3. run. split; [done|]. intros ->. by destruct (Le2 _ _ _ Ed). }
  subst s2. destruct (law_page _ _ _ Ed) as [Hz Hb]. destruct (hibernated_header_run d Hz Hb) as (h & Eh & Hh). run. eapply runs_lift; [exact Eh|]. run.
  eapply runs_mono; [apply unmap_page_run; rewrite set_pins_pins; apply drop_one_head|]. intros [] s3 ->. rewrite set_pins_twice, set_pins_same. run. eapply runs_mono; [apply iput_stage; exact H1|]. intros [] s4 H4. run. split; [done|].
  destruct h; [done|]. intros _. exists root. split; [done|]. rewrite El. exists f, d. auto.
Qed.

Lemma set_dirty_stage s : Stage K_root [] true (Good true F4) s ->
  runs (set_dirty shift mft_size bits upcase upcase_len) s (fun ok s' => Stage K_root [] true (Good true F4) s' /\ (ok = true -> F4 (rest_of s') -> F5 (rest_of s'))).
Proof.
  intros H. destruct (Stage_slot _ _ _ vol_ino _ _ _ _ _ H) as (v & Hv & Hsrc); [unfold K_root, K_logfile, K_vol; by repeat constructor|unfold required; by repeat constructor|]. cbn in Hsrc.
  pose proof (st_good _ _ _ _ _ _ _ _ H) as (Hok & He & HF & _). cbn in Hok, He, HF. unfold set_dirty. run. rewrite Hv. cbn [fmap option_fmap option_map]. rewrite Hsrc.
  destruct (set_dirty_run upcase upcase_len mft_size bits shift Htab Hbits ltac:(lia) y vi (ms_fs s) Hok) as (v' & err & E & Hok' & (_ & _ & Hk) & Hd & _).
  exists (set_fs v' s), err. split; [unfold on_fs; by rewrite E|]. run. split.
  - eapply Stage_fs; [exact H|]. destruct s; cbn in *. split_and!; cbn; [done|by rewrite Hk|done|done].
  - intros Herr%Z.eqb_eq HF4. split; [done|]. destruct s; cbn in *. by apply Hd.
Qed.

Lemma load_root_run s : Stage K_logfile [] true (Good true F3) s -> runs (load_root geo shift mft_size bits upcase upcase_len) s Final.
Proof.
  intros H. unfold load_root. eapply runs_step; [apply iget_good_stage; exact H|]. intros [e|root] s1 H1; [eapply Failed_Final, logfile_out, Stage_out; [has_mft|has_mft|exact H1]|]. destruct H1 as (Hr & _ & H1).
  eapply runs_step; [apply set_slot_stage; [exact H1|not_in|exact Hr]|]. intros [] s2 [H2 _].
  assert (Hout : forall F s', Stage K_root [] true (Good true F) s' -> runs iput_root_err_out s' Final) by (intros F s' H'; eapply Failed_Final, root_out, Stage_out; [has_mft|has_mft|exact H']).
  eapply runs_step; [apply check_hibernation_run; exact H2|]. intros err s3 [H3 Hh].
  eapply require_run with (F' := F4); [exact H3|intros Ht%Z.eqb_eq HF; split; auto|intros _; exact (Hout _ _ H3)|]. intros s4 H4.
  eapply if_rw_run with (F' := F5); [exact H4|intros _; by apply set_dirty_stage|exact (Hout _)|]. intros s5 H5.
  eapply if_rw_run with (F' := F6); [exact H5|intros _; run; split; [exact H5|]; intros Ht HF; exact (conj HF Ht)|exact (Hout _)|]. intros s6 H6. by apply load_ntfs3_run.
Qed.

(** *** From $LogFile on *)

Lemma Good_tables vol F : (forall r mem users u a, F r -> F (upd_tabs r mem users u a)) -> tables_free (Good vol F).
Proof. intros HF r mem users u a (H1 & H2 & H3 & H4). split_and!; cbn; [done|done| |done]. intros Hr. by apply HF, H3. Qed.

Lemma load_and_check_logfile_run t G s : Stage K_vol [] t G s ->
  runs load_and_check_logfile s (fun x s' => Stage K_logfile [] t G s' /\ if x.1 then exists i, ms_slots s' logfile_ino = Some i /\ env_iget FILE_LogFile = inr i /\ env_check_logfile i = x else ms_slots s' logfile_ino = None /\ x.2 = false).
Proof.
  intros H. unfold load_and_check_logfile. assert (Hnone : forall s', Stage K_vol [] t G s' -> Stage K_logfile [] t G s' /\ ms_slots s' logfile_ino = None).
  { intros s' H'. split; [apply Stage_skip; [not_in|not_in|done]|]. pose proof (st_slots _ _ _ _ _ _ _ _ H' logfile_ino) as Hs. destruct (ms_slots s' logfile_ino); [|done]. destruct Hs as [Hs _]. exfalso. revert Hs. not_in. }
  eapply runs_step; [apply iget_good_stage; exact H|]. intros [e|i] s1 H1; [run; naive_solver|]. destruct H1 as (Hi & _ & H1). destruct (env_check_logfile i) as [ok rp] eqn:El. destruct (law_log _ _ _ El) as [Hl _]. destruct ok; cbn [negb].
  - eapply runs_step; [apply set_slot_stage; [exact H1|not_in|exact I]|]. intros [] s2 [H2 Hs]. run. split; [done|]. cbn. by exists i.
  - eapply runs_step; [apply iput_stage; exact H1|]. intros [] s2 H2. run. cbn. naive_solver.
Qed.

Lemma free_rp_run (rp : bool) K F s : (forall r mem users u a, F r -> F (upd_tabs r mem users u a)) -> MountSpec.Stage (b_add (if rp then 1 else 0) b) vi required K [] true (Good true F) s -> runs (free_rp rp) s (fun _ s' => Stage K [] true (Good true F) s' /\ ms_slots s' = ms_slots s).
Proof.
  intros HF H. pose proof (Stage_mem (if rp then -1 else 0) (b_add (if rp then 1 else 0) b) b vi required K [] true _ s (Good_tables true F HF)) as Hm. cbn [b_add b_mft b_refs b_pins b_mem b_users b_default] in Hm.
  specialize (Hm eq_refl eq_refl eq_refl ltac:(destruct rp; lia) eq_refl eq_refl H). destruct rp; unfold free_rp, free_table; run; (split; [|by destruct s]); [exact Hm|]. destruct s; cbn in *. by rewrite Z.add_0_r in Hm.
Qed.

Lemma load_logfile_run s : Stage K_vol [] true (Good true F2) s -> runs (load_logfile geo shift mft_size bits upcase upcase_len) s Final.
Proof.
  intros H. unfold load_logfile. eapply runs_step; [apply load_and_check_logfile_run; exact H|]. intros [ok rp] s1 [H1 Hx]. cbn [fst snd] in Hx.
  assert (HF2 : forall r mem users u a, F2 r -> F2 (upd_tabs r mem users u a)) by done. assert (HF3 : forall r mem users u a, F3 r -> F3 (upd_tabs r mem users u a)) by done.
  eapply (runs_step _ _ _ (fun _ s' => MountSpec.Stage (b_add (if rp then 1 else 0) b) vi required K_logfile [] true (Good true F2) s' /\ ms_slots s' = ms_slots s1)).
  { assert (Hm : MountSpec.Stage (b_add (if rp then 1 else 0) b) vi required K_logfile [] true (Good true F2) (set_mem (ms_mem s1 + (if rp then 1 else 0)) s1)) by (by apply (Stage_mem _ b); [apply Good_tables|..]).
    destruct rp; run; (split; [|by destruct s1]); [exact Hm|]. destruct s1; cbn in *. by rewrite Z.add_0_r in Hm. }
  intros [] s2 [H2 Es]. eapply require_run with (F' := F3); [exact H2| | |].
  - intros [-> Hc]%andb_true_iff HF. split; [done|]. destruct Hx as (i & _ & Hi & Ei). exists i, rp. auto.
  - intros Hbad. run. rewrite Es. assert (Hout : forall s', Stage K_logfile [] true (Good true F2) s' -> runs iput_logfile_err_out s' Final) by (intros s' H'; eapply Failed_Final, logfile_out, Stage_out; [has_mft|has_mft|exact H']).
    destruct ok.
    + destruct Hx as (i & Hs & Hi & Ei). rewrite Hs. destruct (law_log _ _ _ Ei) as [_ Hrp].
      cbn [andb] in Hbad. rewrite (Hrp eq_refl Hbad) in *. run. eapply runs_lift; [reflexivity|]. eapply runs_mono; [apply (free_rp_run true K_logfile F2 s2 HF2 H2)|]. intros [] s3 [H3 _]. by apply Hout.
    + destruct Hx as [Hs ->]. rewrite Hs. run. apply Hout. eapply (free_rp_run false K_logfile F2 s2 HF2) in H2. destruct H2 as (s3 & u & [= <- _] & H3 & _). done.
  - intros s3 H3. eapply runs_step; [apply free_rp_run; [exact HF3|exact H3]|]. intros [] s4 [H4 _]. by apply load_root_run.
Qed.

(** *** From $Volume on *)

Lemma load_info_stage s : Stage K_vol [] true (Good false F1) s ->
  runs (on_fs (load_volume_information shift mft_size bits upcase upcase_len vi)) s (fun r s' => Stage K_vol [] true (Good false F1) s' /\ forall flags major minor, r = Some (flags, major, minor) -> flags = fl0).
Proof.
  intros H. pose proof (st_good _ _ _ _ _ _ _ _ H) as (Hok & He & HF & _). cbn in Hok, He, HF.
  destruct (load_volume_information_run upcase upcase_len mft_size bits shift y vi Htab Hbits ltac:(lia) (ms_fs s) fl0 Hok) as (v' & r & E & Hl & Hf). exists (set_fs v' s), r. split; [unfold on_fs; by rewrite E|]. split; [|done].
  eapply Stage_fs; [exact H|]. pose proof (vol_ok_looked_up _ _ _ _ _ _ _ _ _ _ Hl Hok) as Hok'. destruct Hl as (w' & -> & (_ & _ & Hk)). destruct s; cbn in *. split_and!; cbn; [done|by rewrite Hk|done|done].
Qed.

Lemma take_info_stage s major minor : Stage K_vol [] true (Good false F1) s -> Stage K_vol [] true (Good true F1) (set_version major minor (set_fs (with_flags fl0 (ms_fs s)) s)).
Proof.
  intros [H1 H2 H3 H4 (G1 & G2 & G3 & _)]. destruct s; cbn in *. constructor; try done. destruct H4 as [A1 A2 A3 A4 A5]. by constructor.
Qed.

Lemma load_volume_run s : Stage K_lcnbmp [] true (Good false F1) s -> runs (load_volume geo shift mft_size bits upcase upcase_len) s Final.
Proof.
  intros H. unfold load_volume. eapply runs_step; [apply iget_good_stage; exact H|]. intros [e|v] s1 H1; [eapply Failed_Final, lcnbmp_out, Stage_out; [has_mft|has_mft|exact H1]|]. destruct H1 as (Hv & _ & H1). pose proof (law_volume _ Hv) as Hp.
  eapply runs_step; [apply set_slot_stage; [exact H1|not_in|exact Hp]|]. intros [] s2 [H2 _]. rewrite Hp. eapply runs_step; [apply load_info_stage; exact H2|]. intros [[[flags major] minor]|] s3 [H3 Hf].
  - rewrite (Hf _ _ _ eq_refl). run. apply (take_info_stage _ major minor) in H3. change (mk_vs _ _ _ _ fl0) with (with_flags fl0 (ms_fs s3)). set (s4 := set_version _ _ _) in *.
    eapply (runs_mono _ _ (fun _ s' => Stage K_vol [] true (Good true F1) s')); [apply runs_if; intros _; run; [|done]; apply set_flag_stage; [by intros []|done]|]. intros [] s5 H5.
    eapply require_run with (F' := F2); [exact H5| | |intros s6 H6; apply load_logfile_run; exact H6].
    + intros Hz HF. split; [done|]. unfold has in Hz. by rewrite negb_involutive, Z.eqb_eq in Hz.
    + intros _. eapply Failed_Final, vol_out, Stage_out; [has_mft|has_mft|exact H5].
  - assert (Ho : Out K_vol true Disk s3) by (eapply Stage_out; [has_mft|has_mft|exact H3]). eapply runs_step; [apply iput_slot_out; exact Ho|]. intros [] s4 H4. by apply Failed_Final, lcnbmp_out.
Qed.

Lemma load_lcnbmp_run s : Stage K_mftbmp [] true (Good false F1) s -> runs (load_lcnbmp geo shift mft_size bits upcase upcase_len) s Final.
Proof.
  intros H. unfold load_lcnbmp. assert (Hout : forall s', Stage K_mftbmp [] true (Good false F1) s' -> runs iput_attrdef_err_out s' Final) by (intros s' H'; eapply Failed_Final, attrdef_out, Stage_out; [has_mft|has_mft|exact H']).
  eapply runs_step; [apply iget_good_stage; exact H|]. intros [e|v] s1 H1; [by apply Hout|]. destruct H1 as (_ & _ & H1). apply runs_if; intros _.
  - eapply runs_step; [apply iput_stage; exact H1|]. intros [] s2 H2. by apply Hout.
  - eapply runs_step; [apply set_slot_stage; [exact H1|not_in|exact I]|]. intros [] s2 [H2 _]. by apply load_volume_run.
Qed.

Lemma load_tables_run s : Stage K_mftbmp [] false (Good false F1) s -> runs (load_tables geo shift mft_size bits upcase upcase_len) s Final.
Proof.
  intros H. unfold load_tables. assert (HF : tables_free (Good false F1)) by (apply Good_tables; done). pose proof (st_acct _ _ _ _ _ _ _ _ H) as [_ A2 A3 _ [A5 A6]]. cbn in A2, A3, A5, A6. rewrite A5, A6 in A2. rewrite A5 in A3.
  eapply runs_step; [by apply (load_and_init_upcase_run shift vi Hshift)|]. intros [|] s1 (E1 & E2 & E3); cbn [negb].
  - destruct E3 as [u E3]. assert (H1 : Stage K_mftbmp [] true (Good false F1) s1). { eapply Stage_tables; [exact HF|exact H|exact E1|exact E2|exact E3|rewrite A6; unfold own_tables in *; lia|unfold default_users in *; lia|done]. }
    assert (Ha : ms_attrdef s1 = None) by (injection E3; congruence). pose proof (st_acct _ _ _ _ _ _ _ _ H1) as [_ B2 B3 _ B5]. cbn in B2, B3, B5. rewrite Ha in B2.
    eapply runs_step; [by apply (load_and_init_attrdef_run shift vi Hshift)|]. intros [|] s2 (G1 & G2 & G3); cbn [negb].
    + destruct G3 as [l G3]. apply load_lcnbmp_run. eapply Stage_tables; [exact HF|exact H1|exact G1|exact G2|exact G3|unfold own_tables in *; lia|lia|done].
    + apply Failed_Final, upcase_out; [change (ms_attrdef s2) with (r_attrdef (rest_of s2)); by rewrite G3|]. eapply Stage_out; [has_mft|has_mft|]. eapply Stage_refs; [exact H1|done|done|]. rewrite G2. apply H1.
  - apply Failed_Final, mftbmp_out. eapply Stage_out; [has_mft|has_mft|]. eapply Stage_refs; [exact H|done|done|]. rewrite E2. apply H.
Qed.

Lemma load_mftbmp_run s : Stage K_mirr [] false (Good false F1) s -> runs (load_mftbmp geo shift mft_size bits upcase upcase_len) s Final.
Proof.
  intros H. destruct (Stage_slot _ _ _ mft_ino _ _ _ _ _ H) as (mft & Hm & _); [has_mft|has_mft|]. unfold load_mftbmp. run. rewrite Hm. eapply runs_step; [apply iget_stage; exact H|]. intros r s1 [-> H1].
  destruct (env_attr_iget mft AT_BITMAP None) as [e|i]; [eapply Failed_Final, mirr_out, Stage_out; [has_mft|has_mft|exact H1]|]. eapply runs_step; [apply set_slot_stage; [exact H1|not_in|exact I]|]. intros [] s2 [H2 _]. by apply load_tables_run.
Qed.

Lemma load_system_files_run s : Stage [mft_ino] [] false (Good false (fun _ => True)) s -> runs (load_system_files geo shift mft_size bits upcase upcase_len) s Final.
Proof.
  intros H. unfold load_system_files. eapply (runs_step _ _ _ (fun ok s' => Stage K_mirr [] false (Good false (fun _ => True)) s' /\ (ok = true -> exists i, ms_slots s' mftmirr_ino = Some i))).
  { unfold load_and_init_mft_mirror. eapply runs_step; [apply iget_good_stage; exact H|]. intros [e|i] s1 H1; [run; split; [apply Stage_skip; [not_in|not_in|done]|done]|]. destruct H1 as (Hi & _ & H1).
    eapply runs_step; [apply set_slot_stage; [exact H1|not_in|exact Hi]|]. intros [] s2 [H2 Hs]. run. eauto. }
  intros m s1 [H1 Hm]. eapply (runs_step _ _ _ (fun ok s' => s' = s1 /\ (ok = true -> mirror_checked))).
  { destruct m; [|run; done]. destruct (Hm eq_refl) as [mirr Hs]. pose proof (st_slots _ _ _ _ _ _ _ _ H1 mftmirr_ino) as Hsrc. rewrite Hs in Hsrc. destruct Hsrc as [_ Hi]. destruct (Stage_slot _ _ _ mft_ino _ _ _ _ _ H1) as (mft & Hm' & ->); [has_mft|has_mft|].
    eapply runs_mono; [by apply (check_mft_mirror_run geo shift bits vi Hshift Hbits Hgeo Hsize Hcluster (b_mft b) mirr)|]. intros ok s' [-> Hok]. split; [done|]. intros Ht. exists mirr. auto. }
  intros ok s2 [-> Hok]. eapply require_run with (F' := F1); [exact H1|intros Ht _; exact (Hok Ht)| |intros s3 H3; apply load_mftbmp_run; exact H3]. intros _. eapply Failed_Final, mirr_out, Stage_out; [has_mft|has_mft|exact H1].
Qed.
End Load.

(** ** Unmounting *)

Section Unmount.
Context `{KA : KernelAlloc} `{ENV : MountEnv} (geo : geometry) (shift bits mft_size : Z) (upcase : list Z) (upcase_len : Z) (y : layout) (fl0 : Z) (b : before) (vi : ptr).
Hypothesis Htab : table_ok upcase upcase_len.
Hypothesis Hshift : 12 <= shift < 31.
Hypothesis Hbits : 8 <= bits <= shift.
Local Abbreviation vol_ok := (vol_ok upcase upcase_len mft_size bits shift y vi).

(** Only the log has grown. *)
Definition logged (s s' : mstate) : Prop := exists l, s' = set_log l s.
Lemma logged_same s s' : logged s s' -> rest_of s' = rest_of s /\ ms_slots s' = ms_slots s /\ ms_refs s' = ms_refs s.
Proof. intros [l ->]. by destruct s. Qed.
Lemma logged_trans s1 s2 s3 : logged s1 s2 -> logged s2 s3 -> logged s1 s3.
Proof. intros [l ->] [l' ->]. exists l'. by destruct s1. Qed.
Lemma logged_refl s : logged s s.
Proof. exists (ms_log s). by destruct s. Qed.

Lemma log_run e s : runs (log e) s (fun _ s' => logged s s').
Proof. unfold log. run. by eexists. Qed.
Lemma commit_run k s : ms_slots s k <> None -> runs (commit k) s (fun _ s' => logged s s').
Proof. intros Hk. unfold commit. run. destruct (ms_slots s k); [apply log_run|done]. Qed.
Lemma commit_if_run k s : runs (commit_if k) s (fun _ s' => logged s s').
Proof. unfold commit_if. run. destruct (ms_slots s k); [apply log_run|run; apply logged_refl]. Qed.
Lemma commits_run l : forall s, runs (each commit_if l) s (fun _ s' => logged s s').
Proof.
  induction l as [|k l IH]; intros s; cbn [each]; [run; apply logged_refl|]. eapply runs_step; [apply commit_if_run|]. intros [] s1 H1. eapply runs_mono; [apply IH|]. intros [] s2 H2. by eapply logged_trans.
Qed.

(** A sequence of such steps. *)
Lemma logged_step {A A'} (m : B A) (f : A -> B A') s0 s (Q : A' -> mstate -> Prop) : logged s0 s -> runs m s (fun _ s' => logged s s') -> (forall a s', logged s0 s' -> runs (f a) s' Q) -> runs (m ≫= f) s Q.
Proof. intros H0 Hm Hf. eapply runs_step; [exact Hm|]. intros a s' H'. apply Hf. by eapply logged_trans. Qed.

Definition all_there (s : mstate) : Prop := forall k, k ∈ required -> ms_slots s k <> None.
Lemma all_there_logged s s' k : logged s s' -> all_there s -> k ∈ required -> ms_slots s' k <> None.
Proof. intros (_ & E & _)%logged_same H Hk. rewrite E. by apply H. Qed.

Ltac there H := apply commit_run; eapply all_there_logged; [eassumption|exact H|unfold required; repeat constructor].

Lemma commit_all_run s : all_there s -> runs commit_all s (fun _ s' => logged s s').
Proof.
  intros H. unfold commit_all. pose proof (logged_refl s) as H0. eapply logged_step; [exact H0|there H|]. intros [] s1 H1.
  eapply logged_step; [exact H1| |]. { unfold if_ntfs3. run. apply runs_if; intros _; [apply commits_run|run; apply logged_refl]. } intros [] s2 H2.
  eapply logged_step; [exact H2|there H|]. intros [] s3 H3. eapply logged_step; [exact H3|there H|]. intros [] s4 H4. eapply logged_step; [exact H4|there H|]. intros [] s5 H5.
  eapply logged_step; [exact H5|apply commit_if_run|]. intros [] s6 H6. eapply logged_step; [exact H6|apply commit_if_run|]. intros [] s7 H7.
  eapply runs_mono; [there H|]. intros [] s8 H8. by eapply logged_trans.
Qed.

(** The dirty flag is cleared, unless the mount is read-only or has errors, or there is
    no memory. *)
Definition cleaned (s : mstate) (v : vstate) : Prop :=
  vol_ok v /\ (vs_flags v = vs_flags (ms_fs s) \/ ms_rdonly s = false /\ vol_errors (vs_w (ms_fs s)) = false /\ ~ dirty (vs_flags v)).

Lemma mark_clean_run s v : all_there s -> ms_slots s vol_ino = Some v -> si_ptr v = vi -> vol_ok (ms_fs s) ->
  runs (mark_clean shift mft_size bits upcase upcase_len) s (fun _ s' => exists fs, logged (set_fs fs s) s' /\ cleaned s fs).
Proof.
  intros H Hv Hp Hok. unfold mark_clean. run. destruct (ms_rdonly s) eqn:Er; cbn [orb].
  { run. exists (ms_fs s). split; [|split; [done|by left]]. replace (set_fs (ms_fs s) s) with s by (by destruct s). apply logged_refl. }
  destruct (vol_errors (vs_w (ms_fs s))) eqn:Ee.
  { run. exists (ms_fs s). split; [|split; [done|by left]]. replace (set_fs (ms_fs s) s) with s by (by destruct s). apply logged_refl. }
  run. rewrite Hv. cbn [fmap option_fmap option_map]. rewrite Hp. destruct (clear_dirty_run upcase upcase_len mft_size bits shift Htab Hbits ltac:(lia) y vi (ms_fs s) Hok) as (fs & err & E & Hok' & _ & Hd & Hn).
  exists (set_fs fs s), err. split; [unfold on_fs; by rewrite E|]. set (s1 := set_fs fs s). assert (H1 : all_there s1) by (unfold all_there, s1 in *; by destruct s). pose proof (logged_refl s1) as L0.
  eapply logged_step; [exact L0|there H1|]. intros [] s2 L2. eapply logged_step; [exact L2|there H1|]. intros [] s3 L3. eapply logged_step; [exact L3|apply commit_if_run|]. intros [] s4 L4.
  eapply runs_mono; [there H1|]. intros [] s5 L5. exists fs. split; [by eapply logged_trans|]. split; [done|]. destruct (decide (err = 0)) as [->|Hne]; [right|left]; auto.
Qed.

(** *** Giving the inodes back *)

Record Rel (K : list slot) (s : mstate) : Prop := {
  rl_refs : ms_refs s ≡ₚ held s K ++ b_refs b;
  rl_slots : forall k, k ∉ K -> ms_slots s k = None;
}.

Lemma Rel_logged K s s' : logged s s' -> Rel K s -> Rel K s'.
Proof. intros (_ & E1 & E2)%logged_same [H1 H2]. constructor; rewrite ?E1, ?E2; try done. by rewrite (held_slots s s'). Qed.
Lemma Rel_perm K K' s : K ≡ₚ K' -> Rel K s -> Rel K' s.
Proof. intros HK [H1 H2]. constructor; [|intros k Hk; apply H2; by rewrite HK]. rewrite H1. f_equiv. unfold held. by rewrite HK. Qed.

Lemma held_other s s' k K : k ∉ K -> (forall k', k' <> k -> ms_slots s' k' = ms_slots s k') -> held s' K = held s K.
Proof.
  intros Hk Hs. unfold held. induction K as [|k' K IH]; [done|]. cbn. rewrite Hs by set_solver. by rewrite IH by set_solver.
Qed.

Lemma release_run k K s : k ∉ K -> Rel (k :: K) s -> runs (release k) s (fun _ s' => Rel K s' /\ rest_of s' = rest_of s /\ forall k', k' <> k -> ms_slots s' k' = ms_slots s k').
Proof.
  intros Hk [H1 H2]. unfold release. eapply (runs_step _ _ _ (fun _ s' => ms_slots s' = ms_slots s /\ rest_of s' = rest_of s /\ ms_refs s' ≡ₚ held s K ++ b_refs b)).
  - unfold iput_slot. run. unfold held in H1. cbn [omap list_omap] in H1. fold (held s K) in H1. destruct (ms_slots s k) as [i|]; cbn [fmap option_fmap option_map] in H1.
    + eapply runs_mono; [apply (iput_run i s (held s K ++ b_refs b)); exact H1|]. intros [] s' (G1 & G2 & G3). auto.
    + run. auto.
  - intros [] s1 (E1 & E2 & E3). unfold set_slot. run. assert (Es : forall k', k' <> k -> ms_slots (set_slots (fun k' => if decide (k' = k) then None else ms_slots s1 k') s1) k' = ms_slots s k').
    { intros k' Hk'. destruct s1; cbn in *. rewrite decide_False by done. by rewrite E1. }
    split; [|split; [by destruct s1|exact Es]]. constructor.
    + rewrite (held_other s _ k K Hk Es). by destruct s1.
    + intros k' Hk'. destruct (decide (k' = k)) as [->|Hn]; [destruct s1; cbn; by rewrite decide_True|]. rewrite Es by done. apply H2. set_solver.
Qed.

Lemma releases_run l : forall K s, NoDup (l ++ K) -> Rel (l ++ K) s -> runs (each release l) s (fun _ s' => Rel K s' /\ rest_of s' = rest_of s /\ forall k', k' ∉ l -> ms_slots s' k' = ms_slots s k').
Proof.
  induction l as [|k l IH]; intros K s Hnd H; cbn [each]; [run; auto|]. cbn [app] in *. apply NoDup_cons in Hnd as [Hk Hnd]. eapply runs_step; [by apply release_run|]. intros [] s1 (H1 & E1 & S1).
  eapply runs_mono; [by apply IH|]. intros [] s2 (H2 & E2 & S2). split_and!; [done|congruence|]. intros k' Hk'. rewrite S2, S1 by set_solver. done.
Qed.

Definition after_vol : list slot := [root_ino; lcnbmp_ino; mftbmp_ino; logfile_ino; mftmirr_ino; mft_ino].

Lemma release_ntfs3_run s : Rel (ntfs3_slots ++ after_vol) s -> (ms_major_ver s < 3 -> forall k, k ∈ ntfs3_slots -> ms_slots s k = None) ->
  runs (if_ntfs3 (each release ntfs3_slots)) s (fun _ s' => Rel after_vol s' /\ rest_of s' = rest_of s /\ forall k', k' ∉ ntfs3_slots -> ms_slots s' k' = ms_slots s k').
Proof.
  intros H Hnone. unfold if_ntfs3. run. rewrite Z.geb_leb. destruct (Z.leb_spec 3 (ms_major_ver s)) as [Hge|Hlt].
  - apply releases_run; [apply (bool_decide_unpack _); by vm_compute|done].
  - run. split; [|done]. specialize (Hnone Hlt). clear -H Hnone. induction ntfs3_slots as [|k l IH]; [exact H|]. apply IH; [|set_solver]. destruct H as [H1 H2]. constructor.
    + revert H1. unfold held. cbn [app omap list_omap]. rewrite Hnone by set_solver. done.
    + intros k' Hk'. destruct (decide (k' = k)) as [->|]; [apply Hnone; set_solver|]. apply H2. set_solver.
Qed.

Lemma release_mirror_run s : Rel [mftmirr_ino; mft_ino] s -> ms_slots s mft_ino <> None -> runs release_mirror s (fun _ s' => Rel [mft_ino] s' /\ rest_of s' = rest_of s /\ ms_slots s' mft_ino = ms_slots s mft_ino).
Proof.
  intros H Hm. unfold release_mirror. run. destruct (ms_slots s mftmirr_ino) as [i|] eqn:Ei.
  - eapply runs_step; [apply commit_run; by rewrite Ei|]. intros [] s1 L1. eapply runs_step; [apply commit_run; destruct (logged_same _ _ L1) as (_ & -> & _); done|]. intros [] s2 L2.
    pose proof (logged_trans _ _ _ L1 L2) as L. destruct (logged_same _ _ L) as (E1 & E2 & E3). eapply runs_mono; [apply (release_run mftmirr_ino [mft_ino]); [by intros ?%list_elem_of_singleton|by eapply Rel_logged]|].
    intros [] s3 (H3 & G1 & G2). split_and!; [done|congruence|]. rewrite G2 by done. by rewrite E2.
  - run. split; [|done]. destruct H as [H1 H2]. constructor; [unfold held in *; cbn [omap list_omap] in *; by rewrite Ei in H1|]. intros k Hk. destruct (decide (k = mftmirr_ino)) as [->|]; [done|]. apply H2. set_solver.
Qed.

Lemma write_mft_run s : ms_slots s mft_ino <> None -> runs write_mft s (fun _ s' => logged s s').
Proof.
  intros Hm. unfold write_mft. eapply runs_step; [by apply commit_run|]. intros [] s1 L1. run. destruct (logged_same _ _ L1) as (_ & -> & _). destruct (ms_slots s mft_ino); [|done]. eapply runs_mono; [apply log_run|]. intros [] s2 L2. by eapply logged_trans.
Qed.

(** Nothing of the volume is left, and the default upcase table only while others use
    it. *)
Record Unmounted (fs : vstate) (s : mstate) : Prop := {
  um_fs : ms_fs s = fs;
  um_refs : ms_refs s ≡ₚ b_refs b;
  um_slots : forall k, ms_slots s k = None;
  um_pins : ms_pins s = b_pins b;
  um_mem : ms_mem s = b_mem b;
  um_users : ms_users s = b_users b;
  um_upcase : ms_upcase s = None;
  um_attrdef : ms_attrdef s = None;
  um_default : ms_default s = if b_users b =? 0 then None else b_default b;
}.

Lemma drop_tables_run s : Rel [] s -> acct b true (rest_of s) -> runs (drop_attrdef;; drop_globals geo;; log UnloadNls;; log FreeVolume) s (fun _ s' => Unmounted (ms_fs s) s').
Proof.
  intros [H1 H2] [A1 A2 A3 A4 A5]. destruct s as [fs rd sl refs pins mem users up upl a al mj mn sp q u d c l]. cbn in *.
  assert (Hfin : forall users' d' c' l' m' upl' al', users' = b_users b -> m' = b_mem b -> d' = (if b_users b =? 0 then None else b_default b) -> Unmounted fs (mk_ms fs rd sl refs pins m' users' None upl' None al' mj mn sp q u d' c' l')).
  { intros ? ? ? ? ? ? ? -> -> ->. constructor; try done. intros k. apply H2. set_solver. }
  assert (Hd : forall us (c : bool), us = b_users b -> c = (us =? 0) && bool_decide (is_Some d) -> (if c then None else d) = if b_users b =? 0 then None else b_default b).
  { intros us c0 -> ->. rewrite <- A4. destruct (b_users b =? 0); [|done]. by destruct d. }
  unfold drop_attrdef, drop_globals, log. unfold own_tables, default_users, free_table in *.
  destruct a as [a|], up as [[|tab]|]; try done; repeat (run; cbn);
    repeat (match goal with |- runs (if ?c then _ else _) _ _ => let E := fresh "E" in destruct c eqn:E end; repeat (run; cbn));
    (apply Hfin; [lia|lia|]); match goal with E : (?us =? 0) && _ = ?c |- _ => apply (Hd us c); [lia|done] end.
Qed.

Lemma every_slot k : k ∈ all_slots.
Proof. destruct k; apply (bool_decide_unpack _); by vm_compute. Qed.

Lemma acct_fs fs s : acct b true (rest_of s) -> acct b true (rest_of (set_fs fs s)).
Proof. intros [A1 A2 A3 A4 A5]. destruct s. by constructor. Qed.

Lemma put_super_run ntfs3 F s : Stage b vi required all_slots [] true (Good vi upcase upcase_len mft_size bits shift y fl0 ntfs3 true F) s -> (ms_major_ver s < 3 -> forall k, k ∈ ntfs3_slots -> ms_slots s k = None) ->
  runs (ntfs_put_super geo shift mft_size bits upcase upcase_len) s (fun _ s' => exists fs, Unmounted fs s' /\ cleaned s fs).
Proof.
  intros H Hold. assert (Ha : all_there s). { intros k Hk. destruct (Stage_slot _ _ _ k _ _ _ _ _ H) as (i & -> & _); [apply every_slot|done|done]. }
  destruct (Stage_slot _ _ _ vol_ino _ _ _ _ _ H) as (v & Hv & Hp); [apply every_slot|unfold required; by repeat constructor|]. cbn in Hp.
  destruct H as [H1 _ _ H4 (Hok & _)]. unfold ntfs_put_super. eapply runs_step; [by apply commit_all_run|]. intros [] s1 L1. destruct (logged_same _ _ L1) as (E1 & E2 & E3).
  assert (Hfs1 : ms_fs s1 = ms_fs s /\ ms_rdonly s1 = ms_rdonly s) by (injection E1; auto). destruct Hfs1 as [Ef1 Erd1].
  eapply runs_step; [apply (mark_clean_run s1 v); [intros k Hk; rewrite E2; by apply Ha|by rewrite E2|done|by rewrite Ef1]|]. intros [] s2 (fs & L2 & Hc).
  assert (Hc' : cleaned s fs) by (unfold cleaned in *; by rewrite Ef1, Erd1 in Hc).
  destruct (logged_same _ _ L2) as (G1 & G2 & G3). assert (S2 : ms_slots s2 = ms_slots s) by (rewrite G2, <- E2; by destruct s1). assert (Q2 : ms_refs s2 = ms_refs s) by (rewrite G3, <- E3; by destruct s1).
  assert (A2 : acct b true (rest_of s2)) by (rewrite G1; apply acct_fs; by rewrite E1). assert (F2' : ms_fs s2 = fs) by (injection G1; intros; subst; by destruct s1).
  assert (M2 : ms_major_ver s2 = ms_major_ver s). { injection G1. injection E1. intros. destruct s1; cbn in *. congruence. }
  assert (R2 : Rel (vol_ino :: ntfs3_slots ++ after_vol) s2).
  { apply (Rel_perm all_slots); [apply (bool_decide_unpack _); by vm_compute|]. constructor; [rewrite Q2, (held_slots s s2); done|]. intros k Hk. by destruct Hk; apply every_slot. }
  eapply runs_step; [apply (release_run vol_ino (ntfs3_slots ++ after_vol)); [apply (bool_decide_unpack _); by vm_compute|done]|]. intros [] s3 (R3 & T3 & S3).
  eapply runs_step; [apply release_ntfs3_run; [done|]|].
  { intros Hlt k Hk. rewrite S3; [rewrite S2; apply Hold; [|done]|by intros ->; revert Hk; apply (bool_decide_unpack _); vm_compute]. assert (ms_major_ver s3 = ms_major_ver s2) by (by injection T3). congruence. }
  intros [] s4 (R4 & T4 & S4). unfold after_vol in R4.
  eapply runs_step; [apply (release_run root_ino); [|exact R4]; apply (bool_decide_unpack _); by vm_compute|]. intros [] s5 (R5 & T5 & S5).
  eapply runs_step; [apply (release_run lcnbmp_ino); [|exact R5]; apply (bool_decide_unpack _); by vm_compute|]. intros [] s6 (R6 & T6 & S6).
  eapply runs_step; [apply (release_run mftbmp_ino); [|exact R6]; apply (bool_decide_unpack _); by vm_compute|]. intros [] s7 (R7 & T7 & S7).
  eapply runs_step; [apply (release_run logfile_ino); [|exact R7]; apply (bool_decide_unpack _); by vm_compute|]. intros [] s8 (R8 & T8 & S8).
  assert (Hm : ms_slots s8 mft_ino <> None). { rewrite S8, S7, S6, S5, S4, S3, S2 by (first [done|apply (bool_decide_unpack _); by vm_compute]). apply Ha. unfold required. constructor. }
  eapply runs_step; [by apply release_mirror_run|]. intros [] s9 (R9 & T9 & S9). eapply runs_step; [apply write_mft_run; by rewrite S9|]. intros [] s10 L10.
  eapply runs_step; [apply (release_run mft_ino []); [by intros ?%elem_of_nil|eapply Rel_logged; [exact L10|exact R9]]|]. intros [] s11 (R11 & T11 & _).
  assert (T : rest_of s11 = rest_of s2) by (destruct (logged_same _ _ L10) as (T10 & _); congruence). eapply runs_mono; [apply drop_tables_run; [done|by rewrite T]|]. intros [] s12 H12. exists fs. split; [|done].
  assert (Ef : ms_fs s11 = fs) by (rewrite <- F2'; by injection T). by rewrite Ef in H12.
Qed.
End Unmount.

(** ** Theorems *)

(** A volume whose boot sector has been read: of the system files only $MFT is there;
    the record of $Volume, with the flags [fl0], can be read. *)
Record mount_start upcase upcase_len mft_size bits shift (y : layout) (fl0 : Z) (vi : ptr) (mft : sysinode) (refs : list ptr) (s : mstate) : Prop := {
  start_slots : forall k, ms_slots s k = if decide (k = mft_ino) then Some mft else None;
  start_refs : ms_refs s ≡ₚ si_ptr mft :: refs;
  start_tables : ms_upcase s = None /\ ms_attrdef s = None;
  start_volume : vol_ok upcase upcase_len mft_size bits shift y vi (with_flags fl0 (ms_fs s));
  start_errors : vol_errors (vs_w (ms_fs s)) = false;
}.

(** The geometry that the boot sector gives. *)
Definition geometry_ok (geo : geometry) (bits shift : Z) : Prop :=
  12 <= shift < 31 /\ 8 <= bits <= shift /\ geo_mft_record_size geo = 2 ^ bits /\ 0 < geo_mftmirr_size geo /\
  0 < geo_cluster_size geo /\ geo_mftmirr_size geo * 2 ^ bits + geo_cluster_size geo <= 2 ^ 32.

Section Start.
Context `{KA : KernelAlloc} `{ENV : MountEnv} (geo : geometry) (shift bits mft_size : Z) (upcase : list Z) (upcase_len : Z) (y : layout) (fl0 : Z) (vi : ptr) `{LAW : !MountLaws shift vi}.
Context (mft : sysinode) (refs : list ptr).

Definition before_of (s : mstate) : before := mk_before mft refs (ms_pins s) (ms_mem s) (ms_users s) (ms_default s).

Lemma start_stage s : mount_start upcase upcase_len mft_size bits shift y fl0 vi mft refs s ->
  Stage (before_of s) vi required [mft_ino] [] false (Good vi upcase upcase_len mft_size bits shift y fl0 false false (fun _ => True)) s.
Proof.
  intros [H1 H2 [H3 H4] H5 H6]. constructor.
  - unfold held. cbn [omap list_omap]. rewrite H1, decide_True by done. exact H2.
  - apply NoDup_singleton.
  - intros k. rewrite H1. destruct (decide (k = mft_ino)) as [->|Hn]; [split; [by left|done]|]. by intros ?%list_elem_of_singleton.
  - constructor; cbn; rewrite ?H3, ?H4; unfold own_tables, default_users; try done; lia.
  - split_and!; cbn; [done|by rewrite H6|done|done].
Qed.

Lemma load_start s : table_ok upcase upcase_len -> geometry_ok geo bits shift -> mount_start upcase upcase_len mft_size bits shift y fl0 vi mft refs s ->
  runs (load_system_files geo shift mft_size bits upcase upcase_len) s (Final geo shift bits mft_size upcase upcase_len y fl0 (before_of s) vi).
Proof. intros Htab (G1 & G2 & G3 & G4 & G5 & G6) H. apply load_system_files_run; auto. by apply start_stage. Qed.
End Start.

(** C19: Mounting gives back what it took: from a volume of which only $MFT is loaded,
    [load_system_files] returns, whatever the other files, the directories, the page
    cache and the allocator answer, provided that $MFTMirr, if it can be read, is not
    resident, so that its runlist is mapped ([law_mirror]; otherwise the code follows a
    NULL pointer, [resident_mirror_null_runlist]), and that the mft record of $Volume is
    well-formed and can be read ([mount_start]).  When it fails, the inodes that are referenced, the
    pages that are mapped, the tables that are allocated and the users of the default
    upcase table are what they were; when it succeeds, unmounting at once with
    [ntfs_put_super] returns and leaves no reference of the volume (that to $MFT is given
    up too), no table and no page, and the number of users as before; in both cases the
    mft record of $Volume is unlocked and can be read. *)
Theorem mount_gives_back `{KA : KernelAlloc} `{ENV : MountEnv} geo shift bits mft_size upcase upcase_len y fl0 vi `{LAW : !MountLaws shift vi} mft refs s :
  table_ok upcase upcase_len -> geometry_ok geo bits shift -> mount_start upcase upcase_len mft_size bits shift y fl0 vi mft refs s ->
  exists s1 ok, load_system_files geo shift mft_size bits upcase upcase_len s = Ret (s1, ok) /\
  (ok = false -> ms_refs s1 ≡ₚ ms_refs s /\ ms_pins s1 = ms_pins s /\ ms_mem s1 = ms_mem s /\ ms_users s1 = ms_users s /\ ms_upcase s1 = None /\ ms_attrdef s1 = None /\
     exists fl, vol_ok upcase upcase_len mft_size bits shift y vi (with_flags fl (ms_fs s1))) /\
  (ok = true -> exists s2, ntfs_put_super geo shift mft_size bits upcase upcase_len s1 = Ret (s2, tt) /\
     ms_refs s2 ≡ₚ refs /\ (forall k, ms_slots s2 k = None) /\ ms_pins s2 = ms_pins s /\ ms_mem s2 = ms_mem s /\ ms_users s2 = ms_users s /\ ms_upcase s2 = None /\ ms_attrdef s2 = None /\
     vol_ok upcase upcase_len mft_size bits shift y vi (ms_fs s2)).
Proof.
  intros Htab Hgeo H. destruct (load_start geo shift bits mft_size upcase upcase_len y fl0 vi mft refs s Htab Hgeo H) as (s1 & ok & E & Hf). exists s1, ok. split; [done|]. destruct ok; (split; [|try done]); try done; intros _.
  - destruct Hf as [Hst Hold]. destruct Hgeo as (G1 & G2 & _). destruct (put_super_run geo shift bits mft_size upcase upcase_len y fl0 (before_of mft refs s) vi Htab G1 G2 _ _ s1 Hst Hold) as (s2 & [] & E2 & fs & [U1 U2 U3 U4 U5 U6 U7 U8 _] & Hc & _).
    exists s2. split; [done|]. split_and!; try done. by rewrite U1.
  - destruct Hf as [F1 [A1 A2 A3 _ [A5 A6]] F3 F4]. cbn in A1, A2, A3, A5, A6, F3. rewrite A5, A6 in A2. rewrite A5 in A3. split_and!; try done.
    + rewrite F1, (start_refs _ _ _ _ _ _ _ _ _ _ _ H). unfold held. cbn [omap list_omap]. by rewrite F4.
    + rewrite A2. unfold own_tables. lia.
    + rewrite A3. unfold default_users. lia.
Qed.

(** C18: A volume that is mounted for writing has passed every check: when
    [load_system_files] succeeds and the mount is not read-only at the end, then every
    record of the mft mirror agrees with $MFT and the mirror is where the boot sector
    says, $Volume had none of the flags that forbid writing, $LogFile is valid and clean,
    Windows is not hibernated, the log file was emptied, on NTFS 3.0 and later the quotas
    were marked out of date and the change journal stamped, no error is recorded, and the
    dirty flag is set in memory and in the mft record of $Volume. *)
Theorem mount_rw_checked `{KA : KernelAlloc} `{ENV : MountEnv} geo shift bits mft_size upcase upcase_len y fl0 vi `{LAW : !MountLaws shift vi} mft refs s :
  table_ok upcase upcase_len -> geometry_ok geo bits shift -> mount_start upcase upcase_len mft_size bits shift y fl0 vi mft refs s ->
  exists s1 ok, load_system_files geo shift mft_size bits upcase upcase_len s = Ret (s1, ok) /\
  (ok = true -> ms_rdonly s1 = false ->
     (exists mirr, env_iget FILE_MFTMirr = inr mirr /\ mirror_ok geo shift bits mft mirr) /\ Z.land fl0 VOLUME_MUST_MOUNT_RO_MASK = 0 /\ log_clean /\ not_hibernated /\
     env_empty_logfile = true /\ (3 <= ms_major_ver s1 -> env_mark_quotas = true /\ env_stamp_usnjrnl = true) /\ vol_errors (vs_w (ms_fs s1)) = false /\
     exists i m flags, inodes (vs_w (ms_fs s1)) !! vi = Some i /\ record_is (vs_pages (ms_fs s1)) mft_size bits shift (mft_no i) m /\
       rd_le16 m (ly_flags y) = Ret flags /\ Z.land flags VOLUME_IS_DIRTY <> 0 /\ vs_flags (ms_fs s1) = flags).
Proof.
  intros Htab Hgeo H. destruct (load_start geo shift bits mft_size upcase upcase_len y fl0 vi mft refs s Htab Hgeo H) as (s1 & ok & E & Hf). exists s1, ok. split; [done|]. intros -> Hrw.
  destruct Hf as [Hst _]. destruct (st_good _ _ _ _ _ _ _ _ Hst) as (Hok & He & HF & _). cbn in He, HF. rewrite Hrw in *. destruct (HF eq_refl) as [(((((Hm & Hfl) & Hlog) & Hh) & Hd) & Hem) H3]. cbn in Hd.
  split_and!; try done.
  - destruct (vol_errors _); [|done]. by specialize (He eq_refl).
  - destruct Hok as (_ & _ & i & inos & m & Hb & _ & _ & Hrec & Hv). exists i, m, (vs_flags (ms_fs s1)). split_and!; [apply Hb|done|apply Hv|by apply dirty_land|done].
Qed.

(** ** A volume *)

Definition demo_ino (p : positive) (rl : option rl_buf) : sysinode := mk_si p false 4096 true true rl.
Definition demo_zeros : list Z := repeat 0 4096.
(** The answers: every file is there, the name hiberfil.sys is not, nor are $Quota and
    $UsnJrnl; [mirr] is the runlist of $MFTMirr. *)
Definition demo_env (mirr : option rl_buf) : MountEnv := {|
  env_iget := fun no => inr (if no =? FILE_MFTMirr then demo_ino 2 mirr else if no =? FILE_Volume then demo_ino 1 None else demo_ino 3 None);
  env_attr_iget := fun _ _ _ => inr (demo_ino 4 None);
  env_index_iget := fun _ _ => inr (demo_ino 5 None);
  env_lookup := fun _ _ => inl (- ENOENT);
  env_map_page := fun _ _ => inr demo_zeros;
  env_check_logfile := fun _ => (true, true);
  env_logfile_clean := true;
  env_empty_logfile := true;
  env_mark_quotas := true;
  env_stamp_usnjrnl := true;
|}.
Definition demo_runs : rl_buf := [mk_rle 0 10 1; mk_rle 1 LCN_ENOENT 0].
Definition demo_geo : geometry := mk_geo 256 4096 1000 4 10 0.
Definition demo_mstate : mstate :=
  mk_ms (demo_vstate 0) false (fun k => if decide (k = mft_ino) then Some (demo_ino 9 None) else None) [9%positive; 7%positive] [] 5 1 None 0 None 0 0 0 true false false (Some [0; 0]) 1 [].

Lemma demo_laws : @MountLaws (demo_env (Some demo_runs)) 12 1%positive.
Proof.
  constructor; cbn.
  - intros i n d [= <-]. split; [reflexivity|]. apply (bool_decide_unpack _). by vm_compute.
  - intros i [= <-]. by eexists _, _, _.
  - by intros i ok rp [= <- <-].
  - split_and!; [done|done|]. by intros i l e [= <-].
  - intros no i [= <-]. destruct (no =? FILE_MFTMirr); [|destruct (no =? FILE_Volume)]; cbn; lia.
  - by intros i [= <-].
Qed.

Lemma demo_start : mount_start [] 0 4096 8 12 demo_layout 0 1%positive (demo_ino 9 None) [7%positive] demo_mstate.
Proof. constructor; try done. apply demo_mounted_ok. Qed.

Lemma demo_mount_geometry : geometry_ok demo_geo 8 12.
Proof. unfold geometry_ok. cbn. lia. Qed.

Definition demo_load (mirr : option rl_buf) : outcome (mstate * bool) := load_system_files (KA := demo_alloc) (ENV := demo_env mirr) demo_geo 12 4096 8 [] 0 demo_mstate.
Definition demo_put : B unit := ntfs_put_super demo_geo 12 4096 8 [] 0.

Lemma demo_mounts_rw : match demo_load (Some demo_runs) with Ret (s1, ok) => ok && negb (ms_rdonly s1) | _ => false end = true.
Proof. vm_compute. reflexivity. Qed.
Lemma demo_mounts s1 ok : demo_load (Some demo_runs) = Ret (s1, ok) -> ok = true /\ ms_rdonly s1 = false.
Proof. intros E. pose proof demo_mounts_rw as H. rewrite E in H. clear E. apply andb_true_iff in H as [H1 H2]. apply negb_true_iff in H2. split; assumption. Qed.

(** The volume is mounted and unmounted; the reference of the process that mounts it and
    what else was there before is left. *)
Lemma mount_gives_back_witness : exists s1 s2, demo_load (Some demo_runs) = Ret (s1, true) /\ demo_put s1 = Ret (s2, tt) /\ ms_refs s2 ≡ₚ [7%positive] /\ ms_mem s2 = 5 /\ ms_users s2 = 1.
Proof.
  destruct (mount_gives_back (KA := demo_alloc) (ENV := demo_env (Some demo_runs)) (LAW := demo_laws) demo_geo 12 8 4096 [] 0 demo_layout 0 1%positive (demo_ino 9 None) [7%positive] demo_mstate) as (s1 & ok & E & _ & H).
  - split; [vm_compute; discriminate|constructor].
  - exact demo_mount_geometry.
  - exact demo_start.
  - destruct (demo_mounts s1 ok E) as [-> _]. destruct (H eq_refl) as (s2 & E2 & Hr & _ & _ & Hm & Hu & _). exists s1, s2. split_and!; [exact E|exact E2|exact Hr|exact Hm|exact Hu].
Defined.

(** The mount stays read-write, so the dirty flag is set. *)
Lemma mount_rw_checked_witness : exists s1, demo_load (Some demo_runs) = Ret (s1, true) /\ ms_rdonly s1 = false /\ Z.land (vs_flags (ms_fs s1)) VOLUME_IS_DIRTY <> 0 /\ not_hibernated (ENV := demo_env (Some demo_runs)).
Proof.
  destruct (mount_rw_checked (KA := demo_alloc) (ENV := demo_env (Some demo_runs)) (LAW := demo_laws) demo_geo 12 8 4096 [] 0 demo_layout 0 1%positive (demo_ino 9 None) [7%positive] demo_mstate) as (s1 & ok & E & H).
  - split; [vm_compute; discriminate|constructor].
  - exact demo_mount_geometry.
  - exact demo_start.
  - destruct (demo_mounts s1 ok E) as [-> Hrw]. destruct (H eq_refl Hrw) as (_ & _ & _ & Hh & _ & _ & _ & i & m & flags & _ & _ & _ & Hd & Hf). exists s1. split; [exact E|]. split; [exact Hrw|]. split; [rewrite Hf; exact Hd|exact Hh].
Defined.

(** The runlist of the mirror is taken to be there: when $MFTMirr is resident it is NULL,
    and is read. *)
Example resident_mirror_null_runlist : demo_load None = Fault.
Proof. vm_compute. reflexivity. Qed.
