(* ===== verification/WriteRec.v ===== *)
(** * Writing mft records

    Models [write_mft_record_nolock], [ntfs_sync_mft_mirror] and
    [ntfs_sync_mft_mirror_umount] of [src/ntfs/mft.c]: a dirty mft record in a page of
    $MFT is protected, written to the blocks where the runlist of $MFT puts it, copied
    to the mft mirror if it has a place there, and the protection is taken off again.

    The block device is a parameter (class [BlockDevice]).  A write is asynchronous in
    the code, but the buffers are not changed between the start of the i/o and the wait
    for its completion, so that it is done here when it is started and its result is
    looked at in the wait.  The runlist lock is held while @rl is not NULL in the loops
    over the buffers, and dropped behind them. *)

From Stdlib Require Import ZArith Lia Bool.
From stdpp Require Import base list numbers option.
From S2P Require Import Prelude Endian Runlist Mst AttrList PageRead.

Definition EOPNOTSUPP : Z := 95.

(** What becomes of a block: its number, the data written and the data before give the
    data after, and whether the device reports success. *)
Class BlockDevice := { bd_write : Z -> list Z -> list Z -> list Z * bool }.

(** [struct buffer_head], as far as it is used here. *)
Record wbh := mk_wbh { wb_uptodate : bool; wb_mapped : bool; wb_locked : bool; wb_dirty : bool; wb_blocknr : Z }.
(** [struct page] *)
Record wpage := mk_wpage { wp_data : list Z; wp_bufs : option (list wbh); wp_uptodate : bool; wp_locked : bool }.

(** The volume: its blocks, the pages of $MFTMirr (or the error of reading one), and
    [NVolErrors]. *)
Record wvol := mk_wvol { wv_disk : Z -> list Z; wv_mirr : Z -> Z + wpage; wv_errors : bool }.

Section Write.
Context {BD : BlockDevice} (PAGE_CACHE_SHIFT blocksize_bits cluster_size_bits mft_record_size_bits : Z).
(** The runlists of $MFT and $MFTMirr, whether [vol->mftmirr_ino] is there, and the
    number of records in the mirror. *)
Context (mft_rl mirr_rl : option rl_buf) (mftmirr_ino : bool) (mftmirr_size : Z).

Definition rec_size : Z := 2 ^ mft_record_size_bits.
Definition max_bhs : Z := rec_size / blocksize blocksize_bits.

(** ** Where a block is *)

(** [pos] is the position in the attribute; the rest of the runlist from where it was
    found, and the block number unless the LCN is not known. *)
Definition locate (rl0 rl : option rl_buf) (pos : Z) : outcome (rl_buf * option Z) :=
  let vcn_ofs := Z.land pos (2 ^ cluster_size_bits - 1) in
  let vcn := Z.shiftr pos cluster_size_bits in
  r ← match rl with Some r => Ret r | None => match rl0 with Some r => Ret r | None => Bug end end;
  r ← seek r vcn;
  lcn ← ntfs_rl_vcn_to_lcn (Some r) vcn;
  Ret (r, if lcn >=? 0 then Some (Z.shiftr (s64 (Z.shiftl lcn cluster_size_bits) + vcn_ofs) blocksize_bits) else None).

(** "Need to map the buffer if it is not mapped already." *)
Definition map_buffer (rl0 rl : option rl_buf) (pos : Z) (bh : wbh) (err : Z) : outcome (wbh * option rl_buf * Z) :=
  if wb_mapped bh then Ret (bh, rl, err)
  else
    '(r, nr) ← locate rl0 rl pos;
    match nr with
    | Some n => Ret (mk_wbh (wb_uptodate bh) true (wb_locked bh) (wb_dirty bh) n, Some r, err)
    | None => Ret (mk_wbh (wb_uptodate bh) false (wb_locked bh) (wb_dirty bh) NO_BLOCK, Some r, - EIO)
    end.

(** The loop over the buffers of the page, [i] being the number of the first one: the
    buffers and those of them that belong to the record.  [mft] is set for $MFT, where a
    record whose first buffer is clean is not written. *)
Fixpoint collect (mft : bool) (rl0 : option rl_buf) (mft_no m_start i : Z) (bufs : list wbh) (rl : option rl_buf) (arr : list Z) (err : Z) : outcome (list wbh * list Z * Z) :=
  match bufs with
  | [] => Ret ([], arr, err)
  | bh :: rest =>
      let block_start := i * blocksize blocksize_bits in
      let block_end := block_start + blocksize blocksize_bits in
      let m_end := m_start + rec_size in
      if block_end <=? m_start then
        '(r, arr, err) ← collect mft rl0 mft_no m_start (i + 1) rest rl arr err; Ret (bh :: r, arr, err)
      else if block_start >=? m_end then Ret (bh :: rest, arr, err)
      else if mft && (block_start =? m_start) && negb (wb_dirty bh) then
        BUG_ON (negb (bool_decide (arr = [])));; Ret (bh :: rest, arr, err)
      else
        '(bh, rl, err) ← map_buffer rl0 rl (s64 (Z.shiftl mft_no mft_record_size_bits) + (block_start - m_start)) bh err;
        BUG_ON (negb (wb_uptodate bh));;
        BUG_ON (bool_decide (arr = []) && negb (m_start =? block_start));;
        BUG_ON (zlen arr >=? max_bhs);;
        let arr := arr ++ [i] in
        BUG_ON ((zlen arr >=? max_bhs) && negb (m_end =? block_end));;
        '(r, arr, err) ← collect mft rl0 mft_no m_start (i + 1) rest rl arr err;
        Ret (bh :: r, arr, err)
  end.

(** ** The i/o *)

(** The block of buffer [i]. *)
Definition block_data (data : list Z) (i : Z) : list Z := take (Z.to_nat (blocksize blocksize_bits)) (drop (Z.to_nat (i * blocksize blocksize_bits)) data).

(** "Lock buffers and start synchronous write i/o on them." *)
Fixpoint submit_writes (data : list Z) (arr : list Z) (bufs : list wbh) (disk : Z -> list Z) : outcome (list wbh * (Z -> list Z)) :=
  match arr with
  | [] => Ret (bufs, disk)
  | i :: arr =>
      bh ← rd bufs i;
      BUG_ON (wb_locked bh);;
      BUG_ON (negb (wb_uptodate bh));;
      let nr := wb_blocknr bh in
      let '(d, ok) := bd_write nr (block_data data i) (disk nr) in
      bufs ← wr bufs i (mk_wbh ok (wb_mapped bh) true false nr);
      submit_writes data arr bufs (fun n => if n =? nr then d else disk n)
  end.

(** "Wait on i/o completion of buffers."; [restore] says that a buffer is set up to date
    again after an error. *)
Fixpoint wait_writes (restore : bool) (arr : list Z) (bufs : list wbh) (err : Z) : outcome (list wbh * Z) :=
  match arr with
  | [] => Ret (bufs, err)
  | i :: arr =>
      bh ← rd bufs i;
      bufs ← wr bufs i (mk_wbh (wb_uptodate bh || restore) (wb_mapped bh) false (wb_dirty bh) (wb_blocknr bh));
      wait_writes restore arr bufs (if wb_uptodate bh then err else - EIO)
  end.

(** "Clean the buffers." *)
Fixpoint clean_buffers (arr : list Z) (bufs : list wbh) : outcome (list wbh) :=
  match arr with
  | [] => Ret bufs
  | i :: arr => bh ← rd bufs i; bufs ← wr bufs i (mk_wbh (wb_uptodate bh) (wb_mapped bh) (wb_locked bh) false (wb_blocknr bh)); clean_buffers arr bufs
  end.

(** ** The record in a page *)

Definition record_bytes (data : list Z) (ofs : Z) : list Z := take (Z.to_nat rec_size) (drop (Z.to_nat ofs) data).
Definition put_record (data : list Z) (ofs : Z) (r : list Z) : outcome (list Z) := blit data ofs r 0 rec_size.
(** [post_write_mst_fixup] of the record at [ofs] *)
Definition unprotect (data : list Z) (ofs : Z) : outcome (list Z) :=
  w ← post_write_mst_fixup (words_of (record_bytes data ofs)); put_record data ofs (bytes_of w).

(** ** ntfs_sync_mft_mirror *)

Definition set_errors (v : wvol) : wvol := mk_wvol (wv_disk v) (wv_mirr v) true.

(** Not implemented. *)
Definition ntfs_sync_mft_mirror_umount : outcome Z := BUG_ON mftmirr_ino;; Ret (- EOPNOTSUPP).

(** The i/o on the page of the mirror: its buffers, the blocks and the error. *)
Definition mirror_io (mft_no page_ofs : Z) (data : list Z) (bufs : list wbh) (disk : Z -> list Z) : outcome (list wbh * (Z -> list Z) * Z) :=
  '(bufs, arr, err) ← collect false mirr_rl mft_no page_ofs 0 bufs None [] 0;
  if err =? 0 then
    '(bufs, disk) ← submit_writes data arr bufs disk;
    '(bufs, err) ← wait_writes true arr bufs err;
    Ret (bufs, disk, err)
  else bufs ← clean_buffers arr bufs; Ret (bufs, disk, err).

(** The page of the mirror, which is mapped. *)
Definition sync_page (mft_no : Z) (m : list Z) (p : wpage) (disk : Z -> list Z) : outcome (wpage * (Z -> list Z) * Z) :=
  if wp_locked p then Diverge
  else
    BUG_ON (negb (wp_uptodate p));;
    let page_ofs := Z.land (Z.shiftl mft_no mft_record_size_bits) (2 ^ PAGE_CACHE_SHIFT - 1) in
    data ← put_record (wp_data p) page_ofs m;
    let bufs := default (repeat (mk_wbh true false false false 0) (Z.to_nat (2 ^ (PAGE_CACHE_SHIFT - blocksize_bits)))) (wp_bufs p) in
    '(bufs, disk, err) ← mirror_io mft_no page_ofs data bufs disk;
    data ← unprotect data page_ofs;
    Ret (mk_wpage data (Some bufs) true false, disk, err).

(** @m is the protected record. *)
Definition ntfs_sync_mft_mirror (mft_no : Z) (m : list Z) (v : wvol) : outcome (wvol * Z) :=
  BUG_ON (max_bhs =? 0);;
  if negb mftmirr_ino then
    err ← ntfs_sync_mft_mirror_umount;
    if err =? 0 then Ret (v, err) else Ret (set_errors v, err)
  else
    let index := Z.shiftr mft_no (PAGE_CACHE_SHIFT - mft_record_size_bits) in
    match wv_mirr v index with
    | inl e => Ret (set_errors v, e)
    | inr p =>
        '(p, disk, err) ← sync_page mft_no m p (wv_disk v);
        let v := mk_wvol disk (fun n => if n =? index then inr p else wv_mirr v n) (wv_errors v) in
        Ret (if err =? 0 then v else set_errors v, err)
    end.

(** ** write_mft_record_nolock *)

(** The record number of the inode, [NInoAttr], where its record is in the page,
    [NInoDirty], the page and the volume. *)
Record wrec := mk_wrec { wr_no : Z; wr_attr : bool; wr_ofs : Z; wr_dirty : bool; wr_page : wpage; wr_vol : wvol }.

Definition with_page (p : wpage) (s : wrec) : wrec := mk_wrec (wr_no s) (wr_attr s) (wr_ofs s) (wr_dirty s) p (wr_vol s).
Definition with_vol (v : wvol) (s : wrec) : wrec := mk_wrec (wr_no s) (wr_attr s) (wr_ofs s) (wr_dirty s) (wr_page s) v.
Definition set_page (data : list Z) (bufs : list wbh) (s : wrec) : wrec := with_page (mk_wpage data (Some bufs) (wp_uptodate (wr_page s)) (wp_locked (wr_page s))) s.

(** The label [err_out]; marking the record dirty sets the flag and the buffers. *)
Definition write_err_out (arr : list Z) (err : Z) (s : wrec) : outcome (wrec * Z) :=
  if err =? - ENOMEM then
    let dirty := fun i bh => if bool_decide (Z.of_nat i ∈ arr) then mk_wbh (wb_uptodate bh) (wb_mapped bh) (wb_locked bh) true (wb_blocknr bh) else bh in
    Ret (mk_wrec (wr_no s) (wr_attr s) (wr_ofs s) true (mk_wpage (wp_data (wr_page s)) (imap dirty <$> wp_bufs (wr_page s)) (wp_uptodate (wr_page s)) (wp_locked (wr_page s))) (wr_vol s), 0)
  else Ret (with_vol (set_errors (wr_vol s)) s, err).

(** The label [cleanup_out]. *)
Definition cleanup_out (data : list Z) (arr : list Z) (bufs : list wbh) (err : Z) (s : wrec) : outcome (wrec * Z) :=
  bufs ← clean_buffers arr bufs; write_err_out arr err (set_page data bufs s).

(** The mirror is synchronized; what it returns is ignored. *)
Definition sync_mirror (data : list Z) (s : wrec) : outcome wvol :=
  if wr_no s <? mftmirr_size then '(v, _) ← ntfs_sync_mft_mirror (wr_no s) (record_bytes data (wr_ofs s)) (wr_vol s); Ret v else Ret (wr_vol s).

(** The record is protected: the i/o, and the protection is taken off. *)
Definition write_protected (sync : bool) (data : list Z) (arr : list Z) (bufs : list wbh) (s : wrec) : outcome (wrec * Z) :=
  '(bufs, disk) ← submit_writes data arr bufs (wv_disk (wr_vol s));
  let s := with_vol (mk_wvol disk (wv_mirr (wr_vol s)) (wv_errors (wr_vol s))) s in
  v ← (if sync then Ret (wr_vol s) else sync_mirror data s);
  let s := with_vol v s in
  '(bufs, err) ← wait_writes (wp_uptodate (wr_page s)) arr bufs 0;
  v ← (if sync then sync_mirror data s else Ret (wr_vol s));
  let s := with_vol v s in
  data ← unprotect data (wr_ofs s);
  let s := set_page data bufs s in
  if negb (err =? 0) then write_err_out arr err s else Ret (s, 0).

Definition write_mft_record_nolock (sync : bool) (s : wrec) : outcome (wrec * Z) :=
  BUG_ON (wr_attr s);;
  BUG_ON (max_bhs =? 0);;
  BUG_ON (negb (wp_locked (wr_page s)));;
  if negb (wr_dirty s) then Ret (s, 0)
  else
    let s := mk_wrec (wr_no s) (wr_attr s) (wr_ofs s) false (wr_page s) (wr_vol s) in
    match wp_bufs (wr_page s) with
    | None => Bug
    | Some bufs =>
        let data := wp_data (wr_page s) in
        '(bufs, arr, err) ← collect true mft_rl (wr_no s) (wr_ofs s) 0 bufs None [] 0;
        if bool_decide (arr = []) then Ret (set_page data bufs s, 0)
        else if negb (err =? 0) then cleanup_out data arr bufs err s
        else
          '(w, err) ← pre_write_mst_fixup (Some (words_of (record_bytes data (wr_ofs s)))) rec_size;
          if negb (err =? 0) then cleanup_out data arr bufs err s
          else
            data ← put_record data (wr_ofs s) (bytes_of (default [] w));
            write_protected sync data arr bufs s
    end.
End Write.
