(* ===== verification/WriteRecTheorems.v ===== *)
(** * Writing mft records: theorems

    A record that was written is on the volume, protected, in its blocks and in those of
    the mirror, and reading it back gives the record; in memory it is as before. *)

From Stdlib Require Import ZArith Lia Bool.
From stdpp Require Import base list numbers option.
From S2P Require Import Prelude Endian Runlist Mst AttrList PageRead PageReadSpec WriteRec.

(** ** Bytes and words *)

Definition word_ok (w : Z) : Prop := 0 <= w < 0x10000.

Lemma words_bytes w : Forall word_ok w -> words_of (bytes_of w) = w.
Proof.
  induction 1 as [|x w Hx _ IH]; [done|]. unfold bytes_of in *. cbn [map concat app words_of]. rewrite IH. f_equal. pose proof (Z.div_mod x 0x100). lia.
Qed.
Lemma length_bytes w : length (bytes_of w) = (2 * length w)%nat.
Proof. induction w as [|x w IH]; [done|]. unfold bytes_of in *. cbn [map concat app length]. lia. Qed.

Lemma words_of_ok b : forall n, length b = (2 * n)%nat -> Forall byte_ok b -> length (words_of b) = n /\ Forall word_ok (words_of b).
Proof.
  intros n. revert b. induction n as [|n IH]; intros b Hl Hb; [by destruct b|]. destruct b as [|x [|z b]]; [done|cbn in Hl; lia|]. apply list.Forall_cons in Hb as [Hx Hb]. apply list.Forall_cons in Hb as [Hz Hb].
  destruct (IH b ltac:(cbn in Hl; lia) Hb) as [H1 H2]. cbn [words_of length]. split; [by rewrite H1|]. constructor; [|done]. unfold byte_ok, word_ok in *. lia.
Qed.
Lemma bytes_of_ok w : Forall word_ok w -> Forall byte_ok (bytes_of w).
Proof.
  induction 1 as [|x w Hx _ IH]; [constructor|]. unfold bytes_of in *. cbn [map concat app]. unfold word_ok in Hx. repeat constructor; try apply Z.mod_pos_bound; try apply Z.div_pos; try apply Z.div_lt_upper_bound; try lia. done.
Qed.

Section All.
Context (P : Z -> Prop).
Lemma wr_all (b b' : list Z) i x : Forall P b -> P x -> wr b i x = Ret b' -> Forall P b'.
Proof. intros Hb Hx. unfold wr. case_match; [|done]. intros [= <-]. by apply Forall_insert. Qed.
Lemma rd_all (b : list Z) i x : Forall P b -> rd b i = Ret x -> P x.
Proof. intros Hb. unfold rd. case_match; [done|]. case_match eqn:E; [|done]. intros [= <-]. by eapply Forall_lookup_1. Qed.
Lemma mst_restore_all n : forall b u d b', Forall P b -> mst_restore n b u d = Ret b' -> Forall P b'.
Proof.
  induction n as [|n IH]; intros b u d b' Hb; cbn [mst_restore]; [by intros [= <-]|]. intros (x & Ex & (b1 & E1 & H)%bind_Ret_inv)%bind_Ret_inv. eapply IH; [|exact H]. eapply wr_all; [exact Hb|by eapply rd_all|done].
Qed.
Lemma mst_protect_all usn n : P usn -> forall b u d b', Forall P b -> mst_protect n b u d usn = Ret b' -> Forall P b'.
Proof.
  intros Hu. induction n as [|n IH]; intros b u d b' Hb; cbn [mst_protect]; [by intros [= <-]|]. intros (x & Ex & (b1 & E1 & (b2 & E2 & H)%bind_Ret_inv)%bind_Ret_inv)%bind_Ret_inv. eapply IH; [|exact H].
  eapply wr_all; [|exact Hu|exact E2]. eapply wr_all; [exact Hb|by eapply rd_all|done].
Qed.
Lemma mst_restore_zlen n : forall b u d b', mst_restore n b u d = Ret b' -> length b' = length b.
Proof.
  induction n as [|n IH]; intros b u d b'; cbn [mst_restore]; [by intros [= <-]|]. intros (x & Ex & (b1 & E1 & H)%bind_Ret_inv)%bind_Ret_inv. apply IH in H. unfold wr in E1. case_match; [|done]. injection E1 as <-. by rewrite length_insert in H.
Qed.
End All.

Lemma pre_write_all b size b1 : Forall word_ok b -> pre_write_mst_fixup (Some b) size = Ret (Some b1, 0) -> Forall word_ok b1.
Proof.
  intros Hb. unfold pre_write_mst_fixup. intros (m & _ & H)%bind_Ret_inv. destruct (_ || _); [by injection H as <-|]. apply bind_Ret_inv in H as (o & _ & H). apply bind_Ret_inv in H as (c & _ & H). destruct (usa_invalid _ _ _); [by injection H as <-|].
  apply bind_Ret_inv in H as (old & _ & H). apply bind_Ret_inv in H as (b0 & E0 & H). apply bind_Ret_inv in H as (b2 & E2 & H). injection H as <-. assert (Hu : word_ok (next_usn old)) by (pose proof (next_usn_ok old); unfold word_ok; lia).
  eapply mst_protect_all; [exact Hu| |exact E2]. by eapply wr_all.
Qed.
Lemma post_write_all b b' : Forall word_ok b -> post_write_mst_fixup b = Ret b' -> Forall word_ok b' /\ length b' = length b.
Proof.
  intros Hb. unfold post_write_mst_fixup. intros (o & _ & (c & _ & H)%bind_Ret_inv)%bind_Ret_inv. split; [by eapply mst_restore_all|by eapply mst_restore_zlen].
Qed.

(** ** The protection of a record *)

(** [r] is a record of [n] sectors that may be written. *)
Definition record_valid (r : list Z) (n usa_ofs : Z) : Prop :=
  Forall byte_ok r /\ zlen r = n * 512 /\ record_ok (words_of r) n usa_ofs /\ exists m, get_magic (words_of r) = Ret m /\ m <> magic_BAAD /\ m <> magic_HOLE.

(** [p] is [r] protected, and [r'] is what it is without the protection: [r] with another
    update sequence array. *)
Record protection (r : list Z) (n usa_ofs : Z) (p r' : list Z) : Prop := {
  pr_len : zlen p = n * 512 /\ zlen r' = n * 512;
  pr_pre : exists w, pre_write_mst_fixup (Some (words_of r)) (n * 512) = Ret (Some w, 0) /\ bytes_of w = p;
  pr_post : exists w, post_write_mst_fixup (words_of p) = Ret w /\ bytes_of w = r';
  pr_read : post_read_mst_fixup (words_of p) (n * 512) = Ret (words_of r', 0);
  pr_same : forall j, in_usa n usa_ofs j = false -> word (words_of r') j = word (words_of r) j;
}.

Lemma protection_exists r n usa_ofs : record_valid r n usa_ofs -> exists p r', protection r n usa_ofs p r'.
Proof.
  intros (Hb & Hz & Hok & m & Hm & H1 & H2). pose proof (ro_sectors _ _ _ Hok) as Hn. destruct (words_of_ok r (Z.to_nat (n * 256))) as [Hwl Hw]; [unfold zlen in Hz; lia|done|].
  destruct (pre_write_spec _ n usa_ofs m Hok Hm H1 H2) as (b1 & usn & Hpre & _ & Hok1 & Hu & Hp & Hr). destruct (post_read_intact b1 n usa_ofs usn Hok1 Hu) as (b2 & Hread & Hpost & Hj); [intros; by apply Hp|].
  change (n * NTFS_BLOCK_SIZE) with (n * 512) in *. pose proof (pre_write_all _ _ _ Hw Hpre) as Hw1. destruct (post_write_all _ _ Hw1 Hpost) as [Hw2 Hl2]. pose proof (ro_len _ _ _ Hok1) as Hl1. unfold BLOCK_WORDS, zlen in Hl1.
  exists (bytes_of b1), (bytes_of b2). constructor; rewrite ?words_bytes by done; try done.
  - unfold zlen. rewrite !length_bytes. lia.
  - by exists b1.
  - by exists b2.
  - intros j Hout. rewrite Hj. destruct (protected (Z.to_nat n) (BLOCK_WORDS - 1) j) eqn:E; [by apply Hp|by apply Hr].
Qed.

(** ** The buffers of the record *)

Section Geometry.
Context {BD : BlockDevice} (shift bb cb bits : Z).
Hypothesis Hbits : 0 <= bb <= bits /\ bits <= shift /\ bb <= cb /\ 9 <= bits.
Local Abbreviation bs := (2 ^ bb).
Local Abbreviation collect := (collect bb cb bits).

(** The number of blocks of a record. *)
Definition nblocks : Z := 2 ^ (bits - bb).

Lemma sizes_ok : 0 < bs /\ 0 < nblocks /\ rec_size bits = nblocks * bs /\ max_bhs bb bits = nblocks.
Proof.
  unfold nblocks, max_bhs, rec_size, blocksize. assert (0 < bs) by (apply Z.pow_pos_nonneg; lia). assert (0 < 2 ^ (bits - bb)) by (apply Z.pow_pos_nonneg; lia). assert (E : 2 ^ bits = 2 ^ (bits - bb) * bs) by (rewrite <- Z.pow_add_r by lia; f_equal; lia).
  split_and!; [done|done|done|]. rewrite E. by apply Z.div_mul; lia.
Qed.

(** The block of position [pos] of the attribute with the runlist [rl]. *)
Definition block_at (rl : rl_buf) (pos nr : Z) : Prop :=
  exists lcn, lookup_runs rl (Z.shiftr pos cb) = Ret lcn /\ 0 <= lcn /\ nr = Z.shiftr (s64 (Z.shiftl lcn cb) + Z.land pos (2 ^ cb - 1)) bb.

(** Where the search goes on: it finds what the whole runlist finds from [vcn] on. *)
Definition from_here (full : rl_buf) (rl : option rl_buf) (vcn : Z) : Prop :=
  match rl with None => True | Some r => starts_by r vcn /\ forall v, vcn <= v -> lookup_runs r v = lookup_runs full v end.

Lemma from_here_later full rl v1 v2 : v1 <= v2 -> from_here full rl v1 -> from_here full rl v2.
Proof.
  intros Hv. destruct rl as [r|]; [|done]. intros [(r0 & rest & -> & Hr) H]. split; [exists r0, rest; split; [done|lia]|]. intros v ?. apply H. lia.
Qed.

Lemma locate_run full rl pos nr : starts_by full 0 -> 0 <= pos -> from_here full rl (Z.shiftr pos cb) -> block_at full pos nr ->
  exists r, locate bb cb (Some full) rl pos = Ret (r, Some nr) /\ from_here full (Some r) (Z.shiftr pos cb).
Proof.
  intros Hs Hp Hf (lcn & Hl & Hpos & ->). assert (Hv : 0 <= Z.shiftr pos cb) by (by apply Z.shiftr_nonneg). set (vcn := Z.shiftr pos cb) in *.
  assert (Hr : exists r, match rl with Some r => Ret r | None => Ret full end = Ret r /\ starts_by r vcn /\ forall v, vcn <= v -> lookup_runs r v = lookup_runs full v).
  { destruct rl as [r|]; [exists r; by destruct Hf|]. exists full. split; [done|]. split; [|done]. destruct Hs as (r0 & rest & -> & Hr). exists r0, rest. split; [done|lia]. }
  destruct Hr as (r & Er & Hsr & Hlr). unfold locate. fold vcn. rewrite Er, bind_Ret. assert (Hl' : lookup_runs r vcn = Ret lcn) by (by rewrite Hlr by lia). destruct (seek_spec r vcn lcn Hl' Hsr) as (r' & Es & Hs' & Hl2). rewrite Es, bind_Ret.
  rewrite lookup_runs_eq by done. rewrite Hl2, Hl', bind_Ret by lia. rewrite Z.geb_leb, (proj2 (Z.leb_le 0 lcn)) by done. exists r'. split; [done|]. split; [done|]. intros v Hv'. rewrite Hl2 by done. by apply Hlr.
Qed.

(** A buffer that may be written, at block [nr]. *)
Definition buf_ok (bh : wbh) (nr : Z) : Prop := wb_uptodate bh = true /\ wb_locked bh = false /\ (wb_mapped bh = true -> wb_blocknr bh = nr).
(** The buffer once it is mapped. *)
Definition mapped_bh (bh : wbh) (nr : Z) : wbh := mk_wbh true true false (wb_dirty bh) nr.

Lemma map_buffer_run full rl pos nr bh : starts_by full 0 -> 0 <= pos -> from_here full rl (Z.shiftr pos cb) -> block_at full pos nr -> buf_ok bh nr ->
  exists rl', map_buffer bb cb (Some full) rl pos bh 0 = Ret (mapped_bh bh nr, rl', 0) /\ from_here full rl' (Z.shiftr pos cb).
Proof.
  intros Hs Hp Hf Hb (H1 & H2 & H3). unfold map_buffer. destruct bh as [up mp lk dt n]. cbn in *. subst up lk. destruct mp; [exists rl; by rewrite (H3 eq_refl)|].
  destruct (locate_run full rl pos nr Hs Hp Hf Hb) as (r & E & Hr). rewrite E, bind_Ret. by exists (Some r).
Qed.

(** The numbers from [i] on. *)
Definition upto (i : Z) (n : nat) : list Z := map (fun k => i + Z.of_nat k) (seq 0 n).
Lemma upto_S i n : upto i (S n) = i :: upto (i + 1) n.
Proof. unfold upto. cbn [seq map]. f_equal; [lia|]. rewrite <- seq_shift, map_map. apply map_ext. intros. lia. Qed.

(** The loop from block [j] of the record on. *)
Lemma collect_mid mft full no ofs post : starts_by full 0 -> 0 <= no -> no * 2 ^ bits + 2 ^ bits <= S64_MAX ->
  forall mid blks j i rl arr, length blks = length mid -> i * bs = ofs + j * bs -> 0 <= j -> zlen arr = j -> j + zlen mid = nblocks ->
  from_here full rl (Z.shiftr (no * 2 ^ bits + j * bs) cb) ->
  (forall k nr, blks !! k = Some nr -> block_at full (no * 2 ^ bits + (j + Z.of_nat k) * bs) nr) -> Forall2 buf_ok mid blks ->
  (mft = true -> j = 0 -> exists bh, head mid = Some bh /\ wb_dirty bh = true) ->
  collect mft (Some full) no ofs i (mid ++ post) rl arr 0 = Ret (zip_with mapped_bh mid blks ++ post, arr ++ upto i (length mid), 0).
Proof.
  pose proof sizes_ok as (Hbs & Hnb & Hrec & Hmax). intros Hs Hno Hmaxpos. assert (H2b : 0 < 2 ^ bits) by (apply Z.pow_pos_nonneg; lia). induction mid as [|bh mid IH]; intros blks j i rl arr Hl Hi Hj Ha Hn Hf Hblk Hb Hd.
  - destruct blks; [|done]. cbn [app zip_with upto]. rewrite app_nil_r. cbn [zlen length Z.of_nat] in Hn. assert (j = nblocks) as -> by (unfold zlen in Hn; cbn in Hn; lia). destruct post as [|bh post]; cbn [WriteRec.collect]; [done|]. unfold blocksize. rewrite Hi, Hrec.
    destruct (Z.leb_spec (ofs + nblocks * bs + bs) ofs); [nia|]. rewrite Z.geb_leb, (proj2 (Z.leb_le _ _)) by lia. done.
  - destruct blks as [|nr blks]; [done|]. apply Forall2_cons_1 in Hb as [Hb Hbs']. cbn [app WriteRec.collect]. unfold blocksize. rewrite Hi, Hrec, Hmax. unfold zlen in Hn. cbn [length] in Hn.
    destruct (Z.leb_spec (ofs + j * bs + bs) ofs); [nia|]. rewrite Z.geb_leb. destruct (Z.leb_spec (ofs + nblocks * bs) (ofs + j * bs)); [nia|].
    assert (Hdirty : mft && (ofs + j * bs =? ofs) && negb (wb_dirty bh) = false).
    { destruct mft; [|done]. destruct (Z.eqb_spec (ofs + j * bs) ofs) as [E|]; [|done]. destruct (Hd eq_refl ltac:(nia)) as (bh' & [= <-] & ->). done. }
    rewrite Hdirty. replace (s64 (Z.shiftl no bits) + (ofs + j * bs - ofs)) with (no * 2 ^ bits + j * bs) by (rewrite Z.shiftl_mul_pow2, s64_id by (unfold S64_MIN in *; lia); lia).
    assert (Hb0 : block_at full (no * 2 ^ bits + j * bs) nr) by (rewrite <- (Z.add_0_r j); by apply (Hblk 0%nat nr)).
    assert (Hpos : 0 <= no * 2 ^ bits + j * bs) by nia. destruct (map_buffer_run full rl _ nr bh Hs Hpos Hf Hb0 Hb) as (rl' & E & Hf'). rewrite E, bind_Ret. cbn [mapped_bh wb_uptodate]. cbn [negb].
    assert (Hlen : zlen (arr ++ [i]) = j + 1) by (rewrite zlen_app, Ha; done).
    assert (B1 : bool_decide (arr = []) && negb (ofs =? ofs + j * bs) = false). { destruct (decide (arr = [])) as [->|Hne]; [|by rewrite bool_decide_false]. cbn in Ha. subst j. rewrite Z.mul_0_l, Z.add_0_r, Z.eqb_refl. by rewrite andb_false_r. }
    rewrite B1. rewrite !Z.geb_leb. destruct (Z.leb_spec nblocks (zlen arr)); [lia|]. rewrite Hlen.
    assert (B2 : (nblocks <=? j + 1) && negb (ofs + nblocks * bs =? ofs + j * bs + bs) = false). { destruct (Z.leb_spec nblocks (j + 1)); [|done]. assert (j + 1 = nblocks) by lia. rewrite (proj2 (Z.eqb_eq _ _)) by nia. done. }
    rewrite B2. unfold BUG_ON. rewrite !bind_Ret.
    rewrite (IH blks (j + 1) (i + 1) rl' (arr ++ [i])); try done.
    + rewrite bind_Ret. cbn [length zip_with]. rewrite upto_S, <- app_assoc. done.
    + cbn in Hl. lia.
    + lia.
    + lia.
    + unfold zlen. lia.
    + eapply from_here_later; [|exact Hf']. rewrite !Z.shiftr_div_pow2 by lia. apply Z.div_le_mono; [apply Z.pow_pos_nonneg; lia|nia].
    + intros k nr' Hk. replace (j + 1 + Z.of_nat k) with (j + Z.of_nat (S k)) by lia. by apply Hblk.
    + intros _ ?. lia.
Qed.

Lemma collect_skip mft rl0 no ofs rest pre : forall i rl arr err x, (i + zlen pre) * bs <= ofs -> collect mft rl0 no ofs (i + zlen pre) rest rl arr err = Ret x ->
  collect mft rl0 no ofs i (pre ++ rest) rl arr err = Ret (pre ++ x.1.1, x.1.2, x.2).
Proof.
  pose proof sizes_ok as (Hbs & _). induction pre as [|bh pre IH]; intros i rl arr err x Hi E.
  - cbn [zlen length Z.of_nat app] in *. replace (i + zlen []) with i in E by (unfold zlen; cbn; lia). rewrite E. by destruct x as [[? ?] ?].
  - unfold zlen in *. cbn [length app WriteRec.collect] in *. unfold blocksize. rewrite (proj2 (Z.leb_le _ _)) by nia. rewrite (IH (i + 1) rl arr err x); [by rewrite bind_Ret|nia|]. rewrite <- E. f_equal. lia.
Qed.

(** ** The i/o *)

Definition sent (nr : Z) : wbh := mk_wbh true true true false nr.
Definition written (nr : Z) : wbh := mk_wbh true true false false nr.
(** The blocks of the list are replaced, one after the other. *)
Fixpoint put_blocks (l : list (Z * list Z)) (disk : Z -> list Z) : Z -> list Z :=
  match l with [] => disk | (nr, d) :: l => put_blocks l (fun n => if n =? nr then d else disk n) end.

Lemma put_blocks_other l : forall disk n, n ∉ l.*1 -> put_blocks l disk n = disk n.
Proof.
  induction l as [|[nr d] l IH]; intros disk n Hn; [done|]. cbn [put_blocks]. cbn in Hn. apply not_elem_of_cons in Hn as [Hne Hn]. rewrite IH by done. by rewrite (proj2 (Z.eqb_neq _ _)).
Qed.
Lemma put_blocks_at blks : forall datas disk, NoDup blks -> length datas = length blks -> map (put_blocks (zip blks datas) disk) blks = datas.
Proof.
  induction blks as [|nr blks IH]; intros datas disk Hnd Hl; [by destruct datas|]. destruct datas as [|d datas]; [done|]. inversion Hnd as [|? ? Hn Hnd']; subst. cbn [zip zip_with put_blocks map]. f_equal; [|apply IH; [done|by injection Hl]].
  rewrite put_blocks_other; [by rewrite Z.eqb_refl|]. intros Hin. apply Hn. apply list_elem_of_fmap in Hin as ([a c] & -> & Hin). by apply elem_of_zip_l in Hin.
Qed.

(** The device writes these blocks. *)
Definition device_ok (blks : list Z) : Prop := forall nr d old, nr ∈ blks -> bd_write nr d old = (d, true).

Lemma submit_run data post mid : forall blks pre disk, device_ok blks -> length blks = length mid ->
  submit_writes bb data (upto (zlen pre) (length mid)) (pre ++ zip_with mapped_bh mid blks ++ post) disk =
    Ret (pre ++ map sent blks ++ post, put_blocks (zip blks (map (block_data bb data) (upto (zlen pre) (length mid)))) disk).
Proof.
  induction mid as [|bh mid IH]; intros blks pre disk Hdev Hl; [by destruct blks|]. destruct blks as [|nr blks]; [done|]. cbn [length]. rewrite upto_S. cbn [submit_writes zip_with app map].
  rewrite (rd_mid pre (mapped_bh bh nr) _ _ eq_refl), bind_Ret. cbn [mapped_bh wb_locked wb_uptodate wb_blocknr wb_mapped negb]. unfold BUG_ON. rewrite !bind_Ret. rewrite (Hdev nr) by (by left). rewrite (wr_mid pre _ _ _ _ eq_refl), bind_Ret.
  specialize (IH blks (pre ++ [sent nr]) (fun n => if n =? nr then block_data bb data (zlen pre) else disk n)). rewrite zlen_app in IH. change (zlen [sent nr]) with 1 in IH. rewrite <- !app_assoc in IH. cbn [app] in IH. apply IH; [|by injection Hl].
  intros n d old Hn. apply Hdev. by right.
Qed.

Lemma wait_run restore post blks : forall pre, wait_writes restore (upto (zlen pre) (length blks)) (pre ++ map sent blks ++ post) 0 = Ret (pre ++ map written blks ++ post, 0).
Proof.
  induction blks as [|nr blks IH]; intros pre; [done|]. cbn [length]. rewrite upto_S. cbn [wait_writes app map]. rewrite (rd_mid pre (sent nr) _ _ eq_refl), bind_Ret. rewrite (wr_mid pre _ _ _ _ eq_refl), bind_Ret. cbn [sent wb_uptodate wb_mapped wb_dirty wb_blocknr orb].
  specialize (IH (pre ++ [written nr])). rewrite zlen_app in IH. change (zlen [written nr]) with 1 in IH. rewrite <- !app_assoc in IH. exact IH.
Qed.

(** The blocks of a record in its page make up the record. *)
Lemma blocks_of_record a p c i : zlen p = rec_size bits -> zlen a = i * bs -> concat (map (block_data bb (a ++ p ++ c)) (upto i (Z.to_nat nblocks))) = p.
Proof.
  pose proof sizes_ok as (Hbs & Hnb & Hrec & _). intros Hp Ha. assert (Hpl : length p = (Z.to_nat nblocks * Z.to_nat bs)%nat) by (unfold zlen in Hp; rewrite Hrec in Hp; rewrite <- Z2Nat.inj_mul by lia; lia).
  rewrite (slices_concat (Z.to_nat bs) p (Z.to_nat nblocks) (fun k => slice (Z.to_nat bs) k p) Hpl) at 2 by done. f_equal. unfold upto. rewrite map_map. apply map_ext_in. intros k Hk%in_seq. unfold block_data, slice, blocksize.
  rewrite drop_app_ge by (unfold zlen in Ha; nia). replace (Z.to_nat ((i + Z.of_nat k) * bs) - length a)%nat with (k * Z.to_nat bs)%nat by (unfold zlen in Ha; nia).
  rewrite drop_app_le by (rewrite Hpl; nia). rewrite take_app_le by (rewrite length_drop, Hpl; nia). done.
Qed.

(** ** A record in a page *)

(** The record [no], at [ofs] of its page, has the buffers [mid] among those of the page,
    and the blocks [blks] on the volume; for $MFT the first buffer is dirty. *)
Record located (mft : bool) (rl : rl_buf) (no ofs : Z) (pre mid : list wbh) (blks : list Z) : Prop := {
  lo_no : 0 <= no /\ no * 2 ^ bits + 2 ^ bits <= S64_MAX;
  lo_start : starts_by rl 0;
  lo_ofs : ofs = zlen pre * bs;
  lo_mid : zlen mid = nblocks;
  lo_blks : forall k nr, blks !! k = Some nr -> block_at rl (no * 2 ^ bits + Z.of_nat k * bs) nr;
  lo_bufs : Forall2 buf_ok mid blks;
  lo_nodup : NoDup blks;
  lo_dirty : mft = true -> exists bh, head mid = Some bh /\ wb_dirty bh = true;
}.

Lemma located_length mft rl no ofs pre mid blks : located mft rl no ofs pre mid blks -> length blks = length mid /\ length mid = Z.to_nat nblocks.
Proof. intros [_ _ _ H1 _ H2 _ _]. apply Forall2_length in H2. unfold zlen in H1. lia. Qed.

Lemma collect_run mft rl no ofs pre mid post blks : located mft rl no ofs pre mid blks ->
  collect mft (Some rl) no ofs 0 (pre ++ mid ++ post) None [] 0 = Ret (pre ++ zip_with mapped_bh mid blks ++ post, upto (zlen pre) (length mid), 0).
Proof.
  intros H. destruct (located_length _ _ _ _ _ _ _ H) as [Hl _]. destruct H as [[H1 H2] H3 H4 H5 H6 H7 H8 H9]. subst ofs.
  assert (Em : collect mft (Some rl) no (zlen pre * bs) (0 + zlen pre) (mid ++ post) None [] 0 = Ret (zip_with mapped_bh mid blks ++ post, [] ++ upto (0 + zlen pre) (length mid), 0)).
  { apply (collect_mid mft rl no _ post H3 H1 H2 mid blks 0); try done; try lia. intros Hm _. by apply H9. }
  rewrite (collect_skip mft (Some rl) no (zlen pre * bs) (mid ++ post) pre 0 None [] 0 _ ltac:(lia) Em). done.
Qed.

Lemma put_record_at a old c r : zlen old = rec_size bits -> zlen r = rec_size bits -> put_record bits (a ++ old ++ c) (zlen a) r = Ret (a ++ r ++ c).
Proof. intros Ho Hr. apply (blit_eq _ _ _ _ _ a old c [] r []); try done. by rewrite app_nil_r. Qed.
Lemma record_bytes_at a r c : zlen r = rec_size bits -> record_bytes bits (a ++ r ++ c) (zlen a) = r.
Proof. intros Hr. unfold record_bytes, zlen in *. rewrite Nat2Z.id, drop_app_length, <- Hr, Nat2Z.id. apply take_app_length. Qed.

(** The sectors of a record. *)
Definition sectors : Z := rec_size bits / 512.
Lemma sectors_ok : sectors * 512 = rec_size bits.
Proof. unfold sectors, rec_size. change 512 with (2 ^ 9). rewrite <- Z.pow_sub_r by lia. rewrite <- Z.pow_add_r by lia. f_equal. lia. Qed.

Lemma unprotect_at a r p r' c usa_ofs : protection r sectors usa_ofs p r' -> unprotect bits (a ++ p ++ c) (zlen a) = Ret (a ++ r' ++ c).
Proof.
  intros [[H1 H2] _ (w & E & <-) _ _]. rewrite sectors_ok in *. unfold unprotect. rewrite record_bytes_at, E, bind_Ret by done. by apply put_record_at.
Qed.

(** The i/o on a record that is in the page, whatever else is. *)
Lemma record_io rl no pre mid post blks a p c disk restore mft : located mft rl no (zlen a) pre mid blks -> device_ok blks -> zlen p = rec_size bits ->
  exists disk', submit_writes bb (a ++ p ++ c) (upto (zlen pre) (length mid)) (pre ++ zip_with mapped_bh mid blks ++ post) disk = Ret (pre ++ map sent blks ++ post, disk') /\
    wait_writes restore (upto (zlen pre) (length mid)) (pre ++ map sent blks ++ post) 0 = Ret (pre ++ map written blks ++ post, 0) /\
    concat (map disk' blks) = p /\ forall n, n ∉ blks -> disk' n = disk n.
Proof.
  intros H Hd Hp. destruct (located_length _ _ _ _ _ _ _ H) as [Hl Hn]. eexists. split; [by apply submit_run|]. split; [rewrite <- Hl; apply wait_run|]. split.
  - rewrite put_blocks_at by (try apply H; unfold upto; rewrite !length_map, length_seq; done). rewrite Hn. apply blocks_of_record; [done|]. apply H.
  - intros n Hnot. apply put_blocks_other. intros Hin. apply Hnot. apply list_elem_of_fmap in Hin as ([x z] & -> & Hin). by apply elem_of_zip_l in Hin.
Qed.

Definition fresh_bufs : list wbh := repeat (mk_wbh true false false false 0) (Z.to_nat (2 ^ (shift - bb))).

(** The page has the record [r] at [ofs], with its blocks. *)
Definition page_ready (mft : bool) (rl : rl_buf) (no ofs : Z) (p : wpage) (r : list Z) (blks : list Z) : Prop :=
  exists a c pre mid post, wp_data p = a ++ r ++ c /\ zlen a = ofs /\ zlen r = rec_size bits /\
    (if mft then wp_bufs p = Some (pre ++ mid ++ post) else default fresh_bufs (wp_bufs p) = pre ++ mid ++ post) /\ located mft rl no ofs pre mid blks.

(** The page has another record there. *)
Definition replaced (ofs : Z) (r : list Z) (p p' : wpage) : Prop := wp_data p' = Endian.splice ofs r (wp_data p) /\ wp_locked p' = wp_locked p /\ wp_uptodate p' = wp_uptodate p.

(** What is on the volume. *)
Definition on_disk (disk disk' : Z -> list Z) (blks : list Z) (p : list Z) : Prop := concat (map disk' blks) = p /\ forall n, n ∉ blks -> disk' n = disk n.

Lemma splice_record (a r c r' : list Z) : zlen r' = zlen r -> Endian.splice (zlen a) r' (a ++ r ++ c) = a ++ r' ++ c.
Proof. apply splice_parts. Qed.

Context (mft_rl mirr_rl : rl_buf) (mftmirr_size : Z).

(** Where the copy of a record is in its page. *)
Definition mirr_ofs (no : Z) : Z := Z.land (Z.shiftl no bits) (2 ^ shift - 1).

Lemma sync_page_run no r usa_ofs p r' pg old blks disk : protection r sectors usa_ofs p r' -> wp_locked pg = false -> wp_uptodate pg = true -> page_ready false mirr_rl no (mirr_ofs no) pg old blks -> device_ok blks ->
  exists pg' disk', sync_page shift bb cb bits (Some mirr_rl) no p pg disk = Ret (pg', disk', 0) /\ replaced (mirr_ofs no) r' pg pg' /\ on_disk disk disk' blks p.
Proof.
  intros Hp Hl Hu (a & c & pre & mid & post & Ed & Ea & Er & Eb & Hloc) Hdev. pose proof (pr_len _ _ _ _ _ Hp) as [Hpl Hrl]. rewrite sectors_ok in Hpl, Hrl.
  unfold sync_page. rewrite Hl, Hu. cbn [negb]. unfold BUG_ON. rewrite bind_Ret. fold (mirr_ofs no). rewrite Ed, <- Ea, put_record_at, bind_Ret by done. fold fresh_bufs. rewrite Eb. rewrite <- Ea in Hloc.
  unfold mirror_io. rewrite (collect_run false mirr_rl no _ pre mid post blks Hloc), !bind_Ret. cbn [Z.eqb].
  destruct (record_io mirr_rl no pre mid post blks a p c disk true false Hloc Hdev Hpl) as (disk' & E1 & E2 & E3 & E4). rewrite E1, bind_Ret, E2, !bind_Ret, (unprotect_at a r p r' c usa_ofs Hp), bind_Ret.
  eexists _, disk'. split; [done|]. split; [|done]. split; [|done]. cbn [wp_data]. rewrite Ed, splice_record by lia. done.
Qed.

(** The mirror is there for the record, if it has a place in it. *)
Definition mirror_ready (no : Z) (v : wvol) (mblks : list Z) : Prop :=
  exists pg old, wv_mirr v (Z.shiftr no (shift - bits)) = inr pg /\ wp_locked pg = false /\ wp_uptodate pg = true /\ page_ready false mirr_rl no (mirr_ofs no) pg old mblks /\ device_ok mblks.

(** The copy was written: its page has the record, and its blocks the protected record. *)
Definition mirrored_to (no : Z) (v v' : wvol) (p r' : list Z) (mblks : list Z) : Prop :=
  wv_errors v' = wv_errors v /\
  if no <? mftmirr_size then
    on_disk (wv_disk v) (wv_disk v') mblks p /\ (forall n, n <> Z.shiftr no (shift - bits) -> wv_mirr v' n = wv_mirr v n) /\
    exists pg pg', wv_mirr v (Z.shiftr no (shift - bits)) = inr pg /\ wv_mirr v' (Z.shiftr no (shift - bits)) = inr pg' /\ replaced (mirr_ofs no) r' pg pg'
  else v' = v.

Lemma sync_mirror_run s a r usa_ofs p r' c mblks : protection r sectors usa_ofs p r' -> wr_ofs s = zlen a -> (wr_no s < mftmirr_size -> mirror_ready (wr_no s) (wr_vol s) mblks) ->
  exists v', sync_mirror shift bb cb bits (Some mirr_rl) true mftmirr_size (a ++ p ++ c) s = Ret v' /\ mirrored_to (wr_no s) (wr_vol s) v' p r' mblks.
Proof.
  intros Hp Ho Hm. pose proof sizes_ok as (_ & Hnb & _ & Hmax). pose proof (pr_len _ _ _ _ _ Hp) as [Hpl _]. rewrite sectors_ok in Hpl. unfold sync_mirror, mirrored_to. destruct (Z.ltb_spec (wr_no s) mftmirr_size) as [Hlt|Hge]; [|by exists (wr_vol s)].
  destruct (Hm Hlt) as (pg & old & Epg & Hl & Hu & Hr & Hd). rewrite Ho, record_bytes_at by done. unfold ntfs_sync_mft_mirror. rewrite Hmax, (proj2 (Z.eqb_neq _ _)) by lia. unfold BUG_ON. rewrite bind_Ret. cbn [negb]. rewrite Epg.
  destruct (sync_page_run (wr_no s) r usa_ofs p r' pg old mblks (wv_disk (wr_vol s)) Hp Hl Hu Hr Hd) as (pg' & disk' & E & H1 & H2). rewrite E, !bind_Ret. cbn [Z.eqb]. eexists. split; [done|]. cbn. split; [done|]. split; [done|]. split.
  - intros n Hn. by rewrite (proj2 (Z.eqb_neq _ _)).
  - exists pg, pg'. by rewrite Z.eqb_refl.
Qed.

(** The record is on the volume, and in the mirror if it has a place there; nothing else
    was written. *)
Definition stored (no : Z) (v v' : wvol) (p r' : list Z) (blks mblks : list Z) : Prop :=
  concat (map (wv_disk v') blks) = p /\ wv_errors v' = wv_errors v /\
  (forall n, n ∉ blks -> (no < mftmirr_size -> n ∉ mblks) -> wv_disk v' n = wv_disk v n) /\
  (no < mftmirr_size -> concat (map (wv_disk v') mblks) = p /\
     exists pg pg', wv_mirr v (Z.shiftr no (shift - bits)) = inr pg /\ wv_mirr v' (Z.shiftr no (shift - bits)) = inr pg' /\ replaced (mirr_ofs no) r' pg pg').

Lemma stored_both no v v1 v2 p r' blks mblks : on_disk (wv_disk v) (wv_disk v1) blks p -> wv_mirr v1 = wv_mirr v -> wv_errors v1 = wv_errors v -> mirrored_to no v1 v2 p r' mblks ->
  (no < mftmirr_size -> forall n, n ∈ blks -> n ∉ mblks) -> stored no v v2 p r' blks mblks.
Proof.
  intros [H1 H2] Hm1 He1 [He Hm] Hdis. unfold stored. rewrite <- He1. destruct (Z.ltb_spec no mftmirr_size) as [Hlt|Hge].
  - destruct Hm as ([D1 D2] & _ & pg & pg' & E1 & E2 & Hr). split_and!; [|done| |].
    + rewrite <- H1. f_equal. apply map_ext_in. intros n Hn%list_elem_of_In. apply D2. by apply Hdis.
    + intros n Hn Hn'. rewrite D2 by auto. by apply H2.
    + intros _. split; [done|]. exists pg, pg'. by rewrite <- Hm1.
  - subst v2. split_and!; [done|done| |lia]. intros n Hn _. by apply H2.
Qed.

Lemma write_protected_run sync s a r usa_ofs p r' c pre mid post blks mblks : protection r sectors usa_ofs p r' -> located true mft_rl (wr_no s) (zlen a) pre mid blks -> wr_ofs s = zlen a -> device_ok blks ->
  (wr_no s < mftmirr_size -> mirror_ready (wr_no s) (wr_vol s) mblks /\ forall n, n ∈ blks -> n ∉ mblks) ->
  exists v', write_protected shift bb cb bits (Some mirr_rl) true mftmirr_size sync (a ++ p ++ c) (upto (zlen pre) (length mid)) (pre ++ zip_with mapped_bh mid blks ++ post) s =
    Ret (mk_wrec (wr_no s) (wr_attr s) (zlen a) (wr_dirty s) (mk_wpage (a ++ r' ++ c) (Some (pre ++ map written blks ++ post)) (wp_uptodate (wr_page s)) (wp_locked (wr_page s))) v', 0) /\
    stored (wr_no s) (wr_vol s) v' p r' blks mblks.
Proof.
  intros Hp Hloc Ho Hdev Hm. pose proof (pr_len _ _ _ _ _ Hp) as [Hpl _]. rewrite sectors_ok in Hpl. unfold write_protected.
  destruct (record_io mft_rl (wr_no s) pre mid post blks a p c (wv_disk (wr_vol s)) (wp_uptodate (wr_page s)) true Hloc Hdev Hpl) as (disk' & E1 & E2 & E3 & E4). rewrite E1, bind_Ret. set (v1 := mk_wvol disk' _ _).
  assert (Hsync : forall s', wr_no s' = wr_no s -> wr_ofs s' = wr_ofs s -> wr_vol s' = v1 -> exists v', sync_mirror shift bb cb bits (Some mirr_rl) true mftmirr_size (a ++ p ++ c) s' = Ret v' /\ stored (wr_no s) (wr_vol s) v' p r' blks mblks).
  { intros s' F1 F2 F3. destruct (sync_mirror_run s' a r usa_ofs p r' c mblks Hp ltac:(by rewrite F2)) as (v' & E & H').
    - rewrite F1, F3. intros Hlt. destruct (Hm Hlt) as [(pg & old & Epg & H) _]. by exists pg, old.
    - exists v'. split; [done|]. rewrite F1, F3 in H'. eapply (stored_both _ (wr_vol s) v1 v'); [by split|done|done|exact H'|]. intros Hlt. by apply Hm. }
  assert (Hun : forall o, o = zlen a -> unprotect bits (a ++ p ++ c) o = Ret (a ++ r' ++ c)) by (intros o ->; by apply (unprotect_at a r p r' c usa_ofs)).
  destruct sync.
  - rewrite bind_Ret. unfold with_vol. cbn [wr_page wr_vol wr_no wr_attr wr_ofs wr_dirty]. rewrite E2, bind_Ret. match goal with |- context [sync_mirror _ _ _ _ _ _ _ _ ?s'] => destruct (Hsync s' eq_refl eq_refl eq_refl) as (v' & Es & Hst) end. rewrite Es, bind_Ret, Hun, bind_Ret by done. exists v'. rewrite <- Ho. done.
  - match goal with |- context [sync_mirror _ _ _ _ _ _ _ _ ?s'] => destruct (Hsync s' eq_refl eq_refl eq_refl) as (v' & Es & Hst) end. rewrite Es, bind_Ret. unfold with_vol. cbn [wr_page wr_vol wr_no wr_attr wr_ofs wr_dirty]. rewrite E2, !bind_Ret, Hun, bind_Ret by done. exists v'. rewrite <- Ho. done.
Qed.
End Geometry.

(** C20: A record that was written can be read back: [write_mft_record_nolock] on a dirty
    record of $MFT (not of a fake inode) that is valid, whose first buffer is dirty and whose blocks [blks] are
    those of the runlist of $MFT, with a device that performs the writes, returns 0; the
    blocks then hold the protected record, from which the fixups of a read give the
    record that is in the page afterwards, and this is the record that was written but
    for its update sequence array; a record with a place in the mft mirror is there too,
    in the blocks [mblks] and in the page of the mirror; no other block of the volume and
    no other byte of the page has changed, the inode is clean, the buffers of the record
    are clean, unlocked and up to date, and no error is recorded; synchronous or not. *)
Theorem write_record_correct {BD : BlockDevice} shift bb cb bits mft_rl mirr_rl mftmirr_size sync s r usa_ofs blks mblks :
  0 <= bb <= bits /\ bits <= shift /\ bb <= cb /\ 9 <= bits -> wr_attr s = false -> wr_dirty s = true -> wp_locked (wr_page s) = true ->
  page_ready shift bb cb bits true mft_rl (wr_no s) (wr_ofs s) (wr_page s) r blks -> record_valid r (sectors bits) usa_ofs -> device_ok blks ->
  (wr_no s < mftmirr_size -> mirror_ready shift bb cb bits mirr_rl (wr_no s) (wr_vol s) mblks /\ forall n, n ∈ blks -> n ∉ mblks) ->
  exists s' r', write_mft_record_nolock shift bb cb bits (Some mft_rl) (Some mirr_rl) true mftmirr_size sync s = Ret (s', 0) /\
    post_read_mst_fixup (words_of (concat (map (wv_disk (wr_vol s')) blks))) (rec_size bits) = Ret (words_of r', 0) /\
    (forall j, in_usa (sectors bits) usa_ofs j = false -> word (words_of r') j = word (words_of r) j) /\
    replaced (wr_ofs s) r' (wr_page s) (wr_page s') /\ wr_dirty s' = false /\
    (forall nr, nr ∈ blks -> exists bufs, wp_bufs (wr_page s') = Some bufs /\ written nr ∈ bufs) /\
    stored shift bits mftmirr_size (wr_no s) (wr_vol s) (wr_vol s') (concat (map (wv_disk (wr_vol s')) blks)) r' blks mblks.
Proof.
  intros Hg Ha Hd Hl (a & c & pre & mid & post & Ed & Ea & Er & Eb & Hloc) Hv Hdev Hm. destruct (protection_exists r (sectors bits) usa_ofs Hv) as (p & r' & Hp). pose proof (pr_pre _ _ _ _ _ Hp) as (w & Ew & Hw). pose proof (pr_len _ _ _ _ _ Hp) as [Hpl Hrl].
  rewrite (sectors_ok shift bb cb bits Hg) in *. pose proof (sizes_ok shift bb cb bits Hg) as (_ & Hnb & _ & Hmax). pose proof Hloc as Hloc'. rewrite <- Ea in Hloc'.
  set (s1 := mk_wrec (wr_no s) false (wr_ofs s) false (wr_page s) (wr_vol s)).
  destruct (write_protected_run shift bb cb bits Hg mft_rl mirr_rl mftmirr_size sync s1 a r usa_ofs p r' c pre mid post blks mblks Hp Hloc' (eq_sym Ea) Hdev Hm) as (v' & E & Hst).
  eexists _, r'. split.
  { unfold write_mft_record_nolock. rewrite Ha, Hmax, (proj2 (Z.eqb_neq _ _)), Hl, Hd by lia. cbn [negb]. unfold BUG_ON. rewrite !bind_Ret. cbn [wr_page wr_no wr_ofs wr_vol]. rewrite Eb, (collect_run shift bb cb bits Hg true mft_rl _ _ pre mid post blks Hloc), bind_Ret.
    rewrite bool_decide_false by (destruct (located_length _ _ _ _ _ _ _ _ _ _ Hloc) as [_ Hn]; intros Hnil%(f_equal length); unfold upto in Hnil; rewrite length_map, length_seq in Hnil; cbn in Hnil; lia).
    cbn [Z.eqb negb]. rewrite Ed, <- Ea, (record_bytes_at bits a r c Er), Ew, bind_Ret. cbn [Z.eqb negb]. change (default [] (Some w)) with w. rewrite Hw, (put_record_at bits a r c p Er Hpl), bind_Ret. rewrite Ea. exact E. }
  pose proof Hst as (Hc & _). cbn [wr_vol wr_page wr_dirty wp_bufs]. rewrite Hc. split_and!.
  - rewrite <- (sectors_ok shift bb cb bits Hg). apply Hp.
  - apply Hp.
  - split; [|done]. cbn [wp_data]. rewrite Ed, <- Ea, splice_record by lia. done.
  - done.
  - intros nr Hnr. eexists. split; [done|]. apply elem_of_app. right. apply elem_of_app. left. by apply list_elem_of_fmap_2.
  - exact Hst.
Qed.

(** ** A record *)

Definition demo_dev (ok : bool) : BlockDevice := {| bd_write := fun _ d old => if ok then (d, true) else (old, false) |}.
Definition demo_bh (dirty : bool) : wbh := mk_wbh true false false dirty 0.
Definition demo_bytes : list Z := bytes_of demo_record.
Definition demo_rpage (r : list Z) (bufs : option (list wbh)) (locked : bool) : wpage := mk_wpage (repeat 0 1024 ++ r ++ repeat 0 2048) bufs true locked.
(** Record 1, of 1024 bytes, dirty, in a page of $MFT; the mirror has four records. *)
Definition demo_wrec : wrec :=
  mk_wrec 1 false 1024 true (demo_rpage demo_bytes (Some ([demo_bh false; demo_bh false] ++ [demo_bh true; demo_bh false] ++ repeat (demo_bh false) 4)) true)
    (mk_wvol (fun _ => repeat 0 512) (fun _ => inr (demo_rpage (repeat 0 1024) None false)) false).
Definition demo_mft_rl : rl_buf := [mk_rle 0 5 10; mk_rle 10 LCN_ENOENT 0].
Definition demo_mirr_rl : rl_buf := [mk_rle 0 9 1; mk_rle 1 LCN_ENOENT 0].
Definition demo_write (ok sync : bool) : outcome (wrec * Z) := write_mft_record_nolock (BD := demo_dev ok) 12 9 12 10 (Some demo_mft_rl) (Some demo_mirr_rl) true 4 sync demo_wrec.

Lemma demo_located (mft : bool) rl b1 b2 nr1 nr2 : starts_by rl 0 -> (mft = true -> wb_dirty b1 = true) -> buf_ok b1 nr1 -> buf_ok b2 nr2 -> nr1 <> nr2 -> block_at 9 12 rl 1024 nr1 -> block_at 9 12 rl 1536 nr2 ->
  located 9 12 10 mft rl 1 1024 [demo_bh false; demo_bh false] [b1; b2] [nr1; nr2].
Proof.
  intros Hs Hd H1 H2 Hne B1 B2. constructor; try done.
  - intros [|[|k]] nr; cbn; intros E; [injection E as <-; exact B1|injection E as <-; exact B2|done].
  - constructor; [exact H1|]. constructor; [exact H2|]. constructor.
  - apply (NoDup_ListNoDup [nr1; nr2]). repeat constructor; cbn; naive_solver.
  - intros Hm. exists b1. auto.
Qed.

Lemma demo_valid : record_valid demo_bytes (sectors 10) 0x30.
Proof.
  split; [apply (bool_decide_unpack _); by vm_compute|]. split; [by vm_compute|]. assert (E : words_of demo_bytes = demo_record) by (by vm_compute). rewrite E. split; [exact demo_record_ok|]. eexists. split; [reflexivity|]. by split.
Qed.

Lemma demo_ready : page_ready 12 9 12 10 true demo_mft_rl 1 1024 (wr_page demo_wrec) demo_bytes [42; 43].
Proof.
  exists (repeat 0 1024), (repeat 0 2048), [demo_bh false; demo_bh false], [demo_bh true; demo_bh false], (repeat (demo_bh false) 4). split_and!; try reflexivity.
  apply demo_located; try done; [by eexists _, _|by exists 5|by exists 5].
Qed.

Lemma demo_mirror : mirror_ready (BD := demo_dev true) 12 9 12 10 demo_mirr_rl 1 (wr_vol demo_wrec) [74; 75].
Proof.
  exists (demo_rpage (repeat 0 1024) None false), (repeat 0 1024). split_and!; try done.
  exists (repeat 0 1024), (repeat 0 2048), [demo_bh false; demo_bh false], [demo_bh false; demo_bh false], (repeat (demo_bh false) 4). split_and!; try reflexivity.
  apply demo_located; try done; [by eexists _, _|by exists 9|by exists 9].
Qed.

Lemma write_record_correct_witness : exists s' w, demo_write true true = Ret (s', 0) /\
  post_read_mst_fixup (words_of (concat (map (wv_disk (wr_vol s')) [42; 43]))) 1024 = Ret (w, 0) /\ word w 511 = Some 9 /\
  concat (map (wv_disk (wr_vol s')) [74; 75]) = concat (map (wv_disk (wr_vol s')) [42; 43]).
Proof.
  destruct (write_record_correct (BD := demo_dev true) 12 9 12 10 demo_mft_rl demo_mirr_rl 4 true demo_wrec demo_bytes 0x30 [42; 43] [74; 75]) as (s' & r' & E & Hr & Hw & _ & _ & _ & _ & _ & _ & Hm).
  - lia.
  - reflexivity.
  - reflexivity.
  - reflexivity.
  - exact demo_ready.
  - exact demo_valid.
  - intros nr d old _. reflexivity.
  - intros _. split; [exact demo_mirror|]. intros n [->|[->|[]%elem_of_nil]%elem_of_cons]%elem_of_cons; apply (bool_decide_unpack _); vm_compute; exact I.
  - exists s', (words_of r'). split; [exact E|]. split; [exact Hr|]. split; [rewrite (Hw 511 eq_refl); vm_compute; reflexivity|]. apply (Hm ltac:(reflexivity)).
Defined.

(** A record whose write failed is left clean, the inode and its buffers, and is not
    written again. *)
Example failed_write_left_clean :
  match demo_write false true with
  | Ret (s, err) => err = - EIO /\ wr_dirty s = false /\ wb_dirty <$> default [] (wp_bufs (wr_page s)) = repeat false 8 /\ wv_errors (wr_vol s) = true
  | _ => False
  end.
Proof. vm_compute. split_and!; reflexivity. Qed.
